(* ===== verification/_CoqProject ===== *)
-Q . S2P
Prelude.v
Common.v
Bitmap.v
Fifo.v
FifoIds.v
IdQueue.v
Ras.v
IssueQueue.v
Rob.v
CheckpointBuffer.v
Rat.v
RatSync.v
Inflight.v
CsrFile.v
Terminal.v
InterruptInterface.v
Bus.v
Regfile.v
PipelineCommon.v
StoreBuffer.v
Packs.v
Isa.v
Decode.v
DecodeType.v
BranchPredictor.v
Execute.v
ExecuteCsr.v
ExecuteLsu.v
ExecuteBru.v
WriteBack.v
ReadReg.v
Rename.v
Commit.v
CommitRetire.v
CommitWalk.v
CommitRecover.v
Issue.v
IssueSelect.v
IssueCycle.v
Fetch.v
Core.v
Flight.v
FlowStages.v
FlowIssue.v
FlowCommit.v
CoreFlow.v
Status.v
StatusSpec.v
SelfTest.v
Trace.v
TraceSpec.v
Text.v
CsrInfo.v
Receive.v
Remote.v
RemoteSpec.v
