(* ===== verification/Prelude.v ===== *)
(** * A verification library for MyRISC-VCore_Model

    The repository is a cycle-accurate model, in C++, of an out-of-order
    superscalar RV32IM core with machine-mode CSRs and interrupts.  All paths
    below are relative to [src/src/].

    ** The program

    [pipeline/] holds the stages: [fetch] (with the branch predictor) feeds
    [decode], [decode] feeds [rename], [rename] allocates reorder buffer
    entries and physical registers and feeds [readreg], [readreg] looks up the
    operands and feeds [issue], [issue] wakes up, selects and sends
    instructions to the units of [execute/] ([alu], [mul], [div], [lsu],
    [bru], [csr]), the units deliver to [wb] through one-entry ports, and
    [commit] retires in program order and handles exceptions, interrupts and
    mispredictions.  [component/] holds the structures the stages share: the
    queues between them, the register alias table, the physical register
    file, the reorder buffer, the checkpoint buffer, the store buffer, the
    branch predictor with its return address stack, the CSR file, the
    interrupt interface, and the bus with memory and the core-local
    interruptor.  [top_source/main.cpp] creates everything and runs the stages
    once per cycle, from commit back to fetch; what a stage writes for the next
    cycle goes through the [..._sync] calls, which the [sync] of the component
    applies at the end of the cycle.  Between the cycles the same file waits for
    the commands of a debugger, from the console or over a connection; a second
    connection is the terminal of the simulated machine.

    ** How code becomes Rocq

    A class is a [Record] of its data members, a method is a function from
    that record (and its arguments) to the new record and the result.  An
    enumeration or tagged packet is an [Inductive], a struct a [Record] with
    the members' names.  A [uint32_t] is a [Z] in [[0, 2^32)] with the
    wrap-around written out ([u32] below); [bool] is [bool]; an array is a
    list read and written with [arr_get] and [arr_set], which have no result
    outside the array.  A method that can trip an [assert], leave an array or
    call [abort] returns [option], and [None] is that fault; a theorem that
    such a method returns [Some _] therefore also says that no assertion
    fires.  A [do ... while] or [while] loop of the source is a [Fixpoint] on
    fuel with [None] for exhaustion; the fuel is the capacity of the array the
    loop walks (plus one where the test comes first), and every theorem about
    such a loop is proved as an equation with [Some _], from the invariant
    that the occupancy never exceeds the capacity, so the fuel is always
    enough.  Loops over constant bounds recurse on the bound.

    ** Files

    - [Prelude] (this file): faults, arrays, machine integers, record update,
      tactics, and lemmas on lists and bits.
    - [Common]: [top_header/common.h], [top_header/config.h].
    - [Bitmap]: the bit arrays of [component/rat.h] and [regfile.h].
    - [Fifo]: [component/fifo.h]; [FifoIds]: the slot-number helpers that
      [issue_queue.h], [rob.h], [checkpoint_buffer.h] and [store_buffer.h]
      add to it; [IdQueue]: the class of queues with ids, which [Rob] and
      [CheckpointBuffer] instantiate and against which the meaning of their
      deferred updates is proved once.
    - [Ras]: [component/stack.h], [component/ras.h].
    - [IssueQueue], [Rob], [CheckpointBuffer], [Rat], [Regfile],
      [StoreBuffer], [BranchPredictor], [InterruptInterface]: the headers of
      [component/] with those names; [Regfile] also has the renaming set up by
      [init] and [reset] of [top_source/main.cpp].
    - [CsrFile]: [component/csr_base.h], [csr_all.h], [csrfile.h] and
      [component/csr/].
    - [Bus]: [component/bus.h], [slave_base.h], [slave/memory.h],
      [slave/clint.h].
    - [PipelineCommon], [Packs]: the enumerations and packets of [pipeline/].
    - [Isa]: the abstract specification of the instruction set, written from
      the manual and not from the program: instructions, encodings, results.
    - [Decode]: [pipeline/decode.cpp]; [DecodeType]: its packets are well-formed.
    - [Terminal]: the threads of the telnet connection of [main.cpp] and the
      register [charfifo].
    - [Execute]: [pipeline/execute/alu.cpp], [mul.cpp], [div.cpp] and
      [component/port.h]; [ExecuteCsr], [ExecuteLsu], [ExecuteBru]: the other
      three units.
    - [WriteBack], [ReadReg], [Rename], [Commit], [Issue], [Fetch]: the stages
      of [pipeline/] with those names.  [RatSync] and [Inflight] relate the
      alias table to the instructions in flight; [CommitRetire] proves the
      normal cycle of commit, [CommitWalk] exceptions and interrupts,
      [CommitRecover] branches; [IssueSelect] and [IssueCycle] prove the
      selection and the cycle of issue.
    - [Core]: the components, [init], [reset] and the cycle of
      [top_source/main.cpp]; a small program runs on it by evaluation.
    - [Flight]: the instructions between rename and commit, and a cycle of the
      core that flushes them.  [FlowStages], [FlowIssue], [FlowCommit]: what
      each stage does to them; [CoreFlow]: every cycle from reset on.
    - [Status]: the [get_json] of packets, queues, ports and stages and the status
      of the pipeline the debugger shows; [StatusSpec]: the queues it walks over.
    - [SelfTest]: the tests of [test/], which the simulator runs first.
    - [Trace]: [tools/trace/trace.h] and [trace.cpp], the files of signals;
      [TraceSpec]: a reader of these files.
    - [Text]: what the debugger uses of the text streams of the standard library;
      [CsrInfo]: the registers as text ([csr_out_list_cmp], [get_info_packet] of
      [component/csrfile.h]); [Receive]: its messages on the wire ([send_cmd_result],
      [tcp_server_thread_receive_entry]); [Remote]: its commands
      ([socket_cmd_...], [cmd_...]) and the loop of [run], as a machine whose
      steps are events; [RemoteSpec]: what they do.

    ** What is proved

    - Renaming ([Rat], [Regfile]): the invariant of the alias table (every
      architectural register has exactly one visible, allocated physical
      register), kept by every operation inside its contract; allocation
      changes one mapping only; undoing a group in reverse order and
      restoring a checkpoint both give back the mapping; reset establishes
      the invariant whatever memory held; free registers handed out are
      distinct and free.
    - Queues ([Fifo], [IssueQueue], [Rob], [CheckpointBuffer], [StoreBuffer]):
      refinement to lists, through one lemma library on slot numbers;
      [compress] is list filtering; deferred updates are applied in order;
      the store buffer keeps exactly the committed stores on a flush.
    - Memory ([Bus], [StoreBuffer], [ExecuteLsu]): the bus is a little-endian
      byte memory; forwarding gives a load the value it would read after all
      buffered stores have drained; loads and stores of the unit implement
      the instruction set.
    - Instructions ([Decode], [Execute], [ExecuteCsr], [ExecuteBru]): decode
      inverts the encodings of the manual, marks exactly those as valid and
      sends well-formed packets only;
      the units compute the instruction set's results, exceptions included.
      Where the code departs from the manual (the [x0] test of the CSR unit,
      the unread [funct3] of [jalr]) the theorem states what the code does.
    - Prediction ([Ras], [BranchPredictor]): tables are never indexed out of
      range, targets of direct jumps are right, returns are paired with
      calls, and a misprediction repairs the histories.
    - Machine state ([CsrFile], [InterruptInterface], [Bus]): CSR access,
      reset, interrupt priority and acknowledgement, the timer.
    - Stages ([WriteBack], [ReadReg], [Rename], [Issue], [Fetch]): a group
      renamed in a cycle is renamed as its instructions one by one; operands
      come from the register file as it is after the cycle's write-backs;
      issue loses and duplicates nothing, keeps memory accesses in order and
      serialises what acts on the machine state; fetch delivers one path.
    - Commit ([CommitRetire], [CommitWalk], [CommitRecover]): one invariant
      ties alias table, reorder buffer and register file together; retirement
      in order keeps it, an exception is precise and an interrupt is taken
      within a number of cycles given by the reorder buffer, and a
      misprediction gives back the mapping at the branch.
    - The core ([Core], [Flight], [CoreFlow]): a flush empties the whole pipeline
      in one cycle; from reset on, whatever the program, the packets in flight are
      one for one the unfinished entries of the reorder buffer.
    - The debugger ([Receive], [RemoteSpec]): messages arrive as they were sent,
      however the stream is cut; a step is one cycle, a commit step ends with the
      first commit, [continue] runs until a [pause] arrives; memory written is
      memory read; what is no command changes nothing.  A [pause] that overtakes a
      [continue] is lost, which is proved as well.  The status shows every queue
      from reset on as the list it holds ([StatusSpec]), and the text of the
      registers is read back, whatever the order of the hash table and of the sort
      ([CsrInfo]).
    - Traces ([TraceSpec]): a reader of the file gets the declared signals and,
      row by row, the values that were given to them.
    - The tests of the program pass on the model ([SelfTest]).
    - The terminal ([Terminal]): characters are neither lost nor reordered.

    ** Fuel

    [select_loop] and [wake_loop] get the capacity of the issue queue,
    [dispatch_search] the number of units of a kind; [IssueCycle] proves that
    they always end, and the theorems on [issue_run] are equations with [Some _].
    The walks of the status get the capacity of their queue, and [StatusSpec]
    proves that they end.  [read_memory_loop] gets the size asked for, [get_words_loop] the length of the
    text, [receive_loop] the calls of [receive] that are made; [print_digits] gets
    64, the digits of a 64-bit number in base 2.

    ** Not modelled

    [print] and the other output of the console; the calls with which the
    components fill the signals of their traces (the reads that fetch makes for
    the trace go through the assertions of the bus and are kept); the text the
    JSON library makes of an object, which is an argument of the model; the
    sockets, threads and queues of the [asio] library, of which the order of the
    events remains; [component/memory.h] and [test/memory.cpp], which are one
    comment each; and the third-party and guest software beside [src/src/], the
    libraries in [top_header/] included.  The counter of overflows
    of the return address stack is an argument of the cycle; what a program
    reads from variables it never set ([mem], [junk]) is an argument, too. *)

From stdpp Require Import base numbers list option tactics.
From Stdlib Require Import ZArith Lia Zbitwise.

Declare Scope core_scope.
Delimit Scope core_scope with core.

Local Open Scope Z_scope.

(** * Failing computations

    [assert] of [common.h] prints a message and calls [abort()]; an access
    outside an array is undefined behaviour.  Both are the value [None]: a
    theorem that an operation returns [Some _] therefore also says that none
    of its assertions fires and that it stays inside its arrays. *)

Definition assert (cond : bool) : option unit := if cond then Some tt else None.

Definition arr_get {A} (l : list A) (i : Z) : option A :=
  if 0 <=? i then l !! Z.to_nat i else None.

Definition arr_set {A} (l : list A) (i : Z) (x : A) : option (list A) :=
  if (0 <=? i) && (i <? Z.of_nat (length l)) then Some (<[Z.to_nat i := x]> l) else None.

(** * Machine integers

    A [w]-bit unsigned value is a [Z] in [[0, 2^w)]; every operation of the
    source that can leave the range is followed by the wrap of its width. *)

Definition u8 (x : Z) : Z := x mod 2 ^ 8.
Definition u16 (x : Z) : Z := x mod 2 ^ 16.
Definition u32 (x : Z) : Z := x mod 2 ^ 32.
Definition u64 (x : Z) : Z := x mod 2 ^ 64.

Definition is_u32 (x : Z) : Prop := 0 <= x < 2 ^ 32.
Definition is_u64 (x : Z) : Prop := 0 <= x < 2 ^ 64.

(** The cast [(int32_t)x]. *)
Definition s32 (x : Z) : Z := if x <? 2 ^ 31 then x else x - 2 ^ 32.

(** The operators [~x], [x << n] and [x >> n] at width 32. *)
Definition not32 (x : Z) : Z := 2 ^ 32 - 1 - x.
Definition shl32 (x n : Z) : Z := u32 (Z.shiftl x n).
Definition shr32 (x n : Z) : Z := Z.shiftr x n.

(** The values of [i] in [for(i = 0;i < n;i++)]. *)
Definition upto (n : Z) : list Z := Z.of_nat <$> seq 0 (Z.to_nat n).

(** [b ? 1 : 0] *)
Definition bit_of (b : bool) : Z := if b then 1 else 0.

(** * Record update

    [r <| f := v |>] is [r] with the field [f] set to [v].  A record type
    declares its field list once, as an instance of [Eta]; the instance of
    [Setter] for a field is computed from it. *)

Class Eta (R : Type) := eta : R -> R.
Class Setter {R T : Type} (g : R -> T) := upd : (T -> T) -> R -> R.
Arguments upd {R T} g {_} _ _.

Ltac find_setter g :=
  match type of g with
  | ?R -> ?T =>
      let e := constr:(_ : Eta R) in
      let e' := eval hnf in e in
      let p := eval pattern g in e' in
      lazymatch p with
      | (fun _ => ?b) _ => fail "find_setter:" g "is not a field"
      | ?h _ => let t := eval cbv beta in (fun (f : T -> T) => h (fun r : R => f (g r))) in exact t
      end
  end.

#[global] Hint Extern 0 (Setter ?g) => find_setter g : typeclass_instances.

Notation "r <| f := v |>" := (upd f (fun _ => v) r)
  (at level 1, left associativity, f constr at next level, format "r  <| f  :=  v |>") : core_scope.
Notation "r <| f ::= h |>" := (upd f h r)
  (at level 1, left associativity, f constr at next level, format "r  <| f  ::=  h |>") : core_scope.
Open Scope core_scope.

(** * Tactics *)

(** Case analysis on every boolean comparison of [Z] in sight. *)
Ltac bcase :=
  repeat match goal with
    | |- context [Z.ltb ?a ?b] => destruct (Z.ltb_spec a b)
    | |- context [Z.leb ?a ?b] => destruct (Z.leb_spec a b)
    | |- context [Z.eqb ?a ?b] => destruct (Z.eqb_spec a b)
    | H : context [Z.ltb ?a ?b] |- _ => destruct (Z.ltb_spec a b)
    | H : context [Z.leb ?a ?b] |- _ => destruct (Z.leb_spec a b)
    | H : context [Z.eqb ?a ?b] |- _ => destruct (Z.eqb_spec a b)
    end.

(** Splits the conjunctions and existentials of the context. *)
Ltac split_ands :=
  repeat match goal with
    | H : _ /\ _ |- _ => destruct H
    | H : exists _, _ |- _ => destruct H
    end.

(** Steps through an [option] computation of the goal whose head is known. *)
Ltac mstep := progress (cbn [mbind option_bind assert fst snd]).

(** * Lemmas on machine integers *)

Create HintDb word.
Create Rewrite HintDb word.

Lemma u32_range x : 0 <= u32 x < 2 ^ 32.
Proof. apply Z.mod_pos_bound. lia. Qed.

Lemma u64_range x : 0 <= u64 x < 2 ^ 64.
Proof. apply Z.mod_pos_bound. lia. Qed.

Lemma u32_small x : 0 <= x < 2 ^ 32 -> u32 x = x.
Proof. intros. unfold u32. apply Z.mod_small. lia. Qed.

Lemma u64_small x : 0 <= x < 2 ^ 64 -> u64 x = x.
Proof. intros. unfold u64. apply Z.mod_small. lia. Qed.

Lemma u32_idemp x : u32 (u32 x) = u32 x.
Proof. apply u32_small, u32_range. Qed.

Lemma u32_add_r a b : u32 (a + u32 b) = u32 (a + b).
Proof. unfold u32. apply Zplus_mod_idemp_r. Qed.

Lemma u32_add_l a b : u32 (u32 a + b) = u32 (a + b).
Proof. unfold u32. apply Zplus_mod_idemp_l. Qed.

Lemma is_u32_u32 x : is_u32 (u32 x).
Proof. apply u32_range. Qed.

#[export] Hint Resolve u32_range u64_range is_u32_u32 : word.
#[export] Hint Rewrite u32_idemp : word.

Lemma s32_range x : is_u32 x -> - 2 ^ 31 <= s32 x < 2 ^ 31.
Proof. unfold is_u32, s32. intros. bcase; lia. Qed.

Lemma u32_s32 x : is_u32 x -> u32 (s32 x) = x.
Proof.
  unfold is_u32, s32, u32. intros. bcase.
  - apply Z.mod_small. lia.
  - rewrite <- (Z.mod_add _ 1) by lia. rewrite Z.mod_small; lia.
Qed.

Lemma s32_u32 x : - 2 ^ 31 <= x < 2 ^ 31 -> s32 (u32 x) = x.
Proof.
  intros Hx. unfold s32, u32. destruct (decide (0 <= x)).
  - rewrite Z.mod_small by lia. bcase; lia.
  - rewrite <- (Z.mod_add _ 1) by lia. rewrite Z.mod_small by lia. bcase; lia.
Qed.

(** Masks of the form [2^n - 1] and right shifts as [mod] and [div]. *)
Lemma land_low x n : 0 <= n -> Z.land x (2 ^ n - 1) = x mod 2 ^ n.
Proof. intros. rewrite <- Z.land_ones, Z.ones_equiv by lia. f_equal. Qed.

Lemma lor_shiftl_add a b n : 0 <= n -> 0 <= a < 2 ^ n -> Z.lor a (Z.shiftl b n) = a + b * 2 ^ n.
Proof.
  intros Hn Ha. rewrite <- Z.shiftl_mul_pow2 by lia.
  assert (Z.land a (Z.shiftl b n) = 0) as Hd.
  { apply Z.bits_inj'. intros i Hi. rewrite Z.land_spec, Z.bits_0, Z.shiftl_spec by lia.
    destruct (decide (i < n)).
    - rewrite (Z.testbit_neg_r b) by lia. apply andb_false_r.
    - rewrite <- (Z.mod_small a (2 ^ n)) by lia.
      rewrite Z.mod_pow2_bits_high by lia. reflexivity. }
  symmetry. rewrite <- Z.lxor_lor by done. by apply Z.add_nocarry_lxor.
Qed.

(** Ranges from bits. *)
Lemma testbit_high n w i : 0 <= n -> 0 <= w < 2 ^ n -> n <= i -> Z.testbit w i = false.
Proof.
  intros Hn Hw Hi. rewrite <- (Z.mod_small w (2 ^ n)) by lia. apply Z.mod_pow2_bits_high. lia.
Qed.

Lemma range_of_bits n w :
  0 <= n -> 0 <= w -> (forall i, n <= i -> Z.testbit w i = false) -> 0 <= w < 2 ^ n.
Proof.
  intros Hn H0 H. split; [done|]. destruct (Z.lt_ge_cases w (2 ^ n)) as [|Hge]; [done|].
  assert (0 < 2 ^ n) by (apply Z.pow_pos_nonneg; lia). assert (0 < w) as Hpos by lia.
  pose proof (Z.log2_le_pow2 w n Hpos) as [Hl _]. specialize (H (Z.log2 w) (Hl Hge)).
  by rewrite Z.bit_log2 in H by lia.
Qed.

Lemma testbit_not32 y i : 0 <= y < 2 ^ 32 -> 0 <= i < 32 -> Z.testbit (not32 y) i = negb (Z.testbit y i).
Proof.
  intros Hy Hi. unfold not32.
  assert (2 ^ 32 - 1 - y = Z.lnot y mod 2 ^ 32) as ->.
  { unfold Z.lnot. apply Z.mod_unique_pos with (-1); lia. }
  rewrite Z.mod_pow2_bits_low by lia. by rewrite Z.lnot_spec by lia.
Qed.

Lemma lor_range n a b : 0 <= n -> 0 <= a < 2 ^ n -> 0 <= b < 2 ^ n -> 0 <= Z.lor a b < 2 ^ n.
Proof.
  intros. apply range_of_bits; [done|apply Z.lor_nonneg; lia|]. intros i Hi.
  by rewrite Z.lor_spec, !(testbit_high n) by lia.
Qed.

Lemma land_range n a b : 0 <= n -> 0 <= a < 2 ^ n -> 0 <= b -> 0 <= Z.land a b < 2 ^ n.
Proof.
  intros. apply range_of_bits; [done|apply Z.land_nonneg; lia|]. intros i Hi.
  by rewrite Z.land_spec, (testbit_high n a) by lia.
Qed.

Lemma lxor_range n a b : 0 <= n -> 0 <= a < 2 ^ n -> 0 <= b < 2 ^ n -> 0 <= Z.lxor a b < 2 ^ n.
Proof.
  intros. apply range_of_bits; [done|apply Z.lxor_nonneg; lia|]. intros i Hi.
  by rewrite Z.lxor_spec, !(testbit_high n) by lia.
Qed.

Lemma land_bit_eqb x n : 0 <= n -> negb (Z.land x (Z.shiftl 1 n) =? 0) = Z.testbit x n.
Proof.
  intros Hn. rewrite Z.shiftl_1_l. destruct (Z.testbit x n) eqn:E.
  - destruct (Z.eqb_spec (Z.land x (2 ^ n)) 0) as [H0|]; [|done].
    assert (Z.testbit (Z.land x (2 ^ n)) n = false) as F by (rewrite H0; apply Z.bits_0).
    rewrite Z.land_spec, E, Z.pow2_bits_true in F by lia. done.
  - assert (Z.land x (2 ^ n) = 0) as ->; [|done].
    apply Z.bits_inj'. intros i Hi. rewrite Z.land_spec, Z.bits_0.
    destruct (decide (i = n)) as [->|]; [by rewrite E|].
    rewrite Z.pow2_bits_false by done. apply andb_false_r.
Qed.

(** * Bytes *)

(** Byte [k] of a value, least significant first. *)
Definition byte (k v : Z) : Z := u8 (Z.shiftr v (8 * k)).

Lemma byte_range k v : 0 <= byte k v < 256.
Proof. apply (Z.mod_pos_bound _ 256). lia. Qed.

Lemma byte_testbit k v j : 0 <= k -> 0 <= j -> Z.testbit (byte k v) j = (j <? 8) && Z.testbit v (8 * k + j).
Proof.
  intros. unfold byte, u8. bcase; cbn [andb].
  - rewrite Z.mod_pow2_bits_low, Z.shiftr_spec by lia. f_equal. lia.
  - apply Z.mod_pow2_bits_high. lia.
Qed.

Lemma byte_ext x y : (forall i, 0 <= i < 8 -> Z.testbit x i = Z.testbit y i) -> 0 <= x < 256 -> 0 <= y < 256 -> x = y.
Proof.
  intros H Hx Hy. apply Z.bits_inj'. intros i Hi. destruct (decide (i < 8)); [apply H; lia|].
  change 256 with (2 ^ 8) in *. by rewrite !(testbit_high 8) by lia.
Qed.

(** A value of [n] bytes is determined by them. *)
Lemma bytes_inj n x y :
  0 <= n -> 0 <= x < 2 ^ (8 * n) -> 0 <= y < 2 ^ (8 * n) ->
  (forall k, 0 <= k < n -> byte k x = byte k y) -> x = y.
Proof.
  intros Hn Hx Hy H. apply Z.bits_inj'. intros i Hi. destruct (decide (i < 8 * n)).
  - assert (0 <= i / 8 < n) as Hk by (split; [apply Z.div_pos; lia|apply Z.div_lt_upper_bound; lia]).
    assert (0 <= i mod 8 < 8) as Hm by (apply Z.mod_pos_bound; lia).
    specialize (H (i / 8) Hk). apply (f_equal (fun z => Z.testbit z (i mod 8))) in H.
    rewrite !byte_testbit in H by lia. destruct (Z.ltb_spec (i mod 8) 8); [|lia]. cbn in H.
    by rewrite <- Z.div_mod in H by lia.
  - by rewrite !(testbit_high (8 * n)) by lia.
Qed.

(** * Lemmas on arrays *)

Lemma arr_get_Some {A} (l : list A) i x :
  arr_get l i = Some x <-> 0 <= i /\ l !! Z.to_nat i = Some x.
Proof. unfold arr_get. bcase; split; intros; split_ands; try done; lia. Qed.

Lemma arr_get_in_range {A} (l : list A) i :
  0 <= i < Z.of_nat (length l) -> exists x, arr_get l i = Some x.
Proof.
  intros [H1 H2]. destruct (lookup_lt_is_Some_2 l (Z.to_nat i)) as [x Hx]; [lia|].
  exists x. by apply arr_get_Some.
Qed.

Lemma arr_get_lookup {A} (l : list A) i : 0 <= i -> arr_get l i = l !! Z.to_nat i.
Proof. intros. unfold arr_get. by bcase; [|lia]. Qed.

Lemma arr_set_eq {A} (l : list A) i x :
  0 <= i < Z.of_nat (length l) -> arr_set l i x = Some (<[Z.to_nat i := x]> l).
Proof. intros. unfold arr_set. bcase; by try lia. Qed.

Lemma arr_set_Some {A} (l l' : list A) i x :
  arr_set l i x = Some l' <-> 0 <= i < Z.of_nat (length l) /\ l' = <[Z.to_nat i := x]> l.
Proof.
  unfold arr_set. bcase; cbn [andb]; split; intros; split_ands; simplify_eq; by try lia.
Qed.

Lemma arr_get_set_eq {A} (l l' : list A) i x : arr_set l i x = Some l' -> arr_get l' i = Some x.
Proof.
  intros [H ->]%arr_set_Some. apply arr_get_Some. split; [lia|].
  apply list_lookup_insert_eq. lia.
Qed.

Lemma arr_get_set_ne {A} (l l' : list A) i j x :
  arr_set l i x = Some l' -> i <> j -> arr_get l' j = arr_get l j.
Proof.
  intros [H ->]%arr_set_Some Hne. unfold arr_get. bcase; [|done].
  apply list_lookup_insert_ne. lia.
Qed.

Lemma arr_set_length {A} (l l' : list A) i x : arr_set l i x = Some l' -> length l' = length l.
Proof. intros [_ ->]%arr_set_Some. apply length_insert. Qed.

Lemma arr_get_app {A} (l1 l2 : list A) x : arr_get (l1 ++ x :: l2) (Z.of_nat (length l1)) = Some x.
Proof. rewrite arr_get_lookup by lia. rewrite Nat2Z.id. by apply list_lookup_middle. Qed.

Lemma arr_set_middle {A} (l1 l2 : list A) x y :
  arr_set (l1 ++ x :: l2) (Z.of_nat (length l1)) y = Some (l1 ++ y :: l2).
Proof.
  rewrite arr_set_eq by (rewrite length_app; simpl; lia).
  by rewrite Nat2Z.id, <- (Nat.add_0_r (length l1)), insert_app_r.
Qed.

Lemma elem_of_upto n i : i ∈ upto n <-> 0 <= i < n.
Proof.
  unfold upto. rewrite list_elem_of_fmap. split.
  - intros (k & -> & Hk%elem_of_seq). lia.
  - intros. exists (Z.to_nat i). rewrite elem_of_seq. lia.
Qed.

Lemma NoDup_upto n : NoDup (upto n).
Proof. apply NoDup_fmap_2; [intros ???; lia|apply NoDup_seq]. Qed.

(** * Circular buffers

    [ring buf r n] lists the [n] elements of the circular array [buf] that
    start at index [r]. *)

Definition ring {A} (buf : list A) (r n : nat) : list A := take n (drop r (buf ++ buf)).
#[global] Arguments ring : simpl never.

Section ring.
Context {A : Type}.
Implicit Types (buf : list A) (x : A) (r n i s : nat).

Lemma ring_length buf r n : (r + n <= 2 * length buf)%nat -> length (ring buf r n) = n.
Proof. intros. unfold ring. rewrite length_take, length_drop, length_app. lia. Qed.

Lemma ring_slot_lt s r i : (r < s)%nat -> ((r + i) mod s < s)%nat.
Proof. intros. apply Nat.mod_upper_bound. lia. Qed.

Lemma ring_slot_cases s r i :
  (r < s)%nat -> (i <= s)%nat ->
  ((r + i) mod s = if decide (r + i < s) then r + i else r + i - s)%nat.
Proof.
  intros. case_decide; [by apply Nat.mod_small|].
  rewrite <- (Nat.mod_small (r + i - s) s) by lia.
  replace (r + i)%nat with (r + i - s + 1 * s)%nat at 1 by lia. apply Nat.Div0.mod_add.
Qed.

Lemma ring_lookup buf r n i :
  (r < length buf)%nat -> (n <= length buf)%nat -> (i < n)%nat ->
  ring buf r n !! i = buf !! ((r + i) mod length buf)%nat.
Proof.
  intros. unfold ring. rewrite lookup_take_lt, lookup_drop, ring_slot_cases by lia.
  case_decide; [by apply lookup_app_l|]. rewrite lookup_app_r by lia. done.
Qed.

Lemma ring_lookup_ge buf r n i : (n <= i)%nat -> ring buf r n !! i = None.
Proof. intros. unfold ring. apply lookup_take_ge. lia. Qed.

Lemma ring_0 buf r : ring buf r 0 = [].
Proof. done. Qed.

Lemma ring_push buf r n x :
  (r < length buf)%nat -> (n < length buf)%nat ->
  ring (<[((r + n) mod length buf)%nat := x]> buf) r (S n) = ring buf r n ++ [x].
Proof.
  intros Hr Hn. apply list_eq. intros i.
  assert (length (ring buf r n) = n) as Hlen by (apply ring_length; lia).
  destruct (decide (i < n)%nat) as [Hi|Hi].
  { rewrite lookup_app_l by lia. rewrite !ring_lookup by (rewrite ?length_insert; lia).
    rewrite length_insert. apply list_lookup_insert_ne.
    rewrite !ring_slot_cases by lia. repeat case_decide; lia. }
  destruct (decide (i = n)) as [->|].
  - rewrite ring_lookup by (rewrite ?length_insert; lia). rewrite length_insert.
    rewrite list_lookup_insert_eq by (apply ring_slot_lt; lia).
    rewrite lookup_app_r by lia. by rewrite Hlen, Nat.sub_diag.
  - rewrite ring_lookup_ge by lia. symmetry. apply lookup_ge_None_2.
    rewrite length_app, Hlen. simpl. lia.
Qed.

Lemma ring_pop buf r n :
  (r < length buf)%nat -> (n < length buf)%nat ->
  exists x, buf !! r = Some x /\
    ring buf r (S n) = x :: ring buf ((r + 1) mod length buf)%nat n.
Proof.
  intros Hr Hn. destruct (lookup_lt_is_Some_2 buf r Hr) as [x Hx].
  exists x. split; [done|]. apply list_eq. intros [|i].
  - rewrite ring_lookup, Nat.add_0_r, Nat.mod_small by lia. done.
  - cbn [lookup list_lookup]. destruct (decide (i < n)%nat).
    + rewrite !ring_lookup by (try apply ring_slot_lt; lia). f_equal.
      rewrite !ring_slot_cases by (rewrite ?ring_slot_cases by lia; repeat case_decide; lia).
      repeat case_decide; lia.
    + by rewrite !ring_lookup_ge by lia.
Qed.

Lemma ring_update buf r n i x :
  (r < length buf)%nat -> (n <= length buf)%nat -> (i < n)%nat ->
  ring (<[((r + i) mod length buf)%nat := x]> buf) r n = <[i := x]> (ring buf r n).
Proof.
  intros Hr Hn Hi. apply list_eq. intros j.
  assert (length (ring buf r n) = n) as Hlen by (apply ring_length; lia).
  destruct (decide (j < n)%nat).
  - rewrite ring_lookup by (rewrite ?length_insert; lia). rewrite length_insert.
    destruct (decide (i = j)) as [->|].
    + rewrite list_lookup_insert_eq by (apply ring_slot_lt; lia).
      rewrite list_lookup_insert_eq by lia. done.
    + rewrite (list_lookup_insert_ne (ring buf r n)), ring_lookup by lia.
      apply list_lookup_insert_ne. rewrite !ring_slot_cases by lia. repeat case_decide; lia.
  - rewrite ring_lookup_ge by lia. symmetry. apply lookup_ge_None_2. rewrite length_insert. lia.
Qed.

Lemma ring_prefix buf r n m : (m <= n)%nat -> ring buf r m = take m (ring buf r n).
Proof. intros. unfold ring. rewrite take_take. f_equal. lia. Qed.

End ring.
