(* ===== verification/Common.v ===== *)
(** The shared header files: the helper functions and the exception and
    interrupt codes of [top_header/common.h], and the structural constants of
    [top_header/config.h]. *)

From Stdlib Require Import ZArith Lia.
From stdpp Require Import base numbers list option tactics.
From S2P Require Import Prelude.

Local Open Scope Z_scope.

(** * [config.h] *)

Definition FETCH_WIDTH : Z := 4.
Definition DECODE_WIDTH : Z := 4.
Definition RENAME_WIDTH : Z := 4.
Definition READREG_WIDTH : Z := RENAME_WIDTH.
Definition ISSUE_WIDTH : Z := 2.
Definition COMMIT_WIDTH : Z := 4.
Definition PHY_REG_NUM : Z := 128.
Definition ARCH_REG_NUM : Z := 32.
Definition FETCH_DECODE_FIFO_SIZE : Z := 256.
Definition DECODE_RENAME_FIFO_SIZE : Z := 16.
Definition ISSUE_QUEUE_SIZE : Z := 16.
Definition ROB_SIZE : Z := 64.
Definition CHECKPOINT_BUFFER_SIZE : Z := 256.
Definition STORE_BUFFER_SIZE : Z := 16.
Definition ALU_UNIT_NUM : Z := 2.
Definition BRU_UNIT_NUM : Z := 1.
Definition CSR_UNIT_NUM : Z := 1.
Definition DIV_UNIT_NUM : Z := 1.
Definition LSU_UNIT_NUM : Z := 1.
Definition MUL_UNIT_NUM : Z := 2.
Definition EXECUTE_UNIT_NUM : Z :=
  ALU_UNIT_NUM + BRU_UNIT_NUM + CSR_UNIT_NUM + DIV_UNIT_NUM + LSU_UNIT_NUM + MUL_UNIT_NUM.

(** * [common.h] *)

Inductive riscv_exception_t :=
| instruction_address_misaligned
| instruction_access_fault
| illegal_instruction
| breakpoint
| load_address_misaligned
| load_access_fault
| store_amo_address_misaligned
| store_amo_access_fault
| environment_call_from_u_mode
| environment_call_from_s_mode
| reserved_10
| environment_call_from_m_mode
| instruction_page_fault
| load_page_fault
| reserved_14
| store_amo_page_fault.

Inductive riscv_interrupt_t :=
| user_software
| supervisor_software
| reserved_software
| machine_software
| user_timer
| supervisor_timer
| reserved_timer
| machine_timer
| user_external
| supervisor_external
| reserved_external
| machine_external.

#[export] Instance riscv_exception_eq_dec : EqDecision riscv_exception_t.
Proof. solve_decision. Defined.

#[export] Instance riscv_interrupt_eq_dec : EqDecision riscv_interrupt_t.
Proof. solve_decision. Defined.

(** The casts of an enumerator to an integer. *)
Definition exception_code (e : riscv_exception_t) : Z :=
  match e with
  | instruction_address_misaligned => 0
  | instruction_access_fault => 1
  | illegal_instruction => 2
  | breakpoint => 3
  | load_address_misaligned => 4
  | load_access_fault => 5
  | store_amo_address_misaligned => 6
  | store_amo_access_fault => 7
  | environment_call_from_u_mode => 8
  | environment_call_from_s_mode => 9
  | reserved_10 => 10
  | environment_call_from_m_mode => 11
  | instruction_page_fault => 12
  | load_page_fault => 13
  | reserved_14 => 14
  | store_amo_page_fault => 15
  end.

Definition interrupt_code (i : riscv_interrupt_t) : Z :=
  match i with
  | user_software => 0
  | supervisor_software => 1
  | reserved_software => 2
  | machine_software => 3
  | user_timer => 4
  | supervisor_timer => 5
  | reserved_timer => 6
  | machine_timer => 7
  | user_external => 8
  | supervisor_external => 9
  | reserved_external => 10
  | machine_external => 11
  end.

Definition is_align (x access_size : Z) : bool := Z.land x (u32 (access_size - 1)) =? 0.

Definition sign_extend (imm imm_length : Z) : option Z :=
  _ ← assert ((0 <? imm_length) && (imm_length <? 32));
  let sign_bit := shr32 imm (imm_length - 1) in
  Some (Z.lor (if sign_bit =? 0 then 0
               else shl32 (u32 (shl32 sign_bit (32 - imm_length) - 1)) imm_length) imm).

(** * Facts *)

Lemma is_align_1 x : is_align x 1 = true.
Proof. unfold is_align. by rewrite Z.land_0_r. Qed.

Lemma is_align_pow2 x n : 0 <= n < 32 -> is_align x (2 ^ n) = (x mod 2 ^ n =? 0).
Proof.
  intros Hn. unfold is_align.
  assert (2 ^ n < 2 ^ 32) by (apply Z.pow_lt_mono_r; lia).
  rewrite u32_small by lia. by rewrite land_low by lia.
Qed.

(** [sign_extend] of an [n]-bit immediate is its two's complement value. *)
Lemma sign_extend_spec imm n :
  0 < n < 32 -> 0 <= imm < 2 ^ n ->
  sign_extend imm n = Some (u32 (if imm <? 2 ^ (n - 1) then imm else imm - 2 ^ n)).
Proof.
  intros Hn Himm. unfold sign_extend.
  destruct (Z.ltb_spec 0 n) as [_|]; [|lia]. destruct (Z.ltb_spec n 32) as [_|]; [|lia]. cbn.
  f_equal. unfold shr32.
  assert (2 ^ n = 2 * 2 ^ (n - 1)) as Hp by (rewrite <- Z.pow_succ_r by lia; f_equal; lia).
  assert (2 ^ 32 = 2 ^ (32 - n) * 2 ^ n) as H32 by (rewrite <- Z.pow_add_r by lia; f_equal; lia).
  assert (0 < 2 ^ (32 - n)) by (apply Z.pow_pos_nonneg; lia).
  assert (2 ^ n < 2 ^ 32) by (apply Z.pow_lt_mono_r; lia).
  assert (2 ^ (32 - n) < 2 ^ 32) by (apply Z.pow_lt_mono_r; lia).
  assert (0 < 2 ^ (n - 1)) by (apply Z.pow_pos_nonneg; lia).
  rewrite Z.shiftr_div_pow2 by lia.
  destruct (Z.ltb_spec imm (2 ^ (n - 1))).
  - rewrite Z.div_small by lia. change (0 =? 0) with true. cbn iota.
    by rewrite Z.lor_0_l, u32_small by lia.
  - assert (imm / 2 ^ (n - 1) = 1) as ->.
    { symmetry. apply Z.div_unique with (imm - 2 ^ (n - 1)); lia. }
    change (1 =? 0) with false. cbn iota. unfold shl32. rewrite Z.shiftl_1_l.
    rewrite (u32_small (2 ^ (32 - n))) by lia. rewrite (u32_small (2 ^ (32 - n) - 1)) by lia.
    rewrite (u32_small (Z.shiftl _ _)) by (rewrite Z.shiftl_mul_pow2, Z.mul_sub_distr_r by lia; lia).
    rewrite Z.lor_comm, lor_shiftl_add by lia.
    unfold u32. rewrite <- (Z.mod_add (imm - 2 ^ n) 1) by lia. rewrite Z.mod_small; lia.
Qed.

Lemma exception_code_range e : 0 <= exception_code e < 16.
Proof. destruct e; simpl; lia. Qed.

Lemma exception_code_inj e1 e2 : exception_code e1 = exception_code e2 -> e1 = e2.
Proof. by destruct e1, e2. Qed.
