(* ===== verification/Bitmap.v ===== *)
(** Bitmaps in arrays of 64-bit words, as the register alias table and the
    register file keep them ([component/rat.h], [component/regfile.h]): bit
    [i] is bit [i % 64] of word [i / 64]. *)

From Stdlib Require Import ZArith Lia Zbitwise.
From stdpp Require Import base numbers list option tactics.
From S2P Require Import Prelude.

Local Open Scope Z_scope.

(** [~x] at width 64. *)
Definition not64 (x : Z) : Z := 2 ^ 64 - 1 - x.

(** [bm[i / 64] |= 1ULL << (i % 64)] or [bm[i / 64] &= ~(1ULL << (i % 64))] *)
Definition bitmap_set (bm : list Z) (i : Z) (v : bool) : option (list Z) :=
  w ← arr_get bm (i / 64);
  arr_set bm (i / 64)
    (if v then Z.lor w (u64 (Z.shiftl 1 (i mod 64)))
     else Z.land w (not64 (u64 (Z.shiftl 1 (i mod 64))))).

(** [bm[i / 64] & (1ULL << (i % 64))], as a truth value *)
Definition bitmap_get (bm : list Z) (i : Z) : option bool :=
  w ← arr_get bm (i / 64);
  Some (negb (Z.land w (u64 (Z.shiftl 1 (i mod 64))) =? 0)).

(** [memcpy] of [n] array elements. *)
Definition memcpy {A} (dst src : list A) (n : Z) : option (list A) :=
  _ ← assert ((n <=? Z.of_nat (length dst)) && (n <=? Z.of_nat (length src)));
  Some (take (Z.to_nat n) src ++ drop (Z.to_nat n) dst).

(** * Facts *)

Definition bitmap_ok (n : Z) (bm : list Z) : Prop :=
  Z.of_nat (length bm) = (n + 63) / 64 /\ Forall is_u64 bm.

(** The bit as a total function. *)
Definition bit_at (bm : list Z) (i : Z) : bool := default false (bitmap_get bm i).

Lemma memcpy_all {A} (dst src : list A) :
  length dst = length src -> memcpy dst src (Z.of_nat (length src)) = Some src.
Proof.
  intros H. unfold memcpy. rewrite H. bcase; [|lia]. cbn.
  rewrite Nat2Z.id, take_ge, drop_ge by lia. by rewrite app_nil_r.
Qed.

Lemma not64_testbit y i : 0 <= y < 2 ^ 64 -> 0 <= i < 64 -> Z.testbit (not64 y) i = negb (Z.testbit y i).
Proof.
  intros Hy Hi. unfold not64.
  assert (2 ^ 64 - 1 - y = Z.lnot y mod 2 ^ 64) as ->.
  { unfold Z.lnot. apply Z.mod_unique_pos with (-1); lia. }
  rewrite Z.mod_pow2_bits_low by lia. by rewrite Z.lnot_spec by lia.
Qed.

Section bitmap.
Context (n : Z) (bm : list Z) (OK : bitmap_ok n bm).

Lemma bitmap_word i : 0 <= i < n -> exists w, arr_get bm (i / 64) = Some w /\ is_u64 w.
Proof.
  intros Hi. destruct OK as [Hlen Hw].
  destruct (arr_get_in_range bm (i / 64)) as [w Hg].
  { split; [apply Z.div_pos; lia|]. rewrite Hlen. apply Z.div_lt_upper_bound; [lia|].
    pose proof (Z.mod_pos_bound (n + 63) 64). pose proof (Z.div_mod (n + 63) 64). lia. }
  exists w. split; [done|]. apply arr_get_Some in Hg as [_ Hg]. by eapply Forall_lookup_1.
Qed.

Local Lemma shl1 i : 0 <= i -> u64 (Z.shiftl 1 (i mod 64)) = 2 ^ (i mod 64).
Proof.
  intros. pose proof (Z.mod_pos_bound i 64). rewrite Z.shiftl_1_l. apply u64_small.
  split; [apply Z.pow_nonneg; lia|apply Z.pow_lt_mono_r; lia].
Qed.

Lemma bitmap_get_bit i : 0 <= i < n -> bitmap_get bm i = Some (bit_at bm i).
Proof.
  intros Hi. unfold bit_at, bitmap_get. destruct (bitmap_word i Hi) as (w & -> & _). done.
Qed.

Lemma bit_at_testbit i w :
  0 <= i -> arr_get bm (i / 64) = Some w -> bit_at bm i = Z.testbit w (i mod 64).
Proof.
  intros Hi Hw. unfold bit_at, bitmap_get. rewrite Hw. cbn. rewrite shl1, <- Z.shiftl_1_l by lia.
  apply land_bit_eqb. apply Z.mod_pos_bound. lia.
Qed.

(** Setting a bit changes that bit only. *)
Lemma bitmap_set_spec i v :
  0 <= i < n ->
  exists bm', bitmap_set bm i v = Some bm' /\ bitmap_ok n bm' /\
    (forall j, 0 <= j < n -> bit_at bm' j = if decide (j = i) then v else bit_at bm j).
Proof.
  intros Hi. destruct (bitmap_word i Hi) as (w & Hg & Hw). unfold bitmap_set. rewrite Hg. cbn [mbind option_bind].
  rewrite shl1 by lia. pose proof (Z.mod_pos_bound i 64 ltac:(lia)) as Hm.
  assert (0 <= 2 ^ (i mod 64) < 2 ^ 64) as Hp
    by (split; [apply Z.pow_nonneg; lia|apply Z.pow_lt_mono_r; lia]).
  set (w' := if v then _ else _).
  assert (forall k, 0 <= k < 64 -> Z.testbit w' k = if decide (k = i mod 64) then v else Z.testbit w k) as Hbits.
  { intros k Hk. subst w'. destruct v.
    - rewrite Z.lor_spec, Z.pow2_bits_eqb by lia. case_decide; bcase; try lia;
        first [apply orb_true_r|apply orb_false_r].
    - rewrite Z.land_spec, not64_testbit, Z.pow2_bits_eqb by lia. case_decide; bcase; try lia; cbn;
        first [apply andb_false_r|apply andb_true_r]. }
  assert (is_u64 w') as Hw'.
  { subst w'. unfold is_u64, not64 in *. destruct v; [by apply lor_range|apply land_range; lia]. }
  apply arr_get_Some in Hg as Hg'. destruct Hg' as [Hr Hl]. apply lookup_lt_Some in Hl as Hlt.
  rewrite arr_set_eq by lia. eexists. split; [done|]. split.
  - destruct OK as [Hlen Hall]. split; [by rewrite length_insert|]. by apply Forall_insert.
  - intros j Hj. destruct (decide (j / 64 = i / 64)) as [E|E].
    + assert (arr_get bm (j / 64) = Some w) as Hgj by (by rewrite E).
      rewrite (bit_at_testbit j w) by (lia || done).
      assert (0 <= j mod 64 < 64) by (apply Z.mod_pos_bound; lia).
      assert (bit_at (<[Z.to_nat (i / 64) := w']> bm) j = Z.testbit w' (j mod 64)) as ->.
      { unfold bit_at, bitmap_get. rewrite E, arr_get_lookup, list_lookup_insert_eq by lia. cbn.
        rewrite shl1, <- Z.shiftl_1_l by lia. apply land_bit_eqb. lia. }
      rewrite Hbits by lia.
      pose proof (Z.div_mod j 64). pose proof (Z.div_mod i 64).
      destruct (decide (j = i)) as [->|]; [by rewrite decide_True|]. rewrite decide_False by lia. done.
    + rewrite decide_False by congruence. unfold bit_at, bitmap_get.
      assert (0 <= j / 64) by (apply Z.div_pos; lia).
      rewrite !arr_get_lookup, list_lookup_insert_ne by lia. done.
Qed.

End bitmap.

Lemma bitmap_zero n i :
  0 <= n -> bitmap_ok n (repeat 0 (Z.to_nat ((n + 63) / 64))) /\
  bit_at (repeat 0 (Z.to_nat ((n + 63) / 64))) i = false.
Proof.
  intros. assert (0 <= (n + 63) / 64) by (apply Z.div_pos; lia). split.
  - split; [rewrite repeat_length; lia|]. apply Forall_forall. intros x Hx%repeat_spec. subst.
    unfold is_u64. lia.
  - unfold bit_at, bitmap_get, arr_get. destruct (0 <=? i / 64); cbn; [|done].
    destruct (_ !! _) as [x|] eqn:E; cbn; [|done].
    apply list_elem_of_lookup_2, list_elem_of_In, repeat_spec in E. by subst.
Qed.
