(* ===== verification/Fifo.v ===== *)
(** The circular queue [component::fifo<T>] of [component/fifo.h].

    A read and a write pointer run over an array; a stage bit per pointer,
    flipped at every wrap, tells the full queue from the empty one.  In the
    pop-status-save mode fullness is measured from the read pointer as it was
    at the last [reset_pop_status], so that the producer of a pipeline stage
    does not see the slots its consumer frees in the same cycle.

    The abstract counterpart is a bounded list queue; [fifo_run_refines]
    relates every sequence of calls of the two. *)

From Stdlib Require Import ZArith Lia.
From stdpp Require Import base numbers list option tactics.
From S2P Require Import Prelude.

Local Open Scope Z_scope.

Record fifo (T : Type) := mk_fifo {
  buffer : list T;
  size : Z;
  wptr : Z;
  wstage : bool;
  rptr : Z;
  rstage : bool;
  pop_status_save : bool;
  rptr_saved : Z;
  rstage_saved : bool
}.

Arguments mk_fifo {T} _ _ _ _ _ _ _ _ _.
Arguments buffer {T} _.
Arguments size {T} _.
Arguments wptr {T} _.
Arguments wstage {T} _.
Arguments rptr {T} _.
Arguments rstage {T} _.
Arguments pop_status_save {T} _.
Arguments rptr_saved {T} _.
Arguments rstage_saved {T} _.

#[export] Instance fifo_eta {T} : Eta (fifo T) := fun r =>
  mk_fifo (buffer r) (size r) (wptr r) (wstage r) (rptr r) (rstage r)
    (pop_status_save r) (rptr_saved r) (rstage_saved r).

Section operations.
Context {T : Type}.
Implicit Types (f : fifo T) (element : T).

(** The constructor.  [new T[size]] and the members [rptr_saved] and
    [rstage_saved] are left uninitialised by the code: what they hold is the
    argument [mem]. *)
Definition fifo_new (mem : list T * Z * bool) (size : Z) : fifo T :=
  let '(mem_buffer, mem_rptr_saved, mem_rstage_saved) := mem in
  mk_fifo mem_buffer size 0 false 0 false false mem_rptr_saved mem_rstage_saved.

Definition fifo_reset f : fifo T :=
  f <| wptr := 0 |> <| wstage := false |> <| rptr := 0 |> <| rstage := false |>.

Definition fifo_flush f : fifo T :=
  f <| wptr := 0 |> <| wstage := false |> <| rptr := 0 |> <| rstage := false |>.

Definition fifo_is_empty f : bool := (rptr f =? wptr f) && eqb (rstage f) (wstage f).

Definition fifo_is_full f : bool :=
  if pop_status_save f then (rptr_saved f =? wptr f) && negb (eqb (rstage_saved f) (wstage f))
  else (rptr f =? wptr f) && negb (eqb (rstage f) (wstage f)).

Definition fifo_push f element : option (bool * fifo T) :=
  if fifo_is_full f then Some (false, f)
  else
    buffer' ← arr_set (buffer f) (wptr f) element;
    let f := f <| buffer := buffer' |> <| wptr := u32 (wptr f + 1) |> in
    Some (true, if size f <=? wptr f then f <| wptr := 0 |> <| wstage := negb (wstage f) |> else f).

(** [pop], [get_front] and [get_tail] return [false] or store through their
    pointer argument and return [true]: [None] or [Some] of the element. *)
Definition fifo_pop f : option (option T * fifo T) :=
  if fifo_is_empty f then Some (None, f)
  else
    element ← arr_get (buffer f) (rptr f);
    let f := f <| rptr := u32 (rptr f + 1) |> in
    Some (Some element,
          if size f <=? rptr f then f <| rptr := 0 |> <| rstage := negb (rstage f) |> else f).

Definition fifo_get_front f : option (option T) :=
  if fifo_is_empty f then Some None
  else element ← arr_get (buffer f) (rptr f); Some (Some element).

Definition fifo_get_tail f : option (option T) :=
  if fifo_is_empty f then Some None
  else
    element ← arr_get (buffer f) (u32 (u32 (wptr f + size f) - 1) mod size f);
    Some (Some element).

Definition fifo_get_size f : Z :=
  if fifo_is_full f then size f
  else if pop_status_save f then u32 (u32 (wptr f + size f) - rptr_saved f) mod size f
  else u32 (u32 (wptr f + size f) - rptr f) mod size f.

Definition fifo_get_remain_space f : Z := u32 (size f - fifo_get_size f).

Definition fifo_reset_pop_status f : fifo T :=
  f <| rptr_saved := rptr f |> <| rstage_saved := rstage f |>.

Definition fifo_set_pop_status_save f (value : bool) : fifo T :=
  fifo_reset_pop_status (f <| pop_status_save := value |>).

(** The loop of [get_json]: the elements from the read pointer on, [fuel]
    bounding the iterations. *)
Fixpoint fifo_dump_loop (fuel : nat) f (cur : Z) (cur_stage : bool) : option (list T) :=
  match fuel with
  | O => None
  | S fuel =>
      x ← arr_get (buffer f) cur;
      let cur := u32 (cur + 1) in
      let '(cur, cur_stage) :=
        if size f <=? cur then (0, negb cur_stage) else (cur, cur_stage) in
      if (cur =? wptr f) && eqb cur_stage (wstage f) then Some [x]
      else rest ← fifo_dump_loop fuel f cur cur_stage; Some (x :: rest)
  end.

Definition fifo_dump (fuel : nat) f : option (list T) :=
  if fifo_is_empty f then Some [] else fifo_dump_loop fuel f (rptr f) (rstage f).

End operations.

(** * The abstract queue *)

(** [q_items] are the elements of the queue; [q_popped] those popped since the
    last [reset_pop_status], which still take up room in the save mode.
    [q_stale] marks a flush in the save mode that no [reset_pop_status] has
    followed: the saved pointer is meaningless until then. *)
Record queue (T : Type) := mk_queue {
  q_cap : nat;
  q_popped : list T;
  q_items : list T;
  q_save : bool;
  q_stale : bool
}.

Arguments mk_queue {T} _ _ _ _ _.
Arguments q_cap {T} _.
Arguments q_popped {T} _.
Arguments q_items {T} _.
Arguments q_save {T} _.
Arguments q_stale {T} _.

Inductive fifo_op (T : Type) :=
| OpPush (x : T)
| OpPop
| OpGetFront
| OpGetTail
| OpGetSize
| OpGetRemainSpace
| OpIsEmpty
| OpIsFull
| OpSetPopStatusSave (v : bool)
| OpResetPopStatus
| OpReset
| OpFlush
| OpDump.

Arguments OpPush {T} x.
Arguments OpPop {T}.
Arguments OpGetFront {T}.
Arguments OpGetTail {T}.
Arguments OpGetSize {T}.
Arguments OpGetRemainSpace {T}.
Arguments OpIsEmpty {T}.
Arguments OpIsFull {T}.
Arguments OpSetPopStatusSave {T} v.
Arguments OpResetPopStatus {T}.
Arguments OpReset {T}.
Arguments OpFlush {T}.
Arguments OpDump {T}.

Inductive fifo_res (T : Type) :=
| RUnit
| RBool (b : bool)
| RSize (n : Z)
| RElem (x : option T)
| RList (l : list T).

Arguments RUnit {T}.
Arguments RBool {T} b.
Arguments RSize {T} n.
Arguments RElem {T} x.
Arguments RList {T} l.

Section refinement.
Context {T : Type}.
Implicit Types (f : fifo T) (q : queue T).

Definition fifo_step f (op : fifo_op T) : option (fifo_res T * fifo T) :=
  match op with
  | OpPush x => '(b, f') ← fifo_push f x; Some (RBool b, f')
  | OpPop => '(x, f') ← fifo_pop f; Some (RElem x, f')
  | OpGetFront => x ← fifo_get_front f; Some (RElem x, f)
  | OpGetTail => x ← fifo_get_tail f; Some (RElem x, f)
  | OpGetSize => Some (RSize (fifo_get_size f), f)
  | OpGetRemainSpace => Some (RSize (fifo_get_remain_space f), f)
  | OpIsEmpty => Some (RBool (fifo_is_empty f), f)
  | OpIsFull => Some (RBool (fifo_is_full f), f)
  | OpSetPopStatusSave v => Some (RUnit, fifo_set_pop_status_save f v)
  | OpResetPopStatus => Some (RUnit, fifo_reset_pop_status f)
  | OpReset => Some (RUnit, fifo_reset f)
  | OpFlush => Some (RUnit, fifo_flush f)
  | OpDump => l ← fifo_dump (Z.to_nat (size f)) f; Some (RList l, f)
  end.

Definition q_used q : nat := length (q_popped q) + length (q_items q).

Definition q_forget q (save : bool) : queue T := mk_queue (q_cap q) [] (q_items q) save false.

Definition q_clear q : queue T := mk_queue (q_cap q) [] [] (q_save q) (q_save q).

Definition q_pop q : option T * queue T :=
  match q_items q with
  | [] => (None, q)
  | x :: items =>
      (Some x, mk_queue (q_cap q)
                 (if q_save q && negb (q_stale q) then q_popped q ++ [x] else q_popped q)
                 items (q_save q) (q_stale q))
  end.

Definition q_push q (x : T) : bool * queue T :=
  if decide (q_used q = q_cap q) then (false, q)
  else (true, mk_queue (q_cap q) (q_popped q) (q_items q ++ [x]) (q_save q) (q_stale q)).

(** [None]: the call is outside the contract (it asks for the fullness of a
    queue whose saved pointer is stale). *)
Definition q_step q (op : fifo_op T) : option (fifo_res T * queue T) :=
  match op with
  | OpPush x =>
      _ ← assert (negb (q_stale q)); let '(b, q') := q_push q x in Some (RBool b, q')
  | OpPop => let '(x, q') := q_pop q in Some (RElem x, q')
  | OpGetFront => Some (RElem (head (q_items q)), q)
  | OpGetTail => Some (RElem (list.last (q_items q)), q)
  | OpGetSize => _ ← assert (negb (q_stale q)); Some (RSize (Z.of_nat (q_used q)), q)
  | OpGetRemainSpace =>
      _ ← assert (negb (q_stale q)); Some (RSize (Z.of_nat (q_cap q - q_used q)), q)
  | OpIsEmpty => Some (RBool (bool_decide (q_items q = [])), q)
  | OpIsFull => _ ← assert (negb (q_stale q)); Some (RBool (bool_decide (q_used q = q_cap q)), q)
  | OpSetPopStatusSave v => Some (RUnit, q_forget q v)
  | OpResetPopStatus => Some (RUnit, q_forget q (q_save q))
  | OpReset | OpFlush => Some (RUnit, q_clear q)
  | OpDump => Some (RList (q_items q), q)
  end.

Fixpoint fifo_run f (ops : list (fifo_op T)) : option (list (fifo_res T) * fifo T) :=
  match ops with
  | [] => Some ([], f)
  | op :: ops => '(r, f) ← fifo_step f op; '(rs, f) ← fifo_run f ops; Some (r :: rs, f)
  end.

Fixpoint q_run q (ops : list (fifo_op T)) : option (list (fifo_res T) * queue T) :=
  match ops with
  | [] => Some ([], q)
  | op :: ops => '(r, q) ← q_step q op; '(rs, q) ← q_run q ops; Some (r :: rs, q)
  end.

(** * The refinement *)

(** The pointer [k] slots after slot [b] of a ring of [s] slots, and its stage
    bit when the one at [b] is [st]. *)
Definition adv_ptr (s b k : nat) : Z := Z.of_nat ((b + k) mod s).
Definition adv_stage (s b k : nat) (st : bool) : bool := xorb st (Nat.leb s (b + k)).

(** The window of the ring from slot [b] holds the popped elements that still
    count and the elements of the queue, in this order. *)
Record fifo_repr f q (b : nat) (st : bool) : Prop := {
  repr_len : length (buffer f) = q_cap q;
  repr_size : size f = Z.of_nat (q_cap q);
  repr_cap : 0 < Z.of_nat (q_cap q) < 2 ^ 31;
  repr_base : (b < q_cap q)%nat;
  repr_used : (q_used q <= q_cap q)%nat;
  repr_ring : ring (buffer f) b (q_used q) = q_popped q ++ q_items q;
  repr_rptr : rptr f = adv_ptr (q_cap q) b (length (q_popped q));
  repr_rstage : rstage f = adv_stage (q_cap q) b (length (q_popped q)) st;
  repr_wptr : wptr f = adv_ptr (q_cap q) b (q_used q);
  repr_wstage : wstage f = adv_stage (q_cap q) b (q_used q) st;
  repr_save : pop_status_save f = q_save q;
  repr_popped : q_save q && negb (q_stale q) = false -> q_popped q = [];
  repr_stale : q_stale q = true -> q_save q = true;
  repr_rptr_saved : q_save q && negb (q_stale q) = true -> rptr_saved f = Z.of_nat b;
  repr_rstage_saved : q_save q && negb (q_stale q) = true -> rstage_saved f = st
}.

Definition fifo_refines f q : Prop := exists b st, fifo_repr f q b st.

(** ** Pointer arithmetic *)

Lemma adv_cases s b k st :
  (b < s)%nat -> (k <= s)%nat ->
  adv_ptr s b k = Z.of_nat (if decide (b + k < s)%nat then b + k else b + k - s) /\
  adv_stage s b k st = (if decide (b + k < s)%nat then st else negb st).
Proof.
  intros. unfold adv_ptr, adv_stage. rewrite ring_slot_cases by lia.
  split; [done|]. destruct (Nat.leb_spec s (b + k)); case_decide; try lia; by destruct st.
Qed.

(** Two pointers of the window coincide with equal (different) stages exactly
    when they are zero (a whole turn) apart. *)
Lemma adv_same s b i k st :
  (b < s)%nat -> (i <= k <= s)%nat ->
  (adv_ptr s b i =? adv_ptr s b k) && eqb (adv_stage s b i st) (adv_stage s b k st) =
  bool_decide (i = k).
Proof.
  intros. destruct (adv_cases s b i st) as [-> ->]; [lia..|].
  destruct (adv_cases s b k st) as [-> ->]; [lia..|].
  repeat case_decide; destruct st; bcase; case_bool_decide; simpl; lia.
Qed.

Lemma adv_full s b k st :
  (b < s)%nat -> (k <= s)%nat ->
  (Z.of_nat b =? adv_ptr s b k) && negb (eqb st (adv_stage s b k st)) = bool_decide (k = s).
Proof.
  intros. destruct (adv_cases s b k st) as [-> ->]; [lia..|].
  repeat case_decide; destruct st; bcase; case_bool_decide; simpl; lia.
Qed.

(** One step of a pointer, as [push] and [pop] write it. *)
Lemma adv_step s b k st :
  (b < s)%nat -> (k < s)%nat -> Z.of_nat s < 2 ^ 31 ->
  let p := u32 (adv_ptr s b k + 1) in
  (if Z.of_nat s <=? p then 0 else p) = adv_ptr s b (S k) /\
  (if Z.of_nat s <=? p then negb (adv_stage s b k st) else adv_stage s b k st) =
    adv_stage s b (S k) st.
Proof.
  intros ??? p. subst p.
  destruct (adv_cases s b k st) as [-> ->]; [lia..|].
  destruct (adv_cases s b (S k) st) as [-> ->]; [lia..|].
  rewrite u32_small by (case_decide; lia).
  bcase; repeat case_decide; split; try lia; by destruct st.
Qed.

Lemma adv_ptr_lt s b k : (b < s)%nat -> 0 <= adv_ptr s b k < Z.of_nat s.
Proof. intros. unfold adv_ptr. pose proof (ring_slot_lt s b k). lia. Qed.

(** Distance of two pointers, as [get_size] computes it. *)
Lemma adv_distance s b i k :
  (b < s)%nat -> (i <= k <= s)%nat -> (k - i < s)%nat -> Z.of_nat s < 2 ^ 31 ->
  u32 (u32 (adv_ptr s b k + Z.of_nat s) - adv_ptr s b i) mod Z.of_nat s = Z.of_nat (k - i).
Proof.
  intros. destruct (adv_cases s b k true) as [-> _]; [lia..|].
  destruct (adv_cases s b i true) as [-> _]; [lia..|].
  rewrite (u32_small (_ + _)) by (case_decide; lia).
  rewrite u32_small by (repeat case_decide; lia).
  symmetry. repeat case_decide; try lia.
  - apply Z.mod_unique_pos with 1; lia.
  - apply Z.mod_unique_pos with 0; lia.
  - apply Z.mod_unique_pos with 1; lia.
Qed.

Lemma adv_rebase s b i k st :
  (b < s)%nat -> (i <= k <= s)%nat ->
  let b' := ((b + i) mod s)%nat in
  adv_ptr s b' (k - i) = adv_ptr s b k /\
  adv_stage s b' (k - i) (adv_stage s b i st) = adv_stage s b k st /\ (b' < s)%nat.
Proof.
  intros ?? b'. assert (b' < s)%nat by (apply ring_slot_lt; lia).
  assert (b' = if decide (b + i < s)%nat then b + i else b + i - s)%nat as Hb'
    by (apply ring_slot_cases; lia).
  destruct (adv_cases s b' (k - i) (adv_stage s b i st)) as [-> ->]; [lia..|].
  destruct (adv_cases s b k st) as [-> ->]; [lia..|].
  destruct (adv_cases s b i st) as [_ ->]; [lia..|].
  repeat case_decide; repeat split; try lia; by destruct st.
Qed.

(** ** The operations under the representation *)

Section repr.
Context {f : fifo T} {q : queue T} {b : nat} {st : bool} (R : fifo_repr f q b st).

Local Lemma repr_bounds : (length (q_popped q) <= q_used q <= q_cap q)%nat /\ (b < q_cap q)%nat.
Proof. destruct R. unfold q_used in *. lia. Qed.

Lemma repr_is_empty : fifo_is_empty f = bool_decide (q_items q = []).
Proof.
  unfold fifo_is_empty. destruct repr_bounds as [? ?].
  rewrite (repr_rptr _ _ _ _ R), (repr_wptr _ _ _ _ R), (repr_rstage _ _ _ _ R), (repr_wstage _ _ _ _ R).
  rewrite adv_same by done. apply bool_decide_ext. unfold q_used.
  destruct (q_items q); simpl; split; intros; done || lia.
Qed.

(** The pointer fullness is measured from is the base of the window. *)
Lemma repr_base_ptr :
  q_stale q = false ->
  (if pop_status_save f then rptr_saved f else rptr f) = Z.of_nat b /\
  (if pop_status_save f then rstage_saved f else rstage f) = st.
Proof.
  intros Hs. destruct R. rewrite repr_save0. rewrite Hs, andb_true_r in *.
  destruct (q_save q); [by auto|].
  rewrite repr_rptr0, repr_rstage0, (repr_popped0 eq_refl). simpl.
  destruct (adv_cases (q_cap q) b 0 st) as [-> ->]; [lia..|].
  rewrite Nat.add_0_r. by rewrite !decide_True by lia.
Qed.

Lemma repr_is_full : q_stale q = false -> fifo_is_full f = bool_decide (q_used q = q_cap q).
Proof.
  intros Hs. destruct (repr_base_ptr Hs) as [Hp Ht], repr_bounds. unfold fifo_is_full.
  rewrite <- (adv_full (q_cap q) b (q_used q) st) by lia.
  rewrite <- (repr_wptr _ _ _ _ R), <- (repr_wstage _ _ _ _ R), <- Hp, <- Ht.
  by destruct (pop_status_save f).
Qed.

Lemma repr_get_size : q_stale q = false -> fifo_get_size f = Z.of_nat (q_used q).
Proof.
  intros Hs. destruct (repr_base_ptr Hs) as [Hp _], repr_bounds. unfold fifo_get_size.
  rewrite repr_is_full by done. rewrite (repr_size _ _ _ _ R), (repr_wptr _ _ _ _ R).
  pose proof (repr_cap _ _ _ _ R).
  case_bool_decide as E; [by rewrite E|].
  transitivity (Z.of_nat (q_used q - 0)); [|f_equal; lia].
  rewrite <- (adv_distance (q_cap q) b 0) by lia.
  destruct (adv_cases (q_cap q) b 0 st) as [-> _]; [lia..|].
  rewrite Nat.add_0_r, decide_True by lia. rewrite <- Hp. by destruct (pop_status_save f).
Qed.

Lemma repr_get_remain_space :
  q_stale q = false -> fifo_get_remain_space f = Z.of_nat (q_cap q - q_used q).
Proof.
  intros. unfold fifo_get_remain_space. rewrite repr_get_size by done.
  destruct repr_bounds. pose proof (repr_cap _ _ _ _ R). rewrite (repr_size _ _ _ _ R).
  rewrite u32_small; lia.
Qed.

(** The element of the queue at position [i] is in the slot [i] places after
    the read pointer. *)
Lemma repr_slot i :
  (i < length (q_items q))%nat ->
  arr_get (buffer f) (adv_ptr (q_cap q) b (length (q_popped q) + i)) = q_items q !! i.
Proof.
  intros Hi. destruct repr_bounds. pose proof (repr_len _ _ _ _ R) as HL. pose proof (repr_used _ _ _ _ R).
  rewrite arr_get_lookup by (pose proof (adv_ptr_lt (q_cap q) b (length (q_popped q) + i)); lia).
  unfold adv_ptr. rewrite Nat2Z.id. rewrite <- HL.
  rewrite <- (ring_lookup _ _ (q_used q)) by (unfold q_used in *; lia).
  rewrite (repr_ring _ _ _ _ R). rewrite lookup_app_r by lia. f_equal. lia.
Qed.

Lemma repr_get_front : fifo_get_front f = Some (head (q_items q)).
Proof.
  unfold fifo_get_front. rewrite repr_is_empty. case_bool_decide as E; [by rewrite E|].
  rewrite (repr_rptr _ _ _ _ R). pose proof (repr_slot 0) as H. rewrite Nat.add_0_r in H.
  destruct (q_items q) as [|x l]; [done|]. rewrite H by (simpl; lia). done.
Qed.

Lemma repr_get_tail : fifo_get_tail f = Some (list.last (q_items q)).
Proof.
  unfold fifo_get_tail. rewrite repr_is_empty. case_bool_decide as E; [by rewrite E|].
  destruct repr_bounds. pose proof (repr_cap _ _ _ _ R).
  assert (0 < length (q_items q))%nat by (destruct (q_items q); simpl; [done|lia]).
  rewrite (repr_size _ _ _ _ R), (repr_wptr _ _ _ _ R).
  assert (u32 (u32 (adv_ptr (q_cap q) b (q_used q) + Z.of_nat (q_cap q)) - 1) mod Z.of_nat (q_cap q)
          = adv_ptr (q_cap q) b (length (q_popped q) + pred (length (q_items q)))) as ->.
  { unfold q_used in *.
    destruct (adv_cases (q_cap q) b (length (q_popped q) + length (q_items q)) st) as [-> _]; [lia..|].
    destruct (adv_cases (q_cap q) b (length (q_popped q) + pred (length (q_items q))) st) as [-> _]; [lia..|].
    rewrite (u32_small (_ + _)) by (case_decide; lia). rewrite u32_small by (case_decide; lia).
    symmetry. repeat case_decide; try lia; [apply Z.mod_unique_pos with 1 | apply Z.mod_unique_pos with 0
      | apply Z.mod_unique_pos with 1 ]; lia. }
  rewrite repr_slot by lia. rewrite <- last_lookup.
  destruct (list.last (q_items q)) eqn:El; [done|]. by apply last_None in El.
Qed.

Lemma repr_push x :
  q_stale q = false ->
  exists f', fifo_push f x = Some (fst (q_push q x), f') /\ fifo_repr f' (snd (q_push q x)) b st.
Proof.
  intros Hs. unfold fifo_push, q_push. rewrite repr_is_full by done.
  destruct repr_bounds as [Hb1 Hb2].
  pose proof (repr_cap _ _ _ _ R) as Hcap. pose proof (repr_len _ _ _ _ R) as Hlen.
  case_decide as E; [rewrite bool_decide_true by done; by eauto|]. rewrite bool_decide_false by done.
  pose proof (adv_ptr_lt (q_cap q) b (q_used q) Hb2).
  rewrite arr_set_eq by (rewrite (repr_wptr _ _ _ _ R); lia). cbn.
  eexists. split; [reflexivity|].
  destruct (adv_step (q_cap q) b (q_used q) st) as [Hp Ht]; [lia..|].
  assert (q_used (mk_queue (q_cap q) (q_popped q) (q_items q ++ [x]) (q_save q) (q_stale q)) = S (q_used q)) as Hu.
  { unfold q_used. simpl. rewrite length_app. simpl. lia. }
  destruct R. rewrite <- repr_wptr0, <- repr_size0 in Hp, Ht. rewrite <- repr_wstage0 in Ht.
  destruct (size f <=? u32 (wptr f + 1));
    (split; rewrite ?Hu; cbn; [by rewrite length_insert|done..|lia| |done|done| | |done|done|done|done|done]); try done;
    rewrite repr_wptr0; unfold adv_ptr; rewrite Nat2Z.id, <- Hlen, ring_push, repr_ring0, app_assoc; by try lia.
Qed.

Lemma repr_pop :
  exists f' b' st', fifo_pop f = Some (fst (q_pop q), f') /\ fifo_repr f' (snd (q_pop q)) b' st'.
Proof.
  unfold fifo_pop, q_pop. rewrite repr_is_empty. destruct repr_bounds as [Hb1 Hb2].
  destruct (q_items q) as [|x items] eqn:Ei; [rewrite bool_decide_true by done; by eauto|].
  rewrite bool_decide_false by done. rewrite (repr_rptr _ _ _ _ R).
  pose proof (repr_slot 0) as Hx. rewrite Nat.add_0_r, Ei in Hx. rewrite Hx by (simpl; lia). cbn.
  pose proof (repr_cap _ _ _ _ R) as Hcap. pose proof (repr_len _ _ _ _ R) as Hlen.
  set (np := length (q_popped q)) in *.
  assert (q_used q = S (np + length items)) as Hu by (unfold q_used; rewrite Ei; simpl; lia).
  destruct (adv_step (q_cap q) b np st) as [Hp Ht]; [lia..|].
  destruct R. fold np in repr_rptr0, repr_rstage0. rewrite <- repr_rptr0, <- repr_size0 in Hp, Ht. rewrite <- repr_rstage0 in Ht.
  rewrite <- repr_rptr0.
  destruct (q_save q && negb (q_stale q)) eqn:Es.
  - eexists _, b, st. split; [reflexivity|]. cbn.
    assert (q_used (mk_queue (q_cap q) (q_popped q ++ [x]) items (q_save q) (q_stale q)) = q_used q) as Hu'.
    { unfold q_used in *. simpl. rewrite length_app. simpl. lia. }
    destruct (size f <=? u32 (rptr f + 1)); (split; rewrite ?Hu'; cbn; rewrite ?length_app; cbn;
      rewrite ?Nat.add_1_r, ?Es; fold np; try done;
      by rewrite repr_ring0, Ei, <- app_assoc).
  - specialize (repr_popped0 eq_refl). subst np. rewrite repr_popped0 in *. cbn [length Nat.add] in *.
    destruct (adv_rebase (q_cap q) b 1 (q_used q) st) as (Hw & Hws & Hb'); [lia..|].
    eexists _, ((b + 1) mod q_cap q)%nat, (adv_stage (q_cap q) b 1 st).
    split; [reflexivity|]. cbn.
    assert (q_used (mk_queue (q_cap q) [] items (q_save q) (q_stale q)) = q_used q - 1)%nat as Hu'.
    { rewrite Hu. unfold q_used. simpl. lia. }
    destruct (ring_pop (buffer f) b (q_used q - 1)) as (y & Hy & Hr); [lia..|].
    replace (S (q_used q - 1)) with (q_used q) in Hr by lia.
    rewrite repr_ring0, Ei in Hr. cbn in Hr. injection Hr as <- Hr.
    destruct (adv_rebase (q_cap q) b 1 1 st) as (Hr1 & Hrs1 & _); [lia..|]. rewrite Nat.sub_diag in *.
    destruct (size f <=? u32 (rptr f + 1));
      (split; rewrite ?Hu'; cbn; rewrite ?repr_popped0, ?Es; cbn; try done;
       [lia|by rewrite <- Hlen, <- Hr|by rewrite Hr1, <- Hp
       |by rewrite Hrs1, <- Ht|by rewrite Hw|by rewrite Hws]).
Qed.

Lemma repr_forget save :
  exists b' st', fifo_repr (fifo_set_pop_status_save f save) (q_forget q save) b' st'.
Proof.
  destruct repr_bounds as [Hb1 Hb2]. destruct R. set (np := length (q_popped q)) in *.
  destruct (adv_rebase (q_cap q) b np (q_used q) st) as (Hw & Hws & Hb'); [lia..|].
  destruct (adv_rebase (q_cap q) b np np st) as (Hr & Hrs & _); [lia..|]. rewrite Nat.sub_diag in *.
  assert (q_used (q_forget q save) = q_used q - np)%nat as Hu by (unfold q_used; simpl; lia).
  exists ((b + np) mod q_cap q)%nat, (adv_stage (q_cap q) b np st).
  split; rewrite ?Hu; cbn; try done; try lia; try congruence.
  apply list_eq. intros i. destruct (decide (i < q_used q - np)%nat) as [Hi|Hi].
  - rewrite ring_lookup by lia. pose proof (repr_slot i) as Hs.
    unfold q_used in *. rewrite <- Hs by lia. unfold adv_ptr.
    rewrite arr_get_lookup, Nat2Z.id by lia. f_equal. rewrite repr_len0.
    rewrite Nat.Div0.add_mod_idemp_l. f_equal. lia.
  - rewrite ring_lookup_ge by lia. symmetry. apply lookup_ge_None_2. unfold q_used in *. lia.
Qed.

Lemma repr_clear : fifo_repr (fifo_flush f) (q_clear q) 0 false.
Proof.
  destruct R. split; cbn; try done; try lia.
  all: try (unfold adv_ptr; rewrite Nat.mod_small by lia; done).
  all: try (destruct (Nat.leb_spec (q_cap q) 0); [lia|done]).
  all: by destruct (q_save q).
Qed.

Lemma repr_dump_loop fuel i :
  (i < length (q_items q))%nat -> (length (q_items q) - i <= fuel)%nat ->
  fifo_dump_loop fuel f (adv_ptr (q_cap q) b (length (q_popped q) + i))
    (adv_stage (q_cap q) b (length (q_popped q) + i) st) = Some (drop i (q_items q)).
Proof.
  destruct repr_bounds as [Hb1 Hb2]. pose proof (repr_cap _ _ _ _ R) as Hcap.
  revert i. induction fuel as [|fuel IH]; intros i Hi Hf; [lia|]. cbn [fifo_dump_loop].
  rewrite repr_slot by done. destruct (lookup_lt_is_Some_2 (q_items q) i Hi) as [x Hx].
  rewrite Hx. cbn [mbind option_bind].
  unfold q_used in *.
  destruct (adv_step (q_cap q) b (length (q_popped q) + i) st) as [Hp Ht]; [lia..|].
  rewrite <- (repr_size _ _ _ _ R) in Hp, Ht. rewrite (drop_S _ _ _ Hx).
  set (p := u32 _) in *.
  assert ((if size f <=? p then (0, negb (adv_stage (q_cap q) b (length (q_popped q) + i) st))
           else (p, adv_stage (q_cap q) b (length (q_popped q) + i) st)) =
    (adv_ptr (q_cap q) b (length (q_popped q) + S i), adv_stage (q_cap q) b (length (q_popped q) + S i) st)) as ->.
  { rewrite Nat.add_succ_r, <- Hp, <- Ht. by destruct (size f <=? p). }
  rewrite (repr_wptr _ _ _ _ R), (repr_wstage _ _ _ _ R). rewrite adv_same by (unfold q_used; lia).
  unfold q_used. case_bool_decide.
  - rewrite drop_ge by lia. done.
  - rewrite IH by lia. done.
Qed.

Lemma repr_dump : fifo_dump (Z.to_nat (size f)) f = Some (q_items q).
Proof.
  unfold fifo_dump. rewrite repr_is_empty. case_bool_decide as E; [by rewrite E|].
  destruct repr_bounds.
  assert (0 < length (q_items q))%nat by (destruct (q_items q); simpl; [done|lia]).
  pose proof (repr_dump_loop (Z.to_nat (size f)) 0) as H2. rewrite Nat.add_0_r in H2.
  rewrite (repr_rptr _ _ _ _ R), (repr_rstage _ _ _ _ R), H2; [done|lia|].
  rewrite (repr_size _ _ _ _ R). unfold q_used in *. lia.
Qed.

End repr.

(** ** Sequences of calls *)

Lemma fifo_step_refines f q op r q' :
  fifo_refines f q -> q_step q op = Some (r, q') ->
  exists f', fifo_step f op = Some (r, f') /\ fifo_refines f' q'.
Proof.
  intros (b & st & R) Hq. pose proof (repr_is_empty R) as He.
  destruct op; cbn [q_step fifo_step] in *;
    try (destruct (q_stale q) eqn:Hs; [discriminate Hq|]; cbn in Hq).
  - destruct (repr_push R x Hs) as (f' & -> & R'). destruct (q_push q x) as [bb qq].
    simplify_eq. eexists. split; [done|]. by exists b, st.
  - destruct (repr_pop R) as (f' & b' & st' & -> & R'). destruct (q_pop q) as [x qq].
    simplify_eq. eexists. split; [done|]. by exists b', st'.
  - rewrite (repr_get_front R). simplify_eq. eexists. split; [done|]. by exists b, st.
  - rewrite (repr_get_tail R). simplify_eq. eexists. split; [done|]. by exists b, st.
  - rewrite (repr_get_size R Hs). simplify_eq. eexists. split; [done|]. by exists b, st.
  - rewrite (repr_get_remain_space R Hs). simplify_eq. eexists. split; [done|]. by exists b, st.
  - rewrite He. simplify_eq. eexists. split; [done|]. by exists b, st.
  - rewrite (repr_is_full R Hs). simplify_eq. eexists. split; [done|]. by exists b, st.
  - simplify_eq. eexists. split; [done|]. apply (repr_forget R).
  - simplify_eq. eexists. split; [done|].
    destruct (repr_forget R (q_save q)) as (b' & st' & R'). exists b', st'.
    rewrite <- (repr_save _ _ _ _ R) in R' at 1. by destruct f.
  - simplify_eq. eexists. split; [done|]. exists 0%nat, false. apply (repr_clear R).
  - simplify_eq. eexists. split; [done|]. exists 0%nat, false. apply (repr_clear R).
  - rewrite (repr_dump R). simplify_eq. eexists. split; [done|]. by exists b, st.
Qed.

Lemma fifo_run_refines_from ops f q rs q' :
  fifo_refines f q -> q_run q ops = Some (rs, q') ->
  exists f', fifo_run f ops = Some (rs, f') /\ fifo_refines f' q'.
Proof.
  revert f q rs. induction ops as [|op ops IH]; intros f q rs R Hq; cbn in *; [simplify_eq; by eauto|].
  destruct (q_step q op) as [[r q1]|] eqn:E1; [|done]. cbn in Hq.
  destruct (q_run q1 ops) as [[rs1 q2]|] eqn:E2; [|done]. cbn in Hq. simplify_eq.
  destruct (fifo_step_refines _ _ _ _ _ R E1) as (f1 & -> & R1).
  destruct (IH _ _ _ R1 E2) as (f2 & E & R2). cbn. rewrite E. cbn. by eauto.
Qed.

Lemma fifo_new_refines mem_buffer mem_ptr mem_stage :
  0 < Z.of_nat (length mem_buffer) < 2 ^ 31 ->
  fifo_refines (fifo_new (mem_buffer, mem_ptr, mem_stage) (Z.of_nat (length mem_buffer)))
               (mk_queue (length mem_buffer) [] [] false false).
Proof.
  intros H. exists 0%nat, false. split; cbn; try done; try lia.
  all: try (unfold adv_ptr; rewrite Nat.mod_small by lia; done).
  all: destruct (Nat.leb_spec (length mem_buffer) 0); [lia|done].
Qed.

(** C12: the circular buffer refines the bounded queue.  Whatever the fresh
    memory holds, every sequence of calls that stays inside the contract of
    the abstract queue (no question about fullness between a flush in the
    pop-status-save mode and the next [reset_pop_status]) runs without a
    fault on a newly constructed FIFO and returns the answers of the abstract
    queue: elements come out in the order they were pushed, sizes count the
    elements together with those popped since the last [reset_pop_status] in
    the save mode, and a push fails exactly when that count is the
    capacity. *)
Theorem fifo_run_refines mem_buffer mem_ptr mem_stage ops rs q' :
  0 < Z.of_nat (length mem_buffer) < 2 ^ 31 ->
  q_run (mk_queue (length mem_buffer) [] [] false false) ops = Some (rs, q') ->
  exists f', fifo_run (fifo_new (mem_buffer, mem_ptr, mem_stage) (Z.of_nat (length mem_buffer))) ops
             = Some (rs, f') /\ fifo_refines f' q'.
Proof. intros. eapply fifo_run_refines_from; [by apply fifo_new_refines|done]. Qed.

End refinement.

(** A capacity-2 FIFO of numbers driven through a full turn in both modes. *)
Definition fifo_demo_ops : list (fifo_op Z) :=
  [OpPush 5; OpPush 6; OpPush 7; OpIsFull; OpPop; OpPush 8; OpDump; OpSetPopStatusSave true; OpPop;
   OpIsFull; OpPush 9; OpResetPopStatus; OpPush 9; OpGetTail; OpGetSize; OpFlush; OpIsEmpty;
   OpResetPopStatus; OpGetRemainSpace].

Definition fifo_demo_res : list (fifo_res Z) :=
  [RBool true; RBool true; RBool false; RBool true; RElem (Some 5); RBool true; RList [6; 8]; RUnit;
   RElem (Some 6); RBool true; RBool false; RUnit; RBool true; RElem (Some 9); RSize 2; RUnit;
   RBool true; RUnit; RSize 2].

Lemma fifo_run_refines_witness :
  exists f', fifo_run (fifo_new ([0; 0], 77, true) 2) fifo_demo_ops = Some (fifo_demo_res, f').
Proof.
  destruct (fifo_run_refines [0; 0] 77 true fifo_demo_ops fifo_demo_res
              (mk_queue 2 [] [] true false)) as (f' & H & _).
  - simpl. lia.
  - vm_compute. reflexivity.
  - exists f'. exact H.
Defined.

(** Why the contract excludes the calls it does: a flush leaves the saved
    pointer alone, so a queue that wrapped before the last [reset_pop_status]
    is both empty and full after a flush. *)
Example fifo_flush_stale :
  exists f, fifo_run (fifo_new ([0; 0], 0, false) 2)
    [OpSetPopStatusSave true; OpPush 1; OpPush 2; OpPop; OpPop; OpResetPopStatus; OpFlush;
     OpIsEmpty; OpIsFull; OpPush 3]
  = Some ([RUnit; RBool true; RBool true; RElem (Some 1); RElem (Some 2); RUnit; RUnit;
           RBool true; RBool true; RBool false], f).
Proof. eexists. vm_compute. reflexivity. Qed.
