(* ===== verification/FifoIds.v ===== *)
(** Access by slot number.  The queues derived from [component::fifo] (issue
    queue, reorder buffer, checkpoint buffer, store buffer) hand out slot
    numbers of the circular array as ids, and each repeats the same private
    helpers that test and walk them ([component/issue_queue.h],
    [component/rob.h], [component/checkpoint_buffer.h],
    [component/store_buffer.h]).  The helpers and their meaning on the abstract
    queue are here once; the derived classes name them. *)

From Stdlib Require Import ZArith Lia.
From stdpp Require Import base numbers list option tactics.
From S2P Require Import Prelude Fifo.

Local Open Scope Z_scope.

Section ids.
Context {T : Type}.
Implicit Types (f : fifo T).

Definition fifo_check_id_valid f (id : Z) : bool :=
  if fifo_is_empty f then false
  else if eqb (wstage f) (rstage f) then (rptr f <=? id) && (id <? wptr f)
  else ((rptr f <=? id) && (id <? size f)) || (id <? wptr f).

Definition fifo_check_new_id_valid f (id : Z) : bool :=
  if fifo_is_full f then false
  else if eqb (wstage f) (rstage f) then negb ((rptr f <=? id) && (id <? wptr f))
  else negb (((rptr f <=? id) && (id <? size f)) || (id <? wptr f)).

(** The [get_*_id] functions return [false], or store the id through their
    pointer argument and return [true].  [get_next_id] and its kin store the
    id in both cases: the result is the id with the flag returned. *)
Definition fifo_get_front_id f : option Z := if fifo_is_empty f then None else Some (rptr f).

Definition fifo_get_tail_id f : option Z :=
  if fifo_is_empty f then None else Some (u32 (u32 (wptr f + size f) - 1) mod size f).

Definition fifo_get_new_id f : option Z := if fifo_is_full f then None else Some (wptr f).

Definition fifo_get_next_id f (id : Z) : option (Z * bool) :=
  _ ← assert (fifo_check_id_valid f id);
  let next_id := u32 (id + 1) mod size f in
  Some (next_id, fifo_check_id_valid f next_id).

Definition fifo_get_prev_id f (id : Z) : option (Z * bool) :=
  _ ← assert (fifo_check_id_valid f id);
  let prev_id := u32 (u32 (id + size f) - 1) mod size f in
  Some (prev_id, fifo_check_id_valid f prev_id).

(** [None] for the first element: [next_new_id] was not stored. *)
Definition fifo_get_next_new_id f (cur_new_id : Z) : option Z * bool :=
  if negb (fifo_check_new_id_valid f cur_new_id) then (None, false)
  else
    let next_new_id := u32 (cur_new_id + 1) mod size f in
    (Some next_new_id, fifo_check_new_id_valid f next_new_id).

Definition fifo_get_next_id_stage f (id : Z) (stage : bool) : option (Z * bool * bool) :=
  _ ← assert (fifo_check_id_valid f id);
  let next_id := u32 (id + 1) mod size f in
  let next_stage := xorb (size f <=? u32 (id + 1)) stage in
  Some (next_id, next_stage, fifo_check_id_valid f next_id).

(** [get_size] without regard to the pop-status-save mode. *)
Definition fifo_get_size_plain f : Z :=
  if fifo_is_full f then size f else u32 (u32 (wptr f + size f) - rptr f) mod size f.

Definition fifo_get_item_checked f (id : Z) : option T :=
  _ ← assert (fifo_check_id_valid f id); arr_get (buffer f) id.

Definition fifo_set_item_checked f (id : Z) (value : T) : option (fifo T) :=
  _ ← assert (fifo_check_id_valid f id);
  buffer' ← arr_set (buffer f) id value;
  Some (f <| buffer := buffer' |>).

Definition fifo_set_item f (id : Z) (value : T) : option (fifo T) :=
  buffer' ← arr_set (buffer f) id value;
  Some (f <| buffer := buffer' |>).

(** * Windows

    [window f l b st]: outside the pop-status-save mode, the queue holds [l]
    in the slots from [b] on, its read stage being [st]. *)

Definition window_queue f (l : list T) : queue T := mk_queue (length (buffer f)) [] l false false.

Definition window f (l : list T) (b : nat) (st : bool) : Prop :=
  fifo_repr f (window_queue f l) b st.

(** The id of the [k]th element. *)
Definition slot f (b k : nat) : Z := adv_ptr (length (buffer f)) b k.
Definition slot_stage f (b k : nat) (st : bool) : bool := adv_stage (length (buffer f)) b k st.

Lemma window_refines f q :
  fifo_refines f q -> q_save q = false -> q_stale q = false ->
  exists b st, window f (q_items q) b st.
Proof.
  intros (b & st & R) Hs Ht. exists b, st. unfold window, window_queue.
  destruct q as [cap popped items save stale]. cbn in *. subst.
  pose proof (repr_popped _ _ _ _ R eq_refl) as Hp. cbn in Hp. subst popped.
  by rewrite (repr_len _ _ _ _ R).
Qed.

Section window.
Context {f : fifo T} {l : list T} {b : nat} {st : bool} (W : window f l b st).
Abbreviation cap := (length (buffer f)).

Lemma window_facts :
  0 < Z.of_nat cap < 2 ^ 31 /\ size f = Z.of_nat cap /\ (b < cap)%nat /\ (length l <= cap)%nat /\
  rptr f = slot f b 0 /\ rstage f = slot_stage f b 0 st /\
  wptr f = slot f b (length l) /\ wstage f = slot_stage f b (length l) st /\
  pop_status_save f = false.
Proof.
  destruct W as [Hl Hs Hc Hb Hu _ Hr Hrs Hw Hws Hsv _ _ _ _]. split_and!; try assumption; apply Hc.
Qed.

Lemma window_empty : fifo_is_empty f = bool_decide (l = []).
Proof. apply (repr_is_empty W). Qed.

Lemma window_full : fifo_is_full f = bool_decide (length l = cap).
Proof. by apply (repr_is_full W). Qed.

Lemma window_size : fifo_get_size f = Z.of_nat (length l).
Proof. by apply (repr_get_size W). Qed.

Lemma window_size_plain : fifo_get_size_plain f = Z.of_nat (length l).
Proof.
  rewrite <- window_size. unfold fifo_get_size, fifo_get_size_plain.
  by destruct window_facts as (_ & _ & _ & _ & _ & _ & _ & _ & ->).
Qed.

Lemma slot_cases k :
  (k <= cap)%nat ->
  slot f b k = Z.of_nat (if decide (b + k < cap)%nat then b + k else b + k - cap) /\
  slot_stage f b k st = (if decide (b + k < cap)%nat then st else negb st).
Proof. intros. destruct window_facts as (_ & _ & ? & _). by apply adv_cases. Qed.

Lemma slot_range k : 0 <= slot f b k < Z.of_nat cap.
Proof. apply adv_ptr_lt. apply window_facts. Qed.

Lemma slot_inj i j : (i < cap)%nat -> (j < cap)%nat -> slot f b i = slot f b j -> i = j.
Proof.
  intros Hi Hj. destruct window_facts as (_ & _ & ? & _).
  destruct (slot_cases i) as [-> _]; [lia|]. destruct (slot_cases j) as [-> _]; [lia|].
  repeat case_decide; lia.
Qed.

(** Pointer differences in the shape the case analyses need. *)
Local Ltac slots ks :=
  destruct window_facts as (?Hcap & ?Hsize & ?Hb & ?Hlen & ?Hr & ?Hrs & ?Hw & ?Hws & ?Hsv);
  let rec go ks := match ks with
    | ?k :: ?ks' =>
        let H1 := fresh "Sl" in let H2 := fresh "Sl" in
        destruct (slot_cases k) as [H1 H2]; [lia|]; go ks'
    | _ => idtac end in go ks.

Lemma window_valid_slot k : (k < length l)%nat -> fifo_check_id_valid f (slot f b k) = true.
Proof.
  intros Hk. slots [0%nat; length l; k]. unfold fifo_check_id_valid.
  rewrite window_empty, bool_decide_false by (destruct l; simpl in *; [lia|done]).
  rewrite Hr, Hrs, Hw, Hws, Hsize, Sl, Sl0, Sl1, Sl2, Sl3.
  repeat case_decide; try lia; destruct st; simpl; bcase; simpl; lia.
Qed.

Lemma window_valid_inv id :
  0 <= id -> fifo_check_id_valid f id = true -> exists k, (k < length l)%nat /\ id = slot f b k.
Proof.
  intros Hid. slots [0%nat; length l]. unfold fifo_check_id_valid.
  rewrite window_empty. case_bool_decide as E; [done|].
  assert (0 < length l)%nat by (destruct l; simpl; [done|lia]).
  rewrite Hr, Hrs, Hw, Hws, Hsize, Sl, Sl0, Sl1, Sl2. intros Hv.
  assert (exists k, (k < length l)%nat /\
    (id = if decide (b + k < cap)%nat then Z.of_nat (b + k) else Z.of_nat (b + k - cap))) as (k & Hk & ->).
  { destruct (decide (Z.of_nat b <= id)); [exists (Z.to_nat id - b)%nat|exists (Z.to_nat id + cap - b)%nat];
      repeat case_decide; destruct st; simpl in Hv; bcase; simpl in Hv; try done; split; lia. }
  exists k. split; [done|]. destruct (slot_cases k) as [-> _]; [lia|]. clear; by case_decide.
Qed.

(** The next slot, with its stage. *)
Lemma slot_next k :
  (k < cap)%nat -> u32 (slot f b k + 1) mod size f = slot f b (S k).
Proof.
  intros Hk. slots [k; S k]. pose proof (slot_range k). rewrite u32_small, Hsize by lia.
  rewrite Sl, Sl1. symmetry. repeat case_decide; try lia;
    [apply Z.mod_unique_pos with 0 | apply Z.mod_unique_pos with 1 | apply Z.mod_unique_pos with 0]; lia.
Qed.

Lemma slot_next_stage k :
  (k < cap)%nat ->
  xorb (size f <=? u32 (slot f b k + 1)) (slot_stage f b k st) = slot_stage f b (S k) st.
Proof.
  intros Hk. slots [k; S k]. pose proof (slot_range k). rewrite u32_small, Hsize by lia.
  rewrite Sl, Sl0, Sl2. repeat case_decide; bcase; destruct st; simpl; try lia; done.
Qed.

Lemma slot_prev k :
  (k < cap)%nat -> u32 (u32 (slot f b (S k) + size f) - 1) mod size f = slot f b k.
Proof.
  intros Hk. slots [k; S k]. pose proof (slot_range (S k)). rewrite Hsize.
  rewrite (u32_small (_ + _)), u32_small by lia.
  rewrite Sl, Sl1. symmetry. repeat case_decide; try lia;
    [apply Z.mod_unique_pos with 1 | apply Z.mod_unique_pos with 0 | apply Z.mod_unique_pos with 1]; lia.
Qed.

(** The slot after the last element is an element again only in the full
    queue, and then it is the first one. *)
Lemma window_valid_end :
  (0 < length l)%nat -> fifo_check_id_valid f (slot f b (length l)) = bool_decide (length l = cap).
Proof.
  intros Hl. slots [0%nat; length l]. case_bool_decide as E.
  - assert (slot f b (length l) = slot f b 0) as ->.
    { rewrite Sl, Sl1. repeat case_decide; lia. }
    apply window_valid_slot. lia.
  - apply not_true_is_false. intros (k & Hk & Hs)%window_valid_inv; [|apply slot_range].
    apply slot_inj in Hs; lia.
Qed.

Lemma window_next_id k :
  (k < length l)%nat ->
  fifo_get_next_id f (slot f b k) =
    Some (slot f b (S k), bool_decide (S k < length l)%nat || bool_decide (length l = cap)).
Proof.
  intros Hk. destruct window_facts as (_ & _ & _ & ? & _).
  unfold fifo_get_next_id. rewrite window_valid_slot by done. cbn [assert mbind option_bind].
  rewrite slot_next by lia. do 2 f_equal.
  case_bool_decide; [by apply window_valid_slot|].
  replace (S k) with (length l) by lia. apply window_valid_end. lia.
Qed.

Lemma window_next_id_stage k :
  (k < length l)%nat ->
  fifo_get_next_id_stage f (slot f b k) (slot_stage f b k st) =
    Some (slot f b (S k), slot_stage f b (S k) st,
          bool_decide (S k < length l)%nat || bool_decide (length l = cap)).
Proof.
  intros Hk. destruct window_facts as (_ & _ & _ & ? & _).
  pose proof (window_next_id k Hk) as Hn. unfold fifo_get_next_id_stage, fifo_get_next_id in *.
  rewrite window_valid_slot in * by done. cbn [assert mbind option_bind] in *.
  rewrite slot_next_stage by lia. injection Hn as Hn1 Hn2. by rewrite Hn2, Hn1.
Qed.

(** The test [get_next_id(..) && (cur_id != first_id)] that ends the loops
    over the whole queue. *)
Lemma window_loop_test k :
  (k < length l)%nat ->
  (bool_decide (S k < length l)%nat || bool_decide (length l = cap)) &&
    negb (slot f b (S k) =? slot f b 0) = bool_decide (S k < length l)%nat.
Proof.
  intros Hk. slots [0%nat; S k].
  destruct (decide (S k < length l)%nat).
  - rewrite !bool_decide_true by done. cbn. bcase; [|done].
    assert (S k = 0)%nat by (apply slot_inj; lia || done). lia.
  - rewrite (bool_decide_false (S k < length l)%nat) by done. cbn.
    case_bool_decide; [|done]. assert (S k = cap) by lia.
    bcase; [done|]. repeat case_decide; lia.
Qed.

Lemma window_get k : (k < length l)%nat -> arr_get (buffer f) (slot f b k) = l !! k.
Proof. intros. by apply (repr_slot W k). Qed.

Lemma window_get_checked k :
  (k < length l)%nat -> fifo_get_item_checked f (slot f b k) = l !! k.
Proof.
  intros. unfold fifo_get_item_checked. rewrite window_valid_slot by done. cbn. by apply window_get.
Qed.

Lemma window_set k x :
  (k < length l)%nat ->
  exists f', fifo_set_item f (slot f b k) x = Some f' /\ window f' (<[k := x]> l) b st /\
    cap = length (buffer f') /\ rptr f' = rptr f /\ wptr f' = wptr f.
Proof.
  intros Hk. slots [k]. unfold fifo_set_item. rewrite arr_set_eq by apply slot_range.
  cbn. eexists. split; [reflexivity|]. cbn. rewrite length_insert. split_and!; try done.
  assert (q_used (window_queue f l) = length l) as Hu by done.
  assert (length (<[k := x]> l) = length l) as Hli by apply length_insert.
  destruct W as [H1 H2 H3 H4 H5 Hring H7 H8 H9 H10 H11 H12 H13 H14 H15]. unfold window, window_queue.
  split; cbn; rewrite ?length_insert; try done;
    unfold q_used; cbn; rewrite ?Hli; try done.
  unfold slot, adv_ptr. rewrite Nat2Z.id, ring_update by lia.
  change (length l) with (q_used (window_queue f l)) at 1. by rewrite Hring.
Qed.

Lemma window_set_checked k x :
  (k < length l)%nat ->
  exists f', fifo_set_item_checked f (slot f b k) x = Some f' /\ window f' (<[k := x]> l) b st /\
    cap = length (buffer f') /\ rptr f' = rptr f /\ wptr f' = wptr f.
Proof.
  intros. unfold fifo_set_item_checked. rewrite window_valid_slot by done. by apply window_set.
Qed.

(** Moving the write pointer back to the [k]th element cuts the queue there. *)
Lemma window_truncate k :
  (k <= length l)%nat ->
  window (f <| wptr := slot f b k |> <| wstage := slot_stage f b k st |>) (take k l) b st.
Proof.
  intros Hk. slots [k]. unfold window, window_queue in *.
  destruct W as [H1 H2 H3 H4 H5 Hring H7 H8 H9 H10 H11 H12 H13 H14 H15].
  assert (length (take k l) = k) as Ht by (rewrite length_take; lia).
  split; cbn; try done; unfold q_used in *; cbn in *; rewrite ?Ht; try done; [lia|].
  rewrite (ring_prefix _ _ (length l)), Hring by lia. done.
Qed.

Lemma window_front_id : fifo_get_front_id f = if decide (l = []) then None else Some (slot f b 0).
Proof.
  unfold fifo_get_front_id. rewrite window_empty. destruct window_facts as (_ & _ & _ & _ & -> & _).
  case_decide; [by rewrite bool_decide_true|by rewrite bool_decide_false].
Qed.

Lemma window_tail_id :
  fifo_get_tail_id f = if decide (l = []) then None else Some (slot f b (pred (length l))).
Proof.
  unfold fifo_get_tail_id. rewrite window_empty. destruct window_facts as (? & ? & _ & ? & _ & _ & -> & _).
  case_decide; [by rewrite bool_decide_true|]. rewrite bool_decide_false by done.
  assert (0 < length l)%nat by (destruct l; simpl; [done|lia]).
  f_equal. replace (length l) with (S (pred (length l))) at 1 by lia. apply slot_prev. lia.
Qed.

Lemma window_prev_id k :
  (k < length l)%nat ->
  fifo_get_prev_id f (slot f b k) =
    Some (slot f b (if decide (k = 0)%nat then cap - 1 else k - 1),
          negb (bool_decide (k = 0)%nat) || bool_decide (length l = cap)).
Proof.
  intros Hk. slots [k; 0%nat; cap]. unfold fifo_get_prev_id.
  rewrite window_valid_slot by done. cbn [assert mbind option_bind].
  assert (u32 (u32 (slot f b k + size f) - 1) mod size f =
          slot f b (if decide (k = 0)%nat then cap - 1 else k - 1)) as ->.
  { destruct (decide (k = 0)%nat) as [E|E].
    - assert (slot f b k = slot f b (S (cap - 1))) as ->.
      { replace (S (cap - 1)) with cap by lia. rewrite Sl, Sl3. repeat case_decide; lia. }
      apply slot_prev. lia.
    - replace k with (S (k - 1)) at 1 by lia. apply slot_prev. lia. }
  do 2 f_equal. destruct (decide (k = 0)%nat) as [E|E].
  - rewrite bool_decide_true by done. cbn. case_bool_decide as E2.
    + apply window_valid_slot. lia.
    + apply not_true_is_false. intros (j & Hj & Hs)%window_valid_inv; [|apply slot_range].
      apply slot_inj in Hs; lia.
  - rewrite bool_decide_false by done. cbn. apply window_valid_slot. lia.
Qed.

Lemma window_push x :
  (length l < cap)%nat ->
  exists f', fifo_push f x = Some (true, f') /\ window f' (l ++ [x]) b st /\
    cap = length (buffer f') /\ wptr f = slot f b (length l).
Proof.
  intros Hl. destruct (repr_push W x eq_refl) as (f' & E & R).
  unfold q_push in *. rewrite decide_False in * by (unfold q_used; cbn; lia). cbn in *.
  exists f'. split_and!; [done| |symmetry; apply (repr_len _ _ _ _ R)|apply W].
  unfold window, window_queue. by rewrite (repr_len _ _ _ _ R).
Qed.

Lemma window_push_full x : length l = cap -> fifo_push f x = Some (false, f).
Proof. intros Hl. unfold fifo_push. by rewrite window_full, bool_decide_true. Qed.

Lemma window_pop x l' :
  l = x :: l' ->
  exists f' b' st', fifo_pop f = Some (Some x, f') /\ window f' l' b' st' /\ cap = length (buffer f').
Proof.
  intros ->. destruct (repr_pop W) as (f' & b' & st' & E & R). unfold q_pop in *. cbn in *.
  exists f', b', st'. split_and!; [done| |symmetry; apply (repr_len _ _ _ _ R)].
  unfold window, window_queue. by rewrite (repr_len _ _ _ _ R).
Qed.

Lemma window_pop_empty : l = [] -> fifo_pop f = Some (None, f).
Proof. intros E. unfold fifo_pop. by rewrite window_empty, bool_decide_true. Qed.

End window.

(** * The queue as a list of entries

    What the clients of the derived classes see: the elements in queue order,
    each with the id that stays its name until it is popped. *)

Definition fifo_entries f : list (Z * T) :=
  omap (fun k : nat => let id := (rptr f + Z.of_nat k) mod size f in
                       x ← arr_get (buffer f) id; Some (id, x))
    (seq 0 (Z.to_nat (fifo_get_size_plain f))).

(** The queue invariant outside the pop-status-save mode. *)
Definition fifo_ok f : Prop := exists l b st, window f l b st.

Lemma slot_mod f l b st k :
  window f l b st -> (k < length (buffer f))%nat ->
  (rptr f + Z.of_nat k) mod size f = slot f b k.
Proof.
  intros W Hk. destruct (window_facts W) as (Hcap & Hsize & Hb & _ & -> & _).
  rewrite Hsize. unfold slot, adv_ptr. rewrite Nat.add_0_r, (Nat.mod_small b) by lia.
  by rewrite <- Nat2Z.inj_add, Nat2Z.inj_mod.
Qed.

Lemma window_entries f l b st :
  window f l b st -> fifo_entries f = imap (fun k x => (slot f b k, x)) l.
Proof.
  intros W. unfold fifo_entries. rewrite (window_size_plain W), Nat2Z.id.
  destruct (window_facts W) as (_ & _ & _ & Hlen & _).
  assert (forall n k, (k + n <= length l)%nat ->
    omap (fun j : nat => let id := (rptr f + Z.of_nat j) mod size f in
                         x ← arr_get (buffer f) id; Some (id, x)) (seq k n) =
    imap (fun j x => (slot f b (k + j), x)) (take n (drop k l))) as Hgen.
  { induction n as [|n IH]; intros k Hk; [by rewrite take_0|].
    destruct (lookup_lt_is_Some_2 l k) as [x Hx]; [lia|].
    cbn [seq omap list_omap]. rewrite (slot_mod f l b st k W), (window_get W), Hx by lia. cbn.
    rewrite (drop_S _ _ _ Hx). cbn. rewrite Nat.add_0_r, IH by lia. f_equal.
    apply imap_ext. intros. cbn. by rewrite Nat.add_succ_r. }
  rewrite Hgen by lia. by rewrite drop_0, take_ge by lia.
Qed.

Lemma window_entries_lookup f l b st k :
  window f l b st -> fifo_entries f !! k = (fun x => (slot f b k, x)) <$> (l !! k).
Proof. intros W. by rewrite (window_entries _ _ _ _ W), list_lookup_imap. Qed.

Lemma fifo_entries_length f : fifo_ok f -> Z.of_nat (length (fifo_entries f)) = fifo_get_size_plain f.
Proof.
  intros (l & b & st & W). by rewrite (window_entries _ _ _ _ W), length_imap, (window_size_plain W).
Qed.

Lemma fifo_entries_get f id x :
  fifo_ok f -> (id, x) ∈ fifo_entries f -> arr_get (buffer f) id = Some x.
Proof.
  intros (l & b & st & W) [k Hk]%list_elem_of_lookup. rewrite (window_entries_lookup _ _ _ _ _ W) in Hk.
  destruct (l !! k) as [y|] eqn:E; cbn in Hk; [|done]. simplify_eq.
  rewrite (window_get W); [done|by apply lookup_lt_Some in E].
Qed.

(** Ids are unique. *)
Lemma fifo_entries_nodup f : fifo_ok f -> NoDup (map fst (fifo_entries f)).
Proof.
  intros (l & b & st & W). destruct (window_facts W) as (_ & _ & _ & Hlen & _).
  apply NoDup_alt. intros i j id.
  rewrite !list_lookup_fmap, !(window_entries_lookup _ _ _ _ _ W).
  destruct (l !! i) eqn:Ei, (l !! j) eqn:Ej; cbn; intros; simplify_eq.
  apply lookup_lt_Some in Ei, Ej. by apply (slot_inj W); [lia..|].
Qed.

Lemma fifo_entries_push f x :
  fifo_ok f -> fifo_is_full f = false ->
  exists f', fifo_push f x = Some (true, f') /\ fifo_ok f' /\
    fifo_entries f' = fifo_entries f ++ [(wptr f, x)] /\ size f' = size f.
Proof.
  intros (l & b & st & W) Hfull. destruct (window_facts W) as (_ & Hs & _ & Hlen & _).
  rewrite (window_full W) in Hfull. apply bool_decide_eq_false in Hfull.
  destruct (window_push W x) as (f' & E & W' & Hcap & Hw); [lia|].
  destruct (window_facts W') as (_ & Hs' & _).
  exists f'. split_and!; [done|by do 3 eexists| |by rewrite Hs, Hs', Hcap].
  rewrite (window_entries _ _ _ _ W), (window_entries _ _ _ _ W'), imap_app. cbn.
  rewrite Nat.add_0_r, Hw. unfold slot. by rewrite Hcap.
Qed.

Lemma fifo_entries_pop f :
  fifo_ok f ->
  exists f', fifo_pop f = Some (snd <$> head (fifo_entries f), f') /\ fifo_ok f' /\
    fifo_entries f' = tail (fifo_entries f) /\ size f' = size f.
Proof.
  intros (l & b & st & W). destruct (window_facts W) as (_ & Hs & Hb & Hlen & Hr & _).
  destruct l as [|x l].
  { exists f. rewrite (window_pop_empty W) by done. rewrite (window_entries _ _ _ _ W). cbn.
    split_and!; try done. by do 3 eexists. }
  destruct (window_pop W x l eq_refl) as (f' & b' & st' & E & W' & Hcap).
  destruct (window_facts W') as (_ & Hs' & Hb' & _ & Hr' & _).
  exists f'. rewrite E. split_and!; [by rewrite (window_entries _ _ _ _ W)|by do 3 eexists
    | |by rewrite Hs, Hs', Hcap].
  rewrite (window_entries _ _ _ _ W), (window_entries _ _ _ _ W'). cbn.
  assert (slot f' b' 0 = slot f b 1) as H1.
  { rewrite <- Hr'. unfold fifo_pop in E. rewrite (window_empty W) in E. cbn in E.
    rewrite Hr, (window_get W 0) in E by (cbn; lia). cbn in E. injection E as <-.
    pose proof (slot_next W 0) as Hn. rewrite <- Hn by (cbn in Hlen; lia).
    pose proof (slot_range W 0) as Hr0. destruct (window_facts W) as (Hc & _).
    rewrite u32_small by lia. rewrite Hs.
    destruct (Z.leb_spec (Z.of_nat (length (buffer f))) (slot f b 0 + 1)); cbn.
    - replace (slot f b 0 + 1) with (Z.of_nat (length (buffer f))) by lia. by rewrite Z.mod_same by lia.
    - by rewrite Z.mod_small by lia. }
  apply imap_ext. intros k y Hk. cbn. f_equal.
  unfold slot, adv_ptr in *. rewrite <- Hcap in *. apply Nat2Z.inj in H1. f_equal.
  rewrite Nat.add_0_r, (Nat.mod_small b') in H1 by lia. rewrite H1.
  rewrite Nat.Div0.add_mod_idemp_l. f_equal. lia.
Qed.

(** Writing through an id changes the entry of that name and no other; an id
    that names no element is a write to an unused slot. *)
Lemma fifo_entries_set f id x :
  fifo_ok f -> 0 <= id < size f ->
  exists f', fifo_set_item f id x = Some f' /\ fifo_ok f' /\
    fifo_entries f' = map (fun e => if e.1 =? id then (id, x) else e) (fifo_entries f) /\
    size f' = size f.
Proof.
  intros (l & b & st & W) Hid. destruct (window_facts W) as (Hc & Hs & Hb & Hlen & _).
  destruct (fifo_check_id_valid f id) eqn:Ev.
  - destruct (window_valid_inv W id) as (k & Hk & ->); [lia|done|].
    destruct (window_set W k x) as (f' & E & W' & Hcap & _); [done|].
    destruct (window_facts W') as (_ & Hs' & _).
    exists f'. split_and!; [done|by do 3 eexists| |by rewrite Hs, Hs', Hcap].
    apply list_eq. intros j.
    rewrite list_lookup_fmap, (window_entries_lookup _ _ _ _ _ W), (window_entries_lookup _ _ _ _ _ W').
    assert (slot f' b = slot f b) as -> by (unfold slot; by rewrite Hcap).
    destruct (decide (j = k)) as [->|Hne].
    + rewrite list_lookup_insert_eq by done.
      destruct (lookup_lt_is_Some_2 l k Hk) as [y ->]. cbn. by rewrite Z.eqb_refl.
    + rewrite list_lookup_insert_ne by done.
      destruct (l !! j) as [y|] eqn:Ej; cbn; [|done]. apply lookup_lt_Some in Ej.
      bcase; [|done]. destruct Hne. apply (slot_inj W); [lia..|done].
  - unfold fifo_set_item. rewrite arr_set_eq by lia. cbn. eexists. split; [reflexivity|].
    assert (forall k, (k < length l)%nat -> Z.of_nat ((b + k) mod length (buffer f)) <> id) as Hout.
    { intros k Hk <-. pose proof (window_valid_slot W k Hk) as Hv.
      unfold slot, adv_ptr in Hv. congruence. }
    assert (window (f <| buffer := <[Z.to_nat id := x]> (buffer f) |>) l b st) as W'.
    { destruct W as [H1 H2 H3 H4 H5 Hring H7 H8 H9 H10 H11 H12 H13 H14 H15].
      unfold window, window_queue in *. cbn in *. split; cbn; rewrite ?length_insert; try done.
      etrans; [|exact Hring]. apply list_eq. intros j. unfold q_used. cbn.
      destruct (decide (j < length l)%nat) as [Hj|]; [|by rewrite !ring_lookup_ge by lia].
      rewrite !ring_lookup by (rewrite ?length_insert; lia). rewrite length_insert.
      apply list_lookup_insert_ne. specialize (Hout j Hj). lia. }
    split_and!; [by do 3 eexists| |done].
    rewrite (window_entries _ _ _ _ W), (window_entries _ _ _ _ W').
    apply list_eq. intros j. rewrite list_lookup_fmap, !list_lookup_imap.
    destruct (l !! j) as [y|] eqn:Ej; cbn; [|done]. apply lookup_lt_Some in Ej.
    unfold slot, adv_ptr. cbn. rewrite length_insert. specialize (Hout j Ej). by bcase.
Qed.

Lemma fifo_new_ok mem_buffer mem_ptr mem_stage :
  0 < Z.of_nat (length mem_buffer) < 2 ^ 31 ->
  let f := fifo_new (mem_buffer, mem_ptr, mem_stage) (Z.of_nat (length mem_buffer)) in
  fifo_ok f /\ fifo_entries f = [].
Proof.
  intros H f. destruct (window_refines f _ (fifo_new_refines _ _ _ H) eq_refl eq_refl) as (b & st & W).
  split; [by do 3 eexists|]. by rewrite (window_entries _ _ _ _ W).
Qed.

Lemma fifo_flush_ok f : fifo_ok f -> fifo_ok (fifo_flush f) /\ fifo_entries (fifo_flush f) = [].
Proof.
  intros (l & b & st & W). assert (window (fifo_flush f) [] 0 false) as W' by exact (repr_clear W).
  split; [by do 3 eexists|]. by rewrite (window_entries _ _ _ _ W').
Qed.

(** ** Walking over the entries *)

Lemma fifo_entries_split f l1 id x l2 :
  fifo_ok f -> fifo_entries f = l1 ++ (id, x) :: l2 ->
  exists l b st, window f l b st /\ length l = (length l1 + S (length l2))%nat /\ id = slot f b (length l1) /\
    (forall k e, (l1 ++ (id, x) :: l2) !! k = Some e -> e.1 = slot f b k).
Proof.
  intros (l & b & st & W) E. exists l, b, st.
  assert (forall k e, (l1 ++ (id, x) :: l2) !! k = Some e -> e.1 = slot f b k) as H.
  { intros k e He. rewrite <- E, (window_entries_lookup _ _ _ _ k W) in He. by destruct (l !! k); simplify_eq/=. }
  split_and!; [done| | |done].
  - pose proof (fifo_entries_length f ltac:(by exists l, b, st)) as Hl. rewrite (window_size_plain W), E, length_app in Hl.
    cbn in Hl. lia.
  - apply (H (length l1) (id, x)). by rewrite list_lookup_middle.
Qed.

Lemma fifo_entries_front f : fifo_ok f -> fifo_get_front_id f = fst <$> head (fifo_entries f).
Proof.
  intros (l & b & st & W). rewrite (window_front_id W). pose proof (window_entries_lookup _ _ _ _ 0 W) as H.
  rewrite <- head_lookup in H. rewrite H. by destruct l.
Qed.

Lemma fifo_entries_tail f : fifo_ok f -> fifo_get_tail_id f = fst <$> list.last (fifo_entries f).
Proof.
  intros (l & b & st & W). rewrite (window_tail_id W), last_lookup.
  assert (length (fifo_entries f) = length l) as ->.
  { rewrite (window_entries _ _ _ _ W). apply length_imap. }
  rewrite (window_entries_lookup _ _ _ _ _ W). case_decide as E; [by subst|].
  destruct (lookup_lt_is_Some_2 l (pred (length l))) as [x ->]; [|done]. destruct l; [done|]. cbn. lia.
Qed.

(** The id behind an entry, with the test the loops make against the first id. *)
Lemma fifo_entries_next f l1 id x l2 first_id :
  fifo_ok f -> fifo_entries f = l1 ++ (id, x) :: l2 -> fifo_get_front_id f = Some first_id ->
  exists next_id next_ok, fifo_get_next_id f id = Some (next_id, next_ok) /\
    next_ok && negb (next_id =? first_id) = negb (bool_decide (l2 = [])) /\
    (forall e, head l2 = Some e -> next_id = e.1).
Proof.
  intros Hok E Hf. destruct (fifo_entries_split _ _ _ _ _ Hok E) as (l & b & st & W & Hl & -> & H).
  rewrite (window_front_id W) in Hf. case_decide as Ed; [subst; cbn in Hl; lia|]. simplify_eq.
  eexists _, _. split; [apply (window_next_id W); lia|]. split.
  - rewrite (window_loop_test W) by lia. rewrite Hl. destruct l2; cbn; repeat case_bool_decide; done || lia.
  - intros e He. symmetry. apply H. rewrite lookup_app_r by lia.
    replace (S (length l1) - length l1)%nat with 1%nat by lia. by destruct l2.
Qed.

Lemma fifo_entries_prev f l1 id x l2 :
  fifo_ok f -> fifo_entries f = l1 ++ (id, x) :: l2 ->
  exists prev_id prev_ok, fifo_get_prev_id f id = Some (prev_id, prev_ok) /\
    forall e, list.last l1 = Some e -> prev_id = e.1 /\ prev_ok = true.
Proof.
  intros Hok E. destruct (fifo_entries_split _ _ _ _ _ Hok E) as (l & b & st & W & Hl & -> & H).
  eexists _, _. split; [apply (window_prev_id W); lia|]. intros e He. rewrite last_lookup in He.
  assert (length l1 <> 0%nat) as Hn by (destruct l1; cbn in *; done || lia).
  rewrite decide_False by lia. rewrite bool_decide_false by lia. split; [|done].
  symmetry. replace (length l1 - 1)%nat with (pred (length l1)) by lia. apply H. rewrite lookup_app_l; [done|].
  by apply lookup_lt_Some in He.
Qed.

End ids.
