(* ===== verification/IdQueue.v ===== *)
(** The interface of a queue with ids: what the reorder buffer and the
    checkpoint buffer promise to the pipeline stages that use them.  The
    contract is stated on the list of entries (id and item, oldest first);
    the deferred updates both classes collect during a cycle are given their
    meaning here, once, against the interface. *)

From Stdlib Require Import ZArith Lia.
From stdpp Require Import base numbers list option tactics.
From S2P Require Import Prelude.

Local Open Scope Z_scope.

(** The requests collected by [set_item_sync] and [pop_sync]. *)
Inductive sync_request (A : Type) :=
| req_pop
| req_set_item (arg1 : Z) (arg2 : A).

Arguments req_pop {A}.
Arguments req_set_item {A} _ _.

(** The entries after naming [id] to be [x]; nothing happens when no entry has
    that name. *)
Definition entries_set {A} (es : list (Z * A)) (id : Z) (x : A) : list (Z * A) :=
  map (fun e => if e.1 =? id then (id, x) else e) es.

Class IdQueue (Q A : Type) := {
  idq_ok : Q -> Prop;
  idq_cap : Q -> Z;
  idq_entries : Q -> list (Z * A);
  idq_get : Q -> Z -> option A;
  idq_set : Q -> Z -> A -> option Q;
  idq_push : Q -> A -> option (bool * Z * Q);
  idq_pop : Q -> option (bool * Q);

  idq_nodup q : idq_ok q -> NoDup (map fst (idq_entries q));
  idq_get_entry q id x : idq_ok q -> (id, x) ∈ idq_entries q -> idq_get q id = Some x;
  idq_bounded q : idq_ok q -> Z.of_nat (length (idq_entries q)) <= idq_cap q;
  idq_set_ok q id x :
    idq_ok q -> 0 <= id < idq_cap q ->
    exists q', idq_set q id x = Some q' /\ idq_ok q' /\ idq_cap q' = idq_cap q /\
      idq_entries q' = entries_set (idq_entries q) id x;
  idq_push_ok q x :
    idq_ok q ->
    exists id q', idq_ok q' /\ idq_cap q' = idq_cap q /\
      (if Z.of_nat (length (idq_entries q)) <? idq_cap q
       then idq_push q x = Some (true, id, q') /\ idq_entries q' = idq_entries q ++ [(id, x)]
       else idq_push q x = Some (false, id, q') /\ idq_entries q' = idq_entries q);
  idq_pop_ok q :
    idq_ok q ->
    exists q', idq_pop q = Some (negb (bool_decide (idq_entries q = [])), q') /\ idq_ok q' /\
      idq_cap q' = idq_cap q /\ idq_entries q' = tail (idq_entries q)
}.

Section client.
Context `{IdQueue Q A}.
Implicit Types (q : Q) (es : list (Z * A)).

(** Applying the requests one after the other. *)
Definition idq_apply q (r : sync_request A) : option Q :=
  match r with
  | req_pop => '(_, q) ← idq_pop q; Some q
  | req_set_item id x => idq_set q id x
  end.

Fixpoint idq_apply_all q (rs : list (sync_request A)) : option Q :=
  match rs with
  | [] => Some q
  | r :: rs => q ← idq_apply q r; idq_apply_all q rs
  end.

Definition entries_apply es (r : sync_request A) : list (Z * A) :=
  match r with
  | req_pop => tail es
  | req_set_item id x => entries_set es id x
  end.

Definition request_in_range (cap : Z) (r : sync_request A) : Prop :=
  match r with req_pop => True | req_set_item id _ => 0 <= id < cap end.

Lemma idq_apply_all_entries rs q :
  idq_ok q -> Forall (request_in_range (idq_cap q)) rs ->
  exists q', idq_apply_all q rs = Some q' /\ idq_ok q' /\ idq_cap q' = idq_cap q /\
    idq_entries q' = fold_left entries_apply rs (idq_entries q).
Proof.
  revert q. induction rs as [|r rs IH]; intros q Hok Hrs; [by exists q|].
  apply Forall_cons_iff in Hrs as [Hr Hrs]. cbn [idq_apply_all fold_left].
  assert (exists q1, idq_apply q r = Some q1 /\ idq_ok q1 /\ idq_cap q1 = idq_cap q /\
    idq_entries q1 = entries_apply (idq_entries q) r) as (q1 & -> & Hok1 & Hcap1 & <-).
  { destruct r as [|id x]; cbn in *.
    - destruct (idq_pop_ok q Hok) as (q1 & -> & ? & ? & ?). by exists q1.
    - by apply idq_set_ok. }
  cbn. destruct (IH q1 Hok1) as (q' & ? & ? & ? & ?); [by rewrite Hcap1|].
  exists q'. split_and!; try done. congruence.
Qed.

(** A deferred write is visible under its id, and only there. *)
Lemma entries_set_lookup es id x k e :
  es !! k = Some e ->
  entries_set es id x !! k = Some (if e.1 =? id then (id, x) else e).
Proof. intros E. unfold entries_set. by rewrite list_lookup_fmap, E. Qed.

Lemma entries_set_ids es id x : map fst (entries_set es id x) = map fst es.
Proof.
  unfold entries_set. rewrite map_map. apply map_ext. intros [i y]. cbn. by bcase; subst.
Qed.

(** Pushing a whole group, as rename does when the free space allows it. *)
Fixpoint idq_push_all q (xs : list A) : option (list Z * Q) :=
  match xs with
  | [] => Some ([], q)
  | x :: xs =>
      '(ret, id, q) ← idq_push q x;
      _ ← assert ret;
      '(ids, q) ← idq_push_all q xs;
      Some (id :: ids, q)
  end.

Lemma idq_push_all_entries (xs : list A) q :
  idq_ok q -> Z.of_nat (length (idq_entries q)) + Z.of_nat (length xs) <= idq_cap q ->
  exists ids q', idq_push_all q xs = Some (ids, q') /\ idq_ok q' /\ idq_cap q' = idq_cap q /\
    length ids = length xs /\ idq_entries q' = idq_entries q ++ zip ids xs.
Proof.
  revert q. induction xs as [|x xs IH]; intros q Hok Hlen; cbn [idq_push_all length] in *.
  { exists [], q. by rewrite app_nil_r. }
  destruct (idq_push_ok q x Hok) as (id & q1 & Hok1 & Hcap1 & Hpush).
  destruct (Z.ltb_spec (Z.of_nat (length (idq_entries q))) (idq_cap q)) as [_|]; [|lia].
  destruct Hpush as [-> He1]. cbn [mbind option_bind assert].
  destruct (IH q1 Hok1) as (ids & q' & -> & ? & ? & ? & He'); [rewrite He1, length_app, Hcap1; simpl; lia|].
  cbn. exists (id :: ids), q'. split_and!; try done; [congruence|simpl; lia|].
  rewrite He', He1, <- app_assoc. done.
Qed.

End client.
