(* ===== verification/Ras.v ===== *)
(** The array stack [component::stack<T>] of [component/stack.h] and the
    return address stack [component::ras] of [component/ras.h] built on it.

    The return address stack run-length encodes consecutive pushes of the same
    address, so that a recursion takes one entry; when every entry is in use a
    push throws the oldest one away.  [ras_run_refines]: as long as the number
    of runs fits, it behaves as an unbounded stack of addresses. *)

From Stdlib Require Import ZArith Lia.
From stdpp Require Import base numbers list option tactics.
From S2P Require Import Prelude.

Local Open Scope Z_scope.

Record stack (T : Type) := mk_stack {
  st_buffer : list T;
  st_size : Z;
  top_ptr : Z
}.

Arguments mk_stack {T} _ _ _.
Arguments st_buffer {T} _.
Arguments st_size {T} _.
Arguments top_ptr {T} _.

#[export] Instance stack_eta {T} : Eta (stack T) := fun r =>
  mk_stack (st_buffer r) (st_size r) (top_ptr r).

Section stack_operations.
Context {T : Type}.
Implicit Types (s : stack T).

(** [mem]: the uninitialised array of [new T[size]]. *)
Definition stack_new (mem : list T) (size : Z) : stack T := mk_stack mem size 0.

Definition stack_reset s : stack T := s <| top_ptr := 0 |>.

Definition stack_flush s : stack T := s <| top_ptr := 0 |>.

Definition stack_is_empty s : bool := top_ptr s =? 0.

Definition stack_is_full s : bool := top_ptr s =? st_size s.

Definition stack_push s (element : T) : option (bool * stack T) :=
  if stack_is_full s then Some (false, s)
  else
    buffer' ← arr_set (st_buffer s) (top_ptr s) element;
    Some (true, s <| st_buffer := buffer' |> <| top_ptr := u32 (top_ptr s + 1) |>).

Definition stack_pop s : option (option T * stack T) :=
  if stack_is_empty s then Some (None, s)
  else
    let s := s <| top_ptr := u32 (top_ptr s - 1) |> in
    element ← arr_get (st_buffer s) (top_ptr s);
    Some (Some element, s).

Definition stack_get_top s : option (option T) :=
  if stack_is_empty s then Some None
  else element ← arr_get (st_buffer s) (u32 (top_ptr s - 1)); Some (Some element).

End stack_operations.

Record ras_item_t := mk_ras_item { addr : Z; cnt : Z }.

#[export] Instance ras_item_eta : Eta ras_item_t := fun r => mk_ras_item (addr r) (cnt r).

Record ras := mk_ras { ras_stack : stack ras_item_t; last_addr : Z }.

#[export] Instance ras_eta : Eta ras := fun r => mk_ras (ras_stack r) (last_addr r).

Definition ras_new (mem : list ras_item_t) (size : Z) : ras := mk_ras (stack_new mem size) 0.

Definition ras_reset (r : ras) : ras :=
  r <| last_addr := 0 |> <| ras_stack ::= stack_reset |>.

Definition ras_get_item (r : ras) (item_id : Z) : option ras_item_t :=
  arr_get (st_buffer (ras_stack r)) item_id.

Definition ras_set_item (r : ras) (item_id : Z) (item : ras_item_t) : option ras :=
  buffer' ← arr_set (st_buffer (ras_stack r)) item_id item;
  Some (r <| ras_stack ::= fun s => s <| st_buffer := buffer' |> |>).

Definition ras_get_top_id (r : ras) : option Z :=
  if stack_is_empty (ras_stack r) then None else Some (u32 (top_ptr (ras_stack r) - 1)).

(** The loop of [throw_push], with [n] iterations left, from index [i]. *)
Fixpoint throw_push_loop (n : nat) (i : Z) (buf : list ras_item_t) : option (list ras_item_t) :=
  match n with
  | O => Some buf
  | S n => x ← arr_get buf i; buf' ← arr_set buf (u32 (i - 1)) x; throw_push_loop n (i + 1) buf'
  end.

Definition ras_throw_push (r : ras) (item : ras_item_t) : option ras :=
  let s := ras_stack r in
  buf ← throw_push_loop (Z.to_nat (top_ptr s - 1)) 1 (st_buffer s);
  buf ← arr_set buf (u32 (top_ptr s - 1)) item;
  Some (r <| ras_stack := s <| st_buffer := buf |> |>).

(** The result also tells whether [ras_full_add()] was called. *)
Definition ras_push_addr (r : ras) (a : Z) : option (bool * ras) :=
  top ← stack_get_top (ras_stack r);
  let fresh :=
    let t_item := mk_ras_item a 1 in
    if stack_is_full (ras_stack r) then
      r' ← ras_throw_push r t_item; Some (true, r')
    else
      '(_, s) ← stack_push (ras_stack r) t_item; Some (false, r <| ras_stack := s |>) in
  match top with
  | Some t_item =>
      if (addr t_item =? a) && (cnt t_item <? 4294967295) then
        let t_item := t_item <| cnt := u32 (cnt t_item + 1) |> in
        item_id ← ras_get_top_id r;
        r' ← ras_set_item r item_id t_item;
        Some (false, r')
      else fresh
  | None => fresh
  end.

Definition ras_pop_addr (r : ras) : option (Z * ras) :=
  top ← stack_get_top (ras_stack r);
  match top with
  | Some t_item =>
      if cnt t_item =? 1 then
        let r := r <| last_addr := addr t_item |> in
        '(popped, s) ← stack_pop (ras_stack r);
        Some (addr (default t_item popped), r <| ras_stack := s |>)
      else
        let t_item := t_item <| cnt := u32 (cnt t_item - 1) |> in
        item_id ← ras_get_top_id r;
        r' ← ras_set_item r item_id t_item;
        Some (addr t_item, r')
  | None => Some (last_addr r, r)
  end.

(** * The abstract stack of addresses *)

(** The number of maximal runs of equal addresses. *)
Fixpoint runs (l : list Z) : nat :=
  match l with
  | [] => 0
  | [_] => 1
  | x :: ((y :: _) as l') => if x =? y then runs l' else S (runs l')
  end.

(** A stack of addresses, top first, and the address popped last. *)
Definition addr_stack : Type := list Z * Z.

(** [None]: the runs no longer fit in [n] entries (or a run no longer fits in
    its 32-bit counter), and the oldest addresses would be lost. *)
Definition as_push (n : nat) (s : addr_stack) (a : Z) : option addr_stack :=
  _ ← assert (bool_decide (runs (a :: s.1) <= n)%nat && (Z.of_nat (length s.1) <? 2 ^ 32 - 1));
  Some (a :: s.1, s.2).

Definition as_pop (s : addr_stack) : Z * addr_stack :=
  match s.1 with
  | [] => (s.2, s)
  | x :: l => (x, (l, x))
  end.

Inductive ras_op := RasPush (a : Z) | RasPop.

Fixpoint ras_run (r : ras) (ops : list ras_op) : option (list Z * ras) :=
  match ops with
  | [] => Some ([], r)
  | RasPush a :: ops => '(_, r) ← ras_push_addr r a; ras_run r ops
  | RasPop :: ops => '(x, r) ← ras_pop_addr r; '(xs, r) ← ras_run r ops; Some (x :: xs, r)
  end.

Fixpoint as_run (n : nat) (s : addr_stack) (ops : list ras_op) : option (list Z * addr_stack) :=
  match ops with
  | [] => Some ([], s)
  | RasPush a :: ops => s ← as_push n s a; as_run n s ops
  | RasPop :: ops => let '(x, s) := as_pop s in '(xs, s) ← as_run n s ops; Some (x :: xs, s)
  end.

(** * The representation *)

(** The entries in use, top first, and the addresses they stand for. *)
Definition ras_items (r : ras) : list ras_item_t :=
  rev (take (Z.to_nat (top_ptr (ras_stack r))) (st_buffer (ras_stack r))).

Definition expand (l : list ras_item_t) : list Z :=
  l ≫= fun it => repeat (addr it) (Z.to_nat (cnt it)).

Definition ras_wf (r : ras) : Prop :=
  let s := ras_stack r in
  st_size s = Z.of_nat (length (st_buffer s)) /\ 0 < st_size s < 2 ^ 32 /\
  0 <= top_ptr s <= st_size s /\
  Forall (fun it => 1 <= cnt it < 2 ^ 32) (ras_items r).

(** Adjacent entries hold different addresses. *)
Fixpoint alternating (l : list ras_item_t) : Prop :=
  match l with
  | it1 :: ((it2 :: _) as l') => addr it1 <> addr it2 /\ alternating l'
  | _ => True
  end.

Definition ras_refines (r : ras) (s : addr_stack) : Prop :=
  ras_wf r /\ alternating (ras_items r) /\ expand (ras_items r) = s.1 /\
  (s.1 = [] -> last_addr r = s.2).

Lemma rev_take_S {A} (l : list A) n x :
  l !! n = Some x -> rev (take (S n) l) = x :: rev (take n l).
Proof. intros. erewrite take_S_r by done. by rewrite rev_app_distr. Qed.

Lemma rev_take_insert {A} (l : list A) n x :
  (n < length l)%nat -> rev (take (S n) (<[n := x]> l)) = x :: rev (take n l).
Proof.
  intros. rewrite (rev_take_S _ n x) by (by apply list_lookup_insert_eq).
  by rewrite take_insert_ge.
Qed.

Section ras_lemmas.
Context (r : ras).
Hypothesis (WF : ras_wf r).
Abbreviation s := (ras_stack r).
Abbreviation buf := (st_buffer (ras_stack r)).

(** The top entry, when there is one. *)
Lemma ras_top_cases :
  (ras_items r = [] /\ top_ptr s = 0 /\ stack_get_top s = Some None) \/
  (exists it l, ras_items r = it :: l /\ l = rev (take (Z.to_nat (top_ptr s - 1)) buf) /\
    0 < top_ptr s /\ arr_get buf (top_ptr s - 1) = Some it /\ stack_get_top s = Some (Some it) /\
    1 <= cnt it < 2 ^ 32).
Proof.
  destruct WF as (Hs & Hn & Ht & Hc). unfold ras_items, stack_get_top, stack_is_empty in *.
  destruct (Z.eqb_spec (top_ptr s) 0) as [E|E]; [left; by rewrite E|right].
  destruct (arr_get_in_range buf (top_ptr s - 1)) as [it Hit]; [lia|].
  apply arr_get_Some in Hit as Hit'. destruct Hit' as [_ Hl].
  assert (Z.to_nat (top_ptr s) = S (Z.to_nat (top_ptr s - 1))) as Hz by lia.
  rewrite Hz in *. rewrite (rev_take_S _ _ it Hl) in *.
  exists it, (rev (take (Z.to_nat (top_ptr s - 1)) buf)). rewrite u32_small by lia. rewrite Hit.
  apply Forall_cons_iff in Hc as [? ?]. repeat split; done || lia.
Qed.

Lemma ras_set_top it l x :
  ras_items r = it :: l -> 0 < top_ptr s ->
  exists r', (item_id ← ras_get_top_id r; ras_set_item r item_id x) = Some r' /\
    ras_items r' = x :: l /\ last_addr r' = last_addr r /\ (1 <= cnt x < 2 ^ 32 -> ras_wf r').
Proof.
  intros Hit Hpos. destruct WF as (Hs & Hn & Ht & Hc).
  unfold ras_get_top_id, stack_is_empty. destruct (Z.eqb_spec (top_ptr s) 0); [lia|].
  unfold ras_set_item. cbn [mbind option_bind]. rewrite u32_small by lia. rewrite arr_set_eq by lia.
  cbn. eexists. split; [reflexivity|].
  assert (Z.to_nat (top_ptr s) = S (Z.to_nat (top_ptr s - 1))) as Hz by lia.
  assert (rev (take (Z.to_nat (top_ptr s)) (<[Z.to_nat (top_ptr s - 1) := x]> buf)) = x :: l) as Hitems.
  { rewrite Hz, rev_take_insert by lia. f_equal.
    unfold ras_items in Hit. rewrite Hz in Hit.
    destruct (arr_get_in_range buf (top_ptr s - 1)) as [y [_ Hy]%arr_get_Some]; [lia|].
    rewrite (rev_take_S _ _ y Hy) in Hit. congruence. }
  unfold ras_wf, ras_items. cbn. rewrite length_insert, Hitems.
  split_and!; [done..|]. intros Hx. split_and!; [done|lia..|].
  rewrite Hit in Hc. apply Forall_cons_iff in Hc as [_ Hc]. by constructor.
Qed.

Lemma ras_push_fresh x :
  top_ptr s <> st_size s -> 1 <= cnt x < 2 ^ 32 ->
  exists s', stack_push s x = Some (true, s') /\
    let r' := r <| ras_stack := s' |> in
    ras_items r' = x :: ras_items r /\ last_addr r' = last_addr r /\ ras_wf r'.
Proof.
  intros Hne Hx. destruct WF as (Hs & Hn & Ht & Hc).
  unfold stack_push, stack_is_full. destruct (Z.eqb_spec (top_ptr s) (st_size s)); [lia|].
  rewrite arr_set_eq by lia. cbn. eexists. split; [reflexivity|].
  unfold ras_wf, ras_items. cbn. rewrite length_insert, u32_small by lia.
  assert (rev (take (Z.to_nat (top_ptr s + 1)) (<[Z.to_nat (top_ptr s) := x]> buf)) =
          x :: ras_items r) as ->.
  { replace (Z.to_nat (top_ptr s + 1)) with (S (Z.to_nat (top_ptr s))) by lia.
    apply rev_take_insert. lia. }
  split_and!; [done..|lia|lia|lia|lia|by constructor].
Qed.

Lemma ras_stack_pop it l :
  ras_items r = it :: l -> 0 < top_ptr s ->
  exists s', stack_pop s = Some (Some it, s') /\
    forall a, let r' := (r <| last_addr := a |>) <| ras_stack := s' |> in
      ras_items r' = l /\ last_addr r' = a /\ ras_wf r'.
Proof.
  intros Hit Hpos. destruct ras_top_cases as [(E & _)|(it' & l' & E & El & _ & Hg & _)]; [congruence|].
  rewrite Hit in E. injection E as <- <-. destruct WF as (Hs & Hn & Ht & Hc).
  unfold stack_pop, stack_is_empty. destruct (Z.eqb_spec (top_ptr s) 0); [lia|].
  cbn. rewrite u32_small by lia. rewrite Hg. cbn. eexists. split; [reflexivity|].
  intros a. unfold ras_wf, ras_items. cbn. rewrite <- El.
  split_and!; [done..|lia|lia|lia|lia|]. rewrite Hit in Hc. by apply Forall_cons_iff in Hc as [_ Hc].
Qed.

End ras_lemmas.

(** [throw_push] drops the bottom entry. *)
Lemma throw_push_loop_spec n k (b : list ras_item_t) :
  (k + n < length b)%nat -> Z.of_nat (length b) < 2 ^ 32 ->
  throw_push_loop n (Z.of_nat (S k)) b =
    Some (take k b ++ take n (drop (S k) b) ++ drop (k + n) b).
Proof.
  revert k b. induction n as [|n IH]; intros k b Hk Hb.
  - rewrite Nat.add_0_r, take_0, app_nil_l, take_drop. done.
  - cbn [throw_push_loop].
    destruct (lookup_lt_is_Some_2 b (S k)) as [x Hx]; [lia|].
    rewrite arr_get_lookup, Nat2Z.id, Hx by lia. cbn [mbind option_bind].
    rewrite u32_small by lia. rewrite arr_set_eq by lia. cbn [mbind option_bind].
    replace (Z.of_nat (S k) + 1) with (Z.of_nat (S (S k))) by lia.
    replace (Z.to_nat (Z.of_nat (S k) - 1)) with k by lia.
    rewrite IH by (rewrite length_insert; lia).
    rewrite (take_S_r _ k x) by (apply list_lookup_insert_eq; lia).
    rewrite take_insert_ge by lia. rewrite !drop_insert_lt by lia.
    rewrite (drop_S b x (S k)) by done. cbn [take].
    rewrite <- app_assoc. cbn. by replace (k + S n)%nat with (S k + n)%nat by lia.
Qed.

Lemma ras_throw_push_items r x :
  ras_wf r -> top_ptr (ras_stack r) = st_size (ras_stack r) -> 1 <= cnt x < 2 ^ 32 ->
  exists r', ras_throw_push r x = Some r' /\
    ras_items r' = x :: removelast (ras_items r) /\ last_addr r' = last_addr r /\ ras_wf r'.
Proof.
  intros (Hs & Hn & Ht & Hc) Hfull Hx. unfold ras_throw_push, ras_items in *.
  destruct (st_buffer (ras_stack r)) as [|y b] eqn:Eb; [simpl in *; lia|].
  pose proof (throw_push_loop_spec (length b) 0 (y :: b)) as Hloop. cbn [length] in *.
  change (Z.of_nat 1) with 1 in Hloop.
  replace (Z.to_nat (top_ptr (ras_stack r) - 1)) with (length b) by lia.
  rewrite Hloop by lia. cbn [mbind option_bind drop take app Nat.add]. clear Hloop.
  rewrite (take_ge b) by lia. rewrite u32_small by lia.
  rewrite arr_set_eq by (rewrite length_app, length_drop; simpl; lia). cbn [mbind option_bind].
  eexists. split; [reflexivity|].
  assert (<[Z.to_nat (top_ptr (ras_stack r) - 1) := x]> (b ++ drop (length b) (y :: b)) = b ++ [x]) as ->.
  { replace (Z.to_nat (top_ptr (ras_stack r) - 1)) with (length b + 0)%nat by lia.
    rewrite insert_app_r. f_equal.
    assert (length (drop (length b) (y :: b)) = 1)%nat as Hz by (rewrite length_drop; simpl; lia).
    destruct (drop (length b) (y :: b)) as [|w [|]]; done. }
  assert (rev (take (Z.to_nat (top_ptr (ras_stack r))) (b ++ [x])) = x :: rev b) as Hnew.
  { rewrite take_ge by (rewrite length_app; simpl; lia). by rewrite rev_app_distr. }
  assert (rev (take (Z.to_nat (top_ptr (ras_stack r))) (y :: b)) = rev b ++ [y]) as Hold
    by (by rewrite take_ge by (simpl; lia)).
  unfold ras_wf, ras_items. cbn. rewrite Hnew, Hold, removelast_last, length_app.
  rewrite Hold in Hc. apply Forall_app in Hc as [Hc _].
  split_and!; [done..|simpl; lia|lia|lia|lia|lia|by constructor].
Qed.

(** ** The operations on the entries *)

Definition items_push (n : Z) (l : list ras_item_t) (a : Z) : bool * list ras_item_t :=
  let fresh :=
    if Z.of_nat (length l) =? n then (true, mk_ras_item a 1 :: removelast l)
    else (false, mk_ras_item a 1 :: l) in
  match l with
  | it :: l' =>
      if (addr it =? a) && (cnt it <? 2 ^ 32 - 1) then (false, mk_ras_item a (cnt it + 1) :: l')
      else fresh
  | [] => fresh
  end.

Definition items_pop (l : list ras_item_t) (last : Z) : Z * Z * list ras_item_t :=
  match l with
  | it :: l' =>
      if cnt it =? 1 then (addr it, addr it, l')
      else (addr it, last, mk_ras_item (addr it) (cnt it - 1) :: l')
  | [] => (last, last, [])
  end.

Lemma ras_items_length r : ras_wf r -> Z.of_nat (length (ras_items r)) = top_ptr (ras_stack r).
Proof. intros (Hs & Hn & Ht & _). unfold ras_items. rewrite length_rev, length_take. lia. Qed.

Lemma ras_push_addr_items r a :
  ras_wf r ->
  exists r', ras_push_addr r a = Some ((items_push (st_size (ras_stack r)) (ras_items r) a).1, r') /\
    ras_items r' = (items_push (st_size (ras_stack r)) (ras_items r) a).2 /\
    last_addr r' = last_addr r /\ st_size (ras_stack r') = st_size (ras_stack r) /\ ras_wf r'.
Proof.
  intros WF. pose proof (ras_items_length r WF) as Hlen.
  assert (exists r', (if stack_is_full (ras_stack r) then
      r' ← ras_throw_push r (mk_ras_item a 1); Some (true, r')
    else '(_, s) ← stack_push (ras_stack r) (mk_ras_item a 1); Some (false, r <| ras_stack := s |>)) =
      Some (top_ptr (ras_stack r) =? st_size (ras_stack r), r') /\
    ras_items r' = (if top_ptr (ras_stack r) =? st_size (ras_stack r)
       then mk_ras_item a 1 :: removelast (ras_items r) else mk_ras_item a 1 :: ras_items r) /\
    last_addr r' = last_addr r /\ st_size (ras_stack r') = st_size (ras_stack r) /\ ras_wf r')
    as (rf & Hf & Hfi & Hfl & Hfs & Hfw).
  { unfold stack_is_full. destruct (Z.eqb_spec (top_ptr (ras_stack r)) (st_size (ras_stack r))).
    - destruct (ras_throw_push_items r (mk_ras_item a 1) WF) as (r' & E & ? & ? & ?); [done|simpl; lia|].
      exists r'. rewrite E. cbn. split_and!; try done.
      unfold ras_throw_push in E. by simplify_option_eq.
    - destruct (ras_push_fresh r WF (mk_ras_item a 1)) as (s' & E & ? & ? & ?); [done|simpl; lia|].
      rewrite E. cbn. eexists. split; [reflexivity|]. split_and!; try done.
      unfold stack_push in E. case_match; by simplify_option_eq. }
  unfold ras_push_addr, items_push. rewrite Hlen.
  destruct (ras_top_cases r WF) as [(E & Et & ->)|(it & l & E & El & Hp & Hg & -> & Hc)]; rewrite E in *.
  - cbn [mbind option_bind]. exists rf. rewrite Hf, Hfi. by case_match.
  - cbn [mbind option_bind]. change (2 ^ 32 - 1) with 4294967295.
    destruct ((addr it =? a) && (cnt it <? 4294967295)) eqn:Ea;
      [|exists rf; rewrite Hf, Hfi; by case_match].
    apply andb_true_iff in Ea as [Ea%Z.eqb_eq Ecnt%Z.ltb_lt].
    rewrite u32_small by lia.
    destruct (ras_set_top r WF it l (it <| cnt := cnt it + 1 |>)) as (r' & Er & Hi & Hl & Hw); [done|lia|].
    change (it <| cnt := cnt it + 1 |>) with (mk_ras_item (addr it) (cnt it + 1)) in *.
    exists r'. rewrite <- Ea. destruct (ras_get_top_id r); [|done]. cbn in *. rewrite Er. cbn.
    split_and!; try done; [|apply Hw; lia].
    unfold ras_set_item in Er. by simplify_option_eq.
Qed.

Lemma ras_pop_addr_items r :
  ras_wf r ->
  exists r', ras_pop_addr r = Some ((items_pop (ras_items r) (last_addr r)).1.1, r') /\
    ras_items r' = (items_pop (ras_items r) (last_addr r)).2 /\
    last_addr r' = (items_pop (ras_items r) (last_addr r)).1.2 /\
    st_size (ras_stack r') = st_size (ras_stack r) /\ ras_wf r'.
Proof.
  intros WF. unfold ras_pop_addr, items_pop.
  destruct (ras_top_cases r WF) as [(E & Et & ->)|(it & l & E & El & Hp & Hg & -> & Hc)]; rewrite E.
  { cbn. exists r. by rewrite E. }
  cbn [mbind option_bind]. destruct (Z.eqb_spec (cnt it) 1) as [Ec|Ec].
  - destruct (ras_stack_pop r WF it l E Hp) as (s' & Es & Hs). destruct (Hs (addr it)) as (? & ? & ?).
    change (ras_stack (r <| last_addr := addr it |>)) with (ras_stack r).
    rewrite Es. cbn. eexists. split; [reflexivity|]. split_and!; try done.
    unfold stack_pop in Es. case_match; by simplify_option_eq.
  - rewrite u32_small by lia.
    destruct (ras_set_top r WF it l (it <| cnt := cnt it - 1 |>)) as (r' & Er & Hi & Hl & Hw); [done|lia|].
    change (it <| cnt := cnt it - 1 |>) with (mk_ras_item (addr it) (cnt it - 1)) in *.
    exists r'. destruct (ras_get_top_id r); [|done]. cbn in *. rewrite Er. cbn.
    split_and!; try done; [|apply Hw; lia].
    unfold ras_set_item in Er. by simplify_option_eq.
Qed.

(** ** Entries and addresses *)

Lemma expand_cons it l :
  1 <= cnt it -> expand (it :: l) = addr it :: repeat (addr it) (Z.to_nat (cnt it - 1)) ++ expand l.
Proof.
  intros. unfold expand. cbn. replace (Z.to_nat (cnt it)) with (S (Z.to_nat (cnt it - 1))) by lia. done.
Qed.

Lemma runs_repeat x n l : runs (repeat x n ++ x :: l) = runs (x :: l).
Proof.
  induction n as [|n IH]; [done|].
  rewrite <- IH. cbn [repeat app]. destruct n; cbn; by rewrite Z.eqb_refl.
Qed.

Lemma runs_expand l :
  Forall (fun it => 1 <= cnt it < 2 ^ 32) l -> alternating l -> runs (expand l) = length l.
Proof.
  induction l as [|it l IH]; intros Hc Ha; [done|].
  apply Forall_cons_iff in Hc as [Hit Hc]. rewrite expand_cons by lia.
  assert (runs (addr it :: expand l) = S (length l)) as Hr.
  { destruct l as [|it2 l]; [done|]. destruct Ha as [Hne Ha].
    apply Forall_cons_iff in Hc as Hc2. destruct Hc2 as [Hit2 _].
    specialize (IH Hc Ha). rewrite <- IH. rewrite expand_cons by lia.
    cbn [runs]. destruct (Z.eqb_spec (addr it) (addr it2)); [done|]. done. }
  cbn [length]. rewrite <- Hr.
  change (addr it :: repeat (addr it) (Z.to_nat (cnt it - 1)) ++ expand l)
    with ((addr it :: repeat (addr it) (Z.to_nat (cnt it - 1))) ++ expand l).
  rewrite repeat_cons, <- app_assoc. cbn [app]. apply runs_repeat.
Qed.

Lemma length_expand_ge it l : 1 <= cnt it -> cnt it <= Z.of_nat (length (expand (it :: l))).
Proof. intros. unfold expand. cbn. rewrite length_app, repeat_length. lia. Qed.

Lemma ras_push_refines r s a s' n :
  ras_refines r s -> Z.of_nat n = st_size (ras_stack r) -> as_push n s a = Some s' ->
  exists r', ras_push_addr r a = Some (false, r') /\ ras_refines r' s' /\
    st_size (ras_stack r') = st_size (ras_stack r).
Proof.
  intros (WF & Ha & He & Hlast) Hn Hs. unfold as_push in Hs.
  destruct (bool_decide _ && _) eqn:Eg; [|done]. cbn in Hs. simplify_eq.
  apply andb_true_iff in Eg as [Hruns%bool_decide_eq_true Hlen%Z.ltb_lt].
  destruct (ras_push_addr_items r a WF) as (r' & -> & Hi & Hl & Hsz & WF').
  assert (Forall (fun it => 1 <= cnt it < 2 ^ 32) (ras_items r)) as Hc by apply WF.
  pose proof (runs_expand _ Hc Ha) as Hre. rewrite He in Hre.
  exists r'. unfold items_push in *. destruct (ras_items r) as [|it l] eqn:Ei.
  - destruct (Z.eqb_spec (Z.of_nat (length (@nil ras_item_t))) (st_size (ras_stack r))) as [E|E].
    { destruct WF as (_ & ? & _). simpl in E. lia. }
    cbn in *. split_and!; [done| |done]. rewrite <- He in *. unfold ras_refines. rewrite Hi. by cbn.
  - apply Forall_cons_iff in Hc as Hc2. destruct Hc2 as [Hit _].
    pose proof (length_expand_ge it l) as Hge.
    rewrite expand_cons in He by lia.
    destruct (Z.eqb_spec (addr it) a) as [<-|Eaddr].
    + assert ((cnt it <? 2 ^ 32 - 1) = true) as Hlt.
      { apply Z.ltb_lt. rewrite expand_cons, He in Hge by lia. lia. }
      rewrite Hlt in *. cbn in *. split_and!; [done| |done]. unfold ras_refines. rewrite Hi.
      split_and!; [done|by destruct l|..].
      * rewrite expand_cons by (simpl; lia). cbn. rewrite <- He. f_equal.
        replace (Z.to_nat (cnt it + 1 - 1)) with (S (Z.to_nat (cnt it - 1))) by lia. done.
      * done.
    + cbn [andb] in *.
      assert (runs (a :: s.1) = S (length (it :: l))) as Hr2.
      { rewrite <- Hre, <- He. cbn [runs]. destruct (Z.eqb_spec a (addr it)); [congruence|done]. }
      destruct (Z.eqb_spec (Z.of_nat (length (it :: l))) (st_size (ras_stack r))) as [E|E].
      { rewrite Hr2 in Hruns. lia. }
      cbn [fst snd] in *. split_and!; [done| |done]. unfold ras_refines. rewrite Hi.
      split_and!; [done|done| |done]. rewrite expand_cons by (simpl; lia). cbn [addr cnt Z.to_nat].
      rewrite expand_cons, He by lia. done.
Qed.

Lemma ras_pop_refines r s :
  ras_refines r s ->
  exists r', ras_pop_addr r = Some ((as_pop s).1, r') /\ ras_refines r' (as_pop s).2 /\
    st_size (ras_stack r') = st_size (ras_stack r).
Proof.
  intros (WF & Ha & He & Hlast). unfold as_pop.
  destruct (ras_pop_addr_items r WF) as (r' & -> & Hi & Hl & Hsz & WF').
  assert (Forall (fun it => 1 <= cnt it < 2 ^ 32) (ras_items r)) as Hc by apply WF.
  exists r'. unfold items_pop in *. destruct (ras_items r) as [|it l] eqn:Ei.
  { rewrite <- He in *. cbn in *. rewrite Hlast by done. split_and!; try done.
    unfold ras_refines. rewrite Hi, Hl, Hlast by done. by rewrite <- He. }
  apply Forall_cons_iff in Hc as [Hit _]. rewrite expand_cons in He by lia. rewrite <- He.
  destruct (Z.eqb_spec (cnt it) 1) as [E|E]; cbn in *; (split_and!; [done| |done]);
    unfold ras_refines; rewrite Hi, Hl; cbn.
  - rewrite E. cbn. split_and!; try done. destruct l; [done|apply Ha].
  - split_and!; [done|by destruct l|..].
    + done.
    + replace (Z.to_nat (cnt it - 1)) with (S (Z.to_nat (cnt it - 2))) by lia. done.
Qed.

Lemma ras_run_refines_from n ops r s xs s' :
  ras_refines r s -> Z.of_nat n = st_size (ras_stack r) -> as_run n s ops = Some (xs, s') ->
  exists r', ras_run r ops = Some (xs, r') /\ ras_refines r' s'.
Proof.
  revert r s xs. induction ops as [|[a|] ops IH]; intros r s xs R Hn Hs; cbn in *.
  - simplify_eq. by eauto.
  - destruct (as_push n s a) as [s1|] eqn:E1; [|done]. cbn in Hs.
    destruct (ras_push_refines _ _ _ _ _ R Hn E1) as (r1 & -> & R1 & Hsz). cbn.
    apply (IH _ _ _ R1); [congruence|done].
  - destruct (ras_pop_refines _ _ R) as (r1 & -> & R1 & Hsz). destruct (as_pop s) as [x s1]. cbn in *.
    destruct (as_run n s1 ops) as [[xs2 s2]|] eqn:E2; [|done]. cbn in Hs. simplify_eq.
    destruct (IH _ _ xs2 R1) as (r2 & -> & R2); [congruence|done|]. cbn. by eauto.
Qed.

Lemma ras_new_refines mem :
  0 < Z.of_nat (length mem) < 2 ^ 32 -> ras_refines (ras_new mem (Z.of_nat (length mem))) ([], 0).
Proof. intros. repeat split; cbn; by try lia. Qed.

(** From construction on, any sequence of pushes and pops whose addresses
    never form more runs than the stack has entries returns what a plain stack
    of addresses returns: pops come back in last-in first-out order however
    deep a recursion (a run of equal addresses) gets, and a pop of the empty
    stack repeats the address popped last.  The operations never fault. *)
Theorem ras_run_refines mem ops xs s' :
  0 < Z.of_nat (length mem) < 2 ^ 32 ->
  as_run (length mem) ([], 0) ops = Some (xs, s') ->
  exists r', ras_run (ras_new mem (Z.of_nat (length mem))) ops = Some (xs, r') /\ ras_refines r' s'.
Proof. intros. eapply ras_run_refines_from; [by apply ras_new_refines|done|done]. Qed.

Lemma ras_run_refines_witness :
  exists r', ras_run (ras_new [mk_ras_item 0 0; mk_ras_item 0 0] 2)
               [RasPush 8; RasPush 4; RasPush 4; RasPush 4; RasPop; RasPop; RasPop; RasPop; RasPop]
             = Some ([4; 4; 4; 8; 8], r').
Proof.
  destruct (ras_run_refines [mk_ras_item 0 0; mk_ras_item 0 0]
    [RasPush 8; RasPush 4; RasPush 4; RasPush 4; RasPop; RasPop; RasPop; RasPop; RasPop]
    [4; 4; 4; 8; 8] ([], 8)) as (r' & H & _).
  - simpl. lia.
  - vm_compute. reflexivity.
  - exists r'. exact H.
Defined.

Lemma push_then_pop r a :
  ras_wf r ->
  exists full r1 r2, ras_push_addr r a = Some (full, r1) /\ ras_wf r1 /\
    ras_pop_addr r1 = Some (a, r2) /\ ras_wf r2 /\
    expand (ras_items r2) = expand (if full then removelast (ras_items r) else ras_items r).
Proof.
  intros WF. destruct (ras_push_addr_items r a WF) as (r1 & E1 & Hi1 & Hl1 & _ & WF1).
  destruct (ras_pop_addr_items r1 WF1) as (r2 & E2 & Hi2 & _ & _ & WF2).
  assert (Forall (fun it => 1 <= cnt it < 2 ^ 32) (ras_items r)) as Hc by apply WF.
  exists (items_push (st_size (ras_stack r)) (ras_items r) a).1, r1, r2.
  rewrite E1, E2, Hi2, Hi1. clear E1 E2 Hi2 Hi1. unfold items_push.
  destruct (ras_items r) as [|it l].
  { case_match; cbn; by split_and!. }
  apply Forall_cons_iff in Hc as [Hit _].
  destruct (Z.eqb_spec (addr it) a) as [<-|]; destruct (Z.ltb_spec (cnt it) (2 ^ 32 - 1)); cbn [andb].
  1: { cbn [fst snd items_pop cnt addr]. destruct (Z.eqb_spec (cnt it + 1) 1); [lia|].
       split_and!; try done. cbn [snd]. unfold expand. cbn. do 2 f_equal. lia. }
  all: case_match; cbn [fst snd items_pop cnt addr]; by split_and!.
Qed.

(** A push is total on every well-formed stack, the full one included: it
    preserves well-formedness, the next pop returns the pushed address, and
    unless the push had to throw away the oldest run (and reported it) that
    pop leads back to the addresses there were before. *)
Theorem ras_push_pop r a :
  ras_wf r ->
  exists full r1 r2, ras_push_addr r a = Some (full, r1) /\ ras_wf r1 /\
    ras_pop_addr r1 = Some (a, r2) /\ ras_wf r2 /\
    expand (ras_items r2) = expand (if full then removelast (ras_items r) else ras_items r).
Proof. apply push_then_pop. Qed.

Lemma ras_push_pop_witness :
  exists full r1 r2,
    let r := mk_ras (mk_stack [mk_ras_item 4 1; mk_ras_item 8 3] 2 2) 0 in
    ras_push_addr r 12 = Some (full, r1) /\ ras_pop_addr r1 = Some (12, r2) /\ full = true.
Proof.
  destruct (ras_push_pop (mk_ras (mk_stack [mk_ras_item 4 1; mk_ras_item 8 3] 2 2) 0) 12)
    as (full & r1 & r2 & H1 & _ & H2 & _).
  - repeat split; simpl; try lia. repeat constructor; simpl; lia.
  - exists full, r1, r2. split; [exact H1|]. split; [exact H2|]. vm_compute in H1. congruence.
Defined.
