(* ===== verification/IssueQueue.v ===== *)
(** The issue queue [component::issue_queue<T>] of [component/issue_queue.h]:
    a circular queue whose entries are read and written by slot number, with
    deferred updates applied by [sync] at the end of a cycle, and with
    [compress], which removes issued entries from the middle of the queue in
    one pass over the array. *)

From Stdlib Require Import ZArith Lia.
From stdpp Require Import base numbers list option tactics.
From S2P Require Import Prelude Fifo FifoIds.

Local Open Scope Z_scope.

(** The [sync_request_t] structure, with the arguments its type uses. *)
Inductive iq_sync_request (T : Type) :=
| iq_req_pop
| iq_req_set_item (arg1 : Z) (arg2 : T)
| iq_req_compress (item_id_list : list Z).

Arguments iq_req_pop {T}.
Arguments iq_req_set_item {T} _ _.
Arguments iq_req_compress {T} _.

Record issue_queue (T : Type) := mk_issue_queue {
  iq_fifo : fifo T;
  iq_sync_request_q : list (iq_sync_request T)
}.

Arguments mk_issue_queue {T} _ _.
Arguments iq_fifo {T} _.
Arguments iq_sync_request_q {T} _.

#[export] Instance issue_queue_eta {T} : Eta (issue_queue T) := fun r =>
  mk_issue_queue (iq_fifo r) (iq_sync_request_q r).

Section operations.
Context {T : Type}.
Implicit Types (q : issue_queue T) (f : fifo T).

Definition issue_queue_new (mem : list T * Z * bool) (size : Z) : issue_queue T :=
  mk_issue_queue (fifo_new mem size) [].

Definition iq_reset q : issue_queue T :=
  q <| iq_fifo ::= fifo_reset |> <| iq_sync_request_q := [] |>.

Definition iq_check_id_valid q (id : Z) : bool := fifo_check_id_valid (iq_fifo q) id.

Definition iq_get_next_id_stage q (id : Z) (stage : bool) : option (Z * bool * bool) :=
  fifo_get_next_id_stage (iq_fifo q) id stage.

Definition iq_get_size q : Z := fifo_get_size_plain (iq_fifo q).

Definition iq_get_item q (id : Z) : option T := fifo_get_item_checked (iq_fifo q) id.

Definition iq_set_item q (id : Z) (value : T) : option (issue_queue T) :=
  f ← fifo_set_item_checked (iq_fifo q) id value; Some (q <| iq_fifo := f |>).

Definition iq_set_item_sync q (id : Z) (value : T) : issue_queue T :=
  q <| iq_sync_request_q ::= fun l => l ++ [iq_req_set_item id value] |>.

Definition iq_get_front_id q : option Z := fifo_get_front_id (iq_fifo q).

Definition iq_get_tail_id q : option Z := fifo_get_tail_id (iq_fifo q).

Definition iq_get_next_id q (id : Z) : option (Z * bool) := fifo_get_next_id (iq_fifo q) id.

(** Reads the slot of the read pointer even when the queue is empty. *)
Definition iq_get_front q : option (T * bool) :=
  value ← arr_get (buffer (iq_fifo q)) (rptr (iq_fifo q));
  Some (value, negb (fifo_is_empty (iq_fifo q))).

(** The variables of the loop of [compress]. *)
Record compress_vars := mk_cv {
  cv_q : issue_queue T;
  cv_cur_id : Z;
  cv_cur_stage : bool;
  cv_new_wptr : Z;
  cv_new_wstage : bool;
  cv_next_id : Z;
  cv_invalid_item_found : bool;
  cv_i : nat
}.

#[export] Instance compress_vars_eta : Eta compress_vars := fun r =>
  mk_cv (cv_q r) (cv_cur_id r) (cv_cur_stage r) (cv_new_wptr r) (cv_new_wstage r)
    (cv_next_id r) (cv_invalid_item_found r) (cv_i r).

(** [(i < item_id_list.size()) && (cur_id == item_id_list[i])] *)
Definition cv_listed (item_id_list : list Z) (v : compress_vars) : bool :=
  match item_id_list !! cv_i v with Some id => cv_cur_id v =? id | None => false end.

(** The body of the loop, without its condition. *)
Definition compress_body (item_id_list : list Z) (v : compress_vars) : option compress_vars :=
  if negb (cv_invalid_item_found v) then
    if cv_listed item_id_list v then
      Some (v <| cv_invalid_item_found := true |> <| cv_i := S (cv_i v) |>
              <| cv_next_id := cv_cur_id v |> <| cv_new_wptr := cv_cur_id v |>
              <| cv_new_wstage := cv_cur_stage v |>)
    else Some v
  else if cv_listed item_id_list v then Some (v <| cv_i := S (cv_i v) |>)
  else
    item ← iq_get_item (cv_q v) (cv_cur_id v);
    q ← iq_set_item (cv_q v) (cv_next_id v) item;
    '(w, ws, _) ← iq_get_next_id_stage q (cv_next_id v) (cv_new_wstage v);
    Some (v <| cv_q := q |> <| cv_new_wptr := w |> <| cv_new_wstage := ws |> <| cv_next_id := w |>).

(** The [do ... while] loop; every iteration moves one slot on, so that the
    capacity bounds the number of iterations. *)
Fixpoint compress_loop (fuel : nat) (item_id_list : list Z) (first_id : Z) (v : compress_vars)
    : option compress_vars :=
  match fuel with
  | O => None
  | S fuel =>
      v ← compress_body item_id_list v;
      '(id, stage, valid) ← iq_get_next_id_stage (cv_q v) (cv_cur_id v) (cv_cur_stage v);
      let v := v <| cv_cur_id := id |> <| cv_cur_stage := stage |> in
      if valid && negb (id =? first_id) then compress_loop fuel item_id_list first_id v else Some v
  end.

Definition iq_compress q (item_id_list : list Z) : option (issue_queue T) :=
  match item_id_list, iq_get_front_id q with
  | _ :: _, Some first_id =>
      let f := iq_fifo q in
      v ← compress_loop (length (buffer f)) item_id_list first_id
            (mk_cv q first_id (rstage f) first_id (rstage f) first_id false 0);
      Some ((cv_q v) <| iq_fifo ::= fun f => f <| wptr := cv_new_wptr v |>
                                             <| wstage := cv_new_wstage v |> |>)
  | _, _ => Some q
  end.

Definition iq_compress_sync q (item_id_list : list Z) : issue_queue T :=
  q <| iq_sync_request_q ::= fun l => l ++ [iq_req_compress item_id_list] |>.

Definition iq_pop_sync q : issue_queue T :=
  q <| iq_sync_request_q ::= fun l => l ++ [iq_req_pop] |>.

Definition iq_sync_one q (item : iq_sync_request T) : option (issue_queue T) :=
  match item with
  | iq_req_set_item arg1 arg2 => iq_set_item q arg1 arg2
  | iq_req_pop => '(_, f) ← fifo_pop (iq_fifo q); Some (q <| iq_fifo := f |>)
  | iq_req_compress item_id_list => iq_compress q item_id_list
  end.

Fixpoint iq_sync_loop q (reqs : list (iq_sync_request T)) : option (issue_queue T) :=
  match reqs with
  | [] => Some q
  | item :: reqs =>
      q ← iq_sync_one (q <| iq_sync_request_q := reqs |>) item; iq_sync_loop q reqs
  end.

(** The loop pops requests until the queue of requests is empty; handling one
    never adds another. *)
Definition iq_sync q : option (issue_queue T) := iq_sync_loop q (iq_sync_request_q q).

End operations.

Arguments compress_vars : clear implicits.

(** * Compression removes the listed elements *)

(** [remove_at k ps l]: the list [l], whose first element has position [k],
    without the elements at the positions [ps] (in increasing order). *)
Fixpoint remove_at {A} (k : nat) (ps : list nat) (l : list A) : list A :=
  match l with
  | [] => []
  | x :: l =>
      match ps with
      | p :: ps' => if decide (p = k) then remove_at (S k) ps' l else x :: remove_at (S k) ps l
      | [] => x :: remove_at (S k) [] l
      end
  end.

(** Positions in strictly increasing order, from [k] on and below [n]. *)
Fixpoint ordered (k n : nat) (ps : list nat) : Prop :=
  match ps with
  | [] => True
  | p :: ps => (k <= p < n)%nat /\ ordered (S p) n ps
  end.

Lemma drop_cons_S {A} n x (l r : list A) : drop n l = x :: r -> drop (S n) l = r.
Proof. intros H. replace (S n) with (n + 1)%nat by lia. by rewrite <- drop_drop, H. Qed.

Lemma remove_at_nil {A} k (l : list A) : remove_at k [] l = l.
Proof. revert k. induction l; intros; cbn; congruence. Qed.

Lemma remove_at_app {A} k p ps (l1 l2 : list A) :
  (k + length l1 <= p)%nat -> remove_at k (p :: ps) (l1 ++ l2) = l1 ++ remove_at (k + length l1) (p :: ps) l2.
Proof.
  revert k. induction l1 as [|x l1 IH]; intros k Hk; cbn [app length] in *.
  - by rewrite Nat.add_0_r.
  - cbn [remove_at]. rewrite decide_False by lia. rewrite IH by lia.
    by replace (S k + length l1)%nat with (k + S (length l1))%nat by lia.
Qed.

Lemma remove_at_length {A} k ps (l : list A) :
  ordered k (k + length l) ps -> (length (remove_at k ps l) + length ps = length l)%nat.
Proof.
  revert k ps. induction l as [|x l IH]; intros k [|p ps] Ho; cbn in *; try lia.
  - rewrite remove_at_nil. lia.
  - destruct Ho as [Hp Ho]. replace (k + S (length l))%nat with (S k + length l)%nat in * by lia.
    case_decide as E; cbn [length].
    + subst p. specialize (IH (S k) ps Ho). lia.
    + specialize (IH (S k) (p :: ps)). cbn [ordered length] in IH.
      rewrite <- IH by (split; [lia|done]). lia.
Qed.

Section compress.
Context {T : Type}.

Lemma cv_listed_spec (f : fifo T) l b st (v : compress_vars T) ids k ps :
  window f l b st -> (k < length l)%nat -> cv_cur_id v = slot f b k ->
  drop (cv_i v) ids = map (slot f b) ps -> ordered k (length l) ps ->
  cv_listed ids v = match ps with p :: _ => bool_decide (p = k) | [] => false end.
Proof.
  intros W Hk Hc Hd Ho. unfold cv_listed. destruct (window_facts W) as (_ & _ & _ & Hlen & _).
  destruct (ids !! cv_i v) as [id|] eqn:Ei.
  - apply drop_S in Ei. rewrite Ei in Hd. destruct ps as [|p ps]; [done|]. cbn in Hd, Ho.
    injection Hd as -> _. rewrite Hc. destruct Ho as [Hp _].
    case_bool_decide as E; [subst; apply Z.eqb_refl|]. bcase; [|done].
    destruct E. symmetry. apply (slot_inj W); [lia|lia|done].
  - apply lookup_ge_None in Ei. rewrite drop_ge in Hd by done. by destruct ps.
Qed.

(** The state of the loop at position [k] with [j] elements kept, [ps] being
    the positions still to remove. *)
Definition compress_inv (ids : list Z) (b : nat) (st : bool) (l : list T) (k j : nat) (ps : list nat)
    (v : compress_vars T) : Prop :=
  let f := iq_fifo (cv_q v) in
  window f l b st /\ (j <= k < length l)%nat /\ ordered k (length l) ps /\
  drop (cv_i v) ids = map (slot f b) ps /\
  cv_cur_id v = slot f b k /\ cv_cur_stage v = slot_stage f b k st /\
  (if cv_invalid_item_found v
   then cv_next_id v = slot f b j /\ cv_new_wptr v = slot f b j /\ cv_new_wstage v = slot_stage f b j st
   else j = k /\ ps <> []).

(** What the loop establishes: [l'] is the array's window, of which the first
    [j] elements are kept. *)
Definition compress_post (b : nat) (st : bool) (l : list T) (v0 v : compress_vars T)
    (kept : list T) : Prop :=
  let f := iq_fifo (cv_q v) in
  exists l', window f l' b st /\ length l' = length l /\ take (length kept) l' = kept /\
    cv_new_wptr v = slot f b (length kept) /\ cv_new_wstage v = slot_stage f b (length kept) st /\
    iq_sync_request_q (cv_q v) = iq_sync_request_q (cv_q v0).

(** One pass through the body: the loop variables afterwards, with position
    [k] dealt with. *)
Lemma compress_body_step ids b st l k j ps v :
  compress_inv ids b st l k j ps v ->
  exists v' l' j' ps',
    compress_body ids v = Some v' /\
    window (iq_fifo (cv_q v')) l' b st /\ length l' = length l /\ (j' <= S k)%nat /\
    length (buffer (iq_fifo (cv_q v'))) = length (buffer (iq_fifo (cv_q v))) /\
    ordered (S k) (length l) ps' /\ drop (cv_i v') ids = map (slot (iq_fifo (cv_q v)) b) ps' /\
    cv_cur_id v' = cv_cur_id v /\ cv_cur_stage v' = cv_cur_stage v /\
    iq_sync_request_q (cv_q v') = iq_sync_request_q (cv_q v) /\
    take j l ++ remove_at k ps (drop k l) = take j' l' ++ remove_at (S k) ps' (drop (S k) l') /\
    (if cv_invalid_item_found v'
     then cv_next_id v' = slot (iq_fifo (cv_q v)) b j' /\ cv_new_wptr v' = slot (iq_fifo (cv_q v)) b j' /\
          cv_new_wstage v' = slot_stage (iq_fifo (cv_q v)) b j' st
     else j' = S k /\ ps' <> []).
Proof.
  intros (W & Hk & Ho & Hd & Hc & Hcs & Hf). unfold compress_body.
  assert (k < length l)%nat as Hkl by lia.
  pose proof (cv_listed_spec _ _ _ _ v ids k ps W Hkl Hc Hd Ho) as Hlist.
  destruct (lookup_lt_is_Some_2 l k) as [x Hx]; [lia|]. rewrite (drop_S _ _ _ Hx).
  destruct (cv_invalid_item_found v) eqn:Ef; cbn [negb].
  - destruct Hf as (Hn & Hw & Hws). destruct (cv_listed ids v) eqn:El.
    + destruct ps as [|p ps]; [done|]. symmetry in Hlist. apply bool_decide_eq_true in Hlist as ->.
      destruct Ho as [_ Ho]. eexists _, l, j, ps. split; [reflexivity|]. cbn.
      rewrite Ef, decide_True by done. split_and!; try done; [lia|].
      by apply drop_cons_S in Hd.
    + unfold iq_get_item. rewrite Hc, (window_get_checked W), Hx by lia. cbn [mbind option_bind].
      unfold iq_set_item. rewrite Hn.
      destruct (window_set_checked W j x) as (f' & -> & W' & Hcap & _); [lia|]. cbn.
      unfold iq_get_next_id_stage. cbn.
      assert (slot f' b = slot (iq_fifo (cv_q v)) b) as Hsl by (unfold slot; by rewrite Hcap).
      assert (slot_stage f' b = slot_stage (iq_fifo (cv_q v)) b) as Hst by (unfold slot_stage; by rewrite Hcap).
      rewrite Hws. rewrite <- Hsl, <- Hst.
      rewrite (window_next_id_stage W') by (rewrite length_insert; lia). cbn.
      eexists _, (<[j := x]> l), (S j), ps. split; [reflexivity|]. cbn.
      rewrite Ef, Hsl, Hst, length_insert. split_and!; try done; [lia|..].
      * destruct ps as [|p ps]; [done|]. cbn in Ho, Hlist |- *.
        symmetry in Hlist. apply bool_decide_eq_false in Hlist. split; [lia|]. apply Ho.
      * rewrite (take_S_r _ j x) by (apply list_lookup_insert_eq; lia).
        rewrite take_insert_ge, drop_insert_lt, <- app_assoc by lia. f_equal. cbn.
        destruct ps as [|p ps]; cbn; [done|].
        symmetry in Hlist. apply bool_decide_eq_false in Hlist. by rewrite decide_False.
  - destruct Hf as (-> & Hne). destruct ps as [|p ps]; [done|]. rewrite Hlist.
    destruct Ho as [Hp Ho]. case_bool_decide as E.
    + subst p. eexists _, l, k, ps. split; [reflexivity|]. cbn.
      rewrite decide_True by done. split_and!; try done; [lia|].
      by apply drop_cons_S in Hd.
    + eexists v, l, (S k), (p :: ps). split; [reflexivity|]. rewrite Ef.
      split_and!; try done; [cbn; split; [lia|done]|].
      rewrite (take_S_r _ k x Hx), <- app_assoc. cbn. by rewrite decide_False.
Qed.

Lemma compress_loop_spec fuel ids b st l k j ps v :
  compress_inv ids b st l k j ps v -> (length l - k <= fuel)%nat ->
  exists v', compress_loop fuel ids (slot (iq_fifo (cv_q v)) b 0) v = Some v' /\
    compress_post b st l v v' (take j l ++ remove_at k ps (drop k l)).
Proof.
  revert l k j ps v. induction fuel as [|fuel IH]; intros l k j ps v Hinv Hfuel.
  { destruct Hinv as (_ & ? & _). lia. }
  destruct (compress_body_step _ _ _ _ _ _ _ _ Hinv)
    as (v1 & l1 & j1 & ps1 & Hbody & W1 & Hl1 & Hj1 & Hcap & Ho1 & Hd1 & Hc1 & Hcs1 & Hq1 & Hrem & Hf1).
  destruct Hinv as (W & Hk & _ & _ & Hc & Hcs & _).
  assert (slot (iq_fifo (cv_q v1)) b = slot (iq_fifo (cv_q v)) b) as Hsl
    by (unfold slot; by rewrite Hcap).
  assert (slot_stage (iq_fifo (cv_q v1)) b = slot_stage (iq_fifo (cv_q v)) b) as Hst
    by (unfold slot_stage; by rewrite Hcap).
  cbn [compress_loop]. rewrite Hbody. cbn [mbind option_bind].
  unfold iq_get_next_id_stage. rewrite Hc1, Hcs1, Hc, Hcs, <- Hsl, <- Hst.
  rewrite (window_next_id_stage W1) by lia. cbn [mbind option_bind].
  rewrite (window_loop_test W1) by lia. rewrite Hrem. case_bool_decide as Hlast.
  - destruct (IH l1 (S k) j1 ps1 (v1 <| cv_cur_id := slot (iq_fifo (cv_q v1)) b (S k) |>
      <| cv_cur_stage := slot_stage (iq_fifo (cv_q v1)) b (S k) st |>)) as (v' & E & Hpost).
    + unfold compress_inv. cbn. rewrite Hl1, Hsl, Hst. by split_and!; try lia.
    + lia.
    + exists v'. split; [exact E|]. unfold compress_post in *. cbn in *.
      by rewrite Hl1, Hq1 in Hpost.
  - eexists. split; [reflexivity|].
    assert (ps1 = []) as -> by (destruct ps1; [done|cbn in Ho1; lia]).
    destruct (cv_invalid_item_found v1) eqn:Ef; [|by destruct Hf1].
    rewrite (drop_ge l1) by lia. cbn [remove_at]. rewrite app_nil_r.
    exists l1. cbn. assert (length (take j1 l1) = j1) as -> by (rewrite length_take; lia).
    rewrite Hsl, Hst. destruct Hf1 as (_ & ? & ?). by split_and!.
Qed.

Lemma iq_compress_spec (q : issue_queue T) l b st ps :
  window (iq_fifo q) l b st -> ordered 0 (length l) ps ->
  exists q', iq_compress q (map (slot (iq_fifo q) b) ps) = Some q' /\
    window (iq_fifo q') (remove_at 0 ps l) b st /\ iq_sync_request_q q' = iq_sync_request_q q.
Proof.
  intros W Ho. unfold iq_compress.
  destruct ps as [|p ps]; cbn [map]; [rewrite remove_at_nil; by eauto|].
  unfold iq_get_front_id. rewrite (window_front_id W).
  assert (0 < length l)%nat by (cbn in Ho; lia). rewrite decide_False by (by intros ->; simpl in *; lia).
  destruct (window_facts W) as (Hcap & _ & _ & Hlen & Hr & Hrs & _).
  destruct (compress_loop_spec (length (buffer (iq_fifo q))) (map (slot (iq_fifo q) b) (p :: ps)) b st l 0 0
    (p :: ps) (mk_cv q (slot (iq_fifo q) b 0) (rstage (iq_fifo q)) (slot (iq_fifo q) b 0)
      (rstage (iq_fifo q)) (slot (iq_fifo q) b 0) false 0)) as (v & E & l' & W' & Hl' & Ht & Hw & Hws & Hq).
  - unfold compress_inv. cbn [cv_q cv_invalid_item_found cv_i cv_cur_id cv_cur_stage]. by split_and!; try lia.
  - lia.
  - cbn [map] in E. cbn [cv_q] in E. rewrite E. cbn [mbind option_bind]. eexists. split; [reflexivity|].
    rewrite take_0, drop_0, app_nil_l in *. split; [|done].
    pose proof (window_truncate W' (length (remove_at 0 (p :: ps) l))) as Hcut.
    rewrite Ht, <- Hw, <- Hws, Hl' in Hcut. apply Hcut.
    pose proof (remove_at_length 0 (p :: ps) l Ho). lia.
Qed.

(** [compress] with the ids of the elements at positions [ps] (some, in
    queue order) runs without a fault and removes exactly these elements: the
    others stay, in their order, at the front of the queue, and the pending
    requests are untouched. *)
Theorem iq_compress_removes (q : issue_queue T) l b st ps :
  window (iq_fifo q) l b st -> ordered 0 (length l) ps ->
  exists q', iq_compress q (map (slot (iq_fifo q) b) ps) = Some q' /\
    window (iq_fifo q') (remove_at 0 ps l) b st /\ iq_sync_request_q q' = iq_sync_request_q q.
Proof. apply iq_compress_spec. Qed.

End compress.

(** A queue of capacity 4 whose three elements sit in slots 3, 0 and 1: the
    middle one is removed. *)
Lemma iq_compress_removes_witness :
  let q := mk_issue_queue (mk_fifo [20; 30; 0; 10] 4 2 true 3 false false 0 false) [] in
  exists q', iq_compress q [0] = Some q' /\ fifo_dump 4 (iq_fifo q') = Some [10; 30].
Proof.
  destruct (iq_compress_removes (mk_issue_queue (mk_fifo [20; 30; 0; 10] 4 2 true 3 false false 0 false) [])
              [10; 20; 30] 3 false [1%nat]) as (q' & H & W' & _).
  - split; cbn; try done; lia.
  - cbn. lia.
  - exists q'. split; [exact H|]. vm_compute in H. injection H as <-. reflexivity.
Defined.
