(* ===== verification/Rob.v ===== *)
(** The reorder buffer [component::rob] of [component/rob.h]: the circular
    queue of the instructions in flight, in program order.  Rename pushes an
    entry, write-back results are collected by [set_item_sync], retirement by
    [pop_sync], and [sync] applies both at the end of the cycle. *)

From Stdlib Require Import ZArith Lia.
From stdpp Require Import base numbers list option tactics.
From S2P Require Import Prelude Common Fifo FifoIds IdQueue.

Local Open Scope Z_scope.

Record rob_item_t := mk_rob_item {
  rob_new_phy_reg_id : Z;
  rob_old_phy_reg_id : Z;
  rob_old_phy_reg_id_valid : bool;
  rob_finish : bool;
  rob_pc : Z;
  rob_inst_value : Z;
  rob_has_exception : bool;
  rob_exception_id : riscv_exception_t;
  rob_exception_value : Z;
  rob_predicted : bool;
  rob_predicted_jump : bool;
  rob_predicted_next_pc : Z;
  rob_checkpoint_id_valid : bool;
  rob_checkpoint_id : Z;
  rob_bru_op : bool;
  rob_bru_jump : bool;
  rob_bru_next_pc : Z;
  rob_is_mret : bool;
  rob_csr_addr : Z;
  rob_csr_newvalue : Z;
  rob_csr_newvalue_valid : bool
}.

#[export] Instance rob_item_eta : Eta rob_item_t := fun r =>
  mk_rob_item (rob_new_phy_reg_id r) (rob_old_phy_reg_id r) (rob_old_phy_reg_id_valid r)
    (rob_finish r) (rob_pc r) (rob_inst_value r) (rob_has_exception r) (rob_exception_id r)
    (rob_exception_value r) (rob_predicted r) (rob_predicted_jump r) (rob_predicted_next_pc r)
    (rob_checkpoint_id_valid r) (rob_checkpoint_id r) (rob_bru_op r) (rob_bru_jump r)
    (rob_bru_next_pc r) (rob_is_mret r) (rob_csr_addr r) (rob_csr_newvalue r)
    (rob_csr_newvalue_valid r).

Record rob := mk_rob {
  rob_fifo : fifo rob_item_t;
  rob_sync_request_q : list (sync_request rob_item_t);
  committed : bool;
  commit_num : Z;
  global_commit_num : Z
}.

#[export] Instance rob_eta : Eta rob := fun r =>
  mk_rob (rob_fifo r) (rob_sync_request_q r) (committed r) (commit_num r) (global_commit_num r).

Definition rob_new (mem : list rob_item_t * Z * bool) (size : Z) : rob :=
  mk_rob (fifo_new mem size) [] false 0 0.

Definition rob_reset (r : rob) : rob :=
  r <| rob_fifo ::= fifo_reset |> <| rob_sync_request_q := [] |> <| committed := false |>
    <| commit_num := 0 |> <| global_commit_num := 0 |>.

Definition rob_flush (r : rob) : rob := r <| rob_fifo ::= fifo_flush |>.

Definition rob_check_new_id_valid (r : rob) (id : Z) : bool := fifo_check_new_id_valid (rob_fifo r) id.

Definition rob_check_id_valid (r : rob) (id : Z) : bool := fifo_check_id_valid (rob_fifo r) id.

Definition rob_get_committed (r : rob) : bool := committed r.

Definition rob_set_committed (r : rob) (value : bool) : rob := r <| committed := value |>.

Definition rob_add_commit_num (r : rob) (add_num : Z) : rob :=
  r <| commit_num := u32 (commit_num r + add_num) |>
    <| global_commit_num := u64 (global_commit_num r + add_num) |>.

Definition rob_get_global_commit_num (r : rob) : Z := global_commit_num r.

Definition rob_get_commit_num (r : rob) : Z := commit_num r.

Definition rob_clear_commit_num (r : rob) : rob := r <| commit_num := 0 |>.

(** Returns the flag and the id stored through [item_id]. *)
Definition rob_push (r : rob) (element : rob_item_t) : option (bool * Z * rob) :=
  let item_id := wptr (rob_fifo r) in
  '(ret, f) ← fifo_push (rob_fifo r) element;
  Some (ret, item_id, r <| rob_fifo := f |>).

Definition rob_get_item (r : rob) (item_id : Z) : option rob_item_t :=
  arr_get (buffer (rob_fifo r)) item_id.

Definition rob_set_item (r : rob) (item_id : Z) (item : rob_item_t) : option rob :=
  f ← fifo_set_item (rob_fifo r) item_id item; Some (r <| rob_fifo := f |>).

Definition rob_set_item_sync (r : rob) (item_id : Z) (item : rob_item_t) : rob :=
  r <| rob_sync_request_q ::= fun l => l ++ [req_set_item item_id item] |>.

Definition rob_get_front (r : rob) : option rob_item_t :=
  arr_get (buffer (rob_fifo r)) (rptr (rob_fifo r)).

Definition rob_get_size (r : rob) : Z := fifo_get_size_plain (rob_fifo r).

Definition rob_get_free_space (r : rob) : Z := u32 (size (rob_fifo r) - rob_get_size r).

Definition rob_get_new_id (r : rob) : option Z := fifo_get_new_id (rob_fifo r).

Definition rob_get_next_new_id (r : rob) (cur_new_id : Z) : option Z * bool :=
  fifo_get_next_new_id (rob_fifo r) cur_new_id.

Definition rob_get_front_id (r : rob) : option Z := fifo_get_front_id (rob_fifo r).

Definition rob_get_tail_id (r : rob) : option Z := fifo_get_tail_id (rob_fifo r).

Definition rob_get_prev_id (r : rob) (id : Z) : option (Z * bool) := fifo_get_prev_id (rob_fifo r) id.

Definition rob_get_next_id (r : rob) (id : Z) : option (Z * bool) := fifo_get_next_id (rob_fifo r) id.

Definition rob_pop (r : rob) : option (bool * rob) :=
  '(t, f) ← fifo_pop (rob_fifo r);
  Some (match t with Some _ => true | None => false end, r <| rob_fifo := f |>).

Definition rob_pop_sync (r : rob) : rob := r <| rob_sync_request_q ::= fun l => l ++ [req_pop] |>.

Definition rob_sync_one (r : rob) (t_req : sync_request rob_item_t) : option rob :=
  match t_req with
  | req_pop => '(_, r) ← rob_pop r; Some r
  | req_set_item arg1 arg2 => rob_set_item r arg1 arg2
  end.

Fixpoint rob_sync_loop (r : rob) (reqs : list (sync_request rob_item_t)) : option rob :=
  match reqs with
  | [] => Some r
  | t_req :: reqs => r ← rob_sync_one (r <| rob_sync_request_q := reqs |>) t_req; rob_sync_loop r reqs
  end.

(** The loop takes requests off the queue until it is empty; handling one
    never adds another. *)
Definition rob_sync (r : rob) : option rob := rob_sync_loop r (rob_sync_request_q r).

(** * The interface *)

Definition rob_ok (r : rob) : Prop := fifo_ok (rob_fifo r).

Definition rob_entries (r : rob) : list (Z * rob_item_t) := fifo_entries (rob_fifo r).

Lemma fifo_full_entries {T} (f : fifo T) :
  fifo_ok f ->
  fifo_is_full f = negb (Z.of_nat (length (fifo_entries f)) <? size f) /\
  Z.of_nat (length (fifo_entries f)) <= size f.
Proof.
  intros Hok. rewrite fifo_entries_length by done. destruct Hok as (l & b & st & W).
  rewrite (window_full W), (window_size_plain W).
  destruct (window_facts W) as (_ & -> & _ & Hlen & _). split; [|lia].
  case_bool_decide; bcase; done || lia.
Qed.

#[export] Program Instance rob_id_queue : IdQueue rob rob_item_t := {|
  idq_ok := rob_ok;
  idq_cap r := size (rob_fifo r);
  idq_entries := rob_entries;
  idq_get := rob_get_item;
  idq_set := rob_set_item;
  idq_push := rob_push;
  idq_pop := rob_pop
|}.
Next Obligation. intros. by apply fifo_entries_nodup. Qed.
Next Obligation. intros. by apply fifo_entries_get. Qed.
Next Obligation. intros. by apply fifo_full_entries. Qed.
Next Obligation.
  intros r id x Hok Hid. destruct (fifo_entries_set (rob_fifo r) id x Hok Hid) as (f & E & ? & ? & ?).
  exists (r <| rob_fifo := f |>). unfold rob_set_item. rewrite E. by split_and!.
Qed.
Next Obligation.
  intros r x Hok. destruct (fifo_full_entries (rob_fifo r) Hok) as [Hf _].
  unfold rob_push, rob_entries. exists (wptr (rob_fifo r)).
  destruct (Z.ltb_spec (Z.of_nat (length (fifo_entries (rob_fifo r)))) (size (rob_fifo r))).
  - destruct (fifo_entries_push (rob_fifo r) x Hok Hf) as (f & E & ? & ? & ?).
    exists (r <| rob_fifo := f |>). rewrite E. by split_and!.
  - exists r. unfold fifo_push. rewrite Hf. cbn. by destruct r.
Qed.
Next Obligation.
  intros r Hok. destruct (fifo_entries_pop (rob_fifo r) Hok) as (f & E & ? & ? & ?).
  exists (r <| rob_fifo := f |>). unfold rob_pop, rob_entries. rewrite E. cbn.
  split_and!; try done. by destruct (fifo_entries (rob_fifo r)).
Qed.

(** * Properties *)

Lemma rob_sync_loop_apply r reqs r' :
  idq_apply_all (r <| rob_sync_request_q := [] |>) reqs = Some r' ->
  rob_sync_loop r reqs = Some (match reqs with [] => r | _ => r' end).
Proof.
  assert (forall a b t r1, idq_apply (a <| rob_sync_request_q := b |>) t = Some r1 ->
    forall c, rob_sync_one (a <| rob_sync_request_q := c |>) t = Some (r1 <| rob_sync_request_q := c |>)) as Hone.
  { intros a b [|id x] r1 E c; cbn in *; unfold rob_pop, rob_set_item in *; cbn in *.
    - destruct (fifo_pop (rob_fifo a)) as [[t f]|]; cbn in *; by simplify_eq.
    - destruct (fifo_set_item (rob_fifo a) id x) as [f|]; cbn in *; by simplify_eq. }
  revert r r'. induction reqs as [|t reqs IH]; intros r r' E; [done|]. cbn [rob_sync_loop idq_apply_all] in *.
  destruct (idq_apply (r <| rob_sync_request_q := [] |>) t) as [r1|] eqn:E1; [|done]. cbn [mbind option_bind] in *.
  rewrite (Hone _ _ _ _ E1). cbn [mbind option_bind].
  assert (rob_sync_request_q r1 = []) as Hr1.
  { destruct t; cbn in E1; unfold rob_pop, rob_set_item in E1; cbn in E1.
    - destruct (fifo_pop (rob_fifo r)) as [[t f]|]; cbn in E1; by simplify_eq.
    - destruct (fifo_set_item (rob_fifo r) arg1 arg2) as [f|]; cbn in E1; by simplify_eq. }
  assert (r1 <| rob_sync_request_q := [] |> = r1) as Hid by (destruct r1; cbn in *; by subst).
  rewrite (IH (r1 <| rob_sync_request_q := reqs |>) r').
  - destruct reqs as [|t2 reqs]; [|done]. cbn in E. simplify_eq. by rewrite Hid.
  - change (r1 <| rob_sync_request_q := reqs |> <| rob_sync_request_q := [] |>)
      with (r1 <| rob_sync_request_q := [] |>). by rewrite Hid.
Qed.

Lemma rob_sync_spec r :
  rob_ok r -> Forall (request_in_range (size (rob_fifo r))) (rob_sync_request_q r) ->
  exists r', rob_sync r = Some r' /\ rob_ok r' /\
    rob_entries r' = fold_left entries_apply (rob_sync_request_q r) (rob_entries r) /\
    rob_sync_request_q r' = [] /\ size (rob_fifo r') = size (rob_fifo r).
Proof.
  intros Hok Hrs. set (r0 := r <| rob_sync_request_q := [] |>).
  destruct (idq_apply_all_entries (rob_sync_request_q r) r0) as (r' & E & Hok' & Hcap & Hes); [done|done|].
  pose proof (rob_sync_loop_apply r _ r' E) as Hloop. unfold rob_sync. rewrite Hloop.
  destruct (rob_sync_request_q r) as [|t reqs] eqn:Eq; [by exists r|].
  exists r'. split_and!; [done|done|done| |exact Hcap].
  assert (forall rs (a b : rob), idq_apply_all a rs = Some b -> rob_sync_request_q b = rob_sync_request_q a) as Hkeep.
  { induction rs as [|u rs IH]; intros a b0 Ea; [by simplify_eq/=|]. cbn [idq_apply_all] in Ea.
    apply bind_Some in Ea as (a1 & E1 & Ea). rewrite (IH _ _ Ea).
    destruct u; cbn in E1; unfold rob_pop, rob_set_item in E1.
    - destruct (fifo_pop (rob_fifo a)) as [[u f]|]; cbn in E1; by simplify_eq.
    - destruct (fifo_set_item (rob_fifo a) arg1 arg2) as [f|]; cbn in E1; by simplify_eq. }
  by rewrite (Hkeep _ _ _ E).
Qed.

Lemma rob_sync_counters r r' :
  rob_sync r = Some r' ->
  committed r' = committed r /\ commit_num r' = commit_num r /\ global_commit_num r' = global_commit_num r.
Proof.
  unfold rob_sync. generalize (rob_sync_request_q r). intros reqs. revert r.
  induction reqs as [|t reqs IH]; intros r E; cbn in E; [by simplify_eq|].
  apply bind_Some in E as (r1 & E1 & E). destruct (IH _ E) as (-> & -> & ->).
  destruct t; cbn in E1; unfold rob_pop, rob_set_item in E1.
  - apply bind_Some in E1 as ([b r2] & E2 & E1). apply bind_Some in E2 as ([t f] & _ & E2). by simplify_eq.
  - apply bind_Some in E1 as (f & _ & E1). by simplify_eq.
Qed.

(** [sync] applies the updates collected during the cycle, in the order of
    the calls: the retired entries leave at the front, a write-back replaces
    the item of the id it names and nothing else, every surviving entry keeps
    its id, the counters are untouched, and no request is left.  It never
    faults when the ids are slot numbers. *)
Theorem rob_sync_entries r :
  rob_ok r -> Forall (request_in_range (size (rob_fifo r))) (rob_sync_request_q r) ->
  exists r', rob_sync r = Some r' /\ rob_ok r' /\
    rob_entries r' = fold_left entries_apply (rob_sync_request_q r) (rob_entries r) /\
    rob_sync_request_q r' = [].
Proof.
  intros Hok Hrs. destruct (rob_sync_spec r Hok Hrs) as (r' & ? & ? & ? & ? & _). by exists r'.
Qed.

(** The front entry finished in this cycle and is retired by the same [sync]
    that writes the result of the entry behind it. *)
Definition rob_demo_item (p : Z) (fin : bool) : rob_item_t :=
  mk_rob_item 0 0 false fin p 0 false illegal_instruction 0 false false 0 false 0 false false 0 false 0 0 false.

Definition rob_demo : rob :=
  mk_rob (mk_fifo [rob_demo_item 8 false; rob_demo_item 12 false; rob_demo_item 4 true] 3 2 true 2 false false 0 false)
    [req_pop; req_set_item 0 (rob_demo_item 8 true)] true 5 9.

Lemma rob_sync_entries_witness :
  exists r', rob_sync rob_demo = Some r' /\
    rob_entries r' = [(0, rob_demo_item 8 true); (1, rob_demo_item 12 false)] /\ rob_sync_request_q r' = [].
Proof.
  destruct (rob_sync_entries rob_demo) as (r' & H & _ & He & Hq).
  - exists [rob_demo_item 4 true; rob_demo_item 8 false; rob_demo_item 12 false], 2%nat, false.
    split; cbn; try done; lia.
  - repeat constructor; cbn; lia.
  - exists r'. split; [exact H|]. split; [rewrite He; vm_compute; reflexivity|exact Hq].
Defined.

(** [free_space], which rename compares with the number of entries it needs,
    is the number of pushes that succeed. *)
Lemma rob_free_space_spec r :
  rob_ok r -> rob_get_free_space r = size (rob_fifo r) - Z.of_nat (length (rob_entries r)).
Proof.
  intros Hok. unfold rob_get_free_space, rob_get_size. destruct (fifo_full_entries _ Hok) as [_ Hle].
  unfold rob_entries in *. rewrite fifo_entries_length in * by done.
  destruct Hok as (l & b & st & W). rewrite (window_size_plain W) in *.
  destruct (window_facts W) as (? & Hs & _ & _). rewrite Hs in *. apply u32_small. lia.
Qed.

(** A group of instructions fits into the reorder buffer when it is at most
    [get_free_space] long: every one of the pushes succeeds, the ids handed
    out are pairwise different and different from those in use, the entries
    appear behind the old ones in order, and reading any of the ids returns
    the item pushed under it. *)
Theorem rob_push_group r xs :
  rob_ok r -> Z.of_nat (length xs) <= rob_get_free_space r ->
  exists ids r', idq_push_all r xs = Some (ids, r') /\ rob_ok r' /\
    rob_entries r' = rob_entries r ++ zip ids xs /\
    NoDup (map fst (rob_entries r) ++ ids) /\
    (forall k id x, ids !! k = Some id -> xs !! k = Some x -> rob_get_item r' id = Some x).
Proof.
  intros Hok Hlen. rewrite rob_free_space_spec in Hlen by done.
  destruct (idq_push_all_entries xs r) as (ids & r' & E & Hok' & _ & Hl & He); [done|cbn; lia|].
  exists ids, r'. cbn in Hok', He. split_and!; try done.
  - assert (NoDup (map fst (idq_entries r'))) as Hnd by (by apply idq_nodup). cbn in Hnd. rewrite He, map_app in Hnd.
    replace (map fst (zip ids xs)) with ids in Hnd; [done|]. symmetry. apply fst_zip. lia.
  - intros k id x Hid Hx. apply (fifo_entries_get _ _ _ Hok'). unfold rob_entries in He. rewrite He. apply elem_of_app. right.
    apply list_elem_of_lookup. exists k. apply lookup_zip_Some. done.
Qed.

Lemma rob_push_group_witness :
  exists ids r', idq_push_all (rob_new (repeat (rob_demo_item 0 false) 2, 0, false) 2)
                   [rob_demo_item 4 false; rob_demo_item 8 false] = Some (ids, r') /\
    NoDup (map fst (rob_entries (rob_new (repeat (rob_demo_item 0 false) 2, 0, false) 2)) ++ ids) /\
    rob_get_item r' 1 = Some (rob_demo_item 8 false).
Proof.
  destruct (rob_push_group (rob_new (repeat (rob_demo_item 0 false) 2, 0, false) 2)
    [rob_demo_item 4 false; rob_demo_item 8 false]) as (ids & r' & H & _ & _ & Hnd & Hget).
  - apply (fifo_new_ok (repeat (rob_demo_item 0 false) 2) 0 false). simpl. lia.
  - vm_compute. discriminate.
  - exists ids, r'. split; [exact H|]. split; [exact Hnd|].
    vm_compute in H. injection H as <- <-. reflexivity.
Defined.
