(* ===== verification/CheckpointBuffer.v ===== *)
(** The checkpoint buffer [component::checkpoint_buffer] of
    [component/checkpoint_buffer.h]: the rename and predictor states saved at
    the predicted branches in flight. *)

From Stdlib Require Import ZArith Lia.
From stdpp Require Import base numbers list option tactics.
From S2P Require Import Prelude Common Fifo FifoIds IdQueue Rob.

Local Open Scope Z_scope.

Definition phy_reg_num_bitmap_size : Z := (PHY_REG_NUM + 64 - 1) / 64.

(** The bitmaps are arrays of [phy_reg_num_bitmap_size] 64-bit words;
    [rat_phy_map_table] is used by the global (commit-time) checkpoint only. *)
Record checkpoint_t := mk_checkpoint {
  rat_phy_map_table_valid : list Z;
  rat_phy_map_table_visible : list Z;
  phy_regfile_data_valid : list Z;
  rat_phy_map_table : list Z;
  cp_global_history : Z;
  cp_local_history : Z
}.

#[export] Instance checkpoint_eta : Eta checkpoint_t := fun r =>
  mk_checkpoint (rat_phy_map_table_valid r) (rat_phy_map_table_visible r)
    (phy_regfile_data_valid r) (rat_phy_map_table r) (cp_global_history r) (cp_local_history r).

(** [this->clone(cp)]: the new value of [cp]. *)
Definition checkpoint_clone (this cp : checkpoint_t) : checkpoint_t :=
  cp <| rat_phy_map_table_valid := rat_phy_map_table_valid this |>
     <| rat_phy_map_table_visible := rat_phy_map_table_visible this |>
     <| cp_global_history := cp_global_history this |>
     <| cp_local_history := cp_local_history this |>.

Record checkpoint_buffer := mk_checkpoint_buffer {
  cb_fifo : fifo checkpoint_t;
  cb_sync_request_q : list (sync_request checkpoint_t)
}.

#[export] Instance checkpoint_buffer_eta : Eta checkpoint_buffer := fun r =>
  mk_checkpoint_buffer (cb_fifo r) (cb_sync_request_q r).

Definition checkpoint_buffer_new (mem : list checkpoint_t * Z * bool) (size : Z) : checkpoint_buffer :=
  mk_checkpoint_buffer (fifo_new mem size) [].

Definition cb_reset (c : checkpoint_buffer) : checkpoint_buffer :=
  c <| cb_fifo ::= fifo_reset |> <| cb_sync_request_q := [] |>.

Definition cb_flush (c : checkpoint_buffer) : checkpoint_buffer := c <| cb_fifo ::= fifo_flush |>.

Definition cb_check_new_id_valid (c : checkpoint_buffer) (id : Z) : bool :=
  fifo_check_new_id_valid (cb_fifo c) id.

Definition cb_check_id_valid (c : checkpoint_buffer) (id : Z) : bool :=
  fifo_check_id_valid (cb_fifo c) id.

Definition cb_push (c : checkpoint_buffer) (element : checkpoint_t) : option (bool * Z * checkpoint_buffer) :=
  let item_id := wptr (cb_fifo c) in
  '(ret, f) ← fifo_push (cb_fifo c) element;
  Some (ret, item_id, c <| cb_fifo := f |>).

Definition cb_get_item (c : checkpoint_buffer) (item_id : Z) : option checkpoint_t :=
  arr_get (buffer (cb_fifo c)) item_id.

Definition cb_set_item (c : checkpoint_buffer) (item_id : Z) (item : checkpoint_t) : option checkpoint_buffer :=
  f ← fifo_set_item (cb_fifo c) item_id item; Some (c <| cb_fifo := f |>).

Definition cb_set_item_sync (c : checkpoint_buffer) (item_id : Z) (item : checkpoint_t) : checkpoint_buffer :=
  c <| cb_sync_request_q ::= fun l => l ++ [req_set_item item_id item] |>.

Definition cb_get_front (c : checkpoint_buffer) : option checkpoint_t :=
  arr_get (buffer (cb_fifo c)) (rptr (cb_fifo c)).

Definition cb_get_size (c : checkpoint_buffer) : Z := fifo_get_size_plain (cb_fifo c).

Definition cb_get_free_space (c : checkpoint_buffer) : Z := u32 (size (cb_fifo c) - cb_get_size c).

Definition cb_get_new_id (c : checkpoint_buffer) : option Z := fifo_get_new_id (cb_fifo c).

Definition cb_get_next_new_id (c : checkpoint_buffer) (cur_new_id : Z) : option Z * bool :=
  fifo_get_next_new_id (cb_fifo c) cur_new_id.

Definition cb_get_front_id (c : checkpoint_buffer) : option Z := fifo_get_front_id (cb_fifo c).

Definition cb_get_tail_id (c : checkpoint_buffer) : option Z := fifo_get_tail_id (cb_fifo c).

Definition cb_get_prev_id (c : checkpoint_buffer) (id : Z) : option (Z * bool) :=
  fifo_get_prev_id (cb_fifo c) id.

Definition cb_get_next_id (c : checkpoint_buffer) (id : Z) : option (Z * bool) :=
  fifo_get_next_id (cb_fifo c) id.

Definition cb_pop (c : checkpoint_buffer) : option (bool * checkpoint_buffer) :=
  '(t, f) ← fifo_pop (cb_fifo c);
  Some (match t with Some _ => true | None => false end, c <| cb_fifo := f |>).

Definition cb_pop_sync (c : checkpoint_buffer) : checkpoint_buffer :=
  c <| cb_sync_request_q ::= fun l => l ++ [req_pop] |>.

Definition cb_sync_one (c : checkpoint_buffer) (t_req : sync_request checkpoint_t) : option checkpoint_buffer :=
  match t_req with
  | req_pop => '(_, c) ← cb_pop c; Some c
  | req_set_item arg1 arg2 => cb_set_item c arg1 arg2
  end.

Fixpoint cb_sync_loop (c : checkpoint_buffer) (reqs : list (sync_request checkpoint_t)) : option checkpoint_buffer :=
  match reqs with
  | [] => Some c
  | t_req :: reqs => c ← cb_sync_one (c <| cb_sync_request_q := reqs |>) t_req; cb_sync_loop c reqs
  end.

Definition cb_sync (c : checkpoint_buffer) : option checkpoint_buffer :=
  cb_sync_loop c (cb_sync_request_q c).

(** * The interface *)

Definition cb_ok (c : checkpoint_buffer) : Prop := fifo_ok (cb_fifo c).

Definition cb_entries (c : checkpoint_buffer) : list (Z * checkpoint_t) := fifo_entries (cb_fifo c).

#[export] Program Instance cb_id_queue : IdQueue checkpoint_buffer checkpoint_t := {|
  idq_ok := cb_ok;
  idq_cap c := size (cb_fifo c);
  idq_entries := cb_entries;
  idq_get := cb_get_item;
  idq_set := cb_set_item;
  idq_push := cb_push;
  idq_pop := cb_pop
|}.
Next Obligation. intros. by apply fifo_entries_nodup. Qed.
Next Obligation. intros. by apply fifo_entries_get. Qed.
Next Obligation. intros. by apply fifo_full_entries. Qed.
Next Obligation.
  intros c id x Hok Hid. destruct (fifo_entries_set (cb_fifo c) id x Hok Hid) as (f & E & ? & ? & ?).
  exists (c <| cb_fifo := f |>). unfold cb_set_item. rewrite E. by split_and!.
Qed.
Next Obligation.
  intros c x Hok. destruct (fifo_full_entries (cb_fifo c) Hok) as [Hf _].
  unfold cb_push, cb_entries. exists (wptr (cb_fifo c)).
  destruct (Z.ltb_spec (Z.of_nat (length (fifo_entries (cb_fifo c)))) (size (cb_fifo c))).
  - destruct (fifo_entries_push (cb_fifo c) x Hok Hf) as (f & E & ? & ? & ?).
    exists (c <| cb_fifo := f |>). rewrite E. by split_and!.
  - exists c. unfold fifo_push. rewrite Hf. cbn. by destruct c.
Qed.
Next Obligation.
  intros c Hok. destruct (fifo_entries_pop (cb_fifo c) Hok) as (f & E & ? & ? & ?).
  exists (c <| cb_fifo := f |>). unfold cb_pop, cb_entries. rewrite E. cbn.
  split_and!; try done. by destruct (fifo_entries (cb_fifo c)).
Qed.

(** * Properties *)

(** [free_space], which rename compares with the number of entries it needs,
    is the number of pushes that succeed. *)
Lemma cb_free_space_spec c :
  cb_ok c -> cb_get_free_space c = size (cb_fifo c) - Z.of_nat (length (cb_entries c)).
Proof.
  intros Hok. unfold cb_get_free_space, cb_get_size. destruct (fifo_full_entries _ Hok) as [_ Hle].
  unfold cb_entries in *. rewrite fifo_entries_length in * by done.
  destruct Hok as (l & b & st & W). rewrite (window_size_plain W) in *.
  destruct (window_facts W) as (? & Hs & _ & _). rewrite Hs in *. apply u32_small. lia.
Qed.
