(* ===== verification/Rat.v ===== *)
(** The register alias table [component::rat] of [component/rat.h].

    The table is indexed by physical register: the architectural register it
    was allocated for, a [valid] bit (allocated), a [visible] bit (the current
    mapping) and a [commit] bit.  Rename allocates with [set_map]; retirement
    releases the previous mapping with [release_map]; a flush walks the
    reorder buffer backwards with [restore_map], or reloads a checkpoint.

    [rat_wf] is the invariant of the running machine: every architectural
    register is mapped to exactly one physical register.  [rat_equiv] compares
    two tables by what they mean, ignoring the leftovers in free registers. *)

From Stdlib Require Import ZArith Lia.
From stdpp Require Import base numbers list option tactics.
From S2P Require Import Prelude Common Bitmap CheckpointBuffer.

Local Open Scope Z_scope.

(** The [sync_request_t] structure, with the arguments its type uses. *)
Inductive rat_sync_request :=
| rat_req_set_map (arg1 arg2 : Z)
| rat_req_release_map (arg1 : Z)
| rat_req_commit_map (arg1 : Z)
| rat_req_restore_map (arg1 arg2 : Z)
| rat_req_restore (cp : checkpoint_t).

Record rat := mk_rat {
  rat_sync_request_q : list rat_sync_request;
  phy_reg_num : Z;
  arch_reg_num : Z;
  phy_map_table : list Z;
  phy_map_table_valid : list Z;
  phy_map_table_visible : list Z;
  phy_map_table_commit : list Z;
  bitmap_size : Z;
  init_rat : bool
}.

#[export] Instance rat_eta : Eta rat := fun r =>
  mk_rat (rat_sync_request_q r) (phy_reg_num r) (arch_reg_num r) (phy_map_table r)
    (phy_map_table_valid r) (phy_map_table_visible r) (phy_map_table_commit r)
    (bitmap_size r) (init_rat r).

(** The constructor; [mem_*] are the uninitialised arrays of the [new]
    expressions. *)
Definition rat_new (mem_table mem_valid mem_visible mem_commit : list Z)
    (phy_reg_num arch_reg_num : Z) : rat :=
  mk_rat [] phy_reg_num arch_reg_num mem_table mem_valid mem_visible mem_commit
    ((phy_reg_num + 64 - 1) / 64) false.

(** * Bits *)

Definition rat_set_valid (r : rat) (phy_id : Z) (v : bool) : option rat :=
  _ ← assert (phy_id <? phy_reg_num r);
  bm ← bitmap_set (phy_map_table_valid r) phy_id v;
  Some (r <| phy_map_table_valid := bm |>).

Definition rat_get_valid (r : rat) (phy_id : Z) : option bool :=
  _ ← assert (phy_id <? phy_reg_num r); bitmap_get (phy_map_table_valid r) phy_id.

Definition rat_set_visible (r : rat) (phy_id : Z) (v : bool) : option rat :=
  _ ← assert (phy_id <? phy_reg_num r);
  bm ← bitmap_set (phy_map_table_visible r) phy_id v;
  Some (r <| phy_map_table_visible := bm |>).

Definition rat_get_visible (r : rat) (phy_id : Z) : option bool :=
  _ ← assert (phy_id <? phy_reg_num r); bitmap_get (phy_map_table_visible r) phy_id.

Definition rat_set_commit (r : rat) (phy_id : Z) (v : bool) : option rat :=
  _ ← assert (phy_id <? phy_reg_num r);
  bm ← bitmap_set (phy_map_table_commit r) phy_id v;
  Some (r <| phy_map_table_commit := bm |>).

Definition rat_get_commit (r : rat) (phy_id : Z) : option bool :=
  _ ← assert (phy_id <? phy_reg_num r); bitmap_get (phy_map_table_commit r) phy_id.

Definition rat_set_table (r : rat) (phy_id arch_id : Z) : option rat :=
  t ← arr_set (phy_map_table r) phy_id arch_id; Some (r <| phy_map_table := t |>).

(** * Initialisation *)

Definition rat_init_start (r : rat) : rat :=
  r <| phy_map_table := repeat 0 (Z.to_nat (phy_reg_num r)) |>
    <| phy_map_table_valid := repeat 0 (Z.to_nat (bitmap_size r)) |>
    <| phy_map_table_visible := repeat 0 (Z.to_nat (bitmap_size r)) |>
    <| phy_map_table_commit := repeat 0 (Z.to_nat (bitmap_size r)) |>
    <| rat_sync_request_q := [] |>
    <| init_rat := true |>.

Definition rat_init_finish (r : rat) : rat := r <| init_rat := false |>.

(** * Operations on a checkpoint *)

Definition rat_cp_set_valid (r : rat) (cp : checkpoint_t) (phy_id : Z) (v : bool) : option checkpoint_t :=
  _ ← assert (phy_id <? phy_reg_num r);
  bm ← bitmap_set (rat_phy_map_table_valid cp) phy_id v;
  Some (cp <| rat_phy_map_table_valid := bm |>).

Definition rat_cp_get_valid (r : rat) (cp : checkpoint_t) (phy_id : Z) : option bool :=
  _ ← assert (phy_id <? phy_reg_num r); bitmap_get (rat_phy_map_table_valid cp) phy_id.

Definition rat_cp_set_visible (r : rat) (cp : checkpoint_t) (phy_id : Z) (v : bool) : option checkpoint_t :=
  _ ← assert (phy_id <? phy_reg_num r);
  bm ← bitmap_set (rat_phy_map_table_visible cp) phy_id v;
  Some (cp <| rat_phy_map_table_visible := bm |>).

Definition rat_cp_get_visible (r : rat) (cp : checkpoint_t) (phy_id : Z) : option bool :=
  _ ← assert (phy_id <? phy_reg_num r); bitmap_get (rat_phy_map_table_visible cp) phy_id.

(** The search loops: [found i] is the condition of the [if]; the result is
    [cnt] and the last id stored. *)
Fixpoint search_loop (found : Z -> option bool) (ids : list Z) (cnt : Z) (phy_id : option Z)
    : option (Z * option Z) :=
  match ids with
  | [] => Some (cnt, phy_id)
  | i :: ids =>
      b ← found i;
      if (b : bool) then search_loop found ids (cnt + 1) (Some i) else search_loop found ids cnt phy_id
  end.

(** [a && b] where evaluating [b] may fail. *)
Definition and_then (a b : option bool) : option bool :=
  x ← a; if (x : bool) then b else Some false.

Definition rat_cp_get_phy_id (r : rat) (cp : checkpoint_t) (arch_id : Z) : option (option Z) :=
  _ ← assert ((0 <? arch_id) && (arch_id <? arch_reg_num r));
  '(cnt, phy_id) ←
    search_loop (fun i => and_then (rat_cp_get_valid r cp i) (and_then (rat_cp_get_visible r cp i)
                            (a ← arr_get (rat_phy_map_table cp) i; Some (a =? arch_id))))
      (upto (phy_reg_num r)) 0 None;
  _ ← assert (cnt <=? 1);
  Some (if cnt =? 1 then phy_id else None).

Definition rat_cp_set_map (r : rat) (cp : checkpoint_t) (arch_id phy_id : Z) : option checkpoint_t :=
  _ ← assert (phy_id <? phy_reg_num r);
  _ ← assert ((0 <? arch_id) && (arch_id <? arch_reg_num r));
  v ← rat_cp_get_valid r cp phy_id;
  _ ← assert (negb v);
  old_phy_id ← rat_cp_get_phy_id r cp arch_id;
  t ← arr_set (rat_phy_map_table cp) phy_id arch_id;
  let cp := cp <| rat_phy_map_table := t |> in
  cp ← rat_cp_set_valid r cp phy_id true;
  cp ← rat_cp_set_visible r cp phy_id true;
  match old_phy_id with
  | Some old_phy_id => rat_cp_set_visible r cp old_phy_id false
  | None => Some cp
  end.

Definition rat_save (r : rat) (cp : checkpoint_t) : option checkpoint_t :=
  valid ← memcpy (rat_phy_map_table_valid cp) (phy_map_table_valid r) phy_reg_num_bitmap_size;
  visible ← memcpy (rat_phy_map_table_visible cp) (phy_map_table_visible r) phy_reg_num_bitmap_size;
  table ← memcpy (rat_phy_map_table cp) (phy_map_table r) PHY_REG_NUM;
  Some (cp <| rat_phy_map_table_valid := valid |> <| rat_phy_map_table_visible := visible |>
           <| rat_phy_map_table := table |>).

Definition rat_restore (r : rat) (cp : checkpoint_t) : option rat :=
  valid ← memcpy (phy_map_table_valid r) (rat_phy_map_table_valid cp) phy_reg_num_bitmap_size;
  visible ← memcpy (phy_map_table_visible r) (rat_phy_map_table_visible cp) phy_reg_num_bitmap_size;
  Some (r <| phy_map_table_valid := valid |> <| phy_map_table_visible := visible |>).

Definition rat_cp_release_map (r : rat) (cp : checkpoint_t) (phy_id : Z) : option checkpoint_t :=
  _ ← assert (phy_id <? phy_reg_num r);
  v ← rat_cp_get_valid r cp phy_id;
  _ ← assert v;
  s ← rat_cp_get_visible r cp phy_id;
  _ ← assert (negb s);
  rat_cp_set_valid r cp phy_id false.

(** * Lookups *)

(** The elements stored to [ret]; their number is the value returned.  The
    first free register is stored before [num] is looked at. *)
Fixpoint free_phy_id_loop (r : rat) (num : Z) (ids ret : list Z) : option (list Z) :=
  match ids with
  | [] => Some ret
  | i :: ids =>
      v ← rat_get_valid r i;
      if negb v then
        let ret := ret ++ [i] in
        if num <=? Z.of_nat (length ret) then Some ret else free_phy_id_loop r num ids ret
      else free_phy_id_loop r num ids ret
  end.

Definition rat_get_free_phy_id (r : rat) (num : Z) : option (list Z) :=
  free_phy_id_loop r num (upto (phy_reg_num r)) [].

Definition rat_get_phy_id (r : rat) (arch_id : Z) : option (option Z) :=
  _ ← assert ((0 <? arch_id) && (arch_id <? arch_reg_num r));
  '(cnt, phy_id) ←
    search_loop (fun i => and_then (rat_get_valid r i) (and_then (rat_get_visible r i)
                            (a ← arr_get (phy_map_table r) i; Some (a =? arch_id))))
      (upto (phy_reg_num r)) 0 None;
  _ ← assert (cnt <=? 1);
  Some (if cnt =? 1 then phy_id else None).

Definition rat_get_commit_phy_id (r : rat) (arch_id : Z) : option Z :=
  _ ← assert ((0 <? arch_id) && (arch_id <? arch_reg_num r));
  '(cnt, phy_id) ←
    search_loop (fun i => and_then (rat_get_valid r i) (and_then (rat_get_commit r i)
                            (a ← arr_get (phy_map_table r) i; Some (a =? arch_id))))
      (upto (phy_reg_num r)) 0 None;
  _ ← assert (cnt =? 1);
  phy_id.

(** * Updates *)

Definition rat_commit_map (r : rat) (phy_id : Z) : option rat :=
  _ ← assert (phy_id <? phy_reg_num r);
  v ← rat_get_valid r phy_id;
  _ ← assert v;
  c ← rat_get_commit r phy_id;
  _ ← assert (negb c);
  rat_set_commit r phy_id true.

(** The id returned is uninitialised ([None]) when the register had no mapping,
    which the code allows during initialisation only. *)
Definition rat_set_map (r : rat) (arch_id phy_id : Z) : option (option Z * rat) :=
  _ ← assert (phy_id <? phy_reg_num r);
  _ ← assert ((0 <? arch_id) && (arch_id <? arch_reg_num r));
  v ← rat_get_valid r phy_id;
  _ ← assert (negb v);
  old_phy_id ← rat_get_phy_id r arch_id;
  _ ← (if negb (init_rat r) then
         _ ← assert (bool_decide (is_Some old_phy_id));
         v ← rat_get_valid r phy_id;
         assert (negb v)
       else Some tt);
  r ← rat_set_table r phy_id arch_id;
  r ← rat_set_valid r phy_id true;
  r ← rat_set_visible r phy_id true;
  r ← rat_set_commit r phy_id false;
  r ← match old_phy_id with
      | Some old_phy_id => rat_set_visible r old_phy_id false
      | None => Some r
      end;
  Some (old_phy_id, r).

Definition rat_release_map (r : rat) (phy_id : Z) : option rat :=
  _ ← assert (phy_id <? phy_reg_num r);
  v ← rat_get_valid r phy_id;
  _ ← assert v;
  s ← rat_get_visible r phy_id;
  _ ← assert (negb s);
  r ← rat_set_table r phy_id 0;
  rat_set_valid r phy_id false.

Definition rat_restore_map (r : rat) (new_phy_id old_phy_id : Z) : option rat :=
  _ ← assert (new_phy_id <? phy_reg_num r);
  _ ← assert (old_phy_id <? phy_reg_num r);
  vn ← rat_get_valid r new_phy_id;
  _ ← assert vn;
  vo ← rat_get_valid r old_phy_id;
  _ ← assert vo;
  sn ← rat_get_visible r new_phy_id;
  _ ← assert sn;
  so ← rat_get_visible r old_phy_id;
  _ ← assert (negb so);
  r ← rat_set_table r new_phy_id 0;
  r ← rat_set_valid r new_phy_id false;
  r ← rat_set_visible r new_phy_id false;
  r ← rat_set_valid r old_phy_id true;
  rat_set_visible r old_phy_id true.

(** * Deferred updates *)

Definition rat_push_request (r : rat) (t_req : rat_sync_request) : rat :=
  r <| rat_sync_request_q ::= fun l => l ++ [t_req] |>.

Definition rat_restore_sync (r : rat) (cp : checkpoint_t) : rat := rat_push_request r (rat_req_restore cp).

Definition rat_commit_map_sync (r : rat) (phy_id : Z) : rat := rat_push_request r (rat_req_commit_map phy_id).

Definition rat_set_map_sync (r : rat) (arch_id phy_id : Z) : option rat :=
  _ ← assert (phy_id <? phy_reg_num r);
  _ ← assert ((0 <? arch_id) && (arch_id <? arch_reg_num r));
  Some (rat_push_request r (rat_req_set_map arch_id phy_id)).

Definition rat_release_map_sync (r : rat) (phy_id : Z) : rat :=
  rat_push_request r (rat_req_release_map phy_id).

Definition rat_restore_map_sync (r : rat) (new_phy_id old_phy_id : Z) : rat :=
  rat_push_request r (rat_req_restore_map new_phy_id old_phy_id).

Definition rat_sync_one (r : rat) (t_req : rat_sync_request) : option rat :=
  match t_req with
  | rat_req_set_map arg1 arg2 => '(_, r) ← rat_set_map r arg1 arg2; Some r
  | rat_req_release_map arg1 => rat_release_map r arg1
  | rat_req_commit_map arg1 => rat_commit_map r arg1
  | rat_req_restore_map arg1 arg2 => rat_restore_map r arg1 arg2
  | rat_req_restore cp => rat_restore r cp
  end.

Fixpoint rat_sync_loop (r : rat) (reqs : list rat_sync_request) : option rat :=
  match reqs with
  | [] => Some r
  | t_req :: reqs => r ← rat_sync_one (r <| rat_sync_request_q := reqs |>) t_req; rat_sync_loop r reqs
  end.

Definition rat_sync (r : rat) : option rat := rat_sync_loop r (rat_sync_request_q r).

(** * The logical state

    [rat_state r V S C M]: the arrays of [r] have their sizes, and hold the
    bits [V] (valid), [S] (visible), [C] (commit) and the owners [M]. *)

Definition fupd {A} (f : Z -> A) (p : Z) (x : A) : Z -> A := fun i => if decide (i = p) then x else f i.

Definition rat_shape (r : rat) : Prop :=
  0 < phy_reg_num r /\ length (phy_map_table r) = Z.to_nat (phy_reg_num r) /\
  bitmap_ok (phy_reg_num r) (phy_map_table_valid r) /\
  bitmap_ok (phy_reg_num r) (phy_map_table_visible r) /\
  bitmap_ok (phy_reg_num r) (phy_map_table_commit r).

Definition rat_valid (r : rat) (i : Z) : bool := bit_at (phy_map_table_valid r) i.
Definition rat_visible (r : rat) (i : Z) : bool := bit_at (phy_map_table_visible r) i.
Definition rat_committed (r : rat) (i : Z) : bool := bit_at (phy_map_table_commit r) i.
Definition rat_owner (r : rat) (i : Z) : Z := default 0 (arr_get (phy_map_table r) i).

Definition in_phy (r : rat) (i : Z) : Prop := 0 <= i < phy_reg_num r.

Record rat_state (r : rat) (V S C : Z -> bool) (M : Z -> Z) : Prop := {
  rs_shape : rat_shape r;
  rs_valid i : in_phy r i -> rat_valid r i = V i;
  rs_visible i : in_phy r i -> rat_visible r i = S i;
  rs_commit i : in_phy r i -> rat_committed r i = C i;
  rs_owner i : in_phy r i -> rat_owner r i = M i
}.

(** What the bit operations leave alone. *)
Definition rat_frame (r r' : rat) : Prop :=
  phy_reg_num r' = phy_reg_num r /\ arch_reg_num r' = arch_reg_num r /\
  bitmap_size r' = bitmap_size r /\ init_rat r' = init_rat r /\
  rat_sync_request_q r' = rat_sync_request_q r.

Lemma rat_frame_trans r1 r2 r3 : rat_frame r1 r2 -> rat_frame r2 r3 -> rat_frame r1 r3.
Proof. unfold rat_frame. intros. split_ands. split_and!; congruence. Qed.

Lemma rat_state_self r : rat_shape r -> rat_state r (rat_valid r) (rat_visible r) (rat_committed r) (rat_owner r).
Proof. by split. Qed.

Lemma rat_lt r p : in_phy r p -> (p <? phy_reg_num r) = true.
Proof. intros [_ H]. by apply Z.ltb_lt. Qed.

Section state.
Context {r : rat} {V S C : Z -> bool} {M : Z -> Z} (RS : rat_state r V S C M).

Lemma state_get_valid p : in_phy r p -> rat_get_valid r p = Some (V p).
Proof.
  intros Hp. destruct RS as [(_ & _ & Hv & _) H1 _ _ _]. unfold rat_get_valid. rewrite rat_lt by done. cbn.
  rewrite (bitmap_get_bit _ _ Hv) by done. f_equal. by apply H1.
Qed.

Lemma state_get_visible p : in_phy r p -> rat_get_visible r p = Some (S p).
Proof.
  intros Hp. destruct RS as [(_ & _ & _ & Hv & _) _ H1 _ _]. unfold rat_get_visible. rewrite rat_lt by done. cbn.
  rewrite (bitmap_get_bit _ _ Hv) by done. f_equal. by apply H1.
Qed.

Lemma state_get_commit p : in_phy r p -> rat_get_commit r p = Some (C p).
Proof.
  intros Hp. destruct RS as [(_ & _ & _ & _ & Hv) _ _ H1 _]. unfold rat_get_commit. rewrite rat_lt by done. cbn.
  rewrite (bitmap_get_bit _ _ Hv) by done. f_equal. by apply H1.
Qed.

Lemma state_get_table p : in_phy r p -> arr_get (phy_map_table r) p = Some (M p).
Proof.
  intros Hp. destruct RS as [(_ & Hl & _) _ _ _ H1]. specialize (H1 p Hp). unfold rat_owner, in_phy in *.
  destruct (arr_get_in_range (phy_map_table r) p) as [x Hx]; [lia|]. rewrite Hx in *. cbn in H1. by rewrite H1.
Qed.

Lemma state_set_valid p v :
  in_phy r p -> exists r', rat_set_valid r p v = Some r' /\ rat_state r' (fupd V p v) S C M /\ rat_frame r r'.
Proof.
  intros Hp. destruct RS as [(H0 & Hl & Hv & Hs & Hc) Ev Es Ec Em]. unfold rat_set_valid. rewrite rat_lt by done. cbn.
  destruct (bitmap_set_spec _ _ Hv p v Hp) as (bm & -> & Hok & Hb). cbn. eexists. split; [reflexivity|].
  split; [|by split_and!]. split; [by split_and!|..]; intros i Hi;
    first [exact (Ev i Hi)|exact (Es i Hi)|exact (Ec i Hi)|exact (Em i Hi)|idtac].
  unfold rat_valid. cbn. rewrite (Hb i Hi). unfold fupd. case_decide; [done|]. by apply Ev.
Qed.

Lemma state_set_visible p v :
  in_phy r p -> exists r', rat_set_visible r p v = Some r' /\ rat_state r' V (fupd S p v) C M /\ rat_frame r r'.
Proof.
  intros Hp. destruct RS as [(H0 & Hl & Hv & Hs & Hc) Ev Es Ec Em]. unfold rat_set_visible. rewrite rat_lt by done. cbn.
  destruct (bitmap_set_spec _ _ Hs p v Hp) as (bm & -> & Hok & Hb). cbn. eexists. split; [reflexivity|].
  split; [|by split_and!]. split; [by split_and!|..]; intros i Hi;
    first [exact (Ev i Hi)|exact (Es i Hi)|exact (Ec i Hi)|exact (Em i Hi)|idtac].
  unfold rat_visible. cbn. rewrite (Hb i Hi). unfold fupd. case_decide; [done|]. by apply Es.
Qed.

Lemma state_set_commit p v :
  in_phy r p -> exists r', rat_set_commit r p v = Some r' /\ rat_state r' V S (fupd C p v) M /\ rat_frame r r'.
Proof.
  intros Hp. destruct RS as [(H0 & Hl & Hv & Hs & Hc) Ev Es Ec Em]. unfold rat_set_commit. rewrite rat_lt by done. cbn.
  destruct (bitmap_set_spec _ _ Hc p v Hp) as (bm & -> & Hok & Hb). cbn. eexists. split; [reflexivity|].
  split; [|by split_and!]. split; [by split_and!|..]; intros i Hi;
    first [exact (Ev i Hi)|exact (Es i Hi)|exact (Ec i Hi)|exact (Em i Hi)|idtac].
  unfold rat_committed. cbn. rewrite (Hb i Hi). unfold fupd. case_decide; [done|]. by apply Ec.
Qed.

Lemma state_set_table p a :
  in_phy r p -> exists r', rat_set_table r p a = Some r' /\ rat_state r' V S C (fupd M p a) /\ rat_frame r r'.
Proof.
  intros Hp. destruct RS as [(H0 & Hl & Hv & Hs & Hc) Ev Es Ec Em]. unfold rat_set_table, in_phy in *.
  rewrite arr_set_eq by lia. cbn. eexists. split; [reflexivity|].
  split; [|by split_and!]. split; [by split_and!; cbn; rewrite ?length_insert|..]; intros i Hi;
    first [exact (Ev i Hi)|exact (Es i Hi)|exact (Ec i Hi)|exact (Em i Hi)|idtac].
  unfold rat_owner, fupd, in_phy in *. cbn in *. rewrite arr_get_lookup by lia. case_decide as E.
  - subst. by rewrite list_lookup_insert_eq by lia.
  - rewrite list_lookup_insert_ne by lia. rewrite <- Em by done. by rewrite arr_get_lookup by lia.
Qed.

End state.

(** * The search loops *)

Lemma and_then_Some a b : and_then (Some a) (Some b) = Some (a && b).
Proof. by destruct a. Qed.

Lemma search_loop_none (found : Z -> option bool) (g : Z -> bool) ids cnt phy :
  (forall i, i ∈ ids -> found i = Some (g i)) -> (forall i, i ∈ ids -> g i = false) ->
  search_loop found ids cnt phy = Some (cnt, phy).
Proof.
  intros Hf Hg. induction ids as [|i ids IH]; [done|]. cbn.
  rewrite Hf by left. cbn. rewrite Hg by left. apply IH; intros; [apply Hf|apply Hg]; by right.
Qed.

Lemma search_loop_unique (found : Z -> option bool) (g : Z -> bool) ids p :
  (forall i, i ∈ ids -> found i = Some (g i)) -> NoDup ids -> p ∈ ids ->
  (forall i, i ∈ ids -> g i = true <-> i = p) ->
  search_loop found ids 0 None = Some (1, Some p).
Proof.
  intros Hf Hnd Hp Hg. induction ids as [|i ids IH]; [by apply elem_of_nil in Hp|]. cbn.
  rewrite Hf by left. cbn. apply list.NoDup_cons in Hnd as [Hi Hnd]. destruct (decide (i = p)) as [->|Hne].
  - assert (g p = true) as -> by (apply Hg; [left|done]). apply (search_loop_none _ g).
    + intros j Hj. apply Hf. by right.
    + intros j Hj. apply not_true_is_false. intros Hj'%Hg; [by subst|by right].
  - assert (g i = false) as -> by (apply not_true_is_false; intros Hi'%Hg; [done|left]).
    apply IH; [intros; apply Hf; by right|done|by apply elem_of_cons in Hp as [|]|intros; apply Hg; by right].
Qed.

(** * The invariant *)

(** The architectural registers that are renamed ([x0] is not). *)
Definition in_arch (r : rat) (a : Z) : Prop := 0 < a < arch_reg_num r.

(** [p] is the current mapping of [a]. *)
Definition rat_maps (r : rat) (a p : Z) : Prop :=
  in_phy r p /\ rat_valid r p = true /\ rat_visible r p = true /\ rat_owner r p = a.

(** Every architectural register has exactly one current mapping, and the
    visible registers are exactly these mappings. *)
Record rat_wf (r : rat) : Prop := {
  wf_shape : rat_shape r;
  wf_running : init_rat r = false;
  wf_total a : in_arch r a -> exists p, rat_maps r a p;
  wf_unique a p q : rat_maps r a p -> rat_maps r a q -> p = q;
  wf_visible p : in_phy r p -> rat_visible r p = true -> rat_valid r p = true /\ in_arch r (rat_owner r p)
}.

(** Two tables that mean the same: the same registers are allocated and
    visible, with the same owners; the owner of a free register is garbage,
    and [commit] bits are bookkeeping. *)
Record rat_equiv (r1 r2 : rat) : Prop := {
  eqv_phy : phy_reg_num r1 = phy_reg_num r2;
  eqv_arch : arch_reg_num r1 = arch_reg_num r2;
  eqv_init : init_rat r1 = init_rat r2;
  eqv_valid i : in_phy r1 i -> rat_valid r1 i = rat_valid r2 i;
  eqv_visible i : in_phy r1 i -> rat_visible r1 i = rat_visible r2 i;
  eqv_owner i : in_phy r1 i -> rat_valid r1 i = true -> rat_owner r1 i = rat_owner r2 i
}.

#[export] Instance rat_equiv_equivalence : Equivalence rat_equiv.
Proof.
  split.
  - by intros r; split.
  - intros r1 r2 [H1 H2 H3 H4 H5 H6]. split; [done..| | |]; intros i Hi; unfold in_phy in *; rewrite <- H1 in Hi;
      symmetry; [by apply H4|by apply H5|]. apply H6; [done|]. by rewrite H4.
  - intros r1 r2 r3 [H1 H2 H3 H4 H5 H6] [G1 G2 G3 G4 G5 G6]. unfold in_phy in *.
    split; [congruence..| | |]; intros i Hi; unfold in_phy in *;
      [rewrite H4 by done; apply G4; lia|rewrite H5 by done; apply G5; lia|].
    intros Hv. rewrite H6 by done. apply G6; [lia|]. by rewrite <- H4.
Qed.

#[export] Instance rat_maps_proper : Proper (rat_equiv ==> eq ==> eq ==> iff) rat_maps.
Proof.
  assert (forall r1 r2, rat_equiv r1 r2 -> forall a p, rat_maps r1 a p -> rat_maps r2 a p) as Himp.
  { intros r1 r2 [H1 H2 H3 H4 H5 H6] a p (Hp & Hv & Hs & Ho). unfold rat_maps, in_phy in *.
    rewrite <- H1, <- H4, <- H5, <- H6 by done. done. }
  intros r1 r2 Heq a ? <- p ? <-. split; apply Himp; [done|by symmetry].
Qed.

#[export] Instance in_phy_proper : Proper (rat_equiv ==> eq ==> iff) in_phy.
Proof. intros r1 r2 H i ? <-. unfold in_phy. by rewrite (eqv_phy _ _ H). Qed.

#[export] Instance in_arch_proper : Proper (rat_equiv ==> eq ==> iff) in_arch.
Proof. intros r1 r2 H i ? <-. unfold in_arch. by rewrite (eqv_arch _ _ H). Qed.

(** Well-formedness carries over to an equivalent table. *)
Lemma rat_wf_equiv r1 r2 : rat_equiv r1 r2 -> rat_shape r2 -> rat_wf r1 -> rat_wf r2.
Proof.
  intros E Hsh [_ Hi Ht Hu Hv]. split; [done|..].
  - by rewrite <- (eqv_init _ _ E).
  - intros a Ha. rewrite <- E in Ha. destruct (Ht a Ha) as [p Hp]. exists p. by rewrite <- E.
  - intros a p q. rewrite <- !E. apply Hu.
  - intros p Hp Hs. rewrite <- E in Hp. rewrite <- (eqv_visible _ _ E) in Hs by done.
    destruct (Hv p Hp Hs) as [Hval Ha]. rewrite <- (eqv_valid _ _ E) by done. split; [done|].
    rewrite <- (eqv_owner _ _ E) by done. by rewrite <- E.
Qed.

(** * Lookup *)

Lemma rat_get_phy_id_state r V S C M a p :
  rat_state r V S C M -> in_arch r a -> in_phy r p ->
  (forall i, in_phy r i -> V i && (S i && (M i =? a)) = true <-> i = p) ->
  rat_get_phy_id r a = Some (Some p).
Proof.
  intros RS [Ha1 Ha2] Hp Hu. unfold rat_get_phy_id.
  destruct (Z.ltb_spec 0 a); [|lia]. destruct (Z.ltb_spec a (arch_reg_num r)); [|lia]. cbn [andb assert mbind option_bind].
  rewrite (search_loop_unique _ (fun i => V i && (S i && (M i =? a))) _ p); [done|..].
  - intros i Hi%elem_of_upto. rewrite (state_get_valid RS), (state_get_visible RS), (state_get_table RS) by done.
    cbn [mbind option_bind]. by rewrite !and_then_Some.
  - apply NoDup_upto.
  - by apply elem_of_upto.
  - intros i Hi%elem_of_upto. by apply Hu.
Qed.

Lemma rat_get_phy_id_maps r a p : rat_wf r -> in_arch r a -> rat_maps r a p -> rat_get_phy_id r a = Some (Some p).
Proof.
  intros WF Ha Hm. apply (rat_get_phy_id_state r _ _ _ _ a p (rat_state_self r (wf_shape r WF)) Ha); [apply Hm|].
  intros i Hi. rewrite !andb_true_iff, Z.eqb_eq. split.
  - intros (? & ? & ?). by apply (wf_unique r WF a).
  - intros ->. split_and!; apply Hm.
Qed.

(** * Updates *)

Lemma in_phy_frame r r' p : rat_frame r r' -> in_phy r' p <-> in_phy r p.
Proof. intros (H & _). unfold in_phy. by rewrite H. Qed.

Lemma in_arch_frame r r' a : rat_frame r r' -> in_arch r' a <-> in_arch r a.
Proof. intros (_ & H & _). unfold in_arch. by rewrite H. Qed.

Lemma state_maps r V S C M a p :
  rat_state r V S C M -> rat_maps r a p <-> in_phy r p /\ V p = true /\ S p = true /\ M p = a.
Proof.
  intros RS. unfold rat_maps. split; intros (Hp & ?); (split; [done|]);
    rewrite (rs_valid _ _ _ _ _ RS), (rs_visible _ _ _ _ _ RS), (rs_owner _ _ _ _ _ RS) in * by done; done.
Qed.

(** The invariant on the logical state. *)
Record map_inv (n k : Z) (V S : Z -> bool) (M : Z -> Z) : Prop := {
  mi_total a : 0 < a < k -> exists p, 0 <= p < n /\ V p = true /\ S p = true /\ M p = a;
  mi_unique p q : 0 <= p < n -> 0 <= q < n -> S p = true -> S q = true -> M p = M q -> p = q;
  mi_visible p : 0 <= p < n -> S p = true -> V p = true /\ 0 < M p < k
}.

Lemma rat_wf_inv r V S C M :
  rat_state r V S C M -> init_rat r = false ->
  rat_wf r <-> map_inv (phy_reg_num r) (arch_reg_num r) V S M.
Proof.
  intros RS Hi. split.
  - intros WF. split.
    + intros a Ha. destruct (wf_total r WF a Ha) as [p Hp]. exists p. by apply (state_maps _ _ _ _ _ _ _ RS) in Hp.
    + intros p q Hp Hq Sp Sq E. rewrite <- (rs_visible _ _ _ _ _ RS) in Sp, Sq by done.
      rewrite <- !(rs_owner _ _ _ _ _ RS) in E by done.
      apply (wf_unique r WF (rat_owner r p)); (split; [done|]); split_and!; try done; by apply (wf_visible r WF).
    + intros p Hp Sp. rewrite <- (rs_visible _ _ _ _ _ RS) in Sp by done.
      destruct (wf_visible r WF p Hp Sp) as [Hv Ha].
      by rewrite (rs_valid _ _ _ _ _ RS), (rs_owner _ _ _ _ _ RS) in * by done.
  - intros [Ht Hu Hv]. split; [apply RS|done|..].
    + intros a Ha. destruct (Ht a Ha) as [p Hp]. exists p. by apply (state_maps _ _ _ _ _ _ _ RS).
    + intros a p q (Hp & ? & ? & <-)%(state_maps _ _ _ _ _ _ _ RS) (Hq & ? & ? & E)%(state_maps _ _ _ _ _ _ _ RS).
      by apply Hu.
    + intros p Hp Sp. rewrite (rs_visible _ _ _ _ _ RS) in Sp by done. unfold in_arch.
      rewrite (rs_valid _ _ _ _ _ RS), (rs_owner _ _ _ _ _ RS) by done. by apply Hv.
Qed.

(** One more bit operation in a chain: the state and the frame after it. *)
Local Ltac rat_step L p v :=
  match goal with
  | RS : rat_state ?r _ _ _ _ |- _ =>
      let r' := fresh "r" in let RS' := fresh "RS" in let F := fresh "F" in
      destruct (L r _ _ _ _ RS p v) as (r' & -> & RS' & F);
      [first [done|match goal with F : rat_frame _ r |- _ => by apply (in_phy_frame _ _ _ F) end]|];
      cbn [mbind option_bind]; clear RS;
      try match goal with G : rat_frame ?r0 r |- _ => apply (rat_frame_trans _ _ _ G) in F; clear G end
  end.

Lemma rat_set_map_state r V S C M a p old :
  rat_state r V S C M -> init_rat r = false -> in_arch r a -> in_phy r p -> in_phy r old ->
  V p = false -> (forall i, in_phy r i -> V i && (S i && (M i =? a)) = true <-> i = old) ->
  exists r', rat_set_map r a p = Some (Some old, r') /\ rat_frame r r' /\
    rat_state r' (fupd V p true) (fupd (fupd S p true) old false) (fupd C p false) (fupd M p a).
Proof.
  intros RS Hi Ha Hp Hold Hv Hu. unfold rat_set_map. rewrite rat_lt by done. destruct Ha as [Ha1 Ha2].
  destruct (Z.ltb_spec 0 a); [|lia]. destruct (Z.ltb_spec a (arch_reg_num r)); [|lia].
  cbn [andb assert mbind option_bind]. rewrite (state_get_valid RS), Hv by done. cbn [negb assert mbind option_bind].
  rewrite (rat_get_phy_id_state r _ _ _ _ a old RS) by done. cbn [mbind option_bind].
  rewrite Hi. cbn [negb]. rewrite bool_decide_true by (by eexists). cbn [assert mbind option_bind].
  rat_step (@state_set_table) p a. rat_step (@state_set_valid) p true.
  rat_step (@state_set_visible) p true. rat_step (@state_set_commit) p false.
  rat_step (@state_set_visible) old false. by eexists.
Qed.

Lemma set_map_inv n k V S M a p old :
  map_inv n k V S M -> 0 < a < k -> 0 <= p < n -> V p = false ->
  0 <= old < n -> V old = true -> S old = true -> M old = a ->
  map_inv n k (fupd V p true) (fupd (fupd S p true) old false) (fupd M p a).
Proof.
  intros [Ht Hu Hv] Ha Hp Vp Hold Vo So Mo. assert (p <> old) by congruence.
  assert (S p = false) as Sp by (apply not_true_is_false; intros Sp%Hv; [destruct Sp; congruence|done]).
  split; unfold fupd.
  - intros b Hb. destruct (decide (b = a)) as [->|Hne].
    + exists p. repeat case_decide; done.
    + destruct (Ht b Hb) as (q & Hq & Vq & Sq & Mq). exists q. repeat case_decide; try done; congruence.
  - intros q1 q2 H1 H2. repeat case_decide; intros S1 S2 E; subst; try done.
    + destruct (Hu old q2); try done. 
    + destruct (Hu q1 old); try done.
    + by apply Hu.
  - intros q Hq. repeat case_decide; intros Sq; try done. by apply Hv.
Qed.

Lemma rat_wf_old r a : rat_wf r -> in_arch r a -> exists old,
  rat_maps r a old /\ forall i, in_phy r i ->
    rat_valid r i && (rat_visible r i && (rat_owner r i =? a)) = true <-> i = old.
Proof.
  intros WF Ha. destruct (wf_total r WF a Ha) as [old Hm]. exists old. split; [done|].
  intros i Hi. rewrite !andb_true_iff, Z.eqb_eq. split.
  - intros (? & ? & ?). by apply (wf_unique r WF a).
  - intros ->. split_and!; apply Hm.
Qed.

Lemma rat_set_map_spec r a p :
  rat_wf r -> in_arch r a -> in_phy r p -> rat_valid r p = false ->
  exists old r', rat_set_map r a p = Some (Some old, r') /\ rat_wf r' /\
    rat_maps r a old /\ rat_maps r' a p /\
    (forall b q, b <> a -> rat_maps r' b q <-> rat_maps r b q) /\
    (forall q, in_phy r q -> rat_valid r' q = true <-> rat_valid r q = true \/ q = p) /\
    rat_visible r' old = false.
Proof.
  intros WF Ha Hp Hv. destruct (rat_wf_old r a WF Ha) as (old & Hm & Hu).
  assert (in_phy r old) as Hold by apply Hm.
  pose proof (rat_state_self r (wf_shape r WF)) as RS.
  destruct (rat_set_map_state r _ _ _ _ a p old RS (wf_running r WF) Ha Hp Hold Hv Hu) as (r' & E & F & RS').
  pose proof (in_phy_frame r r') as Hphy.
  assert (old <> p) as Hne by (destruct Hm as (_ & ? & _); congruence).
  exists old, r'. split_and!; try done.
  - apply (rat_wf_inv _ _ _ _ _ RS'); [destruct F as (_ & _ & _ & -> & _); apply WF|].
    destruct F as (-> & -> & _). destruct Hm as (_ & ? & ? & ?).
    apply set_map_inv; try done. by apply (rat_wf_inv _ _ _ _ _ RS (wf_running r WF)).
  - apply (state_maps _ _ _ _ _ _ _ RS'). unfold fupd. rewrite Hphy by done. repeat case_decide; done.
  - intros b q Hb. rewrite (state_maps _ _ _ _ _ _ _ RS'), Hphy by done. unfold rat_maps, fupd.
    repeat case_decide; subst; split; intros (? & ? & ? & ?); try done; try congruence.
    destruct Hm as (_ & _ & _ & Ho). congruence.
  - intros q Hq. rewrite (rs_valid _ _ _ _ _ RS') by (by apply Hphy). unfold fupd. case_decide; intuition congruence.
  - rewrite (rs_visible _ _ _ _ _ RS') by (by apply Hphy). unfold fupd. by rewrite decide_True.
Qed.

Lemma rat_set_map_frame r a p old r' :
  rat_wf r -> in_arch r a -> in_phy r p -> rat_valid r p = false -> rat_set_map r a p = Some (old, r') -> rat_frame r r'.
Proof.
  intros WF Ha Hp Hv E. destruct (rat_wf_old r a WF Ha) as (o & Hm & Hu).
  destruct (rat_set_map_state r _ _ _ _ a p o (rat_state_self r (wf_shape r WF)) (wf_running r WF) Ha Hp
              ltac:(apply Hm) Hv Hu) as (r1 & E1 & F1 & _). rewrite E in E1. by simplify_eq.
Qed.

(** Allocating a free physical register [p] for [a] in a well-formed table
    succeeds and returns the previous mapping; afterwards [a] is mapped to
    [p] and every other register as before, the previous physical register
    stays allocated (to be restored or released later), and the table is
    well-formed again. *)
Theorem rat_set_map_correct r a p :
  rat_wf r -> in_arch r a -> in_phy r p -> rat_valid r p = false ->
  exists old r', rat_set_map r a p = Some (Some old, r') /\ rat_wf r' /\
    rat_maps r a old /\ rat_maps r' a p /\
    (forall b q, b <> a -> rat_maps r' b q <-> rat_maps r b q) /\
    (forall q, in_phy r q -> rat_valid r' q = true <-> rat_valid r q = true \/ q = p) /\
    rat_visible r' old = false.
Proof. apply rat_set_map_spec. Qed.

Lemma rat_set_map_correct_witness :
  exists r0 old r', rat_set_map r0 1 2 = Some (Some old, r') /\ rat_maps r0 1 old /\ rat_maps r' 1 2.
Proof.
  exists (mk_rat [] 4 3 [0; 1; 0; 2] [10] [10] [10] 1 false).
  destruct (rat_set_map_correct (mk_rat [] 4 3 [0; 1; 0; 2] [10] [10] [10] 1 false) 1 2)
    as (old & r' & H1 & _ & H2 & H3 & _).
  - assert (rat_shape (mk_rat [] 4 3 [0; 1; 0; 2] [10] [10] [10] 1 false)) as Hsh.
    { split_and!; try done; repeat constructor; done. }
    apply (rat_wf_inv _ _ _ _ _ (rat_state_self _ Hsh)); [done|]. split.
    + intros a Ha. exists (if a =? 1 then 1 else 3). cbn in Ha. assert (a = 1 \/ a = 2) as [-> | ->] by lia; done.
    + intros p q Hp Hq. cbn in Hp, Hq.
      assert (p = 0 \/ p = 1 \/ p = 2 \/ p = 3) as [-> | [-> | [-> | ->]]] by lia; intros Hs; vm_compute in Hs; try done;
      assert (q = 0 \/ q = 1 \/ q = 2 \/ q = 3) as [-> | [-> | [-> | ->]]] by lia; vm_compute; congruence.
    + intros p Hp. cbn in Hp.
      assert (p = 0 \/ p = 1 \/ p = 2 \/ p = 3) as [-> | [-> | [-> | ->]]] by lia; by vm_compute.
  - by split.
  - by split.
  - by vm_compute.
  - by exists old, r'.
Defined.

Lemma rat_restore_map_state r V S C M new old :
  rat_state r V S C M -> in_phy r new -> in_phy r old ->
  V new = true -> V old = true -> S new = true -> S old = false ->
  exists r', rat_restore_map r new old = Some r' /\ rat_frame r r' /\
    rat_state r' (fupd (fupd V new false) old true) (fupd (fupd S new false) old true) C (fupd M new 0).
Proof.
  intros RS Hn Ho V1 V2 S1 S2. unfold rat_restore_map. rewrite !rat_lt by done.
  cbn [assert mbind option_bind]. rewrite !(state_get_valid RS), !(state_get_visible RS), V1, V2, S1, S2 by done.
  cbn [assert mbind option_bind negb].
  rat_step (@state_set_table) new 0. rat_step (@state_set_valid) new false.
  rat_step (@state_set_visible) new false. rat_step (@state_set_valid) old true.
  rat_step (@state_set_visible) old true. by eexists.
Qed.

Lemma rat_release_map_state r V S C M p :
  rat_state r V S C M -> in_phy r p -> V p = true -> S p = false ->
  exists r', rat_release_map r p = Some r' /\ rat_frame r r' /\
    rat_state r' (fupd V p false) S C (fupd M p 0).
Proof.
  intros RS Hp Vp Sp. unfold rat_release_map. rewrite rat_lt by done. cbn [assert mbind option_bind].
  rewrite (state_get_valid RS), (state_get_visible RS), Vp, Sp by done. cbn [assert mbind option_bind negb].
  rat_step (@state_set_table) p 0. rat_step (@state_set_valid) p false. by eexists.
Qed.

Lemma rat_commit_map_state r V S C M p :
  rat_state r V S C M -> in_phy r p -> V p = true -> C p = false ->
  exists r', rat_commit_map r p = Some r' /\ rat_frame r r' /\ rat_state r' V S (fupd C p true) M.
Proof.
  intros RS Hp Vp Cp. unfold rat_commit_map. rewrite rat_lt by done. cbn [assert mbind option_bind].
  rewrite (state_get_valid RS), (state_get_commit RS), Vp, Cp by done. cbn [assert mbind option_bind negb].
  rat_step (@state_set_commit) p true. by eexists.
Qed.

Lemma rat_release_map_spec r p :
  rat_wf r -> in_phy r p -> rat_valid r p = true -> rat_visible r p = false ->
  exists r', rat_release_map r p = Some r' /\ rat_wf r' /\
    (forall a q, rat_maps r' a q <-> rat_maps r a q) /\
    (forall q, in_phy r q -> rat_valid r' q = rat_valid r q && negb (q =? p)).
Proof.
  intros WF Hp Vp Sp. pose proof (rat_state_self r (wf_shape r WF)) as RS.
  destruct (rat_release_map_state r _ _ _ _ p RS Hp Vp Sp) as (r' & E & F & RS').
  pose proof (in_phy_frame r r') as Hphy.
  assert (forall a q, rat_maps r' a q <-> rat_maps r a q) as Hmaps.
  { intros a q. rewrite (state_maps _ _ _ _ _ _ _ RS'), Hphy by done. unfold rat_maps, fupd.
    repeat case_decide; subst; split; intros (? & ? & ? & ?); try done; congruence. }
  exists r'. split_and!; try done.
  - split; [apply RS'|destruct F as (_ & _ & _ & -> & _); apply WF|..].
    + intros a Ha. rewrite (in_arch_frame r) in Ha by done. destruct (wf_total r WF a Ha) as [q Hq].
      exists q. by apply Hmaps.
    + intros a q1 q2. rewrite !Hmaps. apply WF.
    + intros q Hq Sq. rewrite Hphy in Hq by done. assert (in_phy r' q) as Hq' by (by apply Hphy).
      rewrite (rs_visible _ _ _ _ _ RS') in Sq by done. destruct (wf_visible r WF q Hq Sq) as [Vq Aq].
      rewrite (in_arch_frame r) by done.
      rewrite (rs_valid _ _ _ _ _ RS'), (rs_owner _ _ _ _ _ RS') by done. unfold fupd.
      case_decide; [congruence|done].
  - intros q Hq. rewrite (rs_valid _ _ _ _ _ RS') by (by apply Hphy). unfold fupd.
    case_decide; bcase; try done; by rewrite ?andb_true_r, ?andb_false_r.
Qed.

(** Releasing a superseded physical register (allocated, no longer
    visible) succeeds, frees exactly that register, and changes no mapping. *)
Theorem rat_release_map_correct r p :
  rat_wf r -> in_phy r p -> rat_valid r p = true -> rat_visible r p = false ->
  exists r', rat_release_map r p = Some r' /\ rat_wf r' /\
    (forall a q, rat_maps r' a q <-> rat_maps r a q) /\
    (forall q, in_phy r q -> rat_valid r' q = rat_valid r q && negb (q =? p)).
Proof. apply rat_release_map_spec. Qed.

(** ** Undoing allocations *)

Lemma rat_restore_undoes r a p old r1 r1' :
  rat_wf r -> in_arch r a -> in_phy r p -> rat_set_map r a p = Some (Some old, r1) ->
  rat_valid r p = false -> rat_equiv r1' r1 -> rat_shape r1' ->
  exists r2, rat_restore_map r1' p old = Some r2 /\ rat_equiv r2 r /\ rat_shape r2.
Proof.
  intros WF Ha Hp E Hv Heq Hsh. destruct (rat_wf_old r a WF Ha) as (old' & Hm & Hu).
  pose proof (rat_state_self r (wf_shape r WF)) as RS. assert (in_phy r old') as Hold by apply Hm.
  destruct (rat_set_map_state r _ _ _ _ a p old' RS (wf_running r WF) Ha Hp Hold Hv Hu) as (r1o & E1 & F1 & RS1).
  rewrite E in E1. simplify_eq. rename old' into old.
  assert (old <> p) as Hne by (destruct Hm as (_ & ? & _); congruence).
  assert (forall i, in_phy r1' i <-> in_phy r i) as Hphy.
  { intros i. rewrite Heq. by apply in_phy_frame. }
  assert (forall i, in_phy r i -> rat_valid r1' i = fupd (rat_valid r) p true i /\
     rat_visible r1' i = fupd (fupd (rat_visible r) p true) old false i /\
     (rat_valid r1' i = true -> rat_owner r1' i = fupd (rat_owner r) p a i)) as Hst.
  { intros i Hi. assert (in_phy r1' i) as Hi' by (by apply Hphy).
    assert (in_phy r1o i) as Hi1 by (by rewrite <- Heq).
    rewrite (eqv_valid _ _ Heq), (eqv_visible _ _ Heq), (rs_valid _ _ _ _ _ RS1), (rs_visible _ _ _ _ _ RS1) by done.
    split_and!; try done. intros Hvi. rewrite (eqv_owner _ _ Heq); [by apply RS1|done|].
    by rewrite (eqv_valid _ _ Heq), (rs_valid _ _ _ _ _ RS1). }
  destruct (Hst p Hp) as (Vp & Sp & _), (Hst old Hold) as (Vo & So & _). unfold fupd in Vp, Sp, Vo, So.
  destruct Hm as (_ & Vold & Sold & Mold).
  destruct (rat_restore_map_state r1' _ _ _ _ p old (rat_state_self r1' Hsh)) as (r2 & E2 & F2 & RS2);
    [by apply Hphy|by apply Hphy|..].
  1-4: rewrite ?Vp, ?Sp, ?Vo, ?So; repeat case_decide; congruence.
  assert (rat_visible r p = false) as Sp0.
  { apply not_true_is_false. intros Hs. destruct (wf_visible r WF p Hp Hs). congruence. }
  assert (forall i, in_phy r2 i <-> in_phy r i) as Hphy2 by (intros i; by rewrite (in_phy_frame r1') by done).
  exists r2. split_and!; [done| |apply RS2].
  destruct F2 as (P1 & P2 & _ & P3 & _), F1 as (Q1 & Q2 & _ & Q3 & _).
  split; [rewrite P1, (eqv_phy _ _ Heq); done|rewrite P2, (eqv_arch _ _ Heq); done
         |rewrite P3, (eqv_init _ _ Heq); done|..]; intros i Hi; pose proof Hi as Hi2; rewrite Hphy2 in Hi;
    destruct (Hst i Hi) as (Vi & Si & Mi).
  - rewrite (rs_valid _ _ _ _ _ RS2) by done. unfold fupd in *. rewrite Vi. repeat case_decide; congruence.
  - rewrite (rs_visible _ _ _ _ _ RS2) by done. unfold fupd in *. rewrite Si. repeat case_decide; congruence.
  - rewrite (rs_valid _ _ _ _ _ RS2), (rs_owner _ _ _ _ _ RS2) by done. unfold fupd in *.
    intros Hval. assert (i <> p) as Hip by (intros ->; repeat case_decide; congruence).
    rewrite decide_False by done. rewrite Mi; [by rewrite decide_False|]. by rewrite Vi, decide_False in * by done;
      repeat case_decide; congruence.
Qed.

(** A sequence of renames [(arch, phy)]; the log holds the pairs (new, old)
    of the physical registers, newest first: what the reorder buffer holds
    when it is read from its tail. *)
Fixpoint rat_rename_all (r : rat) (xs : list (Z * Z)) (log : list (Z * Z)) : option (list (Z * Z) * rat) :=
  match xs with
  | [] => Some (log, r)
  | (a, p) :: xs =>
      '(old, r) ← rat_set_map r a p;
      old ← old;
      rat_rename_all r xs ((p, old) :: log)
  end.

Fixpoint rat_undo_all (r : rat) (log : list (Z * Z)) : option rat :=
  match log with
  | [] => Some r
  | (new, old) :: log => r ← rat_restore_map r new old; rat_undo_all r log
  end.

(** Allocations of pairwise different free registers. *)
Definition renames_ok (r : rat) (xs : list (Z * Z)) : Prop :=
  NoDup xs.*2 /\ Forall (fun x => in_arch r x.1 /\ in_phy r x.2 /\ rat_valid r x.2 = false) xs.

Lemma renames_ok_step r a p xs old r1 :
  renames_ok r ((a, p) :: xs) -> rat_wf r -> rat_set_map r a p = Some (Some old, r1) ->
  rat_wf r1 /\ renames_ok r1 xs.
Proof.
  intros [Hnd Hall] WF E. apply list.NoDup_cons in Hnd as [Hnin Hnd]. apply Forall_cons_iff in Hall as [(Ha & Hp & Hv) Hall].
  destruct (rat_set_map_spec r a p WF Ha Hp Hv) as (old' & r1' & E' & WF1 & _ & _ & _ & Hval & _).
  rewrite E in E'. simplify_eq. split; [done|]. split; [done|].
  assert (rat_frame r r1') as F by (by apply (rat_set_map_frame r a p (Some old'))).
  apply Forall_forall. intros [b q] Hin. apply Forall_forall with (x := (b, q)) in Hall; [|done]. cbn in *.
  destruct Hall as (Hb & Hq & Vq). rewrite (in_arch_frame r), (in_phy_frame r) by done. split_and!; try done.
  apply not_true_is_false. intros Hv1. apply Hval in Hv1 as [ | -> ]; [congruence| |done].
  destruct Hnin. apply list_elem_of_fmap. exists (b, p). split; [done|]. by apply list_elem_of_In.
Qed.

Lemma rat_undo_all_app r l1 l2 : rat_undo_all r (l1 ++ l2) = (r ← rat_undo_all r l1; rat_undo_all r l2).
Proof.
  revert r. induction l1 as [|[n o] l1 IH]; intros r; [done|]. cbn.
  destruct (rat_restore_map r n o); [|done]. cbn. apply IH.
Qed.

Lemma rat_rename_undo xs r log0 :
  rat_wf r -> renames_ok r xs ->
  exists l r1, rat_rename_all r xs log0 = Some (l ++ log0, r1) /\ rat_wf r1 /\
    forall r1', rat_equiv r1' r1 -> rat_shape r1' ->
      exists r2, rat_undo_all r1' l = Some r2 /\ rat_equiv r2 r /\ rat_shape r2.
Proof.
  revert r log0. induction xs as [|[a p] xs IH]; intros r log0 WF Hok.
  { exists [], r. split_and!; try done. intros r1' ? ?. by exists r1'. }
  pose proof Hok as [_ Hall]. apply Forall_cons_iff in Hall as [(Ha & Hp & Hv) _].
  destruct (rat_set_map_spec r a p WF Ha Hp Hv) as (old & r1 & E1 & _).
  destruct (renames_ok_step _ _ _ _ _ _ Hok WF E1) as [WF1 Hok1].
  destruct (IH r1 ((p, old) :: log0) WF1 Hok1) as (l & r2 & E2 & WF2 & Hundo).
  cbn [rat_rename_all]. rewrite E1. cbn [mbind option_bind]. rewrite E2.
  exists (l ++ [(p, old)]), r2. rewrite <- app_assoc. split_and!; try done.
  intros r2' Heq Hsh. destruct (Hundo r2' Heq Hsh) as (r1' & Eu & Heq1 & Hsh1).
  rewrite rat_undo_all_app, Eu. cbn [mbind option_bind rat_undo_all].
  destruct (rat_restore_undoes r a p old r1 r1' WF Ha Hp E1 Hv Heq1 Hsh1) as (r0 & -> & ? & ?).
  cbn. by exists r0.
Qed.

(** C6: rolling back.  Any sequence of renames to free physical registers
    succeeds; undoing it with [restore_map] in reverse order, as a flush does
    when it walks the reorder buffer from its tail, never trips an assertion
    and gives back the same table: the same registers allocated, the same
    mapping. *)
Theorem rat_rollback xs r :
  rat_wf r -> renames_ok r xs ->
  exists log r1 r2, rat_rename_all r xs [] = Some (log, r1) /\ rat_wf r1 /\
    rat_undo_all r1 log = Some r2 /\ rat_equiv r2 r /\ rat_wf r2.
Proof.
  intros WF Hok. destruct (rat_rename_undo xs r [] WF Hok) as (l & r1 & E & WF1 & Hundo).
  destruct (Hundo r1) as (r2 & Eu & Heq & Hsh); [done|apply WF1|].
  exists l, r1, r2. rewrite app_nil_r in E. split_and!; try done.
  by apply (rat_wf_equiv r); [symmetry| |].
Qed.

(** * Free registers *)

Lemma free_phy_id_loop_spec r num ids ret :
  rat_shape r -> (forall i, i ∈ ids -> in_phy r i) -> Z.of_nat (length ret) < Z.max num 1 ->
  free_phy_id_loop r num ids ret =
    Some (ret ++ take (Z.to_nat (Z.max num 1) - length ret)
                   (filter (fun i => rat_valid r i = false) ids)).
Proof.
  intros Hsh. pose proof (rat_state_self r Hsh) as RS. revert ret.
  induction ids as [|i ids IH]; intros ret Hids Hlen; cbn [free_phy_id_loop].
  { by rewrite filter_nil, take_nil, app_nil_r. }
  rewrite (state_get_valid RS) by (apply Hids; left). cbn [mbind option_bind].
  assert (forall j, j ∈ ids -> in_phy r j) by (intros j Hj; apply Hids; by right).
  destruct (rat_valid r i) eqn:Ev; cbn [negb].
  - rewrite IH by done. by rewrite filter_cons_False by congruence.
  - rewrite filter_cons_True by done. rewrite length_app. cbn [length].
    destruct (Z.leb_spec num (Z.of_nat (length ret + 1))).
    + replace (Z.to_nat (Z.max num 1) - length ret)%nat with 1%nat by lia. done.
    + rewrite IH by (rewrite ?length_app; simpl; (done || lia)). rewrite length_app. cbn [length].
      replace (Z.to_nat (Z.max num 1) - length ret)%nat with (S (Z.to_nat (Z.max num 1) - (length ret + 1))) by lia.
      cbn [take]. by rewrite <- app_assoc.
Qed.

(** [get_free_phy_id] returns the first [num] free physical registers (at
    least one slot is filled when one is free, even for [num = 0]): pairwise
    different, all free; it returns fewer than [num] exactly when there are
    no more.  A group of renames to them is therefore always admissible. *)
Theorem rat_get_free_phy_id_correct r num :
  rat_wf r -> 0 < num ->
  exists ret, rat_get_free_phy_id r num = Some ret /\ NoDup ret /\
    Forall (fun i => in_phy r i /\ rat_valid r i = false) ret /\
    Z.of_nat (length ret) =
      Z.min num (Z.of_nat (length (filter (fun i => rat_valid r i = false) (upto (phy_reg_num r))))).
Proof.
  intros WF Hnum. unfold rat_get_free_phy_id.
  rewrite free_phy_id_loop_spec; [|apply WF|by intros i Hi%elem_of_upto|simpl; lia].
  cbn [app length]. eexists. split; [reflexivity|]. set (free := filter _ _).
  assert (NoDup free) as Hnd by apply list.NoDup_filter, NoDup_upto. split_and!.
  - by eapply sublist_NoDup, sublist_take.
  - apply Forall_take. apply Forall_forall. intros i Hi%list_elem_of_In.
    apply list_elem_of_filter in Hi as [? Hi%elem_of_upto]. done.
  - rewrite length_take. lia.
Qed.

(** * Checkpoints *)

Definition checkpoint_shape (cp : checkpoint_t) : Prop :=
  Z.of_nat (length (rat_phy_map_table_valid cp)) = phy_reg_num_bitmap_size /\
  Z.of_nat (length (rat_phy_map_table_visible cp)) = phy_reg_num_bitmap_size /\
  Z.of_nat (length (rat_phy_map_table cp)) = PHY_REG_NUM.

Lemma rat_save_spec r cp :
  rat_shape r -> phy_reg_num r = PHY_REG_NUM -> checkpoint_shape cp ->
  exists cp', rat_save r cp = Some cp' /\ checkpoint_shape cp' /\
    rat_phy_map_table_valid cp' = phy_map_table_valid r /\
    rat_phy_map_table_visible cp' = phy_map_table_visible r /\
    rat_phy_map_table cp' = phy_map_table r.
Proof.
  intros (_ & Ht & [Hv _] & [Hs _] & _) Hn (C1 & C2 & C3). unfold rat_save, checkpoint_shape in *.
  rewrite Hn in *. change ((PHY_REG_NUM + 63) / 64) with phy_reg_num_bitmap_size in *.
  assert (Z.of_nat (length (phy_map_table r)) = PHY_REG_NUM) as Ht' by (rewrite Ht; done).
  assert (memcpy (rat_phy_map_table_valid cp) (phy_map_table_valid r) phy_reg_num_bitmap_size =
          Some (phy_map_table_valid r)) as -> by (rewrite <- Hv; apply memcpy_all; lia).
  assert (memcpy (rat_phy_map_table_visible cp) (phy_map_table_visible r) phy_reg_num_bitmap_size =
          Some (phy_map_table_visible r)) as -> by (rewrite <- Hs; apply memcpy_all; lia).
  assert (memcpy (rat_phy_map_table cp) (phy_map_table r) PHY_REG_NUM = Some (phy_map_table r)) as ->
    by (rewrite <- Ht'; apply memcpy_all; lia).
  cbn. eexists. split; [reflexivity|]. by split_and!.
Qed.

Lemma rat_restore_spec r cp :
  rat_shape r -> phy_reg_num r = PHY_REG_NUM -> checkpoint_shape cp ->
  rat_restore r cp = Some (r <| phy_map_table_valid := rat_phy_map_table_valid cp |>
                             <| phy_map_table_visible := rat_phy_map_table_visible cp |>).
Proof.
  intros (_ & _ & [Hv _] & [Hs _] & _) Hn (C1 & C2 & _). unfold rat_restore.
  rewrite Hn in *. change ((PHY_REG_NUM + 63) / 64) with phy_reg_num_bitmap_size in *.
  assert (memcpy (phy_map_table_valid r) (rat_phy_map_table_valid cp) phy_reg_num_bitmap_size =
          Some (rat_phy_map_table_valid cp)) as -> by (rewrite <- C1; apply memcpy_all; lia).
  assert (memcpy (phy_map_table_visible r) (rat_phy_map_table_visible cp) phy_reg_num_bitmap_size =
          Some (rat_phy_map_table_visible cp)) as -> by (rewrite <- C2; apply memcpy_all; lia).
  done.
Qed.

(** Renaming does not touch the owners of the registers allocated before. *)
Lemma rat_rename_owner xs r log0 log r1 :
  rat_wf r -> renames_ok r xs -> rat_rename_all r xs log0 = Some (log, r1) ->
  rat_frame r r1 /\ rat_shape r1 /\
  forall i, in_phy r i -> rat_valid r i = true -> rat_valid r1 i = true /\ rat_owner r1 i = rat_owner r i.
Proof.
  revert r log0. induction xs as [|[a p] xs IH]; intros r log0 WF Hok E.
  { cbn in E. simplify_eq. split_and!; try done. apply WF. }
  pose proof Hok as [_ Hall]. apply Forall_cons_iff in Hall as [(Ha & Hp & Hv) _].
  destruct (rat_wf_old r a WF Ha) as (old & Hm & Hu).
  destruct (rat_set_map_state r _ _ _ _ a p old (rat_state_self r (wf_shape r WF)) (wf_running r WF) Ha Hp
              ltac:(apply Hm) Hv Hu) as (r' & E1 & F1 & RS1).
  destruct (renames_ok_step _ _ _ _ _ _ Hok WF E1) as [WF1 Hok1].
  cbn in E. rewrite E1 in E. cbn in E. destruct (IH _ _ WF1 Hok1 E) as (F & Hsh & Hown).
  split_and!; [by eapply rat_frame_trans|done|]. intros i Hi Vi.
  assert (in_phy r' i) as Hi' by (by apply (in_phy_frame r)). cbn in *.
  destruct (Hown i Hi') as [? ->].
  - rewrite (rs_valid _ _ _ _ _ RS1) by done. unfold fupd. by case_decide.
  - split; [done|]. rewrite (rs_owner _ _ _ _ _ RS1) by done. unfold fupd. case_decide; congruence.
Qed.

(** A checkpoint taken with [save] undoes every rename made after it:
    [restore] gives back the mapping and the free registers of the moment of
    the [save], although it does not restore the table of owners. *)
Theorem rat_checkpoint_roundtrip r cp xs :
  rat_wf r -> phy_reg_num r = PHY_REG_NUM -> checkpoint_shape cp -> renames_ok r xs ->
  exists cp' log r1 r2, rat_save r cp = Some cp' /\ rat_rename_all r xs [] = Some (log, r1) /\
    rat_restore r1 cp' = Some r2 /\ rat_equiv r2 r /\ rat_wf r2.
Proof.
  intros WF Hn Hcp Hok. destruct (rat_save_spec r cp (wf_shape r WF) Hn Hcp) as (cp' & Es & Hcp' & Ev & Ss & _).
  destruct (rat_rename_undo xs r [] WF Hok) as (log & r1 & E & WF1 & _).
  destruct (rat_rename_owner _ _ _ _ _ WF Hok E) as (F & Hsh1 & Hown). rewrite app_nil_r in *.
  pose proof F as (P1 & P2 & P3 & P4 & P5).
  pose proof (rat_restore_spec r1 cp' Hsh1 ltac:(congruence) Hcp') as Er.
  eexists cp', log, r1, _. split_and!; [done..|exact Er| |]; rewrite Ev, Ss.
  - split; try done; unfold in_phy; cbn; rewrite P1. intros i Hi Vi. unfold rat_valid in Vi. cbn in Vi.
    by apply Hown.
  - apply (rat_wf_equiv r); [|..|done].
    + symmetry. split; try done; unfold in_phy; cbn; rewrite P1. intros i Hi Vi. by apply Hown.
    + destruct (wf_shape r WF) as (S1 & S2 & S3 & S4 & S5), Hsh1 as (T1 & T2 & T3 & T4 & T5).
      split_and!; cbn; try done; rewrite P1; done.
Qed.

(** * Checking well-formedness *)

(** The invariant as a test. *)
Definition rat_wf_test (r : rat) : bool :=
  let n := upto (phy_reg_num r) in
  forallb (fun a => (a =? 0) || existsb (fun p => rat_valid r p && rat_visible r p && (rat_owner r p =? a)) n)
    (upto (arch_reg_num r)) &&
  forallb (fun p => negb (rat_visible r p) ||
    (rat_valid r p && (0 <? rat_owner r p) && (rat_owner r p <? arch_reg_num r) &&
     forallb (fun q => negb (rat_visible r q) || negb (rat_owner r p =? rat_owner r q) || (p =? q)) n)) n.

Lemma rat_wf_test_sound r :
  rat_shape r -> init_rat r = false -> rat_wf_test r = true -> rat_wf r.
Proof.
  intros Hsh Hi Ht. apply (rat_wf_inv _ _ _ _ _ (rat_state_self r Hsh) Hi).
  unfold rat_wf_test in Ht. apply andb_true_iff in Ht as [H1 H2].
  rewrite forallb_forall in H1, H2. setoid_rewrite <- list_elem_of_In in H1. setoid_rewrite <- list_elem_of_In in H2.
  setoid_rewrite elem_of_upto in H1. setoid_rewrite elem_of_upto in H2. split.
  - intros a Ha. specialize (H1 a ltac:(lia)). apply orb_true_iff in H1 as [H1%Z.eqb_eq|H1]; [lia|].
    apply existsb_exists in H1 as (p & Hp%list_elem_of_In%elem_of_upto & Hb).
    rewrite !andb_true_iff, Z.eqb_eq in Hb. exists p. by destruct Hb as [[??]?].
  - intros p q Hp Hq Sp Sq E. specialize (H2 p Hp). rewrite Sp in H2. cbn in H2.
    apply andb_true_iff in H2 as [_ H2]. rewrite forallb_forall in H2.
    specialize (H2 q). rewrite <- list_elem_of_In, elem_of_upto in H2. specialize (H2 Hq).
    rewrite Sq, E, Z.eqb_refl in H2. by apply Z.eqb_eq in H2.
  - intros p Hp Sp. specialize (H2 p Hp). rewrite Sp in H2. cbn in H2. rewrite !andb_true_iff in H2.
    destruct H2 as [[[? ?%Z.ltb_lt] ?%Z.ltb_lt] _]. done.
Qed.

(** A table with 128 physical registers in which x1, x2, .. are mapped to the
    registers of the same number: the state after reset. *)
Definition rat_demo : rat :=
  mk_rat [] 128 32 (upto 32 ++ repeat 0 96) [2 ^ 32 - 2; 0] [2 ^ 32 - 2; 0] [2 ^ 32 - 2; 0] 2 false.

Lemma rat_demo_wf : rat_wf rat_demo.
Proof.
  apply rat_wf_test_sound; [|done|vm_compute; reflexivity].
  split_and!; try done; repeat constructor; vm_compute; congruence.
Qed.

Lemma rat_demo_maps : rat_maps rat_demo 5 5.
Proof. by vm_compute. Qed.

Definition rat_demo_cp : checkpoint_t := mk_checkpoint [0; 0] [0; 0] [0; 0] (repeat 0 128) 0 0.

(** x5 is renamed twice and x6 once. *)
Definition rat_demo_renames : list (Z * Z) := [(5, 40); (6, 0); (5, 41)].

Lemma rat_demo_renames_ok : renames_ok rat_demo rat_demo_renames.
Proof.
  split.
  - repeat (constructor; [by apply (bool_decide_unpack _)|]). constructor.
  - repeat constructor; vm_compute; congruence.
Qed.

Lemma rat_release_map_correct_witness :
  exists r1 r2, rat_set_map rat_demo 5 40 = Some (Some 5, r1) /\ rat_release_map r1 5 = Some r2.
Proof.
  destruct (rat_set_map_spec rat_demo 5 40 rat_demo_wf) as (old & r1 & E & WF1 & _); [done..|].
  assert (old = 5) as -> by (vm_compute in E; congruence).
  assert (in_phy r1 5 /\ rat_valid r1 5 = true /\ rat_visible r1 5 = false) as (H1 & H2 & H3).
  { vm_compute in E. injection E as <-. by vm_compute. }
  destruct (rat_release_map_correct r1 5 WF1 H1 H2 H3) as (r2 & E2 & _).
  by exists r1, r2.
Defined.

Lemma rat_rollback_witness :
  exists log r1 r2, rat_rename_all rat_demo rat_demo_renames [] = Some (log, r1) /\
    log = [(41, 40); (0, 6); (40, 5)] /\ rat_undo_all r1 log = Some r2 /\ rat_maps r2 5 5.
Proof.
  destruct (rat_rollback rat_demo_renames rat_demo rat_demo_wf rat_demo_renames_ok)
    as (log & r1 & r2 & E & _ & Eu & Heq & _).
  exists log, r1, r2. split_and!; [exact E| |exact Eu|].
  - clear Eu. vm_compute in E. congruence.
  - apply (rat_maps_proper _ _ Heq 5 5 eq_refl 5 5 eq_refl). exact rat_demo_maps.
Defined.

Lemma rat_get_free_phy_id_correct_witness :
  exists ret, rat_get_free_phy_id rat_demo 3 = Some ret /\ ret = [0; 32; 33] /\ NoDup ret.
Proof.
  destruct (rat_get_free_phy_id_correct rat_demo 3 rat_demo_wf) as (ret & E & Hnd & _); [lia|].
  exists ret. split_and!; [exact E| |exact Hnd]. vm_compute in E. congruence.
Defined.

Lemma rat_checkpoint_roundtrip_witness :
  exists cp' log r1 r2, rat_save rat_demo rat_demo_cp = Some cp' /\
    rat_rename_all rat_demo rat_demo_renames [] = Some (log, r1) /\ rat_restore r1 cp' = Some r2 /\
    rat_maps r2 5 5.
Proof.
  destruct (rat_checkpoint_roundtrip rat_demo rat_demo_cp rat_demo_renames rat_demo_wf)
    as (cp' & log & r1 & r2 & E1 & E2 & E3 & Heq & _).
  - done.
  - by split_and!.
  - exact rat_demo_renames_ok.
  - exists cp', log, r1, r2. split_and!; [exact E1|exact E2|exact E3|].
    apply (rat_maps_proper _ _ Heq 5 5 eq_refl 5 5 eq_refl). exact rat_demo_maps.
Defined.
