(* ===== verification/RatSync.v ===== *)
(** The deferred updates of the alias table, and the copy of the table that
    rename keeps in a checkpoint while it works through a group.

    During a cycle commit and rename only queue their updates
    ([rat_sync_request_q]); [rat_sync] applies them at the end.  [rat_tracks]
    says that a table at the end of the cycle serves rename as well as the one
    it has read: the same mapping, and at least the same free registers. *)

From Stdlib Require Import ZArith Lia.
From stdpp Require Import base numbers list option tactics.
From S2P Require Import Prelude Common Bitmap CheckpointBuffer Rat.

Local Open Scope Z_scope.

Definition with_queue (Q : list rat_sync_request) (r : rat) : rat := r <| rat_sync_request_q := Q |>.

(** * The queue is transparent to the updates *)

Definition queue_free (op : rat -> option rat) : Prop :=
  forall r Q, op (with_queue Q r) = with_queue Q <$> op r.

Lemma rat_set_valid_queue p v : queue_free (fun r => rat_set_valid r p v).
Proof.
  intros r Q. unfold rat_set_valid. cbn. destruct (assert _); [|done]. cbn. by destruct (bitmap_set _ _ _).
Qed.

Lemma rat_set_visible_queue p v : queue_free (fun r => rat_set_visible r p v).
Proof.
  intros r Q. unfold rat_set_visible. cbn. destruct (assert _); [|done]. cbn. by destruct (bitmap_set _ _ _).
Qed.

Lemma rat_set_commit_queue p v : queue_free (fun r => rat_set_commit r p v).
Proof.
  intros r Q. unfold rat_set_commit. cbn. destruct (assert _); [|done]. cbn. by destruct (bitmap_set _ _ _).
Qed.

Lemma rat_set_table_queue p a : queue_free (fun r => rat_set_table r p a).
Proof. intros r Q. unfold rat_set_table. cbn. by destruct (arr_set _ _ _). Qed.

Lemma queue_free_bind op1 op2 :
  queue_free op1 -> queue_free op2 -> queue_free (fun r => r ← op1 r; op2 r).
Proof. intros H1 H2 r Q. rewrite H1. destruct (op1 r) as [r1|]; [|done]. cbn. apply H2. Qed.

Lemma queue_free_guard {A} (x : rat -> option A) (op : A -> rat -> option rat) :
  (forall r Q, x (with_queue Q r) = x r) -> (forall a, queue_free (op a)) ->
  queue_free (fun r => a ← x r; op a r).
Proof. intros Hx H r Q. rewrite Hx. destruct (x r); [|done]. apply H. Qed.

Create HintDb rat_queue.
#[export] Hint Resolve rat_set_valid_queue rat_set_visible_queue rat_set_commit_queue rat_set_table_queue : rat_queue.

Ltac queue_free_step :=
  first [ solve [eauto with rat_queue]
        | apply queue_free_guard; [intros; reflexivity|intros ?]
        | apply queue_free_bind ].

Lemma rat_commit_map_queue p : queue_free (fun r => rat_commit_map r p).
Proof. unfold rat_commit_map. repeat queue_free_step. Qed.

Lemma rat_release_map_queue p : queue_free (fun r => rat_release_map r p).
Proof. unfold rat_release_map. repeat queue_free_step. Qed.

Lemma rat_restore_map_queue new old : queue_free (fun r => rat_restore_map r new old).
Proof. unfold rat_restore_map. repeat queue_free_step. Qed.

Lemma rat_restore_queue cp : queue_free (fun r => rat_restore r cp).
Proof.
  intros r Q. unfold rat_restore.
  change (phy_map_table_valid (with_queue Q r)) with (phy_map_table_valid r).
  change (phy_map_table_visible (with_queue Q r)) with (phy_map_table_visible r).
  destruct (memcpy (phy_map_table_valid r) _ _); [|done]. cbn [mbind option_bind].
  by destruct (memcpy (phy_map_table_visible r) _ _).
Qed.

(** [rat_set_map] returns the old mapping as well. *)
Lemma rat_set_map_queue a p r Q :
  rat_set_map (with_queue Q r) a p = prod_map id (with_queue Q) <$> rat_set_map r a p.
Proof.
  unfold rat_set_map.
  change (rat_get_phy_id (with_queue Q r) a) with (rat_get_phy_id r a).
  change (rat_get_valid (with_queue Q r) p) with (rat_get_valid r p). cbn [phy_reg_num arch_reg_num with_queue upd].
  destruct (assert (p <? _)); [|done]. cbn [mbind option_bind]. destruct (assert (_ && _)); [|done]. cbn [mbind option_bind].
  destruct (rat_get_valid r p) as [v|]; [|done]. cbn [mbind option_bind]. destruct (assert (negb v)); [|done].
  cbn [mbind option_bind]. destruct (rat_get_phy_id r a) as [old|]; [|done]. cbn [mbind option_bind].
  change (init_rat (with_queue Q r)) with (init_rat r).
  destruct (if negb (init_rat r) then _ else _) as [[]|]; [|done]. cbn [mbind option_bind].
  rewrite rat_set_table_queue. destruct (rat_set_table r p a) as [r1|]; [|done]. cbn [mbind option_bind fmap option_fmap option_map].
  rewrite rat_set_valid_queue. destruct (rat_set_valid r1 p true) as [r2|]; [|done]. cbn [mbind option_bind fmap option_fmap option_map].
  rewrite rat_set_visible_queue. destruct (rat_set_visible r2 p true) as [r3|]; [|done]. cbn [mbind option_bind fmap option_fmap option_map].
  rewrite rat_set_commit_queue. destruct (rat_set_commit r3 p false) as [r4|]; [|done]. cbn [mbind option_bind fmap option_fmap option_map].
  destruct old as [old|]; [|done]. rewrite rat_set_visible_queue. by destruct (rat_set_visible r4 old false).
Qed.

Lemma rat_sync_one_queue t : queue_free (fun r => rat_sync_one r t).
Proof.
  destruct t as [a p|p|p|new old|cp]; cbn [rat_sync_one].
  - intros r Q. rewrite rat_set_map_queue. by destruct (rat_set_map r a p) as [[old r']|].
  - apply rat_release_map_queue.
  - apply rat_commit_map_queue.
  - apply rat_restore_map_queue.
  - apply rat_restore_queue.
Qed.

(** The requests applied one after the other, the queue left alone. *)
Fixpoint rat_apply_all (r : rat) (reqs : list rat_sync_request) : option rat :=
  match reqs with
  | [] => Some r
  | t_req :: reqs => r ← rat_sync_one r t_req; rat_apply_all r reqs
  end.

Lemma rat_apply_all_queue reqs : queue_free (fun r => rat_apply_all r reqs).
Proof.
  induction reqs as [|t reqs IH]; [done|]. cbn. apply queue_free_bind; [apply rat_sync_one_queue|exact IH].
Qed.

Lemma rat_apply_all_app r l1 l2 : rat_apply_all r (l1 ++ l2) = (r ← rat_apply_all r l1; rat_apply_all r l2).
Proof.
  revert r. induction l1 as [|t l1 IH]; intros r; [done|]. cbn. destruct (rat_sync_one r t); [|done]. apply IH.
Qed.

Lemma rat_sync_apply r : rat_sync r = with_queue [] <$> rat_apply_all r (rat_sync_request_q r).
Proof.
  assert (forall reqs r, rat_sync_loop r reqs = (match reqs with [] => id | _ => with_queue [] end) <$> rat_apply_all r reqs)
    as H.
  { intros reqs. induction reqs as [|t reqs IH]; intros r0; [done|]. cbn [rat_sync_loop rat_apply_all].
    change (r0 <| rat_sync_request_q := reqs |>) with (with_queue reqs r0). rewrite rat_sync_one_queue.
    destruct (rat_sync_one r0 t) as [r1|]; [|done]. cbn [mbind option_bind fmap option_fmap option_map].
    rewrite IH, rat_apply_all_queue. destruct (rat_apply_all r1 reqs) as [r2|] eqn:E; [|done].
    destruct reqs; [|done]. cbn in E |- *. by simplify_eq. }
  unfold rat_sync. rewrite H. destruct (rat_sync_request_q r) eqn:Eq; [|done]. cbn. destruct r. cbn in Eq. by subst.
Qed.

(** * Tables that serve alike *)

Record rat_tracks (r r1 : rat) : Prop := {
  tr_wf : rat_wf r;
  tr_wf1 : rat_wf r1;
  tr_phy : phy_reg_num r1 = phy_reg_num r;
  tr_arch : arch_reg_num r1 = arch_reg_num r;
  tr_maps a p : rat_maps r1 a p <-> rat_maps r a p;
  tr_free p : in_phy r p -> rat_valid r p = false -> rat_valid r1 p = false
}.

Lemma rat_tracks_refl r : rat_wf r -> rat_tracks r r.
Proof. by intros; split. Qed.

Lemma rat_tracks_set_map r r1 a p :
  rat_tracks r r1 -> in_arch r a -> in_phy r p -> rat_valid r p = false ->
  exists old r' r1', rat_set_map r a p = Some (Some old, r') /\ rat_set_map r1 a p = Some (Some old, r1') /\
    rat_tracks r' r1'.
Proof.
  intros [W W1 Hphy Harch Hm Hf] Ha Hp Hv.
  assert (in_arch r1 a) as Ha1 by (unfold in_arch in *; congruence).
  assert (in_phy r1 p) as Hp1 by (unfold in_phy in *; congruence).
  destruct (rat_set_map_spec r a p W Ha Hp Hv) as (old & r' & E & W' & Mo & Mp & Mb & Vv & _).
  destruct (rat_set_map_spec r1 a p W1 Ha1 Hp1 (Hf p Hp Hv)) as (old1 & r1' & E1 & W1' & Mo1 & Mp1 & Mb1 & Vv1 & _).
  assert (old1 = old) as -> by (apply (wf_unique r W a); [by apply Hm|done]).
  pose proof (rat_set_map_frame _ _ _ _ _ W Ha Hp Hv E) as (F1 & F2 & _).
  pose proof (rat_set_map_frame _ _ _ _ _ W1 Ha1 Hp1 (Hf p Hp Hv) E1) as (G1 & G2 & _).
  exists old, r', r1'. split_and!; [done|done|]. split; [done|done|congruence|congruence| |].
  - intros b q. destruct (decide (b = a)) as [->|Hb]; [|by rewrite Mb1, Mb, Hm by done].
    split; intros Hq.
    + by rewrite <- (wf_unique r1' W1' a p q Mp1 Hq).
    + by rewrite <- (wf_unique r' W' a p q Mp Hq).
  - intros q Hq Vq. assert (in_phy r q) as Hq0 by (unfold in_phy in *; congruence).
    assert (in_phy r1 q) as Hq1 by (unfold in_phy in *; congruence).
    apply not_true_is_false. rewrite Vv1 by done. intros [V1| ->].
    + destruct (rat_valid r q) eqn:V0; [|by rewrite Hf in V1]. enough (rat_valid r' q = true) by congruence.
      apply Vv; auto.
    + enough (rat_valid r' p = true) by congruence. apply Vv; auto.
Qed.

(** * The table in a checkpoint *)

(** [cp] holds the table of [r]. *)
Definition cp_of (r : rat) (cp : checkpoint_t) : Prop :=
  rat_phy_map_table_valid cp = phy_map_table_valid r /\ rat_phy_map_table_visible cp = phy_map_table_visible r /\
  rat_phy_map_table cp = phy_map_table r.

(** [rat_cp_set_map] does to the checkpoint what [rat_set_map] does to the
    table; [r0] only lends its dimensions. *)
Lemma cp_set_map_of r0 r cp a p old r' :
  cp_of r cp -> phy_reg_num r0 = phy_reg_num r -> arch_reg_num r0 = arch_reg_num r -> init_rat r = false ->
  rat_set_map r a p = Some (old, r') -> exists cp', rat_cp_set_map r0 cp a p = Some cp' /\ cp_of r' cp'.
Proof.
  intros (Cv & Cs & Ct) Hn Hk Hi E. unfold rat_set_map in E. unfold rat_cp_set_map.
  assert (rat_cp_get_phy_id r0 cp a = rat_get_phy_id r a) as ->.
  { unfold rat_cp_get_phy_id, rat_get_phy_id, rat_cp_get_valid, rat_cp_get_visible, rat_get_valid, rat_get_visible.
    by rewrite Hn, Hk, Cv, Cs, Ct. }
  assert (rat_cp_get_valid r0 cp p = rat_get_valid r p) as ->
    by (unfold rat_cp_get_valid, rat_get_valid; by rewrite Hn, Cv).
  unfold rat_cp_set_valid, rat_cp_set_visible. rewrite Hn, Hk, Ct. rewrite Hi in E. cbn [negb] in E.
  apply bind_Some in E as ([] & -> & E). cbn [mbind option_bind] in *.
  apply bind_Some in E as ([] & -> & E). cbn [mbind option_bind] in *.
  apply bind_Some in E as (v & -> & E). cbn [mbind option_bind] in *.
  apply bind_Some in E as ([] & -> & E). cbn [mbind option_bind] in *.
  apply bind_Some in E as (m & -> & E). cbn [mbind option_bind] in *.
  apply bind_Some in E as ([] & _ & E).
  apply bind_Some in E as (r1 & E1 & E). unfold rat_set_table in E1. apply bind_Some in E1 as (t & -> & [= <-]).
  cbn [mbind option_bind] in *. apply bind_Some in E as (r2 & E2 & E). unfold rat_set_valid in E2.
  apply bind_Some in E2 as ([] & _ & E2). cbn in E2. apply bind_Some in E2 as (bv & Ev & [= <-]).
  cbn. rewrite Cv, Ev. cbn.
  apply bind_Some in E as (r3 & E3 & E). unfold rat_set_visible in E3.
  apply bind_Some in E3 as ([] & _ & E3). cbn in E3. apply bind_Some in E3 as (bs & Es & [= <-]).
  rewrite Cs, Es. cbn.
  apply bind_Some in E as (r4 & E4 & E). unfold rat_set_commit in E4.
  apply bind_Some in E4 as ([] & _ & E4). cbn in E4. apply bind_Some in E4 as (bc & _ & [= <-]).
  destruct m as [m|]; cbn in E; simplify_eq; [|by eexists].
  apply bind_Some in E as (r5 & E5 & [= <- <-]). unfold rat_set_visible in E5.
  apply bind_Some in E5 as ([] & Em & E5). cbn in Em, E5. apply bind_Some in E5 as (bs' & Es' & [= <-]).
  rewrite Em, Es'. cbn. by eexists.
Qed.
