(* ===== verification/Inflight.v ===== *)
(** The alias table and the instructions in flight.

    The reorder buffer remembers, for every instruction in flight that was
    given a register, that register and the one it replaced: the log [(new,
    old)], oldest first.  [in_flight rb r log] says that the table [r] is the
    one obtained by performing these allocations on the committed table [rb].
    Rename adds to the end of the log, retirement takes from its front
    (advancing the committed mapping), the walk of a flush takes from its
    end.  [speculates m r log] hides the committed table and keeps its mapping
    [m] from architectural to physical registers. *)

From Stdlib Require Import ZArith Lia.
From stdpp Require Import base numbers list option tactics.
From S2P Require Import Prelude Common Bitmap CheckpointBuffer Rat RatSync.

Local Open Scope Z_scope.

(** * Updates respect the equivalence of tables *)

Lemma rat_equiv_states r1 r2 V1 S1 C1 M1 V2 S2 C2 M2 :
  rat_state r1 V1 S1 C1 M1 -> rat_state r2 V2 S2 C2 M2 ->
  phy_reg_num r1 = phy_reg_num r2 -> arch_reg_num r1 = arch_reg_num r2 -> init_rat r1 = init_rat r2 ->
  (forall i, in_phy r1 i -> V1 i = V2 i /\ S1 i = S2 i /\ (V1 i = true -> M1 i = M2 i)) ->
  rat_equiv r1 r2.
Proof.
  intros R1 R2 Hn Hk Hi H. split; [done..| | |]; intros i Hi1;
    assert (in_phy r2 i) as Hi2 by (unfold in_phy in *; congruence); destruct (H i Hi1) as (Ev & Es & Em).
  - by rewrite (rs_valid _ _ _ _ _ R1), (rs_valid _ _ _ _ _ R2) by done.
  - by rewrite (rs_visible _ _ _ _ _ R1), (rs_visible _ _ _ _ _ R2) by done.
  - rewrite (rs_valid _ _ _ _ _ R1), (rs_owner _ _ _ _ _ R1), (rs_owner _ _ _ _ _ R2) by done. done.
Qed.

(** An equivalent table has the same state, up to the owners of free registers. *)
Lemma rat_equiv_inv r1 r2 i :
  rat_equiv r1 r2 -> in_phy r1 i ->
  in_phy r2 i /\ rat_valid r1 i = rat_valid r2 i /\ rat_visible r1 i = rat_visible r2 i /\
  (rat_valid r1 i = true -> rat_owner r1 i = rat_owner r2 i).
Proof. intros [H1 H2 H3 H4 H5 H6] Hi. split_and!; auto. unfold in_phy in *. congruence. Qed.

Lemma rat_set_map_equiv r1 r2 a p old r1' :
  rat_wf r1 -> rat_equiv r2 r1 -> rat_shape r2 -> in_arch r1 a -> in_phy r1 p -> rat_valid r1 p = false ->
  rat_set_map r1 a p = Some (Some old, r1') ->
  exists r2', rat_set_map r2 a p = Some (Some old, r2') /\ rat_equiv r2' r1' /\ rat_shape r2'.
Proof.
  intros W1 E Hsh Ha Hp Hv Hs. assert (rat_wf r2) as W2 by (by apply (rat_wf_equiv r1); [symmetry|..]).
  assert (in_arch r2 a) as Ha2 by (by rewrite E). assert (in_phy r2 p) as Hp2 by (by rewrite E).
  assert (rat_valid r2 p = false) as Hv2 by (by rewrite (eqv_valid _ _ E)).
  destruct (rat_wf_old r1 a W1 Ha) as (o1 & M1 & U1), (rat_wf_old r2 a W2 Ha2) as (o2 & M2 & U2).
  assert (o2 = o1) as -> by (apply (wf_unique r1 W1 a); [by rewrite <- E|done]).
  destruct (rat_set_map_state r1 _ _ _ _ a p o1 (rat_state_self _ (wf_shape _ W1)) (wf_running _ W1) Ha Hp
              ltac:(apply M1) Hv U1) as (s1 & E1 & (F1 & F2 & _ & F3 & _) & R1).
  destruct (rat_set_map_state r2 _ _ _ _ a p o1 (rat_state_self _ (wf_shape _ W2)) (wf_running _ W2) Ha2 Hp2
              ltac:(apply M2) Hv2 U2) as (s2 & E2 & (G1 & G2 & _ & G3 & _) & R2).
  rewrite Hs in E1. simplify_eq. exists s2. split_and!; [done| |apply R2].
  destruct E as [H1 H2 H3 H4 H5 H6].
  apply (rat_equiv_states _ _ _ _ _ _ _ _ _ _ R2 R1); [congruence..|].
  intros i Hi. unfold in_phy in Hi. rewrite G1 in Hi. unfold fupd.
  rewrite (H4 i Hi), (H5 i Hi). split_and!; [done..|]. intros Hvi. case_decide; [done|].
  apply H6; [done|]. by rewrite H4.
Qed.

Lemma rat_release_map_equiv r1 r2 p r1' :
  rat_wf r1 -> rat_equiv r2 r1 -> rat_shape r2 -> in_phy r1 p -> rat_valid r1 p = true -> rat_visible r1 p = false ->
  rat_release_map r1 p = Some r1' ->
  exists r2', rat_release_map r2 p = Some r2' /\ rat_equiv r2' r1' /\ rat_shape r2'.
Proof.
  intros W1 E Hsh Hp Hv Hs Hr. assert (in_phy r2 p) as Hp2 by (by rewrite E).
  destruct (rat_release_map_state r1 _ _ _ _ p (rat_state_self _ (wf_shape _ W1)) Hp Hv Hs)
    as (s1 & E1 & (F1 & F2 & _ & F3 & _) & R1).
  destruct (rat_release_map_state r2 _ _ _ _ p (rat_state_self _ Hsh) Hp2)
    as (s2 & E2 & (G1 & G2 & _ & G3 & _) & R2);
    [by rewrite (eqv_valid _ _ E)|by rewrite (eqv_visible _ _ E)|].
  rewrite Hr in E1. simplify_eq. exists s2. split_and!; [done| |apply R2].
  destruct E as [H1 H2 H3 H4 H5 H6].
  apply (rat_equiv_states _ _ _ _ _ _ _ _ _ _ R2 R1); [congruence..|].
  intros i Hi. unfold in_phy in Hi. rewrite G1 in Hi. unfold fupd.
  rewrite (H4 i Hi), (H5 i Hi). split_and!; [done..|]. intros Hvi. case_decide; [done|].
  apply H6; [done|]. by rewrite H4.
Qed.

(** * The log of the allocations *)

Inductive in_flight (rb : rat) : rat -> list (Z * Z) -> Prop :=
| in_flight_none r : rat_equiv r rb -> rat_shape r -> in_flight rb r []
| in_flight_more r1 r log a p old r1' :
    in_flight rb r1 log -> in_arch r1 a -> in_phy r1 p -> rat_valid r1 p = false ->
    rat_set_map r1 a p = Some (Some old, r1') -> rat_equiv r r1' -> rat_shape r ->
    in_flight rb r (log ++ [(p, old)]).

Lemma in_flight_equiv rb r r' log :
  in_flight rb r log -> rat_equiv r' r -> rat_shape r' -> in_flight rb r' log.
Proof.
  intros [r0 E Hsh|] E' Hsh'.
  - apply in_flight_none; [by transitivity r0|done].
  - eapply in_flight_more; [done..| |done]. by etransitivity.
Qed.

Lemma in_flight_nil rb r : in_flight rb r [] -> rat_equiv r rb.
Proof. intros H. remember [] as l eqn:El. destruct H as [|r1 r log]; [done|by destruct log]. Qed.

Lemma in_flight_wf rb r log : rat_wf rb -> in_flight rb r log -> rat_wf r.
Proof.
  intros W. induction 1 as [r E Hsh|r1 r log a p old r1' H IH Ha Hp Hv Hs E Hsh].
  - by apply (rat_wf_equiv rb); [symmetry|..].
  - destruct (rat_set_map_spec r1 a p IH Ha Hp Hv) as (o & r2 & Hs2 & W2 & _). rewrite Hs in Hs2. simplify_eq.
    by apply (rat_wf_equiv r2); [symmetry|..].
Qed.

Lemma in_flight_dims rb r log :
  rat_wf rb -> in_flight rb r log -> phy_reg_num r = phy_reg_num rb /\ arch_reg_num r = arch_reg_num rb.
Proof.
  intros W. induction 1 as [r E Hsh|r1 r log a p old r1' H IH Ha Hp Hv Hs E Hsh].
  - split; apply E.
  - destruct (rat_set_map_frame _ _ _ _ _ (in_flight_wf _ _ _ W H) Ha Hp Hv Hs) as (F1 & F2 & _).
    destruct IH as [I1 I2]. rewrite (eqv_phy _ _ E), (eqv_arch _ _ E). split; congruence.
Qed.

(** The registers allocated, the log's registers, and their owners. *)
Lemma in_flight_valid rb r log i :
  rat_wf rb -> in_flight rb r log -> in_phy rb i ->
  (rat_valid r i = true <-> rat_valid rb i = true \/ i ∈ log.*1) /\
  (rat_valid rb i = true -> rat_owner r i = rat_owner rb i).
Proof.
  intros W H Hi. induction H as [r E Hsh|r1 r log a p old r1' H IH Ha Hp Hv Hs E Hsh].
  - assert (in_phy r i) as Hi' by (by rewrite E).
    destruct (rat_equiv_inv _ _ _ E Hi') as (_ & -> & _ & Ho). split; [|by intros; apply Ho].
    split; [by left|]. intros [?|[]%elem_of_nil]. done.
  - pose proof (in_flight_wf _ _ _ W H) as W1. destruct (in_flight_dims _ _ _ W H) as [D1 D2].
    assert (in_phy r1 i) as Hi1 by (unfold in_phy in *; congruence).
    destruct (rat_wf_old r1 a W1 Ha) as (o & Mo & Uo).
    destruct (rat_set_map_state r1 _ _ _ _ a p o (rat_state_self _ (wf_shape _ W1)) (wf_running _ W1) Ha Hp
                ltac:(apply Mo) Hv Uo) as (s & Es & F & R). rewrite Hs in Es. simplify_eq.
    assert (in_phy r i) as Hir by (rewrite E; by apply (in_phy_frame r1)).
    destruct (rat_equiv_inv _ _ _ E Hir) as (His & -> & _ & Ho). destruct IH as [IHv IHo].
    rewrite fmap_app, elem_of_app. cbn [fmap list_fmap fst]. rewrite list_elem_of_singleton.
    rewrite (rs_valid _ _ _ _ _ R) in * by done. rewrite (rs_owner _ _ _ _ _ R) in Ho by done. unfold fupd in *.
    case_decide as Eip.
    + subst i. split; [tauto|]. intros Hb. exfalso. enough (rat_valid r1 p = true) by congruence. apply IHv. by left.
    + split; [rewrite IHv; tauto|]. intros Hb. rewrite Ho; [by apply IHo|]. apply IHv. by left.
Qed.

Lemma in_flight_fresh rb r log :
  rat_wf rb -> in_flight rb r log ->
  NoDup log.*1 /\ Forall (fun p => in_phy rb p /\ rat_valid rb p = false) log.*1.
Proof.
  intros W. induction 1 as [r E Hsh|r1 r log a p old r1' H [IHn IHf] Ha Hp Hv Hs E Hsh]; [by split; constructor|].
  destruct (in_flight_dims _ _ _ W H) as [D1 D2]. assert (in_phy rb p) as Hpb by (unfold in_phy in *; congruence).
  destruct (in_flight_valid _ _ _ p W H Hpb) as [Hval _]. rewrite Hv in Hval. rewrite fmap_app. cbn. split.
  - apply list.NoDup_app. split_and!; [done| |apply NoDup_singleton].
    intros q Hq ->%list_elem_of_singleton. enough (false = true) by done. apply Hval. by right.
  - apply Forall_app. split; [done|]. constructor; [|constructor]. split; [done|].
    apply not_true_is_false. intros Hb. enough (false = true) by done. apply Hval. by left.
Qed.

(** Commit bits change by [commit_map] and [set_map] only. *)
Ltac same_commit H :=
  unfold rat_set_table, rat_set_valid, rat_set_visible in H;
  repeat match type of H with
         | mbind _ _ = Some _ => let x := fresh in let E := fresh in apply bind_Some in H as (x & E & H)
         | _ => progress simplify_eq
         end.

Lemma rat_set_valid_commit r p v r' :
  rat_set_valid r p v = Some r' -> phy_map_table_commit r' = phy_map_table_commit r.
Proof. intros E. same_commit E. by simplify_eq. Qed.

Lemma rat_set_visible_commit r p v r' :
  rat_set_visible r p v = Some r' -> phy_map_table_commit r' = phy_map_table_commit r.
Proof. intros E. same_commit E. by simplify_eq. Qed.

Lemma rat_set_table_commit r p a r' :
  rat_set_table r p a = Some r' -> phy_map_table_commit r' = phy_map_table_commit r.
Proof. intros E. same_commit E. by simplify_eq. Qed.

Lemma rat_restore_map_commit r new old r' :
  rat_restore_map r new old = Some r' -> phy_map_table_commit r' = phy_map_table_commit r.
Proof.
  unfold rat_restore_map. intros E. do 10 apply bind_Some in E as (? & _ & E).
  apply bind_Some in E as (r1 & E1 & E). apply bind_Some in E as (r2 & E2 & E).
  apply bind_Some in E as (r3 & E3 & E). apply bind_Some in E as (r4 & E4 & E).
  rewrite (rat_set_visible_commit _ _ _ _ E), (rat_set_valid_commit _ _ _ _ E4), (rat_set_visible_commit _ _ _ _ E3),
    (rat_set_valid_commit _ _ _ _ E2). by apply rat_set_table_commit in E1.
Qed.

Lemma rat_release_map_commit r p r' :
  rat_release_map r p = Some r' -> phy_map_table_commit r' = phy_map_table_commit r.
Proof.
  unfold rat_release_map. intros E. do 5 apply bind_Some in E as (? & _ & E).
  apply bind_Some in E as (r1 & E1 & E).
  rewrite (rat_set_valid_commit _ _ _ _ E). by apply rat_set_table_commit in E1.
Qed.

(** * The three moves *)

(** The walk of a flush. *)
Lemma in_flight_undo rb r log p old :
  rat_wf rb -> in_flight rb r (log ++ [(p, old)]) ->
  exists r', rat_restore_map r p old = Some r' /\ in_flight rb r' log.
Proof.
  intros W H. inversion H as [|r1 r0 log0 a p0 old0 r1' H1 Ha Hp Hv Hs E Hsh Hl];
    [by destruct log|]. simplify_list_eq.
  destruct (rat_restore_undoes r1 a p old r1' r (in_flight_wf _ _ _ W H1) Ha Hp Hs Hv E Hsh) as (r2 & E2 & Eq2 & Hsh2).
  exists r2. split; [done|by apply (in_flight_equiv _ r1)].
Qed.

(** Rename. *)
Lemma in_flight_rename rb r log a p :
  rat_wf rb -> in_flight rb r log -> in_arch r a -> in_phy r p -> rat_valid r p = false ->
  exists old r', rat_set_map r a p = Some (Some old, r') /\ rat_maps r a old /\ in_flight rb r' (log ++ [(p, old)]).
Proof.
  intros W H Ha Hp Hv. destruct (rat_set_map_spec r a p (in_flight_wf _ _ _ W H) Ha Hp Hv) as (old & r' & E & W' & Hm & _).
  exists old, r'. split_and!; [done|done|]. by eapply in_flight_more; [..|apply W'].
Qed.

(** Retirement, in two steps: the oldest allocation becomes part of the
    committed table, and the register it replaced is released. *)
Lemma in_flight_first rb r p old log :
  rat_wf rb -> in_flight rb r ((p, old) :: log) ->
  exists a rb1, in_arch rb a /\ in_phy rb p /\ rat_valid rb p = false /\
    rat_set_map rb a p = Some (Some old, rb1) /\ in_flight rb1 r log.
Proof.
  intros W H. remember ((p, old) :: log) as l eqn:El. revert p old log El.
  induction H as [r E Hsh|r1 r l a q o r1' H IH Ha Hp Hv Hs E Hsh]; intros p old log El; [done|].
  destruct l as [|[p' old'] l]; cbn in El; simplify_eq.
  - pose proof (in_flight_nil _ _ H) as E0.
    assert (in_arch rb a) by (by rewrite <- E0). assert (in_phy rb p) by (by rewrite <- E0).
    assert (rat_valid rb p = false) as Hvb by (by rewrite <- (eqv_valid _ _ E0)).
    destruct (rat_set_map_equiv r1 rb a p old r1') as (rb1 & Eb & Eq & Hshb);
      [by apply (in_flight_wf rb _ [])|by symmetry|apply W|done..|].
    exists a, rb1. split_and!; try done. apply in_flight_none; [|done]. rewrite E. by symmetry.
  - destruct (IH _ _ _ eq_refl) as (b & rb1 & Hb & Hpb & Hvb & Eb & H1). exists b, rb1. split_and!; try done.
    by eapply in_flight_more.
Qed.

(** Releasing a superseded register commutes with a later allocation. *)
Lemma rat_release_set_map r a p old r1 o rr :
  rat_wf r -> in_arch r a -> in_phy r p -> rat_valid r p = false -> rat_set_map r a p = Some (Some old, r1) ->
  in_phy r o -> rat_valid r o = true -> rat_visible r o = false -> rat_release_map r o = Some rr ->
  exists r1r rr1, rat_release_map r1 o = Some r1r /\ rat_set_map rr a p = Some (Some old, rr1) /\
    rat_equiv r1r rr1 /\ rat_shape r1r /\ rat_visible r1 o = false.
Proof.
  intros W Ha Hp Hv Hs Ho Vo So Hr. pose proof (rat_state_self r (wf_shape r W)) as RS.
  assert (p <> o) as Hpo by congruence.
  destruct (rat_wf_old r a W Ha) as (old' & Mo & Uo).
  destruct (rat_set_map_state r _ _ _ _ a p old' RS (wf_running r W) Ha Hp ltac:(apply Mo) Hv Uo)
    as (r1' & Es & F1 & R1). rewrite Hs in Es. simplify_eq. rename old' into old, r1' into r1.
  destruct (rat_release_map_state r _ _ _ _ o RS Ho Vo So) as (rr' & Er & Fr & Rr). rewrite Hr in Er. simplify_eq.
  rename rr' into rr. assert (old <> o) as Hoo by (destruct Mo as (_ & _ & ? & _); congruence).
  assert (in_phy r1 o) as Ho1 by (by apply (in_phy_frame r)).
  destruct (rat_release_map_state r1 _ _ _ _ o R1) as (r1r & E1r & F1r & R1r); [done|..].
  1-2: unfold fupd; repeat case_decide; congruence.
  destruct (rat_set_map_state rr _ _ _ _ a p old Rr) as (rr1 & Er1 & Fr1 & Rr1).
  - destruct Fr as (_ & _ & _ & -> & _). apply W.
  - by apply (in_arch_frame r).
  - by apply (in_phy_frame r).
  - apply (in_phy_frame r); [done|]. apply Mo.
  - unfold fupd. by case_decide.
  - intros i Hi. apply (in_phy_frame r) in Hi; [|done]. rewrite <- (Uo i Hi). unfold fupd.
    repeat case_decide; subst; rewrite ?So, ?andb_false_r; done.
  - exists r1r, rr1. split_and!; [done|done| |apply R1r|].
    + destruct F1 as (? & ? & _ & ? & _), Fr as (? & ? & _ & ? & _), F1r as (? & ? & _ & ? & _), Fr1 as (? & ? & _ & ? & _).
      apply (rat_equiv_states _ _ _ _ _ _ _ _ _ _ R1r Rr1); [congruence..|].
      intros i Hi. unfold fupd. repeat case_decide; subst; done.
    + rewrite (rs_visible _ _ _ _ _ R1) by done. unfold fupd. repeat case_decide; congruence.
Qed.

Lemma rat_release_map_frame r p r' :
  rat_wf r -> in_phy r p -> rat_valid r p = true -> rat_visible r p = false -> rat_release_map r p = Some r' ->
  rat_frame r r'.
Proof.
  intros W Hp Vp Sp E.
  destruct (rat_release_map_state r _ _ _ _ p (rat_state_self _ (wf_shape _ W)) Hp Vp Sp) as (r2 & E2 & F & _).
  rewrite E in E2. by simplify_eq.
Qed.

Lemma in_flight_release rb r log o rb' :
  rat_wf rb -> in_flight rb r log -> in_phy rb o -> rat_valid rb o = true -> rat_visible rb o = false ->
  rat_release_map rb o = Some rb' ->
  exists r', rat_release_map r o = Some r' /\ in_flight rb' r' log /\ rat_visible r o = false.
Proof.
  intros W H Ho Vo So Hr. destruct (rat_release_map_spec rb o W Ho Vo So) as (rbx & Ex & W' & _).
  rewrite Hr in Ex. simplify_eq. rename rbx into rb'.
  induction H as [r E Hsh|r1 r log a p old r1' H IH Ha Hp Hv Hs E Hsh].
  - destruct (rat_release_map_equiv rb r o rb') as (r' & Er & Eq & Hsh'); [done..|].
    exists r'. split_and!; [done|by apply in_flight_none|]. rewrite (eqv_visible _ _ E); [done|by rewrite E].
  - destruct IH as (r1r & Er1 & H' & S1). pose proof (in_flight_wf _ _ _ W H) as W1.
    destruct (in_flight_dims _ _ _ W H) as [D1 D2].
    assert (in_phy r1 o) as Ho1 by (unfold in_phy in *; congruence).
    assert (rat_valid r1 o = true) as V1 by (apply (in_flight_valid _ _ _ o W H Ho); by left).
    destruct (rat_release_set_map r1 a p old r1' o r1r) as (x & y & Ex & Ey & Exy & Hshx & Sx); [done..|].
    destruct (rat_set_map_spec r1 a p W1 Ha Hp Hv) as (o2 & r2 & Hs2 & W2 & _ & _ & _ & Vv & _).
    rewrite Hs in Hs2. simplify_eq. rename r2 into r1', o2 into old.
    pose proof (rat_set_map_frame _ _ _ _ _ W1 Ha Hp Hv Hs) as F.
    assert (in_phy r1' o) as Ho1' by (by apply (in_phy_frame r1)).
    assert (rat_valid r1' o = true) as V1' by (apply Vv; auto).
    destruct (rat_release_map_equiv r1' r o x) as (r' & Er & Eq & Hsh'); [done..|].
    exists r'. split_and!; [done| |].
    + eapply (in_flight_more rb' r1r); [done|..|apply Ey| |done].
      * by apply (in_arch_frame r1); [apply (rat_release_map_frame r1 o)|].
      * by apply (in_phy_frame r1); [apply (rat_release_map_frame r1 o)|].
      * destruct (rat_release_map_state r1 _ _ _ _ o (rat_state_self _ (wf_shape _ W1)) Ho1 V1 S1) as (z & Ez & Fz & Rz).
        rewrite Er1 in Ez. simplify_eq. rewrite (rs_valid _ _ _ _ _ Rz) by (by apply (in_phy_frame r1)).
        unfold fupd. by case_decide.
      * by transitivity x.
    + rewrite (eqv_visible _ _ E); [done|by rewrite E].
Qed.

(** * The committed mapping *)

(** The effect of retiring one allocation on the mapping, and of several. *)
Definition retire_one (m : Z -> Z) (e : Z * Z) : Z -> Z := fun a => if m a =? e.2 then e.1 else m a.
Definition retire_all (m : Z -> Z) (log : list (Z * Z)) : Z -> Z := fold_left retire_one log m.

(** A table in which nothing but the mapping is allocated. *)
Definition rat_tight (r : rat) : Prop := forall i, in_phy r i -> rat_valid r i = rat_visible r i.

Record speculates (m : Z -> Z) (r : rat) (log : list (Z * Z)) : Prop := {
  sp_base : exists rb, rat_wf rb /\ rat_tight rb /\ (forall a, in_arch rb a -> rat_maps rb a (m a)) /\ in_flight rb r log;
  sp_committed a : in_arch r a -> rat_committed r (m a) = true;
  sp_pending : Forall (fun e => rat_committed r e.1 = false) log
}.

Lemma speculates_wf m r log : speculates m r log -> rat_wf r.
Proof. intros [(rb & W & _ & _ & H) _ _]. by apply (in_flight_wf rb _ log). Qed.

(** Nothing in flight: the table is the committed mapping. *)
Lemma speculates_nil m r :
  speculates m r [] -> rat_wf r /\ rat_tight r /\ forall a, in_arch r a -> rat_maps r a (m a).
Proof.
  intros H. pose proof (speculates_wf _ _ _ H) as W. destruct H as [(rb & Wb & Tb & Mb & H) _ _].
  apply in_flight_nil in H as E. split_and!; [done| |].
  - intros i Hi. rewrite (eqv_valid _ _ E), (eqv_visible _ _ E) by done. apply Tb. by rewrite <- E.
  - intros a Ha. rewrite E. apply Mb. by rewrite <- E.
Qed.

(** The current mapping is the committed one with the whole log retired. *)
Lemma set_map_retire r a p old r' m :
  rat_wf r -> in_arch r a -> in_phy r p -> rat_valid r p = false -> rat_set_map r a p = Some (Some old, r') ->
  (forall b, in_arch r b -> rat_maps r b (m b)) ->
  forall b, in_arch r b -> rat_maps r' b (retire_one m (p, old) b).
Proof.
  intros W Ha Hp Hv Hs Hm b Hb.
  destruct (rat_set_map_spec r a p W Ha Hp Hv) as (old' & r1 & E & W' & Mo & Mp & Mb & _). rewrite Hs in E. simplify_eq.
  unfold retire_one. cbn [fst snd]. destruct (Z.eqb_spec (m b) old') as [Eb|Nb].
  - assert (b = a) as ->; [|done]. destruct (Hm b Hb) as (_ & _ & _ & <-), Mo as (_ & _ & _ & <-). by rewrite Eb.
  - apply Mb; [|by apply Hm]. intros ->. apply Nb. by apply (wf_unique r W a); [apply Hm|].
Qed.

Lemma in_flight_maps rb r log m :
  rat_wf rb -> in_flight rb r log -> (forall a, in_arch rb a -> rat_maps rb a (m a)) ->
  forall a, in_arch r a -> rat_maps r a (retire_all m log a).
Proof.
  intros W H Hm. induction H as [r E Hsh|r1 r log a p old r1' H IH Ha Hp Hv Hs E Hsh].
  - intros a Ha. rewrite E in *. by apply Hm.
  - intros b Hb. unfold retire_all. rewrite fold_left_app. cbn [fold_left]. rewrite E.
    pose proof (in_flight_wf _ _ _ W H) as W1.
    assert (in_arch r1 b) as Hb1.
    { rewrite E in Hb. apply (in_arch_frame r1 r1') in Hb; [done|]. by apply (rat_set_map_frame r1 a p (Some old)). }
    by apply (set_map_retire r1 a p old r1').
Qed.

Lemma speculates_maps m r log :
  speculates m r log -> forall a, in_arch r a -> rat_maps r a (retire_all m log a).
Proof. intros [(rb & W & _ & Hm & H) _ _]. by apply (in_flight_maps rb). Qed.

(** What is allocated: the committed mapping and the registers of the log. *)
Lemma speculates_valid m r log i :
  speculates m r log -> in_phy r i ->
  rat_valid r i = true <-> (exists a, in_arch r a /\ m a = i) \/ i ∈ log.*1.
Proof.
  intros [(rb & W & T & Hm & H) _ _] Hi. destruct (in_flight_dims _ _ _ W H) as [D1 D2].
  assert (in_phy rb i) as Hib by (unfold in_phy in *; congruence).
  destruct (in_flight_valid _ _ _ i W H Hib) as [-> _]. split; (intros [Hv|?]; [left|by right]).
  - rewrite T in Hv by done. destruct (wf_visible _ W i Hib Hv) as [Vi Ai]. exists (rat_owner rb i). split.
    + unfold in_arch in *. congruence.
    + by apply (wf_unique rb W (rat_owner rb i)); [apply Hm|].
  - destruct Hv as (a & Ha & <-). apply Hm. unfold in_arch in *. congruence.
Qed.

(** The log's registers are pairwise different and not committed mappings. *)
Lemma speculates_fresh m r log :
  speculates m r log -> NoDup log.*1 /\ Forall (fun p => in_phy r p /\ forall a, in_arch r a -> m a <> p) log.*1.
Proof.
  intros [(rb & W & T & Hm & H) _ _]. destruct (in_flight_dims _ _ _ W H) as [D1 D2].
  destruct (in_flight_fresh _ _ _ W H) as [Hnd Hall]. split; [done|].
  eapply Forall_impl; [|exact Hall]. intros p [Hp Hv]. split; [unfold in_phy in *; congruence|].
  intros a Ha <-. assert (in_arch rb a) as Hb by (unfold in_arch in *; congruence).
  destruct (Hm a Hb) as (_ & V & _). congruence.
Qed.

Lemma speculates_olds m r log : speculates m r log -> Forall (fun e => in_phy r e.2) log.
Proof.
  intros [(rb & W & _ & _ & H) _ _]. induction H as [r E Hsh|r1 r log a p old r1' H IH Ha Hp Hv Hs E Hsh]; [constructor|].
  pose proof (in_flight_wf _ _ _ W H) as W1. destruct (rat_set_map_spec r1 a p W1 Ha Hp Hv) as (o & x & Ex & _ & (Ho & _) & _).
  rewrite Hs in Ex. simplify_eq. pose proof (rat_set_map_frame _ _ _ _ _ W1 Ha Hp Hv Hs) as (F & _).
  assert (phy_reg_num r = phy_reg_num r1) as Hn by (rewrite (eqv_phy _ _ E); congruence).
  apply Forall_app. split; [|constructor; [unfold in_phy in *; by rewrite Hn|constructor]].
  eapply Forall_impl; [|exact IH]. intros e. unfold in_phy. by rewrite Hn.
Qed.

(** A table that differs in its queue and in garbage only. *)
Lemma speculates_equiv m r r' log :
  speculates m r log -> rat_equiv r' r -> rat_shape r' -> phy_map_table_commit r' = phy_map_table_commit r ->
  speculates m r' log.
Proof.
  intros [(rb & W & T & Hm & H) Hc Hp] E Hsh Ec. split.
  - exists rb. split_and!; try done. by apply (in_flight_equiv _ r).
  - intros a Ha. unfold rat_committed. rewrite Ec. apply Hc. by rewrite <- E.
  - eapply Forall_impl; [|exact Hp]. intros e. unfold rat_committed. by rewrite Ec.
Qed.

Lemma speculates_queue Q m r log : speculates m r log -> speculates m (with_queue Q r) log.
Proof.
  intros H. pose proof (speculates_wf _ _ _ H) as W. apply (speculates_equiv _ r); [done| |apply W|done].
  by split.
Qed.

Lemma speculates_undo m r log p old :
  speculates m r (log ++ [(p, old)]) ->
  exists r', rat_restore_map r p old = Some r' /\ speculates m r' log /\
    phy_reg_num r' = phy_reg_num r /\ arch_reg_num r' = arch_reg_num r.
Proof.
  intros [(rb & W & T & Hm & H) Hc Hp]. destruct (in_flight_undo _ _ _ _ _ W H) as (r' & E & H').
  destruct (in_flight_dims _ _ _ W H) as [D1 D2], (in_flight_dims _ _ _ W H') as [D1' D2'].
  pose proof (rat_restore_map_commit _ _ _ _ E) as Ec. exists r'. split_and!; [done| |congruence..]. split.
  - by exists rb.
  - intros a Ha. unfold rat_committed. rewrite Ec. apply Hc. unfold in_arch in *. congruence.
  - apply Forall_app in Hp as [Hp _]. eapply Forall_impl; [|exact Hp]. intros e. unfold rat_committed. by rewrite Ec.
Qed.

Lemma speculates_rename m r log a p :
  speculates m r log -> in_arch r a -> in_phy r p -> rat_valid r p = false ->
  exists old r', rat_set_map r a p = Some (Some old, r') /\ rat_maps r a old /\ speculates m r' (log ++ [(p, old)]).
Proof.
  intros HS Ha Hp Hv. pose proof (speculates_wf _ _ _ HS) as W. pose proof (speculates_valid _ _ _ p HS Hp) as Hval.
  destruct (speculates_fresh _ _ _ HS) as [_ Hfr]. destruct HS as [(rb & Wb & T & Hm & H) Hc Hpd].
  destruct (in_flight_rename _ _ _ a p Wb H Ha Hp Hv) as (old & r' & E & Mo & H').
  destruct (rat_wf_old r a W Ha) as (o2 & M2 & U2).
  destruct (rat_set_map_state r _ _ _ _ a p o2 (rat_state_self _ (wf_shape _ W)) (wf_running _ W) Ha Hp
              ltac:(apply M2) Hv U2) as (r2 & E2 & F & R). rewrite E in E2. simplify_eq. rename o2 into old, r2 into r'.
  destruct (in_flight_dims _ _ _ Wb H) as [D1 D2].
  exists old, r'. split_and!; try done. split.
  - by exists rb.
  - intros b Hb. apply (in_arch_frame r) in Hb; [|done]. assert (in_arch rb b) as Hbb by (unfold in_arch in *; congruence).
    assert (in_phy r (m b)) as Hmb by (destruct (Hm b Hbb) as (? & _); unfold in_phy in *; congruence).
    rewrite (rs_commit _ _ _ _ _ R) by (by apply (in_phy_frame r)). unfold fupd.
    case_decide as Ep; [|by apply Hc]. exfalso. enough (false = true) by done. rewrite <- Hv. apply Hval. left. by exists b.
  - apply Forall_app. split.
    + apply list.Forall_forall. intros e He. pose proof (proj1 (list.Forall_forall _ _) Hpd e He) as Hce. cbn in Hce.
      pose proof (list_elem_of_fmap_2 fst log e He) as He1.
      pose proof (proj1 (list.Forall_forall _ _) Hfr _ He1) as [Hpe _].
      rewrite (rs_commit _ _ _ _ _ R) by (by apply (in_phy_frame r)). unfold fupd. by case_decide.
    + repeat constructor. cbn [fst]. rewrite (rs_commit _ _ _ _ _ R) by (by apply (in_phy_frame r)). unfold fupd. by case_decide.
Qed.

Lemma rat_tracks_trans r1 r2 r3 : rat_tracks r1 r2 -> rat_tracks r2 r3 -> rat_tracks r1 r3.
Proof.
  intros [A1 A2 A3 A4 A5 A6] [B1 B2 B3 B4 B5 B6]. split; [done|done|congruence|congruence| |].
  - intros a p. by rewrite B5, A5.
  - intros p Hp Hv. apply B6; [unfold in_phy in *; congruence|]. by apply A6.
Qed.

(** The committed table after its next allocation has been retired. *)
Lemma tight_retire rb m a p old rb1 :
  rat_wf rb -> rat_tight rb -> (forall b, in_arch rb b -> rat_maps rb b (m b)) ->
  in_arch rb a -> in_phy rb p -> rat_valid rb p = false -> rat_set_map rb a p = Some (Some old, rb1) ->
  old = m a /\ rat_wf rb1 /\ in_phy rb1 old /\ rat_valid rb1 old = true /\ rat_visible rb1 old = false /\
  exists rb2, rat_release_map rb1 old = Some rb2 /\ rat_wf rb2 /\ rat_tight rb2 /\ rat_frame rb rb2 /\
    (forall b, in_arch rb2 b -> rat_maps rb2 b (retire_one m (p, old) b)).
Proof.
  intros W T Hm Ha Hp Hv Hs. destruct (rat_wf_old rb a W Ha) as (o & Mo & Uo).
  destruct (rat_set_map_state rb _ _ _ _ a p o (rat_state_self _ (wf_shape _ W)) (wf_running _ W) Ha Hp
              ltac:(apply Mo) Hv Uo) as (x & E & F & R). rewrite Hs in E. simplify_eq. rename o into old, x into rb1.
  destruct (rat_set_map_spec rb a p W Ha Hp Hv) as (o & x & E & W1 & _ & _ & _ & Vv & So). rewrite Hs in E. simplify_eq.
  rename o into old, x into rb1. assert (old = m a) as Eo by (apply (wf_unique rb W a); [done|by apply Hm]).
  destruct Mo as (Io & Vo & _ & _).
  assert (in_phy rb1 old) as I1 by (by apply (in_phy_frame rb)). assert (rat_valid rb1 old = true) as V1 by (apply Vv; auto).
  split_and!; try done. destruct (rat_release_map_spec rb1 old W1 I1 V1 So) as (rb2 & E2 & W2 & M2 & _).
  destruct (rat_release_map_state rb1 _ _ _ _ old R I1) as (x & E & F2 & R2).
  1-2: unfold fupd; repeat case_decide; congruence.
  rewrite E2 in E. injection E as <-. exists rb2. pose proof (rat_frame_trans _ _ _ F F2) as F3. split_and!; try done.
  - intros i Hi. rewrite (rs_valid _ _ _ _ _ R2), (rs_visible _ _ _ _ _ R2) by done. unfold fupd.
    apply (in_phy_frame rb) in Hi; [|done]. repeat case_decide; try done. by apply T.
  - intros b Hb. apply M2. apply (set_map_retire rb a p old rb1); try done. by apply (in_arch_frame rb rb2).
Qed.

(** Retirement of the oldest allocation: the two requests of commit. *)
Lemma speculates_retire m r p old log :
  speculates m r ((p, old) :: log) ->
  exists r1 r2, rat_release_map r old = Some r1 /\ rat_commit_map r1 p = Some r2 /\
    speculates (retire_one m (p, old)) r2 log /\ rat_tracks r r2 /\
    forall q, in_phy r q -> rat_valid r2 q = rat_valid r q && negb (q =? old).
Proof.
  intros HS. pose proof (speculates_wf _ _ _ HS) as W. destruct (speculates_fresh _ _ _ HS) as [Hnd Hfr].
  destruct HS as [(rb & Wb & T & Hm & H) Hc Hpd]. destruct (in_flight_dims _ _ _ Wb H) as [D1 D2].
  destruct (in_flight_first _ _ _ _ _ Wb H) as (a & rb1 & Ha & Hp & Hv & Hs & H1).
  destruct (tight_retire _ _ _ _ _ _ Wb T Hm Ha Hp Hv Hs) as (Eo & Wb1 & Io & Vo & So & rb2 & E2 & Wb2 & T2 & F2 & Hm2).
  destruct (in_flight_release _ _ _ _ _ Wb1 H1 Io Vo So E2) as (r1 & Er & H2 & Sr).
  destruct (in_flight_dims _ _ _ Wb1 H1) as [D3 D4], (in_flight_dims _ _ _ Wb2 H2) as [D5 D6].
  assert (in_phy r old) as Ir by (unfold in_phy in *; congruence).
  assert (rat_valid r old = true) as Vr by (apply (in_flight_valid _ _ _ old Wb1 H1 Io); by left).
  destruct (rat_release_map_spec r old W Ir Vr Sr) as (x & Ex & W1 & M1 & V1). rewrite Er in Ex. injection Ex as <-.
  pose proof (rat_release_map_frame _ _ _ W Ir Vr Sr Er) as F. pose proof (rat_release_map_commit _ _ _ Er) as Ec.
  apply list.Forall_cons in Hpd as [Cp Hpd]. cbn [fst] in Cp. cbn [fmap list_fmap fst] in Hnd, Hfr.
  apply list.NoDup_cons in Hnd as [Hnin Hnd]. apply list.Forall_cons in Hfr as [[Hpr Hpm] Hfr].
  assert (in_phy r1 p) as Hp1 by (by apply (in_phy_frame r)).
  assert (in_phy rb2 p) as Hp2 by (unfold in_phy in *; congruence).
  assert (rat_maps rb2 a p) as Mp.
  { specialize (Hm2 a ltac:(by apply (in_arch_frame rb))). unfold retire_one in Hm2. cbn [fst snd] in Hm2.
    by rewrite <- Eo, Z.eqb_refl in Hm2. }
  destruct (rat_commit_map_state r1 _ _ _ _ p (rat_state_self _ (wf_shape _ W1)) Hp1) as (r2 & E3 & F3 & R3).
  { apply (in_flight_valid _ _ _ p Wb2 H2 Hp2). left. apply Mp. }
  { unfold rat_committed. by rewrite Ec. }
  assert (rat_equiv r2 r1) as Eq.
  { destruct F3 as (? & ? & _ & ? & _).
    by apply (rat_equiv_states _ _ _ _ _ _ _ _ _ _ R3 (rat_state_self _ (wf_shape _ W1))). }
  assert (forall i, in_phy r i -> rat_committed r2 i = fupd (rat_committed r) p true i) as Cc.
  { intros i Hi. rewrite (rs_commit _ _ _ _ _ R3) by (by rewrite Eq, (in_phy_frame r) by done).
    unfold fupd, rat_committed. by rewrite Ec. }
  assert (forall q, in_phy r q -> rat_valid r2 q = rat_valid r1 q) as V2.
  { intros q Hq. apply (eqv_valid _ _ Eq). by rewrite Eq, (in_phy_frame r) by done. }
  exists r1, r2. split_and!; [done|done| | |intros q Hq; rewrite V2, V1; done].
  - split.
    + exists rb2. split_and!; try done. by apply (in_flight_equiv _ r1); [..|apply R3].
    + intros b Hb. assert (in_arch r b) as Hbr by (by rewrite Eq, (in_arch_frame r) in Hb by done).
      assert (in_arch rb b) as Hbb by (unfold in_arch in *; congruence).
      assert (in_phy r (m b)) as Imb by (destruct (Hm b Hbb) as (? & _); unfold in_phy in *; congruence).
      unfold retire_one. cbn [fst snd].
      destruct (Z.eqb_spec (m b) old); rewrite Cc by done; unfold fupd; case_decide; try done. by apply Hc.
    + apply list.Forall_forall. intros e He. pose proof (list_elem_of_fmap_2 fst log e He) as He1.
      destruct (proj1 (list.Forall_forall _ _) Hfr _ He1) as [Hpe _].
      rewrite Cc by done. unfold fupd. case_decide; [by subst|]. exact (proj1 (list.Forall_forall _ _) Hpd e He).
  - assert (rat_wf r2) as W2 by (apply (rat_wf_equiv r1); [by symmetry|apply R3|done]).
    split; [done|done| | | |].
    + rewrite (eqv_phy _ _ Eq). apply F.
    + rewrite (eqv_arch _ _ Eq). apply F.
    + intros b q. by rewrite Eq, M1.
    + intros q Hq Vq. by rewrite V2, V1, Vq by done.
Qed.

(** Retiring the front of the log: the requests commit queues for it. *)
Definition retire_requests (log : list (Z * Z)) : list rat_sync_request :=
  mjoin ((fun e => [rat_req_release_map e.2; rat_req_commit_map e.1]) <$> log).

Lemma speculates_retire_all m r log1 log2 :
  speculates m r (log1 ++ log2) ->
  exists r', rat_apply_all r (retire_requests log1) = Some r' /\ speculates (retire_all m log1) r' log2 /\
    rat_tracks r r' /\ forall q, in_phy r q -> rat_valid r' q = rat_valid r q && negb (bool_decide (q ∈ log1.*2)).
Proof.
  revert m r. induction log1 as [|[p old] log1 IH]; intros m r HS.
  { exists r. split_and!; [done|done| |intros; by rewrite andb_true_r].
    by apply rat_tracks_refl, (speculates_wf m _ log2). }
  destruct (speculates_retire _ _ _ _ _ HS) as (r1 & r2 & E1 & E2 & HS2 & T2 & V2).
  destruct (IH _ _ HS2) as (r' & E & HS' & T' & V'). exists r'. split_and!; [|done|by apply (rat_tracks_trans _ r2)|].
  - unfold retire_requests in *. cbn. rewrite E1. cbn. rewrite E2. exact E.
  - intros q Hq. rewrite V', V2 by (try done; pose proof (tr_phy _ _ T2); unfold in_phy in *; congruence).
    cbn [fmap list_fmap snd]. destruct (Z.eqb_spec q old) as [->|Hne].
    + rewrite (bool_decide_true (old ∈ old :: _)) by left. cbn [negb]. by rewrite !andb_false_r.
    + cbn [negb]. rewrite andb_true_r. do 2 f_equal. apply bool_decide_ext. rewrite elem_of_cons. tauto.
Qed.

Lemma retire_all_cases m log a : retire_all m log a = m a \/ retire_all m log a ∈ log.*1.
Proof.
  unfold retire_all. induction log as [|[p old] log IH] using rev_ind; [by left|].
  rewrite fold_left_app, fmap_app, elem_of_app. cbn [fold_left fmap list_fmap fst].
  set (m' := fold_left retire_one log m) in *. unfold retire_one. cbn [fst snd].
  destruct (m' a =? old); [right; right; by left|]. destruct IH; [by left|right; by left].
Qed.

(** * The committed mapping can be read off *)

Lemma speculates_owner m r log a : speculates m r log -> in_arch r a -> in_phy r (m a) /\ rat_valid r (m a) = true /\ rat_owner r (m a) = a.
Proof.
  intros [(rb & W & T & Hm & H) _ _] Ha. destruct (in_flight_dims _ _ _ W H) as [D1 D2].
  destruct (Hm a) as (Hi & Hv & _ & Ho); [unfold in_arch in *; congruence|].
  destruct (in_flight_valid _ _ _ _ W H Hi) as [Hv' Ho']. split_and!.
  - unfold in_phy in *. congruence.
  - apply Hv'. by left.
  - by rewrite Ho'.
Qed.

Lemma speculates_get_commit m r log a :
  speculates m r log -> in_arch r a -> rat_get_commit_phy_id r a = Some (m a).
Proof.
  intros HS Ha. pose proof (speculates_wf _ _ _ HS) as W. pose proof (rat_state_self r (wf_shape r W)) as RS.
  destruct (speculates_owner _ _ _ a HS Ha) as (Ia & Va & Oa). pose proof Ha as [Ha1 Ha2]. unfold rat_get_commit_phy_id.
  destruct (Z.ltb_spec 0 a); [|lia]. destruct (Z.ltb_spec a (arch_reg_num r)); [|lia]. cbn [andb assert mbind option_bind].
  rewrite (search_loop_unique _ (fun i => rat_valid r i && (rat_committed r i && (rat_owner r i =? a))) _ (m a)); [done|..].
  - intros i Hi%elem_of_upto. rewrite (state_get_valid RS), (state_get_commit RS), (state_get_table RS) by done.
    cbn [mbind option_bind]. by rewrite !and_then_Some.
  - apply NoDup_upto.
  - by apply elem_of_upto.
  - intros i Hi%elem_of_upto. rewrite !andb_true_iff, Z.eqb_eq. split.
    + intros (Hv & Hc & Ho). apply (speculates_valid _ _ _ i HS Hi) in Hv as [(b & Hb & <-)|Hlog].
      * destruct (speculates_owner _ _ _ b HS Hb) as (_ & _ & Ob). congruence.
      * apply list_elem_of_fmap in Hlog as (e & -> & He).
        pose proof (proj1 (list.Forall_forall _ _) (sp_pending _ _ _ HS) e He). cbn in *. congruence.
    + intros ->. split_and!; [done|by apply (sp_committed _ _ _ HS)|done].
Qed.

(** * Reloading a checkpoint *)

(** [cp] allocates and shows the mapping [m], nothing else. *)
Definition cp_holds (r : rat) (m : Z -> Z) (cp : checkpoint_t) : Prop :=
  bitmap_ok (phy_reg_num r) (rat_phy_map_table_valid cp) /\ bitmap_ok (phy_reg_num r) (rat_phy_map_table_visible cp) /\
  forall i, in_phy r i ->
    (bit_at (rat_phy_map_table_visible cp) i = true <-> exists a, in_arch r a /\ m a = i) /\
    bit_at (rat_phy_map_table_valid cp) i = bit_at (rat_phy_map_table_visible cp) i.

Lemma tight_visible rb m i :
  rat_wf rb -> (forall a, in_arch rb a -> rat_maps rb a (m a)) -> in_phy rb i ->
  rat_visible rb i = true <-> exists a, in_arch rb a /\ m a = i.
Proof.
  intros W Hm Hi. split.
  - intros Hs. destruct (wf_visible rb W i Hi Hs) as [Hv Ha]. exists (rat_owner rb i). split; [done|].
    by apply (wf_unique rb W (rat_owner rb i)); [apply Hm|].
  - intros (a & Ha & <-). by apply Hm.
Qed.

Lemma speculates_restore m r log cp :
  speculates m r log -> phy_reg_num r = PHY_REG_NUM -> checkpoint_shape cp -> cp_holds r m cp ->
  exists r', rat_restore r cp = Some r' /\ speculates m r' [].
Proof.
  intros HS Hn Hsh (Bv & Bs & Hcp). pose proof (speculates_wf _ _ _ HS) as W.
  rewrite (rat_restore_spec r cp (wf_shape r W) Hn Hsh). eexists. split; [reflexivity|].
  destruct HS as [(rb & Wb & T & Hm & H) Hc _]. destruct (in_flight_dims _ _ _ Wb H) as [D1 D2]. split; [|done|constructor].
  exists rb. split_and!; try done.
  assert (forall i, in_phy r i -> in_phy rb i /\ bit_at (rat_phy_map_table_visible cp) i = rat_visible rb i) as Hvis.
  { intros i Hi. assert (in_phy rb i) as Hib by (unfold in_phy in *; congruence). split; [done|].
    apply eq_true_iff_eq. rewrite (proj1 (Hcp i Hi)), (tight_visible rb m i Wb Hm Hib). unfold in_arch. by rewrite D2. }
  destruct W as [Hshape Hrun _ _ _]. apply in_flight_none.
  - split; [done|done| |..].
    + cbn. rewrite Hrun. symmetry. apply Wb.
    + intros i Hi. destruct (Hvis i Hi) as [Hib Hb], (Hcp i Hi) as [_ Hv]. change (bit_at (rat_phy_map_table_valid cp) i = rat_valid rb i).
      rewrite Hv, Hb. symmetry. by apply T.
    + intros i Hi. destruct (Hvis i Hi) as [Hib Hb]. exact Hb.
    + intros i Hi Hv. destruct (Hvis i Hi) as [Hib Hb], (Hcp i Hi) as [_ Hv']. change (bit_at (rat_phy_map_table_valid cp) i = true) in Hv.
      rewrite Hv', Hb, <- T in Hv by done. by apply (in_flight_valid _ _ _ i Wb H Hib).
  - destruct Hshape as (A & B & C & D & E). by split_and!.
Qed.

(** Nothing in flight yet, as after reset. *)
Lemma speculates_start m r :
  rat_wf r -> rat_tight r -> (forall a, in_arch r a -> rat_maps r a (m a) /\ rat_committed r (m a) = true) ->
  speculates m r [].
Proof.
  intros W T H. split; [|by intros a Ha; apply H|constructor].
  exists r. split_and!; [done|done|by intros a Ha; apply H|]. apply in_flight_none; [done|apply W].
Qed.
