(* ===== verification/CsrFile.v ===== *)
(** The control and status registers: [component::csr_base]
    ([component/csr_base.h]), the register classes of [component/csr/],
    their addresses ([component/csr_all.h]), the register file
    [component::csrfile] ([component/csrfile.h]) and the map of registers
    that [init] of [top_source/main.cpp] builds. *)

From Stdlib Require Import ZArith Lia.
From stdpp Require Import base numbers list option tactics gmap.
From S2P Require Import Prelude Common.

Local Open Scope Z_scope.

(** * The register classes *)

(** One constructor per class of [component/csr/]; those whose constructor
    takes a name or an index carry no more state than that. *)
Inductive csr_kind :=
| mvendorid | marchid | mimpid | mhartid | mconfigptr | mstatus | misa | mie | mtvec | mcounteren
| mstatush | mscratch | mepc | mcause | mtval | mip | charfifo | finish | mcycle | minstret
| mcycleh | minstreth | mhpmcounter | mhpmcounterh | pmpcfg | pmpaddr.

#[export] Instance csr_kind_eq_dec : EqDecision csr_kind.
Proof. solve_decision. Defined.

Definition csr_init_value (k : csr_kind) : Z :=
  match k with
  | marchid => 0x19981001
  | mimpid => 0x20220201
  | misa => 0x40001100
  | finish => 0xFFFFFFFF
  | _ => 0
  end.

(** The pure [filter] overrides; the one of [charfifo] has effects and is
    [charfifo_filter] below. *)
Definition csr_filter (k : csr_kind) (value : Z) : Z :=
  match k with
  | mstatus => Z.land value 0x88
  | mie => Z.land value 0x888
  | mip => Z.land value 0x888
  | mtvec => Z.land value (not32 0x03)
  | mepc => Z.land value (not32 0x03)
  | mcounteren => Z.land value 0x07
  | mstatush => 0
  | pmpcfg => 0
  | pmpaddr => 0
  | charfifo => 0
  | _ => value
  end.

Record csr_base := mk_csr { csr_class : csr_kind; csr_value : Z }.

#[export] Instance csr_base_eta : Eta csr_base := fun r => mk_csr (csr_class r) (csr_value r).

Definition csr_new (k : csr_kind) : csr_base := mk_csr k (csr_init_value k).

Definition csr_reset (c : csr_base) : csr_base := c <| csr_value := csr_init_value (csr_class c) |>.

Definition csr_load (c : csr_base) (value : Z) : csr_base := c <| csr_value := value |>.

Definition csr_get_value (c : csr_base) : Z := csr_value c.

(** [write], [read], [setbit] and [getbit] of the registers other than
    [charfifo]. *)
Definition csr_write (c : csr_base) (value : Z) : csr_base :=
  c <| csr_value := csr_filter (csr_class c) value |>.

Definition csr_read (c : csr_base) : Z := csr_value c.

Definition csr_setbit (c : csr_base) (bit : Z) (value : bool) : csr_base :=
  csr_write c (Z.lor (Z.land (csr_read c) (not32 (shl32 1 bit))) (shl32 (bit_of value) bit)).

Definition csr_getbit (c : csr_base) (bit : Z) : bool :=
  negb (Z.land (csr_read c) (shl32 1 bit) =? 0).

Definition mstatus_set_mie (c : csr_base) (v : bool) : csr_base := csr_setbit c 3 v.
Definition mstatus_get_mie (c : csr_base) : bool := csr_getbit c 3.
Definition mstatus_set_mpie (c : csr_base) (v : bool) : csr_base := csr_setbit c 7 v.
Definition mstatus_get_mpie (c : csr_base) : bool := csr_getbit c 7.
Definition mie_set_msie (c : csr_base) (v : bool) : csr_base := csr_setbit c 3 v.
Definition mie_get_msie (c : csr_base) : bool := csr_getbit c 3.
Definition mie_set_mtie (c : csr_base) (v : bool) : csr_base := csr_setbit c 7 v.
Definition mie_get_mtie (c : csr_base) : bool := csr_getbit c 7.
Definition mie_set_meie (c : csr_base) (v : bool) : csr_base := csr_setbit c 11 v.
Definition mie_get_meie (c : csr_base) : bool := csr_getbit c 11.
Definition mip_set_msip (c : csr_base) (v : bool) : csr_base := csr_setbit c 3 v.
Definition mip_get_msip (c : csr_base) : bool := csr_getbit c 3.
Definition mip_set_mtip (c : csr_base) (v : bool) : csr_base := csr_setbit c 7 v.
Definition mip_get_mtip (c : csr_base) : bool := csr_getbit c 7.
Definition mip_set_meip (c : csr_base) (v : bool) : csr_base := csr_setbit c 11 v.
Definition mip_get_meip (c : csr_base) : bool := csr_getbit c 11.
Definition mcounteren_set_cy (c : csr_base) (v : bool) : csr_base := csr_setbit c 0 v.
Definition mcounteren_get_cy (c : csr_base) : bool := csr_getbit c 0.
Definition mcounteren_set_tm (c : csr_base) (v : bool) : csr_base := csr_setbit c 1 v.
Definition mcounteren_get_tm (c : csr_base) : bool := csr_getbit c 1.
Definition mcounteren_set_ir (c : csr_base) (v : bool) : csr_base := csr_setbit c 2 v.
Definition mcounteren_get_ir (c : csr_base) : bool := csr_getbit c 2.

(** * The character FIFO register *)

(** The two [spsc_queue<char, capacity<1024>>] of characters shared with the
    console thread, oldest character first; a [char] is signed. *)
Record char_fifos := mk_char_fifos { send_fifo : list Z; rev_fifo : list Z }.

#[export] Instance char_fifos_eta : Eta char_fifos := fun r => mk_char_fifos (send_fifo r) (rev_fifo r).

Definition CHAR_FIFO_CAPACITY : nat := 1024.

(** The conversion [(char)(value & 0xff)]. *)
Definition to_char (value : Z) : Z := let b := Z.land value 0xff in if b <? 128 then b else b - 256.

(** [None]: the [while] loop spins until the console thread makes room (or
    sends a character). *)
Definition charfifo_filter (fs : char_fifos) (value : Z) : option (Z * char_fifos) :=
  if negb (Z.land value 0x80000000 =? 0) then
    match rev_fifo fs with
    | [] => None
    | _ :: rest => Some (0, fs <| rev_fifo := rest |>)
    end
  else if (length (send_fifo fs) <? CHAR_FIFO_CAPACITY)%nat then
    Some (0, fs <| send_fifo := send_fifo fs ++ [to_char value] |>)
  else None.

Definition charfifo_read (fs : char_fifos) : Z :=
  match rev_fifo fs with
  | [] => 0
  | ch :: _ => Z.lor 0x80000000 (u32 ch)
  end.

(** * The register file *)

Record csr_item_t := mk_csr_item { readonly : bool; csr : csr_base }.

#[export] Instance csr_item_eta : Eta csr_item_t := fun r => mk_csr_item (readonly r) (csr r).

Inductive csr_sync_request :=
| csr_req_write (arg1 arg2 : Z)
| csr_req_write_sys (arg1 arg2 : Z).

Record csrfile := mk_csrfile {
  csr_sync_request_q : list csr_sync_request;
  csr_map_table : gmap Z csr_item_t;
  csr_fifos : char_fifos
}.

#[export] Instance csrfile_eta : Eta csrfile := fun r =>
  mk_csrfile (csr_sync_request_q r) (csr_map_table r) (csr_fifos r).

Definition csrfile_new (fs : char_fifos) : csrfile := mk_csrfile [] ∅ fs.

Definition csrfile_reset (f : csrfile) : csrfile :=
  f <| csr_map_table ::= fmap (fun it => it <| csr ::= csr_reset |>) |> <| csr_sync_request_q := [] |>.

Definition csrfile_map (f : csrfile) (addr : Z) (ro : bool) (c : csr_base) : option csrfile :=
  _ ← assert (bool_decide (csr_map_table f !! addr = None));
  Some (f <| csr_map_table := <[addr := mk_csr_item ro c]> (csr_map_table f) |>).

(** [csr_map_table[addr].csr->write(value)] and [->read()], the calls being
    virtual. *)
Definition csrfile_item_write (f : csrfile) (addr : Z) (it : csr_item_t) (value : Z) : option csrfile :=
  if decide (csr_class (csr it) = charfifo) then
    '(v, fs) ← charfifo_filter (csr_fifos f) value;
    Some (f <| csr_fifos := fs |>
            <| csr_map_table := <[addr := it <| csr ::= fun c => c <| csr_value := v |> |>]> (csr_map_table f) |>)
  else Some (f <| csr_map_table := <[addr := it <| csr ::= fun c => csr_write c value |>]> (csr_map_table f) |>).

Definition csrfile_item_read (f : csrfile) (it : csr_item_t) : Z :=
  if decide (csr_class (csr it) = charfifo) then charfifo_read (csr_fifos f) else csr_read (csr it).

Definition csrfile_write_sys (f : csrfile) (addr value : Z) : option csrfile :=
  it ← csr_map_table f !! addr; csrfile_item_write f addr it value.

Definition csrfile_write_sys_sync (f : csrfile) (addr value : Z) : csrfile :=
  f <| csr_sync_request_q ::= fun l => l ++ [csr_req_write_sys addr value] |>.

Definition csrfile_read_sys (f : csrfile) (addr : Z) : option Z :=
  it ← csr_map_table f !! addr; Some (csrfile_item_read f it).

Definition csrfile_write_check (f : csrfile) (addr value : Z) : bool :=
  match csr_map_table f !! addr with
  | None => false
  | Some it => negb (readonly it)
  end.

Definition csrfile_write (f : csrfile) (addr value : Z) : option (bool * csrfile) :=
  if negb (csrfile_write_check f addr value) then Some (false, f)
  else
    it ← csr_map_table f !! addr;
    f ← csrfile_item_write f addr it value;
    Some (true, f).

Definition csrfile_write_sync (f : csrfile) (addr value : Z) : csrfile :=
  f <| csr_sync_request_q ::= fun l => l ++ [csr_req_write addr value] |>.

(** [false], or [true] with the value stored. *)
Definition csrfile_read (f : csrfile) (addr : Z) : option Z :=
  match csr_map_table f !! addr with
  | None => None
  | Some it => Some (csrfile_item_read f it)
  end.

Definition csrfile_sync_one (f : csrfile) (t_req : csr_sync_request) : option csrfile :=
  match t_req with
  | csr_req_write arg1 arg2 => '(ok, f) ← csrfile_write f arg1 arg2; _ ← assert ok; Some f
  | csr_req_write_sys arg1 arg2 => csrfile_write_sys f arg1 arg2
  end.

Fixpoint csrfile_sync_loop (f : csrfile) (reqs : list csr_sync_request) : option csrfile :=
  match reqs with
  | [] => Some f
  | t_req :: reqs =>
      f ← csrfile_sync_one (f <| csr_sync_request_q := reqs |>) t_req; csrfile_sync_loop f reqs
  end.

Definition csrfile_sync (f : csrfile) : option csrfile := csrfile_sync_loop f (csr_sync_request_q f).

(** * The map of the core *)

Definition CSR_MVENDORID : Z := 0xf11.
Definition CSR_MARCHID : Z := 0xf12.
Definition CSR_MIMPID : Z := 0xf13.
Definition CSR_MHARTID : Z := 0xf14.
Definition CSR_MCONFIGPTR : Z := 0xf15.
Definition CSR_MSTATUS : Z := 0x300.
Definition CSR_MISA : Z := 0x301.
Definition CSR_MIE : Z := 0x304.
Definition CSR_MTVEC : Z := 0x305.
Definition CSR_MCOUNTEREN : Z := 0x306.
Definition CSR_MSTATUSH : Z := 0x310.
Definition CSR_MSCRATCH : Z := 0x340.
Definition CSR_MEPC : Z := 0x341.
Definition CSR_MCAUSE : Z := 0x342.
Definition CSR_MTVAL : Z := 0x343.
Definition CSR_MIP : Z := 0x344.
Definition CSR_CHARFIFO : Z := 0x800.
Definition CSR_FINISH : Z := 0x804.
Definition CSR_MCYCLE : Z := 0xB00.
Definition CSR_MINSTRET : Z := 0xB02.
Definition CSR_MCYCLEH : Z := 0xB80.
Definition CSR_MINSTRETH : Z := 0xB82.

(** [CSR_BRANCHNUM] .. [CSR_FNF] are 0xB03 .. 0xB0F, their high halves 0xB83
    .. 0xB8F; the low half [CSR_FNF] is created as an [mhpmcounterh]. *)
Definition CSR_BRANCHNUM : Z := 0xB03.
Definition CSR_BRANCHNUMH : Z := 0xB83.
Definition CSR_FNF : Z := 0xB0F.
Definition CSR_FNFH : Z := 0xB8F.

Definition csr_counter_maps : list (Z * bool * csr_kind) :=
  mjoin ((fun i => [(CSR_BRANCHNUM + i, true, if CSR_BRANCHNUM + i =? CSR_FNF then mhpmcounterh else mhpmcounter);
                    (CSR_BRANCHNUMH + i, true, mhpmcounterh)]) <$> upto 13).

Definition csr_maps : list (Z * bool * csr_kind) :=
  [(CSR_MVENDORID, true, mvendorid); (CSR_MARCHID, true, marchid); (CSR_MIMPID, true, mimpid);
   (CSR_MHARTID, true, mhartid); (CSR_MCONFIGPTR, true, mconfigptr); (CSR_MSTATUS, false, mstatus);
   (CSR_MISA, false, misa); (CSR_MIE, false, mie); (CSR_MTVEC, false, mtvec);
   (CSR_MCOUNTEREN, false, mcounteren); (CSR_MSTATUSH, false, mstatush); (CSR_MSCRATCH, false, mscratch);
   (CSR_MEPC, false, mepc); (CSR_MCAUSE, false, mcause); (CSR_MTVAL, false, mtval); (CSR_MIP, false, mip);
   (CSR_CHARFIFO, false, charfifo); (CSR_FINISH, false, finish); (CSR_MCYCLE, false, mcycle);
   (CSR_MINSTRET, false, minstret); (CSR_MCYCLEH, false, mcycleh); (CSR_MINSTRETH, false, minstreth)]
  ++ csr_counter_maps
  ++ ((fun i => (0x3A0 + i, false, pmpcfg)) <$> upto 16)
  ++ ((fun i => (0x3B0 + i, false, pmpaddr)) <$> upto 64).

Fixpoint csrfile_map_all (f : csrfile) (l : list (Z * bool * csr_kind)) : option csrfile :=
  match l with
  | [] => Some f
  | (addr, ro, k) :: l => f ← csrfile_map f addr ro (csr_new k); csrfile_map_all f l
  end.

(** The register file after [init]. *)
Definition csrfile_init (fs : char_fifos) : option csrfile := csrfile_map_all (csrfile_new fs) csr_maps.

(** * Properties of single registers *)

Lemma shl32_bit v bit i :
  0 <= bit < 32 -> 0 <= i < 32 -> Z.testbit (shl32 (bit_of v) bit) i = v && (i =? bit).
Proof.
  intros Hb Hi. unfold shl32. rewrite u32_small.
  - destruct v; cbn [bit_of].
    + rewrite Z.shiftl_1_l, Z.pow2_bits_eqb by lia. cbn. by rewrite Z.eqb_sym.
    + by rewrite Z.shiftl_0_l, Z.bits_0.
  - destruct v; cbn [bit_of]; [rewrite Z.shiftl_1_l|rewrite Z.shiftl_0_l; lia].
    split; [apply Z.pow_nonneg; lia|apply Z.pow_lt_mono_r; lia].
Qed.

(** The bits a register class implements. *)
Definition csr_mask (k : csr_kind) : Z :=
  match k with
  | mstatus => 0x88
  | mie | mip => 0x888
  | mtvec | mepc => 0xFFFFFFFC
  | mcounteren => 0x07
  | mstatush | pmpcfg | pmpaddr | charfifo => 0
  | _ => 0xFFFFFFFF
  end.

Lemma csr_filter_mask k v : is_u32 v -> csr_filter k v = Z.land v (csr_mask k).
Proof.
  intros Hv. unfold is_u32 in Hv.
  assert (Z.land v 0xFFFFFFFF = v) as Hall.
  { change 0xFFFFFFFF with (2 ^ 32 - 1). rewrite land_low by lia. apply Z.mod_small. lia. }
  destruct k; cbn [csr_filter csr_mask]; rewrite ?Hall, ?Z.land_0_r; done.
Qed.

Lemma csr_setbit_bits c bit v i :
  is_u32 (csr_value c) -> 0 <= bit < 32 -> 0 <= i < 32 ->
  Z.testbit (csr_value (csr_setbit c bit v)) i =
    Z.testbit (csr_mask (csr_class c)) i && (if decide (i = bit) then v else Z.testbit (csr_value c) i).
Proof.
  intros Hc Hb Hi. unfold csr_setbit, csr_write, csr_read. cbn [csr_value upd].
  assert (is_u32 (shl32 1 bit)) as H1 by apply u32_range.
  change (shl32 1 bit) with (shl32 (bit_of true) bit) in *.
  set (w := Z.lor _ _).
  assert (Z.testbit w i = if decide (i = bit) then v else Z.testbit (csr_value c) i) as Hw.
  { unfold w. rewrite Z.lor_spec, Z.land_spec, testbit_not32, !shl32_bit by (done || lia).
    case_decide; bcase; try lia; destruct v, (Z.testbit (csr_value c) i); done. }
  assert (is_u32 w) as Hw32.
  { unfold is_u32 in *. assert (0 <= not32 (shl32 (bit_of true) bit)) by (unfold not32; lia).
    apply lor_range; [lia|by apply land_range|apply u32_range]. }
  change (Z.testbit (csr_filter (csr_class c) w) i = Z.testbit (csr_mask (csr_class c)) i &&
            (if decide (i = bit) then v else Z.testbit (csr_value c) i)).
  rewrite csr_filter_mask, Z.land_spec, Hw by done. apply andb_comm.
Qed.

Lemma csr_getbit_testbit c bit : 0 <= bit < 32 -> csr_getbit c bit = Z.testbit (csr_value c) bit.
Proof.
  intros Hb. unfold csr_getbit, csr_read, shl32. rewrite u32_small; [apply land_bit_eqb; lia|].
  rewrite Z.shiftl_1_l. split; [apply Z.pow_nonneg; lia|apply Z.pow_lt_mono_r; lia].
Qed.

(** [setbit] and [getbit] on the interrupt registers.  Setting an
    implemented bit makes [getbit] return the value written and leaves every
    other implemented bit alone, whatever garbage the unimplemented bits hold;
    an unimplemented bit reads as 0 afterwards. *)
Theorem csr_setbit_getbit c bit v i :
  is_u32 (csr_value c) -> 0 <= bit < 32 -> 0 <= i < 32 ->
  csr_getbit (csr_setbit c bit v) i =
    Z.testbit (csr_mask (csr_class c)) i && (if decide (i = bit) then v else csr_getbit c i).
Proof. intros. rewrite !csr_getbit_testbit by lia. by apply csr_setbit_bits. Qed.

Lemma csr_setbit_getbit_witness :
  mstatus_get_mie (mstatus_set_mie (csr_load (csr_new mstatus) 0x80) true) = true /\
  mstatus_get_mpie (mstatus_set_mie (csr_load (csr_new mstatus) 0x80) true) = true.
Proof.
  split.
  - etransitivity; [apply (csr_setbit_getbit (csr_load (csr_new mstatus) 0x80) 3 true 3); unfold is_u32; simpl; lia|].
    reflexivity.
  - etransitivity; [apply (csr_setbit_getbit (csr_load (csr_new mstatus) 0x80) 3 true 7); unfold is_u32; simpl; lia|].
    reflexivity.
Defined.

(** * Properties of the file *)

(** A write through the architectural port.  For a mapped register other
    than the character FIFO it succeeds exactly when the register is not
    read-only; a successful write makes the register read as the filtered
    value, a refused one changes nothing, and no other register changes. *)
Theorem csrfile_write_read f addr value it :
  csr_map_table f !! addr = Some it -> csr_class (csr it) <> charfifo ->
  exists f', csrfile_write f addr value = Some (negb (readonly it), f') /\
    csrfile_read f' addr =
      (if readonly it then csrfile_read f addr else Some (csr_filter (csr_class (csr it)) value)) /\
    (forall b, b <> addr -> csrfile_read f' b = csrfile_read f b).
Proof.
  intros Hit Hk. unfold csrfile_write, csrfile_write_check. rewrite Hit.
  destruct (readonly it); cbn [negb]; [by exists f|].
  cbn [mbind option_bind]. unfold csrfile_item_write. rewrite decide_False by done. cbn [mbind option_bind].
  eexists. split; [reflexivity|]. split.
  - unfold csrfile_read, csrfile_item_read. cbn. rewrite lookup_insert_eq. cbn. by rewrite decide_False.
  - intros b Hb. unfold csrfile_read, csrfile_item_read. cbn. by rewrite lookup_insert_ne.
Qed.

(** Two files with the same registers, whatever they hold. *)
Definition same_registers (f g : csrfile) : Prop :=
  forall addr, (fun it => (readonly it, csr_class (csr it))) <$> csr_map_table f !! addr =
               (fun it => (readonly it, csr_class (csr it))) <$> csr_map_table g !! addr.

Lemma csrfile_item_write_same f addr it value f' :
  csr_map_table f !! addr = Some it -> csrfile_item_write f addr it value = Some f' -> same_registers f' f.
Proof.
  unfold csrfile_item_write. intros Hit H b. case_decide as E.
  - destruct (charfifo_filter (csr_fifos f) value) as [[v fs]|]; cbn in H; [|done]. simplify_eq. cbn.
    destruct (decide (b = addr)) as [->|]; [rewrite lookup_insert_eq, Hit|rewrite lookup_insert_ne]; done.
  - simplify_eq. cbn.
    destruct (decide (b = addr)) as [->|]; [rewrite lookup_insert_eq, Hit|rewrite lookup_insert_ne]; done.
Qed.

Lemma csrfile_sync_loop_same reqs f f' : csrfile_sync_loop f reqs = Some f' -> same_registers f' f.
Proof.
  revert f. induction reqs as [|t reqs IH]; intros f E; cbn in E; [by simplify_eq|].
  apply bind_Some in E as (f1 & E1 & E). intros addr. rewrite (IH _ E addr). clear E IH. revert addr.
  set (g := f <| csr_sync_request_q := reqs |>) in *. change (same_registers f1 g).
  destruct t; cbn in E1; unfold csrfile_write, csrfile_write_sys in E1.
  - case_match; cbn in E1; [by simplify_eq|]. apply bind_Some in E1 as ([ok f2] & E2 & E3).
    apply bind_Some in E2 as (it & Hit & E2). apply bind_Some in E2 as (f3 & E2 & E4). simplify_eq.
    cbn in E3. simplify_eq. by eapply csrfile_item_write_same.
  - apply bind_Some in E1 as (it & Hit & E1). by eapply csrfile_item_write_same.
Qed.

(** The queue is consumed, and plays no part in the updates. *)
Lemma csrfile_sync_loop_queue reqs f f' :
  csrfile_sync_loop f reqs = Some f' -> csr_sync_request_q f' = match reqs with [] => csr_sync_request_q f | _ => [] end.
Proof.
  revert f. induction reqs as [|t reqs IH]; intros f E; cbn in E; [by simplify_eq|].
  apply bind_Some in E as (f1 & E1 & E). rewrite (IH _ E).
  assert (csr_sync_request_q f1 = reqs) as Hq; [|by destruct reqs].
  assert (forall g addr it v g', csrfile_item_write g addr it v = Some g' -> csr_sync_request_q g' = csr_sync_request_q g)
    as Hw.
  { unfold csrfile_item_write. intros g addr it v g' H. case_decide; [|by simplify_eq].
    apply bind_Some in H as ([w fs] & _ & H). by simplify_eq. }
  destruct t; cbn in E1; unfold csrfile_write, csrfile_write_sys in E1.
  - case_match; cbn in E1; [by simplify_eq|]. apply bind_Some in E1 as ([ok f2] & E2 & E3).
    apply bind_Some in E2 as (it & _ & E2). apply bind_Some in E2 as (f3 & E2 & E4). simplify_eq.
    cbn in E3. simplify_eq. by rewrite (Hw _ _ _ _ _ E2).
  - apply bind_Some in E1 as (it & _ & E1). by rewrite (Hw _ _ _ _ _ E1).
Qed.

Lemma csrfile_sync_eq f reqs f' :
  csr_sync_request_q f = [] -> csrfile_sync_loop f reqs = Some f' ->
  csrfile_sync (f <| csr_sync_request_q := reqs |>) = Some f' /\ csr_sync_request_q f' = [].
Proof.
  intros Hq E. pose proof (csrfile_sync_loop_queue _ _ _ E) as Hq'. destruct reqs as [|t reqs].
  - cbn in E. simplify_eq. split; [|done]. unfold csrfile_sync. cbn. destruct f'. cbn in *. by subst.
  - by split.
Qed.

Lemma csrfile_reset_same f g :
  same_registers f g -> csr_map_table (csrfile_reset f) = csr_map_table (csrfile_reset g).
Proof.
  intros H. apply map_eq. intros addr. cbn. rewrite !lookup_fmap. specialize (H addr).
  destruct (csr_map_table f !! addr) as [[ro1 [k1 v1]]|], (csr_map_table g !! addr) as [[ro2 [k2 v2]]|];
    cbn in *; by simplify_eq.
Qed.

Definition csrfile_init_table : gmap Z csr_item_t :=
  default ∅ (csr_map_table <$> csrfile_init (mk_char_fifos [] [])).

Lemma csrfile_map_all_fifos l f g :
  csr_map_table f = csr_map_table g ->
  csr_map_table <$> csrfile_map_all f l = csr_map_table <$> csrfile_map_all g l.
Proof.
  revert f g. induction l as [|[[addr ro] k] l IH]; intros f g E; cbn; [by rewrite E|].
  unfold csrfile_map. rewrite <- E. destruct (assert _); cbn; [|done]. apply IH. by cbn.
Qed.

Lemma csrfile_init_spec fs : exists f, csrfile_init fs = Some f /\ csr_map_table f = csrfile_init_table.
Proof.
  pose proof (csrfile_map_all_fifos csr_maps (csrfile_new fs) (csrfile_new (mk_char_fifos [] [])) eq_refl) as H.
  assert (csr_map_table <$> csrfile_map_all (csrfile_new (mk_char_fifos [] [])) csr_maps =
          Some csrfile_init_table) as E0 by (vm_compute; reflexivity).
  unfold csrfile_init. rewrite E0 in H. clear E0.
  destruct (csrfile_map_all (csrfile_new fs) csr_maps) as [f|]; cbn [fmap option_fmap option_map] in H;
    [|discriminate H].
  apply (inj Some) in H. exists f. split; [reflexivity|exact H].
Qed.

Lemma csrfile_init_reset : (fun it => it <| csr ::= csr_reset |>) <$> csrfile_init_table = csrfile_init_table.
Proof. vm_compute. reflexivity. Qed.

(** Building the register file maps every address once (no assertion
    fires), and [reset] is a power-on reset: after any deferred writes the
    machine applies, every register is back at the value it had after
    [init]. *)
Theorem csrfile_reset_restores fs :
  exists f, csrfile_init fs = Some f /\
    forall reqs f', csrfile_sync_loop f reqs = Some f' ->
      csr_map_table (csrfile_reset f') = csr_map_table f.
Proof.
  destruct (csrfile_init_spec fs) as (f & E & Ht). exists f. split; [exact E|]. clear E. intros reqs f' Hs.
  rewrite (csrfile_reset_same f' f (csrfile_sync_loop_same _ _ _ Hs)).
  clear Hs. cbn. rewrite Ht. apply csrfile_init_reset.
Qed.

Definition csr_demo_file : csrfile := default (csrfile_new (mk_char_fifos [] [])) (csrfile_init (mk_char_fifos [] [])).

Definition csr_demo_reqs : list csr_sync_request :=
  [csr_req_write CSR_MTVEC 0x80000103; csr_req_write_sys CSR_MIP 0x888; csr_req_write CSR_CHARFIFO 65].

Lemma csrfile_write_read_witness :
  exists f', csrfile_write csr_demo_file CSR_MTVEC 0x80000103 = Some (true, f') /\
    csrfile_read f' CSR_MTVEC = Some 0x80000100 /\ csrfile_read f' CSR_MISA = Some 0x40001100.
Proof.
  destruct (csrfile_write_read csr_demo_file CSR_MTVEC 0x80000103 (mk_csr_item false (csr_new mtvec)))
    as (f' & H1 & H2 & H3).
  - vm_compute. reflexivity.
  - discriminate.
  - exists f'. split; [exact H1|]. split; [exact H2|].
    rewrite H3 by discriminate. vm_compute. reflexivity.
Defined.

Lemma csrfile_reset_restores_witness :
  exists f', csrfile_sync_loop csr_demo_file csr_demo_reqs = Some f' /\
    csrfile_read f' CSR_MTVEC = Some 0x80000100 /\
    csr_map_table (csrfile_reset f') = csr_map_table csr_demo_file.
Proof.
  destruct (csrfile_sync_loop csr_demo_file csr_demo_reqs) as [f'|] eqn:E;
    [|exfalso; vm_compute in E; discriminate E].
  exists f'. split; [reflexivity|]. split.
  - assert ((csrfile_sync_loop csr_demo_file csr_demo_reqs ≫= fun g => csrfile_read g CSR_MTVEC) = Some 0x80000100)
      as H by (vm_compute; reflexivity).
    rewrite E in H. exact H.
  - destruct (csrfile_reset_restores (mk_char_fifos [] [])) as (f & Ef & Hr).
    assert (f = csr_demo_file) as -> by (unfold csr_demo_file; rewrite Ef; reflexivity).
    apply (Hr csr_demo_reqs f' E).
Defined.
