(* ===== verification/Terminal.v ===== *)
(** The terminal of [top_source/main.cpp]: the two threads of the telnet
    connection ([tcp_charfifo_thread_entry],
    [tcp_charfifo_recv_thread_receive_entry]) and the program, which reaches the
    connection through the register [charfifo].  The three run at the same time;
    the order of their steps is a list of events. *)

From Stdlib Require Import ZArith Lia.
From stdpp Require Import base numbers list option tactics.
From S2P Require Import Prelude CsrFile.

Local Open Scope Z_scope.

(** [tm_buf]: what the receiving thread has not passed on yet of its buffer;
    [tm_input], [tm_sent], [tm_written], [tm_taken]: all the characters so far that
    came in over the connection, went out over it, that the program wrote, and
    that it took. *)
Record terminal := mk_terminal {
  tm_fifos : char_fifos;
  tm_buf : list Z;
  tm_input : list Z;
  tm_sent : list Z;
  tm_written : list Z;
  tm_taken : list Z
}.

#[export] Instance terminal_eta : Eta terminal := fun t =>
  mk_terminal (tm_fifos t) (tm_buf t) (tm_input t) (tm_sent t) (tm_written t) (tm_taken t).

Definition terminal_new : terminal := mk_terminal (mk_char_fifos [] []) [] [] [] [] [].

Definition CARRIAGE_RETURN : Z := 13.

Definition RECEIVE_SIZE : nat := 1024.

(** The receiving thread: [soc.receive], and an iteration of the loop over the
    buffer, which waits while the queue is full. *)
Definition terminal_receive (buf : list Z) (t : terminal) : option terminal :=
  match tm_buf t with
  | [] =>
      _ ← assert (length buf <=? RECEIVE_SIZE)%nat;
      Some (t <| tm_buf := buf |> <| tm_input ::= fun l => l ++ buf |>)
  | _ => None
  end.

Definition terminal_pass (t : terminal) : option terminal :=
  match tm_buf t with
  | [] => None
  | ch :: buf =>
      if ch =? CARRIAGE_RETURN then Some (t <| tm_buf := buf |>)
      else if (length (rev_fifo (tm_fifos t)) <? CHAR_FIFO_CAPACITY)%nat then
        Some (t <| tm_buf := buf |> <| tm_fifos ::= fun fs => fs <| rev_fifo ::= fun l => l ++ [ch] |> |>)
      else None
  end.

(** The sending thread: the front of the queue is sent, then removed. *)
Definition terminal_send (t : terminal) : option terminal :=
  match send_fifo (tm_fifos t) with
  | [] => None
  | ch :: rest => Some (t <| tm_sent ::= fun l => l ++ [ch] |> <| tm_fifos ::= fun fs => fs <| send_fifo := rest |> |>)
  end.

(** The program writes the register: with the highest bit set it removes the
    character it has read, else it sends one. *)
Definition terminal_write (value : Z) (t : terminal) : option terminal :=
  '(_, fs) ← charfifo_filter (tm_fifos t) value;
  Some (if negb (Z.land value 0x80000000 =? 0) then t <| tm_fifos := fs |> <| tm_taken ::= fun l => l ++ take 1 (rev_fifo (tm_fifos t)) |>
        else t <| tm_fifos := fs |> <| tm_written ::= fun l => l ++ [to_char value] |>).

Inductive terminal_event := te_receive (buf : list Z) | te_pass | te_send | te_write (value : Z).

(** [None]: the thread waits. *)
Definition terminal_step (e : terminal_event) (t : terminal) : option terminal :=
  match e with
  | te_receive buf => terminal_receive buf t
  | te_pass => terminal_pass t
  | te_send => terminal_send t
  | te_write value => terminal_write value t
  end.

Fixpoint terminal_run (es : list terminal_event) (t : terminal) : option terminal :=
  match es with
  | [] => Some t
  | e :: es => t ← terminal_step e t; terminal_run es t
  end.

(** * No character is lost *)

(** The characters that are passed on. *)
Definition passed (l : list Z) : list Z := filter (fun ch => ch <> CARRIAGE_RETURN) l.

Record terminal_inv (t : terminal) : Prop := {
  inv_in : passed (tm_input t) = tm_taken t ++ rev_fifo (tm_fifos t) ++ passed (tm_buf t);
  inv_out : tm_written t = tm_sent t ++ send_fifo (tm_fifos t);
  inv_room : (length (rev_fifo (tm_fifos t)) <= CHAR_FIFO_CAPACITY)%nat /\ (length (send_fifo (tm_fifos t)) <= CHAR_FIFO_CAPACITY)%nat
}.

Lemma terminal_step_inv e t t' : terminal_inv t -> terminal_step e t = Some t' -> terminal_inv t'.
Proof.
  intros [Hi Ho [Hr Hs]]. destruct e as [buf| | |value]; cbn [terminal_step].
  - unfold terminal_receive. destruct (tm_buf t) eqn:E; [|done]. destruct (_ <=? _)%nat; [|done]. mstep. intros [= <-].
    split; [|done|done]. cbn. unfold passed in *. rewrite list.filter_app, Hi. cbn. by rewrite app_nil_r, app_assoc.
  - unfold terminal_pass. destruct (tm_buf t) as [|ch buf] eqn:E; [done|]. unfold passed in Hi. rewrite filter_cons in Hi.
    destruct (Z.eqb_spec ch CARRIAGE_RETURN) as [->|Hc].
    + intros [= <-]. split; [|done|done]. cbn [tm_input tm_taken tm_buf tm_fifos]. by rewrite decide_False in Hi by (intros H; by apply H).
    + destruct (Nat.ltb_spec (length (rev_fifo (tm_fifos t))) CHAR_FIFO_CAPACITY); [|done]. intros [= <-].
      rewrite decide_True in Hi by done. split; [|done|split; [|done]].
      * change (passed (tm_input t) = tm_taken t ++ (rev_fifo (tm_fifos t) ++ [ch]) ++ passed buf). unfold passed. by rewrite Hi, <- !app_assoc.
      * change (length (rev_fifo (tm_fifos t) ++ [ch]) <= CHAR_FIFO_CAPACITY)%nat. rewrite length_app. cbn [length]. lia.
  - unfold terminal_send. destruct (send_fifo (tm_fifos t)) as [|ch rest] eqn:E; [done|]. intros [= <-].
    split; [done| |split; [done|]].
    + change (tm_written t = (tm_sent t ++ [ch]) ++ rest). by rewrite Ho, <- app_assoc.
    + change (length rest <= CHAR_FIFO_CAPACITY)%nat. cbn [length] in Hs. lia.
  - unfold terminal_write, charfifo_filter. destruct (negb _).
    + destruct (rev_fifo (tm_fifos t)) as [|ch rest] eqn:E; [done|]. mstep. intros [= <-].
      split; [|done|split; [|done]].
      * change (passed (tm_input t) = (tm_taken t ++ [ch]) ++ rest ++ passed (tm_buf t)). by rewrite Hi, <- app_assoc.
      * change (length rest <= CHAR_FIFO_CAPACITY)%nat. cbn [length] in Hr. lia.
    + destruct (Nat.ltb_spec (length (send_fifo (tm_fifos t))) CHAR_FIFO_CAPACITY); [|done]. mstep. intros [= <-].
      split; [done| |split; [done|]].
      * change (tm_written t ++ [to_char value] = tm_sent t ++ send_fifo (tm_fifos t) ++ [to_char value]). by rewrite Ho, <- app_assoc.
      * change (length (send_fifo (tm_fifos t) ++ [to_char value]) <= CHAR_FIFO_CAPACITY)%nat. rewrite length_app. cbn [length]. lia.
Qed.

Lemma terminal_run_inv es t t' : terminal_inv t -> terminal_run es t = Some t' -> terminal_inv t'.
Proof.
  revert t. induction es as [|e es IH]; intros t I E; cbn [terminal_run] in E; [by injection E as <-|].
  apply bind_Some in E as (t1 & E1 & E). apply (IH t1); [|done]. by apply (terminal_step_inv e t).
Qed.

(** C39: the terminal keeps the characters and their order, however its threads
    and the program take turns: what came in over the connection, but for
    carriage returns, is what the program has taken followed by what waits in the
    queue and the buffer; what the program wrote is what has gone out followed by
    what waits; and no queue exceeds its capacity. *)
Theorem terminal_lossless es t :
  terminal_run es terminal_new = Some t ->
  passed (tm_input t) = tm_taken t ++ rev_fifo (tm_fifos t) ++ passed (tm_buf t) /\
  tm_written t = tm_sent t ++ send_fifo (tm_fifos t) /\
  (length (rev_fifo (tm_fifos t)) <= CHAR_FIFO_CAPACITY)%nat /\ (length (send_fifo (tm_fifos t)) <= CHAR_FIFO_CAPACITY)%nat.
Proof.
  intros E. destruct (terminal_run_inv es terminal_new t) as [Hi Ho [Hr Hs]]; [|done|done].
  split; try done. unfold CHAR_FIFO_CAPACITY. cbn. lia.
Qed.

(** "hi\r" comes in; the program takes the first letter and answers "o". *)
Lemma terminal_lossless_witness :
  exists t, terminal_run [te_receive [104; 105; 13]; te_pass; te_write 0x80000000; te_pass; te_write 111; te_pass; te_send] terminal_new = Some t /\
    tm_taken t = [104] /\ rev_fifo (tm_fifos t) = [105] /\ tm_sent t = [111] /\
    passed (tm_input t) = tm_taken t ++ rev_fifo (tm_fifos t) ++ passed (tm_buf t).
Proof.
  destruct (terminal_run [te_receive [104; 105; 13]; te_pass; te_write 0x80000000; te_pass; te_write 111; te_pass; te_send] terminal_new)
    as [t|] eqn:E; [|discriminate E].
  exists t. split; [reflexivity|]. pose proof (proj1 (terminal_lossless _ t E)) as H. vm_compute in E. injection E as <-.
  split; [reflexivity|]. split; [reflexivity|]. split; [reflexivity|]. exact H.
Defined.
