(* ===== verification/InterruptInterface.v ===== *)
(** The interrupt controller [component::interrupt_interface] of
    [component/interrupt_interface.h]: three pending lines, their enables in
    [mie] and [mstatus], the priority among them, and the acknowledgements
    that the commit stage returns. *)

From Stdlib Require Import ZArith Lia.
From stdpp Require Import base numbers list option tactics gmap.
From S2P Require Import Prelude Common CsrFile.

Local Open Scope Z_scope.

Inductive int_sync_request := int_req_set_ack (cause : riscv_interrupt_t).

(** The member [csr_file] is a pointer to the register file: the functions
    that use it take the file as an argument. *)
Record interrupt_interface := mk_int {
  int_sync_request_q : list int_sync_request;
  int_meip : bool;
  int_msip : bool;
  int_mtip : bool;
  mei_ack : bool;
  msi_ack : bool;
  mti_ack : bool
}.

#[export] Instance interrupt_interface_eta : Eta interrupt_interface := fun r =>
  mk_int (int_sync_request_q r) (int_meip r) (int_msip r) (int_mtip r) (mei_ack r) (msi_ack r) (mti_ack r).

Definition int_new : interrupt_interface := mk_int [] false false false false false false.

Definition int_reset (i : interrupt_interface) : interrupt_interface :=
  i <| mei_ack := false |> <| msi_ack := false |> <| mti_ack := false |>.

Definition int_get_cause (i : interrupt_interface) (f : csrfile) : option (option riscv_interrupt_t) :=
  mie_value ← csrfile_read_sys f CSR_MIE;
  mstatus_value ← csrfile_read_sys f CSR_MSTATUS;
  let mie := csr_load (csr_new mie) mie_value in
  let mstatus := csr_load (csr_new mstatus) mstatus_value in
  Some (if negb (mstatus_get_mie mstatus) then None
        else if int_meip i && mie_get_meie mie then Some machine_external
        else if int_msip i && mie_get_msie mie then Some machine_software
        else if int_mtip i && mie_get_mtie mie then Some machine_timer
        else None).

Definition int_has_interrupt (i : interrupt_interface) (f : csrfile) : option bool :=
  mie_value ← csrfile_read_sys f CSR_MIE;
  mstatus_value ← csrfile_read_sys f CSR_MSTATUS;
  let mie := csr_load (csr_new mie) mie_value in
  let mstatus := csr_load (csr_new mstatus) mstatus_value in
  Some (mstatus_get_mie mstatus &&
        ((int_meip i && mie_get_meie mie) || (int_msip i && mie_get_msie mie) || (int_mtip i && mie_get_mtie mie))).

Definition int_set_pending (i : interrupt_interface) (cause : riscv_interrupt_t) (pending : bool)
    : interrupt_interface :=
  match cause with
  | machine_external => i <| int_meip := pending |>
  | machine_software => i <| int_msip := pending |>
  | machine_timer => i <| int_mtip := pending |>
  | _ => i
  end.

Definition int_set_ack (i : interrupt_interface) (cause : riscv_interrupt_t) : interrupt_interface :=
  match cause with
  | machine_external => i <| mei_ack := true |>
  | machine_software => i <| msi_ack := true |>
  | machine_timer => i <| mti_ack := true |>
  | _ => i
  end.

Definition int_set_ack_sync (i : interrupt_interface) (cause : riscv_interrupt_t) : interrupt_interface :=
  i <| int_sync_request_q ::= fun l => l ++ [int_req_set_ack cause] |>.

Definition int_get_ack (i : interrupt_interface) (cause : riscv_interrupt_t) : bool :=
  match cause with
  | machine_external => mei_ack i
  | machine_software => msi_ack i
  | machine_timer => mti_ack i
  | _ => false
  end.

Definition int_run (i : interrupt_interface) (f : csrfile) : option (interrupt_interface * csrfile) :=
  let i := i <| mei_ack := false |> <| msi_ack := false |> <| mti_ack := false |> in
  mip_value ← csrfile_read_sys f CSR_MIP;
  let mip := csr_load (csr_new mip) mip_value in
  let mip := mip_set_meip mip (int_meip i) in
  let mip := mip_set_msip mip (int_msip i) in
  let mip := mip_set_mtip mip (int_mtip i) in
  Some (i, csrfile_write_sys_sync f CSR_MIP (csr_get_value mip)).

Fixpoint int_sync_loop (i : interrupt_interface) (reqs : list int_sync_request) : interrupt_interface :=
  match reqs with
  | [] => i
  | int_req_set_ack cause :: reqs => int_sync_loop (int_set_ack (i <| int_sync_request_q := reqs |>) cause) reqs
  end.

Definition int_sync (i : interrupt_interface) : interrupt_interface := int_sync_loop i (int_sync_request_q i).

(** * Properties *)

(** The line and the enable bit of an interrupt. *)
Definition int_pending (i : interrupt_interface) (c : riscv_interrupt_t) : bool :=
  match c with
  | machine_external => int_meip i
  | machine_software => int_msip i
  | machine_timer => int_mtip i
  | _ => false
  end.

(** The machine-mode interrupts, highest priority first. *)
Definition int_priority : list riscv_interrupt_t := [machine_external; machine_software; machine_timer].

(** Pending, and enabled in [mie]: the bit of [mie] is the interrupt code. *)
Definition int_enabled (i : interrupt_interface) (mie_value : Z) (c : riscv_interrupt_t) : Prop :=
  int_pending i c && Z.testbit mie_value (interrupt_code c) = true.

#[export] Instance int_enabled_dec i v c : Decision (int_enabled i v c).
Proof. unfold int_enabled. apply _. Defined.

(** The machine has its interrupt registers. *)
Definition int_regs (f : csrfile) (mie_value mstatus_value : Z) : Prop :=
  csrfile_read_sys f CSR_MIE = Some mie_value /\ csrfile_read_sys f CSR_MSTATUS = Some mstatus_value.

Lemma csr_getbit_load k v b : 0 <= b < 32 -> csr_getbit (csr_load (csr_new k) v) b = Z.testbit v b.
Proof. intros. by rewrite csr_getbit_testbit. Qed.

(** The interrupt taken.  With interrupts globally enabled ([mstatus] bit
    3) the cause is the first of external, software, timer that is pending
    and enabled in [mie]; otherwise there is none.  [has_interrupt] holds
    exactly when there is a cause. *)
Theorem int_get_cause_priority i f mie_value mstatus_value :
  int_regs f mie_value mstatus_value ->
  int_get_cause i f =
    Some (if Z.testbit mstatus_value 3 then head (filter (int_enabled i mie_value) int_priority) else None) /\
  int_has_interrupt i f = (fun c => bool_decide (is_Some c)) <$> int_get_cause i f.
Proof.
  intros [H1 H2].
  assert (int_get_cause i f =
    Some (if Z.testbit mstatus_value 3 then head (filter (int_enabled i mie_value) int_priority) else None)) as Hc.
  { unfold int_get_cause. rewrite H1, H2. cbn [mbind option_bind].
    unfold mstatus_get_mie, mie_get_meie, mie_get_msie, mie_get_mtie. rewrite !csr_getbit_load by lia.
    destruct (Z.testbit mstatus_value 3); [|done]. cbn [negb]. do 1 f_equal.
    unfold int_priority, int_enabled. rewrite !filter_cons, filter_nil. cbn [int_pending interrupt_code].
    repeat case_decide; try done;
      destruct (int_meip i && _), (int_msip i && _), (int_mtip i && _); done. }
  split; [done|]. rewrite Hc. unfold int_has_interrupt. rewrite H1, H2. cbn [mbind option_bind fmap option_fmap option_map].
  unfold mstatus_get_mie, mie_get_meie, mie_get_msie, mie_get_mtie. rewrite !csr_getbit_load by lia.
  destruct (Z.testbit mstatus_value 3); [|done]. cbn [andb]. f_equal.
  unfold int_priority, int_enabled. rewrite !filter_cons, filter_nil. cbn [int_pending interrupt_code].
  repeat case_decide; cbn;
    destruct (int_meip i && _), (int_msip i && _), (int_mtip i && _); try done;
    rewrite bool_decide_false by (by intros [? ?]); done.
Qed.

Definition int_demo : interrupt_interface := mk_int [] false true true false false false.

Definition int_demo_file : csrfile :=
  mk_csrfile [] (<[CSR_MIE := mk_csr_item false (mk_csr mie 0x880)]>
                   (<[CSR_MSTATUS := mk_csr_item false (mk_csr mstatus 0x8)]>
                     (<[CSR_MIP := mk_csr_item false (mk_csr mip 0x800)]> ∅))) (mk_char_fifos [] []).

(** Software and timer pending, only the timer enabled. *)
Lemma int_get_cause_priority_witness :
  int_get_cause int_demo int_demo_file = Some (Some machine_timer) /\
  int_has_interrupt int_demo int_demo_file = Some true.
Proof.
  destruct (int_get_cause_priority int_demo int_demo_file 0x880 0x8) as [H1 H2].
  - split; vm_compute; reflexivity.
  - split; [rewrite H1; vm_compute; reflexivity|rewrite H2, H1; vm_compute; reflexivity].
Defined.

(** The value of [mip] with the three lines in their bits. *)
Definition mip_of_lines (i : interrupt_interface) : Z :=
  bit_of (int_meip i) * 2 ^ 11 + bit_of (int_mtip i) * 2 ^ 7 + bit_of (int_msip i) * 2 ^ 3.

Lemma mip_of_lines_bits i b :
  0 <= b < 32 ->
  Z.testbit (mip_of_lines i) b = (int_meip i && (b =? 11)) || (int_mtip i && (b =? 7)) || (int_msip i && (b =? 3)).
Proof.
  intros Hb.
  assert (b ∈ upto 32) as Hin by (by apply elem_of_upto). revert Hin. clear Hb. revert b.
  apply Forall_forall. unfold mip_of_lines.
  destruct (int_meip i), (int_mtip i), (int_msip i); vm_compute; repeat constructor.
Qed.

Lemma z_eq_bits32 x y : is_u32 x -> is_u32 y -> (forall b, 0 <= b < 32 -> Z.testbit x b = Z.testbit y b) -> x = y.
Proof.
  intros Hx Hy H. apply Z.bits_inj'. intros b Hb. destruct (decide (b < 32)); [apply H; lia|].
  by rewrite !(testbit_high 32) by (done || lia).
Qed.

Lemma csr_setbit_u32 c b v : is_u32 (csr_value c) -> 0 <= b < 32 -> csr_class c = mip ->
  is_u32 (csr_value (csr_setbit c b v)).
Proof.
  intros Hc Hb Hk. unfold csr_setbit, csr_write, csr_read. cbn. rewrite Hk. cbn. apply land_range; [lia| |lia].
  apply lor_range; [lia| |apply u32_range]. apply land_range; [lia|done|].
  unfold not32. pose proof (u32_range (Z.shiftl 1 b)). unfold shl32. lia.
Qed.

(** [run] publishes the pending lines.  The request it queues sets [mip]
    to the three lines in bits 11 (external), 7 (timer) and 3 (software)
    whatever [mip] held before, and applying it makes [mip] read that value;
    the acknowledgements of the last cycle are withdrawn. *)
Theorem int_run_publishes i f it :
  csr_map_table f !! CSR_MIP = Some it -> csr_class (csr it) = mip -> is_u32 (csr_value (csr it)) ->
  exists i' f', int_run i f = Some (i', csrfile_write_sys_sync f CSR_MIP (mip_of_lines i)) /\
    csrfile_sync_one f (csr_req_write_sys CSR_MIP (mip_of_lines i)) = Some f' /\
    csrfile_read f' CSR_MIP = Some (mip_of_lines i) /\
    (forall c, int_pending i' c = int_pending i c) /\ (forall c, int_get_ack i' c = false).
Proof.
  intros Hit Hk Hv. unfold int_run, csrfile_read_sys, csrfile_item_read. rewrite Hit.
  cbn [mbind option_bind]. rewrite Hk. rewrite decide_False by done. unfold csr_read.
  set (v0 := csr_value (csr it)) in *. cbn [int_meip int_msip int_mtip upd].
  assert (forall b, 0 <= b < 32 -> Z.testbit (mip_of_lines i) b = Z.testbit 0x888 b && Z.testbit (mip_of_lines i) b) as Hmask.
  { intros b Hb. assert (b ∈ upto 32) as Hin by (by apply elem_of_upto). revert Hin. clear Hb. revert b.
    apply Forall_forall. unfold mip_of_lines.
    destruct (int_meip i), (int_mtip i), (int_msip i); vm_compute; repeat constructor. }
  assert (is_u32 (mip_of_lines i)) as Hm32
    by (unfold is_u32, mip_of_lines; destruct (int_meip i), (int_mtip i), (int_msip i); cbn; lia).
  set (m0 := csr_load (csr_new mip) v0).
  assert (csr_get_value (mip_set_mtip (mip_set_msip (mip_set_meip m0 (int_meip i)) (int_msip i)) (int_mtip i)) =
          mip_of_lines i) as Hval.
  { unfold csr_get_value, mip_set_mtip, mip_set_msip, mip_set_meip.
    assert (is_u32 (csr_value (csr_setbit m0 11 (int_meip i)))) as U1 by (apply csr_setbit_u32; done || lia).
    assert (is_u32 (csr_value (csr_setbit (csr_setbit m0 11 (int_meip i)) 3 (int_msip i)))) as U2
      by (apply csr_setbit_u32; done || lia).
    apply z_eq_bits32; [apply csr_setbit_u32; done || lia|done|].
    intros b Hb. rewrite !csr_setbit_bits by (done || lia). rewrite mip_of_lines_bits by lia. cbn [csr_class csr_setbit csr_write upd m0 csr_load csr_new].
    change (csr_mask (csr_class m0)) with 0x888. 
    assert (Z.testbit 0x888 b = (b =? 11) || (b =? 7) || (b =? 3)) as Hb888.
    { clear -Hb. assert (b ∈ upto 32) as Hin by (by apply elem_of_upto). revert Hin. clear Hb. revert b.
      apply Forall_forall. vm_compute. repeat constructor. }
    cbn. rewrite Hb888. repeat case_decide; subst; bcase; try lia; cbn;
      destruct (int_meip i), (int_mtip i), (int_msip i); done. }
  fold m0. rewrite Hval. clear Hval.
  assert (csr_filter mip (mip_of_lines i) = mip_of_lines i) as Hfil.
  { unfold csr_filter. apply z_eq_bits32; [apply land_range; [lia|done|lia]|done|].
    intros b Hb. rewrite Z.land_spec, andb_comm. symmetry. by apply Hmask. }
  eexists _, _. split; [reflexivity|]. cbn [csrfile_sync_one]. unfold csrfile_write_sys. rewrite Hit.
  cbn [mbind option_bind]. unfold csrfile_item_write. rewrite Hk, decide_False by done. split; [reflexivity|].
  split_and!.
  - unfold csrfile_read, csrfile_item_read. cbn. rewrite lookup_insert_eq. cbn.
    rewrite Hk, decide_False by done. unfold csr_read. f_equal. exact Hfil.
  - by intros [].
  - by intros [].
Qed.

Lemma int_run_publishes_witness :
  exists i' f', int_run int_demo int_demo_file = Some (i', csrfile_write_sys_sync int_demo_file CSR_MIP 0x88) /\
    csrfile_sync_one int_demo_file (csr_req_write_sys CSR_MIP 0x88) = Some f' /\
    csrfile_read f' CSR_MIP = Some 0x88.
Proof.
  destruct (int_run_publishes int_demo int_demo_file (mk_csr_item false (mk_csr mip 0x800)))
    as (i' & f' & H1 & H2 & H3 & _).
  - vm_compute. reflexivity.
  - reflexivity.
  - unfold is_u32. simpl. lia.
  - exists i', f'. split; [exact H1|]. split; [exact H2|exact H3].
Defined.
