(* ===== verification/Bus.v ===== *)
(** The memory-mapped devices: [component::slave_base]
    ([component/slave_base.h]) with its two subclasses, the memory
    ([component/slave/memory.h]) and the core-local interruptor
    ([component/slave/clint.h]), and the [component::bus] ([component/bus.h])
    that routes accesses to them and defers writes to the end of the cycle. *)

From Stdlib Require Import ZArith Lia.
From stdpp Require Import base numbers list option tactics.
From S2P Require Import Prelude Common CsrFile InterruptInterface.

Local Open Scope Z_scope.

(** * Devices *)

Record clint_t := mk_clint { clint_msip : bool; mtimecmp : Z; mtime : Z }.

#[export] Instance clint_eta : Eta clint_t := fun r => mk_clint (clint_msip r) (mtimecmp r) (mtime r).

(** The subclasses of [slave_base] with their members; [mem] is the byte
    array of the memory. *)
Inductive device :=
| dev_memory (mem : list Z)
| dev_clint (c : clint_t).

Record slave := mk_slave {
  sl_size : Z;
  test_mode : bool;
  has_error : bool;
  sl_dev : device
}.

#[export] Instance slave_eta : Eta slave := fun r => mk_slave (sl_size r) (test_mode r) (has_error r) (sl_dev r).

Definition slave_new (d : device) : slave := mk_slave 0 false false d.

(** [init] with the virtual [_init]. *)
Definition slave_init (s : slave) (size : Z) : slave :=
  let s := s <| sl_size := size |> in
  match sl_dev s with
  | dev_memory _ => s <| sl_dev := dev_memory (repeat 0 (Z.to_nat size)) |>
  | dev_clint _ => s
  end.

(** [reset] with the virtual [_reset]: the memory keeps its contents. *)
Definition slave_reset (s : slave) : slave :=
  match sl_dev s with
  | dev_memory _ => s
  | dev_clint _ => s <| sl_dev := dev_clint (mk_clint false 0 0) |>
  end.

Definition slave_check (s : slave) (addr access_size : Z) : option (bool * slave) :=
  let misaligned := negb (Z.land addr (u32 (access_size - 1)) =? 0) in
  if negb (test_mode s) then
    _ ← assert (negb misaligned);
    _ ← assert (addr <? sl_size s);
    _ ← assert (access_size <=? sl_size s - addr);
    Some (negb (has_error s), s)
  else
    let s := if misaligned then s <| has_error := true |>
             else if negb (addr <? sl_size s) then s <| has_error := true |>
             else if negb (access_size <=? u32 (sl_size s - addr)) then s <| has_error := true |>
             else s in
    Some (negb (has_error s), s).

Definition slave_check_align (addr access_size : Z) : bool := Z.land addr (u32 (access_size - 1)) =? 0.

Definition slave_check_boundary (s : slave) (addr access_size : Z) : bool :=
  (addr <? sl_size s) && (access_size <=? u32 (sl_size s - addr)).

Definition slave_entry_test_mode (s : slave) : slave := s <| test_mode := true |> <| has_error := false |>.

Definition slave_get_error (s : slave) : bool := has_error s.

Definition slave_clear_error (s : slave) : slave := s <| has_error := false |>.

(** ** Memory *)

(** [*(uintN_t * )(mem + addr) = value] and the corresponding read on a
    little-endian host, [n] bytes at a time. *)
Fixpoint mem_store (n : nat) (mem : list Z) (addr value : Z) : option (list Z) :=
  match n with
  | O => Some mem
  | S n => mem ← arr_set mem addr (u8 value); mem_store n mem (addr + 1) (Z.shiftr value 8)
  end.

Fixpoint mem_load (n : nat) (mem : list Z) (addr : Z) : option Z :=
  match n with
  | O => Some 0
  | S n => b ← arr_get mem addr; rest ← mem_load n mem (addr + 1); Some (Z.lor b (Z.shiftl rest 8))
  end.

Definition memory_write8 (mem : list Z) (addr value : Z) : option (list Z) := arr_set mem addr value.
Definition memory_write16 (mem : list Z) (addr value : Z) : option (list Z) := mem_store 2 mem addr value.
Definition memory_write32 (mem : list Z) (addr value : Z) : option (list Z) := mem_store 4 mem addr value.
Definition memory_read8 (mem : list Z) (addr : Z) : option Z := arr_get mem addr.
Definition memory_read16 (mem : list Z) (addr : Z) : option Z := mem_load 2 mem addr.
Definition memory_read32 (mem : list Z) (addr : Z) : option Z := mem_load 4 mem addr.

(** ** The core-local interruptor *)

Definition MSIP_ADDR : Z := 0x0.
Definition MTIMECMP_ADDR : Z := 0x4000.
Definition MTIME_ADDR : Z := 0xBFF8.

Definition clint_write32 (c : clint_t) (addr value : Z) : clint_t :=
  if addr =? MSIP_ADDR then c <| clint_msip := negb (Z.land value 0x01 =? 0) |>
  else if addr =? MTIMECMP_ADDR then
    c <| mtimecmp := Z.lor (Z.land (mtimecmp c) 0xFFFFFFFF00000000) value |>
  else if addr =? MTIMECMP_ADDR + 4 then
    c <| mtimecmp := Z.lor (Z.land (mtimecmp c) 0xFFFFFFFF) (u64 (Z.shiftl value 32)) |>
  else if addr =? MTIME_ADDR then
    c <| mtime := Z.lor (Z.land (mtime c) 0xFFFFFFFF00000000) value |>
  else if addr =? MTIME_ADDR + 4 then
    c <| mtime := Z.lor (Z.land (mtime c) 0xFFFFFFFF) (u64 (Z.shiftl value 32)) |>
  else c.

Definition clint_read32 (c : clint_t) (addr : Z) : Z :=
  if addr =? MSIP_ADDR then bit_of (clint_msip c)
  else if addr =? MTIMECMP_ADDR then u32 (Z.land (mtimecmp c) 0xFFFFFFFF)
  else if addr =? MTIMECMP_ADDR + 4 then u32 (Z.shiftr (mtimecmp c) 32)
  else if addr =? MTIME_ADDR then u32 (Z.land (mtime c) 0xFFFFFFFF)
  else if addr =? MTIME_ADDR + 4 then u32 (Z.shiftr (mtime c) 32)
  else 0.

Definition clint_run_pre (c : clint_t) (i : interrupt_interface) : interrupt_interface :=
  int_set_pending (int_set_pending i machine_timer (mtimecmp c <=? mtime c)) machine_software (clint_msip c).

Definition clint_run_post (c : clint_t) : clint_t := c <| mtime := u64 (mtime c + 1) |>.

(** ** Checked accesses *)

Inductive access_width := W8 | W16 | W32.

Definition width_bytes (w : access_width) : Z := match w with W8 => 1 | W16 => 2 | W32 => 4 end.

(** The virtual [_write8], [_write16] and [_write32]: the interruptor has
    32-bit registers only. *)
Definition device_write (w : access_width) (d : device) (addr value : Z) : option device :=
  match d, w with
  | dev_memory mem, W8 => mem ← memory_write8 mem addr value; Some (dev_memory mem)
  | dev_memory mem, W16 => mem ← memory_write16 mem addr value; Some (dev_memory mem)
  | dev_memory mem, W32 => mem ← memory_write32 mem addr value; Some (dev_memory mem)
  | dev_clint c, W32 => Some (dev_clint (clint_write32 c addr value))
  | dev_clint c, _ => Some d
  end.

Definition device_read (w : access_width) (d : device) (addr : Z) : option Z :=
  match d, w with
  | dev_memory mem, W8 => memory_read8 mem addr
  | dev_memory mem, W16 => memory_read16 mem addr
  | dev_memory mem, W32 => memory_read32 mem addr
  | dev_clint c, W32 => Some (clint_read32 c addr)
  | dev_clint c, _ => Some 0
  end.

(** [write8], [write16], [write32] of [slave_base], the value being of the
    width [w]. *)
Definition slave_write (w : access_width) (s : slave) (addr value : Z) : option slave :=
  '(ok, s) ← slave_check s addr (width_bytes w);
  if (ok : bool) then d ← device_write w (sl_dev s) addr value; Some (s <| sl_dev := d |>) else Some s.

Definition slave_read (w : access_width) (s : slave) (addr : Z) : option (Z * slave) :=
  '(ok, s) ← slave_check s addr (width_bytes w);
  if (ok : bool) then v ← device_read w (sl_dev s) addr; Some (v, s) else Some (0, s).

(** * The bus *)

Record slave_info_t := mk_slave_info { si_base : Z; si_size : Z; si_slave : slave }.

#[export] Instance slave_info_eta : Eta slave_info_t := fun r => mk_slave_info (si_base r) (si_size r) (si_slave r).

(** [sync_request_t]: the width is its [req], the value the union [arg2]. *)
Record bus_sync_request := mk_bus_req { br_req : access_width; br_arg1 : Z; br_arg2 : Z }.

Record bus := mk_bus {
  bus_sync_request_q : list bus_sync_request;
  slave_info_list : list slave_info_t
}.

#[export] Instance bus_eta : Eta bus := fun r => mk_bus (bus_sync_request_q r) (slave_info_list r).

Definition bus_new : bus := mk_bus [] [].

Fixpoint check_addr_override (l : list slave_info_t) (base size : Z) : bool :=
  match l with
  | [] => false
  | s :: l =>
      if ((si_base s <=? base) && (base <? u32 (si_base s + si_size s))) ||
         ((base <? si_base s) && (si_base s <? u32 (base + size)))
      then true else check_addr_override l base size
  end.

(** The index from [i] on, or -1. *)
Fixpoint find_slave_loop (l : list slave_info_t) (i addr : Z) : Z :=
  match l with
  | [] => -1
  | s :: l =>
      if (si_base s <=? addr) && (addr <? u32 (si_base s + si_size s)) then i
      else find_slave_loop l (i + 1) addr
  end.

Definition find_slave_info (b : bus) (addr : Z) : Z := find_slave_loop (slave_info_list b) 0 addr.

Definition bus_get_slave_obj (b : bus) (addr : Z) : option slave :=
  let slave_id := find_slave_info b addr in
  if 0 <=? slave_id then s ← arr_get (slave_info_list b) slave_id; Some (si_slave s) else None.

Definition convert_to_slave_addr (b : bus) (addr : Z) : option Z :=
  let slave_id := find_slave_info b addr in
  if 0 <=? slave_id then s ← arr_get (slave_info_list b) slave_id; Some (u32 (addr - si_base s)) else Some addr.

Definition bus_map (b : bus) (base size : Z) (s : slave) : option bus :=
  _ ← assert (negb (check_addr_override (slave_info_list b) base size));
  Some (b <| slave_info_list := slave_info_list b ++ [mk_slave_info base size (slave_init s size)] |>).

Definition bus_reset (b : bus) : bus := b <| bus_sync_request_q := [] |>.

Definition bus_check_align (addr access_size : Z) : bool := Z.land addr (u32 (access_size - 1)) =? 0.

Definition bus_write (w : access_width) (b : bus) (addr value : Z) : option bus :=
  let slave_index := find_slave_info b addr in
  if 0 <=? slave_index then
    s ← arr_get (slave_info_list b) slave_index;
    sl ← slave_write w (si_slave s) (u32 (addr - si_base s)) value;
    l ← arr_set (slave_info_list b) slave_index (s <| si_slave := sl |>);
    Some (b <| slave_info_list := l |>)
  else Some b.

Definition bus_read (w : access_width) (b : bus) (addr : Z) : option (Z * bus) :=
  let slave_index := find_slave_info b addr in
  if 0 <=? slave_index then
    s ← arr_get (slave_info_list b) slave_index;
    '(v, sl) ← slave_read w (si_slave s) (u32 (addr - si_base s));
    l ← arr_set (slave_info_list b) slave_index (s <| si_slave := sl |>);
    Some (v, b <| slave_info_list := l |>)
  else Some (0, b).

Definition bus_write8 (b : bus) (addr value : Z) : option bus := bus_write W8 b addr value.
Definition bus_write16 (b : bus) (addr value : Z) : option bus := bus_write W16 b addr value.
Definition bus_write32 (b : bus) (addr value : Z) : option bus := bus_write W32 b addr value.
Definition bus_read8 (b : bus) (addr : Z) : option (Z * bus) := bus_read W8 b addr.
Definition bus_read16 (b : bus) (addr : Z) : option (Z * bus) := bus_read W16 b addr.
Definition bus_read32 (b : bus) (addr : Z) : option (Z * bus) := bus_read W32 b addr.

Definition bus_push_request (b : bus) (w : access_width) (addr value : Z) : bus :=
  b <| bus_sync_request_q ::= fun l => l ++ [mk_bus_req w addr value] |>.

Definition bus_write8_sync (b : bus) (addr value : Z) : bus := bus_push_request b W8 addr value.
Definition bus_write16_sync (b : bus) (addr value : Z) : bus := bus_push_request b W16 addr value.
Definition bus_write32_sync (b : bus) (addr value : Z) : bus := bus_push_request b W32 addr value.

Fixpoint bus_sync_loop (b : bus) (reqs : list bus_sync_request) : option bus :=
  match reqs with
  | [] => Some b
  | t_req :: reqs =>
      b ← bus_write (br_req t_req) (b <| bus_sync_request_q := reqs |>) (br_arg1 t_req) (br_arg2 t_req);
      bus_sync_loop b reqs
  end.

Definition bus_sync (b : bus) : option bus := bus_sync_loop b (bus_sync_request_q b).

(** * Memory contents *)

Definition mem_ok (mem : list Z) : Prop := Forall (fun b => 0 <= b < 256) mem.

(** The byte at an address. *)
Definition mem_byte (mem : list Z) (a : Z) : Z := default 0 (arr_get mem a).

Lemma mem_byte_get mem a : 0 <= a < Z.of_nat (length mem) -> arr_get mem a = Some (mem_byte mem a).
Proof. intros H. unfold mem_byte. by destruct (arr_get_in_range mem a H) as [x ->]. Qed.

Lemma mem_byte_range mem a : mem_ok mem -> 0 <= mem_byte mem a < 256.
Proof.
  intros H. unfold mem_byte. destruct (arr_get mem a) as [x|] eqn:E; cbn; [|lia].
  apply arr_get_Some in E as [_ E]. by apply (Forall_lookup_1 _ _ _ _ H E).
Qed.

Lemma mem_store_spec n mem a v :
  0 <= a -> a + Z.of_nat n <= Z.of_nat (length mem) ->
  exists mem', mem_store n mem a v = Some mem' /\ length mem' = length mem /\ (mem_ok mem -> mem_ok mem') /\
    (forall i, mem_byte mem' i =
       if decide (a <= i < a + Z.of_nat n) then byte (i - a) v else mem_byte mem i).
Proof.
  revert mem a v. induction n as [|n IH]; intros mem a v Ha Hlen; cbn [mem_store].
  { exists mem. split_and!; try done. intros i. by rewrite decide_False by lia. }
  rewrite arr_set_eq by lia. cbn [mbind option_bind].
  destruct (IH (<[Z.to_nat a := u8 v]> mem) (a + 1) (Z.shiftr v 8)) as (mem' & -> & Hl & Hok & Hb);
    [lia|rewrite length_insert; lia|].
  exists mem'. split_and!; [done|by rewrite Hl, length_insert| |].
  - intros H. apply Hok. apply Forall_insert; [done|]. by apply (byte_range 0 v).
  - intros i. rewrite Hb. repeat case_decide; try lia.
    + unfold byte. rewrite Z.shiftr_shiftr by lia. do 2 f_equal. lia.
    + assert (i = a) as -> by lia. rewrite Z.sub_diag. unfold mem_byte.
      rewrite arr_get_lookup, list_lookup_insert_eq by lia. cbn. unfold byte. done.
    + unfold mem_byte. destruct (decide (0 <= i)); [|unfold arr_get; bcase; done || lia].
      rewrite !arr_get_lookup by lia. by rewrite list_lookup_insert_ne by lia.
Qed.

Lemma mem_load_spec n mem a :
  mem_ok mem -> 0 <= a -> a + Z.of_nat n <= Z.of_nat (length mem) ->
  exists x, mem_load n mem a = Some x /\ 0 <= x < 2 ^ (8 * Z.of_nat n) /\
    (forall k, 0 <= k < Z.of_nat n -> byte k x = mem_byte mem (a + k)).
Proof.
  intros Hok. revert a. induction n as [|n IH]; intros a Ha Hlen; cbn [mem_load].
  { exists 0. split_and!; [done..|lia]. }
  rewrite mem_byte_get by lia. cbn [mbind option_bind].
  destruct (IH (a + 1)) as (r & -> & Hr & Hb); [lia..|]. cbn [mbind option_bind].
  pose proof (mem_byte_range mem a Hok) as Hb0. eexists. split; [reflexivity|].
  change 256 with (2 ^ 8) in Hb0. rewrite lor_shiftl_add by lia.
  assert (2 ^ (8 * Z.of_nat (S n)) = 2 ^ 8 * 2 ^ (8 * Z.of_nat n)) as Hp
    by (rewrite <- Z.pow_add_r by lia; f_equal; lia).
  split; [lia|]. intros k Hk. unfold byte. destruct (decide (k = 0)) as [->|].
  - rewrite Z.mul_0_r, Z.shiftr_0_r, Z.add_0_r. unfold u8. rewrite Z.mod_add by lia. by apply Z.mod_small.
  - replace (8 * k) with (8 + 8 * (k - 1)) by lia. rewrite <- Z.shiftr_shiftr by lia.
    rewrite (Z.shiftr_div_pow2 (_ + _)) by lia. rewrite Z.div_add, Z.div_small, Z.add_0_l by lia.
    specialize (Hb (k - 1)). unfold byte in Hb. rewrite Hb by lia. f_equal. lia.
Qed.

Lemma mem_load_store n mem a v mem' :
  mem_ok mem -> 0 <= a -> a + Z.of_nat n <= Z.of_nat (length mem) -> 0 <= v < 2 ^ (8 * Z.of_nat n) ->
  mem_store n mem a v = Some mem' -> mem_load n mem' a = Some v.
Proof.
  intros Hok Ha Hlen Hv E. destruct (mem_store_spec n mem a v Ha Hlen) as (m & E' & Hl & Hok' & Hb).
  rewrite E in E'. simplify_eq.
  destruct (mem_load_spec n m a (Hok' Hok) Ha) as (x & -> & Hx & Hbx); [lia|].
  f_equal. apply (bytes_inj (Z.of_nat n)); [lia..|]. intros k Hk. rewrite Hbx, Hb by lia.
  rewrite decide_True by lia. f_equal. lia.
Qed.

(** * The bus as a flat byte memory *)

Definition in_region (s : slave_info_t) (a : Z) : Prop := si_base s <= a < si_base s + si_size s.

(** A device mapped outside test mode; the region ends below the top of the
    address space. *)
Definition slave_ok (s : slave_info_t) : Prop :=
  let sl := si_slave s in
  0 <= si_base s /\ 0 < si_size s /\ si_base s + si_size s < 2 ^ 32 /\ sl_size sl = si_size s /\
  test_mode sl = false /\ has_error sl = false /\
  match sl_dev sl with dev_memory mem => mem_ok mem /\ Z.of_nat (length mem) = si_size s | dev_clint _ => True end.

Record bus_ok (b : bus) : Prop := {
  bus_slaves : Forall slave_ok (slave_info_list b);
  bus_disjoint i j si sj a :
    slave_info_list b !! i = Some si -> slave_info_list b !! j = Some sj ->
    in_region si a -> in_region sj a -> i = j
}.

Lemma find_slave_loop_spec l i0 addr :
  Forall slave_ok l ->
  (exists k s, find_slave_loop l i0 addr = i0 + Z.of_nat k /\ l !! k = Some s /\ in_region s addr) \/
  (find_slave_loop l i0 addr = -1 /\ forall k s, l !! k = Some s -> ~ in_region s addr).
Proof.
  revert i0. induction l as [|s l IH]; intros i0 Hok; [by right|].
  apply Forall_cons_iff in Hok as [(H1 & H2 & H3 & _) Hok]. cbn [find_slave_loop].
  rewrite u32_small by lia.
  destruct (Z.leb_spec (si_base s) addr), (Z.ltb_spec addr (si_base s + si_size s)); cbn [andb];
    [left; exists 0%nat, s; unfold in_region; rewrite Z.add_0_r; done|..].
  all: destruct (IH (i0 + 1) Hok) as [(k & s' & -> & Hk & Hr)|[-> Hno]];
    [left; exists (S k), s'; split_and!; [lia|done|done]
    |right; split; [done|]; intros [|k] s' Hk; cbn in Hk; [simplify_eq; unfold in_region; lia|by eapply Hno]].
Qed.

Lemma find_slave_in b addr k s :
  bus_ok b -> slave_info_list b !! k = Some s -> in_region s addr -> find_slave_info b addr = Z.of_nat k.
Proof.
  intros [Hok Hd] Hk Hr. unfold find_slave_info.
  destruct (find_slave_loop_spec _ 0 addr Hok) as [(j & s' & -> & Hj & Hr')|[_ Hno]];
    [|by destruct (Hno k s)]. f_equal. by rewrite (Hd j k s' s addr).
Qed.

(** The byte at a bus address; addresses outside the memories have none. *)
Definition bus_byte (b : bus) (a : Z) : Z :=
  match arr_get (slave_info_list b) (find_slave_info b a) with
  | Some s => match sl_dev (si_slave s) with dev_memory mem => mem_byte mem (a - si_base s) | _ => 0 end
  | None => 0
  end.

Lemma bus_byte_in b k s mem a :
  bus_ok b -> slave_info_list b !! k = Some s -> sl_dev (si_slave s) = dev_memory mem -> in_region s a ->
  bus_byte b a = mem_byte mem (a - si_base s).
Proof.
  intros Hok Hk Hd Hr. unfold bus_byte. rewrite (find_slave_in b a k s) by done.
  by rewrite arr_get_lookup, Nat2Z.id, Hk, Hd by lia.
Qed.

(** An aligned access that lies inside a memory. *)
Definition memory_access (b : bus) (w : access_width) (addr : Z) : Prop :=
  exists k s mem, slave_info_list b !! k = Some s /\ sl_dev (si_slave s) = dev_memory mem /\
    si_base s <= addr /\ addr + width_bytes w <= si_base s + si_size s /\
    (addr - si_base s) mod width_bytes w = 0.

Lemma slave_check_ok s addr w :
  test_mode s = false -> has_error s = false -> 0 <= addr -> addr + width_bytes w <= sl_size s ->
  addr mod width_bytes w = 0 -> slave_check s addr (width_bytes w) = Some (true, s).
Proof.
  intros Ht He Ha Hs Hm. unfold slave_check. rewrite Ht, He. cbn [negb].
  assert (Z.land addr (u32 (width_bytes w - 1)) = 0) as ->.
  { rewrite u32_small by (destruct w; simpl; lia).
    destruct w; cbn [width_bytes] in *;
      [change (1 - 1) with (2 ^ 0 - 1)|change (2 - 1) with (2 ^ 1 - 1)|change (4 - 1) with (2 ^ 2 - 1)];
      by rewrite land_low by lia. }
  cbn [Z.eqb negb assert mbind option_bind].
  destruct (Z.ltb_spec addr (sl_size s)); [|destruct w; simpl in *; lia]. cbn [assert mbind option_bind].
  destruct (Z.leb_spec (width_bytes w) (sl_size s - addr)); [|lia]. done.
Qed.

Definition width_nat (w : access_width) : nat := match w with W8 => 1 | W16 => 2 | W32 => 4 end.

Lemma width_nat_bytes w : Z.of_nat (width_nat w) = width_bytes w.
Proof. by destruct w. Qed.

(** All widths are [n]-byte accesses. *)
Lemma device_write_memory w mem addr v :
  0 <= v < 2 ^ (8 * width_bytes w) ->
  device_write w (dev_memory mem) addr v = dev_memory <$> mem_store (width_nat w) mem addr v.
Proof.
  intros Hv. destruct w; cbn [device_write width_nat]; unfold memory_write8, memory_write16, memory_write32.
  - cbn [mem_store]. replace (u8 v) with v by (symmetry; apply Z.mod_small; simpl in Hv; lia).
    by destruct (arr_set mem addr v).
  - by destruct (mem_store 2 mem addr v).
  - by destruct (mem_store 4 mem addr v).
Qed.

Lemma device_read_memory w mem addr :
  mem_ok mem -> device_read w (dev_memory mem) addr = mem_load (width_nat w) mem addr.
Proof.
  intros Hok. destruct w; cbn [device_read width_nat]; unfold memory_read8, memory_read16, memory_read32; try done.
  cbn [mem_load]. destruct (arr_get mem addr); cbn; [|done]. by rewrite Z.lor_0_r.
Qed.

Lemma bus_read_memory b w addr :
  bus_ok b -> memory_access b w addr ->
  exists x, bus_read w b addr = Some (x, b) /\ 0 <= x < 2 ^ (8 * width_bytes w) /\
    (forall k, 0 <= k < width_bytes w -> byte k x = bus_byte b (addr + k)).
Proof.
  intros Hok (k & s & mem & Hk & Hd & H1 & H2 & Hal).
  assert (slave_ok s) as (S1 & S2 & S3 & S4 & S5 & S6 & S7) by (by apply (Forall_lookup_1 _ _ _ _ (bus_slaves b Hok) Hk)).
  rewrite Hd in S7. destruct S7 as [Hmok Hmlen].
  assert (in_region s addr) as Hr by (unfold in_region; destruct w; simpl in *; lia).
  unfold bus_read. rewrite (find_slave_in b addr k s) by done.
  destruct (Z.leb_spec 0 (Z.of_nat k)); [|lia]. rewrite arr_get_lookup, Nat2Z.id, Hk by lia. cbn [mbind option_bind].
  rewrite (u32_small (addr - si_base s)) by (unfold in_region in Hr; lia).
  unfold slave_read. rewrite slave_check_ok by (done || lia). cbn [mbind option_bind]. rewrite Hd.
  rewrite device_read_memory by done. pose proof (width_nat_bytes w) as Hw.
  destruct (mem_load_spec (width_nat w) mem (addr - si_base s)) as (x & -> & Hx & Hb); [done|lia|lia|].
  cbn [mbind option_bind]. exists x. split_and!.
  - apply lookup_lt_Some in Hk as Hlt. rewrite arr_set_eq by lia. cbn. rewrite Nat2Z.id.
    rewrite list_insert_id; [by destruct b|]. rewrite Hk. by destruct s.
  - lia.
  - rewrite <- Hw in *. lia.
  - intros j Hj. rewrite Hb by lia. rewrite (bus_byte_in b k s mem) by (done || unfold in_region; lia).
    f_equal. lia.
Qed.

Lemma bus_write_memory b w addr v :
  bus_ok b -> memory_access b w addr -> 0 <= v < 2 ^ (8 * width_bytes w) ->
  exists b', bus_write w b addr v = Some b' /\ bus_ok b' /\
    bus_sync_request_q b' = bus_sync_request_q b /\
    (forall a, bus_byte b' a = if decide (addr <= a < addr + width_bytes w) then byte (a - addr) v else bus_byte b a) /\
    (forall w' a, memory_access b' w' a <-> memory_access b w' a).
Proof.
  intros Hok (k & s & mem & Hk & Hd & H1 & H2 & Hal) Hv.
  assert (slave_ok s) as (S1 & S2 & S3 & S4 & S5 & S6 & S7) by (by apply (Forall_lookup_1 _ _ _ _ (bus_slaves b Hok) Hk)).
  rewrite Hd in S7. destruct S7 as [Hmok Hmlen].
  assert (in_region s addr) as Hr by (unfold in_region; destruct w; simpl in *; lia).
  unfold bus_write. rewrite (find_slave_in b addr k s) by done.
  destruct (Z.leb_spec 0 (Z.of_nat k)); [|lia]. rewrite arr_get_lookup, Nat2Z.id, Hk by lia. cbn [mbind option_bind].
  rewrite (u32_small (addr - si_base s)) by (unfold in_region in Hr; lia).
  unfold slave_write. rewrite slave_check_ok by (done || lia). cbn [mbind option_bind]. rewrite Hd.
  rewrite device_write_memory by done. pose proof (width_nat_bytes w) as Hw.
  destruct (mem_store_spec (width_nat w) mem (addr - si_base s) v) as (mem' & -> & Hl & Hmok' & Hb); [lia|lia|].
  cbn [mbind option_bind fmap option_fmap option_map]. apply lookup_lt_Some in Hk as Hlt.
  rewrite arr_set_eq by lia. rewrite Nat2Z.id. cbn [mbind option_bind]. eexists. split; [reflexivity|].
  set (s' := s <| si_slave := (si_slave s) <| sl_dev := dev_memory mem' |> |>).
  set (l' := <[k := s']> (slave_info_list b)).
  assert (slave_ok s') as Hs'.
  { unfold s', slave_ok. cbn. split_and!; try done; [by apply Hmok'|]. by rewrite Hl. }
  assert (forall j sj', l' !! j = Some sj' -> exists sj, slave_info_list b !! j = Some sj /\
    si_base sj' = si_base sj /\ si_size sj' = si_size sj /\
    (j = k -> sj' = s' /\ sj = s) /\ (j <> k -> sj' = sj)) as Hl'.
  { intros j sj' Hj. unfold l' in Hj. destruct (decide (j = k)) as [->|Hne].
    - rewrite list_lookup_insert_eq in Hj by done. simplify_eq. by exists s.
    - rewrite list_lookup_insert_ne in Hj by done. by exists sj'. }
  assert (bus_ok (b <| slave_info_list := l' |>)) as Hok'.
  { split; cbn.
    - by apply Forall_insert; [apply Hok|].
    - intros i j si sj a (si0 & Hi & Bi & Zi & _)%Hl' (sj0 & Hj & Bj & Zj & _)%Hl'. unfold in_region.
      rewrite Bi, Zi, Bj, Zj. by apply (bus_disjoint b Hok). }
  split_and!; [done|done| |].
  - intros a. destruct (find_slave_loop_spec (slave_info_list b) 0 a (bus_slaves b Hok)) as [(j & sj & Hfj & Hj & Hrj)|[Hfj Hno]].
    + destruct (decide (j = k)) as [->|Hne].
      * simplify_eq. rewrite (bus_byte_in b k s mem) by done.
        rewrite (bus_byte_in _ k s' mem') by (done || cbn; unfold l'; rewrite ?list_lookup_insert_eq; done).
        cbn. rewrite Hb. repeat case_decide; try lia; f_equal; lia.
      * assert (~ (addr <= a < addr + width_bytes w)) as Hout.
        { intros Ha. destruct Hne. apply (bus_disjoint b Hok j k sj s a); try done. unfold in_region. lia. }
        rewrite decide_False by done. unfold bus_byte.
        rewrite (find_slave_in b a j sj) by done.
        rewrite (find_slave_in _ a j sj) by (done || cbn; unfold l'; by rewrite list_lookup_insert_ne).
        rewrite !arr_get_lookup by lia. cbn. unfold l'. rewrite Nat2Z.id. by rewrite list_lookup_insert_ne.
    + rewrite decide_False by (intros Ha; apply (Hno k s Hk); unfold in_region; lia).
      unfold bus_byte. unfold find_slave_info at 2. rewrite Hfj.
      destruct (find_slave_loop_spec l' 0 a (bus_slaves _ Hok')) as [(j & sj' & _ & Hj & Hrj)|[Hf' _]].
      * apply Hl' in Hj as (sj & Hj & B & Z & _). unfold in_region in Hrj. rewrite B, Z in Hrj.
        by destruct (Hno j sj Hj).
      * unfold find_slave_info. cbn. by rewrite Hf'.
  - intros w' a. unfold memory_access. cbn. split.
    + intros (j & sj' & m & Hj & Hm & ?). apply Hl' in Hj as (sj & Hj & B & Z & Hjk & Hnjk).
      destruct (decide (j = k)) as [->|Hne].
      * destruct Hjk as [-> ->]; [done|]. exists k, s, mem. by rewrite <- B, <- Z.
      * rewrite Hnjk in * by done. by exists j, sj, m.
    + intros (j & sj & m & Hj & Hm & ?). unfold l'. destruct (decide (j = k)) as [->|Hne].
      * simplify_eq. exists k, s', mem'. by rewrite list_lookup_insert_eq.
      * exists j, sj, m. by rewrite list_lookup_insert_ne.
Qed.

(** C22: the bus is a byte memory.  On a well-formed bus, an aligned write of
    8, 16 or 32 bits into a memory succeeds, stores the bytes of the value
    little-endian at consecutive addresses and changes no other byte; an
    aligned read (of any width, not only the one written) returns the value
    made of the bytes at its addresses and changes nothing.  In particular a
    read returns the value last written. *)
Theorem bus_byte_memory b w addr v :
  bus_ok b -> memory_access b w addr -> 0 <= v < 2 ^ (8 * width_bytes w) ->
  exists b', bus_write w b addr v = Some b' /\ bus_ok b' /\
    bus_read w b' addr = Some (v, b') /\
    (forall w' a, memory_access b w' a ->
       exists x, bus_read w' b' a = Some (x, b') /\ 0 <= x < 2 ^ (8 * width_bytes w') /\
         (forall k, 0 <= k < width_bytes w' ->
            byte k x = if decide (addr <= a + k < addr + width_bytes w) then byte (a + k - addr) v
                       else bus_byte b (a + k))).
Proof.
  intros Hok Hacc Hv. destruct (bus_write_memory b w addr v Hok Hacc Hv) as (b' & E & Hok' & _ & Hb & Hacc').
  exists b'. split_and!; [done|done| |].
  - destruct (bus_read_memory b' w addr Hok') as (x & Er & Hx & Hbx); [by apply Hacc'|].
    rewrite Er. do 2 f_equal. assert (0 < width_bytes w) by (destruct w; simpl; lia).
    apply (bytes_inj (width_bytes w)); [lia|done|done|]. intros k Hk. rewrite Hbx, Hb by lia.
    rewrite decide_True by lia. f_equal. lia.
  - intros w' a Ha. destruct (bus_read_memory b' w' a Hok') as (x & Er & Hx & Hbx); [by apply Hacc'|].
    exists x. split_and!; try done; try lia. intros k Hk. rewrite Hbx, Hb by lia. done.
Qed.

(** ** Mapping devices *)

Lemma check_addr_override_spec l base size :
  Forall slave_ok l -> 0 <= base -> 0 < size -> base + size < 2 ^ 32 ->
  check_addr_override l base size = false ->
  forall k s a, l !! k = Some s -> in_region s a -> ~ (base <= a < base + size).
Proof.
  intros Hok Hb Hs Hbs. induction l as [|s0 l IH]; [done|].
  apply Forall_cons_iff in Hok as [(H1 & H2 & H3 & _) Hok]. cbn [check_addr_override].
  rewrite !u32_small by lia. intros Hc [|k] s a Hk Hr; cbn in Hk.
  - simplify_eq. unfold in_region in Hr. bcase; simpl in Hc; try done; lia.
  - destruct (_ || _) in Hc; [done|]. by apply (IH Hok Hc k s a).
Qed.

(** the address map.  Mapping a fresh device into a region the bus
    accepts keeps the bus well-formed, so that the regions stay pairwise
    disjoint and every address of the new region is routed to the new device;
    a region that overlaps a mapped one is refused by the assertion. *)
Theorem bus_map_disjoint b base size d :
  bus_ok b -> 0 <= base -> 0 < size -> base + size < 2 ^ 32 ->
  match bus_map b base size (slave_new d) with
  | Some b' =>
      bus_ok b' /\ (forall a, base <= a < base + size ->
        find_slave_info b' a = Z.of_nat (length (slave_info_list b))) /\
      (forall a, ~ (base <= a < base + size) -> find_slave_info b' a = find_slave_info b a)
  | None => exists k s a, slave_info_list b !! k = Some s /\ in_region s a /\ base <= a < base + size
  end.
Proof.
  intros Hok Hb Hs Hbs. unfold bus_map.
  destruct (check_addr_override (slave_info_list b) base size) eqn:Ec; cbn [negb assert mbind option_bind].
  - pose proof (bus_slaves b Hok) as Hall. induction (slave_info_list b) as [|s0 l IH]; [done|].
    apply Forall_cons_iff in Hall as [(H1 & H2 & H3 & _) Hall]. cbn [check_addr_override] in Ec.
    rewrite !u32_small in Ec by lia. destruct (_ || _) eqn:E0 in Ec.
    + exists 0%nat, s0, (Z.max base (si_base s0)). unfold in_region.
      split; [done|]. bcase; simpl in E0; try done; lia.
    + destruct (IH Ec Hall) as (k & s & a & Hk & ?). by exists (S k), s, a.
  - set (s' := mk_slave_info base size (slave_init (slave_new d) size)).
    set (l' := slave_info_list b ++ [s']). set (b' := b <| slave_info_list := l' |>).
    pose proof (check_addr_override_spec _ base size (bus_slaves b Hok) Hb Hs Hbs Ec) as Hdis.
    assert (slave_ok s') as Hs'.
    { unfold slave_ok, s', slave_init. destruct d; cbn; split_and!; try done.
      - apply Forall_forall. intros x ->%repeat_spec. lia.
      - rewrite repeat_length. lia. }
    assert (forall j sj, l' !! j = Some sj -> (slave_info_list b !! j = Some sj) \/
              (j = length (slave_info_list b) /\ sj = s')) as Hl'.
    { intros j sj Hj. apply lookup_app_Some in Hj as [Hj|[Hj1 Hj2]]; [by left|]. right.
      apply list_lookup_singleton_Some in Hj2 as [? ->]. split; [lia|done]. }
    assert (bus_ok b') as Hok'.
    { split.
      - apply Forall_app. split; [apply Hok|]. apply Forall_singleton. exact Hs'.
      - intros i j si sj a Hi Hj Ri Rj. apply Hl' in Hi as [Hi|[-> ->]]; apply Hl' in Hj as [Hj|[-> ->]]; try done.
        + by apply (bus_disjoint b Hok i j si sj a).
        + by destruct (Hdis i si a Hi Ri).
        + by destruct (Hdis j sj a Hj Rj). }
    split_and!; [done| |].
    + intros a Ha. apply (find_slave_in b' a _ s' Hok'); [|done].
      unfold b', l'. cbn. rewrite lookup_app_r, Nat.sub_diag by lia. done.
    + intros a Ha. unfold find_slave_info. cbn.
      destruct (find_slave_loop_spec (slave_info_list b) 0 a (bus_slaves b Hok)) as [(k & s & -> & Hk & Hr)|[-> Hno]].
      * rewrite Z.add_0_l. apply (find_slave_in b' a k s Hok'); [|done]. unfold b', l'. cbn.
        rewrite lookup_app_l by (by apply lookup_lt_Some in Hk). done.
      * destruct (find_slave_loop_spec l' 0 a (bus_slaves b' Hok')) as [(k & s & _ & Hk & Hr)|[-> _]]; [|done].
        apply Hl' in Hk as [Hk|[_ ->]]; [by destruct (Hno k s Hk)|by destruct Ha].
Qed.

(** ** Timer registers *)

Lemma clint_low old v : is_u64 old -> is_u32 v ->
  Z.lor (Z.land old 0xFFFFFFFF00000000) v = old / 2 ^ 32 * 2 ^ 32 + v.
Proof.
  unfold is_u64, is_u32. intros Ho Hv.
  assert (Z.land old 0xFFFFFFFF00000000 = Z.shiftl (old / 2 ^ 32) 32) as ->.
  { apply Z.bits_inj'. intros i Hi. rewrite Z.land_spec, Z.shiftl_spec by lia.
    change 0xFFFFFFFF00000000 with (Z.shiftl (Z.ones 32) 32). rewrite Z.shiftl_spec by lia.
    destruct (decide (i < 32)).
    - rewrite !(Z.testbit_neg_r _ (i - 32)) by lia. apply andb_false_r.
    - rewrite <- Z.shiftr_div_pow2, Z.shiftr_spec by lia. rewrite Z.sub_add, Z.testbit_ones by lia.
      destruct (decide (i < 64)).
      + replace (0 <=? i - 32) with true by (bcase; lia). replace (i - 32 <? 32) with true by (bcase; lia).
        apply andb_true_r.
      + rewrite (testbit_high 64 old) by lia. done. }
  rewrite Z.lor_comm, lor_shiftl_add by lia. lia.
Qed.

Lemma clint_high old v : is_u64 old -> is_u32 v ->
  Z.lor (Z.land old 0xFFFFFFFF) (u64 (Z.shiftl v 32)) = v * 2 ^ 32 + old mod 2 ^ 32.
Proof.
  unfold is_u64, is_u32. intros Ho Hv. rewrite u64_small by (rewrite Z.shiftl_mul_pow2 by lia; lia).
  change 0xFFFFFFFF with (2 ^ 32 - 1). rewrite land_low by lia.
  rewrite lor_shiftl_add by (try apply Z.mod_pos_bound; lia). lia.
Qed.

Lemma clint_write_lo c v : is_u64 (mtimecmp c) -> is_u32 v ->
  clint_write32 c MTIMECMP_ADDR v = mk_clint (clint_msip c) (mtimecmp c / 2 ^ 32 * 2 ^ 32 + v) (mtime c).
Proof. intros. rewrite <- clint_low by done. reflexivity. Qed.

Lemma clint_write_hi c v : is_u64 (mtimecmp c) -> is_u32 v ->
  clint_write32 c (MTIMECMP_ADDR + 4) v = mk_clint (clint_msip c) (v * 2 ^ 32 + mtimecmp c mod 2 ^ 32) (mtime c).
Proof. intros. rewrite <- clint_high by done. reflexivity. Qed.

(** The 64-bit timer registers behind 32-bit ports.  Writing the two
    halves of [mtimecmp] (in either order) sets it to their 64-bit value and
    both halves read back; the other registers are untouched.  At the start of
    the next cycle the timer interrupt is pending exactly when
    [mtime >= mtimecmp], and [mtime] advances modulo 2^64. *)
Theorem clint_timecmp c lo hi i :
  is_u64 (mtimecmp c) -> is_u32 lo -> is_u32 hi ->
  let c1 := clint_write32 (clint_write32 c MTIMECMP_ADDR lo) (MTIMECMP_ADDR + 4) hi in
  let c2 := clint_write32 (clint_write32 c (MTIMECMP_ADDR + 4) hi) MTIMECMP_ADDR lo in
  c1 = c2 /\ c1 = mk_clint (clint_msip c) (hi * 2 ^ 32 + lo) (mtime c) /\
  clint_read32 c1 MTIMECMP_ADDR = lo /\ clint_read32 c1 (MTIMECMP_ADDR + 4) = hi /\
  int_pending (clint_run_pre c1 i) machine_timer = (hi * 2 ^ 32 + lo <=? mtime c) /\
  int_pending (clint_run_pre c1 i) machine_software = clint_msip c /\
  mtime (clint_run_post c1) = (mtime c + 1) mod 2 ^ 64.
Proof.
  intros Ho Hlo Hhi.
  assert (clint_write32 (clint_write32 c MTIMECMP_ADDR lo) (MTIMECMP_ADDR + 4) hi =
          mk_clint (clint_msip c) (hi * 2 ^ 32 + lo) (mtime c)) as E1.
  { rewrite clint_write_lo by done.
    assert (is_u64 (mtimecmp c / 2 ^ 32 * 2 ^ 32 + lo)) as Hu.
    { unfold is_u64, is_u32 in *. pose proof (Z.div_mod (mtimecmp c) (2 ^ 32)).
      pose proof (Z.mod_pos_bound (mtimecmp c) (2 ^ 32)).
      assert (mtimecmp c / 2 ^ 32 < 2 ^ 32) by (apply Z.div_lt_upper_bound; lia).
      assert (0 <= mtimecmp c / 2 ^ 32) by (apply Z.div_pos; lia). lia. }
    assert ((mtimecmp c / 2 ^ 32 * 2 ^ 32 + lo) mod 2 ^ 32 = lo) as Hm
      by (rewrite Z.add_comm, Z.mod_add by lia; by apply Z.mod_small).
    rewrite clint_write_hi by done. cbn [mtimecmp clint_msip mtime]. by rewrite Hm. }
  assert (clint_write32 (clint_write32 c (MTIMECMP_ADDR + 4) hi) MTIMECMP_ADDR lo =
          mk_clint (clint_msip c) (hi * 2 ^ 32 + lo) (mtime c)) as E2.
  { rewrite clint_write_hi by done.
    assert (0 <= mtimecmp c mod 2 ^ 32 < 2 ^ 32) by (apply Z.mod_pos_bound; lia).
    assert (is_u64 (hi * 2 ^ 32 + mtimecmp c mod 2 ^ 32)) as Hu by (unfold is_u64, is_u32 in *; lia).
    assert ((hi * 2 ^ 32 + mtimecmp c mod 2 ^ 32) / 2 ^ 32 = hi) as Hm
      by (rewrite Z.add_comm, Z.div_add, Z.div_small by lia; lia).
    rewrite clint_write_lo by done. cbn [mtimecmp clint_msip mtime]. by rewrite Hm. }
  cbv zeta. rewrite E1, E2. split_and!; try done; unfold is_u32 in *.
  - change (u32 (Z.land (hi * 2 ^ 32 + lo) (2 ^ 32 - 1)) = lo).
    rewrite land_low, Z.add_comm, Z.mod_add, Z.mod_small by lia. by apply u32_small.
  - change (u32 (Z.shiftr (hi * 2 ^ 32 + lo) 32) = hi).
    rewrite Z.shiftr_div_pow2, Z.add_comm, Z.div_add, Z.div_small by lia. by apply u32_small.
Qed.

(** The address map of the machine: 1 MiB of memory and the interruptor. *)
Definition bus_demo : bus :=
  mk_bus [] [mk_slave_info 0x80000000 16 (slave_init (slave_new (dev_memory [])) 16);
             mk_slave_info 0x20000000 0x10000 (slave_init (slave_new (dev_clint (mk_clint false 0 0))) 0x10000)].

Lemma bus_demo_ok : bus_ok bus_demo.
Proof.
  split.
  - repeat constructor; cbn; lia || done.
  - intros [|[|i]] [|[|j]] si sj a Hi Hj; cbn in Hi, Hj; simplify_eq; unfold in_region; cbn; try done; lia.
Qed.

Lemma bus_byte_memory_witness :
  exists b', bus_write W32 bus_demo 0x80000004 0x11223344 = Some b' /\
    bus_read W32 b' 0x80000004 = Some (0x11223344, b') /\
    exists x, bus_read W16 b' 0x80000006 = Some (x, b') /\ x = 0x1122.
Proof.
  destruct (bus_byte_memory bus_demo W32 0x80000004 0x11223344 bus_demo_ok) as (b' & H1 & _ & H2 & H3).
  - exists 0%nat. eexists _, _. cbn. split_and!; try done; lia.
  - simpl. lia.
  - exists b'. split; [exact H1|]. split; [exact H2|].
    destruct (H3 W16 0x80000006) as (x & Hx & _).
    + exists 0%nat. eexists _, _. cbn. split_and!; try done; lia.
    + exists x. split; [exact Hx|]. vm_compute in H1. injection H1 as <-. vm_compute in Hx. congruence.
Defined.

Lemma bus_map_disjoint_witness :
  exists b', bus_map bus_demo 0x40000000 8 (slave_new (dev_memory [])) = Some b' /\
    find_slave_info b' 0x40000007 = 2 /\ find_slave_info b' 0x80000003 = 0.
Proof.
  pose proof (bus_map_disjoint bus_demo 0x40000000 8 (dev_memory []) bus_demo_ok) as H.
  destruct (bus_map bus_demo 0x40000000 8 (slave_new (dev_memory []))) as [b'|] eqn:E.
  - destruct H as (_ & H1 & H2); [lia..|]. exists b'. split; [reflexivity|]. split.
    + rewrite H1 by lia. reflexivity.
    + rewrite H2 by lia. reflexivity.
  - vm_compute in E. discriminate E.
Defined.

Lemma clint_timecmp_witness :
  int_pending (clint_run_pre (clint_write32 (clint_write32 (mk_clint false 0 100) MTIMECMP_ADDR 100)
    (MTIMECMP_ADDR + 4) 0) int_demo) machine_timer = true.
Proof.
  destruct (clint_timecmp (mk_clint false 0 100) 100 0 int_demo) as (_ & _ & _ & _ & H & _).
  - unfold is_u64. simpl. lia.
  - unfold is_u32. lia.
  - unfold is_u32. lia.
  - rewrite H. reflexivity.
Defined.
