(* ===== verification/Regfile.v ===== *)
(** The physical register file [component::regfile<T>] of
    [component/regfile.h], with its bitmap of valid data, and the
    initialisation of the rename state that [reset] and [init] of
    [top_source/main.cpp] share. *)

From Stdlib Require Import ZArith Lia.
From stdpp Require Import base numbers list option tactics.
From S2P Require Import Prelude Common Bitmap CheckpointBuffer Rat.

Local Open Scope Z_scope.

Inductive regfile_sync_request (T : Type) :=
| rf_req_write (arg1 : Z) (arg2 : T) (arg3 : bool)
| rf_req_restore (cp : checkpoint_t).

Arguments rf_req_write {T} _ _ _.
Arguments rf_req_restore {T} _.

Record regfile (T : Type) := mk_regfile {
  rf_sync_request_q : list (regfile_sync_request T);
  reg_data : list T;
  reg_data_valid : list Z;
  rf_size : Z;
  rf_bitmap_size : Z
}.

Arguments mk_regfile {T} _ _ _ _ _.
Arguments rf_sync_request_q {T} _.
Arguments reg_data {T} _.
Arguments reg_data_valid {T} _.
Arguments rf_size {T} _.
Arguments rf_bitmap_size {T} _.

#[export] Instance regfile_eta {T} : Eta (regfile T) := fun r =>
  mk_regfile (rf_sync_request_q r) (reg_data r) (reg_data_valid r) (rf_size r) (rf_bitmap_size r).

Section operations.
Context {T : Type}.
Implicit Types (r : regfile T).

(** [zero] is the value whose representation is all zero bytes, which
    [memset] leaves in every register. *)
Definition regfile_new (zero : T) (size : Z) : regfile T :=
  let n := (size + 64 - 1) / 64 in
  mk_regfile [] (repeat zero (Z.to_nat size)) (repeat 0 (Z.to_nat n)) size n.

Definition regfile_reset (zero : T) r : regfile T :=
  r <| reg_data := repeat zero (Z.to_nat (rf_size r)) |>
    <| reg_data_valid := repeat 0 (Z.to_nat (rf_bitmap_size r)) |>
    <| rf_sync_request_q := [] |>.

Definition regfile_write r (addr : Z) (value : T) (valid : bool) : option (regfile T) :=
  _ ← assert (addr <? rf_size r);
  data ← arr_set (reg_data r) addr value;
  bm ← bitmap_set (reg_data_valid r) addr valid;
  Some (r <| reg_data := data |> <| reg_data_valid := bm |>).

Definition regfile_read r (addr : Z) : option T :=
  _ ← assert (addr <? rf_size r); arr_get (reg_data r) addr.

Definition regfile_cp_get_data_valid r (cp : checkpoint_t) (addr : Z) : option bool :=
  _ ← assert (addr <? rf_size r); bitmap_get (phy_regfile_data_valid cp) addr.

Definition regfile_cp_set_data_valid r (cp : checkpoint_t) (addr : Z) (valid : bool) : option checkpoint_t :=
  _ ← assert (addr <? rf_size r);
  bm ← bitmap_set (phy_regfile_data_valid cp) addr valid;
  Some (cp <| phy_regfile_data_valid := bm |>).

Definition regfile_read_data_valid r (addr : Z) : option bool :=
  _ ← assert (addr <? rf_size r); bitmap_get (reg_data_valid r) addr.

Definition regfile_write_sync r (addr : Z) (value : T) (valid : bool) : regfile T :=
  r <| rf_sync_request_q ::= fun l => l ++ [rf_req_write addr value valid] |>.

Definition regfile_restore r (cp : checkpoint_t) : option (regfile T) :=
  bm ← memcpy (reg_data_valid r) (phy_regfile_data_valid cp) phy_reg_num_bitmap_size;
  Some (r <| reg_data_valid := bm |>).

Definition regfile_restore_sync r (cp : checkpoint_t) : regfile T :=
  r <| rf_sync_request_q ::= fun l => l ++ [rf_req_restore cp] |>.

Definition regfile_sync_one r (t_req : regfile_sync_request T) : option (regfile T) :=
  match t_req with
  | rf_req_write arg1 arg2 arg3 => regfile_write r arg1 arg2 arg3
  | rf_req_restore cp => regfile_restore r cp
  end.

Fixpoint regfile_sync_loop r (reqs : list (regfile_sync_request T)) : option (regfile T) :=
  match reqs with
  | [] => Some r
  | t_req :: reqs =>
      r ← regfile_sync_one (r <| rf_sync_request_q := reqs |>) t_req; regfile_sync_loop r reqs
  end.

Definition regfile_sync r : option (regfile T) := regfile_sync_loop r (rf_sync_request_q r).

(** * Properties *)

Definition regfile_ok r : Prop :=
  0 < rf_size r /\ Z.of_nat (length (reg_data r)) = rf_size r /\ bitmap_ok (rf_size r) (reg_data_valid r).

(** What a reader sees of a register: its value and whether it is valid. *)
Definition regfile_view r (a : Z) : option (T * bool) :=
  v ← regfile_read r a; b ← regfile_read_data_valid r a; Some (v, b).

Lemma regfile_write_spec r a v b :
  regfile_ok r -> 0 <= a < rf_size r ->
  exists r', regfile_write r a v b = Some r' /\ regfile_ok r' /\ rf_size r' = rf_size r /\
    rf_sync_request_q r' = rf_sync_request_q r /\
    (forall i, 0 <= i < rf_size r ->
       regfile_view r' i = if decide (i = a) then Some (v, b) else regfile_view r i).
Proof.
  intros (H0 & Hl & Hb) Ha. unfold regfile_write.
  destruct (Z.ltb_spec a (rf_size r)); [|lia]. cbn [assert mbind option_bind].
  rewrite arr_set_eq by lia. cbn [mbind option_bind].
  destruct (bitmap_set_spec _ _ Hb a b Ha) as (bm & -> & Hok & Hbits). cbn [mbind option_bind].
  eexists. split; [reflexivity|]. unfold regfile_ok. cbn. rewrite length_insert. split_and!; try done.
  intros i Hi. unfold regfile_view, regfile_read, regfile_read_data_valid. cbn.
  destruct (Z.ltb_spec i (rf_size r)); [|lia]. cbn.
  rewrite (bitmap_get_bit _ _ Hok), (bitmap_get_bit _ _ Hb), Hbits by lia.
  rewrite !arr_get_lookup by lia. case_decide.
  - subst. by rewrite list_lookup_insert_eq by lia.
  - by rewrite list_lookup_insert_ne by lia.
Qed.

(** The last request for a register in a list of writes. *)
Fixpoint last_write (a : Z) (reqs : list (Z * T * bool)) (old : option (T * bool)) : option (T * bool) :=
  match reqs with
  | [] => old
  | (a', v, b) :: reqs => last_write a reqs (if decide (a = a') then Some (v, b) else old)
  end.

Lemma last_write_app a ws ws' old : last_write a (ws ++ ws') old = last_write a ws' (last_write a ws old).
Proof. revert old. induction ws as [|[[a' v] b] ws IH]; intros old; [done|]. apply IH. Qed.

Lemma last_write_other a ws old : Forall (fun w => w.1.1 <> a) ws -> last_write a ws old = old.
Proof.
  revert old. induction ws as [|[[a' v] b] ws IH]; intros old H; [done|].
  apply Forall_cons_iff in H as [Ha H]. cbn in *. rewrite decide_False by congruence. by apply IH.
Qed.

Lemma regfile_sync_loop_spec ws r :
  regfile_ok r -> Forall (fun w => 0 <= w.1.1 < rf_size r) ws ->
  rf_sync_request_q r = (fun w => rf_req_write w.1.1 w.1.2 w.2) <$> ws ->
  exists r', regfile_sync_loop r ((fun w => rf_req_write w.1.1 w.1.2 w.2) <$> ws) = Some r' /\
    regfile_ok r' /\ rf_size r' = rf_size r /\ rf_sync_request_q r' = [] /\
    (forall i, 0 <= i < rf_size r -> regfile_view r' i = last_write i ws (regfile_view r i)).
Proof.
  revert r. induction ws as [|[[a v] b] ws IH]; intros r Hok Hws Hq; [by exists r|].
  apply Forall_cons_iff in Hws as [Ha Hws]. cbn [fmap list_fmap regfile_sync_loop].
  set (r0 := r <| rf_sync_request_q := _ |>). cbn [regfile_sync_one fst snd].
  destruct (regfile_write_spec r0 a v b) as (r1 & -> & Hok1 & Hs1 & Hq1 & Hv1); [done|done|].
  cbn [mbind option_bind].
  destruct (IH r1 Hok1) as (r2 & -> & Hok2 & Hs2 & Hq2 & Hv2); [by rewrite Hs1|done|].
  exists r2. split_and!; [done|done|by rewrite Hs2, Hs1|done|].
  intros i Hi. rewrite Hv2 by (by rewrite Hs1). cbn [last_write]. f_equal. by rewrite Hv1.
Qed.

(** The writes in front of other requests. *)
Lemma regfile_sync_loop_writes ws reqs r :
  regfile_ok r -> Forall (fun w => 0 <= w.1.1 < rf_size r) ws ->
  exists r', regfile_sync_loop r (((fun w => rf_req_write w.1.1 w.1.2 w.2) <$> ws) ++ reqs) = regfile_sync_loop r' reqs /\
    regfile_ok r' /\ rf_size r' = rf_size r /\
    (forall i, 0 <= i < rf_size r -> regfile_view r' i = last_write i ws (regfile_view r i)).
Proof.
  revert r. induction ws as [|[[a v] b] ws IH]; intros r Hok Hws; [by exists r|].
  apply Forall_cons_iff in Hws as [Ha Hws]. cbn [fmap list_fmap regfile_sync_loop app].
  set (r0 := r <| rf_sync_request_q := _ |>). cbn [regfile_sync_one fst snd].
  destruct (regfile_write_spec r0 a v b) as (r1 & -> & Hok1 & Hs1 & _ & Hv1); [done|done|].
  cbn [mbind option_bind]. destruct (IH r1 Hok1) as (r2 & -> & Hok2 & Hs2 & Hv2); [by rewrite Hs1|].
  exists r2. split_and!; [done|done|by rewrite Hs2, Hs1|].
  intros i Hi. rewrite Hv2 by (by rewrite Hs1). cbn [last_write]. f_equal. by rewrite Hv1.
Qed.

(** Restoring the valid bits of a checkpoint. *)
Lemma regfile_restore_spec r cp :
  regfile_ok r -> rf_size r = PHY_REG_NUM -> bitmap_ok PHY_REG_NUM (phy_regfile_data_valid cp) ->
  exists r', regfile_restore r cp = Some r' /\ regfile_ok r' /\ rf_size r' = rf_size r /\
    rf_sync_request_q r' = rf_sync_request_q r /\
    (forall i, 0 <= i < rf_size r ->
       regfile_view r' i = (fun x => (x.1, bit_at (phy_regfile_data_valid cp) i)) <$> regfile_view r i).
Proof.
  intros (H0 & Hl & Hb) Hs Hcp. unfold regfile_restore.
  assert (memcpy (reg_data_valid r) (phy_regfile_data_valid cp) phy_reg_num_bitmap_size = Some (phy_regfile_data_valid cp)) as ->.
  { destruct Hb as [Hb _], Hcp as [Hcp _]. rewrite Hs in Hb. change phy_reg_num_bitmap_size with ((PHY_REG_NUM + 63) / 64).
    rewrite <- Hcp. apply memcpy_all. lia. }
  cbn [mbind option_bind]. eexists. split; [reflexivity|]. split_and!; try done.
  - split_and!; cbn; [done|done|by rewrite Hs].
  - intros i Hi. unfold regfile_view, regfile_read, regfile_read_data_valid. cbn [rf_size reg_data reg_data_valid upd].
    destruct (Z.ltb_spec i (rf_size r)); [|lia]. cbn [assert mbind option_bind].
    destruct (arr_get_in_range (reg_data r) i) as [x ->]; [lia|]. cbn [mbind option_bind].
    rewrite (bitmap_get_bit _ _ Hb), (bitmap_get_bit _ _ Hcp) by (rewrite ?Hs in *; done). done.
Qed.

(** the deferred writes of a cycle (results from write-back, invalidations
    from commit) all take effect at [sync]: every register shows the last
    write addressed to it, value and valid bit, and the others are
    unchanged; nothing is left pending. *)
Theorem regfile_sync_last_write r ws :
  regfile_ok r -> Forall (fun w => 0 <= w.1.1 < rf_size r) ws ->
  rf_sync_request_q r = (fun w => rf_req_write w.1.1 w.1.2 w.2) <$> ws ->
  exists r', regfile_sync r = Some r' /\ regfile_ok r' /\ rf_sync_request_q r' = [] /\
    (forall i, 0 <= i < rf_size r -> regfile_view r' i = last_write i ws (regfile_view r i)).
Proof.
  intros Hok Hws Hq. destruct (regfile_sync_loop_spec ws r Hok Hws Hq) as (r' & E & ? & _ & ? & ?).
  exists r'. unfold regfile_sync. rewrite Hq. by split_and!.
Qed.

End operations.

Lemma regfile_sync_last_write_witness :
  exists r', regfile_sync (fold_left (fun r w => regfile_write_sync r w.1.1 w.1.2 w.2)
      [(3, 10, true); (5, 20, true); (3, 0, false)] (regfile_new 0 128)) = Some r' /\
    regfile_view r' 3 = Some (0, false) /\ regfile_view r' 5 = Some (20, true).
Proof.
  destruct (regfile_sync_last_write (fold_left (fun r w => regfile_write_sync r w.1.1 w.1.2 w.2)
      [(3, 10, true); (5, 20, true); (3, 0, false)] (regfile_new 0 128)) [(3, 10, true); (5, 20, true); (3, 0, false)])
    as (r' & H1 & _ & _ & H2).
  - split_and!; [simpl; lia|reflexivity|]. apply (bitmap_zero 128 0). lia.
  - repeat constructor; simpl; lia.
  - reflexivity.
  - exists r'. split; [exact H1|]. split; rewrite H2 by (simpl; lia); vm_compute; reflexivity.
Defined.

(** * The rename state after reset *)

(** [phy_regfile_item_t] *)
Record phy_regfile_item_t := mk_phy_regfile_item { pri_value : Z }.

(** The loop [for(uint32_t i = 1;i < 32;i++)] of [reset] and [init]. *)
Fixpoint boot_loop (n : nat) (i : Z) (r : rat) (f : regfile phy_regfile_item_t)
    : option (rat * regfile phy_regfile_item_t) :=
  match n with
  | O => Some (r, f)
  | S n =>
      '(_, r) ← rat_set_map r i i;
      r ← rat_commit_map r i;
      f ← regfile_write f i (mk_phy_regfile_item 0) true;
      boot_loop n (i + 1) r f
  end.

Definition boot_rename (r : rat) (f : regfile phy_regfile_item_t) : option (rat * regfile phy_regfile_item_t) :=
  '(r, f) ← boot_loop 31 1 (rat_init_start r) f;
  Some (rat_init_finish r, f).

Definition rat_of_boot : rat :=
  rat_new [] [] [] [] PHY_REG_NUM ARCH_REG_NUM.

Definition boot_result : option (rat * regfile phy_regfile_item_t) :=
  boot_rename rat_of_boot (regfile_new (mk_phy_regfile_item 0) PHY_REG_NUM).

Lemma boot_rename_mem mem_table mem_valid mem_visible mem_commit :
  boot_rename (rat_new mem_table mem_valid mem_visible mem_commit PHY_REG_NUM ARCH_REG_NUM)
    (regfile_new (mk_phy_regfile_item 0) PHY_REG_NUM) = boot_result.
Proof.
  assert (rat_init_start (rat_new mem_table mem_valid mem_visible mem_commit PHY_REG_NUM ARCH_REG_NUM) =
          rat_init_start rat_of_boot) as E by reflexivity.
  unfold boot_result, boot_rename. rewrite E. reflexivity.
Qed.

(** What the theorem below says of x1 .. x31, as a test. *)
Definition boot_test (r : rat) (f : regfile phy_regfile_item_t) (a : Z) : bool :=
  (a =? 0) ||
  ((a <? phy_reg_num r) && rat_valid r a && rat_visible r a && (rat_owner r a =? a) && rat_committed r a &&
   match regfile_view f a with Some (it, b) => (pri_value it =? 0) && b | None => false end).

Lemma boot_test_sound r f a :
  0 < a -> boot_test r f a = true ->
  rat_maps r a a /\ rat_committed r a = true /\ regfile_view f a = Some (mk_phy_regfile_item 0, true).
Proof.
  intros Ha Ht. unfold boot_test in Ht. apply orb_true_iff in Ht as [Ht%Z.eqb_eq|Ht]; [lia|].
  rewrite !andb_true_iff in Ht. destruct Ht as [[[[[?%Z.ltb_lt ?] ?] ?%Z.eqb_eq] ?] Hv].
  split_and!; [|done|].
  - split; [|done]. split; lia.
  - destruct (regfile_view f a) as [[[v] b]|]; [|done]. apply andb_true_iff in Hv as [Hv%Z.eqb_eq ?].
    cbn in Hv. by subst.
Qed.

(** Reset.  Whatever the arrays of the alias table held, the
    initialisation runs without tripping an assertion and leaves a
    well-formed table in which x1 .. x31 are mapped to the physical registers
    of the same number, these 31 registers being allocated, committed and
    valid with value 0, and all others free. *)
Theorem boot_rename_correct mem_table mem_valid mem_visible mem_commit :
  exists r f,
    boot_rename (rat_new mem_table mem_valid mem_visible mem_commit PHY_REG_NUM ARCH_REG_NUM)
      (regfile_new (mk_phy_regfile_item 0) PHY_REG_NUM) = Some (r, f) /\
    rat_wf r /\
    (forall a, 0 < a < ARCH_REG_NUM ->
       rat_maps r a a /\ rat_committed r a = true /\ regfile_view f a = Some (mk_phy_regfile_item 0, true)) /\
    (forall p, 0 <= p < PHY_REG_NUM -> p = 0 \/ ARCH_REG_NUM <= p -> rat_valid r p = false).
Proof.
  rewrite boot_rename_mem.
  destruct boot_result as [[r f]|] eqn:E; [|vm_compute in E; discriminate E].
  vm_compute in E. injection E as <- <-. do 2 eexists. split; [reflexivity|]. split_and!.
  - apply rat_wf_test_sound; [|reflexivity|vm_compute; reflexivity].
    split_and!; try reflexivity; repeat constructor; vm_compute; congruence.
  - intros a Ha. match goal with |- rat_maps ?r _ _ /\ _ /\ regfile_view ?f _ = _ =>
      assert (forallb (boot_test r f) (upto ARCH_REG_NUM) = true) as Hall by (vm_compute; reflexivity) end.
    rewrite forallb_forall in Hall. specialize (Hall a). rewrite <- list_elem_of_In, elem_of_upto in Hall.
    specialize (Hall ltac:(lia)). by apply boot_test_sound in Hall; [|lia].
  - intros p Hp Hout. match goal with |- rat_valid ?r _ = _ =>
      assert (forallb (fun p => ((0 <? p) && (p <? ARCH_REG_NUM)) || negb (rat_valid r p)) (upto PHY_REG_NUM) = true)
        as Hall by (vm_compute; reflexivity) end.
    rewrite forallb_forall in Hall. specialize (Hall p). rewrite <- list_elem_of_In, elem_of_upto in Hall.
    specialize (Hall Hp). destruct (Z.ltb_spec 0 p), (Z.ltb_spec p ARCH_REG_NUM); cbn [andb orb] in Hall;
      try lia; by apply negb_true_iff in Hall.
Qed.
