(* ===== verification/PipelineCommon.v ===== *)
(** The data that crosses the pipeline: the operation enumerations of
    [pipeline/pipeline_common.h] and the feedback of the commit stage
    ([pipeline/commit.h]). *)

From Stdlib Require Import ZArith Lia.
From stdpp Require Import base numbers list option tactics.
From S2P Require Import Prelude Common.

Local Open Scope Z_scope.

(** * Enumerations *)

Inductive op_unit_t := unit_alu | unit_mul | unit_div | unit_lsu | unit_bru | unit_csr.

Inductive arg_src_t := src_reg | src_imm | src_disable.

Inductive op_t :=
| op_add | op_addi | op_and | op_andi | op_auipc | op_csrrc | op_csrrci | op_csrrs | op_csrrsi
| op_csrrw | op_csrrwi | op_ebreak | op_ecall | op_fence | op_fence_i | op_lui | op_or | op_ori
| op_sll | op_slli | op_slt | op_slti | op_sltiu | op_sltu | op_sra | op_srai | op_srl | op_srli
| op_sub | op_xor | op_xori | op_beq | op_bge | op_bgeu | op_blt | op_bltu | op_bne | op_jal
| op_jalr | op_div | op_divu | op_rem | op_remu | op_lb | op_lbu | op_lh | op_lhu | op_lw
| op_sb | op_sh | op_sw | op_mul | op_mulh | op_mulhsu | op_mulhu | op_mret.

Inductive alu_op_t :=
| alu_add | alu_and | alu_auipc | alu_ebreak | alu_ecall | alu_fence | alu_fence_i | alu_lui
| alu_or | alu_sll | alu_slt | alu_sltu | alu_sra | alu_srl | alu_sub | alu_xor.

Inductive bru_op_t :=
| bru_beq | bru_bge | bru_bgeu | bru_blt | bru_bltu | bru_bne | bru_jal | bru_jalr | bru_mret.

Inductive div_op_t := div_div | div_divu | div_rem | div_remu.

Inductive lsu_op_t := lsu_lb | lsu_lbu | lsu_lh | lsu_lhu | lsu_lw | lsu_sb | lsu_sh | lsu_sw.

Inductive mul_op_t := mul_mul | mul_mulh | mul_mulhsu | mul_mulhu.

Inductive csr_op_t := csr_csrrc | csr_csrrs | csr_csrrw.

(** The union [sub_op] of the packs; [sub_none] is the union before any member
    was stored. *)
Inductive sub_op_t :=
| sub_none
| sub_alu (op : alu_op_t)
| sub_bru (op : bru_op_t)
| sub_div (op : div_op_t)
| sub_lsu (op : lsu_op_t)
| sub_mul (op : mul_op_t)
| sub_csr (op : csr_op_t).

#[export] Instance op_unit_eq_dec : EqDecision op_unit_t.
Proof. solve_decision. Defined.
#[export] Instance arg_src_eq_dec : EqDecision arg_src_t.
Proof. solve_decision. Defined.
#[export] Instance op_eq_dec : EqDecision op_t.
Proof. solve_decision. Defined.
#[export] Instance alu_op_eq_dec : EqDecision alu_op_t.
Proof. solve_decision. Defined.
#[export] Instance bru_op_eq_dec : EqDecision bru_op_t.
Proof. solve_decision. Defined.
#[export] Instance div_op_eq_dec : EqDecision div_op_t.
Proof. solve_decision. Defined.
#[export] Instance lsu_op_eq_dec : EqDecision lsu_op_t.
Proof. solve_decision. Defined.
#[export] Instance mul_op_eq_dec : EqDecision mul_op_t.
Proof. solve_decision. Defined.
#[export] Instance csr_op_eq_dec : EqDecision csr_op_t.
Proof. solve_decision. Defined.
#[export] Instance sub_op_eq_dec : EqDecision sub_op_t.
Proof. solve_decision. Defined.

(** * Commit feedback *)

(** [cf_committed] zips the arrays [committed_rob_id_valid] and
    [committed_rob_id], of [COMMIT_WIDTH] elements. *)
Record commit_feedback_pack_t := mk_commit_feedback {
  cf_enable : bool;
  cf_next_handle_rob_id_valid : bool;
  cf_next_handle_rob_id : Z;
  cf_has_exception : bool;
  cf_exception_pc : Z;
  cf_flush : bool;
  cf_committed : list (bool * Z);
  cf_jump_enable : bool;
  cf_jump : bool;
  cf_next_pc : Z
}.

#[export] Instance commit_feedback_eta : Eta commit_feedback_pack_t := fun r =>
  mk_commit_feedback (cf_enable r) (cf_next_handle_rob_id_valid r) (cf_next_handle_rob_id r)
    (cf_has_exception r) (cf_exception_pc r) (cf_flush r) (cf_committed r) (cf_jump_enable r)
    (cf_jump r) (cf_next_pc r).

Definition commit_feedback_zero : commit_feedback_pack_t :=
  mk_commit_feedback false false 0 false 0 false (repeat (false, 0) (Z.to_nat COMMIT_WIDTH)) false false 0.
