(* ===== verification/StoreBuffer.v ===== *)
(** The store buffer [component::store_buffer] of [component/store_buffer.h].

    Executed stores wait here until they are committed, and then leave one per
    cycle to the bus.  A load must see the stores in front of it:
    [get_feedback_value] overlays the value read from the bus with the bytes
    of the buffered stores, oldest first.  A flush drops the stores that are
    not committed. *)

From Stdlib Require Import ZArith Lia.
From stdpp Require Import base numbers list option tactics.
From S2P Require Import Prelude Common Fifo FifoIds PipelineCommon Bus.

Local Open Scope Z_scope.

Record store_buffer_item_t := mk_sb_item {
  sb_enable : bool;
  sb_committed : bool;
  sb_rob_id : Z;
  sb_pc : Z;
  sb_addr : Z;
  sb_data : Z;
  sb_size : Z
}.

#[export] Instance sb_item_eta : Eta store_buffer_item_t := fun r =>
  mk_sb_item (sb_enable r) (sb_committed r) (sb_rob_id r) (sb_pc r) (sb_addr r) (sb_data r) (sb_size r).

Record store_buffer_state_pack_t := mk_sb_state { sbs_wptr : Z; sbs_wstage : bool }.

Inductive sb_sync_request :=
| sb_req_set_item
| sb_req_push (arg1_store_buffer_item : store_buffer_item_t)
| sb_req_pop
| sb_req_restore (arg1_store_buffer_state_pack : store_buffer_state_pack_t).

(** The member [bus_if] points to the bus: the functions that use it take the
    bus as an argument. *)
Record store_buffer := mk_store_buffer {
  sb_fifo : fifo store_buffer_item_t;
  sb_sync_request_q : list sb_sync_request
}.

#[export] Instance store_buffer_eta : Eta store_buffer := fun r =>
  mk_store_buffer (sb_fifo r) (sb_sync_request_q r).

Definition store_buffer_new (mem : list store_buffer_item_t * Z * bool) (size : Z) : store_buffer :=
  mk_store_buffer (fifo_new mem size) [].

Definition sb_reset (s : store_buffer) : store_buffer :=
  s <| sb_fifo ::= fifo_reset |> <| sb_sync_request_q := [] |>.

Definition sb_check_id_valid (s : store_buffer) (id : Z) : bool := fifo_check_id_valid (sb_fifo s) id.

Definition sb_get_item (s : store_buffer) (id : Z) : option store_buffer_item_t :=
  fifo_get_item_checked (sb_fifo s) id.

Definition sb_set_item (s : store_buffer) (id : Z) (value : store_buffer_item_t) : option store_buffer :=
  f ← fifo_set_item_checked (sb_fifo s) id value; Some (s <| sb_fifo := f |>).

Definition sb_get_front_id (s : store_buffer) : option Z := fifo_get_front_id (sb_fifo s).

Definition sb_get_front_id_stage (s : store_buffer) : option (Z * bool) :=
  if fifo_is_empty (sb_fifo s) then None else Some (rptr (sb_fifo s), rstage (sb_fifo s)).

Definition sb_get_tail_id (s : store_buffer) : option Z := fifo_get_tail_id (sb_fifo s).

Definition sb_get_next_id (s : store_buffer) (id : Z) : option (Z * bool) := fifo_get_next_id (sb_fifo s) id.

Definition sb_get_next_id_stage (s : store_buffer) (id : Z) (stage : bool) : option (Z * bool * bool) :=
  fifo_get_next_id_stage (sb_fifo s) id stage.

Definition sb_save (s : store_buffer) : store_buffer_state_pack_t :=
  mk_sb_state (wptr (sb_fifo s)) (wstage (sb_fifo s)).

Definition sb_restore (s : store_buffer) (pack : store_buffer_state_pack_t) : store_buffer :=
  s <| sb_fifo ::= fun f => f <| wptr := sbs_wptr pack |> <| wstage := sbs_wstage pack |> |>.

Definition sb_restore_sync (s : store_buffer) (pack : store_buffer_state_pack_t) : store_buffer :=
  s <| sb_sync_request_q ::= fun l => l ++ [sb_req_restore pack] |>.

Definition sb_push_sync (s : store_buffer) (element : store_buffer_item_t) : store_buffer :=
  s <| sb_sync_request_q ::= fun l => l ++ [sb_req_push element] |>.

Definition sb_pop_sync (s : store_buffer) : store_buffer :=
  s <| sb_sync_request_q ::= fun l => l ++ [sb_req_pop] |>.

(** * Forwarding *)

(** [(bit_length == 32) ? 0xffffffffu : ((1 << bit_length) - 1)]; the shift is
    of an [int], and a length of 32 is the one it could not do. *)
Definition bit_mask_of (bit_length : Z) : Z :=
  if bit_length =? 32 then 0xffffffff else u32 (Z.shiftl 1 bit_length - 1).

(** The body of the loop: the effect of one buffered store on [result]. *)
Definition feedback_step (addr size : Z) (result : Z) (cur_item : store_buffer_item_t) : Z :=
  if (addr <=? sb_addr cur_item) && (sb_addr cur_item <? u32 (addr + size)) then
    let bit_offset := shl32 (u32 (sb_addr cur_item - addr)) 3 in
    let bit_length := shl32 (Z.min (sb_size cur_item) (u32 (u32 (addr + size) - sb_addr cur_item))) 3 in
    let bit_mask := bit_mask_of bit_length in
    let result := Z.land result (not32 (shl32 bit_mask bit_offset)) in
    Z.lor result (shl32 (Z.land (sb_data cur_item) bit_mask) bit_offset)
  else if (sb_addr cur_item <? addr) && (addr <? u32 (sb_addr cur_item + sb_size cur_item)) then
    let bit_offset := shl32 (u32 (addr - sb_addr cur_item)) 3 in
    let bit_length := shl32 (Z.min size (u32 (u32 (sb_addr cur_item + sb_size cur_item) - addr))) 3 in
    let bit_mask := bit_mask_of bit_length in
    let result := Z.land result (not32 bit_mask) in
    Z.lor result (Z.land (shr32 (sb_data cur_item) bit_offset) bit_mask)
  else result.

(** The [do ... while] loop over the queue, oldest store first. *)
Fixpoint feedback_loop (fuel : nat) (s : store_buffer) (first_id cur_id addr size result : Z) : option Z :=
  match fuel with
  | O => None
  | S fuel =>
      cur_item ← sb_get_item s cur_id;
      let result := feedback_step addr size result cur_item in
      '(next_id, valid) ← sb_get_next_id s cur_id;
      if valid && negb (next_id =? first_id) then feedback_loop fuel s first_id next_id addr size result
      else Some result
  end.

Definition sb_get_feedback_value (s : store_buffer) (addr size bus_value : Z) : option Z :=
  match sb_get_front_id s with
  | Some cur_id => feedback_loop (length (buffer (sb_fifo s))) s cur_id cur_id addr size bus_value
  | None => Some bus_value
  end.

(** * Committing and flushing *)

(** [committed_rob_id_valid[i] && (committed_rob_id[i] == rob_id)] for some
    [i]. *)
Definition rob_id_committed (pack : commit_feedback_pack_t) (rob_id : Z) : bool :=
  existsb (fun c => c.1 && (c.2 =? rob_id)) (cf_committed pack).

(** The search of the flush: the first store that is neither committed nor
    about to be. *)
Fixpoint flush_search (fuel : nat) (s : store_buffer) (pack : commit_feedback_pack_t) (first_id cur_id : Z)
    (cur_stage : bool) : option (option (Z * bool)) :=
  match fuel with
  | O => None
  | S fuel =>
      cur_item ← sb_get_item s cur_id;
      if negb (sb_committed cur_item) && negb (cf_enable pack && rob_id_committed pack (sb_rob_id cur_item)) then
        Some (Some (cur_id, cur_stage))
      else
        '(next_id, next_stage, valid) ← sb_get_next_id_stage s cur_id cur_stage;
        if valid && negb (next_id =? first_id) then flush_search fuel s pack first_id next_id next_stage
        else Some None
  end.

Definition sb_flush (s : store_buffer) (pack : commit_feedback_pack_t) : option store_buffer :=
  s ← match sb_get_front_id_stage s with
      | Some (cur_id, cur_stage) =>
          found ← flush_search (length (buffer (sb_fifo s))) s pack cur_id cur_id cur_stage;
          Some (match found with
                | Some (found_id, found_stage) =>
                    s <| sb_fifo ::= fun f => f <| wptr := found_id |> <| wstage := found_stage |> |>
                | None => s
                end)
      | None => Some s
      end;
  Some (s <| sb_sync_request_q := [] |>).

(** The branch without a flush: the oldest store goes to the bus when it is
    committed. *)
Definition sb_write_back (s : store_buffer) (b : bus) : option (store_buffer * bus) :=
  front ← fifo_get_front (sb_fifo s);
  match front with
  | Some item =>
      if sb_committed item then
        '(_, f) ← fifo_pop (sb_fifo s);
        let s := s <| sb_fifo := f |> in
        _ ← assert ((sb_size item =? 1) || (sb_size item =? 2) || (sb_size item =? 4));
        Some (s, if sb_size item =? 1 then bus_write8_sync b (sb_addr item) (u8 (sb_data item))
                 else if sb_size item =? 2 then bus_write16_sync b (sb_addr item) (u16 (sb_data item))
                 else bus_write32_sync b (sb_addr item) (sb_data item))
      else Some (s, b)
  | None => Some (s, b)
  end.

(** The loop that marks the stores committed in this cycle. *)
Fixpoint mark_loop (fuel : nat) (s : store_buffer) (pack : commit_feedback_pack_t) (first_id cur_id : Z)
    : option store_buffer :=
  match fuel with
  | O => None
  | S fuel =>
      cur_item ← sb_get_item s cur_id;
      let cur_item := if rob_id_committed pack (sb_rob_id cur_item)
                      then cur_item <| sb_committed := true |> else cur_item in
      s ← sb_set_item s cur_id cur_item;
      '(next_id, valid) ← sb_get_next_id s cur_id;
      if valid && negb (next_id =? first_id) then mark_loop fuel s pack first_id next_id else Some s
  end.

Definition sb_mark_committed (s : store_buffer) (pack : commit_feedback_pack_t) : option store_buffer :=
  match sb_get_front_id s with
  | Some cur_id => mark_loop (length (buffer (sb_fifo s))) s pack cur_id cur_id
  | None => Some s
  end.

Definition sb_run (s : store_buffer) (b : bus) (pack : commit_feedback_pack_t) : option (store_buffer * bus) :=
  '(s, b) ← (if cf_enable pack && cf_flush pack then s ← sb_flush s pack; Some (s, b)
             else sb_write_back s b);
  s ← (if cf_enable pack then sb_mark_committed s pack else Some s);
  Some (s, b).

(** [push] on a full queue returns [false], which [sync] ignores; the [switch]
    has no case for [set_item], which no function requests. *)
Definition sb_sync_one (s : store_buffer) (item : sb_sync_request) : option store_buffer :=
  match item with
  | sb_req_set_item => Some s
  | sb_req_push arg1 => '(_, f) ← fifo_push (sb_fifo s) arg1; Some (s <| sb_fifo := f |>)
  | sb_req_pop => '(_, f) ← fifo_pop (sb_fifo s); Some (s <| sb_fifo := f |>)
  | sb_req_restore pack => Some (sb_restore s pack)
  end.

Fixpoint sb_sync_loop (s : store_buffer) (reqs : list sb_sync_request) : option store_buffer :=
  match reqs with
  | [] => Some s
  | item :: reqs => s ← sb_sync_one (s <| sb_sync_request_q := reqs |>) item; sb_sync_loop s reqs
  end.

Definition sb_sync (s : store_buffer) : option store_buffer := sb_sync_loop s (sb_sync_request_q s).

(** * Masks and shifts *)

Lemma bit_mask_ones L : 0 < L <= 4 -> bit_mask_of (8 * L) = Z.ones (8 * L).
Proof. intros. assert (L = 1 \/ L = 2 \/ L = 3 \/ L = 4) as [-> | [-> | [-> | ->]]] by lia; reflexivity. Qed.

Lemma shl32_testbit x n i :
  0 <= x -> 0 <= n -> 0 <= i < 32 -> Z.testbit (shl32 x n) i = (n <=? i) && Z.testbit x (i - n).
Proof.
  intros Hx Hn Hi. unfold shl32, u32. rewrite Z.mod_pow2_bits_low, Z.shiftl_spec by lia.
  bcase; [done|]. by rewrite Z.testbit_neg_r by lia.
Qed.

Lemma ones_testbit L i : 0 <= L -> 0 <= i -> Z.testbit (Z.ones (8 * L)) i = (i <? 8 * L).
Proof. intros. rewrite Z.testbit_ones by lia. by bcase; try lia. Qed.

Lemma shl32_range x n : 0 <= shl32 x n < 2 ^ 32.
Proof. apply u32_range. Qed.

(** Replacing the bytes [o .. o + L - 1] of [r] by the low bytes of [d]. *)
Lemma insert_bytes r d o L k :
  is_u32 r -> is_u32 d -> 0 <= o -> 0 < L -> o + L <= 4 -> 0 <= k < 4 ->
  byte k (Z.lor (Z.land r (not32 (shl32 (bit_mask_of (8 * L)) (8 * o))))
                (shl32 (Z.land d (bit_mask_of (8 * L))) (8 * o))) =
    if decide (o <= k < o + L) then byte (k - o) d else byte k r.
Proof.
  intros Hr Hd Ho HL HoL Hk. apply byte_ext; [|apply byte_range|case_decide; apply byte_range].
  intros i Hi. rewrite bit_mask_ones by lia.
  assert (0 <= Z.ones (8 * L)) by (rewrite Z.ones_equiv; pose proof (Z.pow_pos_nonneg 2 (8 * L)); lia).
  assert (0 <= Z.land d (Z.ones (8 * L))) by (apply Z.land_nonneg; lia).
  rewrite byte_testbit by lia. replace (i <? 8) with true by (bcase; lia). cbn [andb].
  rewrite Z.lor_spec, Z.land_spec, testbit_not32 by (apply shl32_range || lia).
  rewrite !shl32_testbit, Z.land_spec by lia.
  case_decide.
  - rewrite byte_testbit by lia. replace (i <? 8) with true by (bcase; lia). cbn [andb].
    replace (8 * o <=? 8 * k + i) with true by (bcase; lia). rewrite !ones_testbit by lia.
    replace (8 * k + i - 8 * o <? 8 * L) with true by (bcase; lia). cbn [andb negb].
    rewrite andb_false_r, andb_true_r, orb_false_l. f_equal. lia.
  - rewrite byte_testbit by lia. replace (i <? 8) with true by (bcase; lia). cbn [andb].
    destruct (Z.leb_spec (8 * o) (8 * k + i)); cbn [andb negb].
    + rewrite !ones_testbit by lia. replace (8 * k + i - 8 * o <? 8 * L) with false by (bcase; lia).
      cbn [negb]. by rewrite andb_true_r, andb_false_r, orb_false_r.
    + by rewrite andb_true_r, orb_false_r.
Qed.

(** Replacing the low [L] bytes of [r] by the bytes of [d] from [o] on. *)
Lemma extract_bytes r d o L k :
  is_u32 r -> is_u32 d -> 0 <= o -> 0 < L <= 4 -> 0 <= k < 4 ->
  byte k (Z.lor (Z.land r (not32 (bit_mask_of (8 * L)))) (Z.land (shr32 d (8 * o)) (bit_mask_of (8 * L)))) =
    if decide (k < L) then byte (k + o) d else byte k r.
Proof.
  intros Hr Hd Ho HL Hk. apply byte_ext; [|apply byte_range|case_decide; apply byte_range].
  intros i Hi. rewrite bit_mask_ones by lia.
  assert (0 <= Z.ones (8 * L) < 2 ^ 32) as Hones.
  { rewrite Z.ones_equiv. pose proof (Z.pow_pos_nonneg 2 (8 * L)).
    pose proof (Z.pow_le_mono_r 2 (8 * L) 32). lia. }
  rewrite byte_testbit by lia. replace (i <? 8) with true by (bcase; lia). cbn [andb].
  unfold shr32. rewrite Z.lor_spec, !Z.land_spec, testbit_not32, Z.shiftr_spec, !ones_testbit by lia.
  case_decide; rewrite byte_testbit by lia; replace (i <? 8) with true by (bcase; lia); cbn [andb].
  - replace (8 * k + i <? 8 * L) with true by (bcase; lia). cbn [negb].
    rewrite andb_false_r, andb_true_r, orb_false_l. f_equal. lia.
  - replace (8 * k + i <? 8 * L) with false by (bcase; lia). cbn [negb].
    by rewrite andb_true_r, andb_false_r, orb_false_r.
Qed.

(** * One store *)

Definition access_size_ok (n : Z) : Prop := n = 1 \/ n = 2 \/ n = 4.

(** A store the machine can have buffered. *)
Definition store_ok (it : store_buffer_item_t) : Prop :=
  access_size_ok (sb_size it) /\ 0 <= sb_addr it /\ sb_addr it + sb_size it < 2 ^ 32 /\ is_u32 (sb_data it).

(** The byte at address [a] after the store, [old] before. *)
Definition store_byte (it : store_buffer_item_t) (a old : Z) : Z :=
  if decide (sb_addr it <= a < sb_addr it + sb_size it) then byte (a - sb_addr it) (sb_data it) else old.

Lemma feedback_step_bytes addr size r it k :
  access_size_ok size -> 0 <= addr -> addr + size < 2 ^ 32 -> is_u32 r -> store_ok it -> 0 <= k < 4 ->
  byte k (feedback_step addr size r it) = (if k <? size then store_byte it (addr + k) (byte k r) else byte k r) /\
  is_u32 (feedback_step addr size r it).
Proof.
  intros Hsz Ha Has Hr (Hisz & Hia & Hias & Hd) Hk. unfold feedback_step, store_byte.
  unfold access_size_ok in *.
  rewrite !(u32_small (addr + size)), !(u32_small (sb_addr it + sb_size it)) by lia.
  destruct (Z.leb_spec addr (sb_addr it)), (Z.ltb_spec (sb_addr it) (addr + size)); cbn [andb].
  - assert (shl32 (u32 (sb_addr it - addr)) 3 = 8 * (sb_addr it - addr)) as ->.
    { unfold shl32. rewrite (u32_small (sb_addr it - addr)), Z.shiftl_mul_pow2, u32_small; lia. }
    rewrite (u32_small (addr + size - sb_addr it)) by lia.
    set (L := Z.min (sb_size it) (addr + size - sb_addr it)).
    assert (shl32 L 3 = 8 * L) as ->.
    { unfold shl32. rewrite Z.shiftl_mul_pow2, u32_small; lia. }
    split.
    + rewrite insert_bytes by (done || lia). destruct (Z.ltb_spec k size); repeat case_decide; try lia; try done.
      f_equal. lia.
    + unfold is_u32 in *. apply lor_range; [lia| |apply shl32_range]. apply land_range; [lia|done|].
      pose proof (shl32_range (bit_mask_of (8 * L)) (8 * (sb_addr it - addr))). unfold not32. lia.
  - destruct (Z.ltb_spec (sb_addr it) addr); [lia|]. cbn [andb]. split; [|done]. destruct (Z.ltb_spec k size); [|done]. by rewrite decide_False by lia.
  - destruct (Z.ltb_spec (sb_addr it) addr); [|lia].
    destruct (Z.ltb_spec addr (sb_addr it + sb_size it)); cbn [andb].
    + assert (shl32 (u32 (addr - sb_addr it)) 3 = 8 * (addr - sb_addr it)) as ->.
      { unfold shl32. rewrite (u32_small (addr - sb_addr it)), Z.shiftl_mul_pow2, u32_small; lia. }
      rewrite (u32_small (sb_addr it + sb_size it - addr)) by lia.
      set (L := Z.min size (sb_addr it + sb_size it - addr)).
      assert (shl32 L 3 = 8 * L) as ->.
      { unfold shl32. rewrite Z.shiftl_mul_pow2, u32_small; lia. }
      split.
      * rewrite extract_bytes by (done || lia). destruct (Z.ltb_spec k size); repeat case_decide; try lia; try done.
        f_equal. lia.
      * unfold is_u32 in *. assert (0 <= bit_mask_of (8 * L) < 2 ^ 32) as Hm.
        { rewrite bit_mask_ones by lia. rewrite Z.ones_equiv. pose proof (Z.pow_pos_nonneg 2 (8 * L)).
          pose proof (Z.pow_le_mono_r 2 (8 * L) 32). lia. }
        apply lor_range; [lia|apply land_range; [lia|done|unfold not32; lia]|].
        rewrite Z.land_comm. apply land_range; [lia|lia|]. unfold shr32. apply Z.shiftr_nonneg. lia.
    + split; [|done]. destruct (Z.ltb_spec k size); [|done]. by rewrite decide_False by lia.
  - lia.
Qed.

(** * The loops over the queue *)

Section loops.
Context {s : store_buffer} {l : list store_buffer_item_t} {b : nat} {st : bool}.
Context (W : window (sb_fifo s) l b st).

Lemma feedback_loop_fold fuel k addr size result :
  (k < length l)%nat -> (length l - k <= fuel)%nat ->
  feedback_loop fuel s (slot (sb_fifo s) b 0) (slot (sb_fifo s) b k) addr size result =
    Some (fold_left (feedback_step addr size) (drop k l) result).
Proof.
  revert k result. induction fuel as [|fuel IH]; intros k result Hk Hf; [lia|]. cbn [feedback_loop].
  destruct (lookup_lt_is_Some_2 l k Hk) as [x Hx].
  unfold sb_get_item, sb_get_next_id. rewrite (window_get_checked W), Hx by done. cbn [mbind option_bind].
  rewrite (window_next_id W) by done. cbn [mbind option_bind]. rewrite (window_loop_test W) by done.
  rewrite (drop_S _ _ _ Hx). cbn [fold_left]. case_bool_decide as Hl.
  - by rewrite IH by lia.
  - by rewrite drop_ge by lia.
Qed.

Lemma feedback_value_fold addr size bus_value :
  sb_get_feedback_value s addr size bus_value = Some (fold_left (feedback_step addr size) l bus_value).
Proof.
  unfold sb_get_feedback_value, sb_get_front_id. rewrite (window_front_id W).
  case_decide as E; [by subst|]. destruct (window_facts W) as (_ & _ & _ & Hlen & _).
  assert (0 < length l)%nat by (destruct l; simpl; [done|lia]).
  rewrite feedback_loop_fold by lia. by rewrite drop_0.
Qed.

(** The stores that survive a flush. *)
Definition survives (pack : commit_feedback_pack_t) (it : store_buffer_item_t) : bool :=
  sb_committed it || (cf_enable pack && rob_id_committed pack (sb_rob_id it)).

(** The length of the longest prefix that survives. *)
Fixpoint prefix_len (f : store_buffer_item_t -> bool) (l : list store_buffer_item_t) : nat :=
  match l with
  | [] => 0
  | x :: l => if f x then S (prefix_len f l) else 0
  end.

Lemma flush_search_spec pack fuel k :
  (k < length l)%nat -> (length l - k <= fuel)%nat ->
  flush_search fuel s pack (slot (sb_fifo s) b 0) (slot (sb_fifo s) b k) (slot_stage (sb_fifo s) b k st) =
    Some (let j := (k + prefix_len (survives pack) (drop k l))%nat in
          if decide (j = length l) then None else Some (slot (sb_fifo s) b j, slot_stage (sb_fifo s) b j st)).
Proof.
  revert k. induction fuel as [|fuel IH]; intros k Hk Hf; [lia|]. cbn [flush_search].
  destruct (lookup_lt_is_Some_2 l k Hk) as [x Hx].
  unfold sb_get_item, sb_get_next_id_stage. rewrite (window_get_checked W), Hx by done. cbn [mbind option_bind].
  rewrite (drop_S _ _ _ Hx). cbn [prefix_len]. rewrite <- negb_orb. fold (survives pack x).
  destruct (survives pack x); cbn [negb].
  - rewrite (window_next_id_stage W) by done. cbn [mbind option_bind]. rewrite (window_loop_test W) by done.
    case_bool_decide as Hl.
    + rewrite IH by lia. by rewrite Nat.add_succ_r.
    + rewrite drop_ge by lia. cbn [prefix_len]. cbv zeta. by rewrite decide_True by lia.
  - cbv zeta. rewrite Nat.add_0_r. by rewrite decide_False by lia.
Qed.

Lemma prefix_len_take f (l' : list store_buffer_item_t) :
  (prefix_len f l' <= length l')%nat /\ Forall (fun x => f x = true) (take (prefix_len f l') l').
Proof.
  induction l' as [|x l' [IH1 IH2]]; cbn; [by split|].
  destruct (f x) eqn:E; cbn; (split; [lia|]); by constructor.
Qed.

Lemma sb_flush_spec pack :
  exists s', sb_flush s pack = Some s' /\
    window (sb_fifo s') (take (prefix_len (survives pack) l) l) b st /\ sb_sync_request_q s' = [] /\
    buffer (sb_fifo s') = buffer (sb_fifo s).
Proof.
  unfold sb_flush, sb_get_front_id_stage. rewrite (window_empty W).
  destruct (window_facts W) as (_ & _ & _ & Hlen & Hr & Hrs & _).
  case_bool_decide as E; [subst l; cbn; eexists; split; [reflexivity|]; by split_and!|].
  assert (0 < length l)%nat by (destruct l; simpl; [done|lia]).
  rewrite Hr, Hrs, flush_search_spec by lia. cbn [mbind option_bind]. rewrite drop_0, Nat.add_0_l.
  destruct (prefix_len_take (survives pack) l) as [Hle _].
  eexists. split; [reflexivity|]. case_decide as Ej.
  - rewrite Ej, take_ge by lia. by split_and!.
  - split_and!; [|done|done]. by apply (window_truncate W).
Qed.

(** The effect of the commit feedback on one store. *)
Definition mark (pack : commit_feedback_pack_t) (it : store_buffer_item_t) : store_buffer_item_t :=
  if rob_id_committed pack (sb_rob_id it) then it <| sb_committed := true |> else it.

End loops.

Lemma mark_loop_spec pack fuel s l b st k :
  window (sb_fifo s) l b st -> (k < length l)%nat -> (length l - k <= fuel)%nat ->
  exists s', mark_loop fuel s pack (slot (sb_fifo s) b 0) (slot (sb_fifo s) b k) = Some s' /\
    window (sb_fifo s') (take k l ++ map (mark pack) (drop k l)) b st /\
    sb_sync_request_q s' = sb_sync_request_q s.
Proof.
  revert s l k. induction fuel as [|fuel IH]; intros s l k W Hk Hf; [lia|]. cbn [mark_loop].
  destruct (lookup_lt_is_Some_2 l k Hk) as [x Hx].
  unfold sb_get_item, sb_set_item. rewrite (window_get_checked W), Hx by done. cbn [mbind option_bind].
  fold (mark pack x). destruct (window_set_checked W k (mark pack x) Hk) as (f' & -> & W' & Hcap & _).
  cbn [mbind option_bind]. unfold sb_get_next_id. cbn [sb_fifo upd].
  set (s1 := s <| sb_fifo := f' |>). assert (slot (sb_fifo s) b = slot (sb_fifo s1) b) as Hsl
    by (unfold slot; by rewrite Hcap).
  rewrite Hsl. assert (f' = sb_fifo s1) as Ef by done.
  assert (sb_sync_request_q s1 = sb_sync_request_q s) as Hq1 by done. rewrite Ef in W' |- *. clearbody s1.
  rewrite (window_next_id W') by (by rewrite length_insert). cbn [mbind option_bind].
  rewrite (window_loop_test W') by (by rewrite length_insert). rewrite length_insert.
  rewrite (drop_S _ _ _ Hx). cbn [map].
  case_bool_decide as Hl.
  - destruct (IH s1 (<[k := mark pack x]> l) (S k) W') as (s' & -> & W2 & Hq); [rewrite length_insert; lia..|].
    exists s'. split_and!; [done| |by rewrite Hq].
    rewrite (take_S_r _ k (mark pack x)) in W2 by (by apply list_lookup_insert_eq).
    rewrite take_insert_ge, drop_insert_lt, <- app_assoc in W2 by lia. done.
  - exists s1. split_and!; [done| |done]. rewrite drop_ge by lia. cbn [map].
    replace (take k l ++ [mark pack x]) with (<[k := mark pack x]> l); [done|].
    rewrite insert_take_drop by lia. by rewrite drop_ge by lia.
Qed.

Lemma sb_mark_committed_spec pack s l b st :
  window (sb_fifo s) l b st ->
  exists s', sb_mark_committed s pack = Some s' /\ window (sb_fifo s') (map (mark pack) l) b st /\
    sb_sync_request_q s' = sb_sync_request_q s.
Proof.
  intros W. unfold sb_mark_committed, sb_get_front_id. rewrite (window_front_id W).
  case_decide as E; [subst; by exists s|]. destruct (window_facts W) as (_ & _ & _ & Hlen & _).
  assert (0 < length l)%nat by (destruct l; simpl; [done|lia]).
  destruct (mark_loop_spec pack (length (buffer (sb_fifo s))) s l b st 0 W) as (s' & E' & W' & Hq); [lia..|].
  exists s'. rewrite take_0, drop_0 in W'. by split_and!.
Qed.

(** * Forwarding is correct *)

Definition width_of_size (n : Z) : access_width := if n =? 1 then W8 else if n =? 2 then W16 else W32.

(** Writing the buffered stores to the bus, oldest first: what the buffer
    eventually does with them. *)
Fixpoint drain (bs : bus) (l : list store_buffer_item_t) : option bus :=
  match l with
  | [] => Some bs
  | it :: l =>
      bs ← bus_write (width_of_size (sb_size it)) bs (sb_addr it) (sb_data it mod 2 ^ (8 * sb_size it));
      drain bs l
  end.

(** A buffered store to a mapped memory. *)
Definition memory_store (bs : bus) (it : store_buffer_item_t) : Prop :=
  store_ok it /\ memory_access bs (width_of_size (sb_size it)) (sb_addr it).

Lemma width_of_size_bytes n : access_size_ok n -> width_bytes (width_of_size n) = n.
Proof. by intros [-> | [-> | ->]]. Qed.

Lemma byte_mod k d n : 0 <= k < n -> byte k (d mod 2 ^ (8 * n)) = byte k d.
Proof.
  intros Hk. apply byte_ext; [|apply byte_range..]. intros i Hi. rewrite !byte_testbit by lia.
  replace (i <? 8) with true by (bcase; lia). cbn [andb]. apply Z.mod_pow2_bits_low. lia.
Qed.

Lemma drain_bytes l bs :
  bus_ok bs -> Forall (memory_store bs) l ->
  exists bs', drain bs l = Some bs' /\ bus_ok bs' /\
    (forall a, bus_byte bs' a = fold_left (fun old it => store_byte it a old) l (bus_byte bs a)) /\
    (forall w a, memory_access bs' w a <-> memory_access bs w a).
Proof.
  revert bs. induction l as [|it l IH]; intros bs Hok Hl; [by exists bs|].
  apply Forall_cons_iff in Hl as [[(Hsz & Ha & Has & Hd) Hacc] Hl]. cbn [drain fold_left].
  pose proof (width_of_size_bytes _ Hsz) as Hw.
  destruct (bus_write_memory bs (width_of_size (sb_size it)) (sb_addr it) (sb_data it mod 2 ^ (8 * sb_size it)))
    as (b1 & -> & Hok1 & _ & Hb1 & Hacc1); [done|done|rewrite Hw; apply Z.mod_pos_bound, Z.pow_pos_nonneg; unfold access_size_ok in *; lia|].
  cbn [mbind option_bind]. destruct (IH b1 Hok1) as (bs' & -> & Hok' & Hb' & Hacc').
  { eapply list.Forall_impl; [exact Hl|]. intros x [Hx Hax]. split; [done|]. by apply Hacc1. }
  exists bs'. split_and!; [done|done| |].
  - intros a. rewrite Hb'. f_equal. rewrite Hb1, Hw. unfold store_byte. case_decide; [|done].
    apply byte_mod. lia.
  - intros w a. by rewrite Hacc', Hacc1.
Qed.

Lemma feedback_fold_bytes addr size l r k :
  access_size_ok size -> 0 <= addr -> addr + size < 2 ^ 32 -> is_u32 r -> Forall store_ok l -> 0 <= k < 4 ->
  byte k (fold_left (feedback_step addr size) l r) =
    (if k <? size then fold_left (fun old it => store_byte it (addr + k) old) l (byte k r) else byte k r) /\
  is_u32 (fold_left (feedback_step addr size) l r).
Proof.
  intros Hsz Ha Has. revert r. induction l as [|it l IH]; intros r Hr Hl Hk; cbn [fold_left].
  { split; [by case_match|done]. }
  apply Forall_cons_iff in Hl as [Hit Hl].
  destruct (feedback_step_bytes addr size r it k) as [Hb Hr']; [done..|].
  destruct (IH (feedback_step addr size r it) Hr' Hl Hk) as [-> ?]. split; [|done]. rewrite Hb.
  by destruct (Z.ltb_spec k size).
Qed.

Lemma forwarding_value s l b st bs w addr x :
  window (sb_fifo s) l b st -> bus_ok bs -> Forall (memory_store bs) l -> memory_access bs w addr ->
  bus_read w bs addr = Some (x, bs) ->
  exists y bs', sb_get_feedback_value s addr (width_bytes w) x = Some y /\
    drain bs l = Some bs' /\ bus_read w bs' addr = Some (y, bs').
Proof.
  intros W Hok Hl Hacc Hx. rewrite (feedback_value_fold W).
  destruct (drain_bytes l bs Hok Hl) as (bs' & Ed & Hok' & Hb' & Hacc').
  destruct (bus_read_memory bs w addr Hok Hacc) as (x' & Ex & Hxr & Hxb). rewrite Hx in Ex. simplify_eq.
  destruct (bus_read_memory bs' w addr Hok') as (y & Ey & Hyr & Hyb); [by apply Hacc'|].
  assert (access_size_ok (width_bytes w)) as Hsz by (unfold access_size_ok; destruct w; simpl; lia).
  assert (0 <= addr /\ addr + width_bytes w < 2 ^ 32) as [Ha Has].
  { destruct Hacc as (k & si & mem & Hk & _ & H1 & H2 & _).
    assert (slave_ok si) as (S1 & S2 & S3 & _) by (by apply (Forall_lookup_1 _ _ _ _ (bus_slaves bs Hok) Hk)). lia. }
  assert (2 ^ (8 * width_bytes w) <= 2 ^ 32) as Hp by (apply Z.pow_le_mono_r; unfold access_size_ok in *; lia).
  assert (Forall store_ok l) as Hst by (eapply list.Forall_impl; [exact Hl|]; by intros ? [? _]).
  assert (is_u32 x') as Hx32 by (unfold is_u32; lia).
  eexists _, bs'. split; [reflexivity|]. split; [done|]. rewrite Ey. do 2 f_equal.
  apply (bytes_inj 4); [lia|change (8 * 4) with 32; lia| |].
  - destruct (feedback_fold_bytes addr (width_bytes w) l x' 0) as [_ H]; try done.
  - intros k Hk. destruct (feedback_fold_bytes addr (width_bytes w) l x' k) as [-> _]; try done.
    destruct (Z.ltb_spec k (width_bytes w)).
    + rewrite Hyb, Hb', Hxb by lia. done.
    + assert (forall v, 0 <= v < 2 ^ (8 * width_bytes w) -> byte k v = 0) as Hz.
      { intros v Hv. apply byte_ext; [|apply byte_range|lia]. intros i Hi. rewrite byte_testbit, Z.bits_0 by lia.
        rewrite (testbit_high (8 * width_bytes w)) by (unfold access_size_ok in *; lia). apply andb_false_r. }
      by rewrite !Hz.
Qed.

(** C8: store-to-load forwarding.  For an aligned load from memory with any
    number of buffered stores to memory in front of it, of any sizes and
    overlaps, [get_feedback_value] turns the value read from the bus into the
    value a load would read after all these stores had been written to the
    bus in order. *)
Theorem sb_forwarding_correct s l b st bs w addr x :
  window (sb_fifo s) l b st -> bus_ok bs -> Forall (memory_store bs) l -> memory_access bs w addr ->
  bus_read w bs addr = Some (x, bs) ->
  exists y bs', sb_get_feedback_value s addr (width_bytes w) x = Some y /\
    drain bs l = Some bs' /\ bus_read w bs' addr = Some (y, bs').
Proof. apply forwarding_value. Qed.

(** Two buffered stores that overlap the load from the right and from the
    left. *)
Definition sb_demo_item (committed : bool) (rob_id addr data size : Z) : store_buffer_item_t :=
  mk_sb_item true committed rob_id 0x80000000 addr data size.

Definition sb_demo_list : list store_buffer_item_t :=
  [sb_demo_item true 3 0x80000004 0x11223344 4; sb_demo_item false 4 0x80000007 0xaa 1;
   sb_demo_item false 5 0x80000004 0xbeef 2].

Definition sb_demo : store_buffer :=
  mk_store_buffer (mk_fifo (sb_demo_list ++ [sb_demo_item false 0 0 0 1]) 4 3 false 0 false false 0 false)
    [sb_req_pop].

Lemma sb_demo_window : window (sb_fifo sb_demo) sb_demo_list 0 false.
Proof. split; cbn; try done; lia. Qed.

Lemma sb_forwarding_correct_witness :
  exists y bs', sb_get_feedback_value sb_demo 0x80000004 4 0 = Some y /\
    drain bus_demo sb_demo_list = Some bs' /\ bus_read W32 bs' 0x80000004 = Some (y, bs') /\ y = 0xaa22beef.
Proof.
  destruct (sb_forwarding_correct sb_demo sb_demo_list 0 false bus_demo W32 0x80000004 0)
    as (y & bs' & H1 & H2 & H3).
  - exact sb_demo_window.
  - exact bus_demo_ok.
  - repeat apply Forall_cons_2; try apply Forall_nil_2;
      (split; [split_and!; unfold access_size_ok, is_u32; cbn; lia|]);
      exists 0%nat; eexists _, _; cbn; split_and!; try done; lia.
  - exists 0%nat. eexists _, _. cbn. split_and!; try done; lia.
  - reflexivity.
  - exists y, bs'. split_and!; [exact H1|exact H2|exact H3|]. vm_compute in H1. congruence.
Defined.

(** * One cycle of the buffer *)

(** The store that leaves the buffer in a cycle without a flush. *)
Definition written_back (l : list store_buffer_item_t) : list store_buffer_item_t :=
  match l with
  | it :: _ => if sb_committed it then [it] else []
  | [] => []
  end.

(** Its request to the bus. *)
Definition store_request (it : store_buffer_item_t) : bus_sync_request :=
  mk_bus_req (width_of_size (sb_size it)) (sb_addr it) (sb_data it mod 2 ^ (8 * sb_size it)).

(** The contract of [run]: the stores that remain, and those written. *)
Definition sb_cycle (pack : commit_feedback_pack_t) (l : list store_buffer_item_t)
    : list store_buffer_item_t * list store_buffer_item_t :=
  let flush := cf_enable pack && cf_flush pack in
  let written := if flush then [] else written_back l in
  let remain := if flush then take (prefix_len (survives pack) l) l else drop (length written) l in
  (if cf_enable pack then map (mark pack) remain else remain, written).

Lemma bus_no_request bs : bs <| bus_sync_request_q ::= fun q => q ++ [] |> = bs.
Proof. destruct bs as [q si]. unfold upd. cbn. by rewrite app_nil_r. Qed.

Lemma sb_write_back_spec s l b st bs :
  window (sb_fifo s) l b st -> Forall store_ok l ->
  exists s' b' st', sb_write_back s bs =
      Some (s', bs <| bus_sync_request_q ::= fun q => q ++ map store_request (written_back l) |>) /\
    window (sb_fifo s') (drop (length (written_back l)) l) b' st' /\
    sb_sync_request_q s' = sb_sync_request_q s.
Proof.
  intros W Hl. unfold sb_write_back. rewrite (repr_get_front W). cbn [mbind option_bind window_queue q_items].
  destruct l as [|it l]; cbn [head].
  { exists s, b, st. cbn [map written_back]. by rewrite bus_no_request. }
  apply Forall_cons_iff in Hl as [(Hsz & _ & _ & Hd) Hl]. cbn [written_back].
  destruct (sb_committed it); cbn [map length drop].
  - destruct (window_pop W it l eq_refl) as (f' & b' & st' & -> & W' & _). cbn [mbind option_bind].
    exists (s <| sb_fifo := f' |>), b', st'. split; [|done]. unfold store_request.
    destruct Hsz as [-> | [-> | ->]]; cbn; try done. do 3 f_equal. unfold bus_push_request.
    change (2 ^ (8 * 4)) with (2 ^ 32). by rewrite Z.mod_small.
  - exists s, b, st. by rewrite bus_no_request.
Qed.

(** C25: a cycle of the store buffer.  Without a flush the oldest store, when it
    is committed, leaves the buffer and becomes the one write request handed
    to the bus, cut to its size; with a flush nothing is written and exactly
    the longest prefix of stores that are committed, or committed by this very
    commit group, stays, while requests of this cycle are dropped.  Then every
    remaining store the commit group names is marked committed, and no other
    field of any store changes.  No assertion fails. *)
Theorem sb_run_spec s l b st bs pack :
  window (sb_fifo s) l b st -> Forall store_ok l ->
  exists s' b' st', sb_run s bs pack =
      Some (s', bs <| bus_sync_request_q ::= fun q => q ++ map store_request (sb_cycle pack l).2 |>) /\
    window (sb_fifo s') (sb_cycle pack l).1 b' st' /\
    sb_sync_request_q s' = (if cf_enable pack && cf_flush pack then [] else sb_sync_request_q s).
Proof.
  intros W Hl. unfold sb_run, sb_cycle. cbn [fst snd].
  destruct (cf_enable pack && cf_flush pack) eqn:E.
  - destruct (sb_flush_spec W pack) as (s1 & -> & W1 & Hq & _). cbn [mbind option_bind map].
    rewrite bus_no_request. apply andb_true_iff in E as [-> _].
    destruct (sb_mark_committed_spec pack s1 _ b st W1) as (s2 & -> & W2 & Hq2). cbn [mbind option_bind].
    exists s2, b, st. by rewrite Hq2.
  - destruct (sb_write_back_spec s l b st bs W Hl) as (s1 & b1 & st1 & -> & W1 & Hq1). cbn [mbind option_bind].
    destruct (cf_enable pack).
    + destruct (sb_mark_committed_spec pack s1 _ b1 st1 W1) as (s2 & -> & W2 & Hq2). cbn [mbind option_bind].
      exists s2, b1, st1. by rewrite Hq2.
    + cbn [mbind option_bind]. by exists s1, b1, st1.
Qed.

Lemma sb_run_spec_witness :
  exists s' b' st', sb_run sb_demo bus_demo (mk_commit_feedback true false 0 false 0 true [(true, 4); (false, 5)] false false 0) =
      Some (s', bus_demo) /\
    window (sb_fifo s') [sb_demo_item true 3 0x80000004 0x11223344 4; sb_demo_item true 4 0x80000007 0xaa 1] b' st' /\
    sb_sync_request_q s' = [].
Proof.
  destruct (sb_run_spec sb_demo sb_demo_list 0 false bus_demo
    (mk_commit_feedback true false 0 false 0 true [(true, 4); (false, 5)] false false 0)) as (s' & b' & st' & H).
  - exact sb_demo_window.
  - repeat apply Forall_cons_2; try apply Forall_nil_2; split_and!; unfold access_size_ok, is_u32; cbn; lia.
  - exists s', b', st'. exact H.
Defined.
