(* ===== verification/Packs.v ===== *)
(** The packets that cross the pipeline: one record per struct of
    [pipeline/fetch_decode.h], [decode_rename.h], [rename_readreg.h],
    [readreg_issue.h], [issue_execute.h], [execute_wb.h] and [wb_commit.h],
    field by field.
    The [..._zero] packets are those the code makes with
    [memset(&pack, 0, sizeof(pack))]: the zero of an enumeration is its first
    enumerator, and [sub_none] is the cleared union. *)

From Stdlib Require Import ZArith Lia.
From stdpp Require Import base numbers list option tactics.
From S2P Require Import Prelude Common PipelineCommon.

Local Open Scope Z_scope.

(** From fetch to decode. *)
Record fetch_decode_pack_t := mk_fetch_decode_pack_t {
  fd_pc : Z;
  fd_value : Z;
  fd_enable : bool;
  fd_has_exception : bool;
  fd_exception_id : riscv_exception_t;
  fd_exception_value : Z;
  fd_predicted : bool;
  fd_predicted_jump : bool;
  fd_predicted_next_pc : Z;
  fd_checkpoint_id_valid : bool;
  fd_checkpoint_id : Z
}.

#[export] Instance fetch_decode_pack_eta : Eta fetch_decode_pack_t := fun r =>
  mk_fetch_decode_pack_t (fd_pc r) (fd_value r) (fd_enable r) (fd_has_exception r) (fd_exception_id r)
    (fd_exception_value r) (fd_predicted r) (fd_predicted_jump r) (fd_predicted_next_pc r)
    (fd_checkpoint_id_valid r) (fd_checkpoint_id r).

Definition fetch_decode_pack_zero : fetch_decode_pack_t :=
  mk_fetch_decode_pack_t 0 0 false false instruction_address_misaligned 0 false false 0 false 0.

(** From decode to rename. *)
Record decode_rename_pack_t := mk_decode_rename_pack_t {
  dr_enable : bool;
  dr_value : Z;
  dr_valid : bool;
  dr_pc : Z;
  dr_imm : Z;
  dr_has_exception : bool;
  dr_exception_id : riscv_exception_t;
  dr_exception_value : Z;
  dr_predicted : bool;
  dr_predicted_jump : bool;
  dr_predicted_next_pc : Z;
  dr_checkpoint_id_valid : bool;
  dr_checkpoint_id : Z;
  dr_rs1 : Z;
  dr_arg1_src : arg_src_t;
  dr_rs1_need_map : bool;
  dr_rs2 : Z;
  dr_arg2_src : arg_src_t;
  dr_rs2_need_map : bool;
  dr_rd : Z;
  dr_rd_enable : bool;
  dr_need_rename : bool;
  dr_csr : Z;
  dr_op : op_t;
  dr_op_unit : op_unit_t;
  dr_sub_op : sub_op_t
}.

#[export] Instance decode_rename_pack_eta : Eta decode_rename_pack_t := fun r =>
  mk_decode_rename_pack_t (dr_enable r) (dr_value r) (dr_valid r) (dr_pc r) (dr_imm r) (dr_has_exception r)
    (dr_exception_id r) (dr_exception_value r) (dr_predicted r) (dr_predicted_jump r) (dr_predicted_next_pc r)
    (dr_checkpoint_id_valid r) (dr_checkpoint_id r) (dr_rs1 r) (dr_arg1_src r) (dr_rs1_need_map r) (dr_rs2 r)
    (dr_arg2_src r) (dr_rs2_need_map r) (dr_rd r) (dr_rd_enable r) (dr_need_rename r) (dr_csr r) (dr_op r)
    (dr_op_unit r) (dr_sub_op r).

Definition decode_rename_pack_zero : decode_rename_pack_t :=
  mk_decode_rename_pack_t false 0 false 0 0 false instruction_address_misaligned 0 false false 0 false 0 0
    src_reg false 0 src_reg false 0 false false 0 op_add unit_alu sub_none.

(** From issue to the execution units. *)
Record issue_execute_pack_t := mk_issue_execute_pack_t {
  ie_enable : bool;
  ie_value : Z;
  ie_valid : bool;
  ie_rob_id : Z;
  ie_pc : Z;
  ie_imm : Z;
  ie_has_exception : bool;
  ie_exception_id : riscv_exception_t;
  ie_exception_value : Z;
  ie_predicted : bool;
  ie_predicted_jump : bool;
  ie_predicted_next_pc : Z;
  ie_checkpoint_id_valid : bool;
  ie_checkpoint_id : Z;
  ie_rs1 : Z;
  ie_arg1_src : arg_src_t;
  ie_rs1_need_map : bool;
  ie_rs1_phy : Z;
  ie_src1_value : Z;
  ie_src1_loaded : bool;
  ie_rs2 : Z;
  ie_arg2_src : arg_src_t;
  ie_rs2_need_map : bool;
  ie_rs2_phy : Z;
  ie_src2_value : Z;
  ie_src2_loaded : bool;
  ie_rd : Z;
  ie_rd_enable : bool;
  ie_need_rename : bool;
  ie_rd_phy : Z;
  ie_csr : Z;
  ie_op : op_t;
  ie_op_unit : op_unit_t;
  ie_lsu_addr : Z;
  ie_sub_op : sub_op_t
}.

#[export] Instance issue_execute_pack_eta : Eta issue_execute_pack_t := fun r =>
  mk_issue_execute_pack_t (ie_enable r) (ie_value r) (ie_valid r) (ie_rob_id r) (ie_pc r) (ie_imm r)
    (ie_has_exception r) (ie_exception_id r) (ie_exception_value r) (ie_predicted r) (ie_predicted_jump r)
    (ie_predicted_next_pc r) (ie_checkpoint_id_valid r) (ie_checkpoint_id r) (ie_rs1 r) (ie_arg1_src r)
    (ie_rs1_need_map r) (ie_rs1_phy r) (ie_src1_value r) (ie_src1_loaded r) (ie_rs2 r) (ie_arg2_src r)
    (ie_rs2_need_map r) (ie_rs2_phy r) (ie_src2_value r) (ie_src2_loaded r) (ie_rd r) (ie_rd_enable r)
    (ie_need_rename r) (ie_rd_phy r) (ie_csr r) (ie_op r) (ie_op_unit r) (ie_lsu_addr r) (ie_sub_op r).

Definition issue_execute_pack_zero : issue_execute_pack_t :=
  mk_issue_execute_pack_t false 0 false 0 0 0 false instruction_address_misaligned 0 false false 0 false 0 0
    src_reg false 0 0 false 0 src_reg false 0 0 false 0 false false 0 0 op_add unit_alu 0 sub_none.

(** From the execution units to write-back. *)
Record execute_wb_pack_t := mk_execute_wb_pack_t {
  ew_enable : bool;
  ew_value : Z;
  ew_valid : bool;
  ew_rob_id : Z;
  ew_pc : Z;
  ew_imm : Z;
  ew_has_exception : bool;
  ew_exception_id : riscv_exception_t;
  ew_exception_value : Z;
  ew_predicted : bool;
  ew_predicted_jump : bool;
  ew_predicted_next_pc : Z;
  ew_checkpoint_id_valid : bool;
  ew_checkpoint_id : Z;
  ew_bru_jump : bool;
  ew_bru_next_pc : Z;
  ew_rs1 : Z;
  ew_arg1_src : arg_src_t;
  ew_rs1_need_map : bool;
  ew_rs1_phy : Z;
  ew_src1_value : Z;
  ew_src1_loaded : bool;
  ew_rs2 : Z;
  ew_arg2_src : arg_src_t;
  ew_rs2_need_map : bool;
  ew_rs2_phy : Z;
  ew_src2_value : Z;
  ew_src2_loaded : bool;
  ew_rd : Z;
  ew_rd_enable : bool;
  ew_need_rename : bool;
  ew_rd_phy : Z;
  ew_rd_value : Z;
  ew_csr : Z;
  ew_csr_newvalue : Z;
  ew_csr_newvalue_valid : bool;
  ew_op : op_t;
  ew_op_unit : op_unit_t;
  ew_sub_op : sub_op_t
}.

#[export] Instance execute_wb_pack_eta : Eta execute_wb_pack_t := fun r =>
  mk_execute_wb_pack_t (ew_enable r) (ew_value r) (ew_valid r) (ew_rob_id r) (ew_pc r) (ew_imm r)
    (ew_has_exception r) (ew_exception_id r) (ew_exception_value r) (ew_predicted r) (ew_predicted_jump r)
    (ew_predicted_next_pc r) (ew_checkpoint_id_valid r) (ew_checkpoint_id r) (ew_bru_jump r) (ew_bru_next_pc r)
    (ew_rs1 r) (ew_arg1_src r) (ew_rs1_need_map r) (ew_rs1_phy r) (ew_src1_value r) (ew_src1_loaded r)
    (ew_rs2 r) (ew_arg2_src r) (ew_rs2_need_map r) (ew_rs2_phy r) (ew_src2_value r) (ew_src2_loaded r) (ew_rd r)
    (ew_rd_enable r) (ew_need_rename r) (ew_rd_phy r) (ew_rd_value r) (ew_csr r) (ew_csr_newvalue r)
    (ew_csr_newvalue_valid r) (ew_op r) (ew_op_unit r) (ew_sub_op r).

Definition execute_wb_pack_zero : execute_wb_pack_t :=
  mk_execute_wb_pack_t false 0 false 0 0 0 false instruction_address_misaligned 0 false false 0 false 0 false 0
    0 src_reg false 0 0 false 0 src_reg false 0 0 false 0 false false 0 0 0 0 false op_add unit_alu sub_none.

(** The assignments [send_pack.f = rev_pack.f] with which every execution unit
    starts; the fields not assigned keep the zero of the [memset]. *)
Definition wb_pack_of (rev_pack : issue_execute_pack_t) : execute_wb_pack_t :=
  mk_execute_wb_pack_t (ie_enable rev_pack) (ie_value rev_pack) (ie_valid rev_pack) (ie_rob_id rev_pack)
    (ie_pc rev_pack) (ie_imm rev_pack) (ie_has_exception rev_pack) (ie_exception_id rev_pack)
    (ie_exception_value rev_pack) (ie_predicted rev_pack) (ie_predicted_jump rev_pack)
    (ie_predicted_next_pc rev_pack) (ie_checkpoint_id_valid rev_pack) (ie_checkpoint_id rev_pack) false 0
    (ie_rs1 rev_pack) (ie_arg1_src rev_pack) (ie_rs1_need_map rev_pack) (ie_rs1_phy rev_pack)
    (ie_src1_value rev_pack) (ie_src1_loaded rev_pack) (ie_rs2 rev_pack) (ie_arg2_src rev_pack)
    (ie_rs2_need_map rev_pack) (ie_rs2_phy rev_pack) (ie_src2_value rev_pack) (ie_src2_loaded rev_pack)
    (ie_rd rev_pack) (ie_rd_enable rev_pack) (ie_need_rename rev_pack) (ie_rd_phy rev_pack) 0 (ie_csr rev_pack)
    0 false (ie_op rev_pack) (ie_op_unit rev_pack) (ie_sub_op rev_pack).

(** The CSR unit does not pass on the prediction and the checkpoint. *)
Definition wb_pack_of_csr (rev_pack : issue_execute_pack_t) : execute_wb_pack_t :=
  mk_execute_wb_pack_t (ie_enable rev_pack) (ie_value rev_pack) (ie_valid rev_pack) (ie_rob_id rev_pack)
    (ie_pc rev_pack) (ie_imm rev_pack) (ie_has_exception rev_pack) (ie_exception_id rev_pack)
    (ie_exception_value rev_pack) false false 0 false 0 false 0 (ie_rs1 rev_pack) (ie_arg1_src rev_pack)
    (ie_rs1_need_map rev_pack) (ie_rs1_phy rev_pack) (ie_src1_value rev_pack) (ie_src1_loaded rev_pack)
    (ie_rs2 rev_pack) (ie_arg2_src rev_pack) (ie_rs2_need_map rev_pack) (ie_rs2_phy rev_pack)
    (ie_src2_value rev_pack) (ie_src2_loaded rev_pack) (ie_rd rev_pack) (ie_rd_enable rev_pack)
    (ie_need_rename rev_pack) (ie_rd_phy rev_pack) 0 (ie_csr rev_pack) 0 false (ie_op rev_pack)
    (ie_op_unit rev_pack) (ie_sub_op rev_pack).

(** From rename to register read: one slot of the group. *)
Record rename_readreg_op_info_t := mk_rename_readreg_op_info_t {
  rr_enable : bool;
  rr_value : Z;
  rr_valid : bool;
  rr_rob_id : Z;
  rr_pc : Z;
  rr_imm : Z;
  rr_has_exception : bool;
  rr_exception_id : riscv_exception_t;
  rr_exception_value : Z;
  rr_predicted : bool;
  rr_predicted_jump : bool;
  rr_predicted_next_pc : Z;
  rr_checkpoint_id_valid : bool;
  rr_checkpoint_id : Z;
  rr_rs1 : Z;
  rr_arg1_src : arg_src_t;
  rr_rs1_need_map : bool;
  rr_rs1_phy : Z;
  rr_rs2 : Z;
  rr_arg2_src : arg_src_t;
  rr_rs2_need_map : bool;
  rr_rs2_phy : Z;
  rr_rd : Z;
  rr_rd_enable : bool;
  rr_need_rename : bool;
  rr_rd_phy : Z;
  rr_csr : Z;
  rr_op : op_t;
  rr_op_unit : op_unit_t;
  rr_sub_op : sub_op_t
}.

#[export] Instance rename_readreg_op_info_eta : Eta rename_readreg_op_info_t := fun r =>
  mk_rename_readreg_op_info_t (rr_enable r) (rr_value r) (rr_valid r) (rr_rob_id r) (rr_pc r) (rr_imm r)
    (rr_has_exception r) (rr_exception_id r) (rr_exception_value r) (rr_predicted r) (rr_predicted_jump r)
    (rr_predicted_next_pc r) (rr_checkpoint_id_valid r) (rr_checkpoint_id r) (rr_rs1 r) (rr_arg1_src r)
    (rr_rs1_need_map r) (rr_rs1_phy r) (rr_rs2 r) (rr_arg2_src r) (rr_rs2_need_map r) (rr_rs2_phy r) (rr_rd r)
    (rr_rd_enable r) (rr_need_rename r) (rr_rd_phy r) (rr_csr r) (rr_op r) (rr_op_unit r) (rr_sub_op r).

Definition rename_readreg_op_info_zero : rename_readreg_op_info_t :=
  mk_rename_readreg_op_info_t false 0 false 0 0 0 false instruction_address_misaligned 0 false false 0 false 0 0
    src_reg false 0 0 src_reg false 0 0 false false 0 0 op_add unit_alu sub_none.

(** From register read to issue: one slot of the group. *)
Record readreg_issue_op_info_t := mk_readreg_issue_op_info_t {
  ri_enable : bool;
  ri_value : Z;
  ri_valid : bool;
  ri_rob_id : Z;
  ri_pc : Z;
  ri_imm : Z;
  ri_has_exception : bool;
  ri_exception_id : riscv_exception_t;
  ri_exception_value : Z;
  ri_predicted : bool;
  ri_predicted_jump : bool;
  ri_predicted_next_pc : Z;
  ri_checkpoint_id_valid : bool;
  ri_checkpoint_id : Z;
  ri_rs1 : Z;
  ri_arg1_src : arg_src_t;
  ri_rs1_need_map : bool;
  ri_rs1_phy : Z;
  ri_src1_value : Z;
  ri_src1_loaded : bool;
  ri_rs2 : Z;
  ri_arg2_src : arg_src_t;
  ri_rs2_need_map : bool;
  ri_rs2_phy : Z;
  ri_src2_value : Z;
  ri_src2_loaded : bool;
  ri_rd : Z;
  ri_rd_enable : bool;
  ri_need_rename : bool;
  ri_rd_phy : Z;
  ri_csr : Z;
  ri_op : op_t;
  ri_op_unit : op_unit_t;
  ri_sub_op : sub_op_t
}.

#[export] Instance readreg_issue_op_info_eta : Eta readreg_issue_op_info_t := fun r =>
  mk_readreg_issue_op_info_t (ri_enable r) (ri_value r) (ri_valid r) (ri_rob_id r) (ri_pc r) (ri_imm r)
    (ri_has_exception r) (ri_exception_id r) (ri_exception_value r) (ri_predicted r) (ri_predicted_jump r)
    (ri_predicted_next_pc r) (ri_checkpoint_id_valid r) (ri_checkpoint_id r) (ri_rs1 r) (ri_arg1_src r)
    (ri_rs1_need_map r) (ri_rs1_phy r) (ri_src1_value r) (ri_src1_loaded r) (ri_rs2 r) (ri_arg2_src r)
    (ri_rs2_need_map r) (ri_rs2_phy r) (ri_src2_value r) (ri_src2_loaded r) (ri_rd r) (ri_rd_enable r)
    (ri_need_rename r) (ri_rd_phy r) (ri_csr r) (ri_op r) (ri_op_unit r) (ri_sub_op r).

Definition readreg_issue_op_info_zero : readreg_issue_op_info_t :=
  mk_readreg_issue_op_info_t false 0 false 0 0 0 false instruction_address_misaligned 0 false false 0 false 0 0
    src_reg false 0 0 false 0 src_reg false 0 0 false 0 false false 0 0 op_add unit_alu sub_none.

(** From write-back to commit: one slot per execution unit. *)
Record wb_commit_op_info_t := mk_wb_commit_op_info_t {
  wc_enable : bool;
  wc_value : Z;
  wc_valid : bool;
  wc_rob_id : Z;
  wc_pc : Z;
  wc_imm : Z;
  wc_has_exception : bool;
  wc_exception_id : riscv_exception_t;
  wc_exception_value : Z;
  wc_predicted : bool;
  wc_predicted_jump : bool;
  wc_predicted_next_pc : Z;
  wc_checkpoint_id_valid : bool;
  wc_checkpoint_id : Z;
  wc_bru_jump : bool;
  wc_bru_next_pc : Z;
  wc_rs1 : Z;
  wc_arg1_src : arg_src_t;
  wc_rs1_need_map : bool;
  wc_rs1_phy : Z;
  wc_src1_value : Z;
  wc_src1_loaded : bool;
  wc_rs2 : Z;
  wc_arg2_src : arg_src_t;
  wc_rs2_need_map : bool;
  wc_rs2_phy : Z;
  wc_src2_value : Z;
  wc_src2_loaded : bool;
  wc_rd : Z;
  wc_rd_enable : bool;
  wc_need_rename : bool;
  wc_rd_phy : Z;
  wc_rd_value : Z;
  wc_csr : Z;
  wc_csr_newvalue : Z;
  wc_csr_newvalue_valid : bool;
  wc_op : op_t;
  wc_op_unit : op_unit_t;
  wc_sub_op : sub_op_t
}.

#[export] Instance wb_commit_op_info_eta : Eta wb_commit_op_info_t := fun r =>
  mk_wb_commit_op_info_t (wc_enable r) (wc_value r) (wc_valid r) (wc_rob_id r) (wc_pc r) (wc_imm r)
    (wc_has_exception r) (wc_exception_id r) (wc_exception_value r) (wc_predicted r) (wc_predicted_jump r)
    (wc_predicted_next_pc r) (wc_checkpoint_id_valid r) (wc_checkpoint_id r) (wc_bru_jump r) (wc_bru_next_pc r)
    (wc_rs1 r) (wc_arg1_src r) (wc_rs1_need_map r) (wc_rs1_phy r) (wc_src1_value r) (wc_src1_loaded r)
    (wc_rs2 r) (wc_arg2_src r) (wc_rs2_need_map r) (wc_rs2_phy r) (wc_src2_value r) (wc_src2_loaded r) (wc_rd r)
    (wc_rd_enable r) (wc_need_rename r) (wc_rd_phy r) (wc_rd_value r) (wc_csr r) (wc_csr_newvalue r)
    (wc_csr_newvalue_valid r) (wc_op r) (wc_op_unit r) (wc_sub_op r).

Definition wb_commit_op_info_zero : wb_commit_op_info_t :=
  mk_wb_commit_op_info_t false 0 false 0 0 0 false instruction_address_misaligned 0 false false 0 false 0 false
    0 0 src_reg false 0 0 false 0 src_reg false 0 0 false 0 false false 0 0 0 0 false op_add unit_alu sub_none.

(** The assignments with which rename starts a slot. *)
Definition rename_op_of (rev_pack : decode_rename_pack_t) : rename_readreg_op_info_t :=
  mk_rename_readreg_op_info_t (dr_enable rev_pack) (dr_value rev_pack) (dr_valid rev_pack) 0 (dr_pc rev_pack)
    (dr_imm rev_pack) (dr_has_exception rev_pack) (dr_exception_id rev_pack) (dr_exception_value rev_pack)
    (dr_predicted rev_pack) (dr_predicted_jump rev_pack) (dr_predicted_next_pc rev_pack)
    (dr_checkpoint_id_valid rev_pack) (dr_checkpoint_id rev_pack) (dr_rs1 rev_pack) (dr_arg1_src rev_pack)
    (dr_rs1_need_map rev_pack) 0 (dr_rs2 rev_pack) (dr_arg2_src rev_pack) (dr_rs2_need_map rev_pack) 0
    (dr_rd rev_pack) (dr_rd_enable rev_pack) (dr_need_rename rev_pack) 0 (dr_csr rev_pack) (dr_op rev_pack)
    (dr_op_unit rev_pack) (dr_sub_op rev_pack).

(** The assignments with which register read starts a slot. *)
Definition readreg_op_of (rev_pack : rename_readreg_op_info_t) : readreg_issue_op_info_t :=
  mk_readreg_issue_op_info_t (rr_enable rev_pack) (rr_value rev_pack) (rr_valid rev_pack) (rr_rob_id rev_pack)
    (rr_pc rev_pack) (rr_imm rev_pack) (rr_has_exception rev_pack) (rr_exception_id rev_pack)
    (rr_exception_value rev_pack) (rr_predicted rev_pack) (rr_predicted_jump rev_pack)
    (rr_predicted_next_pc rev_pack) (rr_checkpoint_id_valid rev_pack) (rr_checkpoint_id rev_pack)
    (rr_rs1 rev_pack) (rr_arg1_src rev_pack) (rr_rs1_need_map rev_pack) (rr_rs1_phy rev_pack) 0 false
    (rr_rs2 rev_pack) (rr_arg2_src rev_pack) (rr_rs2_need_map rev_pack) (rr_rs2_phy rev_pack) 0 false
    (rr_rd rev_pack) (rr_rd_enable rev_pack) (rr_need_rename rev_pack) (rr_rd_phy rev_pack) (rr_csr rev_pack)
    (rr_op rev_pack) (rr_op_unit rev_pack) (rr_sub_op rev_pack).

(** The assignments of write-back: every field is passed on. *)
Definition commit_op_of (rev_pack : execute_wb_pack_t) : wb_commit_op_info_t :=
  mk_wb_commit_op_info_t (ew_enable rev_pack) (ew_value rev_pack) (ew_valid rev_pack) (ew_rob_id rev_pack)
    (ew_pc rev_pack) (ew_imm rev_pack) (ew_has_exception rev_pack) (ew_exception_id rev_pack)
    (ew_exception_value rev_pack) (ew_predicted rev_pack) (ew_predicted_jump rev_pack)
    (ew_predicted_next_pc rev_pack) (ew_checkpoint_id_valid rev_pack) (ew_checkpoint_id rev_pack)
    (ew_bru_jump rev_pack) (ew_bru_next_pc rev_pack) (ew_rs1 rev_pack) (ew_arg1_src rev_pack)
    (ew_rs1_need_map rev_pack) (ew_rs1_phy rev_pack) (ew_src1_value rev_pack) (ew_src1_loaded rev_pack)
    (ew_rs2 rev_pack) (ew_arg2_src rev_pack) (ew_rs2_need_map rev_pack) (ew_rs2_phy rev_pack)
    (ew_src2_value rev_pack) (ew_src2_loaded rev_pack) (ew_rd rev_pack) (ew_rd_enable rev_pack)
    (ew_need_rename rev_pack) (ew_rd_phy rev_pack) (ew_rd_value rev_pack) (ew_csr rev_pack)
    (ew_csr_newvalue rev_pack) (ew_csr_newvalue_valid rev_pack) (ew_op rev_pack) (ew_op_unit rev_pack)
    (ew_sub_op rev_pack).

(** The arrays [op_info] of the group packets, and their cleared values. *)
Definition rename_readreg_pack_t : Type := list rename_readreg_op_info_t.
Definition readreg_issue_pack_t : Type := list readreg_issue_op_info_t.
Definition wb_commit_pack_t : Type := list wb_commit_op_info_t.

Definition rename_readreg_pack_zero : rename_readreg_pack_t :=
  repeat rename_readreg_op_info_zero (Z.to_nat RENAME_WIDTH).
Definition readreg_issue_pack_zero : readreg_issue_pack_t :=
  repeat readreg_issue_op_info_zero (Z.to_nat READREG_WIDTH).
Definition wb_commit_pack_zero : wb_commit_pack_t :=
  repeat wb_commit_op_info_zero (Z.to_nat EXECUTE_UNIT_NUM).
