(* ===== verification/Isa.v ===== *)
(** The instruction set the core implements, RV32IM with the Zicsr
    instructions and [mret], as an abstract specification: the instructions,
    their encodings as the formats of the manual, and what each computes.

    Nothing here is taken from the program; decode ([Decode]) is proved to
    invert [encode], and the execution units ([ExecuteArith], [ExecuteCsr],
    [ExecuteLsu]) to compute what the instruction says. *)

From Stdlib Require Import ZArith Lia.
From stdpp Require Import base numbers list option tactics.
From S2P Require Import Prelude.

Local Open Scope Z_scope.

(** * Instructions *)

Inductive branch_op := BEQ | BNE | BLT | BGE | BLTU | BGEU.
Inductive load_op := LB | LH | LW | LBU | LHU.
Inductive store_op := SB | SH | SW.
Inductive imm_op := ADDI | SLTI | SLTIU | XORI | ORI | ANDI.
Inductive shift_op := SLLI | SRLI | SRAI.
Inductive reg_op := ADD | SUB | SLL | SLT | SLTU | XOR | SRL | SRA | OR | AND.
Inductive m_op := MUL | MULH | MULHSU | MULHU | DIV | DIVU | REM | REMU.
Inductive csr_op := CSRRW | CSRRS | CSRRC.

(** Registers are numbers in [[0, 32)], offsets and immediates are signed;
    [imm] of [LUI] and [AUIPC] is the 20-bit field. *)
Inductive instr :=
| LUI (rd imm : Z)
| AUIPC (rd imm : Z)
| JAL (rd off : Z)
| JALR (rd rs1 off : Z)
| BRANCH (op : branch_op) (rs1 rs2 off : Z)
| LOAD (op : load_op) (rd rs1 off : Z)
| STORE (op : store_op) (rs1 rs2 off : Z)
| OPIMM (op : imm_op) (rd rs1 imm : Z)
| SHIFT (op : shift_op) (rd rs1 shamt : Z)
| OP (op : reg_op) (rd rs1 rs2 : Z)
| OPM (op : m_op) (rd rs1 rs2 : Z)
| FENCE (pred_succ : Z)
| FENCE_I
| ECALL
| EBREAK
| MRET
| CSRREG (op : csr_op) (rd rs1 csr : Z)
| CSRIMM (op : csr_op) (rd zimm csr : Z).

Definition reg_ok (r : Z) : Prop := 0 <= r < 32.
Definition signed_ok (n imm : Z) : Prop := - 2 ^ (n - 1) <= imm < 2 ^ (n - 1).

Definition instr_ok (i : instr) : Prop :=
  match i with
  | LUI rd imm | AUIPC rd imm => reg_ok rd /\ 0 <= imm < 2 ^ 20
  | JAL rd off => reg_ok rd /\ signed_ok 21 off /\ off mod 2 = 0
  | JALR rd rs1 off => reg_ok rd /\ reg_ok rs1 /\ signed_ok 12 off
  | BRANCH _ rs1 rs2 off => reg_ok rs1 /\ reg_ok rs2 /\ signed_ok 13 off /\ off mod 2 = 0
  | LOAD _ rd rs1 off => reg_ok rd /\ reg_ok rs1 /\ signed_ok 12 off
  | STORE _ rs1 rs2 off => reg_ok rs1 /\ reg_ok rs2 /\ signed_ok 12 off
  | OPIMM _ rd rs1 imm => reg_ok rd /\ reg_ok rs1 /\ signed_ok 12 imm
  | SHIFT _ rd rs1 shamt => reg_ok rd /\ reg_ok rs1 /\ 0 <= shamt < 32
  | OP _ rd rs1 rs2 | OPM _ rd rs1 rs2 => reg_ok rd /\ reg_ok rs1 /\ reg_ok rs2
  | FENCE ps => 0 <= ps < 256
  | FENCE_I | ECALL | EBREAK | MRET => True
  | CSRREG _ rd rs1 csr => reg_ok rd /\ reg_ok rs1 /\ 0 <= csr < 2 ^ 12
  | CSRIMM _ rd zimm csr => reg_ok rd /\ 0 <= zimm < 32 /\ 0 <= csr < 2 ^ 12
  end.

(** * Encodings *)

(** The formats of the manual; the immediate of each is an unsigned field of
    its width. *)
Definition r_type (funct7 rs2 rs1 funct3 rd opcode : Z) : Z :=
  opcode + 2 ^ 7 * rd + 2 ^ 12 * funct3 + 2 ^ 15 * rs1 + 2 ^ 20 * rs2 + 2 ^ 25 * funct7.
Definition i_type (imm rs1 funct3 rd opcode : Z) : Z :=
  opcode + 2 ^ 7 * rd + 2 ^ 12 * funct3 + 2 ^ 15 * rs1 + 2 ^ 20 * imm.
Definition s_type (imm rs2 rs1 funct3 opcode : Z) : Z :=
  opcode + 2 ^ 7 * (imm mod 32) + 2 ^ 12 * funct3 + 2 ^ 15 * rs1 + 2 ^ 20 * rs2 + 2 ^ 25 * (imm / 32).
Definition b_type (imm rs2 rs1 funct3 opcode : Z) : Z :=
  opcode + 2 ^ 7 * (imm / 2 ^ 11 mod 2) + 2 ^ 8 * (imm / 2 mod 16) + 2 ^ 12 * funct3 + 2 ^ 15 * rs1 +
  2 ^ 20 * rs2 + 2 ^ 25 * (imm / 32 mod 64) + 2 ^ 31 * (imm / 2 ^ 12).
Definition u_type (imm rd opcode : Z) : Z := opcode + 2 ^ 7 * rd + 2 ^ 12 * imm.
Definition j_type (imm rd opcode : Z) : Z :=
  opcode + 2 ^ 7 * rd + 2 ^ 12 * (imm / 2 ^ 12 mod 2 ^ 8) + 2 ^ 20 * (imm / 2 ^ 11 mod 2) +
  2 ^ 21 * (imm / 2 mod 2 ^ 10) + 2 ^ 31 * (imm / 2 ^ 20).

Definition branch_funct3 (op : branch_op) : Z :=
  match op with BEQ => 0 | BNE => 1 | BLT => 4 | BGE => 5 | BLTU => 6 | BGEU => 7 end.
Definition load_funct3 (op : load_op) : Z :=
  match op with LB => 0 | LH => 1 | LW => 2 | LBU => 4 | LHU => 5 end.
Definition store_funct3 (op : store_op) : Z := match op with SB => 0 | SH => 1 | SW => 2 end.
Definition imm_funct3 (op : imm_op) : Z :=
  match op with ADDI => 0 | SLTI => 2 | SLTIU => 3 | XORI => 4 | ORI => 6 | ANDI => 7 end.
Definition shift_funct3 (op : shift_op) : Z := match op with SLLI => 1 | SRLI | SRAI => 5 end.
Definition shift_funct7 (op : shift_op) : Z := match op with SLLI | SRLI => 0x00 | SRAI => 0x20 end.
Definition reg_funct3 (op : reg_op) : Z :=
  match op with
  | ADD | SUB => 0 | SLL => 1 | SLT => 2 | SLTU => 3 | XOR => 4 | SRL | SRA => 5 | OR => 6 | AND => 7
  end.
Definition reg_funct7 (op : reg_op) : Z := match op with SUB | SRA => 0x20 | _ => 0x00 end.
Definition m_funct3 (op : m_op) : Z :=
  match op with
  | MUL => 0 | MULH => 1 | MULHSU => 2 | MULHU => 3 | DIV => 4 | DIVU => 5 | REM => 6 | REMU => 7
  end.
Definition csr_funct3 (op : csr_op) : Z := match op with CSRRW => 1 | CSRRS => 2 | CSRRC => 3 end.

Definition encode (i : instr) : Z :=
  match i with
  | LUI rd imm => u_type imm rd 0x37
  | AUIPC rd imm => u_type imm rd 0x17
  | JAL rd off => j_type (off mod 2 ^ 21) rd 0x6f
  | JALR rd rs1 off => i_type (off mod 2 ^ 12) rs1 0 rd 0x67
  | BRANCH op rs1 rs2 off => b_type (off mod 2 ^ 13) rs2 rs1 (branch_funct3 op) 0x63
  | LOAD op rd rs1 off => i_type (off mod 2 ^ 12) rs1 (load_funct3 op) rd 0x03
  | STORE op rs1 rs2 off => s_type (off mod 2 ^ 12) rs2 rs1 (store_funct3 op) 0x23
  | OPIMM op rd rs1 imm => i_type (imm mod 2 ^ 12) rs1 (imm_funct3 op) rd 0x13
  | SHIFT op rd rs1 shamt => r_type (shift_funct7 op) shamt rs1 (shift_funct3 op) rd 0x13
  | OP op rd rs1 rs2 => r_type (reg_funct7 op) rs2 rs1 (reg_funct3 op) rd 0x33
  | OPM op rd rs1 rs2 => r_type 0x01 rs2 rs1 (m_funct3 op) rd 0x33
  | FENCE ps => i_type ps 0 0 0 0x0f
  | FENCE_I => i_type 0 0 1 0 0x0f
  | ECALL => i_type 0x000 0 0 0 0x73
  | EBREAK => i_type 0x001 0 0 0 0x73
  | MRET => i_type 0x302 0 0 0 0x73
  | CSRREG op rd rs1 csr => i_type csr rs1 (csr_funct3 op) rd 0x73
  | CSRIMM op rd zimm csr => i_type csr zimm (4 + csr_funct3 op) rd 0x73
  end.

(** * What the instructions compute *)

(** Operands and results are 32-bit values; [s32] reads one as a signed
    number. *)
Definition imm_result (op : imm_op) (a imm : Z) : Z :=
  match op with
  | ADDI => u32 (a + imm)
  | SLTI => bit_of (s32 a <? imm)
  | SLTIU => bit_of (a <? u32 imm)
  | XORI => Z.lxor a (u32 imm)
  | ORI => Z.lor a (u32 imm)
  | ANDI => Z.land a (u32 imm)
  end.

Definition shift_result (op : shift_op) (a n : Z) : Z :=
  match op with
  | SLLI => u32 (a * 2 ^ n)
  | SRLI => a / 2 ^ n
  | SRAI => u32 (s32 a / 2 ^ n)
  end.

Definition reg_result (op : reg_op) (a b : Z) : Z :=
  match op with
  | ADD => u32 (a + b)
  | SUB => u32 (a - b)
  | SLL => shift_result SLLI a (b mod 32)
  | SLT => bit_of (s32 a <? s32 b)
  | SLTU => bit_of (a <? b)
  | XOR => Z.lxor a b
  | SRL => shift_result SRLI a (b mod 32)
  | SRA => shift_result SRAI a (b mod 32)
  | OR => Z.lor a b
  | AND => Z.land a b
  end.

(** Products of full precision, and division that rounds towards zero; a
    division by zero gives all ones and the dividend, and the one overflow,
    the least number by -1, wraps. *)
Definition m_result (op : m_op) (a b : Z) : Z :=
  match op with
  | MUL => u32 (a * b)
  | MULH => u32 (s32 a * s32 b / 2 ^ 32)
  | MULHSU => u32 (s32 a * b / 2 ^ 32)
  | MULHU => a * b / 2 ^ 32
  | DIV => if b =? 0 then u32 (-1) else u32 (Z.quot (s32 a) (s32 b))
  | DIVU => if b =? 0 then u32 (-1) else a / b
  | REM => if b =? 0 then a else u32 (Z.rem (s32 a) (s32 b))
  | REMU => if b =? 0 then a else a mod b
  end.

Definition branch_taken (op : branch_op) (a b : Z) : bool :=
  match op with
  | BEQ => a =? b
  | BNE => negb (a =? b)
  | BLT => s32 a <? s32 b
  | BGE => negb (s32 a <? s32 b)
  | BLTU => a <? b
  | BGEU => negb (a <? b)
  end.

(** The new value of a control and status register. *)
Definition csr_result (op : csr_op) (old a : Z) : Z :=
  match op with
  | CSRRW => a
  | CSRRS => Z.lor old a
  | CSRRC => Z.ldiff old a
  end.

(** The value written to [rd] by the instructions that compute on registers,
    [a] and [b] being the values of [rs1] and [rs2]. *)
Definition arith_result (i : instr) (pc a b : Z) : option Z :=
  match i with
  | LUI _ imm => Some (imm * 2 ^ 12)
  | AUIPC _ imm => Some (u32 (pc + imm * 2 ^ 12))
  | OPIMM op _ _ imm => Some (imm_result op a imm)
  | SHIFT op _ _ shamt => Some (shift_result op a shamt)
  | OP op _ _ _ => Some (reg_result op a b)
  | OPM op _ _ _ => Some (m_result op a b)
  | _ => None
  end.

(** The address of the next instruction, for the instructions that change the
    flow of control; [mepc] is that register's value. *)
Definition control_target (i : instr) (pc a b mepc : Z) : option (bool * Z) :=
  match i with
  | JAL _ off => Some (true, u32 (pc + off))
  | JALR _ _ off => Some (true, 2 * (u32 (a + off) / 2))
  | BRANCH op _ _ off => Some (if branch_taken op a b then (true, u32 (pc + off)) else (false, u32 (pc + 4)))
  | MRET => Some (true, mepc)
  | _ => None
  end.

(** The registers the CSR instructions touch: the operation, the number, and
    whether the register is written; CSRRS and CSRRC with x0 (or a zero
    immediate) only read. *)
Definition csr_access (i : instr) : option (csr_op * Z * bool) :=
  match i with
  | CSRREG op _ rs1 csr => Some (op, csr, match op with CSRRW => true | _ => negb (rs1 =? 0) end)
  | CSRIMM op _ zimm csr => Some (op, csr, match op with CSRRW => true | _ => negb (zimm =? 0) end)
  | _ => None
  end.

(** Loads: the size in bytes and the extension of the bytes read. *)
Definition load_size (op : load_op) : Z :=
  match op with LB | LBU => 1 | LH | LHU => 2 | LW => 4 end.
Definition load_extend (op : load_op) (x : Z) : Z :=
  match op with
  | LB => u32 (if x <? 2 ^ 7 then x else x - 2 ^ 8)
  | LH => u32 (if x <? 2 ^ 15 then x else x - 2 ^ 16)
  | LW | LBU | LHU => x
  end.
Definition store_size (op : store_op) : Z := match op with SB => 1 | SH => 2 | SW => 4 end.
