(* ===== verification/Decode.v ===== *)
(** The decode stage [pipeline::decode] of [pipeline/decode.cpp].

    Each cycle moves up to [DECODE_WIDTH] fetched instructions to the rename
    queue, after taking the instruction word apart.  The nested [switch] of
    [run] is one definition per opcode group; [decode_pack] is the body of the
    loop for one instruction, [decode_run] the cycle. *)

From Stdlib Require Import ZArith Lia.
From stdpp Require Import base numbers list option tactics.
From S2P Require Import Prelude Common Fifo PipelineCommon Packs Isa.

Local Open Scope Z_scope.

(** The local variables of the loop body. *)
Record op_fields := mk_op_fields {
  op_data : Z;
  opcode : Z;
  rd : Z;
  funct3 : Z;
  rs1 : Z;
  rs2 : Z;
  funct7 : Z;
  imm_i : Z;
  imm_s : Z;
  imm_b : Z;
  imm_u : Z;
  imm_j : Z
}.

Definition get_fields (op_data : Z) : op_fields :=
  mk_op_fields op_data
    (Z.land op_data 0x7f)
    (Z.land (shr32 op_data 7) 0x1f)
    (Z.land (shr32 op_data 12) 0x07)
    (Z.land (shr32 op_data 15) 0x1f)
    (Z.land (shr32 op_data 20) 0x1f)
    (Z.land (shr32 op_data 25) 0x7f)
    (Z.land (shr32 op_data 20) 0xfff)
    (Z.lor (Z.land (shr32 op_data 7) 0x1f) (shl32 (Z.land (shr32 op_data 25) 0x7f) 5))
    (Z.lor (Z.lor (Z.lor (shl32 (Z.land (shr32 op_data 8) 0x0f) 1) (shl32 (Z.land (shr32 op_data 25) 0x3f) 5))
                  (shl32 (Z.land (shr32 op_data 7) 0x01) 11))
           (shl32 (Z.land (shr32 op_data 31) 0x01) 12))
    (Z.land op_data (not32 0xfff))
    (Z.lor (Z.lor (Z.lor (shl32 (Z.land (shr32 op_data 12) 0xff) 12) (shl32 (Z.land (shr32 op_data 20) 0x01) 11))
                  (shl32 (Z.land (shr32 op_data 21) 0x3ff) 1))
           (shl32 (Z.land (shr32 op_data 31) 0x01) 20)).

(** [op_info.valid = false] *)
Definition invalid (op_info : decode_rename_pack_t) : decode_rename_pack_t := op_info <| dr_valid := false |>.

Definition set_op (o : op_t) (s : sub_op_t) (op_info : decode_rename_pack_t) : decode_rename_pack_t :=
  op_info <| dr_op := o |> <| dr_sub_op := s |>.

(** Cases [0x37] and [0x17]. *)
Definition decode_upper (o : op_t) (s : alu_op_t) (x : op_fields) (op_info : decode_rename_pack_t)
    : decode_rename_pack_t :=
  op_info <| dr_op := o |> <| dr_op_unit := unit_alu |> <| dr_sub_op := sub_alu s |>
    <| dr_arg1_src := src_disable |> <| dr_arg2_src := src_disable |> <| dr_imm := imm_u x |>
    <| dr_rd := rd x |> <| dr_rd_enable := true |>.

Definition decode_lui (x : op_fields) (op_info : decode_rename_pack_t) : decode_rename_pack_t :=
  decode_upper op_lui alu_lui x op_info.

Definition decode_auipc (x : op_fields) (op_info : decode_rename_pack_t) : decode_rename_pack_t :=
  decode_upper op_auipc alu_auipc x op_info.

(** Case [0x6f]. *)
Definition decode_jal (x : op_fields) (op_info : decode_rename_pack_t) : option decode_rename_pack_t :=
  imm ← sign_extend (imm_j x) 21;
  Some (op_info <| dr_op := op_jal |> <| dr_op_unit := unit_bru |> <| dr_sub_op := sub_bru bru_jal |>
    <| dr_arg1_src := src_disable |> <| dr_arg2_src := src_disable |> <| dr_imm := imm |>
    <| dr_rd := rd x |> <| dr_rd_enable := true |>).

(** Case [0x67]. *)
Definition decode_jalr (x : op_fields) (op_info : decode_rename_pack_t) : option decode_rename_pack_t :=
  imm ← sign_extend (imm_i x) 12;
  Some (op_info <| dr_op := op_jalr |> <| dr_op_unit := unit_bru |> <| dr_sub_op := sub_bru bru_jalr |>
    <| dr_arg1_src := src_reg |> <| dr_rs1 := rs1 x |> <| dr_arg2_src := src_disable |> <| dr_imm := imm |>
    <| dr_rd := rd x |> <| dr_rd_enable := true |>).

(** Case [0x63]. *)
Definition decode_branch (x : op_fields) (op_info : decode_rename_pack_t) : option decode_rename_pack_t :=
  imm ← sign_extend (imm_b x) 13;
  let op_info := op_info <| dr_op_unit := unit_bru |> <| dr_arg1_src := src_reg |> <| dr_rs1 := rs1 x |>
                   <| dr_arg2_src := src_reg |> <| dr_rs2 := rs2 x |> <| dr_imm := imm |> in
  Some (if funct3 x =? 0x0 then set_op op_beq (sub_bru bru_beq) op_info
        else if funct3 x =? 0x1 then set_op op_bne (sub_bru bru_bne) op_info
        else if funct3 x =? 0x4 then set_op op_blt (sub_bru bru_blt) op_info
        else if funct3 x =? 0x5 then set_op op_bge (sub_bru bru_bge) op_info
        else if funct3 x =? 0x6 then set_op op_bltu (sub_bru bru_bltu) op_info
        else if funct3 x =? 0x7 then set_op op_bgeu (sub_bru bru_bgeu) op_info
        else invalid op_info).

(** Case [0x03]. *)
Definition decode_load (x : op_fields) (op_info : decode_rename_pack_t) : option decode_rename_pack_t :=
  imm ← sign_extend (imm_i x) 12;
  let op_info := op_info <| dr_op_unit := unit_lsu |> <| dr_arg1_src := src_reg |> <| dr_rs1 := rs1 x |>
                   <| dr_arg2_src := src_disable |> <| dr_imm := imm |>
                   <| dr_rd := rd x |> <| dr_rd_enable := true |> in
  Some (if funct3 x =? 0x0 then set_op op_lb (sub_lsu lsu_lb) op_info
        else if funct3 x =? 0x1 then set_op op_lh (sub_lsu lsu_lh) op_info
        else if funct3 x =? 0x2 then set_op op_lw (sub_lsu lsu_lw) op_info
        else if funct3 x =? 0x4 then set_op op_lbu (sub_lsu lsu_lbu) op_info
        else if funct3 x =? 0x5 then set_op op_lhu (sub_lsu lsu_lhu) op_info
        else invalid op_info).

(** Case [0x23]. *)
Definition decode_store (x : op_fields) (op_info : decode_rename_pack_t) : option decode_rename_pack_t :=
  imm ← sign_extend (imm_s x) 12;
  let op_info := op_info <| dr_op_unit := unit_lsu |> <| dr_arg1_src := src_reg |> <| dr_rs1 := rs1 x |>
                   <| dr_arg2_src := src_reg |> <| dr_rs2 := rs2 x |> <| dr_imm := imm |> in
  Some (if funct3 x =? 0x0 then set_op op_sb (sub_lsu lsu_sb) op_info
        else if funct3 x =? 0x1 then set_op op_sh (sub_lsu lsu_sh) op_info
        else if funct3 x =? 0x2 then set_op op_sw (sub_lsu lsu_sw) op_info
        else invalid op_info).

(** Case [0x13]. *)
Definition decode_op_imm (x : op_fields) (op_info : decode_rename_pack_t) : option decode_rename_pack_t :=
  imm ← sign_extend (imm_i x) 12;
  let op_info := op_info <| dr_op_unit := unit_alu |> <| dr_arg1_src := src_reg |> <| dr_rs1 := rs1 x |>
                   <| dr_arg2_src := src_imm |> <| dr_imm := imm |>
                   <| dr_rd := rd x |> <| dr_rd_enable := true |> in
  Some (if funct3 x =? 0x0 then set_op op_addi (sub_alu alu_add) op_info
        else if funct3 x =? 0x2 then set_op op_slti (sub_alu alu_slt) op_info
        else if funct3 x =? 0x3 then set_op op_sltiu (sub_alu alu_sltu) op_info
        else if funct3 x =? 0x4 then set_op op_xori (sub_alu alu_xor) op_info
        else if funct3 x =? 0x6 then set_op op_ori (sub_alu alu_or) op_info
        else if funct3 x =? 0x7 then set_op op_andi (sub_alu alu_and) op_info
        else if funct3 x =? 0x1 then
          if funct7 x =? 0x00 then set_op op_slli (sub_alu alu_sll) op_info else invalid op_info
        else if funct3 x =? 0x5 then
          if funct7 x =? 0x00 then set_op op_srli (sub_alu alu_srl) op_info
          else if funct7 x =? 0x20 then set_op op_srai (sub_alu alu_sra) op_info
          else invalid op_info
        else invalid op_info).

(** Case [0x33]. *)
Definition decode_op_reg (x : op_fields) (op_info : decode_rename_pack_t) : decode_rename_pack_t :=
  let op_info := op_info <| dr_op_unit := unit_alu |> <| dr_arg1_src := src_reg |> <| dr_rs1 := rs1 x |>
                   <| dr_arg2_src := src_reg |> <| dr_rs2 := rs2 x |>
                   <| dr_rd := rd x |> <| dr_rd_enable := true |> in
  let mul o s := set_op o (sub_mul s) (op_info <| dr_op_unit := unit_mul |>) in
  let div o s := set_op o (sub_div s) (op_info <| dr_op_unit := unit_div |>) in
  if funct3 x =? 0x0 then
    if funct7 x =? 0x00 then set_op op_add (sub_alu alu_add) op_info
    else if funct7 x =? 0x20 then set_op op_sub (sub_alu alu_sub) op_info
    else if funct7 x =? 0x01 then mul op_mul mul_mul
    else invalid op_info
  else if funct3 x =? 0x1 then
    if funct7 x =? 0x00 then set_op op_sll (sub_alu alu_sll) op_info
    else if funct7 x =? 0x01 then mul op_mulh mul_mulh
    else invalid op_info
  else if funct3 x =? 0x2 then
    if funct7 x =? 0x00 then set_op op_slt (sub_alu alu_slt) op_info
    else if funct7 x =? 0x01 then mul op_mulhsu mul_mulhsu
    else invalid op_info
  else if funct3 x =? 0x3 then
    if funct7 x =? 0x00 then set_op op_sltu (sub_alu alu_sltu) op_info
    else if funct7 x =? 0x01 then mul op_mulhu mul_mulhu
    else invalid op_info
  else if funct3 x =? 0x4 then
    if funct7 x =? 0x00 then set_op op_xor (sub_alu alu_xor) op_info
    else if funct7 x =? 0x01 then div op_div div_div
    else invalid op_info
  else if funct3 x =? 0x5 then
    if funct7 x =? 0x00 then set_op op_srl (sub_alu alu_srl) op_info
    else if funct7 x =? 0x20 then set_op op_sra (sub_alu alu_sra) op_info
    else if funct7 x =? 0x01 then div op_divu div_divu
    else invalid op_info
  else if funct3 x =? 0x6 then
    if funct7 x =? 0x00 then set_op op_or (sub_alu alu_or) op_info
    else if funct7 x =? 0x01 then div op_rem div_rem
    else invalid op_info
  else if funct3 x =? 0x7 then
    if funct7 x =? 0x00 then set_op op_and (sub_alu alu_and) op_info
    else if funct7 x =? 0x01 then div op_remu div_remu
    else invalid op_info
  else invalid op_info.

(** An instruction without operands. *)
Definition decode_plain (o : op_t) (u : op_unit_t) (s : sub_op_t) (op_info : decode_rename_pack_t)
    : decode_rename_pack_t :=
  op_info <| dr_op := o |> <| dr_op_unit := u |> <| dr_sub_op := s |>
    <| dr_arg1_src := src_disable |> <| dr_arg2_src := src_disable |>.

(** Case [0x0f]. *)
Definition decode_fence (x : op_fields) (op_info : decode_rename_pack_t) : decode_rename_pack_t :=
  if funct3 x =? 0x0 then
    if (rd x =? 0x00) && (rs1 x =? 0x00) && (Z.land (shr32 (op_data x) 28) 0x0f =? 0x00) then
      (decode_plain op_fence unit_alu (sub_alu alu_fence) op_info) <| dr_imm := imm_i x |>
    else invalid op_info
  else if funct3 x =? 0x1 then
    if (rd x =? 0x00) && (rs1 x =? 0x00) && (imm_i x =? 0x00) then
      decode_plain op_fence_i unit_alu (sub_alu alu_fence_i) op_info
    else invalid op_info
  else invalid op_info.

(** The register forms and the immediate forms of the CSR instructions. *)
Definition decode_csr_reg (o : op_t) (s : csr_op_t) (x : op_fields) (op_info : decode_rename_pack_t)
    : decode_rename_pack_t :=
  op_info <| dr_op := o |> <| dr_op_unit := unit_csr |> <| dr_sub_op := sub_csr s |>
    <| dr_arg1_src := src_reg |> <| dr_rs1 := rs1 x |> <| dr_arg2_src := src_disable |>
    <| dr_csr := imm_i x |> <| dr_rd := rd x |> <| dr_rd_enable := true |>.

Definition decode_csr_imm (o : op_t) (s : csr_op_t) (x : op_fields) (op_info : decode_rename_pack_t)
    : decode_rename_pack_t :=
  op_info <| dr_op := o |> <| dr_op_unit := unit_csr |> <| dr_sub_op := sub_csr s |>
    <| dr_arg1_src := src_imm |> <| dr_imm := rs1 x |> <| dr_arg2_src := src_disable |>
    <| dr_csr := imm_i x |> <| dr_rd := rd x |> <| dr_rd_enable := true |>.

(** Case [0x73]. *)
Definition decode_system (x : op_fields) (op_info : decode_rename_pack_t) : decode_rename_pack_t :=
  if funct3 x =? 0x0 then
    if (rd x =? 0x00) && (rs1 x =? 0x00) then
      if funct7 x =? 0x00 then
        if rs2 x =? 0x00 then decode_plain op_ecall unit_alu (sub_alu alu_ecall) op_info
        else if rs2 x =? 0x01 then decode_plain op_ebreak unit_alu (sub_alu alu_ebreak) op_info
        else invalid op_info
      else if funct7 x =? 0x18 then
        if rs2 x =? 0x02 then decode_plain op_mret unit_bru (sub_bru bru_mret) op_info else invalid op_info
      else invalid op_info
    else invalid op_info
  else if funct3 x =? 0x1 then decode_csr_reg op_csrrw csr_csrrw x op_info
  else if funct3 x =? 0x2 then decode_csr_reg op_csrrs csr_csrrs x op_info
  else if funct3 x =? 0x3 then decode_csr_reg op_csrrc csr_csrrc x op_info
  else if funct3 x =? 0x5 then decode_csr_imm op_csrrwi csr_csrrw x op_info
  else if funct3 x =? 0x6 then decode_csr_imm op_csrrsi csr_csrrs x op_info
  else if funct3 x =? 0x7 then decode_csr_imm op_csrrci csr_csrrc x op_info
  else invalid op_info.

(** [switch(opcode)] *)
Definition decode_opcode (x : op_fields) (op_info : decode_rename_pack_t) : option decode_rename_pack_t :=
  if opcode x =? 0x37 then Some (decode_lui x op_info)
  else if opcode x =? 0x17 then Some (decode_auipc x op_info)
  else if opcode x =? 0x6f then decode_jal x op_info
  else if opcode x =? 0x67 then decode_jalr x op_info
  else if opcode x =? 0x63 then decode_branch x op_info
  else if opcode x =? 0x03 then decode_load x op_info
  else if opcode x =? 0x23 then decode_store x op_info
  else if opcode x =? 0x13 then decode_op_imm x op_info
  else if opcode x =? 0x33 then Some (decode_op_reg x op_info)
  else if opcode x =? 0x0f then Some (decode_fence x op_info)
  else if opcode x =? 0x73 then Some (decode_system x op_info)
  else Some (invalid op_info).

(** The assignments after the [switch]. *)
Definition decode_finish (rev_pack : fetch_decode_pack_t) (op_info : decode_rename_pack_t)
    : decode_rename_pack_t :=
  op_info
    <| dr_rs1_need_map := bool_decide (dr_arg1_src op_info = src_reg) && (0 <? dr_rs1 op_info) |>
    <| dr_rs2_need_map := bool_decide (dr_arg2_src op_info = src_reg) && (0 <? dr_rs2 op_info) |>
    <| dr_need_rename := dr_rd_enable op_info && (0 <? dr_rd op_info) |>
    <| dr_value := fd_value rev_pack |>
    <| dr_has_exception := fd_has_exception rev_pack |>
    <| dr_exception_id := fd_exception_id rev_pack |>
    <| dr_exception_value := fd_exception_value rev_pack |>
    <| dr_predicted := fd_predicted rev_pack |>
    <| dr_predicted_jump := fd_predicted_jump rev_pack |>
    <| dr_predicted_next_pc := fd_predicted_next_pc rev_pack |>
    <| dr_checkpoint_id_valid := fd_checkpoint_id_valid rev_pack |>
    <| dr_checkpoint_id := fd_checkpoint_id rev_pack |>.

(** The packet sent for a packet received. *)
Definition decode_pack (rev_pack : fetch_decode_pack_t) : option decode_rename_pack_t :=
  let send_pack := decode_rename_pack_zero in
  if fd_enable rev_pack then
    let op_info := send_pack <| dr_enable := true |> <| dr_valid := negb (fd_has_exception rev_pack) |>
                     <| dr_pc := fd_pc rev_pack |> in
    op_info ← decode_opcode (get_fields (fd_value rev_pack)) op_info;
    Some (decode_finish rev_pack op_info)
  else Some send_pack.

(** ** The cycle *)

(** The two queues, and the counter of main.cpp. *)
Record decode_state := mk_decode_state {
  fetch_decode_fifo : fifo fetch_decode_pack_t;
  decode_rename_fifo : fifo decode_rename_pack_t;
  decode_rename_fifo_full : Z
}.

#[export] Instance decode_state_eta : Eta decode_state := fun r =>
  mk_decode_state (fetch_decode_fifo r) (decode_rename_fifo r) (decode_rename_fifo_full r).

Definition decode_rename_fifo_full_add (s : decode_state) : decode_state :=
  s <| decode_rename_fifo_full ::= fun n => u64 (n + 1) |>.

(** One iteration of the loop.  [pop] returns its element through a pointer:
    reading it after a [pop] that failed is not defined. *)
Definition decode_one (s : decode_state) : option decode_state :=
  if negb (fifo_is_empty (fetch_decode_fifo s)) && negb (fifo_is_full (decode_rename_fifo s)) then
    '(rev_pack, fin) ← fifo_pop (fetch_decode_fifo s);
    rev_pack ← rev_pack;
    send_pack ← decode_pack rev_pack;
    '(_, fout) ← fifo_push (decode_rename_fifo s) send_pack;
    Some (s <| fetch_decode_fifo := fin |> <| decode_rename_fifo := fout |>)
  else if negb (fifo_is_empty (fetch_decode_fifo s)) && fifo_is_full (decode_rename_fifo s) then
    Some (decode_rename_fifo_full_add s)
  else Some s.

Fixpoint decode_loop (n : nat) (s : decode_state) : option decode_state :=
  match n with
  | O => Some s
  | S n => s ← decode_one s; decode_loop n s
  end.

(** The result is [feedback_pack.idle]. *)
Definition decode_run (s : decode_state) (commit_feedback_pack : commit_feedback_pack_t)
    : option (bool * decode_state) :=
  let idle := fifo_is_empty (fetch_decode_fifo s) in
  s ← (if negb (cf_enable commit_feedback_pack && cf_flush commit_feedback_pack) then
         decode_loop (Z.to_nat DECODE_WIDTH) s
       else Some (s <| decode_rename_fifo ::= fifo_flush |>));
  Some (idle, s).

(** * The fields of a word *)

Lemma field_eq w k n m : 0 <= k -> 0 <= n -> m = 2 ^ n - 1 -> Z.land (shr32 w k) m = w / 2 ^ k mod 2 ^ n.
Proof. intros ?? ->. unfold shr32. rewrite land_low by done. by rewrite Z.shiftr_div_pow2. Qed.

Lemma shl32_small x n : 0 <= n -> 0 <= x -> x * 2 ^ n < 2 ^ 32 -> shl32 x n = Z.shiftl x n.
Proof. intros. unfold shl32. apply u32_small. rewrite Z.shiftl_mul_pow2 by lia. nia. Qed.

(** The immediates as sums of the bit fields they are made of. *)
Lemma get_fields_eq w :
  is_u32 w ->
  get_fields w = mk_op_fields w (w mod 2 ^ 7) (w / 2 ^ 7 mod 2 ^ 5) (w / 2 ^ 12 mod 2 ^ 3) (w / 2 ^ 15 mod 2 ^ 5)
    (w / 2 ^ 20 mod 2 ^ 5) (w / 2 ^ 25 mod 2 ^ 7) (w / 2 ^ 20 mod 2 ^ 12)
    (w / 2 ^ 7 mod 2 ^ 5 + w / 2 ^ 25 mod 2 ^ 7 * 2 ^ 5)
    (w / 2 ^ 8 mod 2 ^ 4 * 2 ^ 1 + w / 2 ^ 25 mod 2 ^ 6 * 2 ^ 5 + w / 2 ^ 7 mod 2 ^ 1 * 2 ^ 11 +
     w / 2 ^ 31 mod 2 ^ 1 * 2 ^ 12)
    (w / 2 ^ 12 * 2 ^ 12)
    (w / 2 ^ 21 mod 2 ^ 10 * 2 ^ 1 + w / 2 ^ 20 mod 2 ^ 1 * 2 ^ 11 + w / 2 ^ 12 mod 2 ^ 8 * 2 ^ 12 +
     w / 2 ^ 31 mod 2 ^ 1 * 2 ^ 20).
Proof.
  intros Hw. unfold get_fields.
  rewrite (field_eq w 7 5), (field_eq w 12 3), (field_eq w 15 5), (field_eq w 20 5), (field_eq w 25 7),
    (field_eq w 20 12), (field_eq w 8 4), (field_eq w 25 6), (field_eq w 7 1), (field_eq w 31 1),
    (field_eq w 12 8), (field_eq w 20 1), (field_eq w 21 10) by (done || lia).
  assert (forall k n, 0 <= n -> 0 <= w / 2 ^ k mod 2 ^ n < 2 ^ n) as Hf
    by (intros; apply Z.mod_pos_bound, Z.pow_pos_nonneg; lia).
  f_equal.
  - exact (land_low w 7 ltac:(lia)).
  - pose proof (Hf 7 5). pose proof (Hf 25 7). rewrite shl32_small by lia. by rewrite lor_shiftl_add by lia.
  - pose proof (Hf 8 4). pose proof (Hf 25 6). pose proof (Hf 7 1). pose proof (Hf 31 1).
    rewrite !shl32_small by lia. rewrite (Z.shiftl_mul_pow2 _ 1) by lia.
    by rewrite (lor_shiftl_add (_ * _)), (lor_shiftl_add (_ * _ + _ * _)), lor_shiftl_add by lia.
  - transitivity (Z.ldiff w (Z.ones 12)).
    + apply Z.bits_inj'. intros i Hi. rewrite Z.land_spec, Z.ldiff_spec.
      destruct (Z.ltb_spec i 32).
      * by rewrite testbit_not32.
      * by rewrite (testbit_high 32 w i).
    + by rewrite Z.ldiff_ones_r, Z.shiftl_mul_pow2, Z.shiftr_div_pow2.
  - pose proof (Hf 21 10). pose proof (Hf 20 1). pose proof (Hf 12 8). pose proof (Hf 31 1).
    rewrite !shl32_small by lia.
    rewrite (Z.lor_comm (Z.lor _ _) (Z.shiftl (w / 2 ^ 21 mod 2 ^ 10) 1)).
    rewrite (Z.lor_comm (Z.shiftl (w / 2 ^ 12 mod 2 ^ 8) 12)), Z.lor_assoc, (Z.shiftl_mul_pow2 _ 1) by lia.
    by rewrite (lor_shiftl_add (_ * _)), (lor_shiftl_add (_ * _ + _ * _)), lor_shiftl_add by lia.
Qed.

Lemma r_type_range f7 r2 r1 f3 d op :
  0 <= f7 < 128 -> reg_ok r2 -> reg_ok r1 -> 0 <= f3 < 8 -> reg_ok d -> 0 <= op < 128 ->
  is_u32 (r_type f7 r2 r1 f3 d op).
Proof. unfold reg_ok, is_u32, r_type. lia. Qed.

(** The fields of a word in the register format. *)
Lemma get_fields_r f7 r2 r1 f3 d op :
  0 <= f7 < 128 -> reg_ok r2 -> reg_ok r1 -> 0 <= f3 < 8 -> reg_ok d -> 0 <= op < 128 ->
  get_fields (r_type f7 r2 r1 f3 d op) =
    mk_op_fields (r_type f7 r2 r1 f3 d op) op d f3 r1 r2 f7 (r2 + 32 * f7) (d + 32 * f7)
      (d / 2 * 2 + f7 mod 64 * 32 + d mod 2 * 2 ^ 11 + f7 / 64 * 2 ^ 12)
      ((f3 + 8 * r1 + 2 ^ 8 * r2 + 2 ^ 13 * f7) * 2 ^ 12)
      ((r2 / 2 + 16 * (f7 mod 64)) * 2 + r2 mod 2 * 2 ^ 11 + (f3 + 8 * r1) * 2 ^ 12 + f7 / 64 * 2 ^ 20).
Proof.
  intros H7 H2 H1 H3 Hd Ho. pose proof (r_type_range f7 r2 r1 f3 d op H7 H2 H1 H3 Hd Ho) as Hr.
  rewrite get_fields_eq by done. unfold reg_ok in *. unfold r_type.
  f_equal; Z.div_mod_to_equations; lia.
Qed.

(** Every word is one in the register format. *)
Lemma word_r_type w :
  is_u32 w ->
  exists f7 r2 r1 f3 d op, w = r_type f7 r2 r1 f3 d op /\
    0 <= f7 < 128 /\ reg_ok r2 /\ reg_ok r1 /\ 0 <= f3 < 8 /\ reg_ok d /\ 0 <= op < 128.
Proof.
  intros Hw. exists (w / 2 ^ 25), (w / 2 ^ 20 mod 32), (w / 2 ^ 15 mod 32), (w / 2 ^ 12 mod 8),
    (w / 2 ^ 7 mod 32), (w mod 128).
  unfold is_u32, reg_ok, r_type in *. split_and!; try (Z.div_mod_to_equations; lia).
Qed.

(** The other formats. *)
Lemma i_type_r imm r1 f3 d op : i_type imm r1 f3 d op = r_type (imm / 32) (imm mod 32) r1 f3 d op.
Proof. unfold i_type, r_type. Z.div_mod_to_equations. lia. Qed.

Lemma s_type_r imm r2 r1 f3 op : s_type imm r2 r1 f3 op = r_type (imm / 32) r2 r1 f3 (imm mod 32) op.
Proof. unfold s_type, r_type. lia. Qed.

Lemma b_type_r imm r2 r1 f3 op :
  b_type imm r2 r1 f3 op =
    r_type (imm / 32 mod 64 + 64 * (imm / 2 ^ 12)) r2 r1 f3 (imm / 2 ^ 11 mod 2 + 2 * (imm / 2 mod 16)) op.
Proof. unfold b_type, r_type. lia. Qed.

Lemma u_type_r imm d op :
  u_type imm d op = r_type (imm / 2 ^ 13) (imm / 2 ^ 8 mod 32) (imm / 8 mod 32) (imm mod 8) d op.
Proof. unfold u_type, r_type. Z.div_mod_to_equations. lia. Qed.

Lemma j_type_r imm d op :
  j_type imm d op =
    r_type (imm / 32 mod 64 + 64 * (imm / 2 ^ 20)) (imm / 2 ^ 11 mod 2 + 2 * (imm / 2 mod 16))
      (imm / 2 ^ 15 mod 32) (imm / 2 ^ 12 mod 8) d op.
Proof. unfold j_type, r_type. Z.div_mod_to_equations. lia. Qed.

Lemma sign_extend_mod off n : 0 < n < 32 -> signed_ok n off -> sign_extend (off mod 2 ^ n) n = Some (u32 off).
Proof.
  intros Hn Hoff. unfold signed_ok in *.
  assert (2 ^ n = 2 * 2 ^ (n - 1)) as Hp by (rewrite <- Z.pow_succ_r by lia; f_equal; lia).
  assert (0 < 2 ^ (n - 1)) by (apply Z.pow_pos_nonneg; lia).
  rewrite sign_extend_spec by (done || apply Z.mod_pos_bound; lia). do 2 f_equal.
  destruct (decide (0 <= off)).
  - rewrite Z.mod_small by lia. bcase; lia.
  - assert (off mod 2 ^ n = off + 2 ^ n) as -> by (symmetry; apply Z.mod_unique_pos with (-1); lia).
    bcase; lia.
Qed.

(** * What decode promises *)

(** The part of the packet that depends on the instruction. *)
Record decoded := mk_decoded {
  d_op : op_t;
  d_op_unit : op_unit_t;
  d_sub_op : sub_op_t;
  d_arg1_src : arg_src_t;
  d_rs1 : Z;
  d_arg2_src : arg_src_t;
  d_rs2 : Z;
  d_imm : Z;
  d_rd_enable : bool;
  d_rd : Z;
  d_csr : Z
}.

Definition branch_ops (op : branch_op) : op_t * bru_op_t :=
  match op with
  | BEQ => (op_beq, bru_beq) | BNE => (op_bne, bru_bne) | BLT => (op_blt, bru_blt)
  | BGE => (op_bge, bru_bge) | BLTU => (op_bltu, bru_bltu) | BGEU => (op_bgeu, bru_bgeu)
  end.
Definition load_ops (op : load_op) : op_t * lsu_op_t :=
  match op with
  | LB => (op_lb, lsu_lb) | LH => (op_lh, lsu_lh) | LW => (op_lw, lsu_lw)
  | LBU => (op_lbu, lsu_lbu) | LHU => (op_lhu, lsu_lhu)
  end.
Definition store_ops (op : store_op) : op_t * lsu_op_t :=
  match op with SB => (op_sb, lsu_sb) | SH => (op_sh, lsu_sh) | SW => (op_sw, lsu_sw) end.
Definition imm_ops (op : imm_op) : op_t * alu_op_t :=
  match op with
  | ADDI => (op_addi, alu_add) | SLTI => (op_slti, alu_slt) | SLTIU => (op_sltiu, alu_sltu)
  | XORI => (op_xori, alu_xor) | ORI => (op_ori, alu_or) | ANDI => (op_andi, alu_and)
  end.
Definition shift_ops (op : shift_op) : op_t * alu_op_t :=
  match op with SLLI => (op_slli, alu_sll) | SRLI => (op_srli, alu_srl) | SRAI => (op_srai, alu_sra) end.
Definition reg_ops (op : reg_op) : op_t * alu_op_t :=
  match op with
  | ADD => (op_add, alu_add) | SUB => (op_sub, alu_sub) | SLL => (op_sll, alu_sll) | SLT => (op_slt, alu_slt)
  | SLTU => (op_sltu, alu_sltu) | XOR => (op_xor, alu_xor) | SRL => (op_srl, alu_srl)
  | SRA => (op_sra, alu_sra) | OR => (op_or, alu_or) | AND => (op_and, alu_and)
  end.
Definition m_ops (op : m_op) : op_t * op_unit_t * sub_op_t :=
  match op with
  | MUL => (op_mul, unit_mul, sub_mul mul_mul) | MULH => (op_mulh, unit_mul, sub_mul mul_mulh)
  | MULHSU => (op_mulhsu, unit_mul, sub_mul mul_mulhsu) | MULHU => (op_mulhu, unit_mul, sub_mul mul_mulhu)
  | DIV => (op_div, unit_div, sub_div div_div) | DIVU => (op_divu, unit_div, sub_div div_divu)
  | REM => (op_rem, unit_div, sub_div div_rem) | REMU => (op_remu, unit_div, sub_div div_remu)
  end.
Definition csr_ops (op : csr_op) : op_t * op_t * csr_op_t :=
  match op with
  | CSRRW => (op_csrrw, op_csrrwi, csr_csrrw)
  | CSRRS => (op_csrrs, op_csrrsi, csr_csrrs)
  | CSRRC => (op_csrrc, op_csrrci, csr_csrrc)
  end.

(** The immediate of a shift is the whole field, of which the ALU uses the
    low five bits. *)
Definition decoded_of (i : instr) : decoded :=
  match i with
  | LUI d imm =>
      mk_decoded op_lui unit_alu (sub_alu alu_lui) src_disable 0 src_disable 0 (imm * 2 ^ 12) true d 0
  | AUIPC d imm =>
      mk_decoded op_auipc unit_alu (sub_alu alu_auipc) src_disable 0 src_disable 0 (imm * 2 ^ 12) true d 0
  | JAL d off => mk_decoded op_jal unit_bru (sub_bru bru_jal) src_disable 0 src_disable 0 (u32 off) true d 0
  | JALR d r1 off => mk_decoded op_jalr unit_bru (sub_bru bru_jalr) src_reg r1 src_disable 0 (u32 off) true d 0
  | BRANCH op r1 r2 off =>
      mk_decoded (branch_ops op).1 unit_bru (sub_bru (branch_ops op).2) src_reg r1 src_reg r2 (u32 off) false 0 0
  | LOAD op d r1 off =>
      mk_decoded (load_ops op).1 unit_lsu (sub_lsu (load_ops op).2) src_reg r1 src_disable 0 (u32 off) true d 0
  | STORE op r1 r2 off =>
      mk_decoded (store_ops op).1 unit_lsu (sub_lsu (store_ops op).2) src_reg r1 src_reg r2 (u32 off) false 0 0
  | OPIMM op d r1 imm =>
      mk_decoded (imm_ops op).1 unit_alu (sub_alu (imm_ops op).2) src_reg r1 src_imm 0 (u32 imm) true d 0
  | SHIFT op d r1 shamt =>
      mk_decoded (shift_ops op).1 unit_alu (sub_alu (shift_ops op).2) src_reg r1 src_imm 0
        (shamt + 32 * shift_funct7 op) true d 0
  | OP op d r1 r2 =>
      mk_decoded (reg_ops op).1 unit_alu (sub_alu (reg_ops op).2) src_reg r1 src_reg r2 0 true d 0
  | OPM op d r1 r2 =>
      let '(o, u, s) := m_ops op in mk_decoded o u s src_reg r1 src_reg r2 0 true d 0
  | FENCE ps => mk_decoded op_fence unit_alu (sub_alu alu_fence) src_disable 0 src_disable 0 ps false 0 0
  | FENCE_I => mk_decoded op_fence_i unit_alu (sub_alu alu_fence_i) src_disable 0 src_disable 0 0 false 0 0
  | ECALL => mk_decoded op_ecall unit_alu (sub_alu alu_ecall) src_disable 0 src_disable 0 0 false 0 0
  | EBREAK => mk_decoded op_ebreak unit_alu (sub_alu alu_ebreak) src_disable 0 src_disable 0 0 false 0 0
  | MRET => mk_decoded op_mret unit_bru (sub_bru bru_mret) src_disable 0 src_disable 0 0 false 0 0
  | CSRREG op d r1 csr =>
      let '(o, _, s) := csr_ops op in mk_decoded o unit_csr (sub_csr s) src_reg r1 src_disable 0 0 true d csr
  | CSRIMM op d zimm csr =>
      let '(_, o, s) := csr_ops op in mk_decoded o unit_csr (sub_csr s) src_imm 0 src_disable 0 zimm true d csr
  end.

(** The whole packet: the rest is handed on from fetch. *)
Definition decoded_pack (rev_pack : fetch_decode_pack_t) (x : decoded) : decode_rename_pack_t :=
  mk_decode_rename_pack_t true (fd_value rev_pack) (negb (fd_has_exception rev_pack)) (fd_pc rev_pack) (d_imm x)
    (fd_has_exception rev_pack) (fd_exception_id rev_pack) (fd_exception_value rev_pack) (fd_predicted rev_pack)
    (fd_predicted_jump rev_pack) (fd_predicted_next_pc rev_pack) (fd_checkpoint_id_valid rev_pack)
    (fd_checkpoint_id rev_pack)
    (d_rs1 x) (d_arg1_src x) (bool_decide (d_arg1_src x = src_reg) && (0 <? d_rs1 x))
    (d_rs2 x) (d_arg2_src x) (bool_decide (d_arg2_src x = src_reg) && (0 <? d_rs2 x))
    (d_rd x) (d_rd_enable x) (d_rd_enable x && (0 <? d_rd x)) (d_csr x) (d_op x) (d_op_unit x) (d_sub_op x).

(** * Decoding an encoded instruction *)

Section formats.
Context (imm f7 r2 r1 f3 d op : Z).
Context (H2 : reg_ok r2) (H1 : reg_ok r1) (H3 : 0 <= f3 < 8) (Hd : reg_ok d) (Ho : 0 <= op < 128).

Lemma fields_r :
  0 <= f7 < 128 -> let x := get_fields (r_type f7 r2 r1 f3 d op) in
  opcode x = op /\ rd x = d /\ funct3 x = f3 /\ rs1 x = r1 /\ rs2 x = r2 /\ funct7 x = f7 /\ imm_i x = r2 + 32 * f7.
Proof. intros H7. rewrite get_fields_r by done. by split_and!. Qed.

Lemma fields_i :
  0 <= imm < 2 ^ 12 -> let x := get_fields (i_type imm r1 f3 d op) in
  opcode x = op /\ rd x = d /\ funct3 x = f3 /\ rs1 x = r1 /\ rs2 x = imm mod 32 /\ funct7 x = imm / 32 /\
  imm_i x = imm /\ op_data x = i_type imm r1 f3 d op.
Proof.
  clear H2. intros Hi. rewrite i_type_r, get_fields_r by (unfold reg_ok in *; Z.div_mod_to_equations; lia).
  split_and!; try done. cbn. Z.div_mod_to_equations. lia.
Qed.

Lemma fields_s :
  0 <= imm < 2 ^ 12 -> let x := get_fields (s_type imm r2 r1 f3 op) in
  opcode x = op /\ funct3 x = f3 /\ rs1 x = r1 /\ rs2 x = r2 /\ imm_s x = imm.
Proof.
  clear Hd. intros Hi. rewrite s_type_r, get_fields_r by (unfold reg_ok in *; Z.div_mod_to_equations; lia).
  split_and!; try done. cbn. Z.div_mod_to_equations. lia.
Qed.

Lemma fields_b :
  0 <= imm < 2 ^ 13 -> imm mod 2 = 0 -> let x := get_fields (b_type imm r2 r1 f3 op) in
  opcode x = op /\ funct3 x = f3 /\ rs1 x = r1 /\ rs2 x = r2 /\ imm_b x = imm.
Proof.
  clear Hd. intros Hi He. rewrite b_type_r, get_fields_r by (unfold reg_ok in *; Z.div_mod_to_equations; lia).
  split_and!; try done. cbn. Z.div_mod_to_equations. lia.
Qed.

Lemma fields_u :
  0 <= imm < 2 ^ 20 -> let x := get_fields (u_type imm d op) in
  opcode x = op /\ rd x = d /\ imm_u x = imm * 2 ^ 12.
Proof.
  clear H1 H2 H3. intros Hi. rewrite u_type_r, get_fields_r by (unfold reg_ok in *; Z.div_mod_to_equations; lia).
  split_and!; try done. cbn. Z.div_mod_to_equations. lia.
Qed.

Lemma fields_j :
  0 <= imm < 2 ^ 21 -> imm mod 2 = 0 -> let x := get_fields (j_type imm d op) in
  opcode x = op /\ rd x = d /\ imm_j x = imm.
Proof.
  clear H1 H2 H3. intros Hi He. rewrite j_type_r, get_fields_r by (unfold reg_ok in *; Z.div_mod_to_equations; lia).
  split_and!; try done. cbn. Z.div_mod_to_equations. lia.
Qed.

End formats.

Lemma even_mod off n : 1 <= n -> off mod 2 = 0 -> (off mod 2 ^ n) mod 2 = 0.
Proof.
  intros Hn He. rewrite Z.mod_mod_divide; [done|].
  exists (2 ^ (n - 1)). rewrite <- (Z.pow_1_r 2) at 3. rewrite <- Z.pow_add_r by lia. f_equal. lia.
Qed.

Lemma mod_pow_range off n : 0 <= n -> 0 <= off mod 2 ^ n < 2 ^ n.
Proof. intros. apply Z.mod_pos_bound, Z.pow_pos_nonneg; lia. Qed.

(** Rewrites with the fields of the word, and reduces the [switch]es. *)
Ltac field_bounds :=
  first [done | apply mod_pow_range; lia | apply even_mod; [lia|done] | unfold reg_ok in *; simpl; lia].

Ltac decode_case H :=
  let E := fresh "E" in
  opose proof* H as E; [field_bounds..|]; cbv zeta in E;
  unfold decode_opcode, decode_lui, decode_auipc, decode_upper, decode_jal, decode_jalr, decode_branch, decode_load,
    decode_store, decode_op_imm, decode_op_reg, decode_fence, decode_system, decode_csr_reg, decode_csr_imm;
  repeat match type of E with _ /\ _ => let E' := fresh "E" in destruct E as [E' E]; rewrite ?E' end;
  rewrite ?E, ?sign_extend_mod by (done || lia).

Lemma decode_opcode_encode rev_pack i :
  instr_ok i ->
  exists p, decode_opcode (get_fields (encode i))
      (decode_rename_pack_zero <| dr_enable := true |> <| dr_valid := negb (fd_has_exception rev_pack) |>
         <| dr_pc := fd_pc rev_pack |>) = Some p /\
    decode_finish rev_pack p = decoded_pack rev_pack (decoded_of i).
Proof.
  intros Hok. destruct i as [d imm|d imm|d off|d r1 off|op r1 r2 off|op d r1 off|op r1 r2 off|op d r1 imm
    |op d r1 sh|op d r1 r2|op d r1 r2|ps| | | | |op d r1 c|op d z c]; cbn [instr_ok encode] in *; destruct_and? Hok.
  - decode_case (fields_u imm d 0x37). cbn. by eexists.
  - decode_case (fields_u imm d 0x17). cbn. by eexists.
  - decode_case (fields_j (off mod 2 ^ 21) d 0x6f). cbn. by eexists.
  - decode_case (fields_i (off mod 2 ^ 12) r1 0 d 0x67). cbn. by eexists.
  - assert (0 <= branch_funct3 op < 8) by (by destruct op).
    decode_case (fields_b (off mod 2 ^ 13) r2 r1 (branch_funct3 op) 0x63). destruct op; cbn; by eexists.
  - assert (0 <= load_funct3 op < 8) by (by destruct op).
    decode_case (fields_i (off mod 2 ^ 12) r1 (load_funct3 op) d 0x03). destruct op; cbn; by eexists.
  - assert (0 <= store_funct3 op < 8) by (by destruct op).
    decode_case (fields_s (off mod 2 ^ 12) r2 r1 (store_funct3 op) 0x23). destruct op; cbn; by eexists.
  - assert (0 <= imm_funct3 op < 8) by (by destruct op).
    decode_case (fields_i (imm mod 2 ^ 12) r1 (imm_funct3 op) d 0x13). destruct op; cbn; by eexists.
  - assert (0 <= shift_funct3 op < 8 /\ 0 <= shift_funct7 op <= 32) as [? ?] by (by destruct op).
    decode_case (fields_r (shift_funct7 op) sh r1 (shift_funct3 op) d 0x13).
    rewrite (sign_extend_spec (sh + 32 * shift_funct7 op) 12) by lia.
    replace (sh + 32 * shift_funct7 op <? 2 ^ (12 - 1)) with true by (bcase; lia).
    rewrite u32_small by lia.
    destruct op; cbn; by eexists.
  - assert (0 <= reg_funct3 op < 8 /\ 0 <= reg_funct7 op < 128) as [? ?] by (by destruct op).
    decode_case (fields_r (reg_funct7 op) r2 r1 (reg_funct3 op) d 0x33). destruct op; cbn; by eexists.
  - assert (0 <= m_funct3 op < 8) by (by destruct op).
    decode_case (fields_r 0x01 r2 r1 (m_funct3 op) d 0x33). destruct op; cbn; by eexists.
  - decode_case (fields_i ps 0 0 0 0x0f).
    replace (Z.land (shr32 (i_type ps 0 0 0 15) 28) 15) with 0; [cbn; by eexists|].
    rewrite (field_eq _ 28 4) by (done || lia). unfold i_type. Z.div_mod_to_equations. lia.
  - cbn. by eexists.
  - cbn. by eexists.
  - cbn. by eexists.
  - cbn. by eexists.
  - assert (0 <= csr_funct3 op < 8) by (by destruct op).
    decode_case (fields_i c r1 (csr_funct3 op) d 0x73). destruct op; cbn; by eexists.
  - assert (0 <= 4 + csr_funct3 op < 8) by (by destruct op).
    decode_case (fields_i c z (4 + csr_funct3 op) d 0x73). destruct op; cbn; by eexists.
Qed.

(** C7: decode inverts the encoding of the manual.  For every instruction of
    RV32IM with Zicsr and [mret], with any registers and immediates in range,
    the word that encodes it decodes to the operation, execution unit,
    operand sources, register numbers, sign-extended immediate and CSR number
    of that instruction, and everything else is handed on from fetch; no
    assertion fails. *)
Theorem decode_encode rev_pack i :
  instr_ok i -> fd_enable rev_pack = true -> fd_value rev_pack = encode i ->
  decode_pack rev_pack = Some (decoded_pack rev_pack (decoded_of i)).
Proof.
  intros Hok He Hv. unfold decode_pack. rewrite He, Hv.
  destruct (decode_opcode_encode rev_pack i Hok) as (p & -> & Hp). cbn [mbind option_bind]. by rewrite Hp.
Qed.

Definition fetch_demo (w : Z) : fetch_decode_pack_t := fetch_decode_pack_zero
  <| fd_enable := true |> <| fd_pc := 0x80000000 |> <| fd_value := w |>.

Lemma decode_encode_witness :
  encode (BRANCH BNE 5 0 (-8)) = 0xfe029ce3 /\
  exists p, decode_pack (fetch_demo 0xfe029ce3) = Some p /\ dr_op p = op_bne /\ dr_imm p = 0xfffffff8 /\
    dr_rs1 p = 5 /\ dr_rs1_need_map p = true /\ dr_rs2_need_map p = false.
Proof.
  split; [reflexivity|]. exists (decoded_pack (fetch_demo 0xfe029ce3) (decoded_of (BRANCH BNE 5 0 (-8)))).
  split; [|split_and!; reflexivity].
  rewrite (decode_encode (fetch_demo 0xfe029ce3) (BRANCH BNE 5 0 (-8))).
  - reflexivity.
  - unfold instr_ok, reg_ok, signed_ok. split_and!; lia || reflexivity.
  - reflexivity.
  - reflexivity.
Defined.

(** * The words that decode accepts *)

Lemma signed_of n u : 0 < n -> 0 <= u < 2 ^ n -> exists off, signed_ok n off /\ off mod 2 ^ n = u.
Proof.
  intros Hn Hu. unfold signed_ok.
  assert (2 ^ n = 2 * 2 ^ (n - 1)) as Hp by (rewrite <- Z.pow_succ_r by lia; f_equal; lia).
  destruct (decide (u < 2 ^ (n - 1))).
  - exists u. split; [lia|]. by apply Z.mod_small.
  - exists (u - 2 ^ n). split; [lia|]. symmetry. apply Z.mod_unique_pos with (-1); lia.
Qed.

(** The even signed offset behind an even field. *)
Lemma signed_of_even n u :
  1 < n -> 0 <= u < 2 ^ n -> u mod 2 = 0 -> exists off, signed_ok n off /\ off mod 2 = 0 /\ off mod 2 ^ n = u.
Proof.
  intros Hn Hu He. destruct (signed_of n u) as (off & Hs & Hm); [lia|done|]. exists off. split_and!; try done.
  rewrite <- He, <- Hm. symmetry. rewrite Z.mod_mod_divide; [done|].
  exists (2 ^ (n - 1)). rewrite <- (Z.pow_1_r 2) at 3. rewrite <- Z.pow_add_r by lia. f_equal. lia.
Qed.

(** The pieces of the immediate of the jump format. *)
Lemma j_pieces a b c e :
  0 <= a < 2 ^ 10 -> 0 <= b < 2 -> 0 <= c < 2 ^ 8 -> 0 <= e < 2 ->
  let imm := a * 2 + b * 2 ^ 11 + c * 2 ^ 12 + e * 2 ^ 20 in
  imm / 2 mod 2 ^ 10 = a /\ imm / 2 ^ 11 mod 2 = b /\ imm / 2 ^ 12 mod 2 ^ 8 = c /\ imm / 2 ^ 20 = e /\
  imm mod 2 = 0 /\ 0 <= imm < 2 ^ 21.
Proof.
  intros Ha Hb Hc He imm.
  assert (imm / 2 = a + 2 ^ 10 * (b + 2 * c + 2 ^ 9 * e)) as ->
    by (symmetry; apply Z.div_unique with 0; unfold imm; lia).
  assert (imm / 2 ^ 11 = b + 2 * (c + 2 ^ 8 * e)) as ->
    by (symmetry; apply Z.div_unique with (a * 2); unfold imm; lia).
  assert (imm / 2 ^ 12 = c + 2 ^ 8 * e) as ->
    by (symmetry; apply Z.div_unique with (a * 2 + b * 2 ^ 11); unfold imm; lia).
  split_and!; [symmetry|symmetry|symmetry|symmetry|symmetry|unfold imm; lia|unfold imm; lia].
  - apply Z.mod_unique with (b + 2 * c + 2 ^ 9 * e); lia.
  - apply Z.mod_unique with (c + 2 ^ 8 * e); lia.
  - apply Z.mod_unique with e; lia.
  - apply Z.div_unique with (a * 2 + b * 2 ^ 11 + c * 2 ^ 12); unfold imm; lia.
  - apply Z.mod_unique with (a + b * 2 ^ 10 + c * 2 ^ 11 + e * 2 ^ 19); unfold imm; lia.
Qed.

Definition encoded (w : Z) : Prop := exists i, instr_ok i /\ w = encode i.

Section accepted.
Context (f7 r2 r1 f3 d : Z).
Context (H7 : 0 <= f7 < 128) (H2 : reg_ok r2) (H1 : reg_ok r1) (H3 : 0 <= f3 < 8) (Hd : reg_ok d).

Lemma accepted_i (k : Z -> instr) op :
  (forall imm, signed_ok 12 imm -> instr_ok (k imm)) ->
  (forall imm, encode (k imm) = i_type (imm mod 2 ^ 12) r1 f3 d op) ->
  encoded (r_type f7 r2 r1 f3 d op).
Proof.
  intros Hk Hek. destruct (signed_of 12 (r2 + 32 * f7)) as (off & Hs & Hm); [lia|unfold reg_ok in *; lia|].
  exists (k off). split; [by apply Hk|]. rewrite Hek, Hm. unfold i_type, r_type. lia.
Qed.

Lemma accepted_s (k : Z -> instr) op :
  (forall imm, signed_ok 12 imm -> instr_ok (k imm)) ->
  (forall imm, encode (k imm) = s_type (imm mod 2 ^ 12) r2 r1 f3 op) ->
  encoded (r_type f7 r2 r1 f3 d op).
Proof.
  intros Hk Hek. destruct (signed_of 12 (d + 32 * f7)) as (off & Hs & Hm); [lia|unfold reg_ok in *; lia|].
  exists (k off). split; [by apply Hk|]. rewrite Hek, Hm. unfold s_type, r_type, reg_ok in *.
  Z.div_mod_to_equations. lia.
Qed.

Lemma accepted_b (k : Z -> instr) op :
  (forall imm, signed_ok 13 imm -> imm mod 2 = 0 -> instr_ok (k imm)) ->
  (forall imm, encode (k imm) = b_type (imm mod 2 ^ 13) r2 r1 f3 op) ->
  encoded (r_type f7 r2 r1 f3 d op).
Proof.
  intros Hk Hek.
  destruct (signed_of_even 13 (d / 2 * 2 + f7 mod 64 * 32 + d mod 2 * 2 ^ 11 + f7 / 64 * 2 ^ 12))
    as (off & Hs & He & Hm); [lia|unfold reg_ok in *; Z.div_mod_to_equations; lia..|].
  exists (k off). split; [by apply Hk|]. rewrite Hek, Hm. unfold b_type, r_type, reg_ok in *.
  Z.div_mod_to_equations. lia.
Qed.

Lemma accepted_u (k : Z -> instr) op :
  (forall imm, 0 <= imm < 2 ^ 20 -> instr_ok (k imm)) ->
  (forall imm, encode (k imm) = u_type imm d op) ->
  encoded (r_type f7 r2 r1 f3 d op).
Proof.
  intros Hk Hek. exists (k (f3 + 8 * r1 + 2 ^ 8 * r2 + 2 ^ 13 * f7)). split.
  - apply Hk. unfold reg_ok in *. lia.
  - rewrite Hek. unfold u_type, r_type. lia.
Qed.

Lemma accepted_j op :
  op = 0x6f -> encoded (r_type f7 r2 r1 f3 d op).
Proof.
  intros ->.
  pose proof (Z.div_mod r2 2). pose proof (Z.div_mod f7 64). pose proof (Z.mod_pos_bound r2 2).
  pose proof (Z.mod_pos_bound f7 64). unfold reg_ok in *.
  destruct (j_pieces (r2 / 2 + 16 * (f7 mod 64)) (r2 mod 2) (f3 + 8 * r1) (f7 / 64))
    as (P1 & P2 & P3 & P4 & P5 & P6); [lia..|].
  destruct (signed_of_even 21 ((r2 / 2 + 16 * (f7 mod 64)) * 2 + r2 mod 2 * 2 ^ 11 + (f3 + 8 * r1) * 2 ^ 12 +
    f7 / 64 * 2 ^ 20)) as (off & Hs & He & Hm); [lia|done..|].
  exists (JAL d off). split; [done|]. cbn [encode]. rewrite Hm. unfold j_type. rewrite P1, P2, P3, P4.
  unfold r_type. lia.
Qed.

End accepted.

Lemma sign_extend_total imm n : 0 < n < 32 -> exists v, sign_extend imm n = Some v.
Proof.
  intros Hn. unfold sign_extend. destruct (Z.ltb_spec 0 n); [|lia]. destruct (Z.ltb_spec n 32); [|lia]. by eexists.
Qed.

(** The chains of comparisons, one case per [case] label. *)
Ltac switch_cases :=
  repeat match goal with
    | |- context [if ?a =? ?b then _ else _] => destruct (Z.eqb_spec a b) as [-> |?]
    | |- context [if (?a =? ?b) && _ then _ else _] => destruct (Z.eqb_spec a b) as [-> |?]; cbn [andb]
    end.

Ltac total_imm imm n :=
  let v := fresh "v" in destruct (sign_extend_total imm n) as [v ->]; [lia|]; cbn [mbind option_bind].

Definition accepts (p0 : decode_rename_pack_t) (w : Z) (r : option decode_rename_pack_t) : Prop :=
  exists p, r = Some p /\ (dr_valid p = true -> dr_valid p0 = true /\ (encoded w \/ w mod 2 ^ 7 = 0x67)).

Lemma accepts_invalid p0 w p : accepts p0 w (Some (invalid p)).
Proof. eexists. split; [done|]. done. Qed.

Lemma accepts_encoded p0 w p : dr_valid p = dr_valid p0 -> encoded w -> accepts p0 w (Some p).
Proof. intros Hv He. eexists. split; [done|]. rewrite Hv. auto. Qed.

Ltac reject := match goal with |- accepts _ _ (Some (invalid _)) => apply accepts_invalid end.

Section accepts.
Context (f7 r2 r1 f3 d : Z).
Context (H7 : 0 <= f7 < 128) (H2 : reg_ok r2) (H1 : reg_ok r1) (H3 : 0 <= f3 < 8) (Hd : reg_ok d).
Context (p0 : decode_rename_pack_t).

Local Definition word (op : Z) : Z := r_type f7 r2 r1 f3 d op.

Lemma accepts_branch : accepts p0 (word 0x63) (decode_branch (get_fields (word 0x63)) p0).
Proof using H1 H2 H3 H7 Hd.
  unfold word. rewrite get_fields_r by (done || lia). unfold decode_branch. cbn [imm_b funct3 rs1 rs2].
  match goal with |- context [sign_extend ?i 13] => total_imm i 13 end.
  switch_cases; try reject.
  all: apply accepts_encoded; [done|].
  - by apply (accepted_b f7 r2 r1 0 d H7 H2 H1 H3 Hd (BRANCH BEQ r1 r2)).
  - by apply (accepted_b f7 r2 r1 1 d H7 H2 H1 H3 Hd (BRANCH BNE r1 r2)).
  - by apply (accepted_b f7 r2 r1 4 d H7 H2 H1 H3 Hd (BRANCH BLT r1 r2)).
  - by apply (accepted_b f7 r2 r1 5 d H7 H2 H1 H3 Hd (BRANCH BGE r1 r2)).
  - by apply (accepted_b f7 r2 r1 6 d H7 H2 H1 H3 Hd (BRANCH BLTU r1 r2)).
  - by apply (accepted_b f7 r2 r1 7 d H7 H2 H1 H3 Hd (BRANCH BGEU r1 r2)).
Qed.

Lemma accepts_load : accepts p0 (word 0x03) (decode_load (get_fields (word 0x03)) p0).
Proof using H1 H2 H3 H7 Hd.
  unfold word. rewrite get_fields_r by (done || lia). unfold decode_load. cbn [imm_i funct3 rs1 rd].
  total_imm (r2 + 32 * f7) 12. switch_cases; try reject.
  all: apply accepts_encoded; [done|].
  - by apply (accepted_i f7 r2 r1 0 d H7 H2 (LOAD LB d r1)).
  - by apply (accepted_i f7 r2 r1 1 d H7 H2 (LOAD LH d r1)).
  - by apply (accepted_i f7 r2 r1 2 d H7 H2 (LOAD LW d r1)).
  - by apply (accepted_i f7 r2 r1 4 d H7 H2 (LOAD LBU d r1)).
  - by apply (accepted_i f7 r2 r1 5 d H7 H2 (LOAD LHU d r1)).
Qed.

Lemma accepts_store : accepts p0 (word 0x23) (decode_store (get_fields (word 0x23)) p0).
Proof using H1 H2 H3 H7 Hd.
  unfold word. rewrite get_fields_r by (done || lia). unfold decode_store. cbn [imm_s funct3 rs1 rs2].
  total_imm (d + 32 * f7) 12. switch_cases; try reject.
  all: apply accepts_encoded; [done|].
  - by apply (accepted_s f7 r2 r1 0 d H7 H2 H1 H3 Hd (STORE SB r1 r2)).
  - by apply (accepted_s f7 r2 r1 1 d H7 H2 H1 H3 Hd (STORE SH r1 r2)).
  - by apply (accepted_s f7 r2 r1 2 d H7 H2 H1 H3 Hd (STORE SW r1 r2)).
Qed.

Lemma accepts_op_imm : accepts p0 (word 0x13) (decode_op_imm (get_fields (word 0x13)) p0).
Proof using H1 H2 H3 H7 Hd.
  unfold word. rewrite get_fields_r by (done || lia). unfold decode_op_imm. cbn [imm_i funct3 funct7 rs1 rd].
  total_imm (r2 + 32 * f7) 12. switch_cases; try reject.
  all: apply accepts_encoded; [done|].
  - by apply (accepted_i f7 r2 r1 0 d H7 H2 (OPIMM ADDI d r1)).
  - by apply (accepted_i f7 r2 r1 2 d H7 H2 (OPIMM SLTI d r1)).
  - by apply (accepted_i f7 r2 r1 3 d H7 H2 (OPIMM SLTIU d r1)).
  - by apply (accepted_i f7 r2 r1 4 d H7 H2 (OPIMM XORI d r1)).
  - by apply (accepted_i f7 r2 r1 6 d H7 H2 (OPIMM ORI d r1)).
  - by apply (accepted_i f7 r2 r1 7 d H7 H2 (OPIMM ANDI d r1)).
  - by exists (SHIFT SLLI d r1 r2).
  - by exists (SHIFT SRLI d r1 r2).
  - by exists (SHIFT SRAI d r1 r2).
Qed.

Lemma accepts_op_reg : accepts p0 (word 0x33) (Some (decode_op_reg (get_fields (word 0x33)) p0)).
Proof using H1 H2 H3 H7 Hd.
  unfold word. rewrite get_fields_r by (done || lia). unfold decode_op_reg. cbn [funct3 funct7 rs1 rs2 rd].
  switch_cases; try reject.
  all: apply accepts_encoded; [done|].
  - by exists (OP ADD d r1 r2).
  - by exists (OP SUB d r1 r2).
  - by exists (OPM MUL d r1 r2).
  - by exists (OP SLL d r1 r2).
  - by exists (OPM MULH d r1 r2).
  - by exists (OP SLT d r1 r2).
  - by exists (OPM MULHSU d r1 r2).
  - by exists (OP SLTU d r1 r2).
  - by exists (OPM MULHU d r1 r2).
  - by exists (OP XOR d r1 r2).
  - by exists (OPM DIV d r1 r2).
  - by exists (OP SRL d r1 r2).
  - by exists (OP SRA d r1 r2).
  - by exists (OPM DIVU d r1 r2).
  - by exists (OP OR d r1 r2).
  - by exists (OPM REM d r1 r2).
  - by exists (OP AND d r1 r2).
  - by exists (OPM REMU d r1 r2).
Qed.

Lemma accepts_fence : accepts p0 (word 0x0f) (Some (decode_fence (get_fields (word 0x0f)) p0)).
Proof using H1 H2 H3 H7 Hd.
  unfold word. rewrite get_fields_r by (done || lia). unfold decode_fence. cbn [funct3 rs1 rd imm_i op_data].
  destruct (Z.eqb_spec f3 0) as [-> |?]; [|destruct (Z.eqb_spec f3 1) as [-> |?]; [|reject]].
  - destruct (Z.eqb_spec d 0) as [-> |?]; cbn [andb]; [|reject].
    destruct (Z.eqb_spec r1 0) as [-> |?]; cbn [andb]; [|reject].
    rewrite (field_eq _ 28 4) by (done || lia). case_match eqn:E; [|reject]. apply Z.eqb_eq in E.
    apply accepts_encoded; [done|]. exists (FENCE (r2 + 32 * f7)). cbn. unfold r_type, i_type, reg_ok in *.
    split; [|lia]. Z.div_mod_to_equations. lia.
  - destruct (Z.eqb_spec d 0) as [-> |?]; cbn [andb]; [|reject].
    destruct (Z.eqb_spec r1 0) as [-> |?]; cbn [andb]; [|reject].
    case_match eqn:E; [|reject]. apply Z.eqb_eq in E.
    apply accepts_encoded; [done|]. exists FENCE_I. split; [done|]. cbn. unfold r_type, i_type, reg_ok in *. lia.
Qed.

Lemma accepts_system : accepts p0 (word 0x73) (Some (decode_system (get_fields (word 0x73)) p0)).
Proof using H1 H2 H3 H7 Hd.
  unfold word. rewrite get_fields_r by (done || lia). unfold decode_system. cbn [funct3 funct7 rs1 rs2 rd].
  switch_cases; try reject.
  all: apply accepts_encoded; [done|].
  all: unfold encoded, encode, i_type, r_type, reg_ok in *.
  - by exists ECALL.
  - by exists EBREAK.
  - by exists MRET.
  - exists (CSRREG CSRRW d r1 (r2 + 32 * f7)). cbn. unfold reg_ok. lia.
  - exists (CSRREG CSRRS d r1 (r2 + 32 * f7)). cbn. unfold reg_ok. lia.
  - exists (CSRREG CSRRC d r1 (r2 + 32 * f7)). cbn. unfold reg_ok. lia.
  - exists (CSRIMM CSRRW d r1 (r2 + 32 * f7)). cbn. unfold reg_ok. lia.
  - exists (CSRIMM CSRRS d r1 (r2 + 32 * f7)). cbn. unfold reg_ok. lia.
  - exists (CSRIMM CSRRC d r1 (r2 + 32 * f7)). cbn. unfold reg_ok. lia.
Qed.

Lemma decode_opcode_accepts op :
  0 <= op < 128 -> accepts p0 (word op) (decode_opcode (get_fields (word op)) p0).
Proof using H1 H2 H3 H7 Hd.
  intros Ho. unfold decode_opcode.
  assert (opcode (get_fields (word op)) = op) as -> by (unfold word; by rewrite get_fields_r).
  destruct (Z.eqb_spec op 0x37) as [-> |?].
  { apply accepts_encoded; [done|]. by apply (accepted_u f7 r2 r1 f3 d H7 H2 H1 H3 (LUI d)). }
  destruct (Z.eqb_spec op 0x17) as [-> |?].
  { apply accepts_encoded; [done|]. by apply (accepted_u f7 r2 r1 f3 d H7 H2 H1 H3 (AUIPC d)). }
  destruct (Z.eqb_spec op 0x6f) as [-> |?].
  { unfold decode_jal. total_imm (imm_j (get_fields (word 0x6f))) 21. apply accepts_encoded; [done|].
    by apply accepted_j. }
  destruct (Z.eqb_spec op 0x67) as [-> |?].
  { unfold decode_jalr. total_imm (imm_i (get_fields (word 0x67))) 12. eexists. split; [done|].
    intros Hv. split; [exact Hv|]. right. unfold word, r_type. Z.div_mod_to_equations. lia. }
  destruct (Z.eqb_spec op 0x63) as [-> |?]; [apply accepts_branch|].
  destruct (Z.eqb_spec op 0x03) as [-> |?]; [apply accepts_load|].
  destruct (Z.eqb_spec op 0x23) as [-> |?]; [apply accepts_store|].
  destruct (Z.eqb_spec op 0x13) as [-> |?]; [apply accepts_op_imm|].
  destruct (Z.eqb_spec op 0x33) as [-> |?]; [apply accepts_op_reg|].
  destruct (Z.eqb_spec op 0x0f) as [-> |?]; [apply accepts_fence|].
  destruct (Z.eqb_spec op 0x73) as [-> |?]; [apply accepts_system|]. apply accepts_invalid.
Qed.

End accepts.

Lemma decode_pack_total rev_pack : is_u32 (fd_value rev_pack) -> exists p, decode_pack rev_pack = Some p.
Proof.
  intros Hw. unfold decode_pack. destruct (fd_enable rev_pack); [|by eexists].
  destruct (word_r_type _ Hw) as (f7 & r2 & r1 & f3 & d & op & -> & H7 & H2 & H1 & H3 & Hd & Ho).
  edestruct (decode_opcode_accepts f7 r2 r1 f3 d H7 H2 H1 H3 Hd) as (p & Ep & _); [exact Ho|].
  unfold word in *. rewrite Ep. by eexists.
Qed.

(** C23: the valid bit.  Decode is total, and marks a fetched word as valid
    exactly when it was fetched without an exception and is the encoding of an
    instruction, or has the opcode of [jalr] (whose [funct3] field, which
    should be zero, the decoder does not look at). *)
Theorem decode_accepts rev_pack :
  is_u32 (fd_value rev_pack) ->
  exists p, decode_pack rev_pack = Some p /\
    (dr_valid p = true <-> fd_enable rev_pack = true /\ fd_has_exception rev_pack = false /\
       (encoded (fd_value rev_pack) \/ fd_value rev_pack mod 2 ^ 7 = 0x67)).
Proof.
  intros Hw. unfold decode_pack. destruct (fd_enable rev_pack); [|by eexists; split; [done|split; [done|intros []]]].
  set (p0 := decode_rename_pack_zero <| dr_enable := true |> <| dr_valid := negb (fd_has_exception rev_pack) |>
         <| dr_pc := fd_pc rev_pack |>).
  destruct (word_r_type _ Hw) as (f7 & r2 & r1 & f3 & d & op & Ew & H7 & H2 & H1 & H3 & Hd & Ho).
  rewrite Ew. destruct (decode_opcode_accepts f7 r2 r1 f3 d H7 H2 H1 H3 Hd p0 op Ho) as (p & Ep & Hp).
  unfold word in *. rewrite Ep. eexists. split; [done|]. cbn [dr_valid]. split.
  - intros Hv. destruct (Hp Hv) as [Hv0 Henc]. split_and!; [done| |done].
    cbn in Hv0. by destruct (fd_has_exception rev_pack).
  - intros (_ & He & [(i & Hi & Ei)|Hj]).
    + destruct (decode_opcode_encode rev_pack i Hi) as (p' & Ep' & Hfin). rewrite <- Ei in Ep'.
      unfold p0 in Ep. rewrite Ep in Ep'. apply (inj Some) in Ep' as ->.
      rewrite Hfin. cbn. by rewrite He.
    + assert (op = 0x67) as -> by (revert Hj; unfold r_type; Z.div_mod_to_equations; lia).
      unfold decode_opcode in Ep. rewrite get_fields_r in Ep by done. cbn [opcode] in Ep.
      cbn [Z.eqb Pos.eqb] in Ep. unfold decode_jalr in Ep. cbn [imm_i] in Ep.
      destruct (sign_extend_total (r2 + 32 * f7) 12) as [v Ev]; [lia|]. rewrite Ev in Ep.
      cbn [mbind option_bind] in Ep. apply (inj Some) in Ep as <-. cbn. by rewrite He.
Qed.

Lemma decode_accepts_witness :
  exists p, decode_pack (fetch_demo 0x00000000) = Some p /\ dr_valid p = false.
Proof.
  destruct (decode_accepts (fetch_demo 0x00000000)) as (p & Hp & Hv).
  - unfold is_u32. cbn. lia.
  - exists p. split; [exact Hp|]. vm_compute in Hp. injection Hp as <-. reflexivity.
Defined.

(** * A cycle of decode *)

(** The queue after its first [n] elements were popped. *)
Definition q_remove {T} (n : nat) (q : queue T) : queue T :=
  mk_queue (q_cap q) (if q_save q && negb (q_stale q) then q_popped q ++ take n (q_items q) else q_popped q)
    (drop n (q_items q)) (q_save q) (q_stale q).

(** The queue after elements were pushed. *)
Definition q_append {T} (q : queue T) (l : list T) : queue T :=
  mk_queue (q_cap q) (q_popped q) (q_items q ++ l) (q_save q) (q_stale q).

(** How many instructions a cycle moves. *)
Definition decode_count {A B} (n : nat) (qi : queue A) (qo : queue B) : nat :=
  n `min` (length (q_items qi) `min` (q_cap qo - q_used qo)).

(** What [n] iterations do: [s'] is the state after them. *)
Definition decode_moved (n : nat) (s s' : decode_state) (qi : queue fetch_decode_pack_t)
    (qo : queue decode_rename_pack_t) : Prop :=
  let k := decode_count n qi qo in
  exists sent, Forall2 (fun r p => decode_pack r = Some p) (take k (q_items qi)) sent /\
    fifo_refines (fetch_decode_fifo s') (q_remove k qi) /\
    fifo_refines (decode_rename_fifo s') (q_append qo sent) /\
    decode_rename_fifo_full s' =
      if decide (drop k (q_items qi) = []) then decode_rename_fifo_full s
      else u64 (decode_rename_fifo_full s + Z.of_nat (n - k)).

Lemma q_remove_0 {T} (q : queue T) : q_remove 0 q = q.
Proof. destruct q as [c p l [] []]; unfold q_remove; cbn; by rewrite ?app_nil_r. Qed.

Lemma q_append_nil {T} (q : queue T) : q_append q [] = q.
Proof. destruct q. unfold q_append. cbn. by rewrite app_nil_r. Qed.

Section cycle.
Context (s : decode_state) (qi : queue fetch_decode_pack_t) (qo : queue decode_rename_pack_t).
Context (Ri : fifo_refines (fetch_decode_fifo s) qi) (Ro : fifo_refines (decode_rename_fifo s) qo).
Context (Hst : q_stale qo = false).

Lemma decode_one_empty : q_items qi = [] -> decode_one s = Some s.
Proof.
  intros E. destruct Ri as (bi & si & Wi). unfold decode_one.
  by rewrite (repr_is_empty Wi), bool_decide_true by done.
Qed.

Lemma decode_one_full :
  q_items qi <> [] -> q_used qo = q_cap qo -> decode_one s = Some (decode_rename_fifo_full_add s).
Proof.
  intros E Ef. destruct Ri as (bi & si & Wi), Ro as (bo & so & Wo). unfold decode_one.
  rewrite (repr_is_empty Wi), (repr_is_full Wo) by done. by rewrite bool_decide_false, bool_decide_true.
Qed.

Lemma decode_one_move r items p :
  q_items qi = r :: items -> q_used qo <> q_cap qo -> decode_pack r = Some p ->
  exists s', decode_one s = Some s' /\ fifo_refines (fetch_decode_fifo s') (q_remove 1 qi) /\
    fifo_refines (decode_rename_fifo s') (q_append qo [p]) /\
    decode_rename_fifo_full s' = decode_rename_fifo_full s.
Proof.
  intros E Ef Ep. destruct Ri as (bi & si & Wi), Ro as (bo & so & Wo). unfold decode_one.
  rewrite (repr_is_empty Wi), (repr_is_full Wo) by done.
  rewrite bool_decide_false by (by rewrite E). rewrite bool_decide_false by done. cbn [negb andb].
  destruct (repr_pop Wi) as (fi & bi' & si' & -> & Wi'). unfold q_pop in Wi' |- *. rewrite E in Wi' |- *.
  cbn [fst snd mbind option_bind] in *. rewrite Ep. cbn [mbind option_bind].
  destruct (repr_push Wo p Hst) as (fo & -> & Wo'). unfold q_push in Wo' |- *.
  rewrite decide_False in Wo' |- * by done. cbn [fst snd mbind option_bind] in *.
  eexists. split; [reflexivity|]. cbn. split_and!; [|by exists bo, so|done].
  exists bi', si'. unfold q_remove. by rewrite E.
Qed.

End cycle.

Lemma q_remove_1 {T} n (q : queue T) : q_remove n (q_remove 1 q) = q_remove (S n) q.
Proof.
  destruct q as [c p l sv st]. unfold q_remove. cbn. destruct l as [|x l]; cbn; rewrite ?drop_nil, ?take_nil.
  - by destruct (sv && negb st); rewrite ?app_nil_r.
  - rewrite drop_0. f_equal. destruct (sv && negb st); [|done]. by rewrite <- app_assoc.
Qed.

Lemma decode_loop_moves n s qi qo :
  fifo_refines (fetch_decode_fifo s) qi -> fifo_refines (decode_rename_fifo s) qo -> q_stale qo = false ->
  (q_used qo <= q_cap qo)%nat -> is_u64 (decode_rename_fifo_full s) ->
  Forall (fun r => is_u32 (fd_value r)) (q_items qi) ->
  exists s', decode_loop n s = Some s' /\ decode_moved n s s' qi qo.
Proof.
  revert s qi qo. induction n as [|n IH]; intros s qi qo Ri Ro Hst Hcap Hu Hw.
  { exists s. split; [done|]. exists []. unfold decode_count. cbn [Nat.min take]. rewrite q_remove_0, q_append_nil, Z.add_0_r.
    split_and!; try done. case_decide; [done|]. by rewrite u64_small. }
  cbn [decode_loop].
  destruct (q_items qi) as [|r items] eqn:E.
  { rewrite (decode_one_empty s qi) by done. cbn [mbind option_bind].
    destruct (IH s qi qo) as (s' & -> & sent & H1 & H2 & H3 & H4); try done; rewrite ?E; try done.
    exists s'. split; [done|]. exists sent. unfold decode_count in *. rewrite E in *. cbn [length Nat.min] in *.
    rewrite ?Nat.min_0_r in *. by split_and!. }
  apply Forall_cons_iff in Hw as [Hr Hw].
  destruct (decide (q_used qo = q_cap qo)) as [Ef|Ef].
  - rewrite (decode_one_full s qi qo) by (done || by rewrite E). cbn [mbind option_bind].
    destruct (IH (decode_rename_fifo_full_add s) qi qo) as (s' & -> & sent & H1 & H2 & H3 & H4); try done.
    { apply u64_range. } { rewrite E. by constructor. }
    exists s'. split; [done|]. exists sent. unfold decode_count in *. rewrite Ef, Nat.sub_diag, !Nat.min_0_r in *.
    split_and!; try done. rewrite H4, E. cbn [drop]. rewrite !decide_False by done.
    cbn [decode_rename_fifo_full decode_rename_fifo_full_add upd]. unfold u64.
    rewrite Zplus_mod_idemp_l. f_equal. lia.
  - destruct (decode_pack_total r Hr) as [p Ep].
    destruct (decode_one_move s qi qo Ri Ro Hst r items p E Ef Ep) as (s1 & -> & Ri1 & Ro1 & Hf1).
    cbn [mbind option_bind].
    destruct (IH s1 (q_remove 1 qi) (q_append qo [p])) as (s' & -> & sent & H1 & H2 & H3 & H4); try done.
    { unfold q_used in *. cbn. rewrite length_app. cbn. lia. } { by rewrite Hf1. }
    { cbn. by rewrite E. }
    assert (decode_count (S n) qi qo = S (decode_count n (q_remove 1 qi) (q_append qo [p]))) as Hk.
    { unfold decode_count, q_used in *. cbn [q_remove q_append q_items q_popped q_cap].
      rewrite E, length_app. cbn [length drop]. rewrite drop_0. lia. }
    exists s'. split; [done|]. exists (p :: sent). rewrite Hk. unfold decode_moved in *. rewrite q_remove_1 in H2.
    cbn [q_items q_remove] in *. rewrite E in *. cbn [drop take] in *. rewrite drop_0 in *.
    split_and!; [by constructor|done| |].
    + unfold q_append in *. cbn in *. by rewrite <- app_assoc in H3.
    + rewrite H4, Hf1. done.
Qed.

(** A cycle of the decode stage.  Unless the commit stage flushes, decode
    takes as many instructions as the width of the stage, the fetch queue and
    the room in the rename queue allow, and appends the decoded packets to the
    rename queue in fetch order; the counter of stalls advances once per
    instruction slot lost to a full rename queue.  A flush empties the rename
    queue and takes nothing.  The feedback says whether the fetch queue was
    empty. *)
Theorem decode_run_moves s qi qo pack :
  fifo_refines (fetch_decode_fifo s) qi -> fifo_refines (decode_rename_fifo s) qo -> q_stale qo = false ->
  is_u64 (decode_rename_fifo_full s) -> Forall (fun r => is_u32 (fd_value r)) (q_items qi) ->
  exists s', decode_run s pack = Some (bool_decide (q_items qi = []), s') /\
    if cf_enable pack && cf_flush pack
    then fetch_decode_fifo s' = fetch_decode_fifo s /\ fifo_refines (decode_rename_fifo s') (q_clear qo)
    else decode_moved (Z.to_nat DECODE_WIDTH) s s' qi qo.
Proof.
  intros Ri Ro Hst Hu Hw. unfold decode_run.
  assert (fifo_is_empty (fetch_decode_fifo s) = bool_decide (q_items qi = [])) as ->.
  { destruct Ri as (b & st & W). apply (repr_is_empty W). }
  destruct (cf_enable pack && cf_flush pack); cbn [negb].
  - eexists. split; [reflexivity|]. cbn. split; [done|]. destruct Ro as (b & st & W).
    exists 0%nat, false. apply (repr_clear W).
  - destruct (decode_loop_moves (Z.to_nat DECODE_WIDTH) s qi qo) as (s' & -> & Hm); try done.
    { destruct Ro as (b & st & W). apply (repr_used _ _ _ _ W). }
    exists s'. by split.
Qed.

Definition no_feedback : commit_feedback_pack_t :=
  mk_commit_feedback false false 0 false 0 false [] false false 0.

(** Two fetched instructions, a rename queue with room for one. *)
Definition decode_demo : decode_state :=
  mk_decode_state
    (mk_fifo [fetch_demo (encode (OP ADD 3 1 2)); fetch_demo (encode FENCE_I); fetch_demo 0] 3 2 false 0 false false 0 false)
    (mk_fifo [decode_rename_pack_zero] 1 0 false 0 false false 0 false) 7.

Lemma decode_run_moves_witness :
  exists s', decode_run decode_demo no_feedback = Some (false, s') /\
    decode_rename_fifo_full s' = 10 /\
    fifo_refines (decode_rename_fifo s')
      (mk_queue 1 [] [decoded_pack (fetch_demo (encode (OP ADD 3 1 2))) (decoded_of (OP ADD 3 1 2))] false false).
Proof.
  destruct (decode_run_moves decode_demo
    (mk_queue 3 [] [fetch_demo (encode (OP ADD 3 1 2)); fetch_demo (encode FENCE_I)] false false)
    (mk_queue 1 [] [] false false) no_feedback) as (s' & H & sent & Hs & _ & Ho & Hf).
  - exists 0%nat, false. split; cbn; try done; lia.
  - exists 0%nat, false. split; cbn; try done; lia.
  - reflexivity.
  - unfold is_u64. cbn. lia.
  - repeat apply Forall_cons_2; try apply Forall_nil_2; unfold is_u32; vm_compute; split; discriminate || reflexivity.
  - exists s'. split; [exact H|]. split; [exact Hf|].
    inversion Hs as [|r p l1 l2 Hp Hl]; subst. inversion Hl; subst.
    vm_compute in Hp. injection Hp as <-. exact Ho.
Defined.
