(* ===== verification/DecodeType.v ===== *)
(** The packets decode sends are well-formed: the numbers lie in the range of
    what they index, and the union [sub_op] holds the member the unit of the
    packet reads. *)

From Stdlib Require Import ZArith Lia.
From stdpp Require Import base numbers list option tactics.
From S2P Require Import Prelude Common Fifo PipelineCommon Packs Isa Decode.

Local Open Scope Z_scope.

(** The member of the union a unit reads. *)
Definition sub_op_of (u : op_unit_t) (s : sub_op_t) : Prop :=
  match u, s with
  | unit_alu, sub_alu _ | unit_bru, sub_bru _ | unit_csr, sub_csr _ | unit_div, sub_div _ | unit_lsu, sub_lsu _ | unit_mul, sub_mul _ => True
  | _, _ => False
  end.

Definition is_reg (a : Z) : Prop := 0 <= a < ARCH_REG_NUM.

Record pack_typed (p : decode_rename_pack_t) : Prop := {
  typed_rs1 : is_reg (dr_rs1 p);
  typed_rs2 : is_reg (dr_rs2 p);
  typed_rd : is_reg (dr_rd p);
  typed_csr : 0 <= dr_csr p < 4096;
  typed_imm : is_u32 (dr_imm p);
  typed_sub_op : dr_valid p = true -> sub_op_of (dr_op_unit p) (dr_sub_op p)
}.

(** The same of the fields of a word. *)
Record fields_typed (x : op_fields) : Prop := {
  fields_rd : is_reg (rd x);
  fields_rs1 : is_reg (rs1 x);
  fields_rs2 : is_reg (rs2 x);
  fields_imm_i : 0 <= imm_i x < 4096;
  fields_imm_s : is_u32 (imm_s x);
  fields_imm_b : is_u32 (imm_b x);
  fields_imm_u : is_u32 (imm_u x);
  fields_imm_j : is_u32 (imm_j x)
}.

Lemma get_fields_typed w : is_u32 w -> fields_typed (get_fields w).
Proof.
  intros Hw. rewrite get_fields_eq by done. unfold is_u32 in Hw.
  split; cbn; unfold is_reg, ARCH_REG_NUM, is_u32; Z.div_mod_to_equations; lia.
Qed.

Lemma sign_extend_u32 imm n v : is_u32 imm -> sign_extend imm n = Some v -> is_u32 v.
Proof.
  unfold sign_extend. intros Hi. destruct (_ && _); [|done]. mstep. intros [= <-]. apply (lor_range 32); [lia| |exact Hi].
  destruct (_ =? 0); [lia|]. unfold shl32, u32. apply Z.mod_pos_bound. lia.
Qed.

(** * Every case of the switch *)

(** [p0], before the switch, is typed but for the member of the union; a packet
    that is not changed further must be invalid. *)
Ltac typed_case x :=
  repeat match goal with |- context [if ?b then _ else _] => destruct b end;
  split; cbn; try (assumption || apply x); try done.

Section opcode.
Context (x : op_fields) (X : fields_typed x) (p0 : decode_rename_pack_t).
Context (R1 : is_reg (dr_rs1 p0)) (R2 : is_reg (dr_rs2 p0)) (Rd : is_reg (dr_rd p0)).
Context (Rc : 0 <= dr_csr p0 < 4096) (Ri : is_u32 (dr_imm p0)).

Lemma imm_i_u32 : is_u32 (imm_i x).
Proof. pose proof (fields_imm_i x X). unfold is_u32. lia. Qed.

(** A case that extends an immediate, and then chooses. *)
Ltac typed_imm H :=
  intros E; apply bind_Some in E as (imm & Hi & E); apply (inj Some) in E as <-;
  pose proof (sign_extend_u32 _ _ _ H Hi); typed_case X.

Lemma decode_opcode_typed p : decode_opcode x p0 = Some p -> pack_typed p.
Proof.
  unfold decode_opcode.
  destruct (opcode x =? 0x37); [intros E; apply (inj Some) in E as <-; typed_case X|].
  destruct (opcode x =? 0x17); [intros E; apply (inj Some) in E as <-; typed_case X|].
  destruct (opcode x =? 0x6f); [unfold decode_jal; typed_imm (fields_imm_j x X)|].
  destruct (opcode x =? 0x67); [unfold decode_jalr; typed_imm imm_i_u32|].
  destruct (opcode x =? 0x63); [unfold decode_branch; typed_imm (fields_imm_b x X)|].
  destruct (opcode x =? 0x03); [unfold decode_load; typed_imm imm_i_u32|].
  destruct (opcode x =? 0x23); [unfold decode_store; typed_imm (fields_imm_s x X)|].
  destruct (opcode x =? 0x13); [unfold decode_op_imm; typed_imm imm_i_u32|].
  pose proof imm_i_u32 as Hi. assert (is_u32 (rs1 x)) by (pose proof (fields_rs1 x X); unfold is_reg, is_u32, ARCH_REG_NUM in *; lia).
  destruct (opcode x =? 0x33); [intros E; apply (inj Some) in E as <-; unfold decode_op_reg; typed_case X|].
  destruct (opcode x =? 0x0f); [intros E; apply (inj Some) in E as <-; unfold decode_fence; typed_case X|].
  destruct (opcode x =? 0x73); [intros E; apply (inj Some) in E as <-; unfold decode_system; typed_case X|].
  intros E; apply (inj Some) in E as <-. typed_case X.
Qed.
End opcode.

(** C24: decode is type safe.  For every word the packet sent has register
    numbers that exist, a CSR number of twelve bits and a 32-bit immediate; when
    it is valid, the union [sub_op] holds the member that the unit of the packet
    reads; and only registers other than x0 are renamed or looked up. *)
Theorem decode_typed rev_pack :
  is_u32 (fd_value rev_pack) ->
  exists p, decode_pack rev_pack = Some p /\ pack_typed p /\
    (dr_need_rename p = true -> 0 < dr_rd p) /\
    (dr_rs1_need_map p = true -> 0 < dr_rs1 p) /\ (dr_rs2_need_map p = true -> 0 < dr_rs2 p).
Proof.
  intros Hw. destruct (decode_pack_total rev_pack Hw) as [p Ep]. exists p. split; [done|]. unfold decode_pack in Ep.
  destruct (fd_enable rev_pack); [|by injection Ep as <-; split; [split|]; cbn; unfold is_reg, is_u32, ARCH_REG_NUM; try lia].
  apply bind_Some in Ep as (p1 & E1 & Ep). apply (inj Some) in Ep as <-.
  apply decode_opcode_typed in E1 as []; [|by apply get_fields_typed|cbn; unfold is_reg, is_u32, ARCH_REG_NUM; lia..].
  split; [by split|]. split_and!; cbn; intros [_ H]%andb_true_iff; by apply Z.ltb_lt.
Qed.

Lemma decode_typed_witness :
  exists p, decode_pack (fetch_demo (encode (STORE SW 2 3 (-4)))) = Some p /\ pack_typed p /\ dr_rs2 p = 3.
Proof.
  destruct (decode_typed (fetch_demo (encode (STORE SW 2 3 (-4))))) as (p & E & T & _).
  - unfold is_u32. vm_compute. split; [discriminate|reflexivity].
  - exists p. split; [exact E|]. split; [exact T|]. vm_compute in E. by injection E as <-.
Defined.
