(* ===== verification/BranchPredictor.v ===== *)
(** The branch predictor [component::branch_predictor] of
    [component/branch_predictor.h]: a gshare and a local two-level predictor
    with a chooser table, the return address stack, and target caches for
    indirect calls and jumps.

    The histories exist twice: the speculative ones, which fetch advances with
    each prediction and a misprediction repairs from the checkpoint of the
    branch, and the retired ones, which commit advances. *)

From Stdlib Require Import ZArith Lia.
From stdpp Require Import base numbers list option tactics.
From S2P Require Import Prelude Common Ras Fifo FifoIds IdQueue Rob CheckpointBuffer PipelineCommon Packs Isa Decode.

Local Open Scope Z_scope.

(** * [config.h] *)

Definition GSHARE_PC_P1_ADDR_WIDTH : Z := 12.
Definition GSHARE_PC_P2_ADDR_WIDTH : Z := 0.
Definition GSHARE_GLOBAL_HISTORY_WIDTH : Z := GSHARE_PC_P1_ADDR_WIDTH.
Definition GSHARE_PHT_ADDR_WIDTH : Z := GSHARE_PC_P1_ADDR_WIDTH.
Definition GSHARE_PHT_SIZE : Z := Z.shiftl 1 GSHARE_PHT_ADDR_WIDTH.
Definition GSHARE_PC_P1_ADDR_MASK : Z := Z.shiftl 1 GSHARE_PC_P1_ADDR_WIDTH - 1.
Definition GSHARE_GLOBAL_HISTORY_MASK : Z := Z.shiftl 1 GSHARE_GLOBAL_HISTORY_WIDTH - 1.
Definition LOCAL_PC_P1_ADDR_WIDTH : Z := 12.
Definition LOCAL_PC_P2_ADDR_WIDTH : Z := 0.
Definition LOCAL_BHT_ADDR_WIDTH : Z := LOCAL_PC_P1_ADDR_WIDTH.
Definition LOCAL_BHT_SIZE : Z := Z.shiftl 1 LOCAL_BHT_ADDR_WIDTH.
Definition LOCAL_BHT_WIDTH : Z := LOCAL_PC_P1_ADDR_WIDTH.
Definition LOCAL_PHT_ADDR_WIDTH : Z := LOCAL_PC_P1_ADDR_WIDTH.
Definition LOCAL_PHT_SIZE : Z := Z.shiftl 1 LOCAL_PHT_ADDR_WIDTH.
Definition LOCAL_PC_P1_ADDR_MASK : Z := Z.shiftl 1 LOCAL_PC_P1_ADDR_WIDTH - 1.
Definition LOCAL_BHT_WIDTH_MASK : Z := Z.shiftl 1 LOCAL_BHT_WIDTH - 1.
Definition RAS_SIZE : Z := 256.
Definition CALL_PC_P1_ADDR_WIDTH : Z := 12.
Definition CALL_PC_P2_ADDR_WIDTH : Z := 0.
Definition CALL_GLOBAL_HISTORY_WIDTH : Z := CALL_PC_P1_ADDR_WIDTH.
Definition CALL_TARGET_CACHE_ADDR_WIDTH : Z := CALL_PC_P1_ADDR_WIDTH.
Definition CALL_TARGET_CACHE_SIZE : Z := Z.shiftl 1 CALL_TARGET_CACHE_ADDR_WIDTH.
Definition CALL_PC_P1_ADDR_MASK : Z := Z.shiftl 1 CALL_PC_P1_ADDR_WIDTH - 1.
Definition CALL_GLOBAL_HISTORY_MASK : Z := Z.shiftl 1 CALL_GLOBAL_HISTORY_WIDTH - 1.
Definition NORMAL_PC_P1_ADDR_WIDTH : Z := 12.
Definition NORMAL_PC_P2_ADDR_WIDTH : Z := 0.
Definition NORMAL_GLOBAL_HISTORY_WIDTH : Z := NORMAL_PC_P1_ADDR_WIDTH.
Definition NORMAL_TARGET_CACHE_ADDR_WIDTH : Z := NORMAL_PC_P1_ADDR_WIDTH.
Definition NORMAL_TARGET_CACHE_SIZE : Z := Z.shiftl 1 NORMAL_TARGET_CACHE_ADDR_WIDTH.
Definition NORMAL_PC_P1_ADDR_MASK : Z := Z.shiftl 1 NORMAL_PC_P1_ADDR_WIDTH - 1.
Definition NORMAL_GLOBAL_HISTORY_MASK : Z := Z.shiftl 1 NORMAL_GLOBAL_HISTORY_WIDTH - 1.

(** * State *)

Record bp_sync_request := mk_bp_req {
  bq_pc : Z;
  bq_instruction : Z;
  bq_jump : bool;
  bq_next_pc : Z;
  bq_hit : bool
}.

Record branch_predictor := mk_bp {
  gshare_global_history : Z;
  gshare_global_history_retired : Z;
  gshare_pht : list Z;
  local_bht : list Z;
  local_bht_retired : list Z;
  local_pht : list Z;
  cpht : list Z;
  main_ras : ras;
  call_global_history : Z;
  call_target_cache : list Z;
  normal_global_history : Z;
  normal_target_cache : list Z;
  bp_sync_request_q : list bp_sync_request;
  s_state : Z
}.

#[export] Instance branch_predictor_eta : Eta branch_predictor := fun r =>
  mk_bp (gshare_global_history r) (gshare_global_history_retired r) (gshare_pht r) (local_bht r)
    (local_bht_retired r) (local_pht r) (cpht r) (main_ras r) (call_global_history r) (call_target_cache r)
    (normal_global_history r) (normal_target_cache r) (bp_sync_request_q r) (s_state r).

(** [memset(a, 0, sizeof(a))] for an array of [n] elements. *)
Definition zeros (n : Z) : list Z := repeat 0 (Z.to_nat n).

(** [retired]: the array [local_bht_retired], which neither the constructor
    nor [reset] touches; [ras_mem]: the memory of the return address stack. *)
Definition bp_new (retired : list Z) (ras_mem : list ras_item_t) : branch_predictor :=
  mk_bp 0 0 (zeros GSHARE_PHT_SIZE) (zeros LOCAL_BHT_SIZE) retired (zeros LOCAL_PHT_SIZE) (zeros GSHARE_PHT_SIZE)
    (ras_new ras_mem RAS_SIZE) 0 (zeros CALL_TARGET_CACHE_SIZE) 0 (zeros NORMAL_TARGET_CACHE_SIZE) [] 0.

Definition bp_reset (p : branch_predictor) : branch_predictor :=
  p <| gshare_global_history := 0 |> <| gshare_global_history_retired := 0 |>
    <| gshare_pht := zeros GSHARE_PHT_SIZE |> <| local_bht := zeros LOCAL_BHT_SIZE |>
    <| local_pht := zeros LOCAL_PHT_SIZE |> <| cpht := zeros GSHARE_PHT_SIZE |>
    <| call_global_history := 0 |> <| call_target_cache := zeros CALL_TARGET_CACHE_SIZE |>
    <| normal_global_history := 0 |> <| normal_target_cache := zeros NORMAL_TARGET_CACHE_SIZE |>
    <| bp_sync_request_q := [] |> <| main_ras ::= ras_reset |>.

(** * Pieces *)

(** [((history << 1) & mask) | (jump ? 1 : 0)] *)
Definition history_shift (mask history : Z) (jump : bool) : Z :=
  Z.lor (Z.land (shl32 history 1) mask) (bit_of jump).

(** [(pc >> (2 + width)) & mask] *)
Definition pc_part (p2_width mask pc : Z) : Z := Z.land (shr32 pc (2 + p2_width)) mask.

Definition gshare_pc_p1 (pc : Z) : Z := pc_part GSHARE_PC_P2_ADDR_WIDTH GSHARE_PC_P1_ADDR_MASK pc.
Definition local_pc_p1 (pc : Z) : Z := pc_part LOCAL_PC_P2_ADDR_WIDTH LOCAL_PC_P1_ADDR_MASK pc.
Definition call_pc_p1 (pc : Z) : Z := pc_part CALL_PC_P2_ADDR_WIDTH CALL_PC_P1_ADDR_MASK pc.
Definition normal_pc_p1 (pc : Z) : Z := pc_part NORMAL_PC_P2_ADDR_WIDTH NORMAL_PC_P1_ADDR_MASK pc.

(** The two-bit counter at an index, up on a jump and down otherwise. *)
Definition pht_update (pht : list Z) (pht_addr : Z) (jump : bool) : option (list Z) :=
  v ← arr_get pht pht_addr;
  if jump then if v <? 3 then arr_set pht pht_addr (u32 (v + 1)) else Some pht
  else if 0 <? v then arr_set pht pht_addr (u32 (v - 1)) else Some pht.

(** ** gshare *)

Definition gshare_global_history_update (p : branch_predictor) (jump hit : bool) : branch_predictor :=
  let p := p <| gshare_global_history_retired ::= fun h => history_shift GSHARE_GLOBAL_HISTORY_MASK h jump |> in
  if negb hit then p <| gshare_global_history := gshare_global_history_retired p |> else p.

Definition gshare_global_history_update_bru_fix (p : branch_predictor) (cp : checkpoint_t) (jump hit : bool)
    : branch_predictor :=
  let gshare_global_history_bru := history_shift GSHARE_GLOBAL_HISTORY_MASK (cp_global_history cp) jump in
  if negb hit then p <| gshare_global_history := gshare_global_history_bru |> else p.

Definition gshare_global_history_update_guess (p : branch_predictor) (jump : bool) : branch_predictor :=
  p <| gshare_global_history ::= fun h => history_shift GSHARE_GLOBAL_HISTORY_MASK h jump |>.

Definition gshare_get_prediction (p : branch_predictor) (pc : Z) : option bool :=
  v ← arr_get (gshare_pht p) (Z.lxor (gshare_global_history p) (gshare_pc_p1 pc));
  Some (2 <=? v).

Definition gshare_update_prediction (p : branch_predictor) (pc : Z) (jump hit : bool) : option branch_predictor :=
  let pht_addr := Z.lxor (gshare_global_history_retired p) (gshare_pc_p1 pc) in
  pht ← pht_update (gshare_pht p) pht_addr jump;
  Some (gshare_global_history_update (p <| gshare_pht := pht |>) jump hit).

(** ** local *)

Definition local_update_prediction (p : branch_predictor) (pc : Z) (jump hit : bool) : option branch_predictor :=
  let pc_p1 := local_pc_p1 pc in
  bht_value ← arr_get (local_bht_retired p) pc_p1;
  let pht_addr := Z.lxor bht_value pc_p1 in
  bht ← arr_set (local_bht_retired p) pc_p1 (history_shift LOCAL_BHT_WIDTH_MASK bht_value jump);
  let p := p <| local_bht_retired := bht |> in
  pht ← pht_update (local_pht p) pht_addr jump;
  let p := p <| local_pht := pht |> in
  if negb hit then
    v ← arr_get (local_bht_retired p) pc_p1;
    bht ← arr_set (local_bht p) pc_p1 v;
    Some (p <| local_bht := bht |>)
  else Some p.

Definition local_get_bht_value (p : branch_predictor) (pc : Z) : option Z := arr_get (local_bht p) (local_pc_p1 pc).

Definition local_update_prediction_bru_fix (p : branch_predictor) (cp : checkpoint_t) (pc : Z) (jump hit : bool)
    : option branch_predictor :=
  let local_history_bru := history_shift LOCAL_BHT_WIDTH_MASK (cp_local_history cp) jump in
  if negb hit then
    bht ← arr_set (local_bht p) (local_pc_p1 pc) local_history_bru; Some (p <| local_bht := bht |>)
  else Some p.

Definition local_update_prediction_guess (p : branch_predictor) (pc : Z) (jump : bool) : option branch_predictor :=
  v ← arr_get (local_bht p) (local_pc_p1 pc);
  bht ← arr_set (local_bht p) (local_pc_p1 pc) (history_shift LOCAL_BHT_WIDTH_MASK v jump);
  Some (p <| local_bht := bht |>).

Definition local_get_prediction (p : branch_predictor) (pc : Z) : option bool :=
  bht_value ← arr_get (local_bht p) (local_pc_p1 pc);
  v ← arr_get (local_pht p) (Z.lxor bht_value (local_pc_p1 pc));
  Some (2 <=? v).

(** ** The chooser *)

Definition cpht_update_prediction (p : branch_predictor) (pc : Z) (hit : bool) : option branch_predictor :=
  let cpht_addr := Z.lxor (gshare_global_history p) (gshare_pc_p1 pc) in
  v ← arr_get (cpht p) cpht_addr;
  table ← (if v <=? 1 then
             if hit && (0 <? v) then arr_set (cpht p) cpht_addr (u32 (v - 1))
             else if negb hit then arr_set (cpht p) cpht_addr (u32 (v + 1))
             else Some (cpht p)
           else
             if hit && (v <? 3) then arr_set (cpht p) cpht_addr (u32 (v + 1))
             else if negb hit then arr_set (cpht p) cpht_addr (u32 (v - 1))
             else Some (cpht p));
  Some (p <| cpht := table |>).

Definition cpht_get_prediction (p : branch_predictor) (pc : Z) : option bool :=
  v ← arr_get (cpht p) (Z.lxor (gshare_global_history p) (gshare_pc_p1 pc)); Some (v <=? 1).

(** ** Targets of indirect calls and jumps *)

Definition call_global_history_update (p : branch_predictor) (jump : bool) : branch_predictor :=
  p <| call_global_history ::= fun h => history_shift CALL_GLOBAL_HISTORY_MASK h jump |>.

Definition call_update_prediction (p : branch_predictor) (pc : Z) (jump : bool) (target : Z)
    : option branch_predictor :=
  cache ← arr_set (call_target_cache p) (Z.lxor (call_global_history p) (call_pc_p1 pc)) target;
  Some (call_global_history_update (p <| call_target_cache := cache |>) jump).

Definition call_get_prediction (p : branch_predictor) (pc : Z) : option Z :=
  arr_get (call_target_cache p) (Z.lxor (call_global_history p) (call_pc_p1 pc)).

Definition normal_global_history_update (p : branch_predictor) (jump : bool) : branch_predictor :=
  p <| normal_global_history ::= fun h => history_shift NORMAL_GLOBAL_HISTORY_MASK h jump |>.

Definition normal_update_prediction (p : branch_predictor) (pc : Z) (jump : bool) (target : Z)
    : option branch_predictor :=
  cache ← arr_set (normal_target_cache p) (Z.lxor (normal_global_history p) (normal_pc_p1 pc)) target;
  Some (normal_global_history_update (p <| normal_target_cache := cache |>) jump).

Definition normal_get_prediction (p : branch_predictor) (pc : Z) : option Z :=
  arr_get (normal_target_cache p) (Z.lxor (normal_global_history p) (normal_pc_p1 pc)).

(** ** Interface *)

Definition bp_save (p : branch_predictor) (cp : checkpoint_t) (pc : Z) : option checkpoint_t :=
  h ← local_get_bht_value p pc;
  Some (cp <| cp_global_history := gshare_global_history p |> <| cp_local_history := h |>).

(** The single-counter predictor, which nothing calls. *)
Definition s_update_prediction (p : branch_predictor) (jump : bool) : branch_predictor :=
  if jump then if s_state p <? 3 then p <| s_state ::= fun s => u32 (s + 1) |> else p
  else if 0 <? s_state p then p <| s_state ::= fun s => u32 (s - 1) |> else p.

Definition s_get_prediction (p : branch_predictor) : bool := true.

Definition is_link (r : Z) : bool := (r =? 1) || (r =? 5).

(** [main_ras.push_addr(pc + 4)] *)
Definition bp_push_return (p : branch_predictor) (pc : Z) : option branch_predictor :=
  '(_, r) ← ras_push_addr (main_ras p) (u32 (pc + 4)); Some (p <| main_ras := r |>).

(** [main_ras.pop_addr()] *)
Definition bp_pop_return (p : branch_predictor) : option (Z * branch_predictor) :=
  '(a, r) ← ras_pop_addr (main_ras p); Some (a, p <| main_ras := r |>).

(** Case [0x67]. *)
Definition get_prediction_jalr (p : branch_predictor) (pc : Z) (x : op_fields) : option (Z * branch_predictor) :=
  if is_link (rd x) then
    if is_link (rs1 x) then
      if rs1 x =? rd x then
        next_pc ← call_get_prediction p pc; p ← bp_push_return p pc; Some (next_pc, p)
      else
        '(next_pc, p) ← bp_pop_return p; p ← bp_push_return p pc; Some (next_pc, p)
    else
      next_pc ← call_get_prediction p pc; p ← bp_push_return p pc; Some (next_pc, p)
  else
    if is_link (rs1 x) then bp_pop_return p
    else next_pc ← normal_get_prediction p pc; Some (next_pc, p).

(** The prediction [(jump, next_pc)], or [None] when the function returns
    [false] and leaves the two untouched. *)
Definition get_prediction (p : branch_predictor) (pc instruction : Z)
    : option (option (bool * Z) * branch_predictor) :=
  let x := get_fields instruction in
  if opcode x =? 0x6f then
    off ← sign_extend (imm_j x) 21;
    p ← (if is_link (rd x) then bp_push_return p pc else Some p);
    Some (Some (true, u32 (pc + off)), p)
  else if opcode x =? 0x67 then
    '(next_pc, p) ← get_prediction_jalr p pc x; Some (Some (true, next_pc), p)
  else if opcode x =? 0x63 then
    g ← cpht_get_prediction p pc;
    taken ← (if negb g then local_get_prediction p pc else gshare_get_prediction p pc);
    off ← sign_extend (imm_b x) 13;
    let next_pc := if taken : bool then u32 (pc + off) else u32 (pc + 4) in
    if (funct3 x =? 0x0) || (funct3 x =? 0x1) || (funct3 x =? 0x4) || (funct3 x =? 0x5) || (funct3 x =? 0x6) ||
       (funct3 x =? 0x7)
    then Some (Some (taken, next_pc), p)
    else Some (None, p)
  else Some (None, p).

Definition update_prediction_guess (p : branch_predictor) (pc instruction : Z) (jump : bool) (next_pc : Z)
    : option branch_predictor :=
  if Z.land instruction 0x7f =? 0x63 then
    local_update_prediction_guess (gshare_global_history_update_guess p jump) pc jump
  else Some p.

Definition update_prediction_bru_guess (p : branch_predictor) (cp : checkpoint_t) (pc instruction : Z) (jump : bool)
    (next_pc : Z) (hit : bool) : option branch_predictor :=
  if Z.land instruction 0x7f =? 0x63 then
    local_update_prediction_bru_fix (gshare_global_history_update_bru_fix p cp jump hit) cp pc jump hit
  else Some p.

Definition update_prediction (p : branch_predictor) (pc instruction : Z) (jump : bool) (next_pc : Z) (hit : bool)
    : option branch_predictor :=
  let opcode := Z.land instruction 0x7f in
  let rd := Z.land (shr32 instruction 7) 0x1f in
  let rs1 := Z.land (shr32 instruction 15) 0x1f in
  if opcode =? 0x63 then
    p ← gshare_update_prediction p pc jump hit;
    p ← local_update_prediction p pc jump hit;
    cpht_update_prediction p pc hit
  else if opcode =? 0x67 then
    if is_link rd then
      if is_link rs1 then
        if rs1 =? rd then call_update_prediction p pc jump next_pc else Some p
      else call_update_prediction p pc jump next_pc
    else if is_link rs1 then Some p
    else normal_update_prediction p pc jump next_pc
  else Some p.

Definition update_prediction_sync (p : branch_predictor) (pc instruction : Z) (jump : bool) (next_pc : Z) (hit : bool)
    : branch_predictor :=
  p <| bp_sync_request_q ::= fun q => q ++ [mk_bp_req pc instruction jump next_pc hit] |>.

Fixpoint bp_sync_loop (p : branch_predictor) (reqs : list bp_sync_request) : option branch_predictor :=
  match reqs with
  | [] => Some p
  | t_req :: reqs =>
      p ← update_prediction (p <| bp_sync_request_q := reqs |>) (bq_pc t_req) (bq_instruction t_req) (bq_jump t_req)
            (bq_next_pc t_req) (bq_hit t_req);
      bp_sync_loop p reqs
  end.

Definition bp_sync (p : branch_predictor) : option branch_predictor := bp_sync_loop p (bp_sync_request_q p).

(** * Well-formedness *)

(** A table of [2^12] entries below [n]. *)
Definition table_ok (n : Z) (l : list Z) : Prop :=
  length l = Z.to_nat (2 ^ 12) /\ Forall (fun v => 0 <= v < n) l.

Definition history_ok (h : Z) : Prop := 0 <= h < 2 ^ 12.

(** Histories have twelve bits, counters two, and the tables as many entries
    as twelve bits can index; a deferred update has an address as its target. *)
Record bp_ok (p : branch_predictor) : Prop := {
  ok_gshare_history : history_ok (gshare_global_history p);
  ok_gshare_history_retired : history_ok (gshare_global_history_retired p);
  ok_gshare_pht : table_ok 4 (gshare_pht p);
  ok_local_bht : table_ok (2 ^ 12) (local_bht p);
  ok_local_bht_retired : table_ok (2 ^ 12) (local_bht_retired p);
  ok_local_pht : table_ok 4 (local_pht p);
  ok_cpht : table_ok 4 (cpht p);
  ok_ras : ras_wf (main_ras p);
  ok_call_history : history_ok (call_global_history p);
  ok_call_cache : table_ok (2 ^ 32) (call_target_cache p);
  ok_normal_history : history_ok (normal_global_history p);
  ok_normal_cache : table_ok (2 ^ 32) (normal_target_cache p);
  ok_queue : Forall (fun r => is_u32 (bq_next_pc r)) (bp_sync_request_q p)
}.

Lemma table_get n l i : table_ok n l -> history_ok i -> exists v, arr_get l i = Some v /\ 0 <= v < n.
Proof.
  intros [Hl Hf] Hi. unfold history_ok in Hi. destruct (arr_get_in_range l i) as [v Hv]; [rewrite Hl; lia|].
  exists v. split; [done|]. apply arr_get_Some in Hv as [_ Hv]. by apply (Forall_lookup_1 _ _ _ _ Hf Hv).
Qed.

Lemma table_set n l i v :
  table_ok n l -> history_ok i -> 0 <= v < n ->
  exists l', arr_set l i v = Some l' /\ table_ok n l' /\ arr_get l' i = Some v /\
    (forall j, j <> i -> arr_get l' j = arr_get l j).
Proof.
  intros [Hl Hf] Hi Hv. unfold history_ok in Hi.
  assert (arr_set l i v = Some (<[Z.to_nat i := v]> l)) as E by (apply arr_set_eq; rewrite Hl; lia).
  exists (<[Z.to_nat i := v]> l). split_and!; [done| | |].
  - split; [by rewrite length_insert|]. by apply Forall_insert.
  - by apply (arr_get_set_eq l).
  - intros j Hj. by apply (arr_get_set_ne l _ i j v).
Qed.

Lemma zeros_ok n k : k = 2 ^ 12 -> 0 < n -> table_ok n (zeros k).
Proof.
  intros -> Hn. unfold table_ok, zeros. rewrite repeat_length. split; [done|].
  apply list.Forall_forall. intros v Hv. apply list_elem_of_In, repeat_spec in Hv. lia.
Qed.

Lemma history_shift_mod mask h j :
  mask = 2 ^ 12 - 1 -> history_ok h -> history_shift mask h j = (2 * h + bit_of j) mod 2 ^ 12.
Proof.
  intros -> Hh. unfold history_ok in Hh. unfold history_shift, shl32. rewrite Z.shiftl_mul_pow2 by lia.
  rewrite u32_small, land_low by lia. change (2 ^ 1) with 2. rewrite (Z.mul_comm h 2).
  change (2 ^ 12) with (2 * 2 ^ 11). rewrite Z.mul_mod_distr_l by lia.
  assert (2 * (h mod 2 ^ 11) = Z.shiftl (h mod 2 ^ 11) 1) as -> by (rewrite Z.shiftl_mul_pow2; lia).
  rewrite Z.lor_comm, lor_shiftl_add by (destruct j; simpl; lia).
  symmetry. destruct j; cbn [bit_of]; Z.div_mod_to_equations; lia.
Qed.

Lemma history_shift_ok mask h j : mask = 2 ^ 12 - 1 -> history_ok h -> history_ok (history_shift mask h j).
Proof. intros Hm Hh. rewrite history_shift_mod by done. apply Z.mod_pos_bound. lia. Qed.

Lemma pc_part_ok w mask pc : mask = 2 ^ 12 - 1 -> history_ok (pc_part w mask pc).
Proof. intros ->. unfold pc_part, history_ok. rewrite land_low by lia. apply Z.mod_pos_bound. lia. Qed.

Lemma index_ok h k : history_ok h -> history_ok k -> history_ok (Z.lxor h k).
Proof. unfold history_ok. intros. by apply lxor_range. Qed.

Create HintDb bp.
#[export] Hint Resolve index_ok : bp.
#[export] Hint Extern 1 (history_ok (history_shift _ _ _)) => apply history_shift_ok; [reflexivity|] : bp.
#[export] Hint Extern 1 (history_ok (gshare_pc_p1 _)) => apply pc_part_ok; reflexivity : bp.
#[export] Hint Extern 1 (history_ok (local_pc_p1 _)) => apply pc_part_ok; reflexivity : bp.
#[export] Hint Extern 1 (history_ok (call_pc_p1 _)) => apply pc_part_ok; reflexivity : bp.
#[export] Hint Extern 1 (history_ok (normal_pc_p1 _)) => apply pc_part_ok; reflexivity : bp.

(** Breaks a well-formed predictor up, and puts the parts together again. *)
Ltac bp_open H := destruct H as [? ? ? ? ? ? ? ? ? ? ? ? ?].
Ltac bp_close := split; cbn; auto with bp.

Lemma pht_update_ok pht i j : table_ok 4 pht -> history_ok i -> exists pht', pht_update pht i j = Some pht' /\ table_ok 4 pht'.
Proof.
  intros Hp Hi. unfold pht_update. destruct (table_get 4 pht i Hp Hi) as (v & -> & Hv). cbn [mbind option_bind].
  destruct j; bcase; try by exists pht.
  - rewrite u32_small by lia. destruct (table_set 4 pht i (v + 1) Hp Hi) as (l & ? & ? & _); [lia|]. by exists l.
  - rewrite u32_small by lia. destruct (table_set 4 pht i (v - 1) Hp Hi) as (l & ? & ? & _); [lia|]. by exists l.
Qed.

(** * Every operation is total and keeps the predictor well formed *)

Section operations.
Context (p : branch_predictor) (Hp : bp_ok p).

Lemma gshare_update_ok pc j hit : exists p', gshare_update_prediction p pc j hit = Some p' /\ bp_ok p'.
Proof.
  bp_open Hp. unfold gshare_update_prediction.
  destruct (pht_update_ok (gshare_pht p) (Z.lxor (gshare_global_history_retired p) (gshare_pc_p1 pc)) j)
    as (t & -> & ?); [done|auto with bp|]. cbn [mbind option_bind]. eexists. split; [reflexivity|].
  unfold gshare_global_history_update. destruct hit; bp_close.
Qed.

Lemma local_update_ok pc j hit : exists p', local_update_prediction p pc j hit = Some p' /\ bp_ok p'.
Proof.
  bp_open Hp. unfold local_update_prediction. assert (history_ok (local_pc_p1 pc)) as Hi by auto with bp.
  destruct (table_get (2 ^ 12) (local_bht_retired p) _ ltac:(done) Hi) as (v & -> & Hv). cbn [mbind option_bind].
  assert (history_ok (history_shift LOCAL_BHT_WIDTH_MASK v j)) as Hs by auto with bp.
  destruct (table_set (2 ^ 12) (local_bht_retired p) (local_pc_p1 pc) (history_shift LOCAL_BHT_WIDTH_MASK v j))
    as (t & -> & Ht & Hg & _); [done..|]. cbn [mbind option_bind]. cbn [local_pht local_bht local_bht_retired upd].
  destruct (pht_update_ok (local_pht p) (Z.lxor v (local_pc_p1 pc)) j) as (t2 & -> & ?); [done|auto with bp|].
  cbn [mbind option_bind]. destruct hit; cbn [negb]; [eexists; split; [reflexivity|]; bp_close|].
  cbn [local_pht local_bht local_bht_retired upd]. rewrite Hg. cbn [mbind option_bind].
  destruct (table_set (2 ^ 12) (local_bht p) (local_pc_p1 pc) (history_shift LOCAL_BHT_WIDTH_MASK v j))
    as (t3 & -> & ? & _); [done..|]. cbn [mbind option_bind]. eexists. split; [reflexivity|]. bp_close.
Qed.

Lemma cpht_update_ok pc hit : exists p', cpht_update_prediction p pc hit = Some p' /\ bp_ok p'.
Proof.
  bp_open Hp. unfold cpht_update_prediction.
  assert (history_ok (Z.lxor (gshare_global_history p) (gshare_pc_p1 pc))) as Hi by auto with bp.
  set (i := Z.lxor _ _) in *.
  destruct (table_get 4 (cpht p) i ltac:(done) Hi) as (v & -> & Hv). cbn [mbind option_bind].
  assert (forall w, 0 <= w < 4 -> exists t, arr_set (cpht p) i (u32 w) = Some t /\ table_ok 4 t) as Hset.
  { intros w Hw. rewrite u32_small by lia. destruct (table_set 4 (cpht p) i w) as (t & ? & ? & _); [done..|].
    by exists t. }
  destruct (Z.leb_spec v 1), hit; cbn [andb negb]; try destruct (Z.ltb_spec 0 v); try destruct (Z.ltb_spec v 3);
    try (edestruct Hset as (t & -> & ?); [|cbn [mbind option_bind]; eexists; split; [reflexivity|]; bp_close]; lia);
    cbn [mbind option_bind]; eexists; (split; [reflexivity|]); bp_close.
Qed.

Lemma call_update_ok pc j target :
  is_u32 target -> exists p', call_update_prediction p pc j target = Some p' /\ bp_ok p'.
Proof.
  intros Ht. bp_open Hp. unfold call_update_prediction.
  destruct (table_set (2 ^ 32) (call_target_cache p) (Z.lxor (call_global_history p) (call_pc_p1 pc)) target)
    as (t & -> & ? & _); [done|auto with bp|done|]. cbn [mbind option_bind]. eexists. split; [reflexivity|]. bp_close.
Qed.

Lemma normal_update_ok pc j target :
  is_u32 target -> exists p', normal_update_prediction p pc j target = Some p' /\ bp_ok p'.
Proof.
  intros Ht. bp_open Hp. unfold normal_update_prediction.
  destruct (table_set (2 ^ 32) (normal_target_cache p) (Z.lxor (normal_global_history p) (normal_pc_p1 pc)) target)
    as (t & -> & ? & _); [done|auto with bp|done|]. cbn [mbind option_bind]. eexists. split; [reflexivity|]. bp_close.
Qed.

Lemma guess_ok pc i j next :
  exists p', update_prediction_guess p pc i j next = Some p' /\ bp_ok p'.
Proof.
  unfold update_prediction_guess. case_match; [|by exists p]. bp_open Hp. unfold local_update_prediction_guess.
  cbn [local_bht gshare_global_history_update_guess upd].
  assert (history_ok (local_pc_p1 pc)) as Hi by auto with bp.
  destruct (table_get (2 ^ 12) (local_bht p) _ ltac:(done) Hi) as (v & -> & Hv). cbn [mbind option_bind].
  assert (history_ok (history_shift LOCAL_BHT_WIDTH_MASK v j)) as Hs by auto with bp.
  destruct (table_set (2 ^ 12) (local_bht p) (local_pc_p1 pc) (history_shift LOCAL_BHT_WIDTH_MASK v j))
    as (t & -> & ? & _); [done..|]. cbn [mbind option_bind]. eexists. split; [reflexivity|]. bp_close.
Qed.

Lemma bru_guess_ok cp pc i j next hit :
  history_ok (cp_global_history cp) -> history_ok (cp_local_history cp) ->
  exists p', update_prediction_bru_guess p cp pc i j next hit = Some p' /\ bp_ok p'.
Proof.
  intros Hg Hl. unfold update_prediction_bru_guess. case_match; [|by exists p]. bp_open Hp.
  unfold local_update_prediction_bru_fix, gshare_global_history_update_bru_fix.
  destruct hit; cbn [negb]; [eexists; split; [reflexivity|]; bp_close|].
  cbn [local_bht upd].
  destruct (table_set (2 ^ 12) (local_bht p) (local_pc_p1 pc) (history_shift LOCAL_BHT_WIDTH_MASK (cp_local_history cp) j))
    as (t & -> & ? & _); [done|auto with bp..|]. { change (history_ok (history_shift LOCAL_BHT_WIDTH_MASK (cp_local_history cp) j)). auto with bp. }
  cbn [mbind option_bind]. eexists. split; [reflexivity|]. bp_close.
Qed.

Lemma save_ok cp pc :
  exists cp', bp_save p cp pc = Some cp' /\ history_ok (cp_global_history cp') /\ history_ok (cp_local_history cp').
Proof.
  bp_open Hp. unfold bp_save, local_get_bht_value.
  destruct (table_get (2 ^ 12) (local_bht p) (local_pc_p1 pc)) as (v & -> & Hv); [done|auto with bp|].
  cbn [mbind option_bind]. by eexists.
Qed.

Lemma push_return_ok pc : exists p', bp_push_return p pc = Some p' /\ bp_ok p'.
Proof.
  bp_open Hp. unfold bp_push_return. destruct (ras_push_addr_items (main_ras p) (u32 (pc + 4))) as (r & -> & _ & _ & _ & Hw); [done|].
  destruct (items_push _ _ _). cbn [mbind option_bind fst]. eexists. split; [reflexivity|]. bp_close.
Qed.

Lemma pop_return_ok : exists a p', bp_pop_return p = Some (a, p') /\ bp_ok p'.
Proof.
  bp_open Hp. unfold bp_pop_return. destruct (ras_pop_addr_items (main_ras p)) as (r & -> & _ & _ & _ & Hw); [done|].
  cbn [mbind option_bind]. eexists _, _. split; [reflexivity|]. bp_close.
Qed.

End operations.

Lemma update_ok p pc i j next hit :
  bp_ok p -> is_u32 next -> exists p', update_prediction p pc i j next hit = Some p' /\ bp_ok p'.
Proof.
  intros Hp Hn. unfold update_prediction. destruct (Z.land i 0x7f =? 0x63).
  - destruct (gshare_update_ok p Hp pc j hit) as (p1 & -> & H1). cbn [mbind option_bind].
    destruct (local_update_ok p1 H1 pc j hit) as (p2 & -> & H2). cbn [mbind option_bind]. by apply cpht_update_ok.
  - repeat case_match; try (by exists p); by (apply call_update_ok || apply normal_update_ok).
Qed.

Lemma direction_ok p pc :
  bp_ok p -> exists g t, cpht_get_prediction p pc = Some g /\
    (if negb g then local_get_prediction p pc else gshare_get_prediction p pc) = Some t.
Proof.
  intros Hp. bp_open Hp. unfold cpht_get_prediction, local_get_prediction, gshare_get_prediction.
  destruct (table_get 4 (cpht p) (Z.lxor (gshare_global_history p) (gshare_pc_p1 pc))) as (v & -> & Hv);
    [done|auto with bp|]. cbn [mbind option_bind].
  destruct (table_get 4 (gshare_pht p) (Z.lxor (gshare_global_history p) (gshare_pc_p1 pc))) as (w & -> & Hw);
    [done|auto with bp|]. cbn [mbind option_bind].
  destruct (table_get (2 ^ 12) (local_bht p) (local_pc_p1 pc)) as (h & -> & Hh); [done|auto with bp|].
  cbn [mbind option_bind].
  destruct (table_get 4 (local_pht p) (Z.lxor h (local_pc_p1 pc))) as (c & -> & Hc); [done|auto with bp|].
  cbn [mbind option_bind]. exists (v <=? 1). destruct (v <=? 1); cbn [negb]; by eexists.
Qed.

Lemma jalr_ok p pc x : bp_ok p -> exists a p', get_prediction_jalr p pc x = Some (a, p') /\ bp_ok p'.
Proof.
  intros Hp. pose proof Hp as Hp'. bp_open Hp'. unfold get_prediction_jalr, call_get_prediction, normal_get_prediction.
  destruct (table_get (2 ^ 32) (call_target_cache p) (Z.lxor (call_global_history p) (call_pc_p1 pc)))
    as (c & -> & Hc); [done|auto with bp|].
  destruct (table_get (2 ^ 32) (normal_target_cache p) (Z.lxor (normal_global_history p) (normal_pc_p1 pc)))
    as (n & -> & Hn); [done|auto with bp|]. cbn [mbind option_bind].
  destruct (push_return_ok p Hp pc) as (p1 & E1 & H1). destruct (pop_return_ok p Hp) as (a & p2 & E2 & H2).
  destruct (push_return_ok p2 H2 pc) as (p3 & E3 & H3).
  repeat case_match; rewrite ?E1, ?E2; cbn [mbind option_bind]; rewrite ?E3; cbn [mbind option_bind]; eauto.
Qed.

Lemma prediction_ok p pc i : bp_ok p -> exists r p', get_prediction p pc i = Some (r, p') /\ bp_ok p'.
Proof.
  intros Hp. unfold get_prediction.
  destruct (sign_extend_total (imm_j (get_fields i)) 21) as [oj ->]; [lia|].
  destruct (sign_extend_total (imm_b (get_fields i)) 13) as [ob ->]; [lia|].
  destruct (opcode (get_fields i) =? 0x6f).
  { cbn [mbind option_bind]. destruct (push_return_ok p Hp pc) as (p1 & E1 & H1).
    destruct (is_link _); rewrite ?E1; cbn [mbind option_bind]; by eexists _, _. }
  destruct (opcode (get_fields i) =? 0x67).
  { destruct (jalr_ok p pc (get_fields i) Hp) as (a & p1 & -> & H1). cbn [mbind option_bind]. eauto. }
  destruct (opcode (get_fields i) =? 0x63); [|by eauto].
  destruct (direction_ok p pc Hp) as (g & t & -> & Ht). cbn [mbind option_bind]. rewrite Ht. cbn [mbind option_bind].
  destruct (_ || _); by eexists _, _.
Qed.

(** The calls of fetch, the branch unit and commit. *)
Inductive bp_op :=
| BpPredict (pc instruction : Z)
| BpGuess (pc instruction : Z) (jump : bool) (next_pc : Z)
| BpFix (cp : checkpoint_t) (pc instruction : Z) (jump : bool) (next_pc : Z) (hit : bool)
| BpUpdate (pc instruction : Z) (jump : bool) (next_pc : Z) (hit : bool)
| BpUpdateSync (pc instruction : Z) (jump : bool) (next_pc : Z) (hit : bool)
| BpSync
| BpReset.

Definition bp_step (p : branch_predictor) (op : bp_op) : option branch_predictor :=
  match op with
  | BpPredict pc i => '(_, p) ← get_prediction p pc i; Some p
  | BpGuess pc i j next => update_prediction_guess p pc i j next
  | BpFix cp pc i j next hit => update_prediction_bru_guess p cp pc i j next hit
  | BpUpdate pc i j next hit => update_prediction p pc i j next hit
  | BpUpdateSync pc i j next hit => Some (update_prediction_sync p pc i j next hit)
  | BpSync => bp_sync p
  | BpReset => Some (bp_reset p)
  end.

Fixpoint bp_run (p : branch_predictor) (ops : list bp_op) : option branch_predictor :=
  match ops with
  | [] => Some p
  | op :: ops => p ← bp_step p op; bp_run p ops
  end.

(** Targets are addresses, and checkpoints were taken from a predictor. *)
Definition bp_op_ok (op : bp_op) : Prop :=
  match op with
  | BpFix cp _ _ _ next _ => history_ok (cp_global_history cp) /\ history_ok (cp_local_history cp) /\ is_u32 next
  | BpGuess _ _ _ next | BpUpdate _ _ _ next _ | BpUpdateSync _ _ _ next _ => is_u32 next
  | _ => True
  end.

Lemma sync_ok reqs p :
  bp_ok p -> Forall (fun r => is_u32 (bq_next_pc r)) reqs -> exists p', bp_sync_loop p reqs = Some p' /\ bp_ok p'.
Proof.
  revert p. induction reqs as [|r reqs IH]; intros p Hp Hr; [by exists p|].
  apply Forall_cons_iff in Hr as [Hn Hr]. cbn [bp_sync_loop].
  assert (bp_ok (p <| bp_sync_request_q := reqs |>)) as Hp' by (bp_open Hp; bp_close).
  destruct (update_ok _ (bq_pc r) (bq_instruction r) (bq_jump r) (bq_next_pc r) (bq_hit r) Hp' Hn) as (p1 & -> & H1).
  cbn [mbind option_bind]. by apply IH.
Qed.

Lemma ras_reset_wf r : ras_wf r -> ras_wf (ras_reset r).
Proof. intros (H1 & H2 & H3 & H4). unfold ras_wf, ras_items. cbn. split_and!; try done; lia. Qed.

Lemma reset_ok p : bp_ok p -> bp_ok (bp_reset p).
Proof.
  intros Hp. bp_open Hp. split; cbn [bp_reset gshare_global_history gshare_global_history_retired gshare_pht local_bht
    local_bht_retired local_pht cpht main_ras call_global_history call_target_cache normal_global_history
    normal_target_cache bp_sync_request_q upd]; try done; try by apply zeros_ok. by apply ras_reset_wf.
Qed.

Lemma step_ok p op : bp_ok p -> bp_op_ok op -> exists p', bp_step p op = Some p' /\ bp_ok p'.
Proof.
  intros Hp Ho. destruct op as [pc i|pc i j n|cp pc i j n h|pc i j n h|pc i j n h| |]; cbn [bp_step bp_op_ok] in *.
  - destruct (prediction_ok p pc i Hp) as (r & p' & -> & H). cbn [mbind option_bind]. by exists p'.
  - by apply guess_ok.
  - destruct Ho as (Hg & Hl & _). by apply bru_guess_ok.
  - by apply update_ok.
  - eexists. split; [reflexivity|]. bp_open Hp. bp_close. apply Forall_app_2; [done|]. by constructor.
  - apply sync_ok; [done|]. apply Hp.
  - eexists. split; [reflexivity|]. by apply reset_ok.
Qed.

Lemma run_ok ops p : bp_ok p -> Forall bp_op_ok ops -> exists p', bp_run p ops = Some p' /\ bp_ok p'.
Proof.
  revert p. induction ops as [|op ops IH]; intros p Hp Ho; [by exists p|].
  apply Forall_cons_iff in Ho as [Ho Hos]. cbn [bp_run].
  destruct (step_ok p op Hp Ho) as (p1 & -> & H1). cbn [mbind option_bind]. by apply IH.
Qed.

Lemma bp_new_ok retired mem :
  table_ok (2 ^ 12) retired -> Z.of_nat (length mem) = RAS_SIZE -> bp_ok (bp_new retired mem).
Proof.
  intros Hr Hm. unfold bp_new. split; cbn [gshare_global_history gshare_global_history_retired gshare_pht local_bht
    local_bht_retired local_pht cpht main_ras call_global_history call_target_cache normal_global_history
    normal_target_cache bp_sync_request_q]; try done; try by apply zeros_ok.
Qed.

(** C29: the predictor is safe.  Whatever sequence of predictions, speculative
    updates, repairs from checkpoints, commits and resets is applied to a new
    predictor, no table is indexed out of range, the return address stack
    never fails, every counter stays in 0..3 and every history within its
    twelve bits; this for any content of the table that the constructor
    leaves alone, as long as its entries are histories. *)
Theorem bp_run_safe retired mem ops :
  table_ok (2 ^ 12) retired -> Z.of_nat (length mem) = RAS_SIZE -> Forall bp_op_ok ops ->
  exists p, bp_run (bp_new retired mem) ops = Some p /\ bp_ok p.
Proof. intros Hr Hm Ho. apply run_ok; [by apply bp_new_ok|done]. Qed.

Definition bp_demo : branch_predictor := bp_new (zeros (2 ^ 12)) (repeat (mk_ras_item 0 0) 256).

Lemma bp_run_safe_witness :
  exists p, bp_run bp_demo [BpPredict 0x80000000 (encode (BRANCH BNE 5 0 (-8)));
                            BpGuess 0x80000000 (encode (BRANCH BNE 5 0 (-8))) true 0x7ffffff8;
                            BpUpdateSync 0x80000000 (encode (BRANCH BNE 5 0 (-8))) true 0x7ffffff8 true; BpSync] = Some p /\
    gshare_global_history p = 1 /\ gshare_global_history_retired p = 1.
Proof.
  destruct (bp_run_safe (zeros (2 ^ 12)) (repeat (mk_ras_item 0 0) 256)
    [BpPredict 0x80000000 (encode (BRANCH BNE 5 0 (-8)));
     BpGuess 0x80000000 (encode (BRANCH BNE 5 0 (-8))) true 0x7ffffff8;
     BpUpdateSync 0x80000000 (encode (BRANCH BNE 5 0 (-8))) true 0x7ffffff8 true; BpSync]) as (p & H & _).
  - apply zeros_ok; reflexivity.
  - reflexivity.
  - repeat apply Forall_cons_2; try apply Forall_nil_2; cbn; unfold is_u32; lia || exact I.
  - exists p. split; [exact H|].
    assert (gshare_global_history <$> Some p = Some 1) as H1 by (rewrite <- H; vm_compute; reflexivity).
    assert (gshare_global_history_retired <$> Some p = Some 1) as H2 by (rewrite <- H; vm_compute; reflexivity).
    split; [injection H1 as ->; reflexivity|injection H2 as ->; reflexivity].
Defined.

(** * Repairing the speculative histories *)

(** C28: a mispredicted branch repairs the histories.  Let a branch be predicted
    in state [p], where its checkpoint is taken, and let [q] be the predictor
    any number of later predictions and updates afterwards.  When the branch
    unit finds the prediction wrong, the global history and the branch's local
    history become exactly what they would have been if the actual outcome had
    been guessed in [p]; nothing else changes.  When the prediction was right
    nothing is touched. *)
Theorem bp_repair p q cp cp' pc i j next next' :
  bp_ok p -> bp_ok q -> Z.land i 0x7f = 0x63 -> bp_save p cp pc = Some cp' ->
  exists g q', update_prediction_guess p pc i j next' = Some g /\
    update_prediction_bru_guess q cp' pc i j next false = Some q' /\
    gshare_global_history q' = gshare_global_history g /\
    local_get_bht_value q' pc = local_get_bht_value g pc /\
    (forall pc', local_pc_p1 pc' <> local_pc_p1 pc -> local_get_bht_value q' pc' = local_get_bht_value q pc') /\
    q' = q <| gshare_global_history := gshare_global_history q' |> <| local_bht := local_bht q' |> /\
    update_prediction_bru_guess q cp' pc i j next true = Some q.
Proof.
  intros Hp Hq Hi Hs. unfold update_prediction_guess, update_prediction_bru_guess. rewrite Hi. cbn [Z.eqb Pos.eqb].
  unfold bp_save, local_get_bht_value, local_update_prediction_guess, local_update_prediction_bru_fix,
    gshare_global_history_update_bru_fix, gshare_global_history_update_guess in *.
  cbn [negb local_bht gshare_global_history upd]. assert (history_ok (local_pc_p1 pc)) as Hx by auto with bp.
  destruct (table_get (2 ^ 12) (local_bht p) (local_pc_p1 pc) (ok_local_bht p Hp) Hx) as (v & Ev & Hv).
  rewrite Ev in Hs |- *. cbn [mbind option_bind] in Hs |- *. injection Hs as <-.
  cbn [cp_local_history cp_global_history upd].
  assert (history_ok (history_shift LOCAL_BHT_WIDTH_MASK v j)) as Hh by auto with bp.
  destruct (table_set (2 ^ 12) (local_bht p) (local_pc_p1 pc) (history_shift LOCAL_BHT_WIDTH_MASK v j))
    as (t & -> & _ & Ht & _); [apply Hp|done..|].
  destruct (table_set (2 ^ 12) (local_bht q) (local_pc_p1 pc) (history_shift LOCAL_BHT_WIDTH_MASK v j))
    as (t2 & -> & _ & Ht2 & Hne); [apply Hq|done..|].
  cbn [mbind option_bind]. eexists _, _. split; [reflexivity|]. split; [reflexivity|].
  cbn [local_bht gshare_global_history upd]. split_and!; try done; [by rewrite Ht2|].
  intros pc' Hpc'. by apply Hne.
Qed.

Definition cp_demo : checkpoint_t := mk_checkpoint [] [] [] [] 0 0.

Lemma bp_repair_witness :
  exists cp g q', bp_save bp_demo cp_demo 0x80000000 = Some cp /\
    update_prediction_guess bp_demo 0x80000000 0x63 true 0 = Some g /\
    update_prediction_bru_guess g cp 0x80000000 0x63 false 0 false = Some q' /\
    gshare_global_history g = 1 /\ gshare_global_history q' = 0.
Proof.
  assert (bp_ok bp_demo) as Hok by (apply bp_new_ok; [apply zeros_ok; reflexivity|reflexivity]).
  destruct (save_ok bp_demo Hok cp_demo 0x80000000) as (cp & Hs & _).
  destruct (guess_ok bp_demo Hok 0x80000000 0x63 true 0) as (g & Hg & Hgok).
  destruct (bp_repair bp_demo g cp_demo cp 0x80000000 0x63 false 0 0 Hok Hgok eq_refl Hs)
    as (g' & q' & Hg' & Hq' & Hh & _).
  exists cp, g, q'. split_and!; [exact Hs|exact Hg|exact Hq'| |].
  - assert (gshare_global_history <$> Some g = Some 1) as H by (rewrite <- Hg; vm_compute; reflexivity).
    injection H as ->. reflexivity.
  - rewrite Hh. assert (gshare_global_history <$> Some g' = Some 0) as H by (rewrite <- Hg'; vm_compute; reflexivity).
    injection H as ->. reflexivity.
Defined.

(** * Predicted targets *)

Lemma opcode_encode i :
  instr_ok i ->
  opcode (get_fields (encode i)) =
    match i with
    | LUI _ _ => 0x37 | AUIPC _ _ => 0x17 | JAL _ _ => 0x6f | JALR _ _ _ => 0x67 | BRANCH _ _ _ _ => 0x63
    | LOAD _ _ _ _ => 0x03 | STORE _ _ _ _ => 0x23 | OPIMM _ _ _ _ | SHIFT _ _ _ _ => 0x13
    | OP _ _ _ _ | OPM _ _ _ _ => 0x33 | FENCE _ | FENCE_I => 0x0f | _ => 0x73
    end.
Proof.
  intros Hok. destruct i as [d imm|d imm|d off|d r1 off|op r1 r2 off|op d r1 off|op r1 r2 off|op d r1 imm
    |op d r1 sh|op d r1 r2|op d r1 r2|ps| | | | |op d r1 c|op d z c]; cbn [instr_ok encode] in *; destruct_and? Hok;
    try reflexivity.
  - opose proof* (fields_u imm d 0x37) as E; [field_bounds..|apply E].
  - opose proof* (fields_u imm d 0x17) as E; [field_bounds..|apply E].
  - opose proof* (fields_j (off mod 2 ^ 21) d 0x6f) as E; [field_bounds..|apply E].
  - opose proof* (fields_i (off mod 2 ^ 12) r1 0 d 0x67) as E; [field_bounds..|apply E].
  - assert (0 <= branch_funct3 op < 8) by (by destruct op).
    opose proof* (fields_b (off mod 2 ^ 13) r2 r1 (branch_funct3 op) 0x63) as E; [field_bounds..|apply E].
  - assert (0 <= load_funct3 op < 8) by (by destruct op).
    opose proof* (fields_i (off mod 2 ^ 12) r1 (load_funct3 op) d 0x03) as E; [field_bounds..|apply E].
  - assert (0 <= store_funct3 op < 8) by (by destruct op).
    opose proof* (fields_s (off mod 2 ^ 12) r2 r1 (store_funct3 op) 0x23) as E; [field_bounds..|apply E].
  - assert (0 <= imm_funct3 op < 8) by (by destruct op).
    opose proof* (fields_i (imm mod 2 ^ 12) r1 (imm_funct3 op) d 0x13) as E; [field_bounds..|apply E].
  - assert (0 <= shift_funct3 op < 8 /\ 0 <= shift_funct7 op <= 32) as [? ?] by (by destruct op).
    opose proof* (fields_r (shift_funct7 op) sh r1 (shift_funct3 op) d 0x13) as E; [field_bounds..|apply E].
  - assert (0 <= reg_funct3 op < 8 /\ 0 <= reg_funct7 op < 128) as [? ?] by (by destruct op).
    opose proof* (fields_r (reg_funct7 op) r2 r1 (reg_funct3 op) d 0x33) as E; [field_bounds..|apply E].
  - assert (0 <= m_funct3 op < 8) by (by destruct op).
    opose proof* (fields_r 0x01 r2 r1 (m_funct3 op) d 0x33) as E; [field_bounds..|apply E].
  - opose proof* (fields_i ps 0 0 0 0x0f) as E; [field_bounds..|apply E].
  - assert (0 <= csr_funct3 op < 8) by (by destruct op).
    opose proof* (fields_i c r1 (csr_funct3 op) d 0x73) as E; [field_bounds..|apply E].
  - assert (0 <= 4 + csr_funct3 op < 8) by (by destruct op).
    opose proof* (fields_i c z (4 + csr_funct3 op) d 0x73) as E; [field_bounds..|apply E].
Qed.

(** Predictions agree with the instruction set on everything but the
    direction of branches and the targets of indirect jumps: a JAL is
    predicted taken to its exact target, a conditional branch to its exact
    target or to the next instruction, according to the predicted direction,
    a JALR as taken, and an instruction that is not a jump or branch is not
    predicted and leaves the predictor alone. *)
Theorem bp_targets p pc i :
  bp_ok p -> instr_ok i -> is_u32 pc ->
  exists r p', get_prediction p pc (encode i) = Some (r, p') /\ bp_ok p' /\
    match i with
    | JAL _ _ => r = control_target i pc 0 0 0
    | BRANCH _ _ _ off => exists taken : bool, r = Some (taken, if taken then u32 (pc + off) else u32 (pc + 4))
    | JALR _ _ _ => exists target, r = Some (true, target)
    | _ => r = None /\ p' = p
    end.
Proof.
  intros Hp Hok Hpc. pose proof (opcode_encode i Hok) as Ho. unfold get_prediction. rewrite Ho.
  destruct i as [d imm|d imm|d off|d r1 off|op r1 r2 off|op d r1 off|op r1 r2 off|op d r1 imm
    |op d r1 sh|op d r1 r2|op d r1 r2|ps| | | | |op d r1 c|op d z c]; cbn [Z.eqb Pos.eqb] in *; try (by exists None, p).
  - cbn [instr_ok encode] in *. destruct Hok as (Hd & Hs & He).
    opose proof* (fields_j (off mod 2 ^ 21) d 0x6f) as (_ & Er & Ei); [field_bounds..|]. cbv zeta in Er, Ei.
    rewrite Ei, Er, sign_extend_mod by (done || lia). cbn [mbind option_bind].
    destruct (push_return_ok p Hp pc) as (p1 & E1 & H1). unfold control_target.
    rewrite u32_add_r.
    destruct (is_link d); rewrite ?E1; cbn [mbind option_bind]; by eexists _, _.
  - destruct (jalr_ok p pc (get_fields (encode (JALR d r1 off))) Hp) as (a & p1 & -> & H1). cbn [mbind option_bind].
    eexists _, _. split; [reflexivity|]. split; [done|]. by eexists.
  - cbn [instr_ok encode] in *. destruct Hok as (Hr1 & Hr2 & Hs & He).
    assert (0 <= branch_funct3 op < 8) by (by destruct op).
    opose proof* (fields_b (off mod 2 ^ 13) r2 r1 (branch_funct3 op) 0x63) as (_ & Ef & _ & _ & Ei);
      [field_bounds..|]. cbv zeta in Ef, Ei. rewrite Ei, Ef, sign_extend_mod by (done || lia).
    destruct (direction_ok p pc Hp) as (g & t & -> & Ht). cbn [mbind option_bind]. rewrite Ht. cbn [mbind option_bind].
    rewrite u32_add_r.
    assert ((branch_funct3 op =? 0) || (branch_funct3 op =? 1) || (branch_funct3 op =? 4) || (branch_funct3 op =? 5) ||
      (branch_funct3 op =? 6) || (branch_funct3 op =? 7) = true) as -> by (by destruct op).
    eexists _, _. split; [reflexivity|]. split; [done|]. by eexists.
Qed.

Lemma bp_targets_witness :
  exists p', get_prediction bp_demo 0x80000000 (encode (JAL 0 (-16))) = Some (Some (true, 0x7ffffff0), p').
Proof.
  destruct (bp_targets bp_demo 0x80000000 (JAL 0 (-16))) as (r & p' & H & _ & Hr).
  - apply bp_new_ok; [apply zeros_ok; reflexivity|reflexivity].
  - unfold instr_ok, reg_ok, signed_ok. split_and!; lia || reflexivity.
  - unfold is_u32. lia.
  - exists p'. rewrite H, Hr. reflexivity.
Defined.

(** Returns are predicted from the calls.  After the prediction of a call
    (a JAL that links to x1 or x5) at [pc], whatever else the predictor holds,
    a return (a JALR through a link register that does not itself link) is
    predicted to go to the instruction behind the call. *)
Theorem bp_call_return p pc pc' d off r1 off' d' :
  bp_ok p -> instr_ok (JAL d off) -> instr_ok (JALR d' r1 off') ->
  is_link d = true -> is_link r1 = true -> is_link d' = false ->
  exists p1 p2, get_prediction p pc (encode (JAL d off)) = Some (Some (true, u32 (pc + off)), p1) /\
    get_prediction p1 pc' (encode (JALR d' r1 off')) = Some (Some (true, u32 (pc + 4)), p2).
Proof.
  intros Hp Hok Hok' Hd Hr1 Hd'. unfold get_prediction.
  rewrite (opcode_encode _ Hok), (opcode_encode _ Hok'). cbn [Z.eqb Pos.eqb].
  cbn [instr_ok encode] in *. destruct Hok as (? & ? & ?), Hok' as (? & ? & ?).
  opose proof* (fields_j (off mod 2 ^ 21) d 0x6f) as (_ & Er & Ei); [field_bounds..|]. cbv zeta in Er, Ei.
  rewrite Ei, Er, Hd, sign_extend_mod by (done || lia). cbn [mbind option_bind].
  destruct (push_then_pop (main_ras p) (u32 (pc + 4)) (ok_ras p Hp)) as (full & r & r' & Epush & _ & Epop & _).
  unfold bp_push_return. rewrite Epush. cbn [mbind option_bind].
  eexists _, _. split.
  { by rewrite u32_add_r. }
  unfold get_prediction_jalr.
  opose proof* (fields_i (off' mod 2 ^ 12) r1 0 d' 0x67) as (_ & Er' & _ & Er1 & _); [field_bounds..|].
  cbv zeta in Er', Er1. rewrite Er', Er1, Hd', Hr1. unfold bp_pop_return. cbn [main_ras upd]. by rewrite Epop.
Qed.

Lemma bp_call_return_witness :
  exists p1 p2, get_prediction bp_demo 0x80000000 (encode (JAL 1 2048)) = Some (Some (true, 0x80000800), p1) /\
    get_prediction p1 0x80000810 (encode (JALR 0 1 0)) = Some (Some (true, 0x80000004), p2).
Proof.
  destruct (bp_call_return bp_demo 0x80000000 0x80000810 1 2048 1 0 0) as (p1 & p2 & H1 & H2).
  - apply bp_new_ok; [apply zeros_ok; reflexivity|reflexivity].
  - unfold instr_ok, reg_ok, signed_ok. split_and!; lia || reflexivity.
  - unfold instr_ok, reg_ok, signed_ok. split_and!; lia || reflexivity.
  - reflexivity.
  - reflexivity.
  - reflexivity.
  - exists p1, p2. split; [exact H1|exact H2].
Defined.
