(* ===== verification/Execute.v ===== *)
(** The execution units [pipeline::execute::alu], [mul] and [div]
    ([pipeline/execute/*.cpp]), with what all units share: the output register
    [component::port] and the feedback channel of [pipeline/execute.h].

    A unit takes one instruction per cycle from its issue queue, computes, and
    leaves the result in its port for write-back; the same result goes back to
    readreg and issue through the feedback channel.  [..._execute] is the
    computation on one packet, [..._run] the cycle. *)

From Stdlib Require Import ZArith Lia.
From stdpp Require Import base numbers list option tactics.
From S2P Require Import Prelude Common Fifo FifoIds PipelineCommon Packs Isa Decode.

Local Open Scope Z_scope.

(** * [component::port] *)

Record port (T : Type) := mk_port { port_value : T; port_init_value : T }.
Arguments mk_port {T} _ _.
Arguments port_value {T} _.
Arguments port_init_value {T} _.

Definition port_new {T} (init_value : T) : port T := mk_port init_value init_value.
Definition port_reset {T} (p : port T) : port T := mk_port (port_init_value p) (port_init_value p).
Definition port_set {T} (p : port T) (value : T) : port T := mk_port value (port_init_value p).
Definition port_get {T} (p : port T) : T := port_value p.

(** * Feedback *)

Record execute_feedback_channel_t := mk_feedback {
  fb_enable : bool;
  fb_phy_id : Z;
  fb_value : Z
}.

Definition feedback_of (send_pack : execute_wb_pack_t) : execute_feedback_channel_t :=
  mk_feedback
    (ew_enable send_pack && ew_valid send_pack && ew_rd_enable send_pack && ew_need_rename send_pack &&
     negb (ew_has_exception send_pack))
    (ew_rd_phy send_pack) (ew_rd_value send_pack).

(** * A unit *)

Record exec_unit := mk_exec_unit {
  issue_fifo : fifo issue_execute_pack_t;
  wb_port : port execute_wb_pack_t
}.

Definition flushes (pack : commit_feedback_pack_t) : bool := cf_enable pack && cf_flush pack.

(** The cycle of a unit without further state; [execute] turns the packet
    taken from the queue into the one for write-back. *)
Definition unit_run (execute : issue_execute_pack_t -> option execute_wb_pack_t) (s : exec_unit)
    (commit_feedback_pack : commit_feedback_pack_t) : option (execute_feedback_channel_t * exec_unit) :=
  '(send_pack, f) ←
    (if negb (fifo_is_empty (issue_fifo s)) && negb (flushes commit_feedback_pack) then
       '(rev_pack, f) ← fifo_pop (issue_fifo s);
       rev_pack ← rev_pack;
       send_pack ← execute rev_pack;
       Some (send_pack, f)
     else Some (execute_wb_pack_zero, issue_fifo s));
  Some (feedback_of send_pack, mk_exec_unit f (port_set (wb_port s) send_pack)).

(** The members of the union [sub_op]: reading another than the one stored is
    undefined; the cleared union reads as the first enumerator. *)
Definition as_alu (s : sub_op_t) : option alu_op_t :=
  match s with sub_alu op => Some op | sub_none => Some alu_add | _ => None end.
Definition as_mul (s : sub_op_t) : option mul_op_t :=
  match s with sub_mul op => Some op | sub_none => Some mul_mul | _ => None end.
Definition as_div (s : sub_op_t) : option div_op_t :=
  match s with sub_div op => Some op | sub_none => Some div_div | _ => None end.

Definition raise (p : execute_wb_pack_t) (id : riscv_exception_t) (value : Z) : execute_wb_pack_t :=
  p <| ew_has_exception := true |> <| ew_exception_id := id |> <| ew_exception_value := value |>.

(** * ALU *)

Definition alu_switch (op : alu_op_t) (rev_pack : issue_execute_pack_t) (send_pack : execute_wb_pack_t)
    : execute_wb_pack_t :=
  let src1 := ie_src1_value rev_pack in
  let src2 := ie_src2_value rev_pack in
  match op with
  | alu_add => send_pack <| ew_rd_value := u32 (src1 + src2) |>
  | alu_and => send_pack <| ew_rd_value := Z.land src1 src2 |>
  | alu_auipc => send_pack <| ew_rd_value := u32 (ie_imm rev_pack + ie_pc rev_pack) |>
  | alu_ebreak => raise (send_pack <| ew_rd_value := 0 |>) breakpoint 0
  | alu_ecall => raise (send_pack <| ew_rd_value := 0 |>) environment_call_from_m_mode 0
  | alu_fence => send_pack <| ew_rd_value := 0 |>
  | alu_fence_i => send_pack <| ew_rd_value := 0 |>
  | alu_lui => send_pack <| ew_rd_value := ie_imm rev_pack |>
  | alu_or => send_pack <| ew_rd_value := Z.lor src1 src2 |>
  | alu_sll => send_pack <| ew_rd_value := shl32 src1 (Z.land src2 0x1f) |>
  | alu_slt => send_pack <| ew_rd_value := if s32 src1 <? s32 src2 then 1 else 0 |>
  | alu_sltu => send_pack <| ew_rd_value := if src1 <? src2 then 1 else 0 |>
  | alu_sra => send_pack <| ew_rd_value := u32 (Z.shiftr (s32 src1) (Z.land src2 0x1f)) |>
  | alu_srl => send_pack <| ew_rd_value := shr32 src1 (Z.land src2 0x1f) |>
  | alu_sub => send_pack <| ew_rd_value := u32 (src1 - src2) |>
  | alu_xor => send_pack <| ew_rd_value := Z.lxor src1 src2 |>
  end.

Definition alu_execute (rev_pack : issue_execute_pack_t) : option execute_wb_pack_t :=
  let send_pack := wb_pack_of rev_pack in
  if ie_enable rev_pack && negb (ie_has_exception rev_pack) then
    let send_pack := if ie_enable rev_pack && negb (ie_valid rev_pack)
                     then raise send_pack illegal_instruction 0 else send_pack in
    if ie_enable rev_pack && ie_valid rev_pack then
      op ← as_alu (ie_sub_op rev_pack);
      Some (alu_switch op rev_pack send_pack)
    else Some send_pack
  else Some send_pack.

Definition alu_run := unit_run alu_execute.

(** * Multiplier *)

(** The operands are widened to 64 bits, signed or unsigned. *)
Definition mul_switch (op : mul_op_t) (rev_pack : issue_execute_pack_t) (send_pack : execute_wb_pack_t)
    : execute_wb_pack_t :=
  let src1 := ie_src1_value rev_pack in
  let src2 := ie_src2_value rev_pack in
  match op with
  | mul_mul => send_pack <| ew_rd_value := Z.land (u64 (s32 src1 * s32 src2)) 0xffffffff |>
  | mul_mulh => send_pack <| ew_rd_value := Z.land (Z.shiftr (u64 (s32 src1 * s32 src2)) 32) 0xffffffff |>
  | mul_mulhsu => send_pack <| ew_rd_value := Z.land (Z.shiftr (u64 (u64 (s32 src1) * src2)) 32) 0xffffffff |>
  | mul_mulhu => send_pack <| ew_rd_value := Z.land (Z.shiftr (u64 (src1 * src2)) 32) 0xffffffff |>
  end.

Definition mul_execute (rev_pack : issue_execute_pack_t) : option execute_wb_pack_t :=
  let send_pack := wb_pack_of rev_pack in
  if ie_enable rev_pack && ie_valid rev_pack then
    op ← as_mul (ie_sub_op rev_pack);
    Some (mul_switch op rev_pack send_pack)
  else Some send_pack.

Definition mul_run := unit_run mul_execute.

(** * Divider *)

Definition div_switch (op : div_op_t) (rev_pack : issue_execute_pack_t) (send_pack : execute_wb_pack_t)
    : execute_wb_pack_t :=
  let src1 := ie_src1_value rev_pack in
  let src2 := ie_src2_value rev_pack in
  let overflow := (src1 =? 0x80000000) && (src2 =? 0xFFFFFFFF) in
  match op with
  | div_div => send_pack <| ew_rd_value := if src2 =? 0 then 0xFFFFFFFF else if overflow then 0x80000000
                                           else u32 (Z.quot (s32 src1) (s32 src2)) |>
  | div_divu => send_pack <| ew_rd_value := if src2 =? 0 then 0xFFFFFFFF else u32 (Z.quot src1 src2) |>
  | div_rem => send_pack <| ew_rd_value := if src2 =? 0 then src1 else if overflow then 0
                                           else u32 (Z.rem (s32 src1) (s32 src2)) |>
  | div_remu => send_pack <| ew_rd_value := if src2 =? 0 then src1
                                            else Z.rem (u32 (s32 src1)) (u32 (s32 src2)) |>
  end.

Definition div_execute (rev_pack : issue_execute_pack_t) : option execute_wb_pack_t :=
  let send_pack := wb_pack_of rev_pack in
  if ie_enable rev_pack && ie_valid rev_pack then
    op ← as_div (ie_sub_op rev_pack);
    Some (div_switch op rev_pack send_pack)
  else Some send_pack.

Definition div_run := unit_run div_execute.

(** * Results *)

Lemma land_5 x : Z.land x 0x1f = x mod 32.
Proof. exact (land_low x 5 ltac:(lia)). Qed.

Lemma land_32 x : Z.land x 0xffffffff = u32 x.
Proof. exact (land_low x 32 ltac:(lia)). Qed.

(** The high half of a product computed at 64 bits. *)
Lemma high_half x : Z.land (Z.shiftr (u64 x) 32) 0xffffffff = u32 (x / 2 ^ 32).
Proof.
  rewrite land_32, Z.shiftr_div_pow2 by lia. unfold u64. change (2 ^ 64) with (2 ^ 32 * 2 ^ 32).
  rewrite Z.rem_mul_r by lia. rewrite Z.mul_comm, Z.div_add by lia.
  rewrite Z.div_small by (apply Z.mod_pos_bound; lia).
  rewrite Z.add_0_l. apply u32_idemp.
Qed.

Lemma s32_eqm a : is_u32 a -> exists k, s32 a = a + k * 2 ^ 32.
Proof. intros Ha. unfold s32. bcase; [exists 0|exists (-1)]; lia. Qed.

Lemma low_half a b : is_u32 a -> is_u32 b -> Z.land (u64 (s32 a * s32 b)) 0xffffffff = u32 (a * b).
Proof.
  intros Ha Hb. rewrite land_32. destruct (s32_eqm a Ha) as [k ->], (s32_eqm b Hb) as [k' ->].
  unfold u32, u64. rewrite Z.mod_mod_divide by (by exists (2 ^ 32)).
  replace ((a + k * 2 ^ 32) * (b + k' * 2 ^ 32)) with (a * b + (a * k' + k * b + k * k' * 2 ^ 32) * 2 ^ 32) by lia.
  by rewrite Z.mod_add by lia.
Qed.

Lemma s32_0 b : is_u32 b -> s32 b = 0 <-> b = 0.
Proof. unfold is_u32, s32. intros. bcase; lia. Qed.

(** The operand a unit sees for a register with the value [v]. *)
Definition operand (src : arg_src_t) (imm v : Z) : Z :=
  match src with src_reg => v | src_imm => imm | src_disable => 0 end.

(** The packet [p] is the instruction [i], decoded, with the values [a] and
    [b] of its source registers. *)
Record carries (i : instr) (a b : Z) (p : issue_execute_pack_t) : Prop := {
  car_enable : ie_enable p = true;
  car_valid : ie_valid p = true;
  car_no_exception : ie_has_exception p = false;
  car_sub_op : ie_sub_op p = d_sub_op (decoded_of i);
  car_arg1_src : ie_arg1_src p = d_arg1_src (decoded_of i);
  car_rs1_need_map :
    ie_rs1_need_map p = bool_decide (d_arg1_src (decoded_of i) = src_reg) && (0 <? d_rs1 (decoded_of i));
  car_imm : ie_imm p = d_imm (decoded_of i);
  car_src1 : ie_src1_value p = operand (d_arg1_src (decoded_of i)) (d_imm (decoded_of i)) a;
  car_src2 : ie_src2_value p = operand (d_arg2_src (decoded_of i)) (d_imm (decoded_of i)) b;
  car_csr : ie_csr p = d_csr (decoded_of i)
}.

Lemma rd_value_eq v v' q : v = v' -> q <| ew_rd_value := v |> = q <| ew_rd_value := v' |>.
Proof. by intros ->. Qed.

Lemma alu_imm_result op a imm :
  is_u32 a -> signed_ok 12 imm -> forall p q, ie_src1_value p = a -> ie_src2_value p = u32 imm ->
  alu_switch (imm_ops op).2 p q = q <| ew_rd_value := imm_result op a imm |>.
Proof.
  intros Ha Hi p q E1 E2. unfold signed_ok in Hi.
  destruct op; cbn; rewrite E1, E2; rewrite ?u32_add_r; try done. by rewrite s32_u32 by lia.
Qed.

Lemma alu_shift_result op a n :
  0 <= n < 32 -> forall p q, ie_src1_value p = a -> Z.land (ie_src2_value p) 0x1f = n ->
  alu_switch (shift_ops op).2 p q = q <| ew_rd_value := shift_result op a n |>.
Proof.
  intros Hn p q E1 E2. destruct op; cbn [shift_ops snd alu_switch]; rewrite E1, E2; apply rd_value_eq.
  - unfold shl32. by rewrite Z.shiftl_mul_pow2 by lia.
  - unfold shr32. by rewrite Z.shiftr_div_pow2 by lia.
  - by rewrite Z.shiftr_div_pow2 by lia.
Qed.

Lemma alu_reg_result op a b :
  forall p q, ie_src1_value p = a -> ie_src2_value p = b ->
  alu_switch (reg_ops op).2 p q = q <| ew_rd_value := reg_result op a b |>.
Proof.
  intros p q E1 E2.
  assert (Z.land (ie_src2_value p) 0x1f = b mod 32) as E3 by (rewrite E2; apply land_5).
  assert (0 <= b mod 32 < 32) as Hb by (apply Z.mod_pos_bound; lia).
  destruct op; try (cbn; by rewrite E1, E2).
  - exact (alu_shift_result SLLI a _ Hb p q E1 E3).
  - exact (alu_shift_result SRLI a _ Hb p q E1 E3).
  - exact (alu_shift_result SRAI a _ Hb p q E1 E3).
Qed.

Lemma div_result a b :
  is_u32 a -> is_u32 b ->
  (if b =? 0 then 0xFFFFFFFF else if (a =? 0x80000000) && (b =? 0xFFFFFFFF) then 0x80000000
   else u32 (Z.quot (s32 a) (s32 b))) = m_result DIV a b.
Proof.
  intros Ha Hb. cbn [m_result]. destruct (Z.eqb_spec b 0); [done|].
  destruct (Z.eqb_spec a 0x80000000) as [-> |]; [|done]. by destruct (Z.eqb_spec b 0xFFFFFFFF) as [-> |].
Qed.

Lemma rem_result a b :
  is_u32 a -> is_u32 b ->
  (if b =? 0 then a else if (a =? 0x80000000) && (b =? 0xFFFFFFFF) then 0
   else u32 (Z.rem (s32 a) (s32 b))) = m_result REM a b.
Proof.
  intros Ha Hb. cbn [m_result]. destruct (Z.eqb_spec b 0); [done|].
  destruct (Z.eqb_spec a 0x80000000) as [-> |]; [|done]. by destruct (Z.eqb_spec b 0xFFFFFFFF) as [-> |].
Qed.

Lemma divu_result a b :
  is_u32 a -> is_u32 b -> (if b =? 0 then 0xFFFFFFFF else u32 (Z.quot a b)) = m_result DIVU a b.
Proof.
  unfold is_u32. intros Ha Hb. cbn [m_result]. destruct (Z.eqb_spec b 0); [done|].
  rewrite Z.quot_div_nonneg by lia. apply u32_small. split; [apply Z.div_pos; lia|].
  apply Z.le_lt_trans with a; [|lia]. apply Z.div_le_upper_bound; nia.
Qed.

Lemma remu_result a b :
  is_u32 a -> is_u32 b -> (if b =? 0 then a else Z.rem (u32 (s32 a)) (u32 (s32 b))) = m_result REMU a b.
Proof.
  intros Ha Hb. cbn [m_result]. destruct (Z.eqb_spec b 0); [done|]. rewrite !u32_s32 by done.
  unfold is_u32 in *. apply Z.rem_mod_nonneg; lia.
Qed.

(** The computation of the unit an instruction is sent to. *)
Definition unit_execute (u : op_unit_t) : issue_execute_pack_t -> option execute_wb_pack_t :=
  match u with
  | unit_mul => mul_execute
  | unit_div => div_execute
  | _ => alu_execute
  end.

Lemma m_switch_result op a b p q :
  is_u32 a -> is_u32 b -> ie_src1_value p = a -> ie_src2_value p = b ->
  match m_ops op with
  | (_, _, sub_mul o) => mul_switch o p q
  | (_, _, sub_div o) => div_switch o p q
  | _ => q
  end = q <| ew_rd_value := m_result op a b |>.
Proof.
  intros Ha Hb E1 E2. destruct op; cbn [m_ops mul_switch div_switch]; rewrite E1, E2; apply rd_value_eq.
  - by apply low_half.
  - apply high_half.
  - unfold m_result. rewrite <- (high_half (s32 a * b)). do 2 f_equal. unfold u64. by rewrite Zmult_mod_idemp_l.
  - rewrite high_half. apply u32_small. unfold is_u32 in *. split; [apply Z.div_pos; nia|].
    apply Z.div_lt_upper_bound; nia.
  - by apply div_result.
  - by apply divu_result.
  - by apply rem_result.
  - by apply remu_result.
Qed.

(** The packet write-back receives: that of the instruction, with a result. *)
Definition with_result (p : issue_execute_pack_t) (v : Z) : execute_wb_pack_t :=
  (wb_pack_of p) <| ew_rd_value := v |>.

Lemma arith_execute i a b p v :
  instr_ok i -> is_u32 a -> is_u32 b -> carries i a b p -> arith_result i (ie_pc p) a b = Some v ->
  unit_execute (d_op_unit (decoded_of i)) p = Some (with_result p v).
Proof.
  intros Hok Ha Hb [He Hv Hx Hs _ _ Hi H1 H2 _] Hr.
  destruct i as [d imm|d imm| | | | | |op d r1 imm|op d r1 sh|op d r1 r2|op d r1 r2| | | | | | | ];
    try done; apply (inj Some) in Hr as <-; cbn [decoded_of d_op_unit d_sub_op d_imm d_arg1_src d_arg2_src operand] in *.
  - cbn [unit_execute]. unfold alu_execute. rewrite He, Hv, Hx, Hs. cbn. unfold with_result.
    f_equal. apply rd_value_eq. by rewrite Hi.
  - cbn [unit_execute]. unfold alu_execute. rewrite He, Hv, Hx, Hs. cbn. unfold with_result.
    f_equal. apply rd_value_eq. by rewrite Hi, Z.add_comm.
  - destruct Hok as (_ & _ & Hok). cbn [unit_execute]. unfold alu_execute. rewrite He, Hv, Hx, Hs. cbn -[alu_switch].
    by rewrite (alu_imm_result op a imm).
  - destruct Hok as (_ & _ & Hok). cbn [unit_execute]. unfold alu_execute. rewrite He, Hv, Hx, Hs. cbn -[alu_switch].
    rewrite (alu_shift_result op a sh); try done. rewrite H2, land_5.
    rewrite Z.mul_comm, Z.mod_add by lia. by apply Z.mod_small.
  - cbn [unit_execute]. unfold alu_execute. rewrite He, Hv, Hx, Hs. cbn -[alu_switch].
    by rewrite (alu_reg_result op a b).
  - pose proof (m_switch_result op a b p (wb_pack_of p) Ha Hb) as Hm.
    destruct op; cbn [m_ops d_op_unit d_sub_op d_arg1_src d_arg2_src unit_execute operand] in *;
      unfold mul_execute, div_execute; rewrite He, Hv, Hs; cbn -[mul_switch div_switch]; by rewrite Hm.
Qed.

Section unit_cycle.
Context (execute : issue_execute_pack_t -> option execute_wb_pack_t).
Context (s : exec_unit) (pack : commit_feedback_pack_t).

(** A flush leaves the queue alone and sends an empty packet. *)
Lemma unit_run_flush :
  flushes pack = true ->
  unit_run execute s pack =
    Some (mk_feedback false 0 0, mk_exec_unit (issue_fifo s) (port_set (wb_port s) execute_wb_pack_zero)).
Proof. intros Hf. unfold unit_run. by rewrite Hf, andb_false_r. Qed.

Lemma unit_run_empty b st :
  window (issue_fifo s) [] b st ->
  unit_run execute s pack =
    Some (mk_feedback false 0 0, mk_exec_unit (issue_fifo s) (port_set (wb_port s) execute_wb_pack_zero)).
Proof. intros W. unfold unit_run. by rewrite (window_empty W), bool_decide_true. Qed.

Lemma unit_run_pop p l b st q :
  window (issue_fifo s) (p :: l) b st -> flushes pack = false -> execute p = Some q ->
  exists f b' st', window f l b' st' /\
    unit_run execute s pack = Some (feedback_of q, mk_exec_unit f (port_set (wb_port s) q)).
Proof.
  intros W Hf Hq. unfold unit_run. rewrite (window_empty W), bool_decide_false, Hf by done. cbn [negb andb].
  destruct (window_pop W p l eq_refl) as (f & b' & st' & -> & W' & _). cbn [mbind option_bind]. rewrite Hq.
  cbn [mbind option_bind]. by exists f, b', st'.
Qed.

End unit_cycle.

(** C9: the arithmetic units compute what the instruction set says.  When the
    oldest packet in a unit's queue carries an instruction that computes on
    registers (LUI, AUIPC, the register and immediate ALU operations, shifts,
    multiplications, divisions), the cycle of that unit takes it from the
    queue and leaves in the port the instruction's packet with the
    architectural result, for every operand, including division by zero and
    the overflowing division; the same value is broadcast to the physical
    destination register exactly when the instruction was renamed. *)
Theorem exec_arith_correct i a b p v s l bk st pack :
  instr_ok i -> is_u32 a -> is_u32 b -> carries i a b p -> arith_result i (ie_pc p) a b = Some v ->
  window (issue_fifo s) (p :: l) bk st -> flushes pack = false ->
  exists s' bk' st', unit_run (unit_execute (d_op_unit (decoded_of i))) s pack =
      Some (mk_feedback (ie_rd_enable p && ie_need_rename p) (ie_rd_phy p) v, s') /\
    port_get (wb_port s') = with_result p v /\ window (issue_fifo s') l bk' st'.
Proof.
  intros Hok Ha Hb Hc Hr W Hf. pose proof (arith_execute i a b p v Hok Ha Hb Hc Hr) as Hx.
  destruct (unit_run_pop _ s pack p l bk st _ W Hf Hx) as (f & b' & st' & W' & ->).
  destruct Hc as [He Hv Hn _ _ _ _ _ _ _].
  exists (mk_exec_unit f (port_set (wb_port s) (with_result p v))), b', st'. split; [|by split].
  unfold feedback_of. cbn. rewrite He, Hv, Hn. cbn.
  by rewrite andb_true_r.
Qed.

Definition exec_demo_pack (u : op_unit_t) (o : sub_op_t) (a b : Z) : issue_execute_pack_t := issue_execute_pack_zero
  <| ie_enable := true |> <| ie_valid := true |> <| ie_rob_id := 5 |> <| ie_op_unit := u |> <| ie_sub_op := o |>
  <| ie_rs1_need_map := true |> <| ie_src1_value := a |> <| ie_src2_value := b |>
  <| ie_rd := 3 |> <| ie_rd_enable := true |> <| ie_need_rename := true |> <| ie_rd_phy := 77 |>.

Definition exec_demo (p : issue_execute_pack_t) : exec_unit :=
  mk_exec_unit (mk_fifo [issue_execute_pack_zero; p] 2 0 true 1 false false 0 false) (port_new execute_wb_pack_zero).

(** The overflowing division. *)
Lemma exec_arith_correct_witness :
  exists s', div_run (exec_demo (exec_demo_pack unit_div (sub_div div_div) 0x80000000 0xffffffff)) no_feedback =
      Some (mk_feedback true 77 0x80000000, s') /\ ew_rd_value (port_get (wb_port s')) = 0x80000000.
Proof.
  destruct (exec_arith_correct (OPM DIV 3 1 2) 0x80000000 0xffffffff
    (exec_demo_pack unit_div (sub_div div_div) 0x80000000 0xffffffff) 0x80000000
    (exec_demo (exec_demo_pack unit_div (sub_div div_div) 0x80000000 0xffffffff)) [] 1%nat false no_feedback)
    as (s' & bk & st & H & Hp & _).
  - unfold instr_ok, reg_ok. lia.
  - unfold is_u32. lia.
  - unfold is_u32. lia.
  - split; reflexivity.
  - reflexivity.
  - split; cbn; try done; lia.
  - reflexivity.
  - exists s'. split; [exact H|]. rewrite Hp. reflexivity.
Defined.

(** Exceptions at the ALU.  A packet that arrives with an exception keeps it untouched and
    computes nothing; an enabled packet that is not valid raises
    illegal-instruction; [ecall] and [ebreak] raise their exceptions; and none
    of these broadcasts a value. *)
Theorem alu_exceptions p :
  ie_enable p = true ->
  (ie_has_exception p = true -> alu_execute p = Some (wb_pack_of p)) /\
  (ie_has_exception p = false -> ie_valid p = false ->
    alu_execute p = Some (raise (wb_pack_of p) illegal_instruction 0)) /\
  (forall a b, carries ECALL a b p ->
    alu_execute p = Some (raise (wb_pack_of p) environment_call_from_m_mode 0)) /\
  (forall a b, carries EBREAK a b p -> alu_execute p = Some (raise (wb_pack_of p) breakpoint 0)) /\
  (forall q, alu_execute p = Some q -> ew_has_exception q = true -> fb_enable (feedback_of q) = false).
Proof.
  intros He. split_and!.
  - intros Hx. unfold alu_execute. by rewrite He, Hx.
  - intros Hx Hv. unfold alu_execute. by rewrite He, Hx, Hv.
  - intros a b [_ Hv Hx Hs _ _ _ _ _ _]. unfold alu_execute. by rewrite He, Hx, Hv, Hs.
  - intros a b [_ Hv Hx Hs _ _ _ _ _ _]. unfold alu_execute. by rewrite He, Hx, Hv, Hs.
  - intros q _ Hx. unfold feedback_of. cbn [fb_enable]. by rewrite Hx, andb_false_r.
Qed.

Definition ecall_demo : issue_execute_pack_t :=
  (exec_demo_pack unit_alu (sub_alu alu_ecall) 0 0) <| ie_arg1_src := src_disable |> <| ie_rs1_need_map := false |>.

Lemma alu_exceptions_witness :
  alu_execute ecall_demo = Some (raise (wb_pack_of ecall_demo) environment_call_from_m_mode 0).
Proof.
  destruct (alu_exceptions ecall_demo) as (_ & _ & H & _).
  - reflexivity.
  - apply (H 0 0). split; reflexivity.
Defined.
