(* ===== verification/ExecuteCsr.v ===== *)
(** The CSR unit [pipeline::execute::csr] ([pipeline/execute/csr.cpp]).

    The unit reads the register and computes the new value; the value is only
    written when the instruction commits. *)

From Stdlib Require Import ZArith Lia.
From stdpp Require Import base numbers list option tactics gmap.
From S2P Require Import Prelude Common Fifo FifoIds CsrFile PipelineCommon Packs Isa Decode Execute.

Local Open Scope Z_scope.

(** The packet taken from the queue is a member of the class. *)
Record csr_unit := mk_csr_unit {
  csr_issue_fifo : fifo issue_execute_pack_t;
  csr_wb_port : port execute_wb_pack_t;
  csr_rev_pack : issue_execute_pack_t
}.

Definition csr_unit_reset (s : csr_unit) : csr_unit :=
  mk_csr_unit (csr_issue_fifo s) (csr_wb_port s) issue_execute_pack_zero.

Definition as_csr (s : sub_op_t) : option csr_op_t :=
  match s with sub_csr op => Some op | sub_none => Some csr_csrrc | _ => None end.

Definition csr_switch (op : csr_op_t) (csr_value src1_value : Z) : Z :=
  match op with
  | csr_csrrc => Z.land csr_value (not32 src1_value)
  | csr_csrrs => Z.lor csr_value src1_value
  | csr_csrrw => src1_value
  end.

(** The body after the packet was taken.  The packet of an instruction that is
    not valid also gets the prediction and the checkpoint. *)
Definition csr_execute (csr_file : csrfile) (rev_pack : issue_execute_pack_t) : option execute_wb_pack_t :=
  let send_pack := wb_pack_of_csr rev_pack in
  if ie_enable rev_pack then
    if ie_valid rev_pack then
      match csrfile_read csr_file (ie_csr rev_pack) with
      | None => Some (raise send_pack illegal_instruction 0)
      | Some csr_value =>
          let send_pack := send_pack <| ew_rd_value := csr_value |> <| ew_csr_newvalue_valid := false |> in
          if negb (bool_decide (ew_arg1_src send_pack = src_reg) && negb (ew_rs1_need_map send_pack)) then
            op ← as_csr (ie_sub_op rev_pack);
            let csr_value := csr_switch op csr_value (ie_src1_value rev_pack) in
            if negb (csrfile_write_check csr_file (ie_csr rev_pack) csr_value) then
              Some (raise send_pack illegal_instruction (ie_value rev_pack))
            else Some (send_pack <| ew_csr_newvalue := csr_value |> <| ew_csr_newvalue_valid := true |>)
          else Some send_pack
      end
    else Some (wb_pack_of rev_pack)
  else Some send_pack.

(** In a cycle with a flush only [feedback_pack.enable] is assigned; [junk] is
    what the other two members then hold. *)
Definition csr_run (junk : Z * Z) (s : csr_unit) (csr_file : csrfile) (commit_feedback_pack : commit_feedback_pack_t)
    : option (execute_feedback_channel_t * csr_unit) :=
  if negb (flushes commit_feedback_pack) then
    '(send_pack, s) ←
      (if negb (fifo_is_empty (csr_issue_fifo s)) then
         '(rev_pack, f) ← fifo_pop (csr_issue_fifo s);
         rev_pack ← rev_pack;
         send_pack ← csr_execute csr_file rev_pack;
         Some (send_pack, mk_csr_unit f (csr_wb_port s) rev_pack)
       else Some (execute_wb_pack_zero, s));
    Some (feedback_of send_pack, mk_csr_unit (csr_issue_fifo s) (port_set (csr_wb_port s) send_pack) (csr_rev_pack s))
  else
    Some (mk_feedback false junk.1 junk.2,
          mk_csr_unit (csr_issue_fifo s) (port_set (csr_wb_port s) execute_wb_pack_zero) (csr_rev_pack s)).

(** * Correctness *)

(** Whether the unit computes a new value: always for the immediate forms, and
    for the register forms when [rs1] is not x0. *)
Definition csr_unit_writes (i : instr) : bool :=
  match i with CSRREG _ _ rs1 _ => 0 <? rs1 | _ => true end.

(** The answer of the unit to an access of register [csr] with operand [x]. *)
Definition csr_answer (f : csrfile) (p : issue_execute_pack_t) (op : csr_op) (num x : Z) (writes : bool)
    : execute_wb_pack_t :=
  match csrfile_read f num with
  | None => raise (wb_pack_of_csr p) illegal_instruction 0
  | Some old =>
      let q := (wb_pack_of_csr p) <| ew_rd_value := old |> in
      if writes then
        if csrfile_write_check f num (csr_result op old x)
        then q <| ew_csr_newvalue := csr_result op old x |> <| ew_csr_newvalue_valid := true |>
        else raise q illegal_instruction (ie_value p)
      else q
  end.

Lemma land_not32 a b : is_u32 a -> is_u32 b -> Z.land a (not32 b) = Z.ldiff a b.
Proof.
  intros Ha Hb. apply Z.bits_inj'. intros i Hi. rewrite Z.land_spec, Z.ldiff_spec.
  destruct (Z.ltb_spec i 32); [by rewrite testbit_not32|]. by rewrite (testbit_high 32 a i).
Qed.

Lemma csr_switch_result op old x :
  is_u32 old -> is_u32 x -> csr_switch (csr_ops op).2 old x = csr_result op old x.
Proof. intros Ho Hx. destruct op; cbn; [done|done|]. by apply land_not32. Qed.

Lemma csr_execute_reg f op d r1 num a p :
  carries (CSRREG op d r1 num) a 0 p -> is_u32 a -> (forall v, csrfile_read f num = Some v -> is_u32 v) ->
  csr_execute f p = Some (csr_answer f p op num a (0 <? r1)).
Proof.
  intros Hc Ha Hf. destruct Hc as [He Hv _ Hs Hsrc Hm _ H1 _ Hn].
  assert (d_csr (decoded_of (CSRREG op d r1 num)) = num) as Hnum by (by destruct op).
  rewrite Hnum in Hn. assert (ie_arg1_src p = src_reg) as Ha1 by (rewrite Hsrc; by destruct op).
  assert (ie_rs1_need_map p = (0 <? r1)) as Hmap by (rewrite Hm; by destruct op).
  assert (ie_src1_value p = a) as Hv1 by (rewrite H1; by destruct op).
  assert (as_csr (ie_sub_op p) = Some (csr_ops op).2) as Hop by (rewrite Hs; by destruct op).
  unfold csr_execute, csr_answer. rewrite He, Hv, Hn. destruct (csrfile_read f num) as [old|] eqn:Er; [|done].
  cbn [ew_arg1_src ew_rs1_need_map wb_pack_of_csr upd]. rewrite Ha1, bool_decide_true, Hmap by done. cbn [andb].
  rewrite negb_involutive. destruct (0 <? r1); [|done]. rewrite Hop. cbn [mbind option_bind].
  rewrite Hv1, csr_switch_result by auto.
  by destruct (csrfile_write_check f num (csr_result op old a)).
Qed.

Lemma csr_execute_imm f op d z num a p :
  carries (CSRIMM op d z num) a 0 p -> is_u32 z -> (forall v, csrfile_read f num = Some v -> is_u32 v) ->
  csr_execute f p = Some (csr_answer f p op num z true).
Proof.
  intros Hc Hz Hf. destruct Hc as [He Hv _ Hs Hsrc _ _ H1 _ Hn].
  assert (d_csr (decoded_of (CSRIMM op d z num)) = num) as Hnum by (by destruct op).
  rewrite Hnum in Hn. assert (ie_arg1_src p = src_imm) as Ha1 by (rewrite Hsrc; by destruct op).
  assert (ie_src1_value p = z) as Hv1 by (rewrite H1; by destruct op).
  assert (as_csr (ie_sub_op p) = Some (csr_ops op).2) as Hop by (rewrite Hs; by destruct op).
  unfold csr_execute, csr_answer. rewrite He, Hv, Hn. destruct (csrfile_read f num) as [old|] eqn:Er; [|done].
  cbn [ew_arg1_src wb_pack_of_csr upd]. rewrite Ha1, bool_decide_false by done. cbn [andb negb].
  rewrite Hop. cbn [mbind option_bind]. rewrite Hv1, csr_switch_result by auto.
  by destruct (csrfile_write_check f num (csr_result op old z)).
Qed.

Lemma csr_run_pop junk s f pack p l b st q :
  window (csr_issue_fifo s) (p :: l) b st -> flushes pack = false -> csr_execute f p = Some q ->
  exists s' b' st', csr_run junk s f pack = Some (feedback_of q, s') /\
    port_get (csr_wb_port s') = q /\ window (csr_issue_fifo s') l b' st'.
Proof.
  intros W Hf Hq. unfold csr_run. rewrite (window_empty W), bool_decide_false, Hf by done. cbn [negb].
  destruct (window_pop W p l eq_refl) as (g & b' & st' & -> & W' & _). cbn [mbind option_bind]. rewrite Hq.
  cbn [mbind option_bind]. by eexists _, b', st'.
Qed.

(** The operand of a CSR instruction: the register, or the immediate. *)
Definition csr_operand (i : instr) (a : Z) : Z :=
  match i with CSRIMM _ _ zimm _ => zimm | _ => a end.

(** C27: the CSR unit.  For every CSR instruction at the head of its queue the
    cycle answers with the old value of the register and, when the unit
    decides to write, the new value of the instruction set for later commit;
    it raises illegal-instruction for a register that does not exist and for a
    write to a read-only one, and leaves the register file alone.  The
    decision agrees with the instruction set for CSRRS and CSRRC with a
    register operand, but CSRRW from x0 is taken for a read, and the immediate
    forms always for writes. *)
Theorem exec_csr_correct i op num w a p s f l b st junk pack :
  instr_ok i -> csr_access i = Some (op, num, w) -> carries i a 0 p -> is_u32 a ->
  (forall v, csrfile_read f num = Some v -> is_u32 v) ->
  window (csr_issue_fifo s) (p :: l) b st -> flushes pack = false ->
  exists s' b' st', csr_run junk s f pack =
      Some (feedback_of (csr_answer f p op num (csr_operand i a) (csr_unit_writes i)), s') /\
    port_get (csr_wb_port s') = csr_answer f p op num (csr_operand i a) (csr_unit_writes i) /\
    window (csr_issue_fifo s') l b' st' /\
    (csr_unit_writes i = w <-> match i with
                               | CSRREG CSRRW _ rs1 _ => rs1 <> 0
                               | CSRIMM (CSRRS | CSRRC) _ zimm _ => zimm <> 0
                               | _ => True
                               end).
Proof.
  intros Hok Hacc Hc Ha Hf W Hfl.
  assert (csr_execute f p = Some (csr_answer f p op num (csr_operand i a) (csr_unit_writes i))) as Hx.
  { destruct i as [| | | | | | | | | | | | | | | |o d r1 c|o d z c]; try done; cbn in Hacc; simplify_eq.
    - by apply (csr_execute_reg f op d r1 num a p).
    - destruct Hok as (_ & Hz & _). apply (csr_execute_imm f op d z num a p); try done. unfold is_u32. lia. }
  destruct (csr_run_pop junk s f pack p l b st _ W Hfl Hx) as (s' & b' & st' & E & Hp & W').
  exists s', b', st'. split_and!; try done.
  destruct i as [| | | | | | | | | | | | | | | |o d r1 c|o d z c]; try done; cbn in Hacc; simplify_eq.
  - destruct Hok as (_ & Hr & _). unfold reg_ok in Hr. cbn.
    destruct op; cbn; destruct (Z.ltb_spec 0 r1), (Z.eqb_spec r1 0); cbn; split; try done; lia.
  - destruct Hok as (_ & Hz & _). cbn. destruct op; cbn; destruct (Z.eqb_spec z 0); cbn; split; try done; lia.
Qed.

Definition csr_demo_pack (r1 a : Z) : issue_execute_pack_t := issue_execute_pack_zero
  <| ie_enable := true |> <| ie_valid := true |> <| ie_op := op_csrrw |> <| ie_op_unit := unit_csr |>
  <| ie_sub_op := sub_csr csr_csrrw |> <| ie_rs1 := r1 |> <| ie_rs1_need_map := 0 <? r1 |> <| ie_src1_value := a |>
  <| ie_csr := CSR_MSCRATCH |> <| ie_rd := 1 |> <| ie_rd_enable := true |> <| ie_need_rename := true |>.

Definition csr_demo_regs : csrfile :=
  mk_csrfile [] {[CSR_MSCRATCH := mk_csr_item false (mk_csr mscratch 42)]} (mk_char_fifos [] []).

Definition csr_demo (p : issue_execute_pack_t) : csr_unit :=
  mk_csr_unit (mk_fifo [p; issue_execute_pack_zero] 2 1 false 0 false false 0 false) (port_new execute_wb_pack_zero)
    issue_execute_pack_zero.

(** [csrrw x1, mscratch, x0]: no new value. *)
Lemma exec_csr_correct_witness :
  exists s', csr_run (0, 0) (csr_demo (csr_demo_pack 0 0)) csr_demo_regs no_feedback = Some (mk_feedback true 0 42, s') /\
    ew_csr_newvalue_valid (port_get (csr_wb_port s')) = false.
Proof.
  destruct (exec_csr_correct (CSRREG CSRRW 1 0 CSR_MSCRATCH) CSRRW CSR_MSCRATCH true 0 (csr_demo_pack 0 0)
    (csr_demo (csr_demo_pack 0 0)) csr_demo_regs [] 0%nat false (0, 0) no_feedback) as (s' & b & st & H & Hp & _).
  - unfold instr_ok, reg_ok, CSR_MSCRATCH. lia.
  - reflexivity.
  - split; reflexivity.
  - unfold is_u32. lia.
  - intros v Hv. vm_compute in Hv. injection Hv as <-. unfold is_u32. lia.
  - split; cbn; try done; lia.
  - reflexivity.
  - exists s'. split; [rewrite H; reflexivity|]. rewrite Hp. reflexivity.
Defined.
