(* ===== verification/ExecuteLsu.v ===== *)
(** The load/store unit [pipeline::execute::lsu] ([pipeline/execute/lsu.cpp]).

    A load reads the bus and overlays the buffered stores; a store goes to the
    store buffer, or waits in the unit when the buffer is full.  The address
    was computed, and its alignment checked, when the instruction was issued.
    The bus and the store buffer are shared with the rest of the core and are
    passed through. *)

From Stdlib Require Import ZArith Lia.
From stdpp Require Import base numbers list option tactics.
From S2P Require Import Prelude Common Fifo FifoIds PipelineCommon Bus StoreBuffer Packs Isa Decode Execute.

Local Open Scope Z_scope.

Record lsu_unit := mk_lsu_unit {
  lsu_issue_fifo : fifo issue_execute_pack_t;
  lsu_wb_port : port execute_wb_pack_t;
  lsu_busy : bool;
  hold_rev_pack : issue_execute_pack_t
}.

#[export] Instance lsu_unit_eta : Eta lsu_unit := fun r =>
  mk_lsu_unit (lsu_issue_fifo r) (lsu_wb_port r) (lsu_busy r) (hold_rev_pack r).

Definition lsu_reset (s : lsu_unit) : lsu_unit := s <| lsu_busy := false |>.

Definition as_lsu (s : sub_op_t) : option lsu_op_t :=
  match s with sub_lsu op => Some op | sub_none => Some lsu_lb | _ => None end.

(** The unit, the bus and the store buffer. *)
Record lsu_world := mk_lsu_world { lw_unit : lsu_unit; lw_bus : bus; lw_sb : store_buffer }.

#[export] Instance lsu_world_eta : Eta lsu_world := fun r => mk_lsu_world (lw_unit r) (lw_bus r) (lw_sb r).

(** [feedback_value = store_buffer->get_feedback_value(addr, size, bus->read(addr))] *)
Definition lsu_read (w : access_width) (s : lsu_world) (addr : Z) : option (Z * lsu_world) :=
  '(bus_value, b) ← bus_read w (lw_bus s) addr;
  feedback_value ← sb_get_feedback_value (lw_sb s) addr (width_bytes w) bus_value;
  Some (feedback_value, s <| lw_bus := b |>).

(** The cases of the stores. *)
Definition lsu_store (size data : Z) (s : lsu_world) (rev_pack : issue_execute_pack_t) (send_pack : execute_wb_pack_t)
    : execute_wb_pack_t * lsu_world :=
  if fifo_is_full (sb_fifo (lw_sb s)) then
    (send_pack <| ew_enable := false |>,
     s <| lw_unit ::= fun u => u <| lsu_busy := true |> <| hold_rev_pack := rev_pack |> |>)
  else
    let item := mk_sb_item true false (ie_rob_id rev_pack) (ie_pc rev_pack) (ie_lsu_addr rev_pack) data size in
    (send_pack, s <| lw_sb ::= fun sb => sb_push_sync sb item |>).

Definition lsu_switch (op : lsu_op_t) (s : lsu_world) (rev_pack : issue_execute_pack_t) (send_pack : execute_wb_pack_t)
    : option (execute_wb_pack_t * lsu_world) :=
  let addr := ie_lsu_addr rev_pack in
  match op with
  | lsu_lb =>
      '(feedback_value, s) ← lsu_read W8 s addr;
      v ← sign_extend feedback_value 8;
      Some (send_pack <| ew_rd_value := v |>, s)
  | lsu_lbu => '(feedback_value, s) ← lsu_read W8 s addr; Some (send_pack <| ew_rd_value := feedback_value |>, s)
  | lsu_lh =>
      '(feedback_value, s) ← lsu_read W16 s addr;
      v ← sign_extend feedback_value 16;
      Some (send_pack <| ew_rd_value := v |>, s)
  | lsu_lhu => '(feedback_value, s) ← lsu_read W16 s addr; Some (send_pack <| ew_rd_value := feedback_value |>, s)
  | lsu_lw => '(feedback_value, s) ← lsu_read W32 s addr; Some (send_pack <| ew_rd_value := feedback_value |>, s)
  | lsu_sb => Some (lsu_store 1 (Z.land (ie_src2_value rev_pack) 0xff) s rev_pack send_pack)
  | lsu_sh => Some (lsu_store 2 (Z.land (ie_src2_value rev_pack) 0xffff) s rev_pack send_pack)
  | lsu_sw => Some (lsu_store 4 (ie_src2_value rev_pack) s rev_pack send_pack)
  end.

Definition lsu_execute (s : lsu_world) (rev_pack : issue_execute_pack_t) : option (execute_wb_pack_t * lsu_world) :=
  let send_pack := wb_pack_of rev_pack in
  if ie_enable rev_pack && ie_valid rev_pack then
    if negb (ew_has_exception send_pack) then
      op ← as_lsu (ie_sub_op rev_pack);
      lsu_switch op s rev_pack send_pack
    else Some (send_pack, s)
  else Some (send_pack, s).

(** The packet of the cycle: the one held back, or the next of the queue. *)
Definition lsu_take (s : lsu_world) : option (issue_execute_pack_t * lsu_world) :=
  if lsu_busy (lw_unit s) then
    Some (hold_rev_pack (lw_unit s), s <| lw_unit ::= fun u => u <| lsu_busy := false |> |>)
  else
    '(rev_pack, f) ← fifo_pop (lsu_issue_fifo (lw_unit s));
    rev_pack ← rev_pack;
    Some (rev_pack, s <| lw_unit ::= fun u => u <| lsu_issue_fifo := f |> |>).

Definition lsu_run (s : lsu_world) (commit_feedback_pack : commit_feedback_pack_t)
    : option (execute_feedback_channel_t * lsu_world) :=
  '(send_pack, s) ←
    (if (negb (fifo_is_empty (lsu_issue_fifo (lw_unit s))) || lsu_busy (lw_unit s)) &&
        negb (flushes commit_feedback_pack) then
       '(rev_pack, s) ← lsu_take s; lsu_execute s rev_pack
     else if flushes commit_feedback_pack then
       Some (execute_wb_pack_zero, s <| lw_unit ::= fun u => u <| lsu_busy := false |> |>)
     else Some (execute_wb_pack_zero, s));
  Some (feedback_of send_pack,
        s <| lw_unit ::= fun u => u <| lsu_wb_port ::= fun p => port_set p send_pack |> |>).

(** * Correctness *)

Definition load_width (op : load_op) : access_width :=
  match op with LB | LBU => W8 | LH | LHU => W16 | LW => W32 end.

Lemma load_width_bytes op : width_bytes (load_width op) = load_size op.
Proof. by destruct op. Qed.

(** The next packet is [p], behind which the unit is left as [u]. *)
Definition lsu_next (u : lsu_unit) (p : issue_execute_pack_t) (u' : lsu_unit) : Prop :=
  if lsu_busy u then p = hold_rev_pack u /\ u' = u <| lsu_busy := false |>
  else exists l b st f b' st', window (lsu_issue_fifo u) (p :: l) b st /\ window f l b' st' /\
         fifo_pop (lsu_issue_fifo u) = Some (Some p, f) /\ u' = u <| lsu_issue_fifo := f |>.

Lemma lsu_run_next s p u' pack q s' :
  lsu_next (lw_unit s) p u' -> flushes pack = false -> lsu_execute (s <| lw_unit := u' |>) p = Some (q, s') ->
  lsu_run s pack =
    Some (feedback_of q, s' <| lw_unit ::= fun u => u <| lsu_wb_port ::= fun o => port_set o q |> |>).
Proof.
  intros Hn Hf Hx. unfold lsu_run, lsu_take. unfold lsu_next in Hn. rewrite Hf, andb_true_r.
  destruct (lsu_busy (lw_unit s)) eqn:Eb.
  - destruct Hn as [-> ->]. rewrite orb_true_r. cbn [mbind option_bind].
    change (s <| lw_unit ::= _ |>) with (s <| lw_unit := (lw_unit s) <| lsu_busy := false |> |>). by rewrite Hx.
  - destruct Hn as (l & b & st & f & b' & st' & W & _ & Ep & ->).
    rewrite (window_empty W), bool_decide_false by done. cbn [negb orb]. rewrite Ep. cbn [mbind option_bind].
    change (s <| lw_unit ::= _ |>) with (s <| lw_unit := (lw_unit s) <| lsu_issue_fifo := f |> |>). by rewrite Hx.
Qed.

Lemma sign_extend_load op y :
  0 <= y < 2 ^ (8 * load_size op) ->
  match op with
  | LB => sign_extend y 8
  | LH => sign_extend y 16
  | _ => Some y
  end = Some (load_extend op y).
Proof. intros Hy. destruct op; try done; cbn [load_size load_extend] in *; by rewrite sign_extend_spec. Qed.

Lemma lsu_load_value s l b st op p y :
  window (sb_fifo (lw_sb s)) l b st ->
  lsu_read (load_width op) s (ie_lsu_addr p) = Some (y, s) -> 0 <= y < 2 ^ (8 * load_size op) ->
  forall q, lsu_switch (load_ops op).2 s p q = Some (q <| ew_rd_value := load_extend op y |>, s).
Proof.
  intros W Hr Hy q. pose proof (sign_extend_load op y Hy) as He.
  destruct op; cbn [load_ops snd lsu_switch load_width] in *; rewrite Hr; cbn [mbind option_bind];
    rewrite ?He; cbn [mbind option_bind]; done.
Qed.

(** A cycle that ends with [q] in the port, and the unit otherwise [u]. *)
Definition lsu_done (s : lsu_world) (u : lsu_unit) (q : execute_wb_pack_t) : lsu_world :=
  s <| lw_unit := u <| lsu_wb_port ::= fun o => port_set o q |> |>.

(** C10: loads.  The cycle of the load/store unit for an aligned load from
    memory returns, extended as the instruction says, what a load would read
    from the bus after all the buffered stores had been written to it; it
    changes neither the bus nor the store buffer, and broadcasts the value
    when the destination was renamed. *)
Theorem exec_load_correct op d r1 off a p u' s l b st pack :
  let i := LOAD op d r1 off in
  let addr := u32 (a + off) in
  carries i a 0 p -> ie_lsu_addr p = addr -> lsu_next (lw_unit s) p u' -> flushes pack = false ->
  window (sb_fifo (lw_sb s)) l b st -> bus_ok (lw_bus s) -> Forall (memory_store (lw_bus s)) l ->
  memory_access (lw_bus s) (load_width op) addr ->
  exists y bs', drain (lw_bus s) l = Some bs' /\ bus_read (load_width op) bs' addr = Some (y, bs') /\
    lsu_run s pack =
      Some (mk_feedback (ie_rd_enable p && ie_need_rename p) (ie_rd_phy p) (load_extend op y),
            lsu_done s u' (with_result p (load_extend op y))).
Proof.
  intros i addr Hc Haddr Hn Hf W Hok Hl Hacc.
  destruct (bus_read_memory (lw_bus s) (load_width op) addr Hok Hacc) as (x & Hx & _ & _).
  destruct (forwarding_value _ l b st (lw_bus s) (load_width op) addr x W Hok Hl Hacc Hx) as (y & bs' & Hy & Hd & Hr).
  exists y, bs'. split_and!; [done|done|].
  destruct (drain_bytes l (lw_bus s) Hok Hl) as (bs2 & Hd2 & Hok2 & _ & Hacc2). rewrite Hd in Hd2. injection Hd2 as <-.
  destruct (bus_read_memory bs' (load_width op) addr Hok2) as (y2 & Hr2 & Hy2 & _); [by apply Hacc2|].
  rewrite Hr in Hr2. injection Hr2 as <-. rewrite load_width_bytes in Hy2.
  assert (lsu_read (load_width op) (s <| lw_unit := u' |>) (ie_lsu_addr p) = Some (y, s <| lw_unit := u' |>)) as Hread.
  { unfold lsu_read. cbn [lw_bus lw_sb upd]. rewrite Haddr, Hx. cbn [mbind option_bind]. rewrite Hy. cbn [mbind option_bind].
    done. }
  destruct Hc as [He Hv Hnx Hs _ _ _ _ _ _].
  assert (lsu_execute (s <| lw_unit := u' |>) p = Some (with_result p (load_extend op y), s <| lw_unit := u' |>)) as Hexec.
  { unfold lsu_execute. rewrite He, Hv, Hs. cbn [ew_has_exception wb_pack_of andb]. rewrite Hnx. cbn [negb d_sub_op decoded_of i as_lsu].
    cbn [mbind option_bind]. by apply (lsu_load_value _ l b st). }
  rewrite (lsu_run_next s p u' pack _ _ Hn Hf Hexec). unfold feedback_of, lsu_done. cbn. rewrite He, Hv, Hnx. cbn.
  by rewrite andb_true_r.
Qed.

Definition load_demo_pack (o : op_t) (so : lsu_op_t) (addr b : Z) : issue_execute_pack_t := issue_execute_pack_zero
  <| ie_enable := true |> <| ie_valid := true |> <| ie_op := o |> <| ie_op_unit := unit_lsu |>
  <| ie_sub_op := sub_lsu so |> <| ie_rs1 := 1 |> <| ie_rs1_need_map := true |> <| ie_src1_value := addr |>
  <| ie_src2_value := b |> <| ie_lsu_addr := addr |> <| ie_rob_id := 9 |>.

Definition lsu_demo (p : issue_execute_pack_t) : lsu_world :=
  mk_lsu_world
    (mk_lsu_unit (mk_fifo [p; issue_execute_pack_zero] 2 1 false 0 false false 0 false)
       (port_new execute_wb_pack_zero) false issue_execute_pack_zero)
    bus_demo sb_demo.

Lemma lsu_demo_next p : exists u', lsu_next (lw_unit (lsu_demo p)) p u'.
Proof.
  eexists. exists [], 0%nat, false, (mk_fifo [p; issue_execute_pack_zero] 2 1 false 1 false false 0 false), 1%nat, false.
  split_and!; [split; cbn; try done; lia| |reflexivity|reflexivity]. split; cbn; try done; lia.
Qed.

(** [lh] of the two bytes the youngest buffered store wrote. *)
Lemma exec_load_correct_witness :
  exists s', lsu_run (lsu_demo (load_demo_pack op_lh lsu_lh 0x80000004 0)) no_feedback =
    Some (mk_feedback false 0 0xffffbeef, s').
Proof.
  destruct (lsu_demo_next (load_demo_pack op_lh lsu_lh 0x80000004 0)) as [u' Hu].
  destruct (exec_load_correct LH 0 1 0 0x80000004 (load_demo_pack op_lh lsu_lh 0x80000004 0) u'
    (lsu_demo (load_demo_pack op_lh lsu_lh 0x80000004 0)) sb_demo_list 0 false no_feedback) as (y & bs' & H1 & H2 & H3).
  - split; reflexivity.
  - reflexivity.
  - exact Hu.
  - reflexivity.
  - exact sb_demo_window.
  - exact bus_demo_ok.
  - repeat apply Forall_cons_2; try apply Forall_nil_2;
      (split; [split_and!; unfold access_size_ok, is_u32; cbn; lia|]);
      exists 0%nat; eexists _, _; cbn; split_and!; try done; lia.
  - exists 0%nat. eexists _, _. cbn. split_and!; try done; lia.
  - eexists. rewrite H3. vm_compute in H1. injection H1 as <-. vm_compute in H2. injection H2 as <-. reflexivity.
Defined.

(** The entry of the store buffer for a store of [b] to [addr]. *)
Definition store_item (op : store_op) (p : issue_execute_pack_t) (addr b : Z) : store_buffer_item_t :=
  mk_sb_item true false (ie_rob_id p) (ie_pc p) addr (b mod 2 ^ (8 * store_size op)) (store_size op).

Lemma lsu_store_item op s p q b :
  is_u32 b -> ie_src2_value p = b ->
  lsu_switch (store_ops op).2 s p q =
    Some (if fifo_is_full (sb_fifo (lw_sb s)) then
            (q <| ew_enable := false |>,
             s <| lw_unit ::= fun u => u <| lsu_busy := true |> <| hold_rev_pack := p |> |>)
          else (q, s <| lw_sb ::= fun sb => sb_push_sync sb (store_item op p (ie_lsu_addr p) b) |>)).
Proof.
  intros Hb E. unfold store_item. destruct op; cbn [store_ops snd lsu_switch store_size]; rewrite E; unfold lsu_store.
  - change (8 * 1) with 8. by rewrite <- (land_low b 8 ltac:(lia)).
  - change (8 * 2) with 16. by rewrite <- (land_low b 16 ltac:(lia)).
  - change (2 ^ (8 * 4)) with (2 ^ 32). by rewrite Z.mod_small.
Qed.

(** C26: stores.  With room in the store buffer, the cycle for a store requests
    exactly one push, of the low bytes of the register at the computed
    address, not yet committed, and hands the packet on.  With a full buffer
    it sends nothing to write-back and keeps the instruction, which is the
    next one to be taken whatever arrives in the queue, so that no store is
    lost.  The bus is not touched, and the entry is a store the buffer can
    hold when it does not wrap around the address space. *)
Theorem exec_store_correct op r1 r2 off a x p u' s l b st pack :
  let i := STORE op r1 r2 off in
  let addr := u32 (a + off) in
  carries i a x p -> is_u32 x -> ie_lsu_addr p = addr -> lsu_next (lw_unit s) p u' -> flushes pack = false ->
  window (sb_fifo (lw_sb s)) l b st ->
  exists fb s', lsu_run s pack = Some (fb, s') /\ lw_bus s' = lw_bus s /\
    (if decide (length l = length (buffer (sb_fifo (lw_sb s)))) then
       fb_enable fb = false /\ ew_enable (port_get (lsu_wb_port (lw_unit s'))) = false /\ lw_sb s' = lw_sb s /\
       exists u2, lsu_next (lw_unit s') p u2
     else
       port_get (lsu_wb_port (lw_unit s')) = wb_pack_of p /\
       lw_sb s' = sb_push_sync (lw_sb s) (store_item op p addr x)) /\
    (addr + store_size op < 2 ^ 32 -> store_ok (store_item op p addr x)).
Proof.
  intros i addr Hc Hx Haddr Hn Hf W. destruct Hc as [He Hv Hnx Hs _ _ _ _ H2 _].
  assert (lsu_execute (s <| lw_unit := u' |>) p = lsu_switch (store_ops op).2 (s <| lw_unit := u' |>) p (wb_pack_of p)) as Hexec.
  { unfold lsu_execute. rewrite He, Hv, Hs. cbn [ew_has_exception wb_pack_of andb]. by rewrite Hnx. }
  rewrite (lsu_store_item op _ p _ x Hx H2) in Hexec. cbn [lw_sb upd] in Hexec.
  rewrite (window_full W), Haddr in Hexec. pose proof (u32_range (a + off)) as Hr. fold addr in Hr.
  assert (addr + store_size op < 2 ^ 32 -> store_ok (store_item op p addr x)) as Hok.
  { intros Hlt. unfold store_ok, access_size_ok, store_item, is_u32. cbn [sb_size sb_addr sb_data].
    assert (0 <= x mod 2 ^ (8 * store_size op) < 2 ^ (8 * store_size op)) by (by apply mod_pow_range; destruct op).
    destruct op; cbn [store_size] in *; split_and!; lia. }
  destruct (decide (length l = length (buffer (sb_fifo (lw_sb s))))) as [Hfull|Hfull];
    [rewrite bool_decide_true in Hexec by done|rewrite bool_decide_false in Hexec by done];
    rewrite (lsu_run_next s p u' pack _ _ Hn Hf Hexec); eexists _, _; (split; [reflexivity|]); split_and!; try done.
  by eexists; split.
Qed.

Lemma exec_store_correct_witness :
  exists fb s', lsu_run (lsu_demo (load_demo_pack op_sb lsu_sb 0x80000006 0xabcd)) no_feedback = Some (fb, s') /\
    sb_sync_request_q (lw_sb s') =
      [sb_req_pop; sb_req_push (mk_sb_item true false 9 0 0x80000006 0xcd 1)].
Proof.
  destruct (lsu_demo_next (load_demo_pack op_sb lsu_sb 0x80000006 0xabcd)) as [u' Hu].
  destruct (exec_store_correct SB 1 2 0 0x80000006 0xabcd (load_demo_pack op_sb lsu_sb 0x80000006 0xabcd) u'
    (lsu_demo (load_demo_pack op_sb lsu_sb 0x80000006 0xabcd)) sb_demo_list 0 false no_feedback)
    as (fb & s' & H & _ & [_ Hsb] & _).
  - split; reflexivity.
  - unfold is_u32. lia.
  - reflexivity.
  - exact Hu.
  - reflexivity.
  - exact sb_demo_window.
  - exists fb, s'. split; [exact H|]. rewrite Hsb. reflexivity.
Defined.
