(* ===== verification/ExecuteBru.v ===== *)
(** The branch unit [pipeline::execute::bru] ([pipeline/execute/bru.cpp]).

    It decides branches, computes targets and return addresses, and repairs
    the histories of the predictor for a mispredicted branch.  The CSR file
    (for [mret]), the checkpoint buffer and the predictor are shared with the
    rest of the core; only the predictor changes. *)

From Stdlib Require Import ZArith Lia.
From stdpp Require Import base numbers list option tactics gmap.
From S2P Require Import Prelude Common Fifo FifoIds IdQueue Ras Rob CheckpointBuffer CsrFile PipelineCommon Packs Isa Decode BranchPredictor Execute.

Local Open Scope Z_scope.

Definition as_bru (s : sub_op_t) : option bru_op_t :=
  match s with sub_bru op => Some op | sub_none => Some bru_beq | _ => None end.

Definition bru_switch (op : bru_op_t) (csr_file : csrfile) (rev_pack : issue_execute_pack_t)
    (send_pack : execute_wb_pack_t) : option execute_wb_pack_t :=
  let src1 := ie_src1_value rev_pack in
  let src2 := ie_src2_value rev_pack in
  match op with
  | bru_beq => Some (send_pack <| ew_bru_jump := src1 =? src2 |>)
  | bru_bge => Some (send_pack <| ew_bru_jump := s32 src2 <=? s32 src1 |>)
  | bru_bgeu => Some (send_pack <| ew_bru_jump := src2 <=? src1 |>)
  | bru_blt => Some (send_pack <| ew_bru_jump := s32 src1 <? s32 src2 |>)
  | bru_bltu => Some (send_pack <| ew_bru_jump := src1 <? src2 |>)
  | bru_bne => Some (send_pack <| ew_bru_jump := negb (src1 =? src2) |>)
  | bru_jal => Some (send_pack <| ew_rd_value := u32 (ie_pc rev_pack + 4) |> <| ew_bru_jump := true |>)
  | bru_jalr =>
      Some (send_pack <| ew_rd_value := u32 (ie_pc rev_pack + 4) |> <| ew_bru_jump := true |>
              <| ew_bru_next_pc := Z.land (u32 (ie_imm rev_pack + src1)) (not32 0x01) |>)
  | bru_mret =>
      mepc ← csrfile_read_sys csr_file CSR_MEPC;
      Some (send_pack <| ew_bru_jump := true |> <| ew_bru_next_pc := mepc |>)
  end.

(** The packet of the cycle and the predictor after it. *)
Definition bru_execute (csr_file : csrfile) (cpbuf : checkpoint_buffer) (bp : branch_predictor)
    (rev_pack : issue_execute_pack_t) : option (execute_wb_pack_t * branch_predictor) :=
  let send_pack := (wb_pack_of rev_pack) <| ew_bru_next_pc := u32 (ie_pc rev_pack + ie_imm rev_pack) |> in
  send_pack ← (if ie_enable rev_pack && ie_valid rev_pack then
                 op ← as_bru (ie_sub_op rev_pack);
                 bru_switch op csr_file rev_pack send_pack
               else Some send_pack);
  let send_pack := if negb (ew_bru_jump send_pack)
                   then send_pack <| ew_bru_next_pc := u32 (ie_pc rev_pack + 4) |> else send_pack in
  bp ← (if ew_valid send_pack && ew_checkpoint_id_valid send_pack then
          cp_item ← cb_get_item cpbuf (ew_checkpoint_id send_pack);
          update_prediction_bru_guess bp cp_item (ew_pc send_pack) (ew_value send_pack) (ew_bru_jump send_pack)
            (ew_bru_next_pc send_pack) (eqb (ew_predicted_jump send_pack) (ew_bru_jump send_pack))
        else Some bp);
  Some (send_pack, bp).

Definition bru_run (s : exec_unit) (csr_file : csrfile) (cpbuf : checkpoint_buffer) (bp : branch_predictor)
    (commit_feedback_pack : commit_feedback_pack_t)
    : option (execute_feedback_channel_t * exec_unit * branch_predictor) :=
  '(send_pack, f, bp) ←
    (if negb (fifo_is_empty (issue_fifo s)) && negb (flushes commit_feedback_pack) then
       '(rev_pack, f) ← fifo_pop (issue_fifo s);
       rev_pack ← rev_pack;
       '(send_pack, bp) ← bru_execute csr_file cpbuf bp rev_pack;
       Some (send_pack, f, bp)
     else Some (execute_wb_pack_zero, issue_fifo s, bp));
  Some (feedback_of send_pack, mk_exec_unit f (port_set (wb_port s) send_pack), bp).

(** * Correctness *)

(** The value a jump leaves in its destination register. *)
Definition link_value (i : instr) (pc : Z) : Z :=
  match i with JAL _ _ | JALR _ _ _ => u32 (pc + 4) | _ => 0 end.

(** The packet of the branch unit for an outcome. *)
Definition branch_pack (i : instr) (p : issue_execute_pack_t) (jump : bool) (target : Z) : execute_wb_pack_t :=
  (wb_pack_of p) <| ew_rd_value := link_value i (ie_pc p) |> <| ew_bru_jump := jump |> <| ew_bru_next_pc := target |>.

Lemma clear_low_bit x : is_u32 x -> Z.land x (not32 0x01) = 2 * (x / 2).
Proof.
  intros Hx. transitivity (Z.ldiff x (Z.ones 1)).
  - apply Z.bits_inj'. intros i Hi. rewrite Z.land_spec, Z.ldiff_spec.
    destruct (Z.ltb_spec i 32); [by rewrite testbit_not32|]. by rewrite (testbit_high 32 x i).
  - rewrite Z.ldiff_ones_r, Z.shiftl_mul_pow2, Z.shiftr_div_pow2 by lia. change (2 ^ 1) with 2. lia.
Qed.

(** The branch decision and the target, before the predictor is told. *)
Lemma bru_outcome i a b p f mepc jump target :
  carries i a b p -> is_u32 a -> is_u32 b -> csrfile_read_sys f CSR_MEPC = Some mepc ->
  control_target i (ie_pc p) a b mepc = Some (jump, target) ->
  exists op q, as_bru (ie_sub_op p) = Some op /\
    bru_switch op f p ((wb_pack_of p) <| ew_bru_next_pc := u32 (ie_pc p + ie_imm p) |>) = Some q /\
    (if negb (ew_bru_jump q) then q <| ew_bru_next_pc := u32 (ie_pc p + 4) |> else q) = branch_pack i p jump target.
Proof.
  intros [He Hv Hx Hs _ _ Hi H1 H2 _] Ha Hb Hm Ht. rewrite Hs, Hi.
  destruct i as [ | |d off|d r1 off|op r1 r2 off| | | | | | | | | | | | | ]; try done;
    cbn [control_target decoded_of d_sub_op d_imm d_arg1_src d_arg2_src operand] in *.
  - injection Ht as <- <-. eexists _, _. split; [reflexivity|]. split; [reflexivity|]. cbn. unfold branch_pack.
    cbn. by rewrite u32_add_r.
  - injection Ht as <- <-. eexists _, _. split; [reflexivity|]. split; [reflexivity|]. unfold branch_pack. cbn.
    rewrite H1, Hi, (u32_add_l off), (Z.add_comm off), clear_low_bit by (apply u32_range). done.
  - destruct op; cbn [branch_ops snd as_bru branch_taken] in *; eexists _, _; (split; [reflexivity|]);
      cbn [bru_switch]; rewrite H1, H2; (split; [reflexivity|]); cbn [ew_bru_jump upd];
      rewrite u32_add_r; rewrite ?Z.leb_antisym;
      match type of Ht with context [if ?c then _ else _] => destruct c eqn:E end;
      injection Ht as <- <-; rewrite ?E; reflexivity.
  - injection Ht as <- <-. eexists _, _. split; [reflexivity|]. cbn [bru_switch]. rewrite Hm. cbn [mbind option_bind].
    by split.
Qed.

(** C11: the branch unit.  For every conditional branch, JAL, JALR and MRET at
    the head of its queue, the cycle answers with the outcome and the target
    of the instruction set, the return address of a jump included, and
    broadcasts that address when the destination was renamed.  When the
    instruction carries a checkpoint, the predictor is given the outcome
    together with that checkpoint and with whether the predicted direction was
    right; it succeeds on every well-formed predictor and otherwise stays
    unchanged. *)
Theorem exec_bru_correct i a b p f mepc jump target s l bk st cb bp pack :
  carries i a b p -> is_u32 a -> is_u32 b -> csrfile_read_sys f CSR_MEPC = Some mepc ->
  control_target i (ie_pc p) a b mepc = Some (jump, target) ->
  window (issue_fifo s) (p :: l) bk st -> flushes pack = false -> bp_ok bp ->
  (ie_checkpoint_id_valid p = true -> exists cp, cb_get_item cb (ie_checkpoint_id p) = Some cp /\
     history_ok (cp_global_history cp) /\ history_ok (cp_local_history cp)) ->
  exists bp' s' bk' st', bru_run s f cb bp pack =
      Some (mk_feedback (ie_rd_enable p && ie_need_rename p) (ie_rd_phy p) (link_value i (ie_pc p)), s', bp') /\
    port_get (wb_port s') = branch_pack i p jump target /\ window (issue_fifo s') l bk' st' /\ bp_ok bp' /\
    (if ie_checkpoint_id_valid p then
       exists cp, cb_get_item cb (ie_checkpoint_id p) = Some cp /\
         update_prediction_bru_guess bp cp (ie_pc p) (ie_value p) jump target (eqb (ie_predicted_jump p) jump) = Some bp'
     else bp' = bp).
Proof.
  intros Hc Ha Hb Hm Ht W Hf Hbp Hcp.
  destruct (bru_outcome i a b p f mepc jump target Hc Ha Hb Hm Ht) as (op & q & Hop & Hq & Hfin).
  destruct Hc as [He Hv Hx _ _ _ _ _ _ _].
  assert (exists bp', bru_execute f cb bp p = Some (branch_pack i p jump target, bp') /\ bp_ok bp' /\
    (if ie_checkpoint_id_valid p then
       exists cp, cb_get_item cb (ie_checkpoint_id p) = Some cp /\
         update_prediction_bru_guess bp cp (ie_pc p) (ie_value p) jump target (eqb (ie_predicted_jump p) jump) = Some bp'
     else bp' = bp)) as (bp' & Hexec & Hbp' & Hupd).
  { unfold bru_execute. rewrite He, Hv, Hop. cbn [andb mbind option_bind]. rewrite Hq. cbn [mbind option_bind].
    rewrite Hfin. cbn [ew_valid ew_checkpoint_id_valid ew_checkpoint_id ew_pc ew_value ew_bru_jump ew_bru_next_pc
      ew_predicted_jump branch_pack wb_pack_of upd]. rewrite Hv. cbn [andb].
    destruct (ie_checkpoint_id_valid p); [|by exists bp].
    destruct (Hcp eq_refl) as (cp & Ecp & Hg & Hl). rewrite Ecp. cbn [mbind option_bind].
    destruct (bru_guess_ok bp Hbp cp (ie_pc p) (ie_value p) jump target (eqb (ie_predicted_jump p) jump) Hg Hl)
      as (bp' & Eb & Hb'). rewrite Eb. cbn [mbind option_bind]. exists bp'. split_and!; [done|done|]. by exists cp. }
  unfold bru_run. rewrite (window_empty W), bool_decide_false, Hf by done. cbn [negb andb].
  destruct (window_pop W p l eq_refl) as (g & bk' & st' & -> & W' & _). cbn [mbind option_bind]. rewrite Hexec.
  cbn [mbind option_bind].
  exists bp', (mk_exec_unit g (port_set (wb_port s) (branch_pack i p jump target))), bk', st'.
  split; [|by split_and!]. unfold feedback_of. cbn. rewrite He, Hv, Hx. cbn. by rewrite andb_true_r.
Qed.

Definition bru_demo_pack : issue_execute_pack_t := issue_execute_pack_zero
  <| ie_enable := true |> <| ie_valid := true |> <| ie_value := encode (BRANCH BLT 1 2 (-8)) |> <| ie_pc := 0x80000010 |>
  <| ie_imm := u32 (-8) |> <| ie_op := op_blt |> <| ie_op_unit := unit_bru |> <| ie_sub_op := sub_bru bru_blt |>
  <| ie_rs1 := 1 |> <| ie_rs1_need_map := true |> <| ie_src1_value := 0xffffffff |> <| ie_rs2 := 2 |>
  <| ie_src2_value := 3 |> <| ie_checkpoint_id_valid := true |> <| ie_checkpoint_id := 0 |>.

Definition bru_demo_csr : csrfile :=
  mk_csrfile [] {[CSR_MEPC := mk_csr_item false (mk_csr mepc 0x80000100)]} (mk_char_fifos [] []).

Definition bru_demo_cb : checkpoint_buffer :=
  mk_checkpoint_buffer (mk_fifo [cp_demo] 1 0 true 0 false false 0 false) [].

(** A taken branch that was predicted not taken: the history becomes that of
    the checkpoint and the outcome. *)
Lemma exec_bru_correct_witness :
  exists s' bp', bru_run (exec_demo bru_demo_pack) bru_demo_csr bru_demo_cb bp_demo no_feedback =
      Some (mk_feedback false 0 0, s', bp') /\
    ew_bru_jump (port_get (wb_port s')) = true /\ ew_bru_next_pc (port_get (wb_port s')) = 0x80000008 /\
    gshare_global_history bp' = 1.
Proof.
  destruct (exec_bru_correct (BRANCH BLT 1 2 (-8)) 0xffffffff 3 bru_demo_pack bru_demo_csr 0x80000100 true 0x80000008
    (exec_demo bru_demo_pack) [] 1%nat false bru_demo_cb bp_demo no_feedback)
    as (bp' & s' & bk & st & H & Hp & _ & _ & cp & Hcp & Hu).
  - split; reflexivity.
  - unfold is_u32. lia.
  - unfold is_u32. lia.
  - reflexivity.
  - reflexivity.
  - split; cbn; try done; lia.
  - reflexivity.
  - apply bp_new_ok; [apply zeros_ok; reflexivity|reflexivity].
  - intros _. exists cp_demo. split; [reflexivity|]. unfold history_ok. cbn. lia.
  - exists s', bp'. split; [exact H|]. rewrite Hp. split; [reflexivity|]. split; [reflexivity|].
    injection Hcp as <-.
    assert (gshare_global_history <$> Some bp' = Some 1) as H1 by (rewrite <- Hu; vm_compute; reflexivity).
    injection H1 as ->. reflexivity.
Defined.
