(* ===== verification/WriteBack.v ===== *)
(** The write-back stage [pipeline::wb] of [pipeline/wb.cpp].

    Each cycle it takes the packet of every execution unit from its port,
    passes it to commit, and for a finished instruction with a renamed
    destination writes the register file (deferred to the end of the cycle)
    and broadcasts the value to register read and issue. *)

From Stdlib Require Import ZArith Lia.
From stdpp Require Import base numbers list option tactics.
From S2P Require Import Prelude Common Bitmap CheckpointBuffer Rat Regfile PipelineCommon Packs Fifo Execute.

Local Open Scope Z_scope.

Record wb_feedback_channel_t := mk_wb_feedback {
  wf_enable : bool;
  wf_phy_id : Z;
  wf_value : Z
}.

Definition wb_feedback_channel_zero : wb_feedback_channel_t := mk_wb_feedback false 0 0.

Definition wb_feedback_pack_t : Type := list wb_feedback_channel_t.
Definition wb_feedback_pack_zero : wb_feedback_pack_t :=
  repeat wb_feedback_channel_zero (Z.to_nat EXECUTE_UNIT_NUM).

(** [init]: the ports of all units, in this order. *)
Definition wb_init (alu_wb_port bru_wb_port csr_wb_port div_wb_port lsu_wb_port mul_wb_port
    : list (port execute_wb_pack_t)) : list (port execute_wb_pack_t) :=
  alu_wb_port ++ bru_wb_port ++ csr_wb_port ++ div_wb_port ++ lsu_wb_port ++ mul_wb_port.

(** The ports are only read. *)
Record wb_world := mk_wb_world {
  wb_commit_port : port wb_commit_pack_t;
  wb_phy_regfile : regfile phy_regfile_item_t
}.

#[export] Instance wb_world_eta : Eta wb_world := fun s => mk_wb_world (wb_commit_port s) (wb_phy_regfile s).

Definition wb_writes (rev_pack : execute_wb_pack_t) : bool :=
  ew_enable rev_pack && ew_valid rev_pack && negb (ew_has_exception rev_pack) && ew_rd_enable rev_pack &&
  ew_need_rename rev_pack.

(** The loop over the ports; [i] is its index. *)
Fixpoint wb_loop (execute_wb_port : list (port execute_wb_pack_t)) (i : Z) (send_pack : wb_commit_pack_t)
    (feedback_pack : wb_feedback_pack_t) (phy_regfile : regfile phy_regfile_item_t)
    : option (wb_commit_pack_t * wb_feedback_pack_t * regfile phy_regfile_item_t) :=
  match execute_wb_port with
  | [] => Some (send_pack, feedback_pack, phy_regfile)
  | p :: execute_wb_port =>
      let rev_pack := port_get p in
      send_pack ← arr_set send_pack i (commit_op_of rev_pack);
      '(feedback_pack, phy_regfile) ←
        (if wb_writes rev_pack then
           let t_item := mk_phy_regfile_item (ew_rd_value rev_pack) in
           let phy_regfile := regfile_write_sync phy_regfile (ew_rd_phy rev_pack) t_item true in
           feedback_pack ← arr_set feedback_pack i (mk_wb_feedback true (ew_rd_phy rev_pack) (ew_rd_value rev_pack));
           Some (feedback_pack, phy_regfile)
         else Some (feedback_pack, phy_regfile));
      wb_loop execute_wb_port (i + 1) send_pack feedback_pack phy_regfile
  end.

Definition wb_run (execute_wb_port : list (port execute_wb_pack_t)) (s : wb_world)
    (commit_feedback_pack : commit_feedback_pack_t) : option (wb_feedback_pack_t * wb_world) :=
  '(send_pack, feedback_pack, phy_regfile) ←
    (if negb (cf_enable commit_feedback_pack && cf_flush commit_feedback_pack)
     then wb_loop execute_wb_port 0 wb_commit_pack_zero wb_feedback_pack_zero (wb_phy_regfile s)
     else Some (wb_commit_pack_zero, wb_feedback_pack_zero, wb_phy_regfile s));
  Some (feedback_pack, mk_wb_world (port_set (wb_commit_port s) send_pack) phy_regfile).

(** * Properties *)

(** The writes, and the channel, of one packet. *)
Definition wb_requests (p : execute_wb_pack_t) : list (Z * phy_regfile_item_t * bool) :=
  if wb_writes p then [(ew_rd_phy p, mk_phy_regfile_item (ew_rd_value p), true)] else [].

Definition wb_channel (p : execute_wb_pack_t) : wb_feedback_channel_t :=
  if wb_writes p then mk_wb_feedback true (ew_rd_phy p) (ew_rd_value p) else wb_feedback_channel_zero.

Definition rf_writes (ws : list (Z * phy_regfile_item_t * bool)) : list (regfile_sync_request phy_regfile_item_t) :=
  (fun w => rf_req_write w.1.1 w.1.2 w.2) <$> ws.

Definition rf_add (f : regfile phy_regfile_item_t) (ws : list (Z * phy_regfile_item_t * bool))
    : regfile phy_regfile_item_t :=
  f <| rf_sync_request_q ::= fun l => l ++ rf_writes ws |>.

Lemma rf_add_nil f : rf_add f [] = f.
Proof. destruct f. unfold rf_add, rf_writes, upd. cbn. by rewrite app_nil_r. Qed.

Lemma rf_add_app f ws ws' : rf_add (rf_add f ws) ws' = rf_add f (ws ++ ws').
Proof. destruct f. unfold rf_add, rf_writes, upd. cbn. by rewrite fmap_app, app_assoc. Qed.

Lemma wb_loop_spec (ps done : list execute_wb_pack_t) (ports : list (port execute_wb_pack_t)) f :
  port_get <$> ports = ps ->
  wb_loop ports (Z.of_nat (length done))
    ((commit_op_of <$> done) ++ repeat wb_commit_op_info_zero (length ps))
    ((wb_channel <$> done) ++ repeat wb_feedback_channel_zero (length ps)) f =
  Some (commit_op_of <$> done ++ ps, wb_channel <$> done ++ ps, rf_add f (ps ≫= wb_requests)).
Proof.
  revert done ports f. induction ps as [|p ps IH]; intros done [|q ports] f Hp; try discriminate Hp.
  - cbn. by rewrite !app_nil_r, rf_add_nil.
  - cbn in Hp. injection Hp as Hq Hps. cbn [wb_loop length repeat]. rewrite Hq.
    replace (Z.of_nat (length done)) with (Z.of_nat (length (commit_op_of <$> done))) at 1 by (by rewrite length_fmap).
    rewrite arr_set_middle. cbn [mbind option_bind].
    specialize (IH (done ++ [p]) ports). rewrite length_app, Nat2Z.inj_add in IH. cbn [length Z.of_nat] in IH.
    rewrite !fmap_app, <- !app_assoc in IH. cbn [fmap list_fmap app] in IH. unfold wb_channel at 2 in IH.
    cbn [mbind list_bind]. unfold wb_requests at 1. destruct (wb_writes p).
    + replace (Z.of_nat (length done)) with (Z.of_nat (length (wb_channel <$> done))) at 1 by (by rewrite length_fmap).
      rewrite arr_set_middle. cbn [mbind option_bind]. rewrite (IH _ Hps).
      change (regfile_write_sync f _ _ true)
        with (rf_add f [(ew_rd_phy p, mk_phy_regfile_item (ew_rd_value p), true)]).
      by rewrite rf_add_app, !fmap_app.
    + cbn [mbind option_bind]. rewrite (IH _ Hps). by rewrite !fmap_app.
Qed.

Lemma wb_run_spec ports s c :
  length ports = Z.to_nat EXECUTE_UNIT_NUM -> flushes c = false ->
  wb_run ports s c =
    Some (wb_channel ∘ port_get <$> ports,
          mk_wb_world (port_set (wb_commit_port s) (commit_op_of ∘ port_get <$> ports))
            (rf_add (wb_phy_regfile s) ((port_get <$> ports) ≫= wb_requests))).
Proof.
  intros Hl Hc. unfold wb_run. unfold flushes in Hc. rewrite Hc. cbn [negb].
  pose proof (wb_loop_spec (port_get <$> ports) [] ports (wb_phy_regfile s) eq_refl) as E.
  rewrite length_fmap, Hl in E. cbn [app fmap list_fmap length Z.of_nat] in E.
  change (fmap commit_op_of []) with (@nil wb_commit_op_info_t) in E.
  change (fmap wb_channel []) with (@nil wb_feedback_channel_t) in E. cbn [app] in E.
  change (Z.of_nat 0) with 0 in E. unfold wb_commit_pack_zero, wb_feedback_pack_zero. rewrite E. cbn [mbind option_bind].
  by rewrite !list_fmap_compose.
Qed.

Lemma wb_requests_none a ps :
  (forall p, p ∈ ps -> wb_writes p = true -> ew_rd_phy p <> a) ->
  Forall (fun w => w.1.1 <> a) (ps ≫= wb_requests).
Proof.
  intros H. apply list.Forall_forall. intros w Hw. apply list_elem_of_bind in Hw as (p & Hw & Hp).
  unfold wb_requests in Hw. destruct (wb_writes p) eqn:E; [|by apply not_elem_of_nil in Hw].
  apply list_elem_of_singleton in Hw as ->. cbn. by apply H.
Qed.

Section after_sync.
Context (s : wb_world) (ps : list execute_wb_pack_t) (ws : list (Z * phy_regfile_item_t * bool)).
Context (Hok : regfile_ok (wb_phy_regfile s)) (Hq : rf_sync_request_q (wb_phy_regfile s) = rf_writes ws).
Context (Hws : Forall (fun w => 0 <= w.1.1 < rf_size (wb_phy_regfile s)) ws).
Context (Hps : Forall (fun p => wb_writes p = true -> 0 <= ew_rd_phy p < rf_size (wb_phy_regfile s)) ps).

(** The register file at the end of the cycle: first the writes [ws] that were
    pending, then those of the units. *)
Lemma wb_synced_view :
  exists f', regfile_sync (rf_add (wb_phy_regfile s) (ps ≫= wb_requests)) = Some f' /\ regfile_ok f' /\
    rf_size f' = rf_size (wb_phy_regfile s) /\
    forall a, 0 <= a < rf_size (wb_phy_regfile s) ->
      regfile_view f' a =
      last_write a (ps ≫= wb_requests) (last_write a ws (regfile_view (wb_phy_regfile s) a)).
Proof.
  destruct (regfile_sync_loop_spec (ws ++ (ps ≫= wb_requests)) (rf_add (wb_phy_regfile s) (ps ≫= wb_requests)))
    as (f' & E & Hok' & Hs & _ & Hv).
  - exact Hok.
  - apply Forall_app. split; [exact Hws|]. apply list.Forall_forall. intros w Hw.
    apply list_elem_of_bind in Hw as (p & Hw & Hp). unfold wb_requests in Hw.
    destruct (wb_writes p) eqn:Ew; [|by apply not_elem_of_nil in Hw].
    apply list_elem_of_singleton in Hw as ->. rewrite list.Forall_forall in Hps. exact (Hps p Hp Ew).
  - unfold rf_add, upd. cbn. rewrite Hq. unfold rf_writes. by rewrite fmap_app.
  - exists f'. split_and!; [|done|exact Hs|].
    + unfold regfile_sync. rewrite <- E. f_equal. unfold rf_add, upd. cbn. rewrite Hq. unfold rf_writes.
      by rewrite fmap_app.
    + intros a Ha. rewrite Hv by exact Ha. by rewrite last_write_app.
Qed.

End after_sync.

(** * What write-back has to do

    Stated on the packets alone, without the definitions of the stage. *)

(** An instruction that has a result for a physical register. *)
Record delivers (p : execute_wb_pack_t) : Prop := {
  del_enable : ew_enable p = true;
  del_valid : ew_valid p = true;
  del_no_exception : ew_has_exception p = false;
  del_rd_enable : ew_rd_enable p = true;
  del_need_rename : ew_need_rename p = true
}.

Lemma wb_writes_delivers p : wb_writes p = true <-> delivers p.
Proof.
  unfold wb_writes. split.
  - intros H. repeat apply andb_true_iff in H as [H ?]. by split; try apply negb_true_iff.
  - by intros [-> -> -> -> ->].
Qed.

(** The packet of the unit, from the one commit gets. *)
Definition unit_pack (o : wb_commit_op_info_t) : execute_wb_pack_t :=
  {| ew_enable := wc_enable o; ew_value := wc_value o; ew_valid := wc_valid o; ew_rob_id := wc_rob_id o;
     ew_pc := wc_pc o; ew_imm := wc_imm o; ew_has_exception := wc_has_exception o;
     ew_exception_id := wc_exception_id o; ew_exception_value := wc_exception_value o;
     ew_predicted := wc_predicted o; ew_predicted_jump := wc_predicted_jump o;
     ew_predicted_next_pc := wc_predicted_next_pc o; ew_checkpoint_id_valid := wc_checkpoint_id_valid o;
     ew_checkpoint_id := wc_checkpoint_id o; ew_bru_jump := wc_bru_jump o; ew_bru_next_pc := wc_bru_next_pc o;
     ew_rs1 := wc_rs1 o; ew_arg1_src := wc_arg1_src o; ew_rs1_need_map := wc_rs1_need_map o;
     ew_rs1_phy := wc_rs1_phy o; ew_src1_value := wc_src1_value o; ew_src1_loaded := wc_src1_loaded o;
     ew_rs2 := wc_rs2 o; ew_arg2_src := wc_arg2_src o; ew_rs2_need_map := wc_rs2_need_map o;
     ew_rs2_phy := wc_rs2_phy o; ew_src2_value := wc_src2_value o; ew_src2_loaded := wc_src2_loaded o;
     ew_rd := wc_rd o; ew_rd_enable := wc_rd_enable o; ew_need_rename := wc_need_rename o;
     ew_rd_phy := wc_rd_phy o; ew_rd_value := wc_rd_value o; ew_csr := wc_csr o;
     ew_csr_newvalue := wc_csr_newvalue o; ew_csr_newvalue_valid := wc_csr_newvalue_valid o; ew_op := wc_op o;
     ew_op_unit := wc_op_unit o; ew_sub_op := wc_sub_op o |}.

Lemma unit_packs_commit_op (ps : list execute_wb_pack_t) : unit_pack <$> (commit_op_of <$> ps) = ps.
Proof. induction ps as [|[] ps IH]; [done|]. cbn [fmap list_fmap] in *. by rewrite IH. Qed.

(** The last of the units that deliver to their destination. *)
Definition last_delivery (ps : list execute_wb_pack_t) (i : nat) (p : execute_wb_pack_t) : Prop :=
  ps !! i = Some p /\ delivers p /\
  (forall j q, (i < j)%nat -> ps !! j = Some q -> delivers q -> ew_rd_phy q <> ew_rd_phy p).

Lemma last_delivery_view ps i p old :
  last_delivery ps i p ->
  last_write (ew_rd_phy p) (ps ≫= wb_requests) old = Some (mk_phy_regfile_item (ew_rd_value p), true).
Proof.
  intros (Hi & Hd & Hu). rewrite <- (take_drop_middle ps i p Hi) at 1.
  rewrite bind_app, last_write_app. cbn [mbind list_bind]. unfold wb_requests at 1. rewrite (proj2 (wb_writes_delivers p) Hd).
  cbn [app last_write]. rewrite decide_True by done. apply last_write_other, wb_requests_none.
  intros q [j Hj]%list_elem_of_lookup Hq%wb_writes_delivers. rewrite lookup_drop in Hj. eapply Hu; [|exact Hj|exact Hq]. lia.
Qed.

(** The unit [i] is the only one that delivers to its destination. *)
Definition sole_writer (ps : list execute_wb_pack_t) (i : nat) (p : execute_wb_pack_t) : Prop :=
  ps !! i = Some p /\ wb_writes p = true /\
  (forall j q, ps !! j = Some q -> wb_writes q = true -> ew_rd_phy q = ew_rd_phy p -> j = i).

Lemma sole_writer_view ps i p old :
  sole_writer ps i p ->
  last_write (ew_rd_phy p) (ps ≫= wb_requests) old = Some (mk_phy_regfile_item (ew_rd_value p), true).
Proof.
  intros (Hi & Hw%wb_writes_delivers & Hu). apply (last_delivery_view ps i). split_and!; [done|done|].
  intros j q Hlt Hj Hq%wb_writes_delivers E. specialize (Hu j q Hj Hq E). lia.
Qed.

(** What is broadcast for a packet. *)
Definition announces (p : execute_wb_pack_t) (ch : wb_feedback_channel_t) : Prop :=
  (delivers p /\ ch = mk_wb_feedback true (ew_rd_phy p) (ew_rd_value p)) \/ (~ delivers p /\ ch = mk_wb_feedback false 0 0).

Lemma wb_channel_announces p : announces p (wb_channel p).
Proof.
  unfold wb_channel, announces. destruct (wb_writes p) eqn:E.
  - left. split; [by apply wb_writes_delivers|done].
  - right. split; [|done]. intros H%wb_writes_delivers. congruence.
Qed.

Lemma wb_channels_announce (ps : list execute_wb_pack_t) : Forall2 announces ps (wb_channel <$> ps).
Proof. induction ps as [|p ps IH]; constructor; [apply wb_channel_announces|done]. Qed.

(** C16: write-back.  In a cycle without a flush commit gets the packet of every
    unit, in the order of the units and with nothing lost (each is recovered from
    what commit gets); the channel of a unit announces its destination and value
    exactly when the packet is a valid instruction without exception that has a
    renamed destination, and is silent otherwise; at the end of the cycle every
    register to which such instructions deliver holds, valid, the result of the last
    of them, and every other register (that of an instruction with an exception
    included) is as the writes already pending leave it.  In a cycle with a flush
    nothing is passed on, nothing announced and nothing written. *)
Theorem wb_run_correct ports s c ws :
  let ps := port_get <$> ports in
  length ports = Z.to_nat EXECUTE_UNIT_NUM ->
  regfile_ok (wb_phy_regfile s) -> rf_sync_request_q (wb_phy_regfile s) = rf_writes ws ->
  Forall (fun w => 0 <= w.1.1 < rf_size (wb_phy_regfile s)) ws ->
  Forall (fun p => delivers p -> 0 <= ew_rd_phy p < rf_size (wb_phy_regfile s)) ps ->
  if flushes c
  then exists s', wb_run ports s c = Some (repeat (mk_wb_feedback false 0 0) (Z.to_nat EXECUTE_UNIT_NUM), s') /\
    length (port_get (wb_commit_port s')) = Z.to_nat EXECUTE_UNIT_NUM /\
    Forall (fun o => wc_enable o = false) (port_get (wb_commit_port s')) /\ wb_phy_regfile s' = wb_phy_regfile s
  else exists wfs s' f',
    wb_run ports s c = Some (wfs, s') /\ Forall2 announces ps wfs /\
    unit_pack <$> port_get (wb_commit_port s') = ps /\
    regfile_sync (wb_phy_regfile s') = Some f' /\ regfile_ok f' /\
    (forall i p, last_delivery ps i p ->
       regfile_view f' (ew_rd_phy p) = Some (mk_phy_regfile_item (ew_rd_value p), true)) /\
    (forall a, 0 <= a < rf_size (wb_phy_regfile s) -> (forall p, p ∈ ps -> delivers p -> ew_rd_phy p <> a) ->
       regfile_view f' a = last_write a ws (regfile_view (wb_phy_regfile s) a)).
Proof.
  intros ps Hl Hok Hq Hws Hps. destruct (flushes c) eqn:Hc.
  - unfold wb_run. unfold flushes in Hc. rewrite Hc. eexists. split; [reflexivity|]. cbn. split_and!; [done|by repeat constructor|done].
  - rewrite (wb_run_spec _ _ _ Hl Hc).
    destruct (wb_synced_view s ps ws Hok Hq Hws) as (f' & E & Hok' & _ & Hv).
    { apply (list.Forall_impl _ _ _ Hps). intros p H Hp%wb_writes_delivers. by apply H. }
    rewrite !list_fmap_compose. fold ps. eexists _, _, f'. split; [reflexivity|]. split_and!.
    + apply wb_channels_announce.
    + apply unit_packs_commit_op.
    + exact E.
    + done.
    + intros i p Hp. pose proof Hp as (Hi & Hd & _). rewrite list.Forall_forall in Hps.
      rewrite Hv by (apply Hps; [by eapply list_elem_of_lookup_2|done]). by eapply last_delivery_view.
    + intros a Ha Hn. rewrite Hv by done. apply last_write_other, wb_requests_none.
      intros p Hp Hw%wb_writes_delivers. by apply Hn.
Qed.

(** A cycle in which the first ALU delivers 7 to physical register 40 and the
    load/store unit 9 to 41, while register 5 is being invalidated. *)
Definition wb_demo_pack (rd_phy value : Z) : execute_wb_pack_t :=
  execute_wb_pack_zero <| ew_enable := true |> <| ew_valid := true |> <| ew_rd_enable := true |>
    <| ew_need_rename := true |> <| ew_rd := 1 |> <| ew_rd_phy := rd_phy |> <| ew_rd_value := value |>.

Definition wb_demo_ports : list (port execute_wb_pack_t) :=
  let idle := port_new execute_wb_pack_zero in
  let holding p := port_set idle p in
  wb_init [holding (wb_demo_pack 40 7); idle] [idle] [idle] [idle] [holding (wb_demo_pack 41 9)] [idle; idle].

Definition wb_demo_world : wb_world :=
  mk_wb_world (port_new wb_commit_pack_zero)
    (rf_add (regfile_new (mk_phy_regfile_item 0) PHY_REG_NUM) [(5, mk_phy_regfile_item 0, false)]).

Lemma wb_demo_ok : regfile_ok (wb_phy_regfile wb_demo_world).
Proof. split_and!; [done|reflexivity|]. apply (bitmap_zero 128 0). lia. Qed.

Lemma wb_demo_sole : sole_writer (port_get <$> wb_demo_ports) 0 (wb_demo_pack 40 7).
Proof.
  split_and!; [reflexivity|reflexivity|]. intros j q Hj Hw E.
  do 8 (destruct j as [|j]; [by injection Hj as <-|]). discriminate Hj.
Qed.

(** With an instruction that has an exception in place of the second one. *)
Definition wb_fault_ports : list (port execute_wb_pack_t) :=
  let idle := port_new execute_wb_pack_zero in
  let holding p := port_set idle p in
  wb_init [holding (wb_demo_pack 40 7); idle] [idle] [idle] [idle]
    [holding ((wb_demo_pack 41 9) <| ew_has_exception := true |>)] [idle; idle].

Lemma wb_run_correct_witness :
  exists wfs s' f', wb_run wb_fault_ports wb_demo_world commit_feedback_zero = Some (wfs, s') /\
    Forall2 announces (port_get <$> wb_fault_ports) wfs /\
    regfile_sync (wb_phy_regfile s') = Some f' /\ regfile_view f' 40 = Some (mk_phy_regfile_item 7, true) /\
    regfile_view f' 41 = regfile_view (wb_phy_regfile wb_demo_world) 41.
Proof.
  destruct (wb_run_correct wb_fault_ports wb_demo_world commit_feedback_zero [(5, mk_phy_regfile_item 0, false)])
    as (wfs & s' & f' & H1 & H2 & _ & H3 & _ & H4 & H5).
  - reflexivity.
  - exact wb_demo_ok.
  - reflexivity.
  - repeat constructor; cbn; lia.
  - repeat (apply Forall_cons_2; [vm_compute; intros; split; congruence|]). apply Forall_nil_2.
  - exists wfs, s', f'. split; [exact H1|]. split; [exact H2|]. split; [exact H3|]. split.
    + apply (H4 0%nat (wb_demo_pack 40 7)). split_and!; [reflexivity|by split|].
      intros j q Hlt Hj Hq. do 8 (destruct j as [|j]; [first [lia|injection Hj as <-; by destruct Hq]|]). discriminate Hj.
    + apply (H5 41); [by split; vm_compute|]. intros p Hp Hd. apply list_elem_of_lookup in Hp as [j Hj].
      do 8 (destruct j as [|j]; [injection Hj as <-; by destruct Hd|]). discriminate Hj.
Defined.
