(* ===== verification/ReadReg.v ===== *)
(** The register read stage [pipeline::readreg] of [pipeline/readreg.cpp].

    For each instruction of the group the two operands are looked up: in the
    register file when the data there is valid, otherwise among the results
    the execution units and write-back broadcast in this cycle; an operand
    found in neither place is left for the issue stage to wait for. *)

From Stdlib Require Import ZArith Lia.
From stdpp Require Import base numbers list option tactics.
From S2P Require Import Prelude Common Bitmap CheckpointBuffer Rat Regfile PipelineCommon Packs Fifo Execute WriteBack.

Local Open Scope Z_scope.

(** What a lookup stores to [srcN_value] and [srcN_loaded]. *)
Definition operand_t : Type := Z * bool.

(** The loop over the channels, from the index [j] on. *)
Fixpoint bypass_loop (n : nat) (j phy : Z) (execute_feedback_pack : list execute_feedback_channel_t)
    (wb_feedback_pack : wb_feedback_pack_t) (src : operand_t) : option operand_t :=
  match n with
  | O => Some src
  | S n =>
      e ← arr_get execute_feedback_pack j;
      if fb_enable e && (phy =? fb_phy_id e) then Some (fb_value e, true)
      else
        w ← arr_get wb_feedback_pack j;
        if wf_enable w && (phy =? wf_phy_id w) then Some (wf_value w, true)
        else bypass_loop n (j + 1) phy execute_feedback_pack wb_feedback_pack src
  end.

(** One operand; [src] is what [send_pack] held before. *)
Definition read_operand (phy_regfile : regfile phy_regfile_item_t)
    (execute_feedback_pack : list execute_feedback_channel_t) (wb_feedback_pack : wb_feedback_pack_t)
    (need_map : bool) (phy : Z) (arg_src : arg_src_t) (imm : Z) (src : operand_t) : option operand_t :=
  if need_map then
    reg_item ← regfile_read phy_regfile phy;
    reg_data_valid ← regfile_read_data_valid phy_regfile phy;
    if (reg_data_valid : bool) then Some (pri_value reg_item, true)
    else bypass_loop (Z.to_nat EXECUTE_UNIT_NUM) 0 phy execute_feedback_pack wb_feedback_pack src
  else if decide (arg_src = src_imm) then Some (imm, true)
  else Some (0, true).

(** The body of the second loop, on the slot the first loop has filled. *)
Definition readreg_slot (phy_regfile : regfile phy_regfile_item_t)
    (execute_feedback_pack : list execute_feedback_channel_t) (wb_feedback_pack : wb_feedback_pack_t)
    (rev : rename_readreg_op_info_t) : option readreg_issue_op_info_t :=
  let send := readreg_op_of rev in
  if rr_enable rev && rr_valid rev then
    src1 ← read_operand phy_regfile execute_feedback_pack wb_feedback_pack (rr_rs1_need_map rev) (rr_rs1_phy rev)
             (rr_arg1_src rev) (rr_imm rev) (ri_src1_value send, ri_src1_loaded send);
    let send := send <| ri_src1_value := src1.1 |> <| ri_src1_loaded := src1.2 |> in
    src2 ← read_operand phy_regfile execute_feedback_pack wb_feedback_pack (rr_rs2_need_map rev) (rr_rs2_phy rev)
             (rr_arg2_src rev) (rr_imm rev) (ri_src2_value send, ri_src2_loaded send);
    Some (send <| ri_src2_value := src2.1 |> <| ri_src2_loaded := src2.2 |>)
  else Some (send <| ri_src1_loaded := true |> <| ri_src2_loaded := true |>).

Fixpoint readreg_slots (phy_regfile : regfile phy_regfile_item_t)
    (execute_feedback_pack : list execute_feedback_channel_t) (wb_feedback_pack : wb_feedback_pack_t)
    (revs : rename_readreg_pack_t) : option readreg_issue_pack_t :=
  match revs with
  | [] => Some []
  | rev :: revs =>
      send ← readreg_slot phy_regfile execute_feedback_pack wb_feedback_pack rev;
      sends ← readreg_slots phy_regfile execute_feedback_pack wb_feedback_pack revs;
      Some (send :: sends)
  end.

(** [stall] is [issue_pack.stall]; the new value of [readreg_issue_port]. *)
Definition readreg_run (rename_readreg_port : port rename_readreg_pack_t)
    (readreg_issue_port : port readreg_issue_pack_t) (phy_regfile : regfile phy_regfile_item_t)
    (stall : bool) (execute_feedback_pack : list execute_feedback_channel_t) (wb_feedback_pack : wb_feedback_pack_t)
    (commit_feedback_pack : commit_feedback_pack_t) : option (port readreg_issue_pack_t) :=
  if negb (cf_enable commit_feedback_pack && cf_flush commit_feedback_pack) then
    if negb stall then
      let rev_pack := port_get rename_readreg_port in
      send_pack ← readreg_slots phy_regfile execute_feedback_pack wb_feedback_pack rev_pack;
      Some (port_set readreg_issue_port send_pack)
    else Some readreg_issue_port
  else Some (port_set readreg_issue_port readreg_issue_pack_zero).

(** * Properties *)

Definition broadcasts (phy : Z) (e : execute_feedback_channel_t) : bool := fb_enable e && (phy =? fb_phy_id e).
Definition wb_broadcasts (phy : Z) (w : wb_feedback_channel_t) : bool := wf_enable w && (phy =? wf_phy_id w).

(** What the lookup should give: the data the register file has when all
    writes of the cycle are in, else the result a unit has just computed. *)
Definition operand_after (view : option (phy_regfile_item_t * bool)) (efs : list execute_feedback_channel_t)
    (phy : Z) : operand_t :=
  match view with
  | Some (it, true) => (pri_value it, true)
  | _ => match List.find (broadcasts phy) efs with
         | Some e => (fb_value e, true)
         | None => (0, false)
         end
  end.

Lemma bypass_loop_spec n j phy efs wfs src es ws :
  drop (Z.to_nat j) efs = es -> drop (Z.to_nat j) wfs = ws -> 0 <= j -> length es = n -> length ws = n ->
  bypass_loop n j phy efs wfs src =
  Some (match List.find (fun ew => broadcasts phy ew.1 || wb_broadcasts phy ew.2) (zip es ws) with
        | Some (e, w) => (if broadcasts phy e then fb_value e else wf_value w, true)
        | None => src
        end).
Proof.
  revert j es ws. induction n as [|n IH]; intros j [|e es] [|w ws] He Hw Hj Hle Hlw; try discriminate; [done|].
  assert (efs !! Z.to_nat j = Some e) as Ee by (by rewrite <- (Nat.add_0_r (Z.to_nat j)), <- lookup_drop, He).
  assert (wfs !! Z.to_nat j = Some w) as Ew by (by rewrite <- (Nat.add_0_r (Z.to_nat j)), <- lookup_drop, Hw).
  cbn [bypass_loop zip zip_with List.find fst snd]. rewrite !arr_get_lookup by done. rewrite Ee. cbn [mbind option_bind].
  change (fb_enable e && (phy =? fb_phy_id e)) with (broadcasts phy e).
  destruct (broadcasts phy e) eqn:Eb; cbn [orb]; [by rewrite Eb|]. rewrite Ew. cbn [mbind option_bind].
  change (wf_enable w && (phy =? wf_phy_id w)) with (wb_broadcasts phy w).
  destruct (wb_broadcasts phy w); [by rewrite Eb|].
  apply IH; [| |lia|by injection Hle|by injection Hlw]; rewrite Z2Nat.inj_add, <- drop_drop by lia; by rewrite ?He, ?Hw.
Qed.

Lemma wb_broadcasts_channel a p : wb_broadcasts a (wb_channel p) = wb_writes p && (a =? ew_rd_phy p).
Proof. unfold wb_channel, wb_broadcasts. by destruct (wb_writes p). Qed.

(** The result of the loop, from the channels of the units and the packets
    write-back has taken. *)
Definition bypass_result (a : Z) (es : list execute_feedback_channel_t) (ws : wb_feedback_pack_t) (src : operand_t) : operand_t :=
  match List.find (fun ew => broadcasts a ew.1 || wb_broadcasts a ew.2) (zip es ws) with
  | Some (e, w) => (if broadcasts a e then fb_value e else wf_value w, true)
  | None => src
  end.

Lemma bypass_units a es ws src :
  length es = length ws -> Forall (fun w => wb_broadcasts a w = false) ws ->
  bypass_result a es ws src =
    match List.find (broadcasts a) es with Some e => (fb_value e, true) | None => src end.
Proof.
  unfold bypass_result. revert ws. induction es as [|e es IH]; intros [|w ws] Hl Hw; try discriminate; [done|].
  apply Forall_cons_iff in Hw as [Hw Hws]. cbn [zip zip_with List.find fst snd]. rewrite Hw, orb_false_r.
  destruct (broadcasts a e) eqn:E; [by rewrite E|]. apply IH; [by injection Hl|done].
Qed.

Lemma bypass_writer a es ws src v :
  length es = length ws -> Forall (fun e => broadcasts a e = false) es ->
  Exists (fun w => wb_broadcasts a w = true) ws ->
  (forall w, w ∈ ws -> wb_broadcasts a w = true -> wf_value w = v) ->
  bypass_result a es ws src = (v, true).
Proof.
  unfold bypass_result. revert ws. induction es as [|e es IH]; intros [|w ws] Hl He Hx Hv; try discriminate.
  { by apply Exists_nil in Hx. }
  apply Forall_cons_iff in He as [He Hes]. cbn [zip zip_with List.find fst snd]. rewrite He. cbn [orb].
  destruct (wb_broadcasts a w) eqn:E.
  - rewrite He. f_equal. apply Hv; [left|done].
  - apply IH; [by injection Hl|done| |].
    + apply Exists_cons in Hx as [Hx|Hx]; [by rewrite E in Hx|done].
    + intros w' Hw'. apply Hv. by right.
Qed.

Lemma regfile_view_some (f : regfile phy_regfile_item_t) a :
  regfile_ok f -> 0 <= a < rf_size f -> exists it b,
    regfile_read f a = Some it /\ regfile_read_data_valid f a = Some b /\ regfile_view f a = Some (it, b).
Proof.
  intros (_ & Hl & Hb) Ha. unfold regfile_view, regfile_read, regfile_read_data_valid.
  destruct (Z.ltb_spec a (rf_size f)); [|lia]. cbn. rewrite (bitmap_get_bit _ _ Hb) by lia.
  rewrite arr_get_lookup by lia.
  destruct (lookup_lt_is_Some_2 (reg_data f) (Z.to_nat a)) as [it E]; [lia|]. rewrite E. cbn. eauto.
Qed.

(** Register [a] has one producer: if a unit delivers to it, then no other
    does, the register is not valid yet, no unit broadcasts it as just
    computed, and no other write to it is pending. *)
Definition one_producer (f : regfile phy_regfile_item_t) (ws : list (Z * phy_regfile_item_t * bool))
    (ps : list execute_wb_pack_t) (efs : list execute_feedback_channel_t) (a : Z) : Prop :=
  Forall (fun w => w.1.1 <> a) ws /\
  forall i p, ps !! i = Some p -> wb_writes p = true -> ew_rd_phy p = a ->
    sole_writer ps i p /\ regfile_read_data_valid f a = Some false /\ Forall (fun e => broadcasts a e = false) efs.

Section consistent.
Context (s : wb_world) (ps : list execute_wb_pack_t) (ws : list (Z * phy_regfile_item_t * bool)).
Context (efs : list execute_feedback_channel_t).
Context (Hok : regfile_ok (wb_phy_regfile s)) (Hn : length ps = Z.to_nat EXECUTE_UNIT_NUM)
  (He : length efs = Z.to_nat EXECUTE_UNIT_NUM).
Context (f' : regfile phy_regfile_item_t)
  (Hv : forall a, 0 <= a < rf_size (wb_phy_regfile s) ->
      regfile_view f' a =
      last_write a (ps ≫= wb_requests) (last_write a ws (regfile_view (wb_phy_regfile s) a))).

Lemma bypass_is_synced a :
  0 <= a < rf_size (wb_phy_regfile s) -> one_producer (wb_phy_regfile s) ws ps efs a ->
  regfile_read_data_valid (wb_phy_regfile s) a = Some false ->
  bypass_result a efs (wb_channel <$> ps) (0, false) = operand_after (regfile_view f' a) efs a.
Proof.
  intros Ha [Hpend Hone] Hinv.
  destruct (regfile_view_some _ a Hok Ha) as (it & b & _ & Hb & Hview). assert (b = false) as -> by congruence.
  assert (length efs = length (wb_channel <$> ps)) as Hl by (rewrite length_fmap; congruence).
  destruct (decide (Exists (fun p => wb_writes p = true /\ ew_rd_phy p = a) ps)) as [Hx|Hx].
  - apply list.Exists_exists in Hx as (p & Hp & Hw & <-). apply list_elem_of_lookup in Hp as [i Hi].
    destruct (Hone i p Hi Hw eq_refl) as (Hsole & _ & Hef).
    rewrite Hv by done. rewrite (sole_writer_view ps i p _ Hsole). cbn [operand_after pri_value].
    apply bypass_writer; [done|done| |].
    + apply list.Exists_exists. exists (wb_channel p). split; [apply list_elem_of_fmap_2; by eapply list_elem_of_lookup_2|].
      by rewrite wb_broadcasts_channel, Hw, Z.eqb_refl.
    + intros w Hw' Hb'. apply list_elem_of_fmap in Hw' as (q & -> & Hq).
      rewrite wb_broadcasts_channel in Hb'. apply andb_true_iff in Hb' as [Hwq Eq%Z.eqb_eq].
      apply list_elem_of_lookup in Hq as [j Hj]. destruct Hsole as (_ & _ & Hu).
      assert (j = i) as -> by (by apply (Hu j q)). assert (q = p) as -> by congruence.
      unfold wb_channel. by rewrite Hw.
  - rewrite bypass_units; [|done|].
    + rewrite Hv by done. rewrite last_write_other.
      * by rewrite (last_write_other _ _ _ Hpend), Hview.
      * apply wb_requests_none. intros p Hp Hw E. apply Hx, list.Exists_exists. eauto.
    + apply Forall_fmap, list.Forall_forall. intros p Hp. cbn. rewrite wb_broadcasts_channel.
      destruct (wb_writes p) eqn:Hw; [|done]. destruct (Z.eqb_spec a (ew_rd_phy p)); [|done].
      exfalso. apply Hx, list.Exists_exists. eauto.
Qed.

Lemma read_operand_synced a asrc imm :
  0 <= a < rf_size (wb_phy_regfile s) -> one_producer (wb_phy_regfile s) ws ps efs a ->
  read_operand (rf_add (wb_phy_regfile s) (ps ≫= wb_requests)) efs (wb_channel <$> ps) true a asrc imm (0, false) =
  Some (operand_after (regfile_view f' a) efs a).
Proof.
  intros Ha Hone. destruct (regfile_view_some _ a Hok Ha) as (it & b & Hr & Hb & Hview).
  unfold read_operand. unfold regfile_read, regfile_read_data_valid, rf_add, upd in *. cbn in *.
  rewrite Hr, Hb. cbn. destruct b.
  - rewrite Hv by done. destruct Hone as [Hpend Hone].
    rewrite last_write_other; [by rewrite (last_write_other _ _ _ Hpend), Hview|].
    apply wb_requests_none. intros p [i Hi]%list_elem_of_lookup Hw E.
    destruct (Hone i p Hi Hw E) as (_ & Hf & _). unfold regfile_read_data_valid in Hf. congruence.
  - rewrite (bypass_loop_spec _ 0 a efs (wb_channel <$> ps) _ efs (wb_channel <$> ps));
      [|done|done|done|done|by rewrite length_fmap].
    f_equal. by apply bypass_is_synced.
Qed.

End consistent.

(** What each operand of a slot must be, for a register file [f'] that has all
    writes of the cycle. *)
Definition source_operand (f' : regfile phy_regfile_item_t) (efs : list execute_feedback_channel_t)
    (active need_map : bool) (phy : Z) (arg_src : arg_src_t) (imm : Z) : operand_t :=
  if active then
    if need_map then operand_after (regfile_view f' phy) efs phy
    else if decide (arg_src = src_imm) then (imm, true) else (0, true)
  else (0, true).

Definition slot_with (rev : rename_readreg_op_info_t) (src1 src2 : operand_t) : readreg_issue_op_info_t :=
  (readreg_op_of rev) <| ri_src1_value := src1.1 |> <| ri_src1_loaded := src1.2 |>
    <| ri_src2_value := src2.1 |> <| ri_src2_loaded := src2.2 |>.

(** The physical registers a slot reads. *)
Definition slot_sources (rev : rename_readreg_op_info_t) : list Z :=
  if rr_enable rev && rr_valid rev then
    (if rr_rs1_need_map rev then [rr_rs1_phy rev] else []) ++ (if rr_rs2_need_map rev then [rr_rs2_phy rev] else [])
  else [].

Definition slot_read (f' : regfile phy_regfile_item_t) (efs : list execute_feedback_channel_t)
    (rev : rename_readreg_op_info_t) : readreg_issue_op_info_t :=
  let active := rr_enable rev && rr_valid rev in
  slot_with rev
    (source_operand f' efs active (rr_rs1_need_map rev) (rr_rs1_phy rev) (rr_arg1_src rev) (rr_imm rev))
    (source_operand f' efs active (rr_rs2_need_map rev) (rr_rs2_phy rev) (rr_arg2_src rev) (rr_imm rev)).

Lemma readreg_slots_map f efs wfs g revs :
  (forall rev, rev ∈ revs -> readreg_slot f efs wfs rev = Some (g rev)) ->
  readreg_slots f efs wfs revs = Some (g <$> revs).
Proof.
  induction revs as [|rev revs IH]; intros H; [done|]. cbn [readreg_slots].
  rewrite H by left. cbn [mbind option_bind]. rewrite IH; [done|]. intros rev' Hr. apply H. by right.
Qed.

(** C14: operand bypassing.  Let write-back run and register read run behind it,
    before the register file is updated.  If the registers the group reads
    have one producer each, then every operand is what it would be had the
    register file been updated first: its data if it is valid then; else
    the result a unit has just computed; else the operand is left open for the
    issue stage.  Immediates and missing operands are filled in, and
    instructions that are not valid pass with both operands closed. *)
Theorem readreg_bypass_correct ports s c ws efs rp ip :
  let ps := port_get <$> ports in
  length ports = Z.to_nat EXECUTE_UNIT_NUM -> length efs = Z.to_nat EXECUTE_UNIT_NUM -> flushes c = false ->
  regfile_ok (wb_phy_regfile s) -> rf_sync_request_q (wb_phy_regfile s) = rf_writes ws ->
  Forall (fun w => 0 <= w.1.1 < rf_size (wb_phy_regfile s)) ws ->
  Forall (fun p => wb_writes p = true -> 0 <= ew_rd_phy p < rf_size (wb_phy_regfile s)) ps ->
  Forall (fun a => 0 <= a < rf_size (wb_phy_regfile s) /\ one_producer (wb_phy_regfile s) ws ps efs a)
    (port_get rp ≫= slot_sources) ->
  exists wfs s' f' ip',
    wb_run ports s c = Some (wfs, s') /\ regfile_sync (wb_phy_regfile s') = Some f' /\
    readreg_run rp ip (wb_phy_regfile s') false efs wfs c = Some ip' /\
    port_get ip' = slot_read f' efs <$> port_get rp.
Proof.
  intros ps Hl He Hc Hok Hq Hws Hps Hsrc.
  destruct (wb_synced_view s ps ws Hok Hq Hws Hps) as (f' & Es & _ & _ & Hv).
  eexists _, _, f', (port_set ip (slot_read f' efs <$> port_get rp)).
  split; [by apply wb_run_spec|]. cbn [wb_phy_regfile]. split; [exact Es|]. split; [|done].
  unfold readreg_run. unfold flushes in Hc. rewrite Hc. cbn [negb].
  rewrite (readreg_slots_map _ _ _ (slot_read f' efs)); [done|]. intros rev Hrev.
  assert (length ps = Z.to_nat EXECUTE_UNIT_NUM) as Hn by (unfold ps; by rewrite length_fmap).
  assert (forall nm a x i, (nm = true -> a ∈ slot_sources rev) ->
    read_operand (rf_add (wb_phy_regfile s) (ps ≫= wb_requests)) efs (wb_channel <$> ps) nm a x i (0, false) =
      Some (source_operand f' efs true nm a x i)) as Hop.
  { intros [] a x i Ha; [|by unfold read_operand, source_operand; case_decide].
    rewrite list.Forall_forall in Hsrc. destruct (Hsrc a) as [? ?]; [apply list_elem_of_bind; eauto|].
    by apply (read_operand_synced s ps ws efs Hok Hn He f' Hv). }
  rewrite list_fmap_compose. fold ps. unfold readreg_slot, slot_read, slot_sources in *.
  destruct (rr_enable rev && rr_valid rev); [|done]. cbn [ri_src1_value ri_src1_loaded readreg_op_of].
  rewrite Hop by (intros ->; left). cbn [mbind option_bind].
  change (ri_src2_value _, ri_src2_loaded _) with (0, false).
  rewrite Hop; [done|]. intros ->. apply elem_of_app. right. left.
Qed.

(** Behind the write-back cycle [wb_demo_ports]: an instruction reads register
    40, which is being written back, and 42, which a unit is broadcasting. *)
Definition readreg_demo_slot : rename_readreg_op_info_t :=
  rename_readreg_op_info_zero <| rr_enable := true |> <| rr_valid := true |> <| rr_rs1_need_map := true |>
    <| rr_rs1_phy := 40 |> <| rr_rs2_need_map := true |> <| rr_rs2_phy := 42 |>.

Definition readreg_demo_group : rename_readreg_pack_t := <[0%nat := readreg_demo_slot]> rename_readreg_pack_zero.

Definition readreg_demo_units : list execute_feedback_channel_t :=
  mk_feedback true 42 11 :: repeat (mk_feedback false 0 0) 7.

Lemma readreg_demo_producers a :
  a = 40 \/ a = 42 ->
  one_producer (wb_phy_regfile wb_demo_world) [(5, mk_phy_regfile_item 0, false)] (port_get <$> wb_demo_ports)
    readreg_demo_units a.
Proof.
  intros Ha. split; [repeat constructor; cbn; lia|]. intros i p Hi Hw E.
  assert (i = 0%nat \/ i = 5%nat) as Hi'.
  { do 8 (destruct i as [|i]; [injection Hi as <-; (left; reflexivity) || (right; reflexivity) || discriminate Hw|]).
    discriminate Hi. }
  destruct Hi' as [-> | ->]; injection Hi as <-; vm_compute in E; [subst a|lia].
  split_and!; [exact wb_demo_sole|reflexivity|repeat constructor].
Qed.

Lemma readreg_bypass_correct_witness :
  exists wfs s' ip', wb_run wb_demo_ports wb_demo_world commit_feedback_zero = Some (wfs, s') /\
    readreg_run (port_new readreg_demo_group) (port_new readreg_issue_pack_zero) (wb_phy_regfile s') false
      readreg_demo_units wfs commit_feedback_zero = Some ip' /\
    exists send, port_get ip' !! 0%nat = Some send /\ ri_src1_value send = 7 /\ ri_src1_loaded send = true /\
      ri_src2_value send = 11 /\ ri_src2_loaded send = true.
Proof.
  destruct (readreg_bypass_correct wb_demo_ports wb_demo_world commit_feedback_zero [(5, mk_phy_regfile_item 0, false)]
      readreg_demo_units (port_new readreg_demo_group) (port_new readreg_issue_pack_zero))
    as (wfs & s' & f' & ip' & H1 & H2 & H3 & H4).
  - reflexivity.
  - reflexivity.
  - reflexivity.
  - exact wb_demo_ok.
  - reflexivity.
  - repeat constructor; cbn; lia.
  - repeat (apply Forall_cons_2; [vm_compute; intros; split; congruence|]). apply Forall_nil_2.
  - repeat (apply Forall_cons_2; [split; [vm_compute; split; congruence|apply readreg_demo_producers; vm_compute; auto]|]).
    apply Forall_nil_2.
  - exists wfs, s', ip'. split; [exact H1|]. split; [exact H3|]. rewrite H4.
    vm_compute in H1. injection H1 as <- <-. vm_compute in H2. injection H2 as <-.
    eexists. split; [reflexivity|]. vm_compute. repeat split.
Defined.
