(* ===== verification/Rename.v ===== *)
(** The rename stage [pipeline::rename] of [pipeline/rename.cpp].

    Each cycle takes up to [RENAME_WIDTH] decoded instructions, gives each an
    entry of the reorder buffer and, if it writes a register, a free physical
    register.  The alias table itself changes only at the end of the cycle, so
    the instructions of a group see each other through the slots of
    [send_pack]: [old_phy_loop] and [source_loop] are the two feedback loops.

    The reference [rename_ref] renames one instruction after the other on a
    table that changes at once; [rename_run_correct] is that the stage does
    the same. *)

From Stdlib Require Import ZArith Lia.
From stdpp Require Import base numbers list option tactics.
From S2P Require Import Prelude Common Bitmap Fifo FifoIds IdQueue Rob CheckpointBuffer Rat RatSync PipelineCommon Packs Isa Decode Execute.

Local Open Scope Z_scope.

(** [busy] and [rev_pack] are members the current code only clears;
    [phy_regfile_full] and [rob_full] are counters of [main.cpp]. *)
Record rename_world := mk_rename_world {
  rn_decode_rename_fifo : fifo decode_rename_pack_t;
  rn_rename_readreg_port : port rename_readreg_pack_t;
  rn_rat : rat;
  rn_rob : rob;
  rn_checkpoint_buffer : checkpoint_buffer;
  rn_busy : bool;
  rn_rev_pack : decode_rename_pack_t;
  rn_phy_regfile_full : Z;
  rn_rob_full : Z
}.

#[export] Instance rename_world_eta : Eta rename_world := fun s =>
  mk_rename_world (rn_decode_rename_fifo s) (rn_rename_readreg_port s) (rn_rat s) (rn_rob s)
    (rn_checkpoint_buffer s) (rn_busy s) (rn_rev_pack s) (rn_phy_regfile_full s) (rn_rob_full s).

Definition rename_reset (s : rename_world) : rename_world := s <| rn_busy := false |>.

Definition phy_regfile_full_add (s : rename_world) : rename_world :=
  s <| rn_phy_regfile_full := u64 (rn_phy_regfile_full s + 1) |>.
Definition rob_full_add (s : rename_world) : rename_world :=
  s <| rn_rob_full := u64 (rn_rob_full s + 1) |>.

(** The variables of the loop.  [new_phy_reg_id] is an array of [RENAME_WIDTH]
    elements, not initialised. *)
Record rename_vars := mk_rename_vars {
  rv_send_pack : rename_readreg_pack_t;
  rv_phy_reg_req_cnt : Z;
  rv_rob_req_cnt : Z;
  rv_new_phy_reg_id : list Z;
  rv_used_phy_reg_cnt : Z;
  rv_global_cp : checkpoint_t;
  rv_world : rename_world
}.

#[export] Instance rename_vars_eta : Eta rename_vars := fun v =>
  mk_rename_vars (rv_send_pack v) (rv_phy_reg_req_cnt v) (rv_rob_req_cnt v) (rv_new_phy_reg_id v)
    (rv_used_phy_reg_cnt v) (rv_global_cp v) (rv_world v).

Definition rob_item_zero : rob_item_t :=
  mk_rob_item 0 0 false false 0 0 false instruction_address_misaligned 0 false false 0 false 0 false false 0 false 0 0 false.

(** [rat->get_free_phy_id(n, ret)]: the elements it stores, at the front of
    the array [ret]. *)
Definition store_free (ret free : list Z) : option (list Z) :=
  if Nat.leb (length free) (length ret) then Some (free ++ drop (length free) ret) else None.

(** [for(auto j = i - 1;;j--)] with [break] at the first match and at 0. *)
Fixpoint old_phy_loop (j : nat) (send_pack : rename_readreg_pack_t) (rd old : Z) : option Z :=
  t ← arr_get send_pack (Z.of_nat j);
  if rr_enable t && rr_valid t && rr_need_rename t && (rd =? rr_rd t) then Some (rr_rd_phy t)
  else match j with
       | O => Some old
       | S j => old_phy_loop j send_pack rd old
       end.

(** [for(uint32_t j = 0;j < i;j++)]: [t] is the slot being filled. *)
Definition source_step (t tj : rename_readreg_op_info_t) : rename_readreg_op_info_t :=
  if rr_enable tj && rr_valid tj && rr_rd_enable tj then
    let t := if rr_rs1_need_map t && (rr_rs1 t =? rr_rd tj) then t <| rr_rs1_phy := rr_rd_phy tj |> else t in
    if rr_rs2_need_map t && (rr_rs2 t =? rr_rd tj) then t <| rr_rs2_phy := rr_rd_phy tj |> else t
  else t.

Fixpoint source_loop (js : list Z) (send_pack : rename_readreg_pack_t) (t : rename_readreg_op_info_t)
    : option rename_readreg_op_info_t :=
  match js with
  | [] => Some t
  | j :: js => tj ← arr_get send_pack j; source_loop js send_pack (source_step t tj)
  end.

(** [assert(rat->get_phy_id(arch, &phy))]; not a lookup when [need] is false. *)
Definition map_source (r : rat) (need : bool) (arch phy : Z) : option Z :=
  if need then m ← rat_get_phy_id r arch; m else Some phy.

(** [rob_item[i]] once its register ids are known. *)
Definition rob_item_of (rev_pack : decode_rename_pack_t) (rd_phy old : Z) (old_valid : bool) : rob_item_t :=
  rob_item_zero <| rob_old_phy_reg_id_valid := old_valid |> <| rob_old_phy_reg_id := old |>
    <| rob_finish := false |>
    <| rob_new_phy_reg_id := rd_phy |>
    <| rob_pc := dr_pc rev_pack |>
    <| rob_inst_value := dr_value rev_pack |>
    <| rob_has_exception := dr_has_exception rev_pack |>
    <| rob_exception_id := dr_exception_id rev_pack |>
    <| rob_exception_value := dr_exception_value rev_pack |>
    <| rob_is_mret := bool_decide (dr_op rev_pack = op_mret) |>
    <| rob_csr_addr := dr_csr rev_pack |>.

(** The destination: the physical register, the one it replaces, and the loop
    variables and table after it. *)
Definition rename_dest (i : nat) (rev_pack : decode_rename_pack_t) (v : rename_vars)
    : option (Z * Z * bool * rename_vars) :=
  if dr_valid rev_pack && dr_need_rename rev_pack then
    let r := rn_rat (rv_world v) in
    m ← rat_get_phy_id r (dr_rd rev_pack);
    old ← m;
    rd_phy ← arr_get (rv_new_phy_reg_id v) (rv_used_phy_reg_cnt v);
    r ← rat_set_map_sync r (dr_rd rev_pack) rd_phy;
    cp ← rat_cp_set_map r (rv_global_cp v) (dr_rd rev_pack) rd_phy;
    old ← match i with
          | O => Some old
          | S j => old_phy_loop j (rv_send_pack v) (dr_rd rev_pack) old
          end;
    Some (rd_phy, old, true,
          v <| rv_used_phy_reg_cnt := u32 (rv_used_phy_reg_cnt v + 1) |> <| rv_global_cp := cp |>
            <| rv_world ::= fun s => s <| rn_rat := r |> |>)
  else Some (0, 0, false, v).

(** The checkpoint of a predicted branch is completed with the renaming up to
    and including it.  [mem] is the uninitialised [cp]. *)
Definition rename_checkpoint (mem : checkpoint_t) (rev_pack : decode_rename_pack_t) (global_cp : checkpoint_t)
    (b : checkpoint_buffer) : option checkpoint_buffer :=
  if dr_valid rev_pack && dr_predicted rev_pack && dr_checkpoint_id_valid rev_pack then
    let cp := checkpoint_clone global_cp mem in
    origin_cp ← cb_get_item b (dr_checkpoint_id rev_pack);
    let cp := cp <| cp_global_history := cp_global_history origin_cp |>
                 <| cp_local_history := cp_local_history origin_cp |> in
    Some (cb_set_item_sync b (dr_checkpoint_id rev_pack) cp)
  else Some b.

(** The part under [if(rev_pack.enable)]: the slot and the variables. *)
Definition rename_slot (mem : checkpoint_t) (i : nat) (rev_pack : decode_rename_pack_t) (v : rename_vars)
    : option (rename_readreg_op_info_t * rename_vars) :=
  let t := rename_op_of rev_pack in
  '(rd_phy, old, old_valid, v) ← rename_dest i rev_pack v;
  let t := t <| rr_rd_phy := rd_phy |> in
  let s := rv_world v in
  rob_id ← rob_get_new_id (rn_rob s);
  let t := t <| rr_rob_id := rob_id |> in
  '(ret, _, rob) ← rob_push (rn_rob s) (rob_item_of rev_pack rd_phy old old_valid);
  _ ← assert ret;
  rs1_phy ← map_source (rn_rat s) (dr_rs1_need_map rev_pack) (dr_rs1 rev_pack) (rr_rs1_phy t);
  let t := t <| rr_rs1_phy := rs1_phy |> in
  rs2_phy ← map_source (rn_rat s) (dr_rs2_need_map rev_pack) (dr_rs2 rev_pack) (rr_rs2_phy t);
  let t := t <| rr_rs2_phy := rs2_phy |> in
  t ← (if dr_valid rev_pack then source_loop (upto (Z.of_nat i)) (rv_send_pack v) t else Some t);
  b ← rename_checkpoint mem rev_pack (rv_global_cp v) (rn_checkpoint_buffer s);
  Some (t, v <| rv_world := s <| rn_rob := rob |> <| rn_checkpoint_buffer := b |> |>).

(** The branch that renames: the front of the queue goes to slot [i]. *)
Definition rename_move (mem : checkpoint_t) (i : nat) (v : rename_vars) : option rename_vars :=
  let s := rv_world v in
  '(rev_pack, f) ← fifo_pop (rn_decode_rename_fifo s);
  rev_pack ← rev_pack;
  let v := v <| rv_world := s <| rn_decode_rename_fifo := f |> <| rn_rev_pack := rev_pack |> |> in
  '(t, v) ← (if dr_enable rev_pack then rename_slot mem i rev_pack v else Some (rename_op_of rev_pack, v));
  send_pack ← arr_set (rv_send_pack v) (Z.of_nat i) t;
  Some (v <| rv_send_pack := send_pack |>).

(** The branches that give up for this cycle; [cnt] free registers were found. *)
Definition rename_block (rev_pack : decode_rename_pack_t) (cnt : Z) (v : rename_vars) : rename_vars :=
  let s := (rv_world v) <| rn_rev_pack := rev_pack |> in
  if cnt <? rv_phy_reg_req_cnt v then
    let s := phy_regfile_full_add s in
    v <| rv_world := if rob_get_free_space (rn_rob s) <? rv_rob_req_cnt v then rob_full_add s else s |>
  else v <| rv_world := rob_full_add s |>.

(** One iteration; [false] is [break]. *)
Definition rename_one (mem : checkpoint_t) (i : nat) (v : rename_vars) : option (bool * rename_vars) :=
  let s := rv_world v in
  if negb (fifo_is_empty (rn_decode_rename_fifo s)) then
    rev_pack ← fifo_get_front (rn_decode_rename_fifo s);
    rev_pack ← rev_pack;
    let v := if dr_enable rev_pack && dr_valid rev_pack && dr_need_rename rev_pack
             then v <| rv_phy_reg_req_cnt := u32 (rv_phy_reg_req_cnt v + 1) |> else v in
    let v := if dr_enable rev_pack then v <| rv_rob_req_cnt := u32 (rv_rob_req_cnt v + 1) |> else v in
    free ← rat_get_free_phy_id (rn_rat s) (rv_phy_reg_req_cnt v);
    new_phy_reg_id ← store_free (rv_new_phy_reg_id v) free;
    let v := v <| rv_new_phy_reg_id := new_phy_reg_id |> in
    let cnt := Z.of_nat (length free) in
    if (rv_phy_reg_req_cnt v <=? cnt) && (1 <=? rob_get_free_space (rn_rob s))
    then v ← rename_move mem i v; Some (true, v)
    else Some (false, rename_block rev_pack cnt v)
  else Some (false, v).

(** The loop over the slots from [i] on, [n] of them. *)
Fixpoint rename_loop (mem : checkpoint_t) (n i : nat) (v : rename_vars) : option rename_vars :=
  match n with
  | O => Some v
  | S n =>
      '(continue, v) ← rename_one mem i v;
      if (continue : bool) then rename_loop mem n (S i) v else Some v
  end.

(** [mem] and [mem_ids] are the uninitialised local variables ([global_cp], the
    [cp] of a branch, and [new_phy_reg_id]); [stall] is [issue_pack.stall]; the
    result is [feedback_pack.idle]. *)
Definition rename_run (mem : checkpoint_t) (mem_ids : list Z) (s : rename_world) (stall : bool)
    (commit_feedback_pack : commit_feedback_pack_t) : option (bool * rename_world) :=
  let idle := fifo_is_empty (rn_decode_rename_fifo s) in
  if negb (cf_enable commit_feedback_pack && cf_flush commit_feedback_pack) then
    if negb stall then
      global_cp ← rat_save (rn_rat s) mem;
      v ← rename_loop mem (Z.to_nat RENAME_WIDTH) 0
            (mk_rename_vars rename_readreg_pack_zero 0 0 mem_ids 0 global_cp s);
      Some (idle, (rv_world v) <| rn_rename_readreg_port ::= fun p => port_set p (rv_send_pack v) |>)
    else Some (idle, s)
  else
    Some (idle, s <| rn_rename_readreg_port ::= fun p => port_set p rename_readreg_pack_zero |>
                  <| rn_busy := false |> <| rn_rev_pack := decode_rename_pack_zero |>).

(** * The reference: one instruction at a time *)

Definition renames (p : decode_rename_pack_t) : bool := dr_valid p && dr_need_rename p.

(** What renaming one instruction produces: its packet (the entry of the reorder
    buffer is allocated separately), the item for the reorder buffer, and the
    update of its checkpoint. *)
Record rename_out := mk_rename_out {
  ro_op : rename_readreg_op_info_t;
  ro_item : rob_item_t;
  ro_checkpoint : list (sync_request checkpoint_t)
}.

(** The sources are looked up, the destination gets the next free register,
    and the table changes at once.  (The sources of an invalid instruction,
    which nothing uses, are looked up in the table [r0] of the beginning.) *)
Definition rename_ref_dest (r : rat) (free : list Z) (p : decode_rename_pack_t) : option (Z * Z * rat * list Z) :=
  if renames p then
    rd_phy ← head free;
    '(old, r) ← rat_set_map r (dr_rd p) rd_phy;
    old ← old;
    Some (rd_phy, old, r, tail free)
  else Some (0, 0, r, free).

Definition rename_ref_checkpoint (mem : checkpoint_t) (b : checkpoint_buffer) (r : rat) (p : decode_rename_pack_t)
    : option (list (sync_request checkpoint_t)) :=
  if dr_valid p && dr_predicted p && dr_checkpoint_id_valid p then
    origin_cp ← cb_get_item b (dr_checkpoint_id p);
    Some [req_set_item (dr_checkpoint_id p)
            (mem <| rat_phy_map_table_valid := phy_map_table_valid r |>
                 <| rat_phy_map_table_visible := phy_map_table_visible r |>
                 <| cp_global_history := cp_global_history origin_cp |>
                 <| cp_local_history := cp_local_history origin_cp |>)]
  else Some [].

Definition rename_ref1 (mem : checkpoint_t) (b : checkpoint_buffer) (r0 r : rat) (free : list Z)
    (p : decode_rename_pack_t) : option (rename_out * rat * list Z) :=
  let look := if dr_valid p then r else r0 in
  rs1_phy ← map_source look (dr_rs1_need_map p) (dr_rs1 p) 0;
  rs2_phy ← map_source look (dr_rs2_need_map p) (dr_rs2 p) 0;
  '(rd_phy, old, r, free) ← rename_ref_dest r free p;
  reqs ← rename_ref_checkpoint mem b r p;
  Some (mk_rename_out
          ((rename_op_of p) <| rr_rd_phy := rd_phy |> <| rr_rs1_phy := rs1_phy |> <| rr_rs2_phy := rs2_phy |>)
          (rob_item_of p rd_phy old (renames p)) reqs, r, free).

Fixpoint rename_ref (mem : checkpoint_t) (b : checkpoint_buffer) (r0 r : rat) (free : list Z)
    (ps : list decode_rename_pack_t) : option (list rename_out * rat) :=
  match ps with
  | [] => Some ([], r)
  | p :: ps =>
      '(o, r, free) ← rename_ref1 mem b r0 r free p;
      '(os, r) ← rename_ref mem b r0 r free ps;
      Some (o :: os, r)
  end.

(** How many instructions a cycle renames: as long as there are a slot, a free
    register for each destination and a free entry of the reorder buffer. *)
Fixpoint rename_count (n : nat) (free space : Z) (ps : list decode_rename_pack_t) : nat :=
  match n, ps with
  | S n, p :: ps =>
      let cost := if renames p then 1 else 0 in
      if (cost <=? free) && (1 <=? space) then S (rename_count n (free - cost) (space - 1) ps) else O
  | _, _ => O
  end.

(** * The feedback loops *)

Definition slot_renames (t : rename_readreg_op_info_t) : bool := rr_enable t && rr_valid t && rr_need_rename t.

(** The mapping of [a] after the instructions [done], [d] before them. *)
Definition latest (a : Z) (done : list rename_readreg_op_info_t) (d : Z) : Z :=
  fold_left (fun acc t => if slot_renames t && (a =? rr_rd t) then rr_rd_phy t else acc) done d.

Lemma latest_snoc a done t d :
  latest a (done ++ [t]) d = if slot_renames t && (a =? rr_rd t) then rr_rd_phy t else latest a done d.
Proof. unfold latest. by rewrite fold_left_app. Qed.

Lemma old_phy_loop_latest done rest rd old j :
  length done = S j -> old_phy_loop j (done ++ rest) rd old = Some (latest rd done old).
Proof.
  revert rest j. induction done as [|t done IH] using rev_ind; intros rest j Hl; [discriminate|].
  rewrite length_app in Hl. cbn in Hl. assert (length done = j) as <- by lia.
  rewrite latest_snoc. unfold slot_renames.
  destruct done as [|t' done]; cbn [length old_phy_loop]; rewrite <- app_assoc; cbn [app].
  - change (arr_get (t :: rest) (Z.of_nat 0)) with (Some t). cbn [mbind option_bind].
    by destruct (rr_enable t && rr_valid t && rr_need_rename t && (rd =? rr_rd t)).
  - change (t' :: done ++ t :: rest) with ((t' :: done) ++ t :: rest).
    change (S (length done)) with (length (t' :: done)) at 1. rewrite arr_get_app. cbn [mbind option_bind].
    destruct (rr_enable t && rr_valid t && rr_need_rename t && (rd =? rr_rd t)); [done|].
    apply (IH (t :: rest)). done.
Qed.

Lemma source_loop_fold done1 done2 rest t :
  source_loop (Z.of_nat <$> seq (length done1) (length done2)) (done1 ++ done2 ++ rest) t =
  Some (fold_left source_step done2 t).
Proof.
  revert done1 t. induction done2 as [|u done2 IH]; intros done1 t; [done|].
  cbn [length seq fmap list_fmap source_loop app fold_left]. rewrite arr_get_app. cbn [mbind option_bind].
  specialize (IH (done1 ++ [u])). rewrite length_app, <- app_assoc, Nat.add_1_r in IH. apply IH.
Qed.

(** What a slot of the group must satisfy for the two loops to agree on which
    slots write a register: x0 is never renamed, everything else is. *)
Definition slot_wf (t : rename_readreg_op_info_t) : Prop :=
  rr_enable t = true /\
  (slot_renames t = true -> rr_rd_enable t = true) /\
  (rr_valid t = true -> rr_rd_enable t = true -> 0 < rr_rd t -> rr_need_rename t = true).

Lemma slot_writes t a :
  slot_wf t -> 0 < a ->
  rr_enable t && rr_valid t && rr_rd_enable t && (a =? rr_rd t) = slot_renames t && (a =? rr_rd t).
Proof.
  intros (He & Hr & Hn) Ha. unfold slot_renames in *. destruct (Z.eqb_spec a (rr_rd t)) as [->|]; [|by rewrite !andb_false_r].
  rewrite He in *. rewrite !andb_true_r. cbn [andb] in *. destruct (rr_valid t); [|done]. cbn [andb] in *.
  destruct (rr_need_rename t) eqn:En; [by apply Hr|].
  destruct (rr_rd_enable t); [|done]. symmetry. by apply Hn.
Qed.

Lemma source_fold_latest done t :
  Forall slot_wf done -> (rr_rs1_need_map t = true -> 0 < rr_rs1 t) -> (rr_rs2_need_map t = true -> 0 < rr_rs2 t) ->
  fold_left source_step done t =
    t <| rr_rs1_phy := if rr_rs1_need_map t then latest (rr_rs1 t) done (rr_rs1_phy t) else rr_rs1_phy t |>
      <| rr_rs2_phy := if rr_rs2_need_map t then latest (rr_rs2 t) done (rr_rs2_phy t) else rr_rs2_phy t |>.
Proof.
  revert t. induction done as [|u done IH]; intros t Hd H1 H2; cbn [fold_left].
  { destruct t. cbn. by repeat case_match. }
  apply Forall_cons_iff in Hd as [Hu Hd].
  assert (source_step t u =
    t <| rr_rs1_phy := if rr_rs1_need_map t && (slot_renames u && (rr_rs1 t =? rr_rd u)) then rr_rd_phy u else rr_rs1_phy t |>
      <| rr_rs2_phy := if rr_rs2_need_map t && (slot_renames u && (rr_rs2 t =? rr_rd u)) then rr_rd_phy u else rr_rs2_phy t |>)
    as ->.
  { unfold source_step.
    pose proof (slot_writes u (rr_rs1 t) Hu) as W1. pose proof (slot_writes u (rr_rs2 t) Hu) as W2.
    destruct (rr_rs1_need_map t) eqn:N1, (rr_rs2_need_map t) eqn:N2; cbn [andb]; rewrite <- ?W1, <- ?W2 by auto;
      revert N1 N2; clear;
      generalize (rr_enable u && rr_valid u && rr_rd_enable u) (rr_rd u) (rr_rd_phy u); intros w x y;
      destruct t, w; cbn; intros -> ->; repeat case_match; done || (cbn in *; congruence). }
  rewrite IH; [|done|exact H1|exact H2]. unfold latest. cbn [fold_left]. destruct t; cbn.
  destruct rr_rs1_need_map, rr_rs2_need_map; done.
Qed.

(** * A group against the reference *)

(** What decode guarantees of a packet, and fetch of its checkpoint. *)
Record renamable (b : checkpoint_buffer) (p : decode_rename_pack_t) : Prop := {
  rp_enable : dr_enable p = true;
  rp_rd : renames p = true -> dr_rd_enable p = true /\ 0 < dr_rd p < ARCH_REG_NUM;
  rp_x0 : dr_valid p = true -> dr_rd_enable p = true -> 0 < dr_rd p -> dr_need_rename p = true;
  rp_rs1 : dr_rs1_need_map p = true -> 0 < dr_rs1 p < ARCH_REG_NUM;
  rp_rs2 : dr_rs2_need_map p = true -> 0 < dr_rs2 p < ARCH_REG_NUM;
  rp_checkpoint : dr_valid p && dr_predicted p && dr_checkpoint_id_valid p = true ->
    is_Some (cb_get_item b (dr_checkpoint_id p))
}.

Section group.
Context (mem : checkpoint_t) (r0 : rat) (b0 : checkpoint_buffer).
Context (WF0 : rat_wf r0) (Hk : arch_reg_num r0 = ARCH_REG_NUM).

(** The table [r] and the free registers [free] after the slots [done]. *)
Record group_rat (r : rat) (free : list Z) (done : list rename_readreg_op_info_t) : Prop := {
  gr_wf : rat_wf r;
  gr_phy : phy_reg_num r = phy_reg_num r0;
  gr_arch : arch_reg_num r = arch_reg_num r0;
  gr_map a d : in_arch r0 a -> rat_maps r0 a d -> rat_maps r a (latest a done d);
  gr_free : Forall (fun x => in_phy r x /\ rat_valid r x = false) free;
  gr_nodup : NoDup free;
  gr_done : Forall slot_wf done
}.

Lemma group_rat_skip r free done t :
  group_rat r free done -> slot_wf t -> slot_renames t = false -> group_rat r free (done ++ [t]).
Proof.
  intros [] Ht Hs. split; try done.
  - intros a d Ha Hm. rewrite latest_snoc, Hs. cbn [andb]. auto.
  - apply Forall_app. auto.
Qed.

Lemma group_rat_step r x free done a :
  group_rat r (x :: free) done -> in_arch r0 a ->
  exists old r', rat_set_map r a x = Some (Some old, r') /\
    (forall d, rat_maps r0 a d -> old = latest a done d) /\
    (forall t, slot_wf t -> slot_renames t = true -> rr_rd t = a -> rr_rd_phy t = x -> group_rat r' free (done ++ [t])).
Proof.
  intros [W Hp Hq Hm Hf Hnd Hd] Ha. apply Forall_cons_iff in Hf as [[Hx Vx] Hf].
  apply list.NoDup_cons in Hnd as [Hnin Hnd].
  assert (in_arch r a) as Ha' by (unfold in_arch in *; congruence).
  destruct (rat_set_map_spec r a x W Ha' Hx Vx) as (old & r' & E & W' & Mo & Mx & Mb & Vv & _).
  pose proof (rat_set_map_frame _ _ _ _ _ W Ha' Hx Vx E) as F. pose proof F as (F1 & F2 & _).
  exists old, r'. split_and!; [done| |].
  - intros d Hd0. apply (wf_unique r W a); [done|]. by apply Hm.
  - intros t Ht Hs Hrd Hphy. split; [done|congruence|congruence| | |done|].
    + intros b d Hb Hmb. rewrite latest_snoc, Hs, Hrd, Hphy. cbn [andb].
      destruct (Z.eqb_spec b a) as [->|Hne]; [done|]. apply Mb; [done|]. by apply Hm.
    + apply list.Forall_forall. intros y Hy. rewrite list.Forall_forall in Hf. destruct (Hf y Hy) as [Hy1 Hy2].
      split; [by apply (in_phy_frame r)|]. apply not_true_is_false. rewrite Vv by done. intros [| ->]; [congruence|done].
    + apply Forall_app. auto.
Qed.

Lemma map_source_latest r free done need (valid : bool) a Q :
  group_rat r free done -> (need = true -> 0 < a < ARCH_REG_NUM) ->
  exists x, map_source (with_queue Q r0) need a 0 = Some x /\
    map_source (if valid then r else r0) need a 0 = Some (if valid && need then latest a done x else x).
Proof.
  intros G Ha. unfold map_source. destruct need; [|rewrite andb_false_r; by exists 0].
  specialize (Ha eq_refl). rewrite <- Hk in Ha. destruct (wf_total r0 WF0 a Ha) as [d Hd].
  exists d. change (rat_get_phy_id (with_queue Q r0) a) with (rat_get_phy_id r0 a).
  rewrite (rat_get_phy_id_maps r0 a d WF0 Ha Hd). cbn [mbind option_bind]. split; [done|].
  destruct valid; cbn [andb]; [|by rewrite (rat_get_phy_id_maps r0 a d WF0 Ha Hd)].
  rewrite (rat_get_phy_id_maps r a (latest a done d) (gr_wf _ _ _ G)); [done| |by apply (gr_map _ _ _ G)].
  unfold in_arch. by rewrite (gr_arch _ _ _ G).
Qed.

Definition dest_request (p : decode_rename_pack_t) (rd_phy : Z) : list rat_sync_request :=
  if renames p then [rat_req_set_map (dr_rd p) rd_phy] else [].

Lemma rename_dest_ref r free done rest p v Q :
  group_rat r free done -> renamable b0 p -> rn_rat (rv_world v) = with_queue Q r0 ->
  cp_of r (rv_global_cp v) -> rv_send_pack v = done ++ rest ->
  (renames p = true -> exists x, head free = Some x /\ arr_get (rv_new_phy_reg_id v) (rv_used_phy_reg_cnt v) = Some x) ->
  let free' := if renames p then tail free else free in
  exists rd_phy old r' v',
    rename_dest (length done) p v = Some (rd_phy, old, renames p, v') /\
    rename_ref_dest r free p = Some (rd_phy, old, r', free') /\
    rv_send_pack v' = rv_send_pack v /\ rv_phy_reg_req_cnt v' = rv_phy_reg_req_cnt v /\
    rv_new_phy_reg_id v' = rv_new_phy_reg_id v /\
    rv_used_phy_reg_cnt v' = (if renames p then u32 (rv_used_phy_reg_cnt v + 1) else rv_used_phy_reg_cnt v) /\
    cp_of r' (rv_global_cp v') /\
    rv_world v' = (rv_world v) <| rn_rat := with_queue (Q ++ dest_request p rd_phy) r0 |> /\
    (forall t, slot_wf t -> slot_renames t = renames p -> rr_rd t = dr_rd p -> rr_rd_phy t = rd_phy ->
       group_rat r' free' (done ++ [t])).
Proof.
  intros G Hp Hrat Hcp Hsend Hnew. unfold rename_dest, rename_ref_dest, dest_request.
  fold (renames p). destruct (renames p) eqn:Er; cbn zeta.
  - destruct (Hnew eq_refl) as (x & Hx & Hget). destruct free as [|x' free]; [done|]. cbn in Hx. simplify_eq.
    destruct (rp_rd _ _ Hp Er) as [_ Ha]. rewrite <- Hk in Ha. fold (in_arch r0 (dr_rd p)) in Ha.
    destruct (group_rat_step r x free done (dr_rd p) G Ha) as (old & r' & E & Hold & Hnext).
    destruct (wf_total r0 WF0 (dr_rd p) Ha) as [d Hd]. specialize (Hold d Hd). rewrite Hrat, Hget.
    change (rat_get_phy_id (with_queue Q r0) (dr_rd p)) with (rat_get_phy_id r0 (dr_rd p)).
    rewrite (rat_get_phy_id_maps r0 _ d WF0 Ha Hd). cbn [mbind option_bind head tail].
    assert (rat_set_map_sync (with_queue Q r0) (dr_rd p) x =
            Some (with_queue (Q ++ [rat_req_set_map (dr_rd p) x]) r0)) as ->.
    { pose proof (gr_free _ _ _ G) as Hf. apply Forall_cons_iff in Hf as [[[_ Hx] _] _].
      rewrite (gr_phy _ _ _ G) in Hx. unfold rat_set_map_sync. cbn. destruct Ha as [Ha1 Ha2].
      destruct (Z.ltb_spec x (phy_reg_num r0)); [|lia]. destruct (Z.ltb_spec 0 (dr_rd p)); [|lia].
      destruct (Z.ltb_spec (dr_rd p) (arch_reg_num r0)); [|lia]. done. }
    cbn [mbind option_bind].
    destruct (cp_set_map_of (with_queue (Q ++ [rat_req_set_map (dr_rd p) x]) r0) r (rv_global_cp v) (dr_rd p) x
                (Some old) r' Hcp) as (cp' & Ecp & Hcp'); [cbn; by rewrite (gr_phy _ _ _ G)|cbn; by rewrite (gr_arch _ _ _ G)
                |apply (wf_running r), (gr_wf _ _ _ G)|done|].
    rewrite Ecp, E. cbn [mbind option_bind].
    assert (match length done with O => Some d | S j => old_phy_loop j (rv_send_pack v) (dr_rd p) d end = Some old) as ->.
    { rewrite Hold, Hsend. destruct (length done) eqn:El; [by apply nil_length_inv in El as ->|].
      by apply old_phy_loop_latest. }
    cbn [mbind option_bind]. do 4 eexists. split; [reflexivity|]. split; [reflexivity|]. by split_and!.
  - exists 0, 0, r, v. split_and!; try done.
    + destruct (rv_world v). cbn in Hrat. rewrite app_nil_r. cbn. by subst.
    + intros t Ht Hs _ _. by apply group_rat_skip.
Qed.

Lemma rename_checkpoint_ref r p cp b :
  cp_of r cp -> renamable b0 p -> cb_fifo b = cb_fifo b0 ->
  exists reqs, rename_ref_checkpoint mem b0 r p = Some reqs /\
    rename_checkpoint mem p cp b = Some (b <| cb_sync_request_q ::= fun l => l ++ reqs |>).
Proof.
  intros (Cv & Cs & _) Hp Hb. unfold rename_ref_checkpoint, rename_checkpoint.
  destruct (dr_valid p && dr_predicted p && dr_checkpoint_id_valid p) eqn:E.
  - destruct (rp_checkpoint _ _ Hp E) as [o Ho]. unfold cb_get_item in *. rewrite Hb, Ho. cbn [mbind option_bind].
    eexists. split; [reflexivity|]. unfold cb_set_item_sync, checkpoint_clone. rewrite Cv, Cs. done.
  - exists []. split; [done|]. destruct b. unfold upd. cbn. by rewrite app_nil_r.
Qed.


Lemma rob_push_one r x :
  rob_ok r -> 1 <= rob_get_free_space r ->
  exists id r', rob_get_new_id r = Some id /\ rob_push r x = Some (true, id, r') /\ rob_ok r' /\
    rob_entries r' = rob_entries r ++ [(id, x)] /\ rob_get_free_space r' = rob_get_free_space r - 1 /\
    rob_sync_request_q r' = rob_sync_request_q r /\ committed r' = committed r /\ commit_num r' = commit_num r /\
    global_commit_num r' = global_commit_num r.
Proof.
  intros Hok Hs. rewrite rob_free_space_spec in Hs by done. destruct (fifo_full_entries (rob_fifo r) Hok) as [Hf _].
  unfold rob_entries in *. destruct (Z.ltb_spec (Z.of_nat (length (fifo_entries (rob_fifo r)))) (size (rob_fifo r))); [|lia].
  destruct (fifo_entries_push (rob_fifo r) x Hok Hf) as (f & E & Hok' & He & Hsz).
  exists (wptr (rob_fifo r)), (r <| rob_fifo := f |>).
  unfold rob_get_new_id, fifo_get_new_id, rob_push. rewrite Hf, E. split_and!; try done.
  rewrite !rob_free_space_spec by done. unfold rob_entries. cbn. rewrite He, length_app, Hsz. cbn. lia.
Qed.

(** One instruction: the slot, up to its entry id, is the reference's. *)
Lemma rename_slot_ref r free done rest p v Q :
  group_rat r free done -> renamable b0 p -> rn_rat (rv_world v) = with_queue Q r0 ->
  cp_of r (rv_global_cp v) -> rv_send_pack v = done ++ rest ->
  (renames p = true -> exists x, head free = Some x /\ arr_get (rv_new_phy_reg_id v) (rv_used_phy_reg_cnt v) = Some x) ->
  rob_ok (rn_rob (rv_world v)) -> 1 <= rob_get_free_space (rn_rob (rv_world v)) ->
  cb_fifo (rn_checkpoint_buffer (rv_world v)) = cb_fifo b0 ->
  let free' := if renames p then tail free else free in
  exists o r' id v' rob',
    rename_slot mem (length done) p v = Some ((ro_op o) <| rr_rob_id := id |>, v') /\
    rename_ref1 mem b0 r0 r free p = Some (o, r', free') /\
    group_rat r' free' (done ++ [(ro_op o) <| rr_rob_id := id |>]) /\
    rv_send_pack v' = rv_send_pack v /\ rv_phy_reg_req_cnt v' = rv_phy_reg_req_cnt v /\
    rv_new_phy_reg_id v' = rv_new_phy_reg_id v /\
    rv_used_phy_reg_cnt v' = (if renames p then u32 (rv_used_phy_reg_cnt v + 1) else rv_used_phy_reg_cnt v) /\
    cp_of r' (rv_global_cp v') /\ slot_renames (ro_op o) = renames p /\ rr_rd (ro_op o) = dr_rd p /\
    rv_world v' = (rv_world v) <| rn_rat := with_queue (Q ++ dest_request p (rr_rd_phy (ro_op o))) r0 |>
      <| rn_rob := rob' |> <| rn_checkpoint_buffer ::= fun b => b <| cb_sync_request_q ::= fun l => l ++ ro_checkpoint o |> |> /\
    rob_ok rob' /\ rob_entries rob' = rob_entries (rn_rob (rv_world v)) ++ [(id, ro_item o)] /\
    rob_get_free_space rob' = rob_get_free_space (rn_rob (rv_world v)) - 1.
Proof.
  intros G Hp Hrat Hcp Hsend Hnew Hrob Hspace Hb free'.
  destruct (rename_dest_ref r free done rest p v Q G Hp Hrat Hcp Hsend Hnew)
    as (rd_phy & old & r' & v1 & E1 & Eref & V1 & V2 & V3 & V4 & Hcp1 & Hw & Hgroup).
  destruct (rob_push_one (rn_rob (rv_world v)) (rob_item_of p rd_phy old (renames p)) Hrob Hspace)
    as (id & rob' & Enew & Epush & Hrob' & Hent & Hsp & _).
  destruct (map_source_latest r free done (dr_rs1_need_map p) (dr_valid p) (dr_rs1 p) (Q ++ dest_request p rd_phy) G
              (rp_rs1 _ _ Hp)) as (x1 & M1 & L1).
  destruct (map_source_latest r free done (dr_rs2_need_map p) (dr_valid p) (dr_rs2 p) (Q ++ dest_request p rd_phy) G
              (rp_rs2 _ _ Hp)) as (x2 & M2 & L2).
  destruct (rename_checkpoint_ref r' p (rv_global_cp v1) (rn_checkpoint_buffer (rv_world v)) Hcp1 Hp Hb) as (reqs & Er & Ec).
  unfold rename_slot, rename_ref1. rewrite E1, L1, L2. cbn [mbind option_bind]. rewrite Eref. cbn [mbind option_bind]. rewrite Er. cbn [mbind option_bind].
  rewrite Hw. cbn [rn_rob rn_rat rn_checkpoint_buffer upd]. rewrite Enew. cbn [mbind option_bind].
  rewrite Epush. cbn [mbind option_bind assert].
  match goal with |- context [map_source ?r (dr_rs1_need_map p) (dr_rs1 p) ?z] => change z with 0 end.
  rewrite M1. cbn [mbind option_bind].
  match goal with |- context [map_source ?r (dr_rs2_need_map p) (dr_rs2 p) ?z] => change z with 0 end.
  rewrite M2. cbn [mbind option_bind].
  set (t0 := (rename_op_of p) <| rr_rd_phy := rd_phy |> <| rr_rob_id := id |> <| rr_rs1_phy := x1 |> <| rr_rs2_phy := x2 |>).
  set (y1 := if dr_valid p && dr_rs1_need_map p then latest (dr_rs1 p) done x1 else x1).
  set (y2 := if dr_valid p && dr_rs2_need_map p then latest (dr_rs2 p) done x2 else x2).
  set (o := mk_rename_out _ _ _).
  assert ((if dr_valid p then source_loop (upto (Z.of_nat (length done))) (rv_send_pack v1) t0 else Some t0) =
          Some ((ro_op o) <| rr_rob_id := id |>)) as ->.
  { subst y1 y2. destruct (dr_valid p) eqn:Ev; [|done]. rewrite V1, Hsend. unfold upto. rewrite Nat2Z.id.
    pose proof (source_loop_fold [] done rest t0) as F. cbn [length app] in F. rewrite F.
    rewrite source_fold_latest; [done|apply (gr_done _ _ _ G)|..]; intros Hn;
      [apply (rp_rs1 _ _ Hp Hn)|apply (rp_rs2 _ _ Hp Hn)]. }
  cbn [mbind option_bind]. rewrite Ec. cbn [mbind option_bind].
  assert (slot_wf ((ro_op o) <| rr_rob_id := id |>)) as Hwf.
  { split; [exact (rp_enable _ _ Hp)|]. split; [|exact (rp_x0 _ _ Hp)].
    unfold slot_renames. cbn. rewrite (rp_enable _ _ Hp). intros Hs. exact (proj1 (rp_rd _ _ Hp Hs)). }
  assert (slot_renames (ro_op o) = renames p) as Hsr
    by (unfold slot_renames, renames; cbn; by rewrite (rp_enable _ _ Hp)).
  exists o, r', id. eexists _, rob'. split; [reflexivity|]. split; [reflexivity|].
  split; [apply Hgroup; done|]. split_and!; try done.
Qed.


(** ** The loop *)

(** The free registers, in the order [get_free_phy_id] finds them. *)
Definition free_list : list Z := filter (fun i => rat_valid r0 i = false) (upto (phy_reg_num r0)).

Lemma free_list_get Q n :
  rat_get_free_phy_id (with_queue Q r0) n = Some (take (Z.to_nat (Z.max n 1)) free_list).
Proof.
  unfold rat_get_free_phy_id.
  rewrite free_phy_id_loop_spec; [|exact (wf_shape r0 WF0)|by intros i Hi%elem_of_upto|simpl; lia].
  cbn [app length]. by rewrite Nat.sub_0_r.
Qed.

Lemma free_list_start : group_rat r0 free_list [].
Proof.
  split; try done; [|apply list.NoDup_filter, NoDup_upto].
  apply list.Forall_forall. intros i Hi. apply list_elem_of_filter in Hi as [? Hi%elem_of_upto]. done.
Qed.

Record loop_inv (r : rat) (free : list Z) (done : list rename_readreg_op_info_t) (n : nat)
    (q : queue decode_rename_pack_t) (Q : list rat_sync_request) (v : rename_vars) (used : nat) : Prop := {
  li_group : group_rat r free done;
  li_rat : rn_rat (rv_world v) = with_queue Q r0;
  li_cp : cp_of r (rv_global_cp v);
  li_send : rv_send_pack v = done ++ repeat rename_readreg_op_info_zero n;
  li_width : (length done + n = Z.to_nat RENAME_WIDTH)%nat;
  li_free : free = drop used free_list;
  li_used : (used <= length free_list)%nat /\ (used <= length done)%nat;
  li_cnt : rv_phy_reg_req_cnt v = Z.of_nat used /\ rv_used_phy_reg_cnt v = Z.of_nat used;
  li_new : length (rv_new_phy_reg_id v) = Z.to_nat RENAME_WIDTH;
  li_fifo : fifo_refines (rn_decode_rename_fifo (rv_world v)) q;
  li_packs : Forall (renamable b0) (q_items q);
  li_rob : rob_ok (rn_rob (rv_world v));
  li_cb : cb_fifo (rn_checkpoint_buffer (rv_world v)) = cb_fifo b0
}.

Definition map_requests (outs : list rename_out) : list rat_sync_request :=
  outs ≫= fun o => if slot_renames (ro_op o) then [rat_req_set_map (rr_rd (ro_op o)) (rr_rd_phy (ro_op o))] else [].

Definition out_slots (outs : list rename_out) (ids : list Z) : list rename_readreg_op_info_t :=
  zip_with (fun o id => (ro_op o) <| rr_rob_id := id |>) outs ids.

(** The state [s'] after the instructions [outs] of [q] were renamed in [s]. *)
Record renamed (s s' : rename_world) (q : queue decode_rename_pack_t) (Q : list rat_sync_request)
    (outs : list rename_out) (ids : list Z) : Prop := {
  rd_ids : length ids = length outs;
  rd_fifo : fifo_refines (rn_decode_rename_fifo s') (q_remove (length outs) q);
  rd_rob : rob_ok (rn_rob s');
  rd_entries : rob_entries (rn_rob s') = rob_entries (rn_rob s) ++ zip ids (ro_item <$> outs);
  rd_rat : rn_rat s' = with_queue (Q ++ map_requests outs) r0;
  rd_cb : rn_checkpoint_buffer s' =
    (rn_checkpoint_buffer s) <| cb_sync_request_q ::= fun l => l ++ (outs ≫= ro_checkpoint) |>;
  rd_port : rn_rename_readreg_port s' = rn_rename_readreg_port s
}.

Lemma renamed_nothing s s' q Q :
  rn_decode_rename_fifo s' = rn_decode_rename_fifo s -> rn_rob s' = rn_rob s -> rn_rat s' = rn_rat s ->
  rn_checkpoint_buffer s' = rn_checkpoint_buffer s -> rn_rename_readreg_port s' = rn_rename_readreg_port s ->
  rn_rat s = with_queue Q r0 -> fifo_refines (rn_decode_rename_fifo s) q -> rob_ok (rn_rob s) ->
  renamed s s' q Q [] [].
Proof.
  intros E1 E2 E3 E4 E5 Hrat Hq Hrob. split; try done.
  - by rewrite q_remove_0, E1.
  - by rewrite E2.
  - by rewrite E2, app_nil_r.
  - by rewrite E3, Hrat, app_nil_r.
  - rewrite E4. destruct (rn_checkpoint_buffer s). unfold upd. cbn. by rewrite app_nil_r.
Qed.

(** The cost of an instruction, and the test of [rename_one] in terms of it. *)
Definition cost (p : decode_rename_pack_t) : nat := if renames p then 1 else 0.

Lemma take_free_length req :
  (req <=? Z.of_nat (length (take (Z.to_nat (Z.max req 1)) free_list))) = (req <=? Z.of_nat (length free_list)).
Proof. rewrite length_take. bcase; lia. Qed.

Lemma store_free_get used new :
  (used < 4)%nat -> length new = Z.to_nat RENAME_WIDTH -> forall c, (c <= 1)%nat -> (used + c <= 4)%nat ->
  exists new', store_free new (take (Z.to_nat (Z.max (Z.of_nat (used + c)) 1)) free_list) = Some new' /\
    length new' = Z.to_nat RENAME_WIDTH /\
    (c = 1%nat -> (used < length free_list)%nat ->
     exists x, head (drop used free_list) = Some x /\ arr_get new' (Z.of_nat used) = Some x).
Proof.
  intros Hu Hl c Hc Huc. change (Z.to_nat RENAME_WIDTH) with 4%nat in *. unfold store_free.
  set (l := take _ free_list). assert (length l <= 4)%nat as Hl4 by (unfold l; rewrite length_take; lia).
  destruct (Nat.leb_spec (length l) (length new)); [|lia]. eexists. split; [reflexivity|].
  split; [rewrite length_app, length_drop; lia|]. intros -> Hlen.
  destruct (lookup_lt_is_Some_2 free_list used Hlen) as [x Hx]. exists x.
  rewrite <- (take_drop_middle free_list used x Hx) at 1. rewrite drop_app_length', arr_get_lookup by (rewrite ?length_take; lia).
  split; [done|]. rewrite Nat2Z.id, lookup_app_l by (unfold l; rewrite length_take; lia). unfold l.
  rewrite lookup_take_lt; [done|lia].
Qed.


Lemma renamed_cons s s1 s2 q Q o id outs ids :
  renamed s s1 q Q [o] [id] -> renamed s1 s2 (q_remove 1 q) (Q ++ map_requests [o]) outs ids ->
  renamed s s2 q Q (o :: outs) (id :: ids).
Proof.
  intros [_ _ _ He _ Hc Hp] [Hi' Hf' Hr' He' Ht' Hc' Hp']. split; cbn [length]; try done.
  - by rewrite Hi'.
  - by rewrite <- q_remove_1.
  - rewrite He', He, <- app_assoc. done.
  - rewrite Ht'. unfold map_requests. cbn [mbind list_bind]. by rewrite !app_nil_r, app_assoc.
  - rewrite Hc', Hc. destruct (rn_checkpoint_buffer s). unfold upd. cbn. by rewrite app_nil_r, app_assoc.
  - congruence.
Qed.

Section iteration.
Context (r : rat) (free : list Z) (done : list rename_readreg_op_info_t) (n : nat)
  (q : queue decode_rename_pack_t) (Q : list rat_sync_request) (v : rename_vars) (used : nat).
Context (I : loop_inv r free done (S n) q Q v used).

Lemma rename_one_empty : q_items q = [] -> rename_one mem (length done) v = Some (false, v).
Proof.
  intros E. destruct (li_fifo _ _ _ _ _ _ _ _ I) as (b & st & W). unfold rename_one.
  by rewrite (repr_is_empty W), bool_decide_true by done.
Qed.

Context (p : decode_rename_pack_t) (items : list decode_rename_pack_t) (Hq : q_items q = p :: items).

(** The test of the iteration, in terms of the reference: [v0] are the
    variables once the requirements are counted. *)
Lemma rename_one_test :
  exists v0 cnt,
    rename_one mem (length done) v =
      (if (Z.of_nat (cost p) <=? Z.of_nat (length free)) && (1 <=? rob_get_free_space (rn_rob (rv_world v)))
       then v ← rename_move mem (length done) v0; Some (true, v) else Some (false, rename_block p cnt v0)) /\
    rv_world v0 = rv_world v /\ rv_send_pack v0 = rv_send_pack v /\ rv_global_cp v0 = rv_global_cp v /\
    rv_phy_reg_req_cnt v0 = Z.of_nat (used + cost p) /\ rv_used_phy_reg_cnt v0 = Z.of_nat used /\
    length (rv_new_phy_reg_id v0) = Z.to_nat RENAME_WIDTH /\
    (renames p = true -> free <> [] ->
     exists x, head free = Some x /\ arr_get (rv_new_phy_reg_id v0) (rv_used_phy_reg_cnt v0) = Some x).
Proof.
  destruct I as [G Hrat Hcp Hsend Hw Hfree [Hu1 Hu2] [Hc1 Hc2] Hnew Hf Hpk Hrob Hcb].
  pose proof Hpk as Hp. rewrite Hq in Hp. apply Forall_cons_iff in Hp as [Hp _].
  pose proof Hf as (b & st & W). unfold rename_one. rewrite (repr_is_empty W), bool_decide_false by (by rewrite Hq).
  rewrite (repr_get_front W), Hq. cbn [negb head mbind option_bind].
  rewrite (rp_enable _ _ Hp). cbn [andb]. fold (renames p). rewrite Hrat.
  set (v1 := if renames p then _ else v).
  assert (rv_phy_reg_req_cnt v1 = Z.of_nat (used + cost p) /\ rv_world v1 = rv_world v /\
    rv_send_pack v1 = rv_send_pack v /\ rv_global_cp v1 = rv_global_cp v /\ rv_used_phy_reg_cnt v1 = Z.of_nat used /\
    rv_new_phy_reg_id v1 = rv_new_phy_reg_id v) as (Hc & H1 & H2 & H3 & H4 & H5).
  { subst v1. change (Z.to_nat RENAME_WIDTH) with 4%nat in *. unfold cost. destruct (renames p); cbn;
      rewrite ?u32_small by lia; split_and!; try done; lia. }
  clearbody v1. cbn [rv_phy_reg_req_cnt rv_new_phy_reg_id upd].
  match goal with |- context [rat_get_free_phy_id _ ?c] => change c with (rv_phy_reg_req_cnt v1) end.
  match goal with |- context [store_free ?a] => change a with (rv_new_phy_reg_id v1) end.
  rewrite Hc, H5, free_list_get. cbn [mbind option_bind]. change (Z.to_nat RENAME_WIDTH) with 4%nat in *.
  destruct (store_free_get used (rv_new_phy_reg_id v) ltac:(lia) Hnew (cost p) ltac:(unfold cost; destruct (renames p); lia)
              ltac:(unfold cost; destruct (renames p); lia)) as (new' & -> & Hnew' & Hget). cbn [mbind option_bind].
  rewrite take_free_length.
  replace (Z.of_nat (used + cost p) <=? Z.of_nat (length free_list)) with (Z.of_nat (cost p) <=? Z.of_nat (length free))
    by (rewrite Hfree, length_drop; bcase; lia).
  eexists _, _. split; [reflexivity|]. cbn. split_and!; try done.
  intros Er Hne. rewrite H4, Hfree. apply Hget; [unfold cost; by rewrite Er|].
  destruct (decide (used < length free_list)%nat); [done|]. destruct Hne. rewrite Hfree. apply drop_ge. lia.
Qed.

Lemma rename_one_blocked :
  (Z.of_nat (cost p) <=? Z.of_nat (length free)) && (1 <=? rob_get_free_space (rn_rob (rv_world v))) = false ->
  exists v', rename_one mem (length done) v = Some (false, v') /\ rv_send_pack v' = rv_send_pack v /\
    renamed (rv_world v) (rv_world v') q Q [] [].
Proof.
  intros Hno. destruct rename_one_test as (v0 & cnt & -> & Hw0 & Hs0 & _). rewrite Hno.
  eexists. split; [reflexivity|]. rewrite <- Hs0, <- Hw0. destruct I as [_ Hrat _ _ _ _ _ _ _ Hf _ Hrob _]. rewrite <- Hw0 in *.
  unfold rename_block. destruct (cnt <? rv_phy_reg_req_cnt v0); (split; [done|]).
  - apply renamed_nothing; try done; cbn; by destruct (_ <? _).
  - by apply renamed_nothing.
Qed.

Lemma rename_one_moves :
  (Z.of_nat (cost p) <=? Z.of_nat (length free)) && (1 <=? rob_get_free_space (rn_rob (rv_world v))) = true ->
  exists o r' id v',
    rename_one mem (length done) v = Some (true, v') /\
    rename_ref1 mem b0 r0 r free p = Some (o, r', drop (cost p) free) /\
    loop_inv r' (drop (cost p) free) (done ++ [(ro_op o) <| rr_rob_id := id |>]) n (q_remove 1 q)
      (Q ++ map_requests [o]) v' (used + cost p) /\
    renamed (rv_world v) (rv_world v') q Q [o] [id] /\
    rob_get_free_space (rn_rob (rv_world v')) = rob_get_free_space (rn_rob (rv_world v)) - 1.
Proof.
  intros Hgo. destruct rename_one_test as (v0 & cnt & -> & Hw0 & Hs0 & Hg0 & Hc0 & Hu0 & Hn0 & Hget). rewrite Hgo.
  destruct I as [G Hrat Hcp Hsend Hw Hfree [Hu1 Hu2] _ _ Hf Hpk Hrob Hcb]. rewrite <- Hw0, <- Hs0, <- Hg0 in *.
  apply andb_true_iff in Hgo as [Hg1%Z.leb_le Hg2%Z.leb_le].
  pose proof Hpk as Hp. rewrite Hq in Hp. apply Forall_cons_iff in Hp as [Hp Hpk'].
  pose proof Hf as (b & st & W). unfold rename_move.
  destruct (repr_pop W) as (f' & b' & st' & -> & W'). unfold q_pop in W' |- *. rewrite Hq in W' |- *.
  cbn [fst snd mbind option_bind] in *. rewrite (rp_enable _ _ Hp).
  match goal with |- context [rename_slot _ _ _ ?v0] => set (v1 := v0) end.
  destruct (rename_slot_ref r free done (repeat rename_readreg_op_info_zero (S n)) p v1 Q)
    as (o & r' & id & v2 & rob' & E & Eref & G' & V1 & V2 & V3 & V4 & Hcp' & Hs & Hrd & Hworld & Hrob' & Hent & Hsp); try done.
  { intros Er. apply Hget; [done|]. intros ->. unfold cost in Hg1. rewrite Er in Hg1. cbn in Hg1. lia. }
  rewrite E. cbn [mbind option_bind]. rewrite V1. change (rv_send_pack v1) with (rv_send_pack v0). rewrite Hsend.
  cbn [repeat]. rewrite arr_set_middle. cbn [mbind option_bind].
  assert ((if renames p then tail free else free) = drop (cost p) free) as Efree.
  { unfold cost. destruct (renames p); [by destruct free|by rewrite drop_0]. }
  assert (dest_request p (rr_rd_phy (ro_op o)) = map_requests [o]) as Ereq.
  { unfold dest_request, map_requests. cbn. rewrite Hs, Hrd, app_nil_r. done. }
  rewrite Efree in *. rewrite Ereq in *. exists o, r', id. eexists. split; [reflexivity|]. split; [done|]. split; [|split].
  - split; try done; try (cbn; by rewrite Hworld).
    + cbn. by rewrite <- app_assoc.
    + rewrite length_app. cbn [length]. lia.
    + by rewrite Hfree, drop_drop.
    + rewrite length_app. cbn [length]. rewrite Hfree, length_drop in Hg1. unfold cost in *. destruct (renames p); lia.
    + cbn. rewrite V2, V4. split; [done|]. change (rv_used_phy_reg_cnt v1) with (rv_used_phy_reg_cnt v0). rewrite Hu0.
      change (Z.to_nat RENAME_WIDTH) with 4%nat in *. unfold cost. destruct (renames p); [rewrite u32_small|]; lia.
    + cbn [rv_new_phy_reg_id upd]. by rewrite V3.
    + cbn. rewrite Hworld. cbn. exists b', st'. unfold q_remove. rewrite Hq. exact W'.
    + cbn. by rewrite Hq.
  - match goal with |- renamed _ (rv_world ?w) _ _ _ _ => change (rv_world w) with (rv_world v2) end.
    rewrite Hworld. split; cbn; try done; [|by rewrite app_nil_r]. exists b', st'. unfold q_remove. rewrite Hq. exact W'.
  - cbn. by rewrite Hworld.
Qed.

End iteration.

Lemma rename_loop_ref n r free done q Q v used :
  loop_inv r free done n q Q v used ->
  let k := rename_count n (Z.of_nat (length free)) (rob_get_free_space (rn_rob (rv_world v))) (q_items q) in
  exists v' outs ids r',
    rename_loop mem n (length done) v = Some v' /\
    rename_ref mem b0 r0 r free (take k (q_items q)) = Some (outs, r') /\ length outs = k /\
    rv_send_pack v' = done ++ out_slots outs ids ++ repeat rename_readreg_op_info_zero (n - k) /\
    renamed (rv_world v) (rv_world v') q Q outs ids.
Proof.
  revert r free done q Q v used. induction n as [|n IH]; intros r free done q Q v used I.
  { exists v, [], [], r. cbn. split_and!; try done; [apply (li_send _ _ _ _ _ _ _ _ I)|].
    by apply renamed_nothing; try done; apply I. }
  cbn [rename_loop rename_count]. destruct (q_items q) as [|p items] eqn:Hq.
  { rewrite (rename_one_empty _ _ _ _ _ _ _ _ I Hq). cbn [mbind option_bind]. exists v, [], [], r. cbn.
    split_and!; try done; [apply (li_send _ _ _ _ _ _ _ _ I)|]. by apply renamed_nothing; try done; apply I. }
  cbn zeta. replace (if renames p then 1 else 0) with (Z.of_nat (cost p)) by (unfold cost; by destruct (renames p)).
  destruct (_ && _) eqn:Ego.
  - destruct (rename_one_moves _ _ _ _ _ _ _ _ I p items Hq Ego) as (o & r1 & id & v1 & -> & Er & I1 & R1 & Hsp).
    cbn [mbind option_bind]. destruct (IH _ _ _ _ _ _ _ I1) as (v' & outs & ids & r' & E & Eref & Hl & Hs & R).
    rewrite length_app, Nat.add_1_r in E. rewrite E.
    assert (length (drop (cost p) free) = (length free - cost p)%nat) as Hlen by apply length_drop.
    assert (Z.of_nat (cost p) <= Z.of_nat (length free)) by (apply andb_true_iff in Ego as [?%Z.leb_le _]; lia).
    replace (Z.of_nat (length (drop (cost p) free))) with (Z.of_nat (length free) - Z.of_nat (cost p)) in Eref, Hl, Hs by lia.
    rewrite Hsp in Eref, Hl, Hs. cbn [q_items q_remove] in Eref, Hl, Hs. rewrite Hq in Eref, Hl, Hs.
    cbn [drop] in Eref, Hl, Hs. rewrite drop_0 in Eref, Hl, Hs.
    exists v', (o :: outs), (id :: ids), r'. cbn [take rename_ref length]. rewrite Er. cbn [mbind option_bind].
    rewrite Eref. cbn [mbind option_bind]. split_and!; try done; [by rewrite Hl| |by eapply renamed_cons].
    rewrite Hs. cbn [out_slots zip_with Nat.sub]. by rewrite <- !app_assoc.
  - destruct (rename_one_blocked _ _ _ _ _ _ _ _ I p items Hq Ego) as (v' & -> & Hs & R).
    cbn [mbind option_bind]. exists v', [], [], r. split_and!; try done.
    rewrite Hs. apply (li_send _ _ _ _ _ _ _ _ I).
Qed.

(** ** The end of the cycle *)

(** The deferred allocations give the reference's mapping, also on a table
    [r1] that has meanwhile seen the updates of commit. *)
Lemma rename_ref_tracks ps r free r1 outs r' :
  rename_ref mem b0 r0 r free ps = Some (outs, r') -> rat_tracks r r1 -> arch_reg_num r = ARCH_REG_NUM ->
  Forall (fun x => in_phy r x /\ rat_valid r x = false) free -> NoDup free -> Forall (renamable b0) ps ->
  exists r1', rat_apply_all r1 (map_requests outs) = Some r1' /\ rat_tracks r' r1'.
Proof.
  revert r free r1 outs. induction ps as [|p ps IH]; intros r free r1 outs E T Ha Hf Hnd Hp; cbn [rename_ref] in E.
  { simplify_eq. by exists r1. }
  apply Forall_cons_iff in Hp as [Hp Hps]. apply bind_Some in E as ([[o r2] free2] & E1 & E).
  apply bind_Some in E as ([os r3] & E2 & [= <- <-]). unfold rename_ref1 in E1.
  apply bind_Some in E1 as (rs1 & _ & E1). apply bind_Some in E1 as (rs2 & _ & E1).
  apply bind_Some in E1 as ([[[rd old] r2'] free2'] & Ed & E1). apply bind_Some in E1 as (reqs & _ & [= <- <- <-]).
  unfold map_requests. cbn [mbind list_bind]. fold (map_requests os). rewrite rat_apply_all_app.
  unfold slot_renames. cbn [ro_op rr_enable rr_valid rr_need_rename rename_op_of upd].
  rewrite (rp_enable _ _ Hp). cbn [andb]. fold (renames p). unfold rename_ref_dest in Ed.
  destruct (renames p) eqn:Er.
  - destruct free as [|x free]; [done|]. cbn in Ed. apply Forall_cons_iff in Hf as [[Hx Vx] Hf].
    apply list.NoDup_cons in Hnd as [Hnin Hnd].
    assert (in_arch r (dr_rd p)) as Hin by (unfold in_arch; rewrite Ha; apply (rp_rd _ _ Hp Er)).
    destruct (rat_tracks_set_map r r1 (dr_rd p) x T Hin Hx Vx) as (old' & r'' & r1'' & F1 & F2 & T').
    rewrite F1 in Ed. cbn in Ed. simplify_eq. cbn [rat_apply_all rat_sync_one].
    match goal with |- context [rat_set_map r1 ?a ?y] => change (rat_set_map r1 a y) with (rat_set_map r1 (dr_rd p) rd) end.
    rewrite F2. cbn [mbind option_bind].
    pose proof (rat_set_map_frame _ _ _ _ _ (tr_wf _ _ T) Hin Hx Vx F1) as Fr. pose proof Fr as (P1 & P2 & _).
    eapply IH; try done; [congruence|].
    destruct (rat_set_map_spec r (dr_rd p) rd (tr_wf _ _ T) Hin Hx Vx) as (? & ? & E' & _ & _ & _ & _ & Vv & _).
    rewrite F1 in E'. simplify_eq. apply list.Forall_forall. intros y Hy. rewrite list.Forall_forall in Hf.
    destruct (Hf y Hy) as [Hy1 Hy2]. split; [by apply (in_phy_frame r)|]. apply not_true_is_false. rewrite Vv by done.
    intros [| ->]; [congruence|done].
  - simplify_eq. cbn [rat_apply_all mbind option_bind]. by eapply IH.
Qed.

End group.

Lemma rat_wf_queue Q r : rat_wf r -> rat_wf (with_queue Q r).
Proof. by intros []; split. Qed.

Lemma with_queue_self r : with_queue (rat_sync_request_q r) r = r.
Proof. by destruct r. Qed.

(** What the theorem below says of a cycle that renames. *)
Definition rename_cycle (mem : checkpoint_t) (s s' : rename_world) (q : queue decode_rename_pack_t) : Prop :=
  let r0 := rn_rat s in
  let k := rename_count (Z.to_nat RENAME_WIDTH) (Z.of_nat (length (free_list r0))) (rob_get_free_space (rn_rob s))
             (q_items q) in
  exists outs ids r' r2,
    rename_ref mem (rn_checkpoint_buffer s) r0 r0 (free_list r0) (take k (q_items q)) = Some (outs, r') /\
    length outs = k /\ length ids = k /\
    port_get (rn_rename_readreg_port s') =
      out_slots outs ids ++ repeat rename_readreg_op_info_zero (Z.to_nat RENAME_WIDTH - k) /\
    fifo_refines (rn_decode_rename_fifo s') (q_remove k q) /\
    rob_ok (rn_rob s') /\ rob_entries (rn_rob s') = rob_entries (rn_rob s) ++ zip ids (ro_item <$> outs) /\
    rn_checkpoint_buffer s' =
      (rn_checkpoint_buffer s) <| cb_sync_request_q ::= fun l => l ++ (outs ≫= ro_checkpoint) |> /\
    rat_sync (rn_rat s') = Some r2 /\ rat_wf r2 /\ (forall a p, rat_maps r2 a p <-> rat_maps r' a p).

(** C3: renaming a group is renaming its instructions one after the other.  The
    stage takes as many instructions as slots, free registers and entries of
    the reorder buffer allow; every packet, item of the reorder buffer and
    checkpoint is the reference's, where each instruction sees the mappings of
    those before it at once; the entries are appended in order under the ids
    the packets carry; and after the deferred updates, those of commit
    included, the table has the reference's mapping.  A stalled cycle changes
    nothing, a flushed one leaves an empty group. *)
Theorem rename_run_correct mem mem_ids s q stall c r1 :
  rat_wf (rn_rat s) -> phy_reg_num (rn_rat s) = PHY_REG_NUM -> arch_reg_num (rn_rat s) = ARCH_REG_NUM ->
  checkpoint_shape mem -> length mem_ids = Z.to_nat RENAME_WIDTH ->
  fifo_refines (rn_decode_rename_fifo s) q -> Forall (renamable (rn_checkpoint_buffer s)) (q_items q) ->
  rob_ok (rn_rob s) ->
  rat_apply_all (rn_rat s) (rat_sync_request_q (rn_rat s)) = Some r1 -> rat_tracks (rn_rat s) r1 ->
  exists s', rename_run mem mem_ids s stall c = Some (bool_decide (q_items q = []), s') /\
    if flushes c
    then s' = s <| rn_rename_readreg_port ::= fun p => port_set p rename_readreg_pack_zero |>
                <| rn_busy := false |> <| rn_rev_pack := decode_rename_pack_zero |>
    else if stall then s' = s else rename_cycle mem s s' q.
Proof.
  intros WF Hphy Hk Hmem Hids Hq Hp Hrob Happ T. unfold rename_run. fold (flushes c).
  assert (fifo_is_empty (rn_decode_rename_fifo s) = bool_decide (q_items q = [])) as ->
    by (destruct Hq as (b & st & W); apply (repr_is_empty W)).
  destruct (flushes c); cbn [negb]; [by eexists|]. destruct stall; cbn [negb]; [by eexists|].
  destruct (rat_save_spec (rn_rat s) mem (wf_shape _ WF) Hphy Hmem) as (cp & -> & _ & Cv & Cs & Ct). cbn [mbind option_bind].
  destruct (rename_loop_ref mem (rn_rat s) (rn_checkpoint_buffer s) WF Hk (Z.to_nat RENAME_WIDTH) (rn_rat s)
    (free_list (rn_rat s)) [] q (rat_sync_request_q (rn_rat s)) (mk_rename_vars rename_readreg_pack_zero 0 0 mem_ids 0 cp s) 0)
    as (v' & outs & ids & r' & E & Eref & Hl & Hs & [R1 R2 R3 R4 R5 R6 R7]).
  { split; try done; [by apply free_list_start|by rewrite with_queue_self|lia]. }
  cbn [length] in E. rewrite E. cbn [mbind option_bind]. eexists. split; [reflexivity|].
  pose proof (free_list_start (rn_rat s) WF) as [_ _ _ _ Gf Gn _].
  set (k := rename_count _ _ _ _) in *.
  destruct (rename_ref_tracks mem (rn_rat s) (rn_checkpoint_buffer s) (take k (q_items q)) (rn_rat s)
    (free_list (rn_rat s)) r1 outs r' Eref T Hk Gf Gn) as (r2 & E2 & T2); [by apply Forall_take|].
  exists outs, ids, r', (with_queue [] r2). fold k.
  split_and!; try done; [by rewrite R1|rewrite Hl in R2; exact R2| |apply rat_wf_queue, T2|].
  - match goal with |- rat_sync ?x = _ => change x with (rn_rat (rv_world v')) end.
    rewrite rat_sync_apply, R5. cbn [rat_sync_request_q with_queue upd].
    rewrite rat_apply_all_queue, rat_apply_all_app, Happ. cbn [mbind option_bind]. by rewrite E2.
  - intros a p. apply (tr_maps _ _ T2).
Qed.

(** ** Decode delivers what rename relies on *)

Definition regs_from (x : op_fields) (p : decode_rename_pack_t) : Prop :=
  dr_enable p = true /\ (dr_rd p = 0 \/ dr_rd p = rd x) /\ (dr_rs1 p = 0 \/ dr_rs1 p = rs1 x) /\
  (dr_rs2 p = 0 \/ dr_rs2 p = rs2 x).

Ltac regs_cases :=
  repeat match goal with
    | |- context [if ?b then _ else _] => destruct b
    end; (split_and!; cbn; auto).

Lemma decode_opcode_regs x p p' :
  regs_from x p -> decode_opcode x p = Some p' -> regs_from x p'.
Proof.
  intros (He & Hd & H1 & H2) E. unfold decode_opcode in E.
  repeat match type of E with (if ?b then _ else _) = _ => destruct b end;
    unfold decode_jal, decode_jalr, decode_branch, decode_load, decode_store, decode_op_imm in E;
    try (apply bind_Some in E as (imm & _ & E)); injection E as <-;
    unfold decode_lui, decode_auipc, decode_op_reg, decode_fence, decode_system, decode_plain, decode_csr_reg,
      decode_csr_imm; regs_cases.
Qed.

Lemma get_fields_regs w :
  is_u32 w -> 0 <= rd (get_fields w) < 32 /\ 0 <= rs1 (get_fields w) < 32 /\ 0 <= rs2 (get_fields w) < 32.
Proof.
  intros Hw. rewrite get_fields_eq by done. cbn [rd rs1 rs2].
  split_and!; apply (Z.mod_pos_bound _ (2 ^ 5)); reflexivity.
Qed.

Lemma finish_renamable b rev_pack x p :
  regs_from x p -> 0 <= rd x < 32 /\ 0 <= rs1 x < 32 /\ 0 <= rs2 x < 32 ->
  (fd_checkpoint_id_valid rev_pack = true -> is_Some (cb_get_item b (fd_checkpoint_id rev_pack))) ->
  renamable b (decode_finish rev_pack p).
Proof.
  intros (He & Hd & H1 & H2) (R0 & R1 & R2) Hcp. split.
  - exact He.
  - unfold renames. cbn. intros [_ [Hre ?%Z.ltb_lt]%andb_true_iff]%andb_true_iff. split; [done|].
    change ARCH_REG_NUM with 32. lia.
  - cbn. intros _ -> ?. by apply Z.ltb_lt.
  - cbn. intros [_ ?%Z.ltb_lt]%andb_true_iff. change ARCH_REG_NUM with 32. lia.
  - cbn. intros [_ ?%Z.ltb_lt]%andb_true_iff. change ARCH_REG_NUM with 32. lia.
  - cbn. intros [_ ?]%andb_true_iff. by apply Hcp.
Qed.

Lemma decode_renamable b rev_pack p :
  is_u32 (fd_value rev_pack) -> fd_enable rev_pack = true -> decode_pack rev_pack = Some p ->
  (fd_checkpoint_id_valid rev_pack = true -> is_Some (cb_get_item b (fd_checkpoint_id rev_pack))) -> renamable b p.
Proof.
  intros Hw Hen E Hcp. unfold decode_pack in E. rewrite Hen in E. apply bind_Some in E as (p0 & E & [= <-]).
  apply decode_opcode_regs in E; [|split; [done|]; split_and!; left; reflexivity].
  eapply finish_renamable; [exact E|by apply get_fields_regs|exact Hcp].
Qed.

(** Two dependent instructions, [add x5, x6, x7] and [add x6, x5, x5]: the
    second reads the register just given to x5 by the first. *)
Definition rename_demo_packs : list decode_rename_pack_t :=
  [decoded_pack (fetch_demo (encode (OP ADD 5 6 7))) (decoded_of (OP ADD 5 6 7));
   decoded_pack (fetch_demo (encode (OP ADD 6 5 5))) (decoded_of (OP ADD 6 5 5))].

Definition rename_demo : rename_world :=
  mk_rename_world (mk_fifo (rename_demo_packs ++ [decode_rename_pack_zero]) 3 2 false 0 false false 0 false)
    (port_new rename_readreg_pack_zero) rat_demo (rob_new (repeat rob_item_zero 4, 0, false) 4)
    (checkpoint_buffer_new (repeat rat_demo_cp 2, 0, false) 2) false decode_rename_pack_zero 0 0.

Definition rename_demo_queue : queue decode_rename_pack_t := mk_queue 3 [] rename_demo_packs false false.

Lemma rename_demo_renamable : Forall (renamable (rn_checkpoint_buffer rename_demo)) rename_demo_packs.
Proof.
  repeat apply Forall_cons_2; try apply Forall_nil_2.
  - apply (decode_renamable _ (fetch_demo (encode (OP ADD 5 6 7)))); try reflexivity;
      [split; vm_compute; congruence|discriminate].
  - apply (decode_renamable _ (fetch_demo (encode (OP ADD 6 5 5)))); try reflexivity;
      [split; vm_compute; congruence|discriminate].
Qed.

Lemma rename_run_correct_witness :
  exists s' t1 t2, rename_run rat_demo_cp [0; 0; 0; 0] rename_demo false commit_feedback_zero = Some (false, s') /\
    port_get (rn_rename_readreg_port s') = [t1; t2; rename_readreg_op_info_zero; rename_readreg_op_info_zero] /\
    rr_rs1_phy t2 = rr_rd_phy t1 /\ rr_rs1_phy t1 = 6 /\
    exists r2, rat_sync (rn_rat s') = Some r2 /\ rat_wf r2 /\ rat_maps r2 5 (rr_rd_phy t1).
Proof.
  destruct (rename_run_correct rat_demo_cp [0; 0; 0; 0] rename_demo rename_demo_queue false commit_feedback_zero rat_demo)
    as (s' & E & outs & ids & r' & r2 & Eref & _ & Hids & Hport & _ & _ & _ & _ & Hsync & Hwf & Hmaps).
  - exact rat_demo_wf.
  - reflexivity.
  - reflexivity.
  - split_and!; reflexivity.
  - reflexivity.
  - exists 0%nat, false. split; cbn; try done; lia.
  - exact rename_demo_renamable.
  - apply (fifo_new_ok (repeat rob_item_zero 4) 0 false). simpl. lia.
  - reflexivity.
  - exact (rat_tracks_refl _ rat_demo_wf).
  - exists s'. vm_compute in Eref. injection Eref as <- <-.
    assert (length ids = 2%nat) as Hl by (rewrite Hids; vm_compute; reflexivity).
    destruct ids as [|i1 [|i2 [|i3 ids]]]; try discriminate Hl.
    eexists _, _. split; [exact E|]. split; [exact Hport|]. split; [reflexivity|]. split; [reflexivity|].
    exists r2. split; [exact Hsync|]. split; [exact Hwf|]. apply Hmaps.
    split; [vm_compute; split; congruence|]. vm_compute. auto.
Defined.
