(* ===== verification/Commit.v ===== *)
(** The commit stage [pipeline::commit] of [pipeline/commit.cpp].

    In the state [normal] the stage retires finished instructions from the
    front of the reorder buffer, in program order, and takes in the packets of
    write-back.  A mispredicted branch restores the renaming of its
    checkpoint at once.  An exception or an interrupt changes to the states
    [flush] or [interrupt_flush], in which one entry of the reorder buffer per
    cycle is undone, from its tail to the offending instruction. *)

From Stdlib Require Import ZArith Lia.
From stdpp Require Import base numbers list option tactics gmap.
From S2P Require Import Prelude Common Bitmap Fifo FifoIds IdQueue Ras Rob CheckpointBuffer Rat RatSync CsrFile InterruptInterface Regfile PipelineCommon Packs Isa Decode BranchPredictor Execute WriteBack Rename.

Local Open Scope Z_scope.

Inductive state_t := normal | flush | interrupt_flush.

#[export] Instance state_eq_dec : EqDecision state_t.
Proof. solve_decision. Defined.

(** The stage and what it shares with the others; the last four are counters
    of [main.cpp]. *)
Record commit_world := mk_commit_world {
  cm_rat : rat;
  cm_rob : rob;
  cm_csr_file : csrfile;
  cm_phy_regfile : regfile phy_regfile_item_t;
  cm_checkpoint_buffer : checkpoint_buffer;
  cm_branch_predictor : branch_predictor;
  cm_interrupt_interface : interrupt_interface;
  cm_cur_state : state_t;
  cm_rob_item : rob_item_t;
  cm_rob_item_id : Z;
  cm_restore_rob_item_id : Z;
  cm_interrupt_pc : Z;
  cm_interrupt_id : riscv_interrupt_t;
  cm_branch_num : Z;
  cm_branch_predicted : Z;
  cm_branch_hit : Z;
  cm_branch_miss : Z
}.

#[export] Instance commit_world_eta : Eta commit_world := fun s =>
  mk_commit_world (cm_rat s) (cm_rob s) (cm_csr_file s) (cm_phy_regfile s) (cm_checkpoint_buffer s)
    (cm_branch_predictor s) (cm_interrupt_interface s) (cm_cur_state s) (cm_rob_item s) (cm_rob_item_id s)
    (cm_restore_rob_item_id s) (cm_interrupt_pc s) (cm_interrupt_id s) (cm_branch_num s) (cm_branch_predicted s)
    (cm_branch_hit s) (cm_branch_miss s).

Definition commit_reset (s : commit_world) : commit_world :=
  s <| cm_cur_state := normal |> <| cm_interrupt_pc := 0 |> <| cm_interrupt_id := machine_external |>.

Definition branch_num_add (s : commit_world) : commit_world := s <| cm_branch_num := u64 (cm_branch_num s + 1) |>.
Definition branch_predicted_add (s : commit_world) : commit_world :=
  s <| cm_branch_predicted := u64 (cm_branch_predicted s + 1) |>.
Definition branch_hit_add (s : commit_world) : commit_world := s <| cm_branch_hit := u64 (cm_branch_hit s + 1) |>.
Definition branch_miss_add (s : commit_world) : commit_world := s <| cm_branch_miss := u64 (cm_branch_miss s + 1) |>.

(** [default_phy_reg_item], cleared by [memset]. *)
Definition phy_regfile_item_zero : phy_regfile_item_t := mk_phy_regfile_item 0.

Definition commit_counted (s : commit_world) : commit_world :=
  s <| cm_rob ::= fun r => rob_add_commit_num (rob_set_committed r true) 1 |>.

(** * Retiring one instruction *)

(** The variables of the loop. *)
Record commit_vars := mk_commit_vars {
  cv_world : commit_world;
  cv_feedback_pack : commit_feedback_pack_t;
  cv_need_flush : bool
}.

#[export] Instance commit_vars_eta : Eta commit_vars := fun v =>
  mk_commit_vars (cv_world v) (cv_feedback_pack v) (cv_need_flush v).

Definition commit_exception (v : commit_vars) : option commit_vars :=
  tail_id ← rob_get_tail_id (cm_rob (cv_world v));
  Some (v <| cv_world ::= fun s => s <| cm_restore_rob_item_id := tail_id |> <| cm_cur_state := flush |> |>
          <| cv_feedback_pack ::= fun p => p <| cf_enable := true |> <| cf_flush := true |> |>
          <| cv_need_flush := true |>).

(** The previous mapping of the destination is released, the new one marked. *)
Definition commit_release (rob_item : rob_item_t) (s : commit_world) : commit_world :=
  if rob_old_phy_reg_id_valid rob_item then
    s <| cm_rat ::= fun r => rat_commit_map_sync (rat_release_map_sync r (rob_old_phy_reg_id rob_item))
                               (rob_new_phy_reg_id rob_item) |>
      <| cm_phy_regfile ::= fun f =>
           regfile_write_sync f (rob_old_phy_reg_id rob_item) phy_regfile_item_zero false |>
  else s.

Definition commit_csr (rob_item : rob_item_t) (s : commit_world) : commit_world :=
  if rob_csr_newvalue_valid rob_item then
    s <| cm_csr_file ::= fun f => csrfile_write_sync f (rob_csr_addr rob_item) (rob_csr_newvalue rob_item) |>
  else s.

Definition commit_mret (s : commit_world) : option commit_world :=
  value ← csrfile_read_sys (cm_csr_file s) CSR_MSTATUS;
  let m := csr_load (csr_new mstatus) value in
  let m := mstatus_set_mie m (mstatus_get_mpie m) in
  Some (s <| cm_csr_file ::= fun f => csrfile_write_sys_sync f CSR_MSTATUS (csr_get_value m) |>).

(** [feedback_pack.jump_enable], [jump] and [next_pc]. *)
Definition commit_redirect (rob_item : rob_item_t) (p : commit_feedback_pack_t) : commit_feedback_pack_t :=
  p <| cf_enable := true |> <| cf_jump_enable := true |> <| cf_jump := rob_bru_jump rob_item |>
    <| cf_next_pc := if rob_bru_jump rob_item then rob_bru_next_pc rob_item else u32 (rob_pc rob_item + 4) |>.

(** [for(uint32_t i = 0;i < PHY_REG_NUM;i++)]: only the current mappings stay
    allocated, and they are valid.  The result is the checkpoint and [_cnt]. *)
Fixpoint recover_loop (r : rat) (f : regfile phy_regfile_item_t) (ids : list Z) (cp : checkpoint_t) (cnt : Z)
    : option (checkpoint_t * Z) :=
  match ids with
  | [] => Some (cp, cnt)
  | i :: ids =>
      visible ← rat_cp_get_visible r cp i;
      if negb visible then
        cp ← rat_cp_set_valid r cp i false;
        cp ← regfile_cp_set_data_valid f cp i false;
        recover_loop r f ids cp cnt
      else
        cp ← regfile_cp_set_data_valid f cp i true;
        recover_loop r f ids cp (u32 (cnt + 1))
  end.

Definition commit_mispredict (rob_item : rob_item_t) (v : commit_vars) : option commit_vars :=
  let s := branch_miss_add (cv_world v) in
  bp ← update_prediction (cm_branch_predictor s) (rob_pc rob_item) (rob_inst_value rob_item) (rob_bru_jump rob_item)
         (rob_bru_next_pc rob_item) false;
  cp ← cb_get_item (cm_checkpoint_buffer s) (rob_checkpoint_id rob_item);
  cp ← (if rob_old_phy_reg_id_valid rob_item
        then rat_cp_release_map (cm_rat s) cp (rob_old_phy_reg_id rob_item) else Some cp);
  '(cp, cnt) ← recover_loop (cm_rat s) (cm_phy_regfile s) (upto PHY_REG_NUM) cp 0;
  _ ← assert (cnt =? 31);
  Some (v <| cv_world := s <| cm_branch_predictor := bp |>
               <| cm_rat ::= fun r => rat_restore_sync r cp |>
               <| cm_phy_regfile ::= fun f => regfile_restore_sync f cp |>
               <| cm_rob ::= rob_flush |>
               <| cm_checkpoint_buffer ::= cb_flush |> |>
          <| cv_feedback_pack ::= fun p => commit_redirect rob_item (p <| cf_flush := true |>) |>
          <| cv_need_flush := true |>).

Definition prediction_hit (rob_item : rob_item_t) : bool :=
  eqb (rob_bru_jump rob_item) (rob_predicted_jump rob_item) &&
  ((rob_bru_next_pc rob_item =? rob_predicted_next_pc rob_item) || negb (rob_predicted_jump rob_item)).

(** The part under [if(rob_item.bru_op)]; every path of it leaves the loop. *)
Definition commit_branch (rob_item : rob_item_t) (v : commit_vars) : option commit_vars :=
  let s := branch_num_add (cv_world v) in
  s ← (if rob_is_mret rob_item then commit_mret s else Some s);
  if rob_predicted rob_item then
    let s := branch_predicted_add s in
    if prediction_hit rob_item then
      let s := branch_hit_add s in
      bp ← update_prediction (cm_branch_predictor s) (rob_pc rob_item) (rob_inst_value rob_item) (rob_bru_jump rob_item)
             (rob_bru_next_pc rob_item) true;
      Some (v <| cv_world := s <| cm_branch_predictor := bp |> <| cm_checkpoint_buffer ::= cb_pop_sync |> |>)
    else if rob_checkpoint_id_valid rob_item then commit_mispredict rob_item (v <| cv_world := s |>)
    else None
  else Some (v <| cv_world := s |> <| cv_feedback_pack ::= commit_redirect rob_item |>).

(** One iteration; [false] is [break]. *)
Definition commit_one (first_id : Z) (i : nat) (v : commit_vars) : option (bool * commit_vars) :=
  let s := cv_world v in
  let id := cm_rob_item_id s in
  rob_item ← rob_get_item (cm_rob s) id;
  let s := s <| cm_rob_item := rob_item |> in
  if rob_finish rob_item then
    '(next_id, next_ok) ← rob_get_next_id (cm_rob s) id;
    committed ← arr_set (cf_committed (cv_feedback_pack v)) (Z.of_nat i) (true, id);
    let v := v <| cv_world := s |>
               <| cv_feedback_pack ::= fun p =>
                    p <| cf_next_handle_rob_id := next_id |>
                      <| cf_next_handle_rob_id_valid := next_ok && negb (next_id =? first_id) |>
                      <| cf_committed := committed |> |> in
    if rob_has_exception rob_item then v ← commit_exception v; Some (false, v)
    else
      let s := s <| cm_rob ::= rob_pop_sync |> in
      let s := commit_csr rob_item (commit_counted (commit_release rob_item s)) in
      let v := v <| cv_world := s |> in
      if rob_bru_op rob_item then v ← commit_branch rob_item v; Some (false, v)
      else
        '(next_id, next_ok) ← rob_get_next_id (cm_rob s) id;
        let v := v <| cv_world := s <| cm_rob_item_id := next_id |> |> in
        Some (next_ok && negb (next_id =? first_id), v)
  else Some (false, v <| cv_world := s |>).

Fixpoint commit_loop (first_id : Z) (n i : nat) (v : commit_vars) : option commit_vars :=
  match n with
  | O => Some v
  | S n =>
      '(continue, v) ← commit_one first_id i v;
      if (continue : bool) then commit_loop first_id n (S i) v else Some v
  end.

(** * Taking in the packets of write-back *)

(** The item of an instruction once its packet has arrived. *)
Definition finished_item (op_info : wb_commit_op_info_t) (rob_item : rob_item_t) : rob_item_t :=
  rob_item <| rob_finish := true |>
    <| rob_has_exception := wc_has_exception op_info |>
    <| rob_exception_id := wc_exception_id op_info |>
    <| rob_exception_value := wc_exception_value op_info |>
    <| rob_predicted := wc_predicted op_info |>
    <| rob_predicted_jump := wc_predicted_jump op_info |>
    <| rob_predicted_next_pc := wc_predicted_next_pc op_info |>
    <| rob_checkpoint_id_valid := wc_checkpoint_id_valid op_info |>
    <| rob_checkpoint_id := wc_checkpoint_id op_info |>
    <| rob_bru_op := bool_decide (wc_op_unit op_info = unit_bru) |>
    <| rob_bru_jump := wc_bru_jump op_info |>
    <| rob_bru_next_pc := wc_bru_next_pc op_info |>
    <| rob_csr_newvalue := wc_csr_newvalue op_info |>
    <| rob_csr_newvalue_valid := wc_csr_newvalue_valid op_info |>.

Fixpoint commit_input (op_infos : wb_commit_pack_t) (r : rob) : option rob :=
  match op_infos with
  | [] => Some r
  | op_info :: op_infos =>
      if wc_enable op_info then
        rob_item ← rob_get_item r (wc_rob_id op_info);
        commit_input op_infos (rob_set_item_sync r (wc_rob_id op_info) (finished_item op_info rob_item))
      else commit_input op_infos r
  end.

(** * The states *)

Definition commit_normal_output (v : commit_vars) : option commit_vars :=
  let s := cv_world v in
  if negb (fifo_is_empty (rob_fifo (cm_rob s))) then
    first_id ← rob_get_front_id (cm_rob s);
    rob_item ← rob_get_item (cm_rob s) first_id;
    let s := s <| cm_rob_item_id := first_id |> <| cm_rob_item := rob_item |> in
    let v := v <| cv_feedback_pack ::= fun p =>
                    p <| cf_enable := true |> <| cf_next_handle_rob_id := first_id |>
                      <| cf_next_handle_rob_id_valid := true |> |> in
    cause ← int_get_cause (cm_interrupt_interface s) (cm_csr_file s);
    match cause with
    | Some cause =>
        tail_id ← rob_get_tail_id (cm_rob s);
        Some (v <| cv_world := s <| cm_interrupt_id := cause |> <| cm_interrupt_pc := rob_pc rob_item |>
                     <| cm_restore_rob_item_id := tail_id |> <| cm_cur_state := interrupt_flush |> |>
                <| cv_feedback_pack ::= fun p => p <| cf_enable := true |> <| cf_flush := true |> |>
                <| cv_need_flush := true |>)
    | None => commit_loop first_id (Z.to_nat COMMIT_WIDTH) 0 (v <| cv_world := s |>)
    end
  else Some v.

Definition commit_normal (rev_pack : wb_commit_pack_t) (s : commit_world) : option (commit_feedback_pack_t * commit_world) :=
  v ← commit_normal_output (mk_commit_vars s commit_feedback_zero false);
  let s := cv_world v in
  s ← (if negb (cv_need_flush v) then r ← commit_input rev_pack (cm_rob s); Some (s <| cm_rob := r |>) else Some s);
  Some (cv_feedback_pack v, s).

(** Undoing the renaming of the entry [restore_rob_item_id]. *)
Definition commit_undo (s : commit_world) : option commit_world :=
  t_rob_item ← rob_get_item (cm_rob s) (cm_restore_rob_item_id s);
  Some (if rob_old_phy_reg_id_valid t_rob_item then
          s <| cm_rat ::= fun r =>
                 rat_restore_map_sync r (rob_new_phy_reg_id t_rob_item) (rob_old_phy_reg_id t_rob_item) |>
            <| cm_phy_regfile ::= fun f =>
                 regfile_write_sync f (rob_new_phy_reg_id t_rob_item) phy_regfile_item_zero false |>
        else s).

(** The end of an exception, and of an interrupt: what the [else] branches do
    before the state returns to [normal]. *)
Definition enter_exception (s : commit_world) : option commit_world :=
  let it := cm_rob_item s in
  Some (s <| cm_csr_file ::= fun f =>
               csrfile_write_sys_sync
                 (csrfile_write_sys_sync (csrfile_write_sys_sync f CSR_MEPC (rob_pc it)) CSR_MTVAL (rob_exception_value it))
                 CSR_MCAUSE (exception_code (rob_exception_id it)) |>).

Definition enter_interrupt (s : commit_world) : option commit_world :=
  let f := csrfile_write_sys_sync (cm_csr_file s) CSR_MEPC (cm_interrupt_pc s) in
  let f := csrfile_write_sys_sync f CSR_MTVAL 0 in
  let f := csrfile_write_sys_sync f CSR_MCAUSE (Z.lor 0x80000000 (interrupt_code (cm_interrupt_id s))) in
  value ← csrfile_read_sys f CSR_MSTATUS;
  let m := csr_load (csr_new mstatus) value in
  let m := mstatus_set_mpie m (mstatus_get_mie m) in
  let m := mstatus_set_mie m false in
  let f := csrfile_write_sys_sync f CSR_MSTATUS (csr_get_value m) in
  Some (s <| cm_csr_file := f |>
          <| cm_interrupt_interface ::= fun i => int_set_ack_sync i (cm_interrupt_id s) |>).

(** A cycle of the walk; [enter] is one of the two above.  ([get_prev_id] is
    called once more for the trace.) *)
Definition commit_walk (enter : commit_world -> option commit_world) (s : commit_world)
    : option (commit_feedback_pack_t * commit_world) :=
  s ← commit_undo s;
  let id := cm_restore_rob_item_id s in
  '(prev_id, prev_ok) ← rob_get_prev_id (cm_rob s) id;
  let '(go_on, s) := if negb (id =? cm_rob_item_id s) then (prev_ok, s <| cm_restore_rob_item_id := prev_id |>)
                     else (false, s) in
  let p := commit_feedback_zero <| cf_enable := true |> <| cf_flush := true |> in
  if (go_on : bool) then Some (p, s)
  else
    s ← enter (s <| cm_rob ::= rob_flush |>);
    exception_pc ← csrfile_read_sys (cm_csr_file s) CSR_MTVEC;
    Some (p <| cf_has_exception := true |> <| cf_exception_pc := exception_pc |>,
          commit_counted (s <| cm_cur_state := normal |>)).

(** [run], given the packet in [wb_commit_port]. *)
Definition commit_run (wb_commit_port : port wb_commit_pack_t) (s : commit_world)
    : option (commit_feedback_pack_t * commit_world) :=
  match cm_cur_state s with
  | normal => commit_normal (port_get wb_commit_port) s
  | flush => commit_walk enter_exception s
  | interrupt_flush => commit_walk enter_interrupt s
  end.

(** The first updates at the end of a cycle of the core: those of the
    components above. *)
Definition commit_sync (s : commit_world) : option commit_world :=
  r ← rat_sync (cm_rat s);
  b ← rob_sync (cm_rob s);
  f ← regfile_sync (cm_phy_regfile s);
  c ← csrfile_sync (cm_csr_file s);
  Some (s <| cm_rat := r |> <| cm_rob := b |> <| cm_phy_regfile := f |> <| cm_csr_file := c |>).

Definition commit_cycle (wb_commit_port : port wb_commit_pack_t) (s : commit_world)
    : option (commit_feedback_pack_t * commit_world) :=
  '(p, s) ← commit_run wb_commit_port (s <| cm_rob ::= fun r => rob_set_committed r false |>);
  s ← commit_sync s;
  Some (p, s).
