(* ===== verification/CommitRetire.v ===== *)
(** Retirement: the loop of the commit stage in the state [normal].

    [commit_scan] says which entries of the reorder buffer a cycle retires and
    why it stops; the loop does exactly that.  Its updates are all deferred;
    [retire_world] collects those of one instruction. *)

From Stdlib Require Import ZArith Lia.
From stdpp Require Import base numbers list option tactics gmap.
From S2P Require Import Prelude Common Bitmap Fifo FifoIds IdQueue Ras Rob CheckpointBuffer Rat RatSync Inflight CsrFile InterruptInterface Regfile PipelineCommon Packs Isa Decode BranchPredictor Execute WriteBack Rename Commit.

Local Open Scope Z_scope.

(** * The specification *)

(** The allocation an entry records, and those of a list of entries. *)
Definition item_log (it : rob_item_t) : list (Z * Z) :=
  if rob_old_phy_reg_id_valid it then [(rob_new_phy_reg_id it, rob_old_phy_reg_id it)] else [].

Definition log_of (es : list (Z * rob_item_t)) : list (Z * Z) := mjoin ((fun e => item_log e.2) <$> es).

Lemma log_of_app es1 es2 : log_of (es1 ++ es2) = log_of es1 ++ log_of es2.
Proof. unfold log_of. by rewrite fmap_app, join_app. Qed.

Lemma log_of_cons e es : log_of (e :: es) = item_log e.2 ++ log_of es.
Proof. done. Qed.

Inductive commit_stop :=
| stop_idle
| stop_exception (id : Z) (it : rob_item_t)
| stop_branch (id : Z) (it : rob_item_t).

(** The entries that leave without further ado, and what comes behind them:
    an entry that is not finished (or no entry, or no slot), one with an
    exception, or a branch. *)
Fixpoint commit_scan (n : nat) (es : list (Z * rob_item_t)) : list (Z * rob_item_t) * commit_stop :=
  match n, es with
  | S n, (id, it) :: es =>
      if negb (rob_finish it) then ([], stop_idle)
      else if rob_has_exception it then ([], stop_exception id it)
      else if rob_bru_op it then ([], stop_branch id it)
      else let '(l, stop) := commit_scan n es in ((id, it) :: l, stop)
  | _, _ => ([], stop_idle)
  end.

(** The deferred updates of one retired instruction. *)
Definition retire_world (s : commit_world) (e : Z * rob_item_t) : commit_world :=
  commit_csr e.2 (commit_counted (commit_release e.2 (s <| cm_rob ::= rob_pop_sync |>))).

(** The scratch members of the stage. *)
Definition at_item (it : rob_item_t) (id : Z) (s : commit_world) : commit_world :=
  s <| cm_rob_item := it |> <| cm_rob_item_id := id |>.

(** The feedback pack when the entries [h] of [h ++ rest] have been handled. *)
Definition feedback_after (h rest : list (Z * rob_item_t)) (p : commit_feedback_pack_t) : Prop :=
  exists next_id, p = commit_feedback_zero <| cf_enable := true |>
         <| cf_next_handle_rob_id_valid := negb (bool_decide (rest = [])) |>
         <| cf_next_handle_rob_id := next_id |>
         <| cf_committed := ((fun e => (true, e.1)) <$> h) ++ repeat (false, 0) (Z.to_nat COMMIT_WIDTH - length h) |> /\
    forall e, head rest = Some e -> next_id = e.1.

(** * The loop *)

Lemma retire_world_fifo s e : rob_fifo (cm_rob (retire_world s e)) = rob_fifo (cm_rob s).
Proof. unfold retire_world, commit_csr, commit_release. by do 2 case_match. Qed.

Lemma at_item_retire it id s e : retire_world (at_item it id s) e = at_item it id (retire_world s e).
Proof. unfold retire_world, commit_csr, commit_release. by do 2 case_match. Qed.

Lemma at_item_fold it id s l : fold_left retire_world l (at_item it id s) = at_item it id (fold_left retire_world l s).
Proof. revert s. induction l as [|e l IH]; intros s; [done|]. cbn. by rewrite at_item_retire, IH. Qed.

Lemma at_item_twice it id it' id' s : at_item it id (at_item it' id' s) = at_item it id s.
Proof. done. Qed.

Definition stop_entries (stop : commit_stop) : list (Z * rob_item_t) :=
  match stop with stop_idle => [] | stop_exception id it | stop_branch id it => [(id, it)] end.

Lemma commit_scan_split n es :
  exists rest, es = (commit_scan n es).1 ++ stop_entries (commit_scan n es).2 ++ rest.
Proof.
  revert es. induction n as [|n IH]; intros [|[id it] es]; cbn; [by eexists..|].
  destruct (negb (rob_finish it)); [by eexists|]. destruct (rob_has_exception it); [by eexists|].
  destruct (rob_bru_op it); [by eexists|]. destruct (IH es) as [rest Er]. exists rest.
  destruct (commit_scan n es) as [l stop]. cbn in *. by rewrite Er at 1.
Qed.

Section loop.
Context (f : fifo rob_item_t) (first_id : Z) (Hok : fifo_ok f) (Hfirst : fifo_get_front_id f = Some first_id).

(** The loop is at the entry [(id, it)], behind the entries [h]. *)
Lemma commit_one_ref h id it rest s p :
  fifo_entries f = h ++ (id, it) :: rest -> rob_fifo (cm_rob s) = f -> cm_rob_item_id s = id ->
  (length h < Z.to_nat COMMIT_WIDTH)%nat -> feedback_after h ((id, it) :: rest) p ->
  let s1 := at_item it id s in
  exists p1, feedback_after (h ++ [(id, it)]) rest p1 /\
  commit_one first_id (length h) (mk_commit_vars s p false) =
    if negb (rob_finish it) then Some (false, mk_commit_vars s1 p false)
    else if rob_has_exception it then v ← commit_exception (mk_commit_vars s1 p1 false); Some (false, v)
    else let s2 := retire_world s1 (id, it) in
      if rob_bru_op it then v ← commit_branch it (mk_commit_vars s2 p1 false); Some (false, v)
      else Some (negb (bool_decide (rest = [])),
                 mk_commit_vars (s2 <| cm_rob_item_id := cf_next_handle_rob_id p1 |>) p1 false).
Proof.
  intros E Hs Hid Hlen (next0 & -> & _) s1.
  destruct (fifo_entries_next f h id it rest first_id Hok E Hfirst) as (next_id & next_ok & En & Ht & Hn).
  assert (s <| cm_rob_item := it |> = s1) as Es1.
  { unfold s1, at_item, upd. destruct s. cbn in *. by subst. }
  eexists. split.
  { exists next_id. split; [reflexivity|done]. }
  unfold commit_one. cbn [cv_world cv_feedback_pack]. rewrite Hid.
  unfold rob_get_item. rewrite Hs, (fifo_entries_get f id it) by (try done; rewrite E; set_solver).
  cbn [mbind option_bind]. rewrite Es1. destruct (rob_finish it); [|done]. cbn [negb].
  unfold rob_get_next_id. change (rob_fifo (cm_rob s1)) with (rob_fifo (cm_rob s)). rewrite Hs, En. cbn [mbind option_bind].
  match goal with |- context [arr_set ?x _ _] =>
    change x with (((fun e : Z * rob_item_t => (true, e.1)) <$> h) ++ repeat (false, 0) (Z.to_nat COMMIT_WIDTH - length h)) end.
  assert (arr_set (((fun e : Z * rob_item_t => (true, e.1)) <$> h) ++ repeat (false, 0) (Z.to_nat COMMIT_WIDTH - length h))
            (Z.of_nat (length h)) (true, id) =
          Some (((fun e : Z * rob_item_t => (true, e.1)) <$> h ++ [(id, it)]) ++
                repeat (false, 0) (Z.to_nat COMMIT_WIDTH - length (h ++ [(id, it)])))) as ->.
  { rewrite length_app. cbn [length].
    destruct (Z.to_nat COMMIT_WIDTH - length h)%nat as [|k] eqn:Ek; [lia|].
    replace (Z.to_nat COMMIT_WIDTH - (length h + 1))%nat with k by lia. cbn [repeat].
    pose proof (arr_set_middle ((fun e : Z * rob_item_t => (true, e.1)) <$> h) (repeat (false, 0) k) (false, 0) (true, id)) as H.
    rewrite length_fmap in H. rewrite H. by rewrite fmap_app, <- app_assoc. }
  cbn [mbind option_bind]. rewrite Ht.
  destruct (rob_has_exception it); [done|].
  destruct (rob_bru_op it); [done|].
  change (commit_csr it (commit_counted (commit_release it (s1 <| cm_rob ::= rob_pop_sync |>)))) with (retire_world s1 (id, it)).
  rewrite retire_world_fifo. change (rob_fifo (cm_rob s1)) with (rob_fifo (cm_rob s)). rewrite Hs, En.
  cbn [mbind option_bind]. rewrite Ht. done.
Qed.

(** What the loop leaves: [stop] behind the retired entries, in the world [s]
    with the feedback [p]. *)
Definition after_stop (stop : commit_stop) (s : commit_world) (p : commit_feedback_pack_t) : option commit_vars :=
  match stop with
  | stop_idle => Some (mk_commit_vars s p false)
  | stop_exception id it => commit_exception (mk_commit_vars (at_item it id s) p false)
  | stop_branch id it => commit_branch it (mk_commit_vars (retire_world (at_item it id s) (id, it)) p false)
  end.

Lemma commit_loop_ref n h rest s p :
  fifo_entries f = h ++ rest -> rest <> [] -> rob_fifo (cm_rob s) = f -> fst <$> head rest = Some (cm_rob_item_id s) ->
  (length h + n <= Z.to_nat COMMIT_WIDTH)%nat -> feedback_after h rest p ->
  exists it id p' rest', rest = (commit_scan n rest).1 ++ stop_entries (commit_scan n rest).2 ++ rest' /\
    feedback_after (h ++ (commit_scan n rest).1 ++ stop_entries (commit_scan n rest).2) rest' p' /\
    commit_loop first_id n (length h) (mk_commit_vars s p false) =
      after_stop (commit_scan n rest).2 (at_item it id (fold_left retire_world (commit_scan n rest).1 s)) p'.
Proof.
  revert h rest s p. induction n as [|n IH]; intros h rest s p E Hne Hs Hid Hlen Hp.
  { exists (cm_rob_item s), (cm_rob_item_id s), p, rest. cbn. rewrite app_nil_r. split_and!; try done. by destruct s. }
  destruct rest as [|[id it] rest]; [done|]. cbn in Hid. injection Hid as ->.
  destruct (commit_one_ref h _ it rest s p E Hs eq_refl ltac:(lia) Hp) as (p1 & Hp1 & E1).
  cbn [commit_loop]. rewrite E1. cbn [commit_scan]. clear E1.
  destruct (rob_finish it); cbn [negb].
  2: { exists it, (cm_rob_item_id s), p. eexists. cbn. rewrite app_nil_r. by split_and!. }
  destruct (rob_has_exception it).
  { exists it, (cm_rob_item_id s), p1, rest. cbn [fst snd stop_entries app fold_left after_stop]. split_and!; [done|done|].
    rewrite at_item_twice. by destruct (commit_exception _). }
  destruct (rob_bru_op it).
  { exists it, (cm_rob_item_id s), p1, rest. cbn [fst snd stop_entries app fold_left after_stop]. split_and!; [done|done|].
    rewrite at_item_twice. by destruct (commit_branch _ _). }
  cbn [mbind option_bind]. set (s2 := (retire_world _ _) <| cm_rob_item_id := _ |>).
  assert (s2 = at_item it (cf_next_handle_rob_id p1) (retire_world s (cm_rob_item_id s, it))) as Es2.
  { unfold s2. by rewrite at_item_retire. }
  destruct (decide (rest = [])) as [->|Hne'].
  - exists it, (cf_next_handle_rob_id p1), p1, []. cbn [bool_decide]. destruct n; cbn; by rewrite Es2.
  - rewrite bool_decide_false by done. cbn [negb].
    destruct (IH (h ++ [(cm_rob_item_id s, it)]) rest s2 p1) as (it' & id' & p' & rest' & Er & Hp' & E').
    + by rewrite <- app_assoc.
    + done.
    + rewrite Es2. unfold at_item. cbn. by rewrite retire_world_fifo.
    + destruct Hp1 as (nx & -> & Hnx). destruct rest as [|e rest]; [done|]. cbn [head fmap option_fmap option_map]. rewrite Es2.
      cbn. f_equal. symmetry. by apply Hnx.
    + rewrite length_app. cbn. lia.
    + done.
    + rewrite length_app, Nat.add_1_r in E'. rewrite E'. exists it', id', p', rest'.
      destruct (commit_scan n rest) as [l stop]. cbn [fst snd] in *. split_and!.
      * cbn. by rewrite Er at 1.
      * by rewrite <- app_assoc in Hp'.
      * cbn [fold_left]. by rewrite Es2, at_item_fold, at_item_twice.
Qed.

End loop.

(** * The deferred updates of the retired instructions *)

Definition released (log : list (Z * Z)) : list (Z * phy_regfile_item_t * bool) :=
  (fun e => (e.2, phy_regfile_item_zero, false)) <$> log.

Definition csr_writes (l : list (Z * rob_item_t)) : list csr_sync_request :=
  mjoin ((fun e => if rob_csr_newvalue_valid e.2 then [csr_req_write (rob_csr_addr e.2) (rob_csr_newvalue e.2)] else []) <$> l).

(** [s1] is [s] with the updates of the entries [l] queued behind what was
    there, followed by [reqs] for the reorder buffer and [creqs] for the
    registers. *)
Record retired (l : list (Z * rob_item_t)) (reqs : list (sync_request rob_item_t)) (creqs : list csr_sync_request)
    (s s1 : commit_world) : Prop := {
  rt_rat : cm_rat s1 = with_queue (rat_sync_request_q (cm_rat s) ++ retire_requests (log_of l)) (cm_rat s);
  rt_fifo : rob_fifo (cm_rob s1) = rob_fifo (cm_rob s);
  rt_rob : rob_sync_request_q (cm_rob s1) = rob_sync_request_q (cm_rob s) ++ repeat req_pop (length l) ++ reqs;
  rt_num : global_commit_num (cm_rob s1) = u64 (global_commit_num (cm_rob s) + Z.of_nat (length l));
  rt_regfile : cm_phy_regfile s1 = (cm_phy_regfile s) <| rf_sync_request_q ::=
                 fun q => q ++ ((fun w => rf_req_write w.1.1 w.1.2 w.2) <$> released (log_of l)) |>;
  rt_csr : cm_csr_file s1 = (cm_csr_file s) <| csr_sync_request_q ::= fun q => q ++ csr_writes l ++ creqs |>
}.

Lemma regfile_queue_nil (f : regfile phy_regfile_item_t) : f <| rf_sync_request_q ::= fun q => q ++ [] |> = f.
Proof. unfold upd. destruct f. cbn. by rewrite app_nil_r. Qed.

Lemma regfile_queue_app (f : regfile phy_regfile_item_t) a b :
  f <| rf_sync_request_q ::= fun q => q ++ a |> <| rf_sync_request_q ::= fun q => q ++ b |> =
  f <| rf_sync_request_q ::= fun q => q ++ a ++ b |>.
Proof. unfold upd. destruct f. cbn. by rewrite <- app_assoc. Qed.

Lemma csrfile_queue_app (f : csrfile) a b :
  f <| csr_sync_request_q ::= fun q => q ++ a |> <| csr_sync_request_q ::= fun q => q ++ b |> =
  f <| csr_sync_request_q ::= fun q => q ++ a ++ b |>.
Proof. unfold upd. destruct f. cbn. by rewrite <- app_assoc. Qed.

Lemma rat_queue_nil r : with_queue (rat_sync_request_q r ++ []) r = r.
Proof. rewrite app_nil_r. by destruct r. Qed.

Lemma rat_queue_retire r new old :
  rat_commit_map_sync (rat_release_map_sync r old) new =
  with_queue (rat_sync_request_q r ++ retire_requests [(new, old)]) r.
Proof.
  unfold rat_commit_map_sync, rat_release_map_sync, rat_push_request, with_queue, upd. destruct r. cbn.
  by rewrite <- app_assoc.
Qed.

Lemma csrfile_queue_nil (f : csrfile) : f <| csr_sync_request_q ::= fun q => q ++ [] |> = f.
Proof. unfold upd. destruct f. cbn. by rewrite app_nil_r. Qed.

Lemma retired_none s : 0 <= global_commit_num (cm_rob s) < 2 ^ 64 -> retired [] [] [] s s.
Proof.
  intros Hn. split; try done.
  - cbn. rewrite app_nil_r. by destruct (cm_rat s).
  - cbn. by rewrite app_nil_r.
  - cbn. rewrite Z.add_0_r. symmetry. by apply u64_small.
  - symmetry. apply regfile_queue_nil.
  - symmetry. apply csrfile_queue_nil.
Qed.

Lemma retired_one l s s1 e : retired l [] [] s s1 -> retired (l ++ [e]) [] [] s (retire_world s1 e).
Proof.
  intros [H1 H2 H3 H4 H5 H6]. destruct e as [id it].
  assert (log_of (l ++ [(id, it)]) = log_of l ++ item_log it) as Hl by (rewrite log_of_app; cbn; by rewrite app_nil_r).
  rewrite app_nil_r in H3, H6. split; rewrite ?Hl.
  - assert (cm_rat (retire_world s1 (id, it)) =
            with_queue (rat_sync_request_q (cm_rat s1) ++ retire_requests (item_log it)) (cm_rat s1)) as ->.
    { unfold retire_world, commit_csr, commit_release, item_log. cbn [snd].
      destruct (rob_csr_newvalue_valid it), (rob_old_phy_reg_id_valid it);
        first [symmetry; apply rat_queue_nil|apply rat_queue_retire]. }
    rewrite H1. cbn. unfold retire_requests. rewrite fmap_app, join_app. by rewrite <- app_assoc.
  - by rewrite retire_world_fifo.
  - assert (rob_sync_request_q (cm_rob (retire_world s1 (id, it))) = rob_sync_request_q (cm_rob s1) ++ [req_pop]) as ->
      by (unfold retire_world, commit_csr, commit_release; by do 2 case_match).
    rewrite H3, length_app, app_nil_r, <- app_assoc. f_equal. rewrite repeat_app. done.
  - assert (global_commit_num (cm_rob (retire_world s1 (id, it))) = u64 (global_commit_num (cm_rob s1) + 1)) as ->
      by (unfold retire_world, commit_csr, commit_release; by do 2 case_match).
    rewrite H4, length_app. cbn [length]. unfold u64. rewrite Zplus_mod_idemp_l. f_equal. lia.
  - assert (cm_phy_regfile (retire_world s1 (id, it)) = (cm_phy_regfile s1) <| rf_sync_request_q ::=
              fun q => q ++ ((fun w => rf_req_write w.1.1 w.1.2 w.2) <$> released (item_log it)) |>) as ->.
    { unfold retire_world, commit_csr, commit_release, item_log. cbn [snd].
      destruct (rob_csr_newvalue_valid it), (rob_old_phy_reg_id_valid it); first [done|symmetry; apply regfile_queue_nil]. }
    rewrite H5, regfile_queue_app. unfold released. by rewrite !fmap_app.
  - assert (cm_csr_file (retire_world s1 (id, it)) =
            (cm_csr_file s1) <| csr_sync_request_q ::= fun q => q ++ csr_writes [(id, it)] |>) as ->.
    { unfold retire_world, commit_csr, commit_release, csr_writes. cbn [snd].
      destruct (rob_csr_newvalue_valid it) eqn:Ev, (rob_old_phy_reg_id_valid it); cbn [fmap list_fmap snd]; rewrite ?Ev;
        first [done|symmetry; apply csrfile_queue_nil]. }
    rewrite H6, csrfile_queue_app, app_nil_r. unfold csr_writes. by rewrite fmap_app, join_app.
Qed.

Lemma retired_fold l s :
  0 <= global_commit_num (cm_rob s) < 2 ^ 64 -> retired l [] [] s (fold_left retire_world l s).
Proof.
  intros Hn. induction l as [|e l IH] using rev_ind; [by apply retired_none|]. rewrite fold_left_app. by apply retired_one.
Qed.

(** * The invariant of commit *)

Definition reg_ready (f : regfile phy_regfile_item_t) (i : Z) : bool :=
  match regfile_view f i with Some (_, b) => b | None => false end.

(** The results of finished instructions are in the register file. *)
Definition results_in (f : regfile phy_regfile_item_t) (es : list (Z * rob_item_t)) : Prop :=
  Forall (fun e => rob_finish e.2 = true -> rob_has_exception e.2 = false ->
                   Forall (fun x => reg_ready f x.1 = true) (item_log e.2)) es.

(** The tables at the beginning of a cycle: the alias table holds the committed
    mapping [m] with the allocations [log] on top of it; free registers hold
    no value, committed ones do, and nothing is pending. *)
Record tables_inv (m : Z -> Z) (log : list (Z * Z)) (s : commit_world) : Prop := {
  ti_rat : speculates m (cm_rat s) log;
  ti_rat_queue : rat_sync_request_q (cm_rat s) = [];
  ti_phy : phy_reg_num (cm_rat s) = PHY_REG_NUM;
  ti_arch : arch_reg_num (cm_rat s) = ARCH_REG_NUM;
  ti_regfile : regfile_ok (cm_phy_regfile s);
  ti_size : rf_size (cm_phy_regfile s) = PHY_REG_NUM;
  ti_rf_queue : rf_sync_request_q (cm_phy_regfile s) = [];
  ti_free i : in_phy (cm_rat s) i -> rat_valid (cm_rat s) i = false -> reg_ready (cm_phy_regfile s) i = false;
  ti_ready a : in_arch (cm_rat s) a -> reg_ready (cm_phy_regfile s) (m a) = true;
  ti_csr_queue : csr_sync_request_q (cm_csr_file s) = []
}.

Record rob_inv (es : list (Z * rob_item_t)) (r : rob) : Prop := {
  ri_ok : rob_ok r;
  ri_entries : rob_entries r = es;
  ri_queue : rob_sync_request_q r = [];
  ri_num : 0 <= global_commit_num r < 2 ^ 64
}.

Lemma tables_inv_same m log s s' :
  tables_inv m log s -> cm_rat s' = cm_rat s -> cm_phy_regfile s' = cm_phy_regfile s ->
  csr_sync_request_q (cm_csr_file s') = [] -> tables_inv m log s'.
Proof. intros [] E1 E2 E3. by split; rewrite ?E1, ?E2, ?E3. Qed.

(** The reorder buffer holds the entries [es], whose allocations are those in
    the alias table. *)
Record commit_inv (m : Z -> Z) (es : list (Z * rob_item_t)) (s : commit_world) : Prop := {
  ci_rob : rob_inv es (cm_rob s);
  ci_tables : tables_inv m (log_of es) s;
  ci_results : results_in (cm_phy_regfile s) es
}.

Lemma pops_entries {A} (l rest : list (Z * A)) : fold_left entries_apply (repeat req_pop (length l)) (l ++ rest) = rest.
Proof. by induction l. Qed.

(** A register that is not written keeps its view; the released ones are empty. *)
Lemma last_write_released i log old :
  last_write i (released log) old = if decide (i ∈ log.*2) then Some (phy_regfile_item_zero, false) else old.
Proof.
  revert old. induction log as [|[p o] log IH]; intros old; cbn.
  - by rewrite decide_False by apply not_elem_of_nil.
  - rewrite IH. destruct (decide (i ∈ log.*2)) as [H|H].
    + by rewrite decide_True by (by right).
    + destruct (decide (i = o)) as [->|Hne]; [by rewrite decide_True by left|].
      rewrite decide_False; [done|]. by rewrite elem_of_cons; intros [?|?].
Qed.

Lemma log_of_elem es e x : e ∈ es -> x ∈ item_log e.2 -> x ∈ log_of es.
Proof.
  intros He Hx. apply list_elem_of_split in He as (l1 & l2 & ->). rewrite log_of_app, log_of_cons, !elem_of_app. auto.
Qed.

Lemma results_in_log f es :
  results_in f es -> Forall (fun e => rob_finish e.2 = true /\ rob_has_exception e.2 = false) es ->
  Forall (fun x => reg_ready f x.1 = true) (log_of es).
Proof.
  induction 1 as [|e es He _ IH]; intros Hf; [constructor|]. apply list.Forall_cons in Hf as [[Hf1 Hf2] Hf].
  rewrite log_of_cons. apply Forall_app. auto.
Qed.

(** Registers that keep their view keep the results in them. *)
Lemma results_in_keep f f' es :
  results_in f es -> (forall x, x ∈ log_of es -> regfile_view f' x.1 = regfile_view f x.1) -> results_in f' es.
Proof.
  unfold results_in. rewrite !list.Forall_forall. intros H Hk e He Hf Hx. specialize (H e He Hf Hx).
  rewrite list.Forall_forall in *. intros x Hin. unfold reg_ready. rewrite Hk by (by apply (log_of_elem _ e)).
  by apply H.
Qed.

Section sync.
Context (m : Z -> Z) (l rest rest' : list (Z * rob_item_t)) (reqs : list (sync_request rob_item_t)).
Context (creqs : list csr_sync_request) (s s1 : commit_world) (c' : csrfile).
Context (CI : commit_inv m (l ++ rest) s) (RT : retired l reqs creqs s s1).

(** The alias table at the end of the cycle. *)
Lemma sync_rat :
  exists r', rat_sync (cm_rat s1) = Some r' /\ speculates (retire_all m (log_of l)) r' (log_of rest) /\
    rat_sync_request_q r' = [] /\ rat_tracks (cm_rat s) r' /\
    forall q, in_phy (cm_rat s) q -> rat_valid r' q = rat_valid (cm_rat s) q && negb (bool_decide (q ∈ (log_of l).*2)).
Proof.
  pose proof (ti_rat _ _ _ (ci_tables _ _ _ CI)) as HS. rewrite log_of_app in HS.
  destruct (speculates_retire_all _ _ _ _ HS) as (r' & E & HS' & T & V).
  rewrite rat_sync_apply, (rt_rat _ _ _ _ _ RT), (ti_rat_queue _ _ _ (ci_tables _ _ _ CI)). cbn [app].
  change (rat_sync_request_q (with_queue ?q _)) with q. rewrite rat_apply_all_queue, E. cbn.
  exists (with_queue [] r'). split_and!; [done|by apply speculates_queue|done| |done].
  destruct T as [A B C D F G]. split; try done. by apply rat_wf_queue.
Qed.

Lemma sync_rob :
  Forall (request_in_range (size (rob_fifo (cm_rob s)))) reqs -> rest' = fold_left entries_apply reqs rest ->
  exists b', rob_sync (cm_rob s1) = Some b' /\ rob_ok b' /\ rob_entries b' = rest' /\ rob_sync_request_q b' = [] /\
    global_commit_num b' = u64 (global_commit_num (cm_rob s) + Z.of_nat (length l)).
Proof.
  intros Hr ->. destruct (ci_rob _ _ _ CI) as [Hok Hes Hq Hn], RT as [_ Hf Hrq Hnum _ _].
  destruct (rob_sync_spec (cm_rob s1)) as (b' & E & Hok' & Hes' & Hq' & _).
  - unfold rob_ok. by rewrite Hf.
  - rewrite Hrq, Hq, Hf. cbn [app]. apply Forall_app. split; [|done]. clear. by induction (length l); cbn; constructor.
  - exists b'. split_and!; try done.
    + rewrite Hes', Hrq, Hq. unfold rob_entries in *. rewrite Hf, Hes. cbn [app]. rewrite fold_left_app. by rewrite pops_entries.
    + destruct (rob_sync_counters _ _ E) as (_ & _ & ->). done.
Qed.

Lemma sync_regfile :
  exists f', regfile_sync (cm_phy_regfile s1) = Some f' /\ regfile_ok f' /\ rf_size f' = PHY_REG_NUM /\
    rf_sync_request_q f' = [] /\
    forall i, in_phy (cm_rat s) i ->
      regfile_view f' i = if decide (i ∈ (log_of l).*2) then Some (phy_regfile_item_zero, false)
                          else regfile_view (cm_phy_regfile s) i.
Proof.
  pose proof (speculates_olds _ _ _ (ti_rat _ _ _ (ci_tables _ _ _ CI))) as Ho. rewrite log_of_app in Ho. apply Forall_app in Ho as [Ho _].
  destruct (ci_tables _ _ _ CI) as [_ _ Hn _ Hok Hsz Hq _ _ _]. pose proof (rt_regfile _ _ _ _ _ RT) as Hf.
  set (f1 := cm_phy_regfile s1) in *.
  assert (rf_sync_request_q f1 = (fun w => rf_req_write w.1.1 w.1.2 w.2) <$> released (log_of l)) as Hq1.
  { rewrite Hf. cbn. by rewrite Hq. }
  destruct (regfile_sync_loop_spec (released (log_of l)) f1) as (f' & E & Hok' & Hsz' & Hq' & Hv').
  - by rewrite Hf.
  - rewrite Hf. unfold released. apply Forall_fmap. eapply Forall_impl; [exact Ho|]. intros e He. cbn. rewrite Hsz, <- Hn.
    exact He.
  - done.
  - exists f'. unfold regfile_sync. rewrite Hq1. split_and!; try done.
    + rewrite Hsz', Hf. done.
    + intros i Hi. rewrite Hv' by (rewrite Hf; cbn; rewrite Hsz, <- Hn; exact Hi).
      rewrite last_write_released. rewrite Hf. done.
Qed.

Lemma retired_sync :
  Forall (request_in_range (size (rob_fifo (cm_rob s)))) reqs -> rest' = fold_left entries_apply reqs rest ->
  log_of rest' = log_of rest -> Forall (fun e => rob_finish e.2 = true /\ rob_has_exception e.2 = false) l ->
  results_in (cm_phy_regfile s) rest' -> csrfile_sync_loop (cm_csr_file s) (csr_writes l ++ creqs) = Some c' ->
  exists r' b' f', let s' := s1 <| cm_rat := r' |> <| cm_rob := b' |> <| cm_phy_regfile := f' |> <| cm_csr_file := c' |> in
    commit_sync s1 = Some s' /\ commit_inv (retire_all m (log_of l)) rest' s' /\ rat_tracks (cm_rat s) r' /\
    global_commit_num b' = u64 (global_commit_num (cm_rob s) + Z.of_nat (length l)) /\
    (forall a, in_arch (cm_rat s) a ->
       regfile_view f' (retire_all m (log_of l) a) = regfile_view (cm_phy_regfile s) (retire_all m (log_of l) a)).
Proof.
  intros Hr Er Hlog Hfin Hres Hc.
  destruct sync_rat as (r' & Er' & HS & Hq & T & V), (sync_rob Hr Er) as (b' & Eb' & Hok & Hes & Hbq & Hnum),
    sync_regfile as (f' & Ef' & Hfok & Hsz & Hfq & Hview).
  destruct (csrfile_sync_eq _ _ _ (ti_csr_queue _ _ _ (ci_tables _ _ _ CI)) Hc) as [Ec Hcq].
  pose proof T as [_ _ D1 D2 _ _].
  assert (forall i, in_phy r' i -> rat_valid r' i = true -> regfile_view f' i = regfile_view (cm_phy_regfile s) i) as Hkeep.
  { intros i Hi Hvi. assert (in_phy (cm_rat s) i) as Hi' by (unfold in_phy in *; congruence).
    rewrite V in Hvi by done. apply andb_true_iff in Hvi as [_ Hvi]. rewrite Hview by done.
    case_decide as Ed; [|done]. by rewrite bool_decide_true in Hvi. }
  assert (forall a, in_arch (cm_rat s) a -> in_phy r' (retire_all m (log_of l) a) /\ rat_valid r' (retire_all m (log_of l) a) = true)
    as Hm'.
  { intros a Ha. destruct (speculates_owner _ _ _ a HS) as (? & ? & _); [unfold in_arch in *; congruence|done]. }
  exists r', b', f'. cbn zeta. split_and!; [|split; [split|split|]; cbn; try done|done|done|].
  - unfold commit_sync. rewrite Er', Eb', Ef'. cbn. rewrite (rt_csr _ _ _ _ _ RT).
    assert ((cm_csr_file s) <| csr_sync_request_q ::= fun q => q ++ csr_writes l ++ creqs |> =
            (cm_csr_file s) <| csr_sync_request_q := csr_writes l ++ creqs |>) as ->
      by (unfold upd; by rewrite (ti_csr_queue _ _ _ (ci_tables _ _ _ CI))).
    by rewrite Ec.
  - rewrite Hnum. apply u64_range.
  - by rewrite Hlog.
  - rewrite D1. apply (ci_tables _ _ _ CI).
  - rewrite D2. apply (ci_tables _ _ _ CI).
  - intros i Hi Hv. assert (in_phy (cm_rat s) i) as Hi' by (unfold in_phy in *; congruence).
    unfold reg_ready. rewrite Hview by done. case_decide as Ed; [done|].
    apply (ti_free _ _ _ (ci_tables _ _ _ CI)); [done|]. rewrite V in Hv by done. by rewrite bool_decide_false, andb_true_r in Hv.
  - intros a Ha. assert (in_arch (cm_rat s) a) as Ha' by (unfold in_arch in *; congruence).
    destruct (Hm' a Ha') as [Hi Hv]. unfold reg_ready. rewrite (Hkeep _ Hi Hv).
    destruct (retire_all_cases m (log_of l) a) as [->|Hin]; [by apply (ti_ready _ _ _ (ci_tables _ _ _ CI))|].
    pose proof (ci_results _ _ _ CI) as Hl. apply Forall_app in Hl as [Hl _].
    apply list_elem_of_fmap in Hin as (x & -> & Hx).
    exact (proj1 (list.Forall_forall _ _) (results_in_log _ _ Hl Hfin) x Hx).
  - apply (results_in_keep (cm_phy_regfile s)); [done|]. intros x Hx. rewrite Hlog in Hx.
    destruct (speculates_fresh _ _ _ HS) as [_ Hfr]. pose proof (list_elem_of_fmap_2 fst _ _ Hx) as Hx1.
    destruct (proj1 (list.Forall_forall _ _) Hfr _ Hx1) as [Hi _]. apply Hkeep; [done|].
    apply (speculates_valid _ _ _ _ HS Hi). by right.
  - intros a Ha. apply Hkeep; by apply Hm'.
Qed.
End sync.

(** * Taking in the packets of write-back *)

Definition finish_one (op_info : wb_commit_op_info_t) (es : list (Z * rob_item_t)) : list (Z * rob_item_t) :=
  if wc_enable op_info
  then map (fun e => if e.1 =? wc_rob_id op_info then (e.1, finished_item op_info e.2) else e) es else es.

(** The entries after the packets have been taken in. *)
Definition finish_entries (op_infos : wb_commit_pack_t) (es : list (Z * rob_item_t)) : list (Z * rob_item_t) :=
  fold_left (fun es op_info => finish_one op_info es) op_infos es.

Lemma finished_item_twice op1 op2 it : finished_item op2 (finished_item op1 it) = finished_item op2 it.
Proof. done. Qed.

Lemma finish_entries_log op_infos es : log_of (finish_entries op_infos es) = log_of es.
Proof.
  revert es. induction op_infos as [|op op_infos IH]; intros es; [done|].
  change (log_of (finish_entries op_infos (finish_one op es)) = log_of es). rewrite IH. unfold finish_one.
  destruct (wc_enable op); [|done]. unfold log_of. f_equal. change (map ?g es) with (g <$> es).
  rewrite <- list_fmap_compose. apply list_fmap_ext. intros i [id it] _. cbn. by destruct (id =? wc_rob_id op).
Qed.

(** Items that a packet turns into the same item. *)
Definition same_finish (r : rob) (es : list (Z * rob_item_t)) : Prop :=
  Forall (fun e => exists x, rob_get_item r e.1 = Some x /\ forall op, finished_item op x = finished_item op e.2) es.

Lemma same_finish_entries r es1 es2 : rob_ok r -> rob_entries r = es1 ++ es2 -> same_finish r es2.
Proof.
  intros Hok E. apply list.Forall_forall. intros [id it] He. exists it. split; [|done].
  apply (fifo_entries_get _ _ _ Hok). unfold rob_entries in E. rewrite E. apply elem_of_app. by right.
Qed.

Lemma commit_input_ref op_infos r es :
  rob_ok r -> same_finish r es ->
  Forall (fun op => wc_enable op = true -> 0 <= wc_rob_id op < size (rob_fifo r)) op_infos ->
  exists reqs, commit_input op_infos r = Some (r <| rob_sync_request_q ::= fun q => q ++ reqs |>) /\
    Forall (request_in_range (size (rob_fifo r))) reqs /\
    fold_left entries_apply reqs es = finish_entries op_infos es.
Proof.
  revert r es. induction op_infos as [|op op_infos IH]; intros r es Hok Hes Hops; cbn [commit_input].
  { exists []. split_and!; [|constructor|done]. f_equal. unfold upd. destruct r. cbn. by rewrite app_nil_r. }
  apply list.Forall_cons in Hops as [Hop Hops].
  change (finish_entries (op :: op_infos) es) with (finish_entries op_infos (finish_one op es)). unfold finish_one.
  destruct (wc_enable op); [|by apply IH]. specialize (Hop eq_refl).
  destruct Hok as (l & b & st & W). destruct (window_facts W) as (_ & Hsz & _).
  destruct (arr_get_in_range (buffer (rob_fifo r)) (wc_rob_id op)) as [x Hx]; [lia|].
  unfold rob_get_item at 1. rewrite Hx. cbn [mbind option_bind].
  set (es1 := map _ es). set (r1 := rob_set_item_sync r _ _).
  assert (entries_set es (wc_rob_id op) (finished_item op x) = es1) as Ees.
  { unfold entries_set, es1. apply map_ext_in. intros [id it] Hin%list_elem_of_In. cbn.
    destruct (Z.eqb_spec id (wc_rob_id op)) as [->|]; [|done]. f_equal.
    destruct (proj1 (list.Forall_forall _ _) Hes _ Hin) as (y & Hy & Hf). cbn in Hy. unfold rob_get_item in Hy.
    rewrite Hx in Hy. simplify_eq. apply Hf. }
  destruct (IH r1 es1) as (reqs & E & Hr & Hfold); [by exists l, b, st| |done|].
  - unfold es1. apply list.Forall_forall. intros e He. apply list_elem_of_fmap in He as ([id it] & -> & Hin).
    destruct (proj1 (list.Forall_forall _ _) Hes _ Hin) as (y & Hy & Hf). exists y. cbn.
    destruct (id =? wc_rob_id op); cbn; [|done]. split; [done|]. intros op2. by rewrite finished_item_twice, <- Hf.
  - exists (req_set_item (wc_rob_id op) (finished_item op x) :: reqs). split_and!.
    + rewrite E. f_equal. unfold r1, rob_set_item_sync, upd. destruct r. cbn. by rewrite <- app_assoc.
    + by constructor.
    + cbn [fold_left entries_apply]. by rewrite Ees.
Qed.

(** * A cycle in the state [normal] *)

Lemma commit_scan_finished n es :
  Forall (fun e => rob_finish e.2 = true /\ rob_has_exception e.2 = false) (commit_scan n es).1.
Proof.
  revert es. induction n as [|n IH]; intros [|[id it] es]; cbn; try constructor.
  destruct (rob_finish it) eqn:Ef; cbn; [|constructor]. destruct (rob_has_exception it) eqn:Ex; [constructor|].
  destruct (rob_bru_op it); [constructor|]. specialize (IH es). destruct (commit_scan n es). cbn in *. by constructor.
Qed.

Lemma commit_scan_stop n es :
  match (commit_scan n es).2 with stop_branch _ it => rob_finish it = true | _ => True end.
Proof.
  revert es. induction n as [|n IH]; intros [|[id it] es]; cbn; try done.
  destruct (rob_finish it) eqn:Ef; cbn; [|done]. destruct (rob_has_exception it); [done|].
  destruct (rob_bru_op it); [done|]. specialize (IH es). by destruct (commit_scan n es).
Qed.

Lemma commit_normal_output_ref es s :
  rob_ok (cm_rob s) -> rob_entries (cm_rob s) = es -> es <> [] -> int_get_cause (cm_interrupt_interface s) (cm_csr_file s) = Some None ->
  exists it id p rest, es = (commit_scan (Z.to_nat COMMIT_WIDTH) es).1 ++ stop_entries (commit_scan (Z.to_nat COMMIT_WIDTH) es).2 ++ rest /\
    feedback_after ((commit_scan (Z.to_nat COMMIT_WIDTH) es).1 ++ stop_entries (commit_scan (Z.to_nat COMMIT_WIDTH) es).2) rest p /\
    commit_normal_output (mk_commit_vars s commit_feedback_zero false) =
      after_stop (commit_scan (Z.to_nat COMMIT_WIDTH) es).2
        (at_item it id (fold_left retire_world (commit_scan (Z.to_nat COMMIT_WIDTH) es).1 s)) p.
Proof.
  intros Hok Hes Hne Hint. destruct es as [|[first_id it0] es]; [done|].
  assert (fifo_get_front_id (rob_fifo (cm_rob s)) = Some first_id) as Hf.
  { rewrite fifo_entries_front by done. unfold rob_entries in Hes. by rewrite Hes. }
  assert (fifo_is_empty (rob_fifo (cm_rob s)) = false) as He.
  { unfold fifo_get_front_id in Hf. by destruct (fifo_is_empty _). }
  set (p0 := commit_feedback_zero <| cf_enable := true |> <| cf_next_handle_rob_id := first_id |>
               <| cf_next_handle_rob_id_valid := true |>).
  destruct (commit_loop_ref (rob_fifo (cm_rob s)) first_id Hok Hf (Z.to_nat COMMIT_WIDTH) [] ((first_id, it0) :: es)
              (at_item it0 first_id s) p0) as (it & id & p & rest & Er & Hp & E); try done.
  { exists first_id. split; [done|]. by intros e [= <-]. }
  exists it, id, p, rest. split_and!; [exact Er|exact Hp|]. rewrite at_item_fold, at_item_twice in E. rewrite <- E.
  unfold commit_normal_output. cbn [cv_world cv_feedback_pack]. rewrite He. cbn [negb].
  unfold rob_get_front_id. rewrite Hf. cbn [mbind option_bind].
  unfold rob_get_item. rewrite (fifo_entries_get _ first_id it0 Hok) by (unfold rob_entries in Hes; rewrite Hes; left).
  cbn [mbind option_bind]. change (cm_interrupt_interface (s <| cm_rob_item_id := _ |> <| cm_rob_item := _ |>)) with (cm_interrupt_interface s).
  change (cm_csr_file (s <| cm_rob_item_id := _ |> <| cm_rob_item := _ |>)) with (cm_csr_file s).
  rewrite Hint. cbn [mbind option_bind]. done.
Qed.

(** The members that do not matter. *)
Lemma commit_inv_committed m es s b :
  commit_inv m es s -> commit_inv m es (s <| cm_rob ::= fun r => rob_set_committed r b |>).
Proof. by intros [[] [] ?]. Qed.

Lemma retired_more l s s1 s2 reqs creqs :
  retired l [] [] s s1 -> cm_rat s2 = cm_rat s1 -> cm_phy_regfile s2 = cm_phy_regfile s1 ->
  cm_rob s2 = (cm_rob s1) <| rob_sync_request_q ::= fun q => q ++ reqs |> ->
  cm_csr_file s2 = (cm_csr_file s1) <| csr_sync_request_q ::= fun q => q ++ creqs |> ->
  retired l reqs creqs s s2.
Proof.
  intros [H1 H2 H3 H4 H5 H6] E1 E2 E3 E4. rewrite app_nil_r in H3, H6. split; rewrite ?E1, ?E2, ?E3, ?E4; try done.
  - cbn. by rewrite H3, <- app_assoc.
  - by rewrite H6, csrfile_queue_app.
Qed.

Lemma retire_fold_keeps l s :
  let s1 := fold_left retire_world l s in
  cm_cur_state s1 = cm_cur_state s /\ cm_checkpoint_buffer s1 = cm_checkpoint_buffer s /\
  cm_branch_predictor s1 = cm_branch_predictor s /\ cm_interrupt_interface s1 = cm_interrupt_interface s /\
  rob_fifo (cm_rob s1) = rob_fifo (cm_rob s).
Proof.
  cbn zeta. revert s. induction l as [|e l IH]; intros s; [done|]. cbn [fold_left].
  destruct (IH (retire_world s e)) as (-> & -> & -> & -> & ->).
  unfold retire_world, commit_csr, commit_release. by do 2 case_match.
Qed.

(** What write-back promises about its packets: their entries exist, and the
    results they announce are in the register file. *)
Definition packets_ok (op_infos : wb_commit_pack_t) (rest : list (Z * rob_item_t)) (s : commit_world) : Prop :=
  Forall (fun op => wc_enable op = true -> 0 <= wc_rob_id op < size (rob_fifo (cm_rob s))) op_infos /\
  results_in (cm_phy_regfile s) (finish_entries op_infos rest).

(** The end of a cycle without a flush: the packets are taken in, and
    everything takes effect. *)
Lemma quiet_cycle m l rest creqs s s1 op_infos c' :
  commit_inv m (l ++ rest) s -> retired l [] creqs s s1 ->
  Forall (fun e => rob_finish e.2 = true /\ rob_has_exception e.2 = false) l ->
  packets_ok op_infos rest s -> csrfile_sync_loop (cm_csr_file s) (csr_writes l ++ creqs) = Some c' ->
  exists b1 s2 r' b' f', commit_input op_infos (cm_rob s1) = Some b1 /\
    s2 = s1 <| cm_rat := r' |> <| cm_rob := b' |> <| cm_phy_regfile := f' |> <| cm_csr_file := c' |> /\
    commit_sync (s1 <| cm_rob := b1 |>) = Some s2 /\
    commit_inv (retire_all m (log_of l)) (finish_entries op_infos rest) s2 /\
    rat_tracks (cm_rat s) (cm_rat s2) /\
    global_commit_num (cm_rob s2) = u64 (global_commit_num (cm_rob s) + Z.of_nat (length l)) /\
    (forall a, in_arch (cm_rat s) a -> regfile_view (cm_phy_regfile s2) (retire_all m (log_of l) a) =
                                       regfile_view (cm_phy_regfile s) (retire_all m (log_of l) a)).
Proof.
  intros CI RT Hfin [Hops Hres] Hc. pose proof (ri_ok _ _ (ci_rob _ _ _ CI)) as Hok. pose proof (ri_entries _ _ (ci_rob _ _ _ CI)) as Hes.
  pose proof (rt_fifo _ _ _ _ _ RT) as Hff.
  destruct (commit_input_ref op_infos (cm_rob s1) rest) as (reqs & Ei & Hr & Hfold).
  - unfold rob_ok. by rewrite Hff.
  - apply (same_finish_entries _ l); unfold rob_ok, rob_entries; by rewrite Hff.
  - by rewrite Hff.
  - set (b1 := (cm_rob s1) <| rob_sync_request_q ::= _ |>) in Ei.
    assert (retired l reqs creqs s (s1 <| cm_rob := b1 |>)) as RT'.
    { destruct RT as [H1 H2 H3 H4 H5 H6]. rewrite app_nil_r in H3. split; try done. cbn. by rewrite H3, <- app_assoc. }
    rewrite Hff in Hr.
    destruct (retired_sync m l rest (finish_entries op_infos rest) reqs creqs s _ c' CI RT' Hr (eq_sym Hfold)
                (finish_entries_log _ _) Hfin Hres Hc) as (r' & b' & f' & Es & CI' & T & Hn & Hv).
    exists b1. eexists. exists r', b', f'. by split_and!.
Qed.

(** C5: retirement.  In the state [normal], with no interrupt pending, a cycle
    retires the longest finished prefix of the reorder buffer ([commit_scan]),
    here one that is not ended by an exception or a branch.  All of it takes effect at the
    end of the cycle: the entries leave the reorder buffer, the committed
    mapping advances by their allocations, the registers they replaced are
    free and hold no value any more, their CSR writes are performed, the
    packets of write-back are entered, and the invariant holds again, no
    assertion being tripped.  The architectural registers show the results in the register file,
    rename may go on with the table it has read, and the feedback names the retired
    entries and the next one. *)
Theorem commit_retires m es s wb_port l c' :
  commit_inv m es s -> cm_cur_state s = normal -> es <> [] ->
  int_get_cause (cm_interrupt_interface s) (cm_csr_file s) = Some None ->
  commit_scan (Z.to_nat COMMIT_WIDTH) es = (l, stop_idle) ->
  packets_ok (port_get wb_port) (drop (length l) es) s ->
  csrfile_sync_loop (cm_csr_file s) (csr_writes l) = Some c' ->
  exists p s', commit_cycle wb_port s = Some (p, s') /\
    commit_inv (retire_all m (log_of l)) (finish_entries (port_get wb_port) (drop (length l) es)) s' /\
    cm_csr_file s' = c' /\ cm_cur_state s' = normal /\ feedback_after l (drop (length l) es) p /\
    rat_tracks (cm_rat s) (cm_rat s') /\
    global_commit_num (cm_rob s') = u64 (global_commit_num (cm_rob s) + Z.of_nat (length l)) /\
    (forall a, in_arch (cm_rat s) a -> regfile_view (cm_phy_regfile s') (retire_all m (log_of l) a) =
                                       regfile_view (cm_phy_regfile s) (retire_all m (log_of l) a)).
Proof.
  intros CI Hst Hne Hint Hscan Hpk Hc. set (s0 := s <| cm_rob ::= fun r => rob_set_committed r false |>).
  assert (commit_inv m es s0) as CI0 by (by apply commit_inv_committed).
  destruct (commit_normal_output_ref es s0 (ri_ok _ _ (ci_rob _ _ _ CI0)) (ri_entries _ _ (ci_rob _ _ _ CI0)) Hne Hint) as (it & id & p & rest & Er & Hp & E).
  pose proof (commit_scan_finished (Z.to_nat COMMIT_WIDTH) es) as Hfin.
  rewrite Hscan in *. cbn [fst snd stop_entries app after_stop] in *. rewrite app_nil_r in Hp.
  subst es. rewrite drop_app_length in *.
  set (s1 := at_item it id (fold_left retire_world l s0)) in E.
  assert (retired l [] [] s0 s1) as RT.
  { destruct (retired_fold l s0 (ri_num _ _ (ci_rob _ _ _ CI0))) as [H1 H2 H3 H4 H5 H6]. by split. }
  destruct (quiet_cycle m l rest [] s0 s1 (port_get wb_port) c' CI0 RT Hfin) as (b1 & s2 & r' & b' & f' & Ei & Es2 & Es & CI' & T & Hn & Hv);
    [done|by rewrite app_nil_r|].
  exists p, s2. split_and!; try done.
  - unfold commit_cycle, commit_run. fold s0. change (cm_cur_state s0) with (cm_cur_state s). rewrite Hst.
    unfold commit_normal. rewrite E. cbn [mbind option_bind cv_need_flush negb cv_world]. rewrite Ei. cbn [mbind option_bind].
    by rewrite Es.
  - by rewrite Es2.
  - rewrite Es2. cbn. unfold s1. cbn. destruct (retire_fold_keeps l s0) as (-> & _). exact Hst.
Qed.

(** ** A machine with three instructions in flight

    x5 has been renamed to register 40 and x6 to 41, whose values have
    arrived; the third instruction has no destination.  The second one varies. *)

Definition commit_demo_renames : list (Z * Z) := [(5, 40); (6, 41)].

Definition commit_demo_rat : rat :=
  match rat_rename_all rat_demo commit_demo_renames [] with Some (_, r) => r | None => rat_demo end.

Definition commit_demo_regfile : regfile phy_regfile_item_t :=
  mk_regfile [] (repeat (mk_phy_regfile_item 0) 40 ++ mk_phy_regfile_item 77 :: repeat (mk_phy_regfile_item 0) 87)
    [2 ^ 32 - 2 + 2 ^ 40 + 2 ^ 41; 0] 128 2.

Definition commit_demo_entries (it : rob_item_t) : list (Z * rob_item_t) :=
  [(0, rob_item_zero <| rob_new_phy_reg_id := 40 |> <| rob_old_phy_reg_id := 5 |> <| rob_old_phy_reg_id_valid := true |>
         <| rob_pc := 0x80000000 |> <| rob_finish := true |>);
   (1, it <| rob_new_phy_reg_id := 41 |> <| rob_old_phy_reg_id := 6 |> <| rob_old_phy_reg_id_valid := true |>
         <| rob_pc := 0x80000004 |>);
   (2, rob_item_zero <| rob_pc := 0x80000008 |>)].

Definition commit_demo_cp : checkpoint_t :=
  mk_checkpoint [2 ^ 32 - 2 + 2 ^ 40 + 2 ^ 41; 0] [2 ^ 32 - 2 - 2 ^ 5 - 2 ^ 6 + 2 ^ 40 + 2 ^ 41; 0] [0; 0] (repeat 0 128) 0 0.

Definition commit_demo (it : rob_item_t) (ii : interrupt_interface) (csrs : csrfile) : commit_world :=
  mk_commit_world commit_demo_rat
    (mk_rob (mk_fifo ((commit_demo_entries it).*2 ++ [rob_item_zero]) 4 3 false 0 false false 0 false) [] false 0 9)
    csrs commit_demo_regfile (checkpoint_buffer_new (repeat commit_demo_cp 2, 0, false) 2) bp_demo ii normal
    rob_item_zero 0 0 0 machine_external 0 0 0 0.

Lemma commit_demo_speculates : speculates (fun a => a) commit_demo_rat [(40, 5); (41, 6)].
Proof.
  assert (speculates (fun a => a) rat_demo []) as H0.
  { apply speculates_start; [exact rat_demo_wf| |].
    - assert (forallb (fun i => eqb (rat_valid rat_demo i) (rat_visible rat_demo i)) (upto 128) = true) as H by (by vm_compute).
      intros i Hi. rewrite forallb_forall in H. apply eqb_true_iff, H, list_elem_of_In, elem_of_upto. exact Hi.
    - assert (forallb (fun a => (a =? 0) || (rat_valid rat_demo a && rat_visible rat_demo a && (rat_owner rat_demo a =? a) &&
                rat_committed rat_demo a)) (upto 32) = true) as H by (by vm_compute).
      intros a Ha. unfold in_arch in Ha. change (arch_reg_num rat_demo) with 32 in Ha. rewrite forallb_forall in H. specialize (H a).
      rewrite <- list_elem_of_In, elem_of_upto in H. specialize (H ltac:(lia)).
      apply orb_true_iff in H as [H%Z.eqb_eq|H]; [lia|]. rewrite !andb_true_iff, Z.eqb_eq in H. split_ands.
      split; [|done]. split_and!; try done. unfold in_phy. change (phy_reg_num rat_demo) with 128. lia. }
  destruct (speculates_rename _ _ _ 5 40 H0) as (o1 & r1 & E1 & _ & H1); [by vm_compute..|].
  assert (o1 = 5) as -> by (vm_compute in E1; congruence).
  assert (in_arch r1 6 /\ in_phy r1 41 /\ rat_valid r1 41 = false) as (A1 & A2 & A3)
    by (vm_compute in E1; injection E1 as <-; by vm_compute).
  destruct (speculates_rename _ _ _ 6 41 H1 A1 A2 A3) as (o2 & r2 & E2 & _ & H2).
  assert (commit_demo_rat = r2 /\ o2 = 6) as [-> ->]; [|done].
  vm_compute in E1. injection E1 as <-. vm_compute in E2. injection E2 as <- <-. by vm_compute.
Qed.

Lemma commit_demo_inv it ii csrs :
  csr_sync_request_q csrs = [] -> commit_inv (fun a => a) (commit_demo_entries it) (commit_demo it ii csrs).
Proof.
  intros Hq. split.
  - split; try done.
    exists (commit_demo_entries it).*2, 0%nat, false. split; cbn; try done; lia.
  - split; [exact commit_demo_speculates|by vm_compute|by vm_compute|by vm_compute| |reflexivity|reflexivity| | |exact Hq].
    + split_and!; [by vm_compute|by vm_compute|]. split; [by vm_compute|]. repeat constructor; vm_compute; congruence.
    + assert (forallb (fun i => rat_valid commit_demo_rat i || negb (reg_ready commit_demo_regfile i)) (upto 128) = true) as H
        by (by vm_compute).
      assert (phy_reg_num commit_demo_rat = 128) as Hn by (vm_compute; reflexivity). cbn [cm_rat cm_phy_regfile commit_demo].
      intros i Hi Hv. unfold in_phy in Hi. rewrite Hn in Hi. rewrite forallb_forall in H. specialize (H i).
      rewrite <- list_elem_of_In, elem_of_upto in H. specialize (H Hi). rewrite Hv in H. by apply negb_true_iff in H.
    + assert (forallb (fun a => (a =? 0) || reg_ready commit_demo_regfile a) (upto 32) = true) as H by (by vm_compute).
      assert (arch_reg_num commit_demo_rat = 32) as Hn by (vm_compute; reflexivity). cbn [cm_rat cm_phy_regfile commit_demo].
      intros a Ha. unfold in_arch in Ha. rewrite Hn in Ha. rewrite forallb_forall in H. specialize (H a).
      rewrite <- list_elem_of_In, elem_of_upto in H. specialize (H ltac:(lia)).
      apply orb_true_iff in H as [H%Z.eqb_eq|H]; [lia|exact H].
  - constructor; [intros _ _; by repeat constructor|]. constructor; [|constructor; [done|constructor]].
    intros _ _. by repeat constructor.
Qed.

(** The first instruction retires; a packet finishes the third. *)
Definition commit_demo_port : port wb_commit_pack_t :=
  port_new [wb_commit_op_info_zero <| wc_enable := true |> <| wc_rob_id := 2 |>].

Lemma commit_retires_witness :
  exists p s', commit_cycle commit_demo_port (commit_demo rob_item_zero int_new csr_demo_file) = Some (p, s') /\
    rob_entries (cm_rob s') = finish_entries (port_get commit_demo_port) (drop 1 (commit_demo_entries rob_item_zero)) /\
    rat_get_commit_phy_id (cm_rat s') 5 = Some 40 /\ regfile_view (cm_phy_regfile s') 40 = Some (mk_phy_regfile_item 77, true) /\
    cf_next_handle_rob_id p = 1.
Proof.
  destruct (commit_retires (fun a => a) (commit_demo_entries rob_item_zero) (commit_demo rob_item_zero int_new csr_demo_file)
              commit_demo_port (take 1 (commit_demo_entries rob_item_zero)) csr_demo_file)
    as (p & s' & E & CI & _ & _ & (nx & -> & Hp) & _ & _ & Hv).
  - apply commit_demo_inv. reflexivity.
  - reflexivity.
  - discriminate.
  - vm_compute. reflexivity.
  - reflexivity.
  - split.
    + constructor; [|constructor]. intros _. cbn. lia.
    + repeat constructor; done.
  - reflexivity.
  - exists (commit_feedback_zero <| cf_enable := true |>
         <| cf_next_handle_rob_id_valid := negb (bool_decide (drop 1 (commit_demo_entries rob_item_zero) = [])) |>
         <| cf_next_handle_rob_id := nx |>
         <| cf_committed := ((fun e => (true, e.1)) <$> take 1 (commit_demo_entries rob_item_zero)) ++ repeat (false, 0) (Z.to_nat COMMIT_WIDTH - 1) |>), s'.
    split; [exact E|]. destruct CI as [[_ He _ _] TI _]. split; [exact He|]. split; [|split].
    + rewrite (speculates_get_commit _ _ _ 5 (ti_rat _ _ _ TI)); [vm_compute; reflexivity|].
      unfold in_arch. rewrite (ti_arch _ _ _ TI). unfold ARCH_REG_NUM. lia.
    + specialize (Hv 5). 
      assert (retire_all (fun a => a) (log_of (take 1 (commit_demo_entries rob_item_zero))) 5 = 40) as E5 by (vm_compute; reflexivity).
      rewrite E5 in Hv. rewrite Hv; [vm_compute; reflexivity|]. split; reflexivity.
    + exact (Hp _ eq_refl).
Defined.
