(* ===== verification/CommitWalk.v ===== *)
(** Exceptions and interrupts: the walk back over the reorder buffer.

    An exception at the front of the reorder buffer, or an interrupt, changes
    the commit stage to a state in which every cycle undoes the renaming of
    one entry, from the youngest to the oldest; the last of these cycles
    writes the trap registers and redirects fetch to the handler. *)

From Stdlib Require Import ZArith Lia.
From stdpp Require Import base numbers list option tactics gmap.
From S2P Require Import Prelude Common Bitmap Fifo FifoIds IdQueue Ras Rob CheckpointBuffer Rat RatSync Inflight CsrFile InterruptInterface Regfile PipelineCommon Packs Isa Decode BranchPredictor Execute WriteBack Rename Commit CommitRetire.

Local Open Scope Z_scope.

(** * Undoing one entry *)

(** What [commit_undo] queues. *)
Definition undo_world (it : rob_item_t) (s : commit_world) : commit_world :=
  if rob_old_phy_reg_id_valid it then
    s <| cm_rat ::= fun r => rat_restore_map_sync r (rob_new_phy_reg_id it) (rob_old_phy_reg_id it) |>
      <| cm_phy_regfile ::= fun f => regfile_write_sync f (rob_new_phy_reg_id it) phy_regfile_item_zero false |>
  else s.

(** The tables without the queue of the CSRs. *)
Definition tables_of (s : commit_world) (r : rat) (f : regfile phy_regfile_item_t) : commit_world :=
  s <| cm_rat := r |> <| cm_phy_regfile := f |>.

Lemma tables_undo m log it s :
  tables_inv m (log ++ item_log it) s ->
  exists r' f', rat_sync (cm_rat (undo_world it s)) = Some r' /\ regfile_sync (cm_phy_regfile (undo_world it s)) = Some f' /\
    tables_inv m log (tables_of s r' f') /\ arch_reg_num r' = arch_reg_num (cm_rat s) /\
    forall a, in_arch (cm_rat s) a -> regfile_view f' (m a) = regfile_view (cm_phy_regfile s) (m a).
Proof.
  unfold undo_world, item_log. intros TI. destruct (rob_old_phy_reg_id_valid it).
  2: { rewrite app_nil_r in TI. destruct TI as [HS Q1 D1 D2 Hok Hsz Q2 Hf Hr Q3].
       exists (cm_rat s), (cm_phy_regfile s). unfold rat_sync, regfile_sync. rewrite Q1, Q2. by split_and!. }
  set (new := rob_new_phy_reg_id it) in *. set (old := rob_old_phy_reg_id it) in *.
  destruct TI as [HS Q1 D1 D2 Hok Hsz Q2 Hf Hr Q3].
  destruct (speculates_undo _ _ _ _ _ HS) as (r1 & E1 & HS1 & P1 & P2).
  destruct (speculates_fresh _ _ _ HS) as [Hnd Hfr]. rewrite fmap_app in Hfr. apply Forall_app in Hfr as [_ Hfr].
  apply list.Forall_cons in Hfr as [[Hnew Hna] _]. cbn [fst] in Hnew, Hna.
  destruct (regfile_sync_loop_spec [(new, phy_regfile_item_zero, false)]
              (regfile_write_sync (cm_phy_regfile s) new phy_regfile_item_zero false)) as (f' & Ef & Hok' & Hsz' & Hq' & Hv').
  { done. }
  { constructor; [|constructor]. cbn. rewrite Hsz, <- D1. exact Hnew. }
  { cbn. by rewrite Q2. }
  assert (forall i, in_phy (cm_rat s) i -> i <> new -> regfile_view f' i = regfile_view (cm_phy_regfile s) i) as Hkeep.
  { intros i Hi Hne. rewrite Hv' by (cbn; rewrite Hsz, <- D1; exact Hi). cbn. by rewrite decide_False by done. }
  exists (with_queue [] r1), f'. split_and!.
  - rewrite rat_sync_apply.
    assert (cm_rat (s <| cm_rat ::= fun r => rat_restore_map_sync r new old |>
                      <| cm_phy_regfile ::= fun f => regfile_write_sync f new phy_regfile_item_zero false |>) =
            with_queue [rat_req_restore_map new old] (cm_rat s)) as ->.
    { unfold rat_restore_map_sync, rat_push_request, with_queue, upd. cbn. by rewrite Q1. }
    rewrite rat_apply_all_queue. cbn. by rewrite E1.
  - unfold regfile_sync. change (cm_phy_regfile (_ <| cm_phy_regfile ::= _ |>))
      with (regfile_write_sync (cm_phy_regfile s) new phy_regfile_item_zero false).
    rewrite <- Ef. f_equal. cbn. by rewrite Q2.
  - split; cbn; try done.
    + by apply speculates_queue.
    + congruence.
    + congruence.
    + by rewrite Hsz'.
    + intros i Hi Hv. change (in_phy r1 i) in Hi. change (rat_valid r1 i = false) in Hv.
      assert (in_phy (cm_rat s) i) as Hi' by (unfold in_phy in *; congruence).
      destruct (decide (i = new)) as [->|Hne].
      * unfold reg_ready. rewrite Hv' by (cbn; rewrite Hsz, <- D1; exact Hi'). cbn. by rewrite decide_True by done.
      * unfold reg_ready. rewrite Hkeep by done. apply Hf; [done|]. apply not_true_is_false. intros Hv2.
        apply (speculates_valid _ _ _ i HS Hi') in Hv2. enough (rat_valid r1 i = true) by congruence.
        apply (speculates_valid _ _ _ i HS1 Hi). rewrite fmap_app, elem_of_app in Hv2. cbn in Hv2.
        rewrite list_elem_of_singleton in Hv2. unfold in_arch in *. rewrite P2. tauto.
    + intros a Ha. change (in_arch r1 a) in Ha. assert (in_arch (cm_rat s) a) as Ha' by (unfold in_arch in *; congruence).
      unfold reg_ready. rewrite Hkeep; [by apply Hr|by apply (speculates_owner _ _ _ a HS)|by apply Hna].
  - done.
  - intros a Ha. apply Hkeep; [|by apply Hna]. by apply (speculates_owner _ _ _ a HS).
Qed.

(** * One cycle of the walk *)

Definition enter_of (st : state_t) : commit_world -> option commit_world :=
  match st with interrupt_flush => enter_interrupt | _ => enter_exception end.

Lemma commit_run_walk wb_port s :
  cm_cur_state s <> normal -> commit_run wb_port s = commit_walk (enter_of (cm_cur_state s)) s.
Proof. unfold commit_run. by destruct (cm_cur_state s). Qed.

(** The entries [es1] are still to be undone, the last one next. *)
Record walk_inv (m : Z -> Z) (es es1 : list (Z * rob_item_t)) (s : commit_world) : Prop := {
  wi_rob : rob_inv es (cm_rob s);
  wi_tables : tables_inv m (log_of es1) s;
  wi_split : exists es2, es = es1 ++ es2;
  wi_restore : fst <$> list.last es1 = Some (cm_restore_rob_item_id s);
  wi_item : fst <$> head es1 = Some (cm_rob_item_id s)
}.

Definition walk_pack : commit_feedback_pack_t := commit_feedback_zero <| cf_enable := true |> <| cf_flush := true |>.

(** What a cycle of the walk may change, before the last one. *)
Definition walked (s s' : commit_world) : Prop :=
  (exists r b f k, s' = s <| cm_rat := r |> <| cm_rob := b |> <| cm_phy_regfile := f |> <| cm_restore_rob_item_id := k |>) /\
  global_commit_num (cm_rob s') = global_commit_num (cm_rob s) /\ arch_reg_num (cm_rat s') = arch_reg_num (cm_rat s).

(** The committed registers keep their values. *)
Definition keeps_values (m : Z -> Z) (s s' : commit_world) : Prop :=
  forall a, in_arch (cm_rat s) a -> regfile_view (cm_phy_regfile s') (m a) = regfile_view (cm_phy_regfile s) (m a).

Lemma walked_refl s : walked s s.
Proof. split; [|done]. exists (cm_rat s), (cm_rob s), (cm_phy_regfile s), (cm_restore_rob_item_id s). by destruct s. Qed.

Lemma walked_trans s1 s2 s3 : walked s1 s2 -> walked s2 s3 -> walked s1 s3.
Proof.
  intros [(r & b & f & k & ->) [A B]] [(r' & b' & f' & k' & ->) [C D]]. split; [by exists r', b', f', k'|]. split.
  - by rewrite C.
  - by rewrite D.
Qed.

Lemma keeps_values_trans m s1 s2 s3 :
  arch_reg_num (cm_rat s2) = arch_reg_num (cm_rat s1) -> keeps_values m s1 s2 -> keeps_values m s2 s3 -> keeps_values m s1 s3.
Proof. intros E H1 H2 a Ha. rewrite H2; [by apply H1|]. unfold in_arch in *. congruence. Qed.

Lemma commit_undo_ref m es es1 id it s :
  walk_inv m es (es1 ++ [(id, it)]) s -> cm_restore_rob_item_id s = id /\ commit_undo s = Some (undo_world it s).
Proof.
  intros [[Hok Hes _ _] _ [es2 Hsp] Hres _]. rewrite last_snoc in Hres. cbn in Hres. injection Hres as Hres.
  split; [done|]. unfold commit_undo, rob_get_item. rewrite Hsp in Hes. unfold rob_entries in Hes.
  rewrite <- Hres, (fifo_entries_get _ id it Hok) by (rewrite Hes, !elem_of_app; left; right; by left). done.
Qed.

Lemma rob_sync_idle r : rob_sync_request_q r = [] -> rob_sync r = Some r.
Proof. intros H. unfold rob_sync. by rewrite H. Qed.

Lemma csrfile_sync_idle f : csr_sync_request_q f = [] -> csrfile_sync f = Some f.
Proof. intros H. unfold csrfile_sync. by rewrite H. Qed.

Lemma commit_sync_idle s :
  rat_sync_request_q (cm_rat s) = [] -> rob_sync_request_q (cm_rob s) = [] -> rf_sync_request_q (cm_phy_regfile s) = [] ->
  csr_sync_request_q (cm_csr_file s) = [] -> commit_sync s = Some s.
Proof.
  intros H1 H2 H3 H4. unfold commit_sync, rat_sync, regfile_sync. rewrite H1, H3, rob_sync_idle, csrfile_sync_idle by done.
  by destruct s.
Qed.

Lemma undo_world_keeps it s :
  cm_rob (undo_world it s) = cm_rob s /\ cm_csr_file (undo_world it s) = cm_csr_file s /\
  cm_rob_item_id (undo_world it s) = cm_rob_item_id s /\ cm_restore_rob_item_id (undo_world it s) = cm_restore_rob_item_id s /\
  undo_world it s = tables_of s (cm_rat (undo_world it s)) (cm_phy_regfile (undo_world it s)).
Proof. unfold undo_world. destruct (rob_old_phy_reg_id_valid it); [done|]. split_and!; try done. by destruct s. Qed.

Lemma log_of_snoc es id it : log_of (es ++ [(id, it)]) = log_of es ++ item_log it.
Proof. rewrite log_of_app. cbn. by rewrite app_nil_r. Qed.

Lemma walk_step m es es1 id it s wb_port :
  walk_inv m es (es1 ++ [(id, it)]) s -> es1 <> [] -> cm_cur_state s <> normal ->
  exists s', commit_cycle wb_port s = Some (walk_pack, s') /\ walk_inv m es es1 s' /\ walked s s' /\ keeps_values m s s'.
Proof.
  intros WI Hne Hst. set (s0 := s <| cm_rob ::= fun r => rob_set_committed r false |>).
  assert (walk_inv m es (es1 ++ [(id, it)]) s0) as WI0 by (destruct WI as [[] [] ? ? ?]; by split).
  destruct (commit_undo_ref _ _ _ _ _ _ WI0) as [Hid Hundo]. destruct WI0 as [[Hok Hes Hq Hn] TI [es2 Hsp] Hres Hitem].
  rewrite log_of_snoc in TI. destruct (tables_undo _ _ _ _ TI) as (r' & f' & Er & Ef & TI' & D & Hv).
  destruct (undo_world_keeps it s0) as (K1 & K2 & K3 & K4 & K5).
  pose proof Hes as Hes'. rewrite Hsp, <- app_assoc in Hes'. cbn [app] in Hes'. unfold rob_entries in Hes'.
  destruct (fifo_entries_prev (rob_fifo (cm_rob s0)) es1 id it es2 Hok Hes') as (prev & ok & Ep & Hp).
  destruct (list.last es1) as [e0|] eqn:El; [|by apply last_None in El]. destruct (Hp _ eq_refl) as [-> ->].
  assert (id <> cm_rob_item_id s0) as Hdiff.
  { destruct es1 as [|h es1]; [done|]. injection Hitem as Hitem. intros Heq.
    pose proof (fifo_entries_nodup _ Hok) as Hnd. rewrite Hes' in Hnd. cbn in Hnd. apply list.NoDup_cons in Hnd as [Hnd _].
    apply Hnd. rewrite (eq_trans Hitem (eq_sym Heq)). change (map fst ?l) with (fst <$> l). rewrite fmap_app, elem_of_app. right. by left. }
  set (s1 := (undo_world it s0) <| cm_restore_rob_item_id := e0.1 |>).
  set (s2 := s1 <| cm_rat := r' |> <| cm_phy_regfile := f' |>).
  exists s2. split_and!.
  - assert (commit_walk (enter_of (cm_cur_state s0)) s0 = Some (walk_pack, s1)) as Ew.
    { unfold commit_walk. rewrite Hundo. cbn [mbind option_bind]. unfold rob_get_prev_id.
      rewrite K1, K3, K4, Hid, Ep. cbn [mbind option_bind]. by rewrite (proj2 (Z.eqb_neq _ _) Hdiff). }
    unfold commit_cycle. fold s0. rewrite commit_run_walk by done. rewrite Ew. cbn [mbind option_bind]. unfold commit_sync.
    change (cm_rat s1) with (cm_rat (undo_world it s0)). change (cm_phy_regfile s1) with (cm_phy_regfile (undo_world it s0)).
    change (cm_rob s1) with (cm_rob (undo_world it s0)). change (cm_csr_file s1) with (cm_csr_file (undo_world it s0)).
    rewrite Er, Ef, K1, K2, rob_sync_idle, csrfile_sync_idle by (done || apply TI). cbn [mbind option_bind].
    do 2 f_equal. unfold s2, s1. rewrite K5. done.
  - split.
    + unfold s2, s1. rewrite K5. by split.
    + unfold s2, s1. rewrite K5. by apply (tables_inv_same _ _ _ _ TI'); [..|apply TI'].
    + exists ((id, it) :: es2). by rewrite Hsp, <- app_assoc.
    + rewrite El. done.
    + unfold s2, s1. rewrite K5. destruct es1; [done|]. exact Hitem.
  - unfold s2, s1. rewrite K5. split; [|done]. exists r', (cm_rob s0), f', e0.1. reflexivity.
  - intros a Ha. unfold s2. cbn. by apply Hv.
Qed.

(** * The trap registers *)

Definition csr_at (f : csrfile) (addr : Z) (k : csr_kind) : Prop :=
  exists it, csr_map_table f !! addr = Some it /\ csr_class (csr it) = k.

Lemma csr_at_same f g addr k : same_registers f g -> csr_at g addr k -> csr_at f addr k.
Proof.
  intros H (it & E & Hk). specialize (H addr). rewrite E in H. cbn in H.
  destruct (csr_map_table f !! addr) as [it'|] eqn:E'; cbn in H; [|done]. exists it'. split; [done|]. congruence.
Qed.

Lemma csrfile_write_sys_spec f addr value k :
  csr_at f addr k -> k <> charfifo ->
  exists f', csrfile_write_sys f addr value = Some f' /\ same_registers f' f /\
    csrfile_read f' addr = Some (csr_filter k value) /\ (forall b, b <> addr -> csrfile_read f' b = csrfile_read f b).
Proof.
  intros (it & Hit & Hk) Hne. unfold csrfile_write_sys. rewrite Hit. cbn [mbind option_bind].
  destruct (csrfile_item_write f addr it value) as [f'|] eqn:E; unfold csrfile_item_write in E;
    rewrite decide_False in E by congruence; [|done].
  exists f'. split; [done|]. split; [apply (csrfile_item_write_same f addr it value); [done|]; unfold csrfile_item_write; by rewrite decide_False by congruence|].
  simplify_eq. split.
  - unfold csrfile_read, csrfile_item_read. cbn. rewrite lookup_insert_eq. cbn. by rewrite decide_False by done.
  - intros b Hb. unfold csrfile_read, csrfile_item_read. cbn. by rewrite lookup_insert_ne.
Qed.

(** Writes of the core itself to different registers. *)
Lemma csrfile_sys_writes (ws : list (Z * csr_kind * Z)) f :
  NoDup ws.*1.*1 -> Forall (fun w => csr_at f w.1.1 w.1.2 /\ w.1.2 <> charfifo) ws ->
  exists f', csrfile_sync_loop f ((fun w => csr_req_write_sys w.1.1 w.2) <$> ws) = Some f' /\ same_registers f' f /\
    Forall (fun w => csrfile_read f' w.1.1 = Some (csr_filter w.1.2 w.2)) ws /\
    (forall b, b ∉ ws.*1.*1 -> csrfile_read f' b = csrfile_read f b).
Proof.
  revert f. induction ws as [|[[addr k] v] ws IH]; intros f Hnd Hall; [by exists f|].
  cbn in Hnd. apply list.NoDup_cons in Hnd as [Hnin Hnd]. apply list.Forall_cons in Hall as [[Hat Hne] Hall]. cbn in Hat, Hne.
  set (f0 := f <| csr_sync_request_q := (fun w => csr_req_write_sys w.1.1 w.2) <$> ws |>).
  destruct (csrfile_write_sys_spec f0 addr v k Hat Hne) as (f1 & E1 & S1 & R1 & O1).
  destruct (IH f1 Hnd) as (f' & E & S' & R' & O').
  { eapply Forall_impl; [exact Hall|]. intros w [Hw1 Hw2]. split; [|done]. by apply (csr_at_same _ f0). }
  exists f'. split_and!.
  - cbn. fold f0. by rewrite E1.
  - intros b. by rewrite (S' b), (S1 b).
  - constructor; [|done]. cbn. rewrite O' by done. exact R1.
  - intros b Hb. cbn in Hb. rewrite not_elem_of_cons in Hb. destruct Hb as [Hb1 Hb2]. rewrite O', O1 by done. done.
Qed.

(** The registers a trap uses. *)
Definition trap_csrs (f : csrfile) : Prop :=
  csr_at f CSR_MSTATUS mstatus /\ csr_at f CSR_MTVEC mtvec /\ csr_at f CSR_MEPC mepc /\ csr_at f CSR_MCAUSE mcause /\
  csr_at f CSR_MTVAL mtval.

(** What the end of the walk writes. *)
Definition trap_writes (s : commit_world) (status : Z) : list (Z * csr_kind * Z) :=
  match cm_cur_state s with
  | interrupt_flush =>
      let v := csr_load (csr_new mstatus) status in
      [(CSR_MEPC, mepc, cm_interrupt_pc s); (CSR_MTVAL, mtval, 0);
       (CSR_MCAUSE, mcause, Z.lor 0x80000000 (interrupt_code (cm_interrupt_id s)));
       (CSR_MSTATUS, mstatus, csr_get_value (mstatus_set_mie (mstatus_set_mpie v (mstatus_get_mie v)) false))]
  | _ =>
      [(CSR_MEPC, mepc, rob_pc (cm_rob_item s)); (CSR_MTVAL, mtval, rob_exception_value (cm_rob_item s));
       (CSR_MCAUSE, mcause, exception_code (rob_exception_id (cm_rob_item s)))]
  end.

Definition trap_interface (s : commit_world) : interrupt_interface :=
  match cm_cur_state s with
  | interrupt_flush => int_set_ack_sync (cm_interrupt_interface s) (cm_interrupt_id s)
  | _ => cm_interrupt_interface s
  end.

Lemma enter_ref s status :
  csrfile_read (cm_csr_file s) CSR_MSTATUS = Some status ->
  enter_of (cm_cur_state s) s =
    Some (s <| cm_csr_file ::= fun f => f <| csr_sync_request_q ::=
                 fun q => q ++ ((fun w => csr_req_write_sys w.1.1 w.2) <$> trap_writes s status) |> |>
            <| cm_interrupt_interface := trap_interface s |>).
Proof.
  intros Hst. unfold enter_of, trap_writes, trap_interface.
  destruct (cm_cur_state s); try by unfold enter_exception, csrfile_write_sys_sync, upd; destruct s; cbn; rewrite <- !app_assoc.
  unfold enter_interrupt.
  match goal with |- context [csrfile_read_sys ?f CSR_MSTATUS] =>
    assert (csrfile_read_sys f CSR_MSTATUS = Some status) as -> end.
  { rewrite <- Hst. unfold csrfile_read_sys, csrfile_read. cbn. by destruct (csr_map_table (cm_csr_file s) !! CSR_MSTATUS). }
  cbn [mbind option_bind]. unfold csrfile_write_sys_sync, upd. destruct s. cbn. by rewrite <- !app_assoc.
Qed.

(** * The last cycle *)

Lemma rob_flush_inv es r : rob_inv es r -> rob_inv [] (rob_flush r).
Proof. intros [Hok Hes Hq Hn]. destruct (fifo_flush_ok (rob_fifo r) Hok) as [H1 H2]. by split. Qed.

Lemma walk_last m es id it s wb_port status tvec :
  walk_inv m es [(id, it)] s -> cm_cur_state s <> normal -> trap_csrs (cm_csr_file s) ->
  csrfile_read (cm_csr_file s) CSR_MSTATUS = Some status -> csrfile_read (cm_csr_file s) CSR_MTVEC = Some tvec ->
  exists s', commit_cycle wb_port s = Some (walk_pack <| cf_has_exception := true |> <| cf_exception_pc := tvec |>, s') /\
    commit_inv m [] s' /\ cm_cur_state s' = normal /\ keeps_values m s s' /\
    global_commit_num (cm_rob s') = u64 (global_commit_num (cm_rob s) + 1) /\
    cm_interrupt_interface s' = trap_interface s /\
    Forall (fun w => csrfile_read (cm_csr_file s') w.1.1 = Some (csr_filter w.1.2 w.2)) (trap_writes s status) /\
    (forall b, b ∉ (trap_writes s status).*1.*1 -> csrfile_read (cm_csr_file s') b = csrfile_read (cm_csr_file s) b).
Proof.
  intros WI Hst (C1 & C2 & C3 & C4 & C5) Hms Hmt. set (s0 := s <| cm_rob ::= fun r => rob_set_committed r false |>).
  assert (walk_inv m es ([] ++ [(id, it)]) s0) as WI0 by (destruct WI as [[] [] ? ? ?]; by split).
  destruct (commit_undo_ref _ _ _ _ _ _ WI0) as [Hid Hundo]. destruct WI0 as [RI TI [es2 Hsp] Hres Hitem].
  cbn in Hitem. injection Hitem as Hitem. rewrite log_of_snoc in TI.
  destruct (tables_undo _ _ _ _ TI) as (r' & f' & Er & Ef & TI' & D & Hv).
  destruct (undo_world_keeps it s0) as (K1 & K2 & K3 & K4 & K5).
  destruct (csrfile_sys_writes (trap_writes s status) (cm_csr_file s)) as (c' & Ec & Sc & Rc & Oc).
  { unfold trap_writes. destruct (cm_cur_state s); by apply (bool_decide_unpack _). }
  { unfold trap_writes. destruct (cm_cur_state s); repeat constructor; done. }
  destruct (csrfile_sync_eq _ _ _ (ti_csr_queue _ _ _ TI) Ec) as [Ecs Hcq].
  set (R := cm_rat (undo_world it s0)) in *. set (F := cm_phy_regfile (undo_world it s0)) in *. rewrite K5 in Hundo.
  set (s1 := (tables_of s0 R F) <| cm_rob ::= rob_flush |>).
  pose proof (enter_ref s1 status Hms) as Hent. change (cm_cur_state s1) with (cm_cur_state s0) in Hent.
  set (s2 := s1 <| cm_csr_file ::= _ |> <| cm_interrupt_interface := _ |>) in Hent.
  set (s3 := commit_counted (s2 <| cm_cur_state := normal |>)).
  assert (commit_walk (enter_of (cm_cur_state s0)) s0 =
          Some (walk_pack <| cf_has_exception := true |> <| cf_exception_pc := tvec |>, s3)) as Ew.
  { destruct RI as [Hok Hes _ _]. rewrite Hsp in Hes. unfold rob_entries in Hes.
    destruct (fifo_entries_prev _ [] id it es2 Hok Hes) as (prev & ok & Ep & _).
    unfold commit_walk. rewrite Hundo. cbn [mbind option_bind]. unfold rob_get_prev_id.
    change (cm_rob (tables_of s0 R F)) with (cm_rob s0). change (cm_restore_rob_item_id (tables_of s0 R F)) with (cm_restore_rob_item_id s0).
    change (cm_rob_item_id (tables_of s0 R F)) with (cm_rob_item_id s). rewrite Hid, Ep. cbn [mbind option_bind].
    rewrite (proj2 (Z.eqb_eq _ _) Hitem). cbn [negb]. fold s1. rewrite Hent. cbn [mbind option_bind].
    assert (csrfile_read_sys (cm_csr_file s2) CSR_MTVEC = Some tvec) as ->.
    { rewrite <- Hmt. unfold csrfile_read_sys, csrfile_read. cbn. by destruct (csr_map_table (cm_csr_file s) !! CSR_MTVEC). }
    done. }
  assert (rob_inv [] (cm_rob s3)) as RI3.
  { change (cm_rob s3) with (rob_add_commit_num (rob_set_committed (rob_flush (cm_rob s0)) true) 1).
    destruct (rob_flush_inv _ _ RI) as [A B C E]. split; [exact A|exact B|exact C|apply u64_range]. }
  assert (cm_csr_file s3 = (cm_csr_file s) <| csr_sync_request_q := (fun w => csr_req_write_sys w.1.1 w.2) <$> trap_writes s status |>)
    as Hc3.
  { pose proof (ti_csr_queue _ _ _ TI) as Hq. change (cm_csr_file s0) with (cm_csr_file s) in Hq.
    change (cm_csr_file s3) with ((cm_csr_file s) <| csr_sync_request_q ::=
      fun q => q ++ ((fun w => csr_req_write_sys w.1.1 w.2) <$> trap_writes s1 status) |>).
    assert (trap_writes s1 status = trap_writes s status) as -> by reflexivity. unfold upd. by rewrite Hq. }
  set (s4 := s3 <| cm_rat := r' |> <| cm_phy_regfile := f' |> <| cm_csr_file := c' |>).
  exists s4. split_and!; try done.
  - unfold commit_cycle. fold s0. rewrite commit_run_walk by done. rewrite Ew. cbn [mbind option_bind]. unfold commit_sync.
    change (cm_rat s3) with R. change (cm_phy_regfile s3) with F. change (cm_csr_file s0) with (cm_csr_file s) in Ecs.
    rewrite Er, Ef, Hc3, Ecs.
    rewrite rob_sync_idle by apply RI3. done.
  - split; [done| |constructor]. by apply (tables_inv_same _ _ _ _ TI').
Qed.

(** * The whole walk *)

(** Cycles of the stage, one per packet of write-back. *)
Fixpoint commit_cycles (wb_ports : list (port wb_commit_pack_t)) (s : commit_world)
    : option (list commit_feedback_pack_t * commit_world) :=
  match wb_ports with
  | [] => Some ([], s)
  | wb_port :: wb_ports =>
      '(p, s) ← commit_cycle wb_port s;
      '(ps, s) ← commit_cycles wb_ports s;
      Some (p :: ps, s)
  end.

(** The trap has been taken: everything in flight is gone, the committed
    registers are as before, and the trap registers are written. *)
Record trapped (m : Z -> Z) (s : commit_world) (status : Z) (s' : commit_world) : Prop := {
  tp_inv : commit_inv m [] s';
  tp_state : cm_cur_state s' = normal;
  tp_values : keeps_values m s s';
  tp_num : global_commit_num (cm_rob s') = u64 (global_commit_num (cm_rob s) + 1);
  tp_interface : cm_interrupt_interface s' = trap_interface s;
  tp_csrs : Forall (fun w => csrfile_read (cm_csr_file s') w.1.1 = Some (csr_filter w.1.2 w.2)) (trap_writes s status);
  tp_others b : b ∉ (trap_writes s status).*1.*1 -> csrfile_read (cm_csr_file s') b = csrfile_read (cm_csr_file s) b
}.

Definition trap_pack (tvec : Z) : commit_feedback_pack_t :=
  walk_pack <| cf_has_exception := true |> <| cf_exception_pc := tvec |>.

Lemma walk_all m es es1 s wb_ports status tvec :
  walk_inv m es es1 s -> length wb_ports = length es1 -> cm_cur_state s <> normal -> trap_csrs (cm_csr_file s) ->
  csrfile_read (cm_csr_file s) CSR_MSTATUS = Some status -> csrfile_read (cm_csr_file s) CSR_MTVEC = Some tvec ->
  exists s', commit_cycles wb_ports s = Some (repeat walk_pack (length es1 - 1) ++ [trap_pack tvec], s') /\
    trapped m s status s'.
Proof.
  revert s wb_ports. induction es1 as [|[id it] es1 IH] using rev_ind; intros s wb_ports WI Hlen Hst Htc Hms Hmt.
  { destruct WI as [_ _ _ H _]. done. }
  rewrite length_app, Nat.add_1_r in *. cbn [length] in Hlen. destruct wb_ports as [|wb_port wb_ports]; [done|].
  injection Hlen as Hlen. cbn [commit_cycles]. destruct (decide (es1 = [])) as [->|Hne].
  - destruct (walk_last m es id it s wb_port status tvec WI Hst Htc Hms Hmt) as (s' & -> & A & B & C & D & E & F & G).
    destruct wb_ports; [|done]. exists s'. by split.
  - destruct (walk_step m es es1 id it s wb_port WI Hne Hst) as (s1 & -> & WI1 & Hw & Hk). cbn [mbind option_bind].
    destruct Hw as [(r & b & f & k & ->) [Hn Ha]].
    destruct (IH _ wb_ports WI1 Hlen Hst Htc Hms Hmt) as (s' & -> & [A B C D E F G]). cbn [mbind option_bind].
    exists s'. split.
    + destruct es1; [done|]. cbn. by rewrite Nat.sub_0_r.
    + split; try done.
      * by apply (keeps_values_trans m s (s <| cm_rat := r |> <| cm_rob := b |> <| cm_phy_regfile := f |> <| cm_restore_rob_item_id := k |>)).
      * by rewrite D, Hn.
Qed.

Lemma csr_at_read f addr k : csr_at f addr k -> exists v, csrfile_read f addr = Some v.
Proof. intros (it & E & _). unfold csrfile_read. rewrite E. by eexists. Qed.

Lemma rob_tail_id es r : rob_inv es r -> rob_get_tail_id r = fst <$> list.last es.
Proof. intros [Hok Hes _ _]. unfold rob_get_tail_id. rewrite fifo_entries_tail by done. unfold rob_entries in Hes. by rewrite Hes. Qed.

(** A cycle in the state [normal] that ends in a flush. *)
Lemma flush_cycle wb_port s s1 s2 p :
  cm_cur_state s = normal ->
  commit_normal_output (mk_commit_vars (s <| cm_rob ::= fun r => rob_set_committed r false |>) commit_feedback_zero false) =
    Some (mk_commit_vars s1 p true) ->
  commit_sync s1 = Some s2 -> commit_cycle wb_port s = Some (p, s2).
Proof.
  intros Hst E Es. unfold commit_cycle, commit_run.
  assert (cm_cur_state (s <| cm_rob ::= fun r => rob_set_committed r false |>) = normal) as -> by exact Hst.
  unfold commit_normal. rewrite E. cbn [mbind option_bind cv_need_flush negb cv_world cv_feedback_pack]. by rewrite Es.
Qed.

(** The cycle in which an exception reaches the front. *)
Lemma exception_cycle m es s l id it rest c1 wb_port :
  commit_inv m es s -> cm_cur_state s = normal -> int_get_cause (cm_interrupt_interface s) (cm_csr_file s) = Some None ->
  commit_scan (Z.to_nat COMMIT_WIDTH) es = (l, stop_exception id it) -> es = l ++ (id, it) :: rest ->
  csrfile_sync_loop (cm_csr_file s) (csr_writes l) = Some c1 ->
  exists p s1, commit_cycle wb_port s = Some (p, s1) /\ cf_enable p = true /\ cf_flush p = true /\ cf_has_exception p = false /\
    walk_inv (retire_all m (log_of l)) ((id, it) :: rest) ((id, it) :: rest) s1 /\ cm_cur_state s1 = flush /\
    cm_rob_item s1 = it /\ cm_csr_file s1 = c1 /\ cm_interrupt_interface s1 = cm_interrupt_interface s /\
    global_commit_num (cm_rob s1) = u64 (global_commit_num (cm_rob s) + Z.of_nat (length l)) /\
    arch_reg_num (cm_rat s1) = arch_reg_num (cm_rat s) /\ keeps_values (retire_all m (log_of l)) s s1.
Proof.
  intros CI Hst Hint Hscan Hes Hc. set (s0 := s <| cm_rob ::= fun r => rob_set_committed r false |>).
  assert (commit_inv m es s0) as CI0 by (by apply commit_inv_committed).
  assert (es <> []) as Hne by (subst; by destruct l).
  destruct (commit_normal_output_ref es s0 (ri_ok _ _ (ci_rob _ _ _ CI0)) (ri_entries _ _ (ci_rob _ _ _ CI0)) Hne Hint) as (it0 & id0 & p & rest0 & Er & (nx & Hp & _) & E).
  pose proof (commit_scan_finished (Z.to_nat COMMIT_WIDTH) es) as Hfin.
  rewrite Hscan in *. cbn [fst snd stop_entries after_stop] in *. rewrite at_item_twice in E.
  set (s1 := at_item it id (fold_left retire_world l s0)) in E.
  assert (retired l [] [] s0 s1) as RT.
  { destruct (retired_fold l s0 (ri_num _ _ (ci_rob _ _ _ CI0))) as [H1 H2 H3 H4 H5 H6]. by split. }
  assert (exists tail_id, rob_get_tail_id (cm_rob s1) = Some tail_id /\ fst <$> list.last ((id, it) :: rest) = Some tail_id)
    as (tail_id & Ht & Hlast).
  { pose proof (rob_tail_id _ _ (ci_rob _ _ _ CI0)) as Ht. unfold rob_get_tail_id in *. rewrite (rt_fifo _ _ _ _ _ RT).
    rewrite Ht, Hes. rewrite last_app_cons. destruct (list.last ((id, it) :: rest)) as [e|] eqn:El; [by exists e.1|].
    by apply last_None in El. }
  set (s2 := s1 <| cm_restore_rob_item_id := tail_id |> <| cm_cur_state := flush |>).
  assert (retired l [] [] s0 s2) as RT2 by (destruct RT; by split).
  rewrite Hes in CI0.
  destruct (retired_sync m l ((id, it) :: rest) ((id, it) :: rest) [] [] s0 s2 c1 CI0 RT2) as (r' & b' & f' & Es & CI' & T & Hn & Hv);
    try done.
  { pose proof (ci_results _ _ _ CI0) as Hres. by apply Forall_app in Hres as [_ Hres]. }
  { by rewrite app_nil_r. }
  eexists (p <| cf_enable := true |> <| cf_flush := true |>), _. split_and!.
  - apply (flush_cycle _ _ s2); [done| |exact Es]. fold s0. rewrite E. unfold commit_exception. cbn [cv_world]. by rewrite Ht.
  - done.
  - done.
  - by rewrite Hp.
  - destruct CI' as [RI TI _]. split; [done|done|by exists []; rewrite app_nil_r|done|done].
  - done.
  - done.
  - done.
  - cbn. unfold s1. cbn. destruct (retire_fold_keeps l s0) as (_ & _ & _ & -> & _). done.
  - done.
  - cbn. by rewrite (tr_arch _ _ T).
  - intros a Ha. by apply Hv.
Qed.

(** C1: precise exceptions.  Let the reorder buffer hold, behind the finished
    instructions [l], an instruction with an exception, and behind that the
    instructions [rest].  The stage reaches the state [normal] again after
    one cycle and one more for each of the instructions that do not retire.
    Then the reorder buffer is empty, the committed mapping is the one after
    [l] with the values it had, every other register is free and empty, the
    CSR writes of [l] and nothing else have been performed, [mepc], [mtval]
    and [mcause] describe the exception, and no assertion was tripped.  Every
    cycle flushes the pipeline, and the last one sends fetch to [mtvec]. *)
Theorem precise_exception m es s l id it rest c1 wb_ports tvec :
  commit_inv m es s -> cm_cur_state s = normal -> int_get_cause (cm_interrupt_interface s) (cm_csr_file s) = Some None ->
  commit_scan (Z.to_nat COMMIT_WIDTH) es = (l, stop_exception id it) -> es = l ++ (id, it) :: rest ->
  csrfile_sync_loop (cm_csr_file s) (csr_writes l) = Some c1 -> trap_csrs c1 ->
  csrfile_read c1 CSR_MTVEC = Some tvec -> length wb_ports = S (length ((id, it) :: rest)) ->
  exists ps s', commit_cycles wb_ports s = Some (ps ++ [trap_pack tvec], s') /\
    Forall (fun p => cf_enable p = true /\ cf_flush p = true /\ cf_has_exception p = false) ps /\
    commit_inv (retire_all m (log_of l)) [] s' /\ cm_cur_state s' = normal /\
    keeps_values (retire_all m (log_of l)) s s' /\
    csrfile_read (cm_csr_file s') CSR_MEPC = Some (Z.land (rob_pc it) (not32 3)) /\
    csrfile_read (cm_csr_file s') CSR_MTVAL = Some (rob_exception_value it) /\
    csrfile_read (cm_csr_file s') CSR_MCAUSE = Some (exception_code (rob_exception_id it)) /\
    (forall b, b ∉ [CSR_MEPC; CSR_MTVAL; CSR_MCAUSE] -> csrfile_read (cm_csr_file s') b = csrfile_read c1 b).
Proof.
  intros CI Hst Hint Hscan Hes Hc Htc Hmt Hlen. destruct wb_ports as [|wb_port wb_ports]; [done|]. injection Hlen as Hlen.
  destruct (exception_cycle m es s l id it rest c1 wb_port CI Hst Hint Hscan Hes Hc)
    as (p & s1 & E1 & P1 & P2 & P3 & WI & Hst1 & Hit & Hcsr & _ & _ & Ha & Hk).
  pose proof Htc as (C1 & _). destruct (csr_at_read _ _ _ C1) as [status Hms].
  destruct (walk_all _ _ _ s1 wb_ports status tvec WI Hlen) as (s' & E2 & [A B C _ _ F G]); try by rewrite ?Hcsr, ?Hst1.
  unfold trap_writes in F, G. rewrite Hst1, Hit in F, G. cbn in G.
  apply list.Forall_cons in F as [F1 F]. apply list.Forall_cons in F as [F2 F]. apply list.Forall_cons in F as [F3 _].
  cbn [fst snd] in F1, F2, F3.
  exists (p :: repeat walk_pack (length ((id, it) :: rest) - 1)), s'. split_and!; try done.
  - cbn [commit_cycles]. rewrite E1. cbn [mbind option_bind]. rewrite E2. done.
  - constructor; [done|]. apply list.Forall_forall. intros q Hq. apply list_elem_of_In, repeat_spec in Hq. by subst.
  - by apply (keeps_values_trans _ s s1).
  - intros b Hb. rewrite G by done. by rewrite Hcsr.
Qed.

Definition interrupt_world (id : Z) (it : rob_item_t) (tail_id : Z) (cause : riscv_interrupt_t) (s : commit_world) : commit_world :=
  (at_item it id s) <| cm_interrupt_id := cause |> <| cm_interrupt_pc := rob_pc it |>
    <| cm_restore_rob_item_id := tail_id |> <| cm_cur_state := interrupt_flush |>.

Definition interrupt_pack (id : Z) : commit_feedback_pack_t :=
  commit_feedback_zero <| cf_enable := true |> <| cf_next_handle_rob_id := id |>
    <| cf_next_handle_rob_id_valid := true |> <| cf_flush := true |>.

Lemma interrupt_output s id it tail_id cause :
  fifo_is_empty (rob_fifo (cm_rob s)) = false -> rob_get_front_id (cm_rob s) = Some id ->
  rob_get_item (cm_rob s) id = Some it -> rob_get_tail_id (cm_rob s) = Some tail_id ->
  int_get_cause (cm_interrupt_interface s) (cm_csr_file s) = Some (Some cause) ->
  commit_normal_output (mk_commit_vars s commit_feedback_zero false) =
    Some (mk_commit_vars (interrupt_world id it tail_id cause s) (interrupt_pack id) true).
Proof.
  intros He Hf Hg Ht Hi. unfold commit_normal_output. cbn [cv_world]. rewrite He, Hf. cbn [negb mbind option_bind].
  rewrite Hg. cbn [mbind option_bind].
  change (cm_interrupt_interface (s <| cm_rob_item_id := id |> <| cm_rob_item := it |>)) with (cm_interrupt_interface s).
  change (cm_csr_file (s <| cm_rob_item_id := id |> <| cm_rob_item := it |>)) with (cm_csr_file s).
  rewrite Hi. cbn [mbind option_bind].
  change (cm_rob (s <| cm_rob_item_id := id |> <| cm_rob_item := it |>)) with (cm_rob s). rewrite Ht. reflexivity.
Qed.

(** The cycle in which an interrupt is taken: nothing retires. *)
Lemma interrupt_cycle m es id it rest s cause wb_port :
  commit_inv m es s -> cm_cur_state s = normal -> es = (id, it) :: rest ->
  int_get_cause (cm_interrupt_interface s) (cm_csr_file s) = Some (Some cause) ->
  exists p s1, commit_cycle wb_port s = Some (p, s1) /\ cf_enable p = true /\ cf_flush p = true /\ cf_has_exception p = false /\
    walk_inv m es es s1 /\ cm_cur_state s1 = interrupt_flush /\ cm_interrupt_pc s1 = rob_pc it /\
    cm_interrupt_id s1 = cause /\ cm_csr_file s1 = cm_csr_file s /\ cm_interrupt_interface s1 = cm_interrupt_interface s /\
    cm_rat s1 = cm_rat s /\ cm_phy_regfile s1 = cm_phy_regfile s.
Proof.
  intros CI Hst Hes Hint. set (s0 := s <| cm_rob ::= fun r => rob_set_committed r false |>).
  assert (commit_inv m es s0) as [RI TI _] by (by apply commit_inv_committed).
  pose proof RI as [Hok He Hq _]. unfold rob_entries in He.
  assert (fifo_get_front_id (rob_fifo (cm_rob s0)) = Some id) as Hf by (rewrite fifo_entries_front by done; by rewrite He, Hes).
  assert (fifo_is_empty (rob_fifo (cm_rob s0)) = false) as Hem by (unfold fifo_get_front_id in Hf; by destruct (fifo_is_empty _)).
  pose proof (rob_tail_id _ _ RI) as Ht. destruct (list.last es) as [e|] eqn:El; [|by apply last_None in El; subst].
  assert (rob_get_item (cm_rob s0) id = Some it) as Hg by (apply (fifo_entries_get _ id it Hok); rewrite He, Hes; left).
  assert (int_get_cause (cm_interrupt_interface s0) (cm_csr_file s0) = Some (Some cause)) as Hint0.
  { assert (cm_interrupt_interface s0 = cm_interrupt_interface s) as -> by reflexivity.
    assert (cm_csr_file s0 = cm_csr_file s) as -> by reflexivity. exact Hint. }
  pose proof (interrupt_output s0 id it e.1 cause Hem Hf Hg Ht Hint0) as E.
  set (p := interrupt_pack id) in *. set (s1 := interrupt_world id it e.1 cause s0) in *.
  exists p, s1. split_and!; try done.
  - apply (flush_cycle _ _ s1); [done|exact E|]. by apply commit_sync_idle; [apply TI|exact Hq|apply TI..].
  - split; [exact RI|by apply (tables_inv_same _ _ _ _ TI); [..|apply TI]|by exists []; rewrite app_nil_r| |].
    + by rewrite El.
    + by rewrite Hes.
Qed.

(** Bits 3 (MIE) and 7 (MPIE) of the status register a trap leaves. *)
Lemma trap_status_bits status :
  is_u32 status ->
  let v := csr_load (csr_new mstatus) status in
  let x := csr_filter mstatus (csr_get_value (mstatus_set_mie (mstatus_set_mpie v (mstatus_get_mie v)) false)) in
  Z.testbit x 3 = false /\ Z.testbit x 7 = Z.testbit status 3.
Proof.
  intros Hs v x. set (v1 := mstatus_set_mpie v (mstatus_get_mie v)) in *.
  assert (is_u32 (csr_value v1)) as Hv1.
  { unfold v1, mstatus_set_mpie, csr_setbit, csr_write. cbn [csr_value upd].
    change (csr_class _) with mstatus. cbn [csr_filter].
    change 0x88 with (Z.land 0x88 0xffffffff). rewrite Z.land_assoc, land_32. apply is_u32_u32. }
  assert (csr_value v = status) as Hval by done.
  assert (forall i, i = 3 \/ i = 7 -> Z.testbit x i = (if decide (i = 3) then false else Z.testbit (csr_value v1) i)) as Hx.
  { intros i Hi. unfold x, csr_get_value. cbn [csr_filter]. rewrite Z.land_spec. unfold mstatus_set_mie.
    rewrite csr_setbit_bits by (done || lia). change (csr_class v1) with mstatus. cbn [csr_mask].
    by destruct Hi as [-> | ->]; cbn; rewrite ?andb_true_r. }
  split; [by rewrite Hx by auto|]. rewrite Hx by auto. rewrite decide_False by done. unfold v1, mstatus_set_mpie.
  rewrite csr_setbit_bits by (done || lia). change (csr_class v) with mstatus. rewrite decide_True by done.
  unfold mstatus_get_mie. by rewrite csr_getbit_testbit, Hval by lia.
Qed.

(** C13: interrupts.  With an enabled interrupt pending, the stage retires
    nothing; it reaches the state [normal] again after one cycle and one more
    for each instruction in flight.  Then the reorder buffer is empty, the
    committed registers are as before, [mepc] is the address of the oldest
    instruction, [mcause] the cause with its interrupt bit, [mtval] zero,
    interrupts are disabled with the former enable bit saved, no other CSR has
    changed, and the interrupt has been acknowledged.  Every cycle flushes the
    pipeline, and the last one sends fetch to [mtvec]. *)
Theorem interrupt_taken m es id it rest s cause wb_ports status tvec :
  commit_inv m es s -> cm_cur_state s = normal -> es = (id, it) :: rest ->
  int_get_cause (cm_interrupt_interface s) (cm_csr_file s) = Some (Some cause) -> trap_csrs (cm_csr_file s) ->
  csrfile_read (cm_csr_file s) CSR_MSTATUS = Some status -> is_u32 status ->
  csrfile_read (cm_csr_file s) CSR_MTVEC = Some tvec -> length wb_ports = S (length es) ->
  exists ps s' status', commit_cycles wb_ports s = Some (ps ++ [trap_pack tvec], s') /\
    Forall (fun p => cf_enable p = true /\ cf_flush p = true /\ cf_has_exception p = false) ps /\
    commit_inv m [] s' /\ cm_cur_state s' = normal /\ keeps_values m s s' /\
    csrfile_read (cm_csr_file s') CSR_MEPC = Some (Z.land (rob_pc it) (not32 3)) /\
    csrfile_read (cm_csr_file s') CSR_MTVAL = Some 0 /\
    csrfile_read (cm_csr_file s') CSR_MCAUSE = Some (Z.lor 0x80000000 (interrupt_code cause)) /\
    csrfile_read (cm_csr_file s') CSR_MSTATUS = Some status' /\
    Z.testbit status' 3 = false /\ Z.testbit status' 7 = Z.testbit status 3 /\
    (forall b, b ∉ [CSR_MEPC; CSR_MTVAL; CSR_MCAUSE; CSR_MSTATUS] ->
       csrfile_read (cm_csr_file s') b = csrfile_read (cm_csr_file s) b) /\
    cm_interrupt_interface s' = int_set_ack_sync (cm_interrupt_interface s) cause.
Proof.
  intros CI Hst Hes Hint Htc Hms Hu Hmt Hlen. destruct wb_ports as [|wb_port wb_ports]; [done|]. injection Hlen as Hlen.
  destruct (interrupt_cycle m es id it rest s cause wb_port CI Hst Hes Hint)
    as (p & s1 & E1 & P1 & P2 & P3 & WI & Hst1 & Hpc & Hid & Hcsr & Hii & Hrat & Hrf).
  destruct (walk_all _ _ _ s1 wb_ports status tvec WI Hlen) as (s' & E2 & [A B C _ D F G]); try by rewrite ?Hcsr, ?Hst1.
  unfold trap_writes in F, G. unfold trap_interface in D. rewrite Hst1, ?Hpc, ?Hid in F, G, D. cbn in G.
  apply list.Forall_cons in F as [F1 F]. apply list.Forall_cons in F as [F2 F]. apply list.Forall_cons in F as [F3 F].
  apply list.Forall_cons in F as [F4 _]. cbn [fst snd] in F1, F2, F3, F4.
  destruct (trap_status_bits status Hu) as [S1 S2].
  rewrite Hpc in F1. match type of F4 with _ = Some ?x => exists (p :: repeat walk_pack (length es - 1)), s', x end.
  split_and!; try done.
  - cbn [commit_cycles]. rewrite E1. cbn [mbind option_bind]. rewrite E2. done.
  - constructor; [done|]. apply list.Forall_forall. intros q Hq. apply list_elem_of_In, repeat_spec in Hq. by subst.
  - intros a Ha. rewrite C by (unfold in_arch in *; by rewrite Hrat). by rewrite Hrf.
  - intros b Hb. rewrite G by done. by rewrite Hcsr.
  - by rewrite D, Hii.
Qed.

(** ** Traps of the machine with three instructions in flight *)

Definition trap_demo_item : rob_item_t :=
  rob_item_zero <| rob_finish := true |> <| rob_has_exception := true |> <| rob_exception_id := load_access_fault |>
    <| rob_exception_value := 0x123 |>.

Lemma csr_demo_traps : trap_csrs csr_demo_file.
Proof. unfold trap_csrs, csr_at. split_and!; (eexists; split; [vm_compute; reflexivity|reflexivity]). Qed.

Lemma precise_exception_witness :
  exists ps s', commit_cycles (repeat commit_demo_port 3) (commit_demo trap_demo_item int_new csr_demo_file) =
      Some (ps ++ [trap_pack 0], s') /\ rob_entries (cm_rob s') = [] /\
    rat_get_commit_phy_id (cm_rat s') 5 = Some 40 /\ rat_get_commit_phy_id (cm_rat s') 6 = Some 6 /\
    csrfile_read (cm_csr_file s') CSR_MEPC = Some 0x80000004 /\ csrfile_read (cm_csr_file s') CSR_MCAUSE = Some 5.
Proof.
  destruct (precise_exception (fun a => a) (commit_demo_entries trap_demo_item) (commit_demo trap_demo_item int_new csr_demo_file)
              (take 1 (commit_demo_entries trap_demo_item)) 1 (snd (nth 1 (commit_demo_entries trap_demo_item) (0, rob_item_zero)))
              (drop 2 (commit_demo_entries trap_demo_item)) csr_demo_file (repeat commit_demo_port 3) 0)
    as (ps & s' & E & _ & [[_ He _ _] TI _] & _ & _ & H1 & _ & H2 & _).
  - apply commit_demo_inv. reflexivity.
  - reflexivity.
  - vm_compute. reflexivity.
  - reflexivity.
  - reflexivity.
  - reflexivity.
  - exact csr_demo_traps.
  - vm_compute. reflexivity.
  - reflexivity.
  - exists ps, s'. split; [exact E|]. split; [exact He|].
    assert (forall a, 0 < a < 32 -> in_arch (cm_rat s') a) as Ha.
    { intros a. unfold in_arch. by rewrite (ti_arch _ _ _ TI). }
    rewrite !(speculates_get_commit _ _ _ _ (ti_rat _ _ _ TI)) by (apply Ha; lia).
    rewrite H1, H2. vm_compute. split_and!; reflexivity.
Defined.

(** A timer interrupt with interrupts enabled. *)
Definition trap_demo_csrs : csrfile :=
  match csrfile_sync_loop csr_demo_file [csr_req_write CSR_MSTATUS 8; csr_req_write CSR_MIE 0x80; csr_req_write CSR_MTVEC 0x80001000] with
  | Some f => f
  | None => csr_demo_file
  end.

Lemma interrupt_taken_witness :
  exists ps s' status', commit_cycles (repeat commit_demo_port 4) (commit_demo rob_item_zero int_demo trap_demo_csrs) =
      Some (ps ++ [trap_pack 0x80001000], s') /\ rob_entries (cm_rob s') = [] /\
    rat_get_commit_phy_id (cm_rat s') 5 = Some 5 /\
    csrfile_read (cm_csr_file s') CSR_MEPC = Some 0x80000000 /\ csrfile_read (cm_csr_file s') CSR_MCAUSE = Some 0x80000007 /\
    csrfile_read (cm_csr_file s') CSR_MSTATUS = Some status' /\ Z.testbit status' 3 = false /\ Z.testbit status' 7 = true.
Proof.
  destruct (interrupt_taken (fun a => a) (commit_demo_entries rob_item_zero) 0
              (snd (nth 0 (commit_demo_entries rob_item_zero) (0, rob_item_zero))) (drop 1 (commit_demo_entries rob_item_zero))
              (commit_demo rob_item_zero int_demo trap_demo_csrs) machine_timer (repeat commit_demo_port 4) 8 0x80001000)
    as (ps & s' & status' & E & _ & [[_ He _ _] TI _] & _ & _ & H1 & _ & H2 & H3 & H4 & H5 & _).
  - apply commit_demo_inv. vm_compute. reflexivity.
  - reflexivity.
  - reflexivity.
  - vm_compute. reflexivity.
  - unfold trap_csrs, csr_at. split_and!; (eexists; split; [vm_compute; reflexivity|reflexivity]).
  - vm_compute. reflexivity.
  - split; vm_compute; congruence.
  - vm_compute. reflexivity.
  - reflexivity.
  - exists ps, s', status'. split; [exact E|]. split; [exact He|]. split.
    { rewrite (speculates_get_commit _ _ _ 5 (ti_rat _ _ _ TI)); [reflexivity|].
      unfold in_arch. rewrite (ti_arch _ _ _ TI). unfold ARCH_REG_NUM. lia. }
    rewrite H1, H2. split; [vm_compute; reflexivity|]. split; [vm_compute; reflexivity|]. split; [exact H3|].
    split; [exact H4|exact H5].
Defined.
