(* ===== verification/CommitRecover.v ===== *)
(** Recovery from a mispredicted branch.

    When a branch whose prediction was wrong reaches the front, the commit
    stage reloads the renaming from the branch's checkpoint.  What was
    allocated when the checkpoint was taken has changed since, so only the
    mapping itself is kept ([recover_loop]): exactly 31 registers stay
    allocated, and they hold values. *)

From Stdlib Require Import ZArith Lia.
From stdpp Require Import base numbers list option tactics gmap.
From S2P Require Import Prelude Common Bitmap Fifo FifoIds IdQueue Ras Rob CheckpointBuffer Rat RatSync Inflight CsrFile InterruptInterface Regfile PipelineCommon Packs Isa Decode BranchPredictor Execute WriteBack Rename Commit CommitRetire CommitWalk.

Local Open Scope Z_scope.

(** * The loop over the registers *)

(** The three bitmaps of a checkpoint. *)
Record cp_bitmaps (n : Z) (cp : checkpoint_t) : Prop := {
  cb_valid : bitmap_ok n (rat_phy_map_table_valid cp);
  cb_visible : bitmap_ok n (rat_phy_map_table_visible cp);
  cb_data : bitmap_ok n (phy_regfile_data_valid cp)
}.

Definition cp_shows (cp : checkpoint_t) (i : Z) : bool := bit_at (rat_phy_map_table_visible cp) i.

(** [cp'] is [cp] after the registers [ids] have been handled. *)
Record recovered (n : Z) (ids : list Z) (cp cp' : checkpoint_t) : Prop := {
  rv_bitmaps : cp_bitmaps n cp';
  rv_visible : rat_phy_map_table_visible cp' = rat_phy_map_table_visible cp;
  rv_table : rat_phy_map_table cp' = rat_phy_map_table cp;
  rv_valid i : 0 <= i < n -> bit_at (rat_phy_map_table_valid cp') i =
    (if decide (i ∈ ids) then bit_at (rat_phy_map_table_valid cp) i && cp_shows cp i
     else bit_at (rat_phy_map_table_valid cp) i);
  rv_data i : 0 <= i < n -> bit_at (phy_regfile_data_valid cp') i =
    (if decide (i ∈ ids) then cp_shows cp i else bit_at (phy_regfile_data_valid cp) i)
}.

Lemma decide_in_cons {A} (i j : Z) ids (x y : A) :
  (if decide (j ∈ i :: ids) then x else y) = if decide (j = i) then x else if decide (j ∈ ids) then x else y.
Proof.
  destruct (decide (j ∈ i :: ids)) as [H|H]; rewrite elem_of_cons in H.
  - destruct (decide (j = i)); [done|]. rewrite decide_True; tauto.
  - rewrite !decide_False; tauto.
Qed.

Section recover.
Context (r : rat) (f : regfile phy_regfile_item_t) (n : Z) (Hr : phy_reg_num r = n) (Hf : rf_size f = n).

Lemma recover_one i cp :
  0 <= i < n -> cp_bitmaps n cp ->
  exists cp', (forall ids cnt, recover_loop r f (i :: ids) cp cnt =
                 recover_loop r f ids cp' (if cp_shows cp i then u32 (cnt + 1) else cnt)) /\ recovered n [i] cp cp'.
Proof.
  intros Hi [Hv Hs Hd]. assert ((i <? n) = true) as Hlt by (apply Z.ltb_lt; lia).
  destruct (bitmap_set_spec _ _ Hv i false Hi) as (bv & Ev & Hbv & Bv).
  destruct (bitmap_set_spec _ _ Hd i (cp_shows cp i) Hi) as (bd & Ed & Hbd & Bd).
  exists (if cp_shows cp i then cp <| phy_regfile_data_valid := bd |>
          else cp <| rat_phy_map_table_valid := bv |> <| phy_regfile_data_valid := bd |>).
  split.
  - intros ids cnt. cbn [recover_loop]. unfold rat_cp_get_visible, rat_cp_set_valid, regfile_cp_set_data_valid.
    rewrite Hr, Hf, Hlt. cbn [assert mbind option_bind]. rewrite (bitmap_get_bit _ _ Hs) by done. cbn [mbind option_bind].
    fold (cp_shows cp i). destruct (cp_shows cp i) eqn:Es; cbn [negb].
    + rewrite Ed. done.
    + rewrite Ev. cbn. by rewrite Ed.
  - assert (forall j, j ∈ [i] <-> j = i) as Hin by (intros j; apply list_elem_of_singleton).
    destruct (cp_shows cp i) eqn:Es; (split; [by split|done|done| |]); intros j Hj; cbn.
    + case_decide as Dj; [|done]. apply Hin in Dj as ->. by rewrite Es, andb_true_r.
    + rewrite Bd by done. destruct (decide (j ∈ [i])) as [Dj|Dj]; rewrite Hin in Dj; [subst; by rewrite decide_True|by rewrite decide_False].
    + rewrite Bv by done. destruct (decide (j ∈ [i])) as [Dj|Dj]; rewrite Hin in Dj;
        [subst; rewrite decide_True by done; by rewrite Es, andb_false_r|by rewrite decide_False].
    + rewrite Bd by done. destruct (decide (j ∈ [i])) as [Dj|Dj]; rewrite Hin in Dj; [subst; by rewrite decide_True|by rewrite decide_False].
Qed.

Lemma recover_loop_spec ids cp cnt :
  Forall (fun i => 0 <= i < n) ids -> NoDup ids -> cp_bitmaps n cp -> 0 <= cnt -> cnt + Z.of_nat (length ids) < 2 ^ 32 ->
  exists cp', recover_loop r f ids cp cnt =
      Some (cp', cnt + Z.of_nat (length (filter (fun i => cp_shows cp i = true) ids))) /\ recovered n ids cp cp'.
Proof.
  revert cp cnt. induction ids as [|i ids IH]; intros cp cnt Hids Hnd Hcp H0 Hlt.
  { exists cp. cbn. rewrite Z.add_0_r. split; [done|]. by split. }
  apply list.Forall_cons in Hids as [Hi Hids]. apply list.NoDup_cons in Hnd as [Hnin Hnd]. cbn [length] in Hlt.
  destruct (recover_one i cp Hi Hcp) as (cp1 & E1 & R1).
  destruct (IH cp1 (if cp_shows cp i then u32 (cnt + 1) else cnt)) as (cp' & E & R2); [done|done|apply R1| | |].
  { destruct (cp_shows cp i); [apply u32_range|done]. }
  { destruct (cp_shows cp i); [rewrite u32_small by lia|]; lia. }
  assert (forall j, cp_shows cp1 j = cp_shows cp j) as Hsame.
  { intros j. unfold cp_shows. by rewrite (rv_visible _ _ _ _ R1). }
  exists cp'. split.
  - rewrite E1, E. do 2 f_equal. rewrite filter_cons. rewrite (list_filter_iff _ (fun i => cp_shows cp i = true)) by (intros j; by rewrite Hsame).
    destruct (cp_shows cp i); [rewrite u32_small by lia; rewrite decide_True by done; cbn [length]; lia|by rewrite decide_False].
  - destruct R1 as [A1 A2 A3 A4 A5], R2 as [B1 B2 B3 B4 B5]. split; [done|congruence|congruence| |]; intros j Hj.
    + rewrite B4, A4, Hsame, !decide_in_cons by done. rewrite (decide_False (P := j ∈ [])) by apply not_elem_of_nil.
      destruct (decide (j = i)) as [->|]; [by rewrite decide_False|done].
    + rewrite B5, A5, Hsame, !decide_in_cons by done. rewrite (decide_False (P := j ∈ [])) by apply not_elem_of_nil.
      destruct (decide (j = i)) as [->|]; [by rewrite decide_False|done].
Qed.
End recover.

(** * Counting the mapping *)

(** The registers of a mapping of [k - 1] architectural registers. *)
Lemma mapping_count (b : Z -> bool) (m : Z -> Z) n k :
  1 <= k -> (forall a, 0 < a < k -> 0 <= m a < n) ->
  (forall a a', 0 < a < k -> 0 < a' < k -> m a = m a' -> a = a') ->
  (forall i, 0 <= i < n -> b i = true <-> exists a, 0 < a < k /\ m a = i) ->
  Z.of_nat (length (filter (fun i => b i = true) (upto n))) = k - 1.
Proof.
  intros Hk Hm Hinj Hb.
  assert (filter (fun i => b i = true) (upto n) ≡ₚ m <$> ((fun j => Z.of_nat (S j)) <$> seq 0 (Z.to_nat (k - 1)))) as ->.
  2: { rewrite !length_fmap, length_seq. lia. }
  apply NoDup_Permutation.
  - apply NoDup_filter, NoDup_upto.
  - apply NoDup_fmap_2_strong; [|apply NoDup_fmap_2; [intros x y; lia|apply NoDup_seq]].
    intros x y Hx Hy. apply list_elem_of_fmap in Hx as (x' & -> & Hx%elem_of_seq), Hy as (y' & -> & Hy%elem_of_seq).
    intros E. apply Hinj in E; lia.
  - intros i. rewrite list_elem_of_filter, elem_of_upto, list_elem_of_fmap. split.
    + intros [Hi1 Hi2]. apply Hb in Hi1 as (a & Ha & <-); [|done]. exists a. split; [done|]. apply list_elem_of_fmap.
      exists (Z.to_nat (a - 1)). split; [lia|]. apply elem_of_seq. lia.
    + intros (a & -> & Ha). apply list_elem_of_fmap in Ha as (j & -> & Hj%elem_of_seq).
      split; [|apply Hm; lia]. apply Hb; [apply Hm; lia|]. exists (Z.of_nat (S j)). split; [lia|done].
Qed.

(** * The checkpoint that is restored *)

(** What the checkpoint of the branch [it] must say when the branch retires:
    the mapping [m] up to and including it, with these registers and the one
    the branch replaced allocated. *)
Record cp_matches (m : Z -> Z) (it : rob_item_t) (cp : checkpoint_t) : Prop := {
  cm_bitmaps : cp_bitmaps PHY_REG_NUM cp;
  cm_table : Z.of_nat (length (rat_phy_map_table cp)) = PHY_REG_NUM;
  cm_shows i : 0 <= i < PHY_REG_NUM -> cp_shows cp i = true <-> exists a, 0 < a < ARCH_REG_NUM /\ m a = i;
  cm_valid i : 0 <= i < PHY_REG_NUM -> cp_shows cp i = true \/ i ∈ (item_log it).*2 -> bit_at (rat_phy_map_table_valid cp) i = true
}.

(** The first steps of [commit_mispredict]. *)
Definition recover_checkpoint (s : commit_world) (it : rob_item_t) (cp : checkpoint_t) : option (checkpoint_t * Z) :=
  cp ← (if rob_old_phy_reg_id_valid it then rat_cp_release_map (cm_rat s) cp (rob_old_phy_reg_id it) else Some cp);
  recover_loop (cm_rat s) (cm_phy_regfile s) (upto PHY_REG_NUM) cp 0.

Lemma release_checkpoint r m it cp :
  phy_reg_num r = PHY_REG_NUM -> cp_matches m it cp ->
  Forall (fun x => 0 <= x.2 < PHY_REG_NUM /\ cp_shows cp x.2 = false) (item_log it) ->
  exists cp1, (if rob_old_phy_reg_id_valid it then rat_cp_release_map r cp (rob_old_phy_reg_id it) else Some cp) = Some cp1 /\
    cp_bitmaps PHY_REG_NUM cp1 /\ rat_phy_map_table_visible cp1 = rat_phy_map_table_visible cp /\
    rat_phy_map_table cp1 = rat_phy_map_table cp /\
    forall i, 0 <= i < PHY_REG_NUM -> cp_shows cp i = true -> bit_at (rat_phy_map_table_valid cp1) i = true.
Proof.
  intros Hr [[Hv Hs Hd] Ht Hsh Hval] Hold. unfold item_log in *. destruct (rob_old_phy_reg_id_valid it).
  2: { exists cp. split_and!; try done. intros i Hi Hc. apply Hval; auto. }
  apply list.Forall_cons in Hold as [[Ho Hns] _]. cbn [snd] in Ho, Hns. set (o := rob_old_phy_reg_id it) in *.
  destruct (bitmap_set_spec _ _ Hv o false Ho) as (bv & Ev & Hbv & Bv).
  unfold rat_cp_release_map, rat_cp_get_valid, rat_cp_get_visible, rat_cp_set_valid. rewrite Hr.
  rewrite (proj2 (Z.ltb_lt _ _)) by lia. cbn [assert mbind option_bind]. rewrite (bitmap_get_bit _ _ Hv), (bitmap_get_bit _ _ Hs) by done.
  rewrite Hval by (done || right; by left). fold (cp_shows cp o). rewrite Hns. cbn [assert mbind option_bind negb]. rewrite Ev.
  eexists. split; [reflexivity|]. split_and!; try done. intros i Hi Hc. cbn. rewrite Bv by done.
  case_decide; [congruence|]. apply Hval; auto.
Qed.

Lemma recover_checkpoint_ref s m it cp :
  phy_reg_num (cm_rat s) = PHY_REG_NUM -> arch_reg_num (cm_rat s) = ARCH_REG_NUM -> rf_size (cm_phy_regfile s) = PHY_REG_NUM ->
  cp_matches m it cp -> Forall (fun x => 0 <= x.2 < PHY_REG_NUM /\ cp_shows cp x.2 = false) (item_log it) ->
  (forall a, 0 < a < ARCH_REG_NUM -> 0 <= m a < PHY_REG_NUM) ->
  (forall a a', 0 < a < ARCH_REG_NUM -> 0 < a' < ARCH_REG_NUM -> m a = m a' -> a = a') ->
  exists cp2, recover_checkpoint s it cp = Some (cp2, 31) /\ checkpoint_shape cp2 /\
    bitmap_ok PHY_REG_NUM (phy_regfile_data_valid cp2) /\
    (forall r, phy_reg_num r = PHY_REG_NUM -> arch_reg_num r = ARCH_REG_NUM -> cp_holds r m cp2) /\
    (forall i, 0 <= i < PHY_REG_NUM -> bit_at (phy_regfile_data_valid cp2) i = cp_shows cp i).
Proof.
  intros Hr Hk Hf CM Hold Hrange Hinj. unfold recover_checkpoint.
  destruct (release_checkpoint (cm_rat s) m it cp Hr CM Hold) as (cp1 & -> & Hb & Hvis & Htab & Hval). cbn [mbind option_bind].
  assert (forall i, cp_shows cp1 i = cp_shows cp i) as Hsame by (intros i; unfold cp_shows; by rewrite Hvis).
  destruct (recover_loop_spec (cm_rat s) (cm_phy_regfile s) PHY_REG_NUM Hr Hf (upto PHY_REG_NUM) cp1 0)
    as (cp2 & -> & [R1 R2 R3 R4 R5]).
  { apply list.Forall_forall. intros i Hi. by apply elem_of_upto. }
  { apply NoDup_upto. }
  { done. }
  { done. }
  { by vm_compute. }
  assert (forall i, 0 <= i < PHY_REG_NUM -> i ∈ upto PHY_REG_NUM) as Hin by (intros i Hi; by apply elem_of_upto).
  exists cp2. destruct R1 as [V1 V2 V3]. split_and!; try done.
  - do 2 f_equal. rewrite (mapping_count (cp_shows cp1) m PHY_REG_NUM ARCH_REG_NUM); try done.
    intros i Hi. rewrite Hsame. by apply CM.
  - split_and!; [apply V1|apply V2|]. rewrite R3, Htab. apply CM.
  - intros r Hr' Hk'. unfold cp_holds, in_phy, in_arch. rewrite Hr', Hk'. split_and!; [done|done|].
    intros i Hi. rewrite R4, R2, decide_True by auto. fold (cp_shows cp1 i). split.
    + rewrite Hsame. by apply CM.
    + destruct (cp_shows cp1 i) eqn:Es; [|by rewrite andb_false_r]. rewrite Hval; [done|done|]. by rewrite <- Hsame.
  - intros i Hi. rewrite R5, decide_True by auto. apply Hsame.
Qed.

(** * The cycle of the misprediction *)

Definition mispredict_world (cp : checkpoint_t) (bp : branch_predictor) (s : commit_world) : commit_world :=
  s <| cm_branch_predictor := bp |>
    <| cm_rat ::= fun r => rat_restore_sync r cp |>
    <| cm_phy_regfile ::= fun f => regfile_restore_sync f cp |>
    <| cm_rob ::= rob_flush |>
    <| cm_checkpoint_buffer ::= cb_flush |>.

(** The counters of branches. *)
Definition count_miss (s : commit_world) : commit_world := branch_miss_add (branch_predicted_add (branch_num_add s)).

Lemma count_miss_keeps s :
  cm_branch_predictor (count_miss s) = cm_branch_predictor s /\ cm_checkpoint_buffer (count_miss s) = cm_checkpoint_buffer s /\
  cm_rat (count_miss s) = cm_rat s /\ cm_phy_regfile (count_miss s) = cm_phy_regfile s /\ cm_rob (count_miss s) = cm_rob s /\
  cm_csr_file (count_miss s) = cm_csr_file s /\ cm_cur_state (count_miss s) = cm_cur_state s.
Proof. by split_and!. Qed.

Lemma commit_mispredict_ref it s p cp cp2 bp :
  update_prediction (cm_branch_predictor (branch_miss_add s)) (rob_pc it) (rob_inst_value it) (rob_bru_jump it) (rob_bru_next_pc it) false = Some bp ->
  cb_get_item (cm_checkpoint_buffer (branch_miss_add s)) (rob_checkpoint_id it) = Some cp ->
  recover_checkpoint (branch_miss_add s) it cp = Some (cp2, 31) ->
  commit_mispredict it (mk_commit_vars s p false) =
    Some (mk_commit_vars (mispredict_world cp2 bp (branch_miss_add s)) (commit_redirect it (p <| cf_flush := true |>)) true).
Proof.
  unfold commit_mispredict, recover_checkpoint. generalize (upto PHY_REG_NUM). intros ids. cbn [cv_world].
  generalize (branch_miss_add s). intros s1 Hbp Hcp Hrec. rewrite Hbp. cbn [mbind option_bind]. rewrite Hcp.
  cbn [mbind option_bind]. destruct (if rob_old_phy_reg_id_valid it then _ else _) as [cp1|]; [|done].
  cbn [mbind option_bind] in *. rewrite Hrec. reflexivity.
Qed.

Lemma commit_branch_miss it s p cp cp2 bp :
  rob_is_mret it = false -> rob_predicted it = true -> prediction_hit it = false -> rob_checkpoint_id_valid it = true ->
  update_prediction (cm_branch_predictor s) (rob_pc it) (rob_inst_value it) (rob_bru_jump it) (rob_bru_next_pc it) false = Some bp ->
  cb_get_item (cm_checkpoint_buffer s) (rob_checkpoint_id it) = Some cp ->
  recover_checkpoint s it cp = Some (cp2, 31) ->
  commit_branch it (mk_commit_vars s p false) =
    Some (mk_commit_vars (mispredict_world cp2 bp (count_miss s)) (commit_redirect it (p <| cf_flush := true |>)) true).
Proof.
  intros H1 H2 H3 H4 Hbp Hcp Hrec. unfold commit_branch. rewrite H1, H2, H3, H4. cbn [cv_world mbind option_bind].
  destruct (count_miss_keeps s) as (K1 & K2 & K3 & K4 & _). unfold count_miss in *.
  apply (commit_mispredict_ref it (branch_predicted_add (branch_num_add s)) p cp).
  - rewrite K1. exact Hbp.
  - rewrite K2. exact Hcp.
  - unfold recover_checkpoint. rewrite K3, K4. exact Hrec.
Qed.

(** The table and the register file when the checkpoint [cp2] has been
    restored behind the updates of the retired instructions [l]; [shows] are
    the registers of the mapping [m'] after them. *)
Section tables.
Context (m m' : Z -> Z) (l rest : list (Z * rob_item_t)) (s s1 : commit_world) (cp2 : checkpoint_t) (shows : Z -> bool).
Context (CI : commit_inv m (l ++ rest) s) (RT : retired l [] [] s s1) (Hm' : m' = retire_all m (log_of l)).
Context (Hsh : checkpoint_shape cp2) (Hdv : bitmap_ok PHY_REG_NUM (phy_regfile_data_valid cp2)).
Context (Hholds : forall r, phy_reg_num r = PHY_REG_NUM -> arch_reg_num r = ARCH_REG_NUM -> cp_holds r m' cp2).
Context (Hbits : forall i, 0 <= i < PHY_REG_NUM -> bit_at (phy_regfile_data_valid cp2) i = shows i).
Context (Hshows : forall i, 0 <= i < PHY_REG_NUM -> shows i = true <-> exists a, 0 < a < ARCH_REG_NUM /\ m' a = i).
Context (Hready : forall a, 0 < a < ARCH_REG_NUM -> reg_ready (cm_phy_regfile s) (m' a) = true).

Lemma recover_rat :
  exists r', rat_sync (rat_restore_sync (cm_rat s1) cp2) = Some r' /\ speculates m' r' [] /\ rat_sync_request_q r' = [] /\
    phy_reg_num r' = PHY_REG_NUM /\ arch_reg_num r' = ARCH_REG_NUM /\
    (forall i, 0 <= i < PHY_REG_NUM -> rat_valid r' i = shows i) /\
    (forall a, 0 < a < ARCH_REG_NUM -> 0 <= m' a < PHY_REG_NUM /\ m' a ∉ (log_of l).*2).
Proof.
  pose proof (ci_tables _ _ _ CI) as [HS Q1 D1 D2 _ _ _ _ _ _].
  rewrite log_of_app in HS. destruct (speculates_retire_all _ _ _ _ HS) as (r1 & E1 & HS1 & T & V). rewrite <- Hm' in HS1.
  assert (phy_reg_num r1 = PHY_REG_NUM) as P1 by (rewrite (tr_phy _ _ T); done).
  assert (arch_reg_num r1 = ARCH_REG_NUM) as P2 by (rewrite (tr_arch _ _ T); done).
  destruct (Hholds r1 P1 P2) as (Hb1 & Hb2 & Hh).
  destruct (speculates_restore _ _ _ cp2 HS1 P1 Hsh (Hholds r1 P1 P2)) as (r2 & E2 & HS2).
  pose proof (rat_restore_spec r1 cp2 (wf_shape r1 (speculates_wf _ _ _ HS1)) P1 Hsh) as E2'. rewrite E2 in E2'.
  assert (phy_reg_num r2 = PHY_REG_NUM /\ arch_reg_num r2 = ARCH_REG_NUM /\
          forall i, rat_valid r2 i = bit_at (rat_phy_map_table_valid cp2) i) as (P3 & P4 & Hv2) by (injection E2' as ->; done).
  exists (with_queue [] r2). split_and!; [|by apply speculates_queue|done|done|done| |].
  - rewrite rat_sync_apply.
    assert (rat_restore_sync (cm_rat s1) cp2 = with_queue (retire_requests (log_of l) ++ [rat_req_restore cp2]) (cm_rat s)) as ->.
    { rewrite (rt_rat _ _ _ _ _ RT), Q1. done. }
    rewrite rat_apply_all_queue. change (rat_sync_request_q (with_queue ?q _)) with q.
    rewrite rat_apply_all_app, E1. cbn [mbind option_bind rat_apply_all rat_sync_one]. rewrite E2. done.
  - intros i Hi. change (rat_valid r2 i = shows i). rewrite Hv2. destruct (Hh i) as [Hh1 Hh2]; [unfold in_phy; by rewrite P1|].
    rewrite Hh2. apply eq_true_iff_eq. rewrite Hh1, (Hshows i Hi). unfold in_arch. by rewrite P2.
  - intros a Ha. destruct (speculates_owner _ _ _ a HS1) as (Hi & Hva & _); [unfold in_arch; by rewrite P2|].
    unfold in_phy in Hi. rewrite P1 in Hi. split; [done|].
    intros Hin. rewrite V in Hva by (unfold in_phy; by rewrite D1). by rewrite bool_decide_true, andb_false_r in Hva.
Qed.

Lemma recover_regfile :
  exists f', regfile_sync (regfile_restore_sync (cm_phy_regfile s1) cp2) = Some f' /\ regfile_ok f' /\
    rf_size f' = PHY_REG_NUM /\ rf_sync_request_q f' = [] /\
    forall i, 0 <= i < PHY_REG_NUM -> regfile_view f' i = prod_map id (fun _ => shows i) <$>
      (if decide (i ∈ (log_of l).*2) then Some (phy_regfile_item_zero, false) else regfile_view (cm_phy_regfile s) i).
Proof.
  pose proof (ci_tables _ _ _ CI) as [HS _ D1 _ Hok Hsz Q2 _ _ _]. rewrite log_of_app in HS.
  pose proof (speculates_olds _ _ _ HS) as Ho. apply Forall_app in Ho as [Ho _].
  set (f0 := regfile_restore_sync (cm_phy_regfile s1) cp2).
  assert (rf_sync_request_q f0 = ((fun w => rf_req_write w.1.1 w.1.2 w.2) <$> released (log_of l)) ++ [rf_req_restore cp2]) as Hq0.
  { unfold f0. rewrite (rt_regfile _ _ _ _ _ RT). cbn. by rewrite Q2. }
  assert (rf_size f0 = PHY_REG_NUM /\ regfile_ok f0 /\ forall i, regfile_view f0 i = regfile_view (cm_phy_regfile s) i)
    as (Hsz0 & Hok0 & Hv0) by (unfold f0; rewrite (rt_regfile _ _ _ _ _ RT); done).
  destruct (regfile_sync_loop_writes (released (log_of l)) [rf_req_restore cp2] f0) as (f1 & Ef1 & Hok1 & Hsz1 & Hv1); [done| |].
  { unfold released. apply Forall_fmap. eapply Forall_impl; [exact Ho|]. intros e He. cbn [compose fst].
    rewrite Hsz0, <- D1. exact He. }
  destruct (regfile_restore_spec (f1 <| rf_sync_request_q := [] |>) cp2) as (f2 & Ef2 & Hok2 & Hsz2 & Hq2 & Hv3);
    [done|by rewrite <- Hsz0, <- Hsz1|done|].
  exists f2. split_and!; try done.
  - unfold regfile_sync. rewrite Hq0, Ef1. cbn [regfile_sync_loop regfile_sync_one]. by rewrite Ef2.
  - by rewrite Hsz2, <- Hsz0, <- Hsz1.
  - intros i Hi. rewrite Hv3 by (change (rf_size (f1 <| rf_sync_request_q := [] |>)) with (rf_size f1); rewrite Hsz1, Hsz0; exact Hi).
    rewrite Hbits by done. change (regfile_view (f1 <| rf_sync_request_q := [] |>) i) with (regfile_view f1 i).
    rewrite Hv1 by (rewrite Hsz0; exact Hi). by rewrite last_write_released, Hv0.
Qed.

Lemma recover_tables :
  exists r' f', rat_sync (rat_restore_sync (cm_rat s1) cp2) = Some r' /\
    regfile_sync (regfile_restore_sync (cm_phy_regfile s1) cp2) = Some f' /\ tables_inv m' [] (tables_of s r' f') /\
    (forall a, in_arch (cm_rat s) a -> regfile_view f' (m' a) = regfile_view (cm_phy_regfile s) (m' a)).
Proof.
  destruct recover_rat as (r' & Er & HS & Hq & P1 & P2 & Hv & Hma), recover_regfile as (f' & Ef & Hok & Hsz & Hfq & Hview).
  pose proof (ci_tables _ _ _ CI) as [_ _ _ D2 _ _ _ _ _ Q3].
  assert (forall a, 0 < a < ARCH_REG_NUM -> regfile_view f' (m' a) = regfile_view (cm_phy_regfile s) (m' a)) as Hkeep.
  { intros a Ha. destruct (Hma a Ha) as (H1 & H2). rewrite Hview, decide_False by done.
    rewrite (proj2 (Hshows (m' a) H1)) by (by exists a). specialize (Hready a Ha). unfold reg_ready in Hready.
    destruct (regfile_view (cm_phy_regfile s) (m' a)) as [[x b]|]; [|done]. cbn. by subst. }
  exists r', f'. split_and!; [done|done| |by intros a Ha; apply Hkeep; unfold in_arch in Ha; rewrite D2 in Ha].
  split; cbn; try done.
  - intros i Hi Hvi. unfold in_phy in Hi. rewrite P1 in Hi. rewrite Hv in Hvi by done. unfold reg_ready.
    rewrite Hview, Hvi by done. case_decide; [done|]. by destruct (regfile_view (cm_phy_regfile s) i) as [[x b]|].
  - intros a Ha. unfold in_arch in Ha. rewrite P2 in Ha. unfold reg_ready. rewrite Hkeep by done. by apply Hready.
Qed.
End tables.

Lemma commit_scan_branch n es id it :
  (commit_scan n es).2 = stop_branch id it -> rob_finish it = true /\ rob_has_exception it = false.
Proof.
  revert es. induction n as [|n IH]; intros [|[i t] es]; cbn; try done.
  destruct (rob_finish t) eqn:Ef; cbn; [|done]. destruct (rob_has_exception t) eqn:Ex; [done|].
  destruct (rob_bru_op t); [by intros [= <- <-]|]. specialize (IH es). destruct (commit_scan n es). cbn in *. auto.
Qed.

(** The committed registers after finished instructions hold values. *)
Lemma retired_ready m l rest s a :
  commit_inv m (l ++ rest) s -> Forall (fun e => rob_finish e.2 = true /\ rob_has_exception e.2 = false) l ->
  in_arch (cm_rat s) a -> reg_ready (cm_phy_regfile s) (retire_all m (log_of l) a) = true.
Proof.
  intros CI Hfin Ha. destruct (retire_all_cases m (log_of l) a) as [->|Hin]; [by apply (ti_ready _ _ _ (ci_tables _ _ _ CI))|].
  pose proof (ci_results _ _ _ CI) as Hl. apply Forall_app in Hl as [Hl _]. apply list_elem_of_fmap in Hin as (x & -> & Hx).
  exact (proj1 (list.Forall_forall _ _) (results_in_log _ _ Hl Hfin) x Hx).
Qed.

(** The retired mapping is one to one, and the replaced registers are not in it. *)
Lemma retired_mapping m l rest s :
  commit_inv m (l ++ rest) s -> let m' := retire_all m (log_of l) in
  (forall a, 0 < a < ARCH_REG_NUM -> 0 <= m' a < PHY_REG_NUM) /\
  (forall a a', 0 < a < ARCH_REG_NUM -> 0 < a' < ARCH_REG_NUM -> m' a = m' a' -> a = a') /\
  Forall (fun x => 0 <= x.2 < PHY_REG_NUM /\ forall a, 0 < a < ARCH_REG_NUM -> m' a <> x.2) (log_of l).
Proof.
  intros CI m'. pose proof (ci_tables _ _ _ CI) as [HS _ D1 D2 _ _ _ _ _ _]. rewrite log_of_app in HS.
  pose proof (speculates_olds _ _ _ HS) as Ho. apply Forall_app in Ho as [Ho _].
  destruct (speculates_retire_all _ _ _ _ HS) as (r1 & _ & HS1 & T & V).
  assert (forall a, 0 < a < ARCH_REG_NUM -> in_arch r1 a) as Ha1 by (intros a; unfold in_arch; by rewrite (tr_arch _ _ T), D2).
  split_and!.
  - intros a Ha. destruct (speculates_owner _ _ _ a HS1 (Ha1 a Ha)) as (Hi & _). unfold in_phy in Hi.
    by rewrite (tr_phy _ _ T), D1 in Hi.
  - intros a a' Ha Ha' E. destruct (speculates_owner _ _ _ a HS1 (Ha1 a Ha)) as (_ & _ & <-).
    destruct (speculates_owner _ _ _ a' HS1 (Ha1 a' Ha')) as (_ & _ & <-). fold m'. by rewrite E.
  - apply list.Forall_forall. intros x Hx. pose proof (proj1 (list.Forall_forall _ _) Ho x Hx) as Hi. cbn in Hi. split.
    + unfold in_phy in Hi. by rewrite D1 in Hi.
    + intros a Ha E. destruct (speculates_owner _ _ _ a HS1 (Ha1 a Ha)) as (_ & Hv & _). fold m' in Hv.
      rewrite E, V in Hv by done. rewrite bool_decide_true, andb_false_r in Hv; [done|]. by apply (list_elem_of_fmap_2 snd).
Qed.

Lemma rob_flush_sync l s s1 :
  rob_inv l (cm_rob s) -> forall k, rob_fifo (cm_rob s1) = rob_fifo (cm_rob s) ->
  rob_sync_request_q (cm_rob s1) = repeat req_pop k -> 0 <= global_commit_num (cm_rob s1) < 2 ^ 64 ->
  exists b', rob_sync (rob_flush (cm_rob s1)) = Some b' /\ rob_inv [] b' /\ global_commit_num b' = global_commit_num (cm_rob s1).
Proof.
  intros [Hok _ _ _] k Hf Hq Hn. destruct (fifo_flush_ok (rob_fifo (cm_rob s1))) as [Hok' He']; [by rewrite Hf|].
  destruct (rob_sync_spec (rob_flush (cm_rob s1))) as (b' & E & A & B & C & _); [exact Hok'| |].
  { change (rob_sync_request_q (rob_flush (cm_rob s1))) with (rob_sync_request_q (cm_rob s1)). rewrite Hq. clear.
    by induction k; cbn; constructor. }
  exists b'. split; [done|]. destruct (rob_sync_counters _ _ E) as (_ & _ & Hc). split; [|done]. split; [done| |done|by rewrite Hc].
  rewrite B. change (rob_sync_request_q (rob_flush (cm_rob s1))) with (rob_sync_request_q (cm_rob s1)). rewrite Hq.
  change (rob_entries (rob_flush (cm_rob s1))) with (fifo_entries (fifo_flush (rob_fifo (cm_rob s1)))). rewrite He'. clear.
  by induction k.
Qed.

(** The loop up to a branch: it is the last one to retire. *)
Lemma branch_output m es s l id it rest :
  commit_inv m es s -> int_get_cause (cm_interrupt_interface s) (cm_csr_file s) = Some None ->
  commit_scan (Z.to_nat COMMIT_WIDTH) es = (l, stop_branch id it) -> es = l ++ (id, it) :: rest ->
  let L := l ++ [(id, it)] in
  exists p s1, feedback_after L rest p /\ retired L [] [] s s1 /\ commit_inv m (L ++ rest) s /\
    Forall (fun e => rob_finish e.2 = true /\ rob_has_exception e.2 = false) L /\
    commit_normal_output (mk_commit_vars s commit_feedback_zero false) = commit_branch it (mk_commit_vars s1 p false) /\
    cm_cur_state s1 = cm_cur_state s /\ cm_checkpoint_buffer s1 = cm_checkpoint_buffer s /\
    cm_branch_predictor s1 = cm_branch_predictor s /\ cm_interrupt_interface s1 = cm_interrupt_interface s.
Proof.
  intros CI Hint Hscan Hes L. assert (es <> []) as Hne by (subst; by destruct l).
  destruct (commit_normal_output_ref es s (ri_ok _ _ (ci_rob _ _ _ CI)) (ri_entries _ _ (ci_rob _ _ _ CI)) Hne Hint) as (it0 & id0 & p & rest0 & Er & Hp & E).
  pose proof (commit_scan_finished (Z.to_nat COMMIT_WIDTH) es) as Hfin.
  pose proof (commit_scan_branch (Z.to_nat COMMIT_WIDTH) es id it) as Hbr.
  rewrite Hscan in *. cbn [fst snd stop_entries after_stop] in *. specialize (Hbr eq_refl). rewrite at_item_twice in E.
  assert (rest0 = rest) as -> by (rewrite Hes in Er; cbn in Er; by simplify_list_eq).
  exists p. eexists. split_and!; [exact Hp| | | |exact E|..].
  - apply retired_one. destruct (retired_fold l s (ri_num _ _ (ci_rob _ _ _ CI))) as [H1 H2 H3 H4 H5 H6]. by split.
  - unfold L. rewrite <- app_assoc. cbn. by rewrite <- Hes.
  - apply Forall_app. split; [done|]. constructor; [done|constructor].
  - pose proof (retire_fold_keeps (l ++ [(id, it)]) (at_item it id s)) as (H & _). rewrite fold_left_app, at_item_fold in H. exact H.
  - pose proof (retire_fold_keeps (l ++ [(id, it)]) (at_item it id s)) as (_ & H & _). rewrite fold_left_app, at_item_fold in H. exact H.
  - pose proof (retire_fold_keeps (l ++ [(id, it)]) (at_item it id s)) as (_ & _ & H & _). rewrite fold_left_app, at_item_fold in H. exact H.
  - pose proof (retire_fold_keeps (l ++ [(id, it)]) (at_item it id s)) as (_ & _ & _ & H & _). rewrite fold_left_app, at_item_fold in H. exact H.
Qed.

(** C4: recovery from a misprediction.  When a branch that was predicted wrongly
    comes up behind the finished instructions [l], and its checkpoint shows the
    mapping as it was behind the branch, then in this one cycle the branch and
    [l] retire, everything behind the branch is dropped, the alias table is
    the committed mapping with nothing else allocated (the count of 31
    registers the code asserts is right), its registers keep their values and
    are the only ones that hold any, the checkpoint buffer is empty, and fetch
    is sent to where the branch really goes, with a flush. *)
Theorem mispredict_recovers m es s l id it rest c1 wb_port cp :
  commit_inv m es s -> cm_cur_state s = normal -> int_get_cause (cm_interrupt_interface s) (cm_csr_file s) = Some None ->
  commit_scan (Z.to_nat COMMIT_WIDTH) es = (l, stop_branch id it) -> es = l ++ (id, it) :: rest ->
  rob_is_mret it = false -> rob_predicted it = true -> prediction_hit it = false -> rob_checkpoint_id_valid it = true ->
  cb_get_item (cm_checkpoint_buffer s) (rob_checkpoint_id it) = Some cp ->
  cp_matches (retire_all m (log_of (l ++ [(id, it)]))) it cp ->
  bp_ok (cm_branch_predictor s) -> is_u32 (rob_bru_next_pc it) ->
  csrfile_sync_loop (cm_csr_file s) (csr_writes (l ++ [(id, it)])) = Some c1 ->
  exists p s', commit_cycle wb_port s = Some (p, s') /\
    commit_inv (retire_all m (log_of (l ++ [(id, it)]))) [] s' /\ cm_cur_state s' = normal /\
    keeps_values (retire_all m (log_of (l ++ [(id, it)]))) s s' /\
    cm_csr_file s' = c1 /\ cm_checkpoint_buffer s' = cb_flush (cm_checkpoint_buffer s) /\
    update_prediction (cm_branch_predictor s) (rob_pc it) (rob_inst_value it) (rob_bru_jump it) (rob_bru_next_pc it) false =
      Some (cm_branch_predictor s') /\
    global_commit_num (cm_rob s') = u64 (global_commit_num (cm_rob s) + Z.of_nat (S (length l))) /\
    cf_enable p = true /\ cf_flush p = true /\ cf_jump_enable p = true /\ cf_jump p = rob_bru_jump it /\
    cf_next_pc p = (if rob_bru_jump it then rob_bru_next_pc it else u32 (rob_pc it + 4)).
Proof.
  intros CI Hst Hint Hscan Hes Hmret Hpred Hhit Hcv Hcp CM Hbok Hu Hc.
  destruct (update_ok (cm_branch_predictor s) (rob_pc it) (rob_inst_value it) (rob_bru_jump it) (rob_bru_next_pc it) false Hbok Hu)
    as (bp & Hbp & _). set (L := l ++ [(id, it)]) in *.
  set (s0 := s <| cm_rob ::= fun r => rob_set_committed r false |>).
  assert (commit_inv m es s0) as CI0 by (by apply commit_inv_committed).
  destruct (branch_output m es s0 l id it rest CI0 Hint Hscan Hes) as (p & s1 & (nx & Hp & _) & RT & CIL & Hfin & E & K1 & K2 & K3 & K4).
  fold L in RT, CIL, Hfin, Hp. pose proof (ci_tables _ _ _ CIL) as [_ _ D1 D2 _ Hsz _ _ _ Q3].
  destruct (retired_mapping m L rest s0 CIL) as (Hrange & Hinj & Hold).
  assert (phy_reg_num (cm_rat s1) = PHY_REG_NUM /\ arch_reg_num (cm_rat s1) = ARCH_REG_NUM /\ rf_size (cm_phy_regfile s1) = PHY_REG_NUM)
    as (S1 & S2 & S3) by (rewrite (rt_rat _ _ _ _ _ RT), (rt_regfile _ _ _ _ _ RT); done).
  destruct (recover_checkpoint_ref s1 (retire_all m (log_of L)) it cp S1 S2 S3 CM) as (cp2 & Erec & Hsh & Hdv & Hholds & Hbits); [|done|done|].
  { unfold L in Hold. rewrite log_of_snoc in Hold. apply Forall_app in Hold as [_ Hold]. fold L in Hold.
    eapply Forall_impl; [exact Hold|]. intros x [Hx1 Hx2]. split; [done|]. apply not_true_is_false.
    intros (a & Ha & Hax)%(cm_shows _ _ _ CM); [|done]. unfold L in Hax. rewrite log_of_snoc in Hax. by apply (Hx2 a). }
  destruct (recover_tables m (retire_all m (log_of L)) L rest s0 s1 cp2 (cp_shows cp) CIL RT eq_refl Hsh Hdv Hholds Hbits) as (r' & f' & Er & Ef & TI & Hv).
  { intros i Hi. by apply CM. }
  { intros a Ha. apply (retired_ready m L rest s0 a CIL Hfin). unfold in_arch. by rewrite D2. }
  destruct (rob_flush_sync _ s0 s1 (ci_rob _ _ _ CIL) (length L)) as (b' & Eb & RI & Hn);
    [apply RT|by rewrite (rt_rob _ _ _ _ _ RT), (ri_queue _ _ (ci_rob _ _ _ CIL)), app_nil_r
    |rewrite (rt_num _ _ _ _ _ RT); apply u64_range|].
  destruct (csrfile_sync_eq _ _ _ Q3 Hc) as [Ec Hcq].
  pose proof (commit_branch_miss it s1 p cp cp2 bp Hmret Hpred Hhit Hcv) as Hmiss. rewrite K2, K3 in Hmiss.
  specialize (Hmiss Hbp Hcp Erec). rewrite <- E in Hmiss.
  set (s2 := mispredict_world cp2 bp (count_miss s1)) in *.
  set (s3 := s2 <| cm_rat := r' |> <| cm_rob := b' |> <| cm_phy_regfile := f' |> <| cm_csr_file := c1 |>).
  exists (commit_redirect it (p <| cf_flush := true |>)), s3. split_and!; try done.
  - apply (flush_cycle _ _ s2); [done|exact Hmiss|]. unfold commit_sync.
    change (cm_rat s2) with (rat_restore_sync (cm_rat s1) cp2). change (cm_rob s2) with (rob_flush (cm_rob s1)).
    change (cm_phy_regfile s2) with (regfile_restore_sync (cm_phy_regfile s1) cp2).
    change (cm_csr_file s2) with (cm_csr_file s1). rewrite Er, Eb, Ef. cbn [mbind option_bind].
    rewrite (rt_csr _ _ _ _ _ RT), app_nil_r.
    assert ((cm_csr_file s0) <| csr_sync_request_q ::= fun q => q ++ csr_writes L |> =
            (cm_csr_file s0) <| csr_sync_request_q := csr_writes L |>) as -> by (unfold upd; by rewrite Q3).
    by rewrite Ec.
  - split; [done|by apply (tables_inv_same _ _ _ _ TI)|constructor].
  - change (cm_cur_state s3) with (cm_cur_state s1). by rewrite K1.
  - change (cm_checkpoint_buffer s3) with (cb_flush (cm_checkpoint_buffer s1)). by rewrite K2.
  - change (cm_rob s3) with b'. rewrite Hn, (rt_num _ _ _ _ _ RT). unfold L. rewrite length_app, Nat.add_1_r. done.
Qed.

(** * Branches that were predicted right, or not at all *)





(** ** A mispredicted and an unpredicted jump in flight *)

Definition branch_demo_item (predicted : bool) : rob_item_t :=
  rob_item_zero <| rob_finish := true |> <| rob_bru_op := true |> <| rob_predicted := predicted |>
    <| rob_checkpoint_id_valid := predicted |> <| rob_bru_jump := true |> <| rob_bru_next_pc := 0x80000100 |>.

Lemma bp_demo_ok : bp_ok bp_demo.
Proof. apply bp_new_ok; [apply zeros_ok; reflexivity|reflexivity]. Qed.

Definition branch_demo_map : Z -> Z := retire_all (fun a => a) [(40, 5); (41, 6)].

Lemma branch_demo_matches it :
  rob_old_phy_reg_id it = 6 -> cp_matches branch_demo_map it commit_demo_cp.
Proof.
  intros Hold. split.
  - split; (split; [reflexivity|]); repeat constructor; vm_compute; congruence.
  - reflexivity.
  - assert (forallb (fun i => eqb (cp_shows commit_demo_cp i)
              (existsb (fun a => (0 <? a) && (branch_demo_map a =? i)) (upto 32))) (upto 128) = true) as H by (vm_compute; reflexivity).
    intros i Hi. rewrite forallb_forall in H. specialize (H i). rewrite <- list_elem_of_In, elem_of_upto in H.
    specialize (H Hi). apply Bool.eqb_prop in H. rewrite H, existsb_exists. split.
    + intros (a & Ha & Hb). rewrite <- list_elem_of_In, elem_of_upto in Ha. apply andb_true_iff in Hb as [Hb1%Z.ltb_lt Hb2%Z.eqb_eq].
      exists a. split; [|done]. unfold ARCH_REG_NUM. lia.
    + intros (a & Ha & <-). exists a. rewrite <- list_elem_of_In, elem_of_upto. unfold ARCH_REG_NUM in Ha. split; [lia|].
      rewrite Z.eqb_refl, andb_true_r. apply Z.ltb_lt. lia.
  - assert (forallb (fun i => negb (cp_shows commit_demo_cp i) || bit_at (rat_phy_map_table_valid commit_demo_cp) i) (upto 128) = true)
      as H by (vm_compute; reflexivity).
    intros i Hi [Hs|Hs].
    + rewrite forallb_forall in H. specialize (H i). rewrite <- list_elem_of_In, elem_of_upto in H. specialize (H Hi).
      by rewrite Hs in H.
    + unfold item_log in Hs. destruct (rob_old_phy_reg_id_valid it); [|by apply not_elem_of_nil in Hs].
      apply list_elem_of_singleton in Hs. cbn in Hs. rewrite Hs, Hold. vm_compute. reflexivity.
Qed.

Lemma mispredict_recovers_witness :
  exists p s', commit_cycle commit_demo_port (commit_demo (branch_demo_item true) int_new csr_demo_file) = Some (p, s') /\
    rob_entries (cm_rob s') = [] /\ rat_get_commit_phy_id (cm_rat s') 6 = Some 41 /\ cf_flush p = true /\ cf_next_pc p = 0x80000100.
Proof.
  destruct (mispredict_recovers (fun a => a) (commit_demo_entries (branch_demo_item true))
              (commit_demo (branch_demo_item true) int_new csr_demo_file) (take 1 (commit_demo_entries (branch_demo_item true))) 1
              (snd (nth 1 (commit_demo_entries (branch_demo_item true)) (0, rob_item_zero)))
              (drop 2 (commit_demo_entries (branch_demo_item true))) csr_demo_file commit_demo_port commit_demo_cp)
    as (p & s' & E & [[_ He _ _] TI _] & _ & _ & _ & _ & _ & _ & _ & Hf & _ & _ & Hn).
  - apply commit_demo_inv. reflexivity.
  - vm_compute. reflexivity.
  - vm_compute. reflexivity.
  - vm_compute. reflexivity.
  - vm_compute. reflexivity.
  - vm_compute. reflexivity.
  - vm_compute. reflexivity.
  - vm_compute. reflexivity.
  - vm_compute. reflexivity.
  - vm_compute. reflexivity.
  - apply branch_demo_matches. reflexivity.
  - exact bp_demo_ok.
  - split; vm_compute; congruence.
  - vm_compute. reflexivity.
  - exists p, s'. split; [exact E|]. split; [exact He|]. split; [|split; [exact Hf|exact Hn]].
    rewrite (speculates_get_commit _ _ _ 6 (ti_rat _ _ _ TI)); [vm_compute; reflexivity|].
    unfold in_arch. rewrite (ti_arch _ _ _ TI). unfold ARCH_REG_NUM. lia.
Defined.

