(* ===== verification/Issue.v ===== *)
(** The issue stage ([pipeline/issue.cpp], [pipeline/issue.h]): the queue of
    waiting instructions, the selection of up to [ISSUE_WIDTH] of them whose
    operands are there and whose unit has room, their dispatch to the queues of
    the units, the wake-up of the others by the results that units and
    write-back broadcast, and the intake of the group from register read.

    The order in which the parts run is that of the code: selection and
    dispatch, wake-up, intake, and only then the removal of what was issued. *)

From Stdlib Require Import ZArith Lia.
From stdpp Require Import base numbers list option tactics.
From S2P Require Import Prelude Common Bitmap Fifo FifoIds IssueQueue CheckpointBuffer Rat Bus Regfile PipelineCommon StoreBuffer Packs Execute ExecuteLsu WriteBack.

Local Open Scope Z_scope.

Record issue_queue_item_t := mk_issue_queue_item_t {
  it_enable : bool;
  it_value : Z;
  it_valid : bool;
  it_rob_id : Z;
  it_pc : Z;
  it_imm : Z;
  it_has_exception : bool;
  it_exception_id : riscv_exception_t;
  it_exception_value : Z;
  it_predicted : bool;
  it_predicted_jump : bool;
  it_predicted_next_pc : Z;
  it_checkpoint_id_valid : bool;
  it_checkpoint_id : Z;
  it_rs1 : Z;
  it_arg1_src : arg_src_t;
  it_rs1_need_map : bool;
  it_rs1_phy : Z;
  it_src1_value : Z;
  it_src1_loaded : bool;
  it_rs2 : Z;
  it_arg2_src : arg_src_t;
  it_rs2_need_map : bool;
  it_rs2_phy : Z;
  it_src2_value : Z;
  it_src2_loaded : bool;
  it_rd : Z;
  it_rd_enable : bool;
  it_need_rename : bool;
  it_rd_phy : Z;
  it_csr : Z;
  it_op : op_t;
  it_op_unit : op_unit_t;
  it_sub_op : sub_op_t
}.

#[export] Instance issue_queue_item_eta : Eta issue_queue_item_t := fun r =>
  mk_issue_queue_item_t
    (it_enable r) (it_value r) (it_valid r) (it_rob_id r) (it_pc r) (it_imm r) (it_has_exception r)
    (it_exception_id r) (it_exception_value r) (it_predicted r) (it_predicted_jump r) (it_predicted_next_pc r)
    (it_checkpoint_id_valid r) (it_checkpoint_id r) (it_rs1 r) (it_arg1_src r) (it_rs1_need_map r)
    (it_rs1_phy r) (it_src1_value r) (it_src1_loaded r) (it_rs2 r) (it_arg2_src r) (it_rs2_need_map r)
    (it_rs2_phy r) (it_src2_value r) (it_src2_loaded r) (it_rd r) (it_rd_enable r) (it_need_rename r)
    (it_rd_phy r) (it_csr r) (it_op r) (it_op_unit r) (it_sub_op r).

Definition issue_queue_item_zero : issue_queue_item_t :=
  mk_issue_queue_item_t false 0 false 0 0 0 false instruction_address_misaligned 0 false false 0 false 0 0
    src_reg false 0 0 false 0 src_reg false 0 0 false 0 false false 0 0 op_add unit_alu sub_none.

(** The element made of one operation of the group. *)
Definition item_of (cur_op : readreg_issue_op_info_t) : issue_queue_item_t :=
  mk_issue_queue_item_t
    (ri_enable cur_op) (ri_value cur_op) (ri_valid cur_op) (ri_rob_id cur_op) (ri_pc cur_op) (ri_imm cur_op)
    (ri_has_exception cur_op) (ri_exception_id cur_op) (ri_exception_value cur_op) (ri_predicted cur_op)
    (ri_predicted_jump cur_op) (ri_predicted_next_pc cur_op) (ri_checkpoint_id_valid cur_op)
    (ri_checkpoint_id cur_op) (ri_rs1 cur_op) (ri_arg1_src cur_op) (ri_rs1_need_map cur_op) (ri_rs1_phy cur_op)
    (ri_src1_value cur_op) (ri_src1_loaded cur_op) (ri_rs2 cur_op) (ri_arg2_src cur_op)
    (ri_rs2_need_map cur_op) (ri_rs2_phy cur_op) (ri_src2_value cur_op) (ri_src2_loaded cur_op) (ri_rd cur_op)
    (ri_rd_enable cur_op) (ri_need_rename cur_op) (ri_rd_phy cur_op) (ri_csr cur_op) (ri_op cur_op)
    (ri_op_unit cur_op) (ri_sub_op cur_op).

(** The packet made of an element, its operands as the element has them. *)
Definition pack_of (t : issue_queue_item_t) : issue_execute_pack_t :=
  mk_issue_execute_pack_t
    (it_enable t) (it_value t) (it_valid t) (it_rob_id t) (it_pc t) (it_imm t) (it_has_exception t)
    (it_exception_id t) (it_exception_value t) (it_predicted t) (it_predicted_jump t) (it_predicted_next_pc t)
    (it_checkpoint_id_valid t) (it_checkpoint_id t) (it_rs1 t) (it_arg1_src t) (it_rs1_need_map t)
    (it_rs1_phy t) (it_src1_value t) (it_src1_loaded t) (it_rs2 t) (it_arg2_src t) (it_rs2_need_map t)
    (it_rs2_phy t) (it_src2_value t) (it_src2_loaded t) (it_rd t) (it_rd_enable t) (it_need_rename t)
    (it_rd_phy t) (it_csr t) (it_op t) (it_op_unit t) 0 (it_sub_op t).

(** One value for each kind of unit: what the [switch] statements on [op_unit]
    choose from. *)
Record per_unit (A : Type) := mk_per_unit {
  pu_alu : A;
  pu_bru : A;
  pu_csr : A;
  pu_div : A;
  pu_lsu : A;
  pu_mul : A
}.

Arguments mk_per_unit {A} _ _ _ _ _ _.
Arguments pu_alu {A} _.
Arguments pu_bru {A} _.
Arguments pu_csr {A} _.
Arguments pu_div {A} _.
Arguments pu_lsu {A} _.
Arguments pu_mul {A} _.

Definition unit_sel {A} (p : per_unit A) (u : op_unit_t) : A :=
  match u with
  | unit_alu => pu_alu p
  | unit_bru => pu_bru p
  | unit_csr => pu_csr p
  | unit_div => pu_div p
  | unit_lsu => pu_lsu p
  | unit_mul => pu_mul p
  end.

Definition unit_set {A} (p : per_unit A) (u : op_unit_t) (x : A) : per_unit A :=
  let 'mk_per_unit a b c d l m := p in
  match u with
  | unit_alu => mk_per_unit x b c d l m
  | unit_bru => mk_per_unit a x c d l m
  | unit_csr => mk_per_unit a b x d l m
  | unit_div => mk_per_unit a b c x l m
  | unit_lsu => mk_per_unit a b c d x m
  | unit_mul => mk_per_unit a b c d l x
  end.

Definition unit_map {A B} (g : A -> B) (p : per_unit A) : per_unit B :=
  mk_per_unit (g (pu_alu p)) (g (pu_bru p)) (g (pu_csr p)) (g (pu_div p)) (g (pu_lsu p)) (g (pu_mul p)).

(** [unit_cnt] *)
Definition unit_cnt (u : op_unit_t) : Z :=
  unit_sel (mk_per_unit ALU_UNIT_NUM BRU_UNIT_NUM CSR_UNIT_NUM DIV_UNIT_NUM LSU_UNIT_NUM MUL_UNIT_NUM) u.

(** The stage with the queues it owns or feeds; the last two fields are counters
    of [main.cpp]. *)
Record issue_world := mk_issue_world {
  is_unit_fifo : per_unit (list (fifo issue_execute_pack_t));
  is_issue_q : issue_queue issue_queue_item_t;
  is_busy : bool;
  is_inst_waiting : bool;
  is_inst_waiting_rob_id : Z;
  is_last_index : Z;
  is_unit_index : per_unit Z;
  is_issue_queue_full : Z;
  is_issue_execute_fifo_full : Z
}.

#[export] Instance issue_world_eta : Eta issue_world := fun s =>
  mk_issue_world (is_unit_fifo s) (is_issue_q s) (is_busy s) (is_inst_waiting s) (is_inst_waiting_rob_id s)
    (is_last_index s) (is_unit_index s) (is_issue_queue_full s) (is_issue_execute_fifo_full s).

Definition issue_reset (s : issue_world) : issue_world :=
  s <| is_issue_q ::= iq_reset |> <| is_busy := false |> <| is_inst_waiting := false |>
    <| is_inst_waiting_rob_id := 0 |> <| is_last_index := 0 |> <| is_unit_index := mk_per_unit 0 0 0 0 0 0 |>.

Definition issue_queue_full_add (s : issue_world) : issue_world :=
  s <| is_issue_queue_full := u64 (is_issue_queue_full s + 1) |>.
Definition issue_execute_fifo_full_add (s : issue_world) : issue_world :=
  s <| is_issue_execute_fifo_full := u64 (is_issue_execute_fifo_full s + 1) |>.

(** * Broadcast results

    [for(auto j = 0;j < EXECUTE_UNIT_NUM;j++)] over the channels of the units
    and of write-back; [step] is the body. *)
Fixpoint channel_loop {A} (step : execute_feedback_channel_t -> wb_feedback_channel_t -> A -> A) (n : nat) (j : Z)
    (efs : list execute_feedback_channel_t) (wfs : wb_feedback_pack_t) (a : A) : option A :=
  match n with
  | O => Some a
  | S n =>
      e ← arr_get efs j;
      w ← arr_get wfs j;
      channel_loop step n (j + 1) efs wfs (step e w a)
  end.

Definition channels {A} (step : execute_feedback_channel_t -> wb_feedback_channel_t -> A -> A)
    (efs : list execute_feedback_channel_t) (wfs : wb_feedback_pack_t) (a : A) : option A :=
  channel_loop step (Z.to_nat EXECUTE_UNIT_NUM) 0 efs wfs a.

(** A result that an element waits for. *)
Definition waits1 (t : issue_queue_item_t) (phy_id : Z) : bool :=
  negb (it_src1_loaded t) && it_rs1_need_map t && (it_rs1_phy t =? phy_id).
Definition waits2 (t : issue_queue_item_t) (phy_id : Z) : bool :=
  negb (it_src2_loaded t) && it_rs2_need_map t && (it_rs2_phy t =? phy_id).

Definition wake_one (enable : bool) (phy_id value : Z) (t : issue_queue_item_t) : issue_queue_item_t :=
  if enable then
    let t := if waits1 t phy_id then t <| it_src1_loaded := true |> <| it_src1_value := value |> else t in
    if waits2 t phy_id then t <| it_src2_loaded := true |> <| it_src2_value := value |> else t
  else t.

Definition wake_step (e : execute_feedback_channel_t) (w : wb_feedback_channel_t) (t : issue_queue_item_t)
    : issue_queue_item_t :=
  wake_one (wf_enable w) (wf_phy_id w) (wf_value w) (wake_one (fb_enable e) (fb_phy_id e) (fb_value e) t).

(** * Selection *)

Definition serial (t : issue_queue_item_t) : bool :=
  bool_decide (it_op_unit t = unit_csr) || bool_decide (it_op t = op_mret).

(** [src1_ready] and [src2_ready], from the channel [j] on. *)
Fixpoint ready_loop (n : nat) (j : Z) (efs : list execute_feedback_channel_t) (t : issue_queue_item_t)
    (src1_ready src2_ready : bool) : option (bool * bool) :=
  match n with
  | O => Some (src1_ready, src2_ready)
  | S n =>
      e ← arr_get efs j;
      if fb_enable e then
        let src1_ready := src1_ready || (it_rs1_phy t =? fb_phy_id e) in
        let src2_ready := src2_ready || (it_rs2_phy t =? fb_phy_id e) in
        if src1_ready && src2_ready then Some (src1_ready, src2_ready)
        else ready_loop n (j + 1) efs t src1_ready src2_ready
      else ready_loop n (j + 1) efs t src1_ready src2_ready
  end.

Definition sources_ready (efs : list execute_feedback_channel_t) (t : issue_queue_item_t) : option (bool * bool) :=
  if negb (it_src1_loaded t) || negb (it_src2_loaded t)
  then ready_loop (Z.to_nat EXECUTE_UNIT_NUM) 0 efs t (it_src1_loaded t) (it_src2_loaded t)
  else Some (it_src1_loaded t, it_src2_loaded t).

(** [for(uint32_t i = 0;i < unit_cnt;i++)]: the first available unit. *)
Fixpoint find_unit (js : list Z) (unit_available : list bool) : option (option Z) :=
  match js with
  | [] => Some None
  | i :: js =>
      a ← arr_get unit_available i;
      if (a : bool) then Some (Some i) else find_unit js unit_available
  end.

Record select_vars := mk_select_vars {
  sv_items : list issue_queue_item_t;
  sv_i : Z;
  sv_item_id_list : list Z;
  sv_unit_available : per_unit (list bool);
  sv_has_lsu_op : bool;
  sv_has_csr_op : bool;
  sv_has_mret_op : bool
}.

#[export] Instance select_vars_eta : Eta select_vars := fun v =>
  mk_select_vars (sv_items v) (sv_i v) (sv_item_id_list v) (sv_unit_available v) (sv_has_lsu_op v)
    (sv_has_csr_op v) (sv_has_mret_op v).

Section run.
(** What the stage only reads: the register file, the store buffer, and the
    feedback of the stages behind it. *)
Context (phy_regfile : regfile phy_regfile_item_t) (sb : store_buffer)
  (efs : list execute_feedback_channel_t) (wfs : wb_feedback_pack_t) (cfp : commit_feedback_pack_t).

(** The body of the loop behind the test of the waiting instructions, for the
    element [t] with the id [id]; [true] is [break]. *)
Definition select_try (id : Z) (t : issue_queue_item_t) (v : select_vars) : option (bool * select_vars) :=
  let u := it_op_unit t in
  '(src1_ready, src2_ready) ← sources_ready efs t;
  unit_found ← find_unit (upto (unit_cnt u)) (unit_sel (sv_unit_available v) u);
  let need_to_exit := serial t in
  let fence_trigger := bool_decide (it_op t = op_fence) &&
    (negb (fifo_is_empty (sb_fifo sb)) || negb (sv_i v =? 0) || negb (cf_next_handle_rob_id cfp =? it_rob_id t)) in
  v ← match unit_found with
      | Some unit_index =>
          if src1_ready && src2_ready && (negb (sv_has_lsu_op v) || negb (bool_decide (u = unit_lsu))) &&
             (negb (sv_has_csr_op v) || negb (bool_decide (u = unit_csr))) &&
             (negb (sv_has_mret_op v) || negb (bool_decide (it_op t = op_mret))) && negb fence_trigger
          then
            available ← arr_set (unit_sel (sv_unit_available v) u) unit_index false;
            Some (v <| sv_unit_available := unit_set (sv_unit_available v) u available |>
                    <| sv_item_id_list ::= fun l => l ++ [id] |>
                    <| sv_i := u32 (sv_i v + 1) |>)
          else items ← arr_set (sv_items v) (sv_i v) (t <| it_enable := false |>); Some (v <| sv_items := items |>)
      | None => items ← arr_set (sv_items v) (sv_i v) (t <| it_enable := false |>); Some (v <| sv_items := items |>)
      end;
  Some (need_to_exit || fence_trigger,
        v <| sv_has_lsu_op ::= fun b => b || bool_decide (u = unit_lsu) |>
          <| sv_has_csr_op ::= fun b => b || bool_decide (u = unit_csr) |>
          <| sv_has_mret_op ::= fun b => b || bool_decide (it_op t = op_mret) |>).

Definition select_body (q : issue_queue issue_queue_item_t) (id : Z) (v : select_vars)
    : option (bool * select_vars) :=
  t ← iq_get_item q id;
  items ← arr_set (sv_items v) (sv_i v) t;
  let v := v <| sv_items := items |> in
  if serial t && negb (sv_i v =? 0) then Some (true, v)
  else
    _ ← assert (cf_enable cfp);
    if serial t && negb (cf_next_handle_rob_id cfp =? it_rob_id t) then Some (true, v)
    else select_try id t v.

(** The [do ... while] loop; every iteration moves one slot on, so that the
    capacity bounds the number of iterations. *)
Fixpoint select_loop (fuel : nat) (q : issue_queue issue_queue_item_t) (first_id id : Z) (v : select_vars)
    : option select_vars :=
  match fuel with
  | O => None
  | S fuel =>
      '(stop, v) ← select_body q id v;
      if (stop : bool) then Some v
      else
        '(id, valid) ← iq_get_next_id q id;
        if valid && negb (first_id =? id) && (Z.of_nat (length (sv_item_id_list v)) <? ISSUE_WIDTH)
        then select_loop fuel q first_id id v else Some v
  end.

Definition select_init (s : issue_world) : select_vars :=
  mk_select_vars (repeat issue_queue_item_zero (Z.to_nat ISSUE_WIDTH)) 0 []
    (unit_map (map (fun f => negb (fifo_is_full f))) (is_unit_fifo s)) false false false.

Definition issue_select (s : issue_world) : option select_vars :=
  let q := is_issue_q s in
  first_id ← iq_get_front_id q;
  select_loop (length (buffer (iq_fifo q))) q first_id first_id (select_init s).

(** * Dispatch *)

(** [srcN_feedback] with [srcN_feedback_value], for both operands. *)
Definition feedback_vars : Type := option Z * option Z.

Definition feedback_take (t : issue_queue_item_t) (e : execute_feedback_channel_t) (w : wb_feedback_channel_t)
    (v : feedback_vars) : feedback_vars :=
  let '(f1, f2) := v in
  let '(f1, f2) :=
    if fb_enable e then
      (if waits1 t (fb_phy_id e) then Some (fb_value e) else f1, if waits2 t (fb_phy_id e) then Some (fb_value e) else f2)
    else (f1, f2) in
  if wf_enable w then
    (if waits1 t (wf_phy_id w) && negb (bool_decide (is_Some f1)) then Some (wf_value w) else f1,
     if waits2 t (wf_phy_id w) && negb (bool_decide (is_Some f2)) then Some (wf_value w) else f2)
  else (f1, f2).

(** The width of a memory access and the exceptions it may raise. *)
Definition lsu_access (op : lsu_op_t) : Z * riscv_exception_t * riscv_exception_t :=
  match op with
  | lsu_lb | lsu_lbu => (1, load_address_misaligned, load_access_fault)
  | lsu_lh | lsu_lhu => (2, load_address_misaligned, load_access_fault)
  | lsu_lw => (4, load_address_misaligned, load_access_fault)
  | lsu_sb => (1, store_amo_address_misaligned, store_amo_access_fault)
  | lsu_sh => (2, store_amo_address_misaligned, store_amo_access_fault)
  | lsu_sw => (4, store_amo_address_misaligned, store_amo_access_fault)
  end.

(** The address of a memory access, checked for alignment. *)
Definition lsu_address (send_pack : issue_execute_pack_t) : option issue_execute_pack_t :=
  if ie_valid send_pack && bool_decide (ie_op_unit send_pack = unit_lsu) then
    let addr := u32 (ie_src1_value send_pack + ie_imm send_pack) in
    op ← as_lsu (ie_sub_op send_pack);
    let '(access_size, misaligned, fault) := lsu_access op in
    Some (send_pack <| ie_lsu_addr := addr |> <| ie_exception_value := addr |>
                    <| ie_has_exception := negb (bus_check_align addr access_size) |>
                    <| ie_exception_id := if negb (bus_check_align addr access_size) then misaligned else fault |>)
  else Some send_pack.

(** [while(1)]: the first queue with room from [selected_index] on, [start]
    being where the search began.  One round has [unit_cnt] steps. *)
Fixpoint dispatch_search (fuel : nat) (unit_fifo : list (fifo issue_execute_pack_t)) (cnt start selected_index : Z)
    : option (option Z) :=
  match fuel with
  | O => None
  | S fuel =>
      f ← arr_get unit_fifo selected_index;
      if negb (fifo_is_full f) then Some (Some selected_index)
      else
        let selected_index := u32 (selected_index + 1) mod cnt in
        if selected_index =? start then Some None else dispatch_search fuel unit_fifo cnt start selected_index
  end.

(** The round-robin dispatch; [false] is [break]. *)
Definition dispatch (send_pack : issue_execute_pack_t) (s : issue_world) : option (bool * issue_world) :=
  let u := ie_op_unit send_pack in
  let start := unit_sel (is_unit_index s) u in
  let fifos := unit_sel (is_unit_fifo s) u in
  found ← dispatch_search (Z.to_nat (unit_cnt u)) fifos (unit_cnt u) start start;
  match found with
  | Some selected_index =>
      f ← arr_get fifos selected_index;
      '(ret, f) ← fifo_push f send_pack;
      _ ← assert ret;
      fifos ← arr_set fifos selected_index f;
      Some (true, s <| is_unit_index := unit_set (is_unit_index s) u (u32 (selected_index + 1) mod unit_cnt u) |>
                    <| is_unit_fifo := unit_set (is_unit_fifo s) u fifos |>)
  | None => Some (false, issue_execute_fifo_full_add s)
  end.

(** The element with the operands that arrive in this cycle. *)
Definition with_feedback (t : issue_queue_item_t) (v : feedback_vars) : issue_queue_item_t :=
  let '(f1, f2) := v in
  t <| it_src1_value := default (it_src1_value t) f1 |>
    <| it_src1_loaded := bool_decide (is_Some f1) || it_src1_loaded t |>
    <| it_src2_value := default (it_src2_value t) f2 |>
    <| it_src2_loaded := bool_decide (is_Some f2) || it_src2_loaded t |>.

(** One iteration of the output loop for an enabled element; [false] is [break]. *)
Definition issue_one (t : issue_queue_item_t) (s : issue_world) : option (bool * issue_world) :=
  s ← (if serial t then
         _ ← assert (cf_enable cfp);
         Some (s <| is_inst_waiting := true |> <| is_inst_waiting_rob_id := it_rob_id t |>)
       else Some s);
  v ← (if negb (it_src1_loaded t && it_src2_loaded t) then channels (feedback_take t) efs wfs (None, None)
       else Some (None, None));
  let send := with_feedback t v in
  if negb (it_src1_loaded t && it_src2_loaded t) && negb (it_src1_loaded send && it_src2_loaded send)
  then Some (false, s)
  else
    send_pack ← lsu_address (pack_of send);
    '(continue, s) ← dispatch send_pack s;
    if (continue : bool) then Some (negb (is_inst_waiting s), s) else Some (false, s).

Fixpoint issue_output (js : list Z) (items : list issue_queue_item_t) (item_num : Z) (s : issue_world)
    : option issue_world :=
  match js with
  | [] => Some s
  | i :: js =>
      if item_num <=? i then Some s
      else
        t ← arr_get items i;
        if it_enable t then
          '(continue, s) ← issue_one t s;
          if (continue : bool) then issue_output js items item_num s else Some s
        else issue_output js items item_num s
  end.

(** * Wake-up *)

(** The element with [modified]. *)
Definition wake_flagged (enable : bool) (phy_id value : Z) (v : issue_queue_item_t * bool) : issue_queue_item_t * bool :=
  (wake_one enable phy_id value (fst v), snd v || (enable && (waits1 (fst v) phy_id || waits2 (fst v) phy_id))).

Definition wake_mark (e : execute_feedback_channel_t) (w : wb_feedback_channel_t) (v : issue_queue_item_t * bool)
    : issue_queue_item_t * bool :=
  wake_flagged (wf_enable w) (wf_phy_id w) (wf_value w) (wake_flagged (fb_enable e) (fb_phy_id e) (fb_value e) v).

(** The [do ... while] loop over the queue. *)
Fixpoint wake_loop (fuel : nat) (item_id_list : list Z) (first_item_id cur_item_id : Z)
    (q : issue_queue issue_queue_item_t) : option (issue_queue issue_queue_item_t) :=
  match fuel with
  | O => None
  | S fuel =>
      q ← (if bool_decide (cur_item_id ∈ item_id_list) then Some q
           else
             cur_item ← iq_get_item q cur_item_id;
             '(cur_item, modified) ← channels wake_mark efs wfs (cur_item, false);
             Some (if (modified : bool) then iq_set_item_sync q cur_item_id cur_item else q));
      '(next_id, valid) ← iq_get_next_id q cur_item_id;
      if valid && negb (next_id =? first_item_id) then wake_loop fuel item_id_list first_item_id next_id q
      else Some q
  end.

Definition issue_wake (item_id_list : list Z) (q : issue_queue issue_queue_item_t)
    : option (issue_queue issue_queue_item_t) :=
  match iq_get_front_id q with
  | Some first_item_id => wake_loop (length (buffer (iq_fifo q))) item_id_list first_item_id first_item_id q
  | None => Some q
  end.

(** * Intake *)

(** An operand that the register file has. *)
Definition load_source (loaded need_map : bool) (phy value : Z) : option (Z * bool) :=
  if negb loaded && need_map then
    valid ← regfile_read_data_valid phy_regfile phy;
    if (valid : bool) then item ← regfile_read phy_regfile phy; Some (pri_value item, true) else Some (value, loaded)
  else Some (value, loaded).

Definition enter_item (cur_op : readreg_issue_op_info_t) : option issue_queue_item_t :=
  let t := item_of cur_op in
  if it_valid t then
    src1 ← load_source (it_src1_loaded t) (it_rs1_need_map t) (it_rs1_phy t) (it_src1_value t);
    let t := t <| it_src1_value := src1.1 |> <| it_src1_loaded := src1.2 |> in
    src2 ← load_source (it_src2_loaded t) (it_rs2_need_map t) (it_rs2_phy t) (it_src2_value t);
    let t := t <| it_src2_value := src2.1 |> <| it_src2_loaded := src2.2 |> in
    channels wake_step efs wfs t
  else Some t.

(** [for(;this->last_index < READREG_WIDTH;this->last_index++)], with [n] slots
    to go; the result is [finish]. *)
Fixpoint issue_input (n : nat) (rev_pack : readreg_issue_pack_t) (s : issue_world) : option (bool * issue_world) :=
  match n with
  | O => Some (true, s)
  | S n =>
      let next := fun s => s <| is_last_index := u32 (is_last_index s + 1) |> in
      cur_op ← arr_get rev_pack (is_last_index s);
      if negb (ri_enable cur_op) then issue_input n rev_pack (next s)
      else if fifo_is_full (iq_fifo (is_issue_q s)) then Some (false, issue_queue_full_add s)
      else
        t_item ← enter_item cur_op;
        '(_, f) ← fifo_push (iq_fifo (is_issue_q s)) t_item;
        issue_input n rev_pack (next (s <| is_issue_q ::= fun q => q <| iq_fifo := f |> |>))
  end.

(** * A cycle *)

(** [inst_waiting_ok] *)
Definition waiting_committed (s : issue_world) : bool :=
  existsb (fun c => cf_enable cfp && fst c && (snd c =? is_inst_waiting_rob_id s)) (cf_committed cfp).

Definition issue_normal (rev_pack : readreg_issue_pack_t) (s : issue_world) : option (bool * issue_world) :=
  let go := negb (is_inst_waiting s) || waiting_committed s in
  '(item_id_list, s) ←
    (if go then
       let s := s <| is_inst_waiting := false |> in
       if fifo_is_empty (iq_fifo (is_issue_q s)) then Some ([], s)
       else
         v ← issue_select s;
         s ← issue_output (upto ISSUE_WIDTH) (sv_items v) (Z.of_nat (length (sv_item_id_list v))) s;
         Some (sv_item_id_list v, s)
     else Some ([], s));
  q ← issue_wake item_id_list (is_issue_q s);
  let s := s <| is_issue_q := q |> in
  let s := if is_busy s then s else s <| is_busy := true |> <| is_last_index := 0 |> in
  '(finish, s) ← issue_input (Z.to_nat (READREG_WIDTH - is_last_index s)) rev_pack s;
  let s := if (finish : bool) then s <| is_busy := false |> <| is_last_index := 0 |> else s in
  q ← iq_sync (iq_compress_sync (is_issue_q s) item_id_list);
  Some (is_busy s, s <| is_issue_q := q |>).

(** The result is [feedback_pack.stall]. *)
Definition issue_run (readreg_issue_port : port readreg_issue_pack_t) (s : issue_world) : option (bool * issue_world) :=
  if negb (flushes cfp) then issue_normal (port_get readreg_issue_port) s
  else
    Some (false, s <| is_unit_fifo ::= unit_map (map fifo_flush) |>
                   <| is_issue_q ::= fun q => q <| iq_fifo ::= fifo_flush |> |>
                   <| is_busy := false |> <| is_inst_waiting := false |>).

End run.
