(* ===== verification/IssueSelect.v ===== *)
(** What the issue stage ([Issue.v]) selects.  The results broadcast in a cycle
    are collected in one list of pairs of register and value, on which wake-up
    is a lookup; selection is compared with a recursion over the elements of
    the queue, and the order that recursion keeps is stated. *)

From Stdlib Require Import ZArith Lia.
From stdpp Require Import base numbers list option tactics.
From S2P Require Import Prelude Common Bitmap Fifo FifoIds IssueQueue CheckpointBuffer Rat Bus Regfile PipelineCommon StoreBuffer Packs Execute ExecuteLsu WriteBack Issue.

Local Open Scope Z_scope.

(** * Broadcast results *)

(** The results of a cycle, in the order of the channels. *)
Definition result_of (p : execute_feedback_channel_t * wb_feedback_channel_t) : list (Z * Z) :=
  (if fb_enable p.1 then [(fb_phy_id p.1, fb_value p.1)] else []) ++
  (if wf_enable p.2 then [(wf_phy_id p.2, wf_value p.2)] else []).

Definition results (efs : list execute_feedback_channel_t) (wfs : wb_feedback_pack_t) : list (Z * Z) :=
  mjoin (result_of <$> zip efs wfs).

Fixpoint result_get (rs : list (Z * Z)) (phy : Z) : option Z :=
  match rs with
  | [] => None
  | (a, v) :: rs => if phy =? a then Some v else result_get rs phy
  end.

(** No register has two results. *)
Definition results_agree (rs : list (Z * Z)) : Prop :=
  forall a v v', (a, v) ∈ rs -> (a, v') ∈ rs -> v = v'.

(** The operands of an element that are among the results. *)
Definition wake_src1 (rs : list (Z * Z)) (t : issue_queue_item_t) : option Z :=
  if negb (it_src1_loaded t) && it_rs1_need_map t then result_get rs (it_rs1_phy t) else None.
Definition wake_src2 (rs : list (Z * Z)) (t : issue_queue_item_t) : option Z :=
  if negb (it_src2_loaded t) && it_rs2_need_map t then result_get rs (it_rs2_phy t) else None.

(** An element with the results it waits for. *)
Definition wake (rs : list (Z * Z)) (t : issue_queue_item_t) : issue_queue_item_t :=
  with_feedback t (wake_src1 rs t, wake_src2 rs t).

Lemma result_get_elem rs a v : result_get rs a = Some v -> (a, v) ∈ rs.
Proof.
  induction rs as [|[b w] rs IH]; cbn; [done|]. bcase; intros H; [simplify_eq; left|right; by apply IH].
Qed.

Lemma result_get_app rs rs' a :
  result_get (rs ++ rs') a = match result_get rs a with Some v => Some v | None => result_get rs' a end.
Proof. induction rs as [|[b w] rs IH]; cbn; [done|]. by bcase. Qed.

Lemma channel_loop_zip {A} (step : execute_feedback_channel_t -> wb_feedback_channel_t -> A -> A) efs wfs n j a :
  length efs = (j + n)%nat -> length wfs = (j + n)%nat ->
  channel_loop step n (Z.of_nat j) efs wfs a =
    Some (foldl (fun a p => step p.1 p.2 a) a (drop j (zip efs wfs))).
Proof.
  revert j a. induction n as [|n IH]; intros j a He Hw; cbn [channel_loop].
  { by rewrite drop_ge by (rewrite length_zip; lia). }
  destruct (lookup_lt_is_Some_2 efs j) as [e Ee]; [lia|]. destruct (lookup_lt_is_Some_2 wfs j) as [w Ew]; [lia|].
  rewrite !arr_get_lookup, Nat2Z.id, Ee, Ew by lia. cbn [mbind option_bind].
  replace (Z.of_nat j + 1) with (Z.of_nat (S j)) by lia. rewrite IH by lia.
  rewrite (drop_S (zip efs wfs) (e, w) j); [done|]. by rewrite lookup_zip_with, Ee, Ew.
Qed.

Lemma wake_nil t : wake [] t = t.
Proof. unfold wake, wake_src1, wake_src2, with_feedback. cbn. by destruct t, (negb _ && _), (negb _ && _). Qed.

Lemma wake_cons a v rs t : wake rs (wake_one true a v t) = wake ((a, v) :: rs) t.
Proof.
  unfold wake, wake_one, waits1, waits2, wake_src1, wake_src2, with_feedback. cbn [result_get].
  destruct t as [? ? ? ? ? ? ? ? ? ? ? ? ? ? ? ? n1 p1 v1 l1 ? ? n2 p2 v2 l2 ? ? ? ? ? ? ? ?]. cbn.
  destruct l1, n1, l2, n2; cbn; destruct (p1 =? a) eqn:E1; cbn; destruct (p2 =? a) eqn:E2; cbn; rewrite ?E1, ?E2; cbn; done.
Qed.

Lemma wake_fold rs t : foldl (fun t r => wake_one true r.1 r.2 t) t rs = wake rs t.
Proof. revert t. induction rs as [|[a v] rs IH]; intros t; cbn [foldl]; [by rewrite wake_nil|]. by rewrite IH, wake_cons. Qed.

(** The three loops over the channels as the lookups above. *)
Section channels.
Context (efs : list execute_feedback_channel_t) (wfs : wb_feedback_pack_t).
Context (He : length efs = Z.to_nat EXECUTE_UNIT_NUM) (Hw : length wfs = Z.to_nat EXECUTE_UNIT_NUM).
Abbreviation rs := (results efs wfs).

Lemma channels_fold {A} (step : execute_feedback_channel_t -> wb_feedback_channel_t -> A -> A) a :
  channels step efs wfs a = Some (foldl (fun a p => step p.1 p.2 a) a (zip efs wfs)).
Proof. unfold channels. by rewrite (channel_loop_zip step efs wfs _ 0), drop_0. Qed.

Lemma wake_steps_fold (ps : list (execute_feedback_channel_t * wb_feedback_channel_t)) t :
  foldl (fun t p => wake_step p.1 p.2 t) t ps = foldl (fun t r => wake_one true r.1 r.2 t) t (mjoin (result_of <$> ps)).
Proof.
  revert t. induction ps as [|[e w] ps IH]; intros t; [done|]. rewrite fmap_cons. cbn [foldl mjoin list_join].
  rewrite foldl_app, IH. f_equal. unfold result_of, wake_step. cbn. by destruct (fb_enable e), (wf_enable w).
Qed.

Lemma channels_wake t : channels wake_step efs wfs t = Some (wake rs t).
Proof. rewrite channels_fold. f_equal. by rewrite wake_steps_fold, wake_fold. Qed.

Lemma wake_one_same en a v t : en && (waits1 t a || waits2 t a) = false -> wake_one en a v t = t.
Proof. unfold wake_one. destruct en; [|done]. cbn. intros [H1 H2]%orb_false_iff. by rewrite H1, H2. Qed.

Lemma channels_mark t :
  exists m, channels wake_mark efs wfs (t, false) = Some (wake rs t, m) /\ (m = false -> wake rs t = t).
Proof.
  rewrite channels_fold. exists (foldl (fun v p => wake_mark p.1 p.2 v) (t, false) (zip efs wfs)).2.
  assert (forall ps v, (foldl (fun v p => wake_mark p.1 p.2 v) v ps).1 = foldl (fun t p => wake_step p.1 p.2 t) v.1 ps /\
    ((foldl (fun v p => wake_mark p.1 p.2 v) v ps).2 = false -> v.2 = false /\ foldl (fun t p => wake_step p.1 p.2 t) v.1 ps = v.1)) as H.
  { induction ps as [|[e w] ps IH]; intros [t0 m0]; [done|]. cbn [foldl fst snd].
    destruct (IH (wake_mark e w (t0, m0))) as [-> IH2]. split; [done|].
    intros [Hm Hf]%IH2. unfold wake_mark, wake_flagged in Hm, Hf. cbn in Hm, Hf.
    apply orb_false_iff in Hm as [[Hm He0]%orb_false_iff Hw0]. split; [done|].
    unfold wake_mark, wake_flagged, wake_step in *. cbn. rewrite (wake_one_same _ _ _ _ He0) in *.
    by rewrite (wake_one_same _ _ _ _ Hw0) in *. }
  destruct (H (zip efs wfs) (t, false)) as [H1 H2].
  assert (foldl (fun t p => wake_step p.1 p.2 t) t (zip efs wfs) = wake rs t) as E by (by rewrite wake_steps_fold, wake_fold).
  split.
  - f_equal. cbn in H1. rewrite <- E, <- H1. by destruct (foldl _ (t, false) _).
  - intros [_ Hf]%H2. cbn in Hf. by rewrite <- E.
Qed.

(** One operand through the loop of the dispatch. *)
Lemma channels_feedback t :
  results_agree rs -> channels (feedback_take t) efs wfs (None, None) = Some (wake_src1 rs t, wake_src2 rs t).
Proof.
  intros Hag. rewrite channels_fold. f_equal. unfold results in *. revert Hag.
  induction (zip efs wfs) as [|[e w] ps IH] using rev_ind; intros Hag; cbn [foldl].
  { unfold wake_src1, wake_src2. cbn. by destruct (negb _ && _), (negb _ && _). }
  rewrite fmap_app, join_app in *. rewrite foldl_app, IH.
  2: { intros a v v' H1 H2. apply (Hag a); apply elem_of_app; by left. }
  set (done := mjoin (result_of <$> ps)) in *. clearbody done. cbn in *. unfold result_of in Hag. cbn in Hag. rewrite app_nil_r in Hag.
  assert (forall a v, result_get done a = Some v ->
    (fb_enable e = true -> fb_phy_id e = a -> fb_value e = v) /\ (wf_enable w = true -> wf_phy_id w = a -> wf_value w = v)) as Hd.
  { intros a v Hg%result_get_elem. split; intros E <-; apply (Hag _ _ _) with (2 := proj2 (elem_of_app _ _ _) (or_introl Hg));
      rewrite E, !elem_of_app; right; [left|right]; left. }
  assert (fb_enable e = true -> wf_enable w = true -> fb_phy_id e = wf_phy_id w -> wf_value w = fb_value e) as Hew.
  { intros E1 E2 E. rewrite E1, E2 in Hag. apply (Hag (wf_phy_id w)); rewrite !elem_of_app; right; [right|left; rewrite E]; left. }
  unfold result_of. cbn. rewrite app_nil_r.
  unfold feedback_take, waits1, waits2, wake_src1, wake_src2. rewrite !result_get_app.
  assert (forall (c : bool) phy,
    let f := if c then result_get done phy else None in
    let f1 := if fb_enable e then (if c && (phy =? fb_phy_id e) then Some (fb_value e) else f) else f in
    (if wf_enable w then (if c && (phy =? wf_phy_id w) && negb (bool_decide (is_Some f1)) then Some (wf_value w) else f1) else f1) =
    (if c then match result_get done phy with Some v => Some v
               | None => match result_get (if fb_enable e then [(fb_phy_id e, fb_value e)] else []) phy with
                         | Some v => Some v | None => result_get (if wf_enable w then [(wf_phy_id w, wf_value w)] else []) phy end end
     else None)) as Hop.
  { intros c phy. cbn. destruct c; cbn; [|by destruct (fb_enable e), (wf_enable w)].
    destruct (result_get done phy) as [v|] eqn:Eg.
    - destruct (Hd _ _ Eg) as [D1 D2]. destruct (fb_enable e), (wf_enable w); bcase; cbn; try done; f_equal; auto.
    - destruct (fb_enable e), (wf_enable w); cbn; bcase; cbn; done. }
  pose proof (Hop (negb (it_src1_loaded t) && it_rs1_need_map t) (it_rs1_phy t)) as H1.
  pose proof (Hop (negb (it_src2_loaded t) && it_rs2_need_map t) (it_rs2_phy t)) as H2. cbn zeta in H1, H2.
  rewrite <- H1, <- H2. destruct (fb_enable e), (wf_enable w); reflexivity.
Qed.

End channels.

(** * The reference selection *)

(** An operand is there, or computed in this cycle. *)
Definition broadcast (efs : list execute_feedback_channel_t) (phy : Z) : bool :=
  existsb (fun e => fb_enable e && (phy =? fb_phy_id e)) efs.

Definition is_ready (efs : list execute_feedback_channel_t) (t : issue_queue_item_t) : bool :=
  (it_src1_loaded t || broadcast efs (it_rs1_phy t)) && (it_src2_loaded t || broadcast efs (it_rs2_phy t)).

Definition is_lsu (t : issue_queue_item_t) : bool := bool_decide (it_op_unit t = unit_lsu).
Definition is_fence (t : issue_queue_item_t) : bool := bool_decide (it_op t = op_fence).

Definition take_room (room : op_unit_t -> nat) (u : op_unit_t) : op_unit_t -> nat :=
  fun u' => if decide (u' = u) then pred (room u') else room u'.

Section select.
(** [head_id] is the oldest instruction of the reorder buffer that is left
    after this cycle, [drained] says that the store buffer is empty. *)
Context (efs : list execute_feedback_channel_t) (head_id : Z) (drained : bool).

Definition at_head (t : issue_queue_item_t) : bool := head_id =? it_rob_id t.

(** With [n] instructions selected: a fence that has to wait. *)
Definition fence_waits (n : nat) (t : issue_queue_item_t) : bool :=
  is_fence t && (negb drained || negb (Nat.eqb n 0) || negb (at_head t)).

(** The positions selected among the elements from position [k] on; [room] is
    the number of units with room, [lsu] says that a memory access came before. *)
Fixpoint select_ref (room : op_unit_t -> nat) (n : nat) (lsu : bool) (k : nat) (l : list issue_queue_item_t) : list nat :=
  match l with
  | [] => []
  | t :: l =>
      let go := is_ready efs t && Nat.ltb 0 (room (it_op_unit t)) && (negb lsu || negb (is_lsu t)) && negb (fence_waits n t) in
      let rest := if go then
                    k :: (if Nat.ltb (S n) (Z.to_nat ISSUE_WIDTH)
                          then select_ref (take_room room (it_op_unit t)) (S n) (lsu || is_lsu t) (S k) l else [])
                  else select_ref room n (lsu || is_lsu t) (S k) l in
      if serial t then if Nat.eqb n 0 && at_head t then if go then [k] else [] else []
      else if fence_waits n t then [] else rest
  end.

(** ** The order selection keeps *)

Lemma select_ref_ordered room n lsu k l : ordered k (k + length l) (select_ref room n lsu k l).
Proof.
  revert room n lsu k. induction l as [|t l IH]; intros; cbn [select_ref]; [done|].
  set (go := is_ready efs t && _ && _ && _). cbn zeta.
  assert (forall room n lsu, ordered (S k) (k + S (length l)) (select_ref room n lsu (S k) l)) as IH'
    by (intros; replace (k + S (length l))%nat with (S k + length l)%nat by lia; apply IH).
  assert (forall ps, ordered (S k) (k + S (length l)) ps -> ordered k (k + S (length l)) ps) as Hw
    by (intros [|p ps]; cbn; [done|intros []; split; [lia|done]]).
  destruct (serial t); [|destruct (fence_waits n t); [done|]].
  - destruct (_ && at_head t), go; cbn; try done. split; [lia|done].
  - destruct go; cbn [length]; [|by apply Hw]. cbn [ordered]. split; [lia|].
    destruct (Nat.ltb (S n) (Z.to_nat ISSUE_WIDTH)); [apply IH'|done].
Qed.

Lemma select_ref_width room n lsu k l :
  (n < Z.to_nat ISSUE_WIDTH)%nat -> (n + length (select_ref room n lsu k l) <= Z.to_nat ISSUE_WIDTH)%nat.
Proof.
  revert room n lsu k. induction l as [|t l IH]; intros room n lsu k Hn; cbn [select_ref]; [cbn; lia|].
  set (go := is_ready efs t && _ && _ && _). cbn zeta.
  destruct (serial t); [|destruct (fence_waits n t); [cbn; lia|]].
  - destruct (_ && at_head t), go; cbn; lia.
  - destruct go; [|by apply IH]. cbn [length]. destruct (Nat.ltb_spec (S n) (Z.to_nat ISSUE_WIDTH)); [|cbn; lia].
    specialize (IH (take_room room (it_op_unit t)) (S n) (lsu || is_lsu t) (S k)). lia.
Qed.

(** What holds of the element [t] selected at position [p] of [l], behind [n]
    others. *)
Record selected_ok (n : nat) (lsu : bool) (l : list issue_queue_item_t) (ps : list nat) (p : nat) (t : issue_queue_item_t) : Prop := {
  so_ready : is_ready efs t = true;
  so_lsu : is_lsu t = true -> lsu = false /\ forall q t', (q < p)%nat -> l !! q = Some t' -> is_lsu t' = false;
  so_serial : serial t = true -> n = 0%nat /\ ps = [p] /\ at_head t = true;
  so_fence : is_fence t = true -> n = 0%nat /\ head ps = Some p /\ at_head t = true /\ drained = true;
  so_behind : forall q t', (q < p)%nat -> l !! q = Some t' -> serial t' = false /\ (is_fence t' = true -> at_head t' = true /\ drained = true)
}.

Lemma select_ref_ok room n lsu l p :
  p ∈ select_ref room n lsu 0 l ->
  exists t, l !! p = Some t /\ selected_ok n lsu l (select_ref room n lsu 0 l) p t.
Proof.
  assert (forall k room n lsu p, p ∈ select_ref room n lsu k l ->
    exists t, (k <= p)%nat /\ l !! (p - k)%nat = Some t /\ 
      selected_ok n lsu l ((fun p => p - k)%nat <$> select_ref room n lsu k l) (p - k) t) as H.
  2: { intros (t & _ & Hp & Hok)%(H 0%nat). exists t. rewrite Nat.sub_0_r in Hp, Hok. split; [done|].
       assert (((fun p => p - 0)%nat <$> select_ref room n lsu 0 l) = select_ref room n lsu 0 l) as E; [|by rewrite E in Hok].
       rewrite <- (list_fmap_id (select_ref room n lsu 0 l)) at 2. apply list_fmap_ext. intros. cbn. lia. }
  clear. induction l as [|t l IH]; intros k room n lsu p Hp; cbn [select_ref] in *; [by apply not_elem_of_nil in Hp|].
  set (go := is_ready efs t && _ && _ && _) in *. cbn zeta in *.
  assert (go = true -> is_ready efs t = true /\ (is_lsu t = true -> lsu = false) /\ fence_waits n t = false) as Hgo.
  { subst go. rewrite !andb_true_iff, negb_true_iff, orb_true_iff. intros [[[? _] Hl] ?]. split_and!; try done.
    intros El. rewrite El in Hl. destruct Hl as [Hl|Hl]; [by apply negb_true_iff|done]. }
  assert (fence_waits n t = false -> is_fence t = true -> n = 0%nat /\ at_head t = true /\ drained = true) as Hfence.
  { unfold fence_waits. intros Hf Ef. rewrite Ef in Hf. cbn in Hf.
    apply orb_false_iff in Hf as [[H1%negb_false_iff H2%negb_false_iff]%orb_false_iff H3%negb_false_iff].
    by apply Nat.eqb_eq in H2. }
  assert (forall ps, go = true -> (serial t = true -> n = 0%nat /\ ps = [0%nat] /\ at_head t = true) -> head ps = Some 0%nat ->
    selected_ok n lsu (t :: l) ps 0 t) as Hhere.
  { intros ps (Hr & Hl & Hf)%Hgo Hs Hh. split; try done.
    - intros El. split; [auto|lia].
    - intros Ef. destruct (Hfence Hf Ef) as (? & ? & ?). done.
    - lia. }
  destruct (serial t) eqn:Es.
  { destruct (Nat.eqb_spec n 0); cbn in *; [|by apply not_elem_of_nil in Hp].
    destruct (at_head t) eqn:Eh; cbn in *; [|by apply not_elem_of_nil in Hp].
    destruct go; [|by apply not_elem_of_nil in Hp]. apply list_elem_of_singleton in Hp as ->.
    exists t. cbn [fmap list_fmap]. rewrite Nat.sub_diag. split_and!; [lia|done|]. by apply Hhere. }
  destruct (fence_waits n t) eqn:Ef; [by apply not_elem_of_nil in Hp|].
  destruct go eqn:Eg.
  - apply elem_of_cons in Hp as [->|Hp].
    + exists t. cbn [fmap list_fmap]. rewrite Nat.sub_diag. split_and!; [lia|done|]. by apply Hhere.
    + destruct (Nat.ltb (S n) (Z.to_nat ISSUE_WIDTH)); [|by apply not_elem_of_nil in Hp].
      destruct (IH _ _ _ _ _ Hp) as (t' & Hk & Ht' & Hok). exists t'.
      replace (p - k)%nat with (S (p - S k)) by lia. split_and!; [lia|done|].
      destruct Hok as [O1 O2 O3 O4 O5]. split; try done.
      * intros El. destruct (O2 El) as [Hl Hq]. apply orb_false_iff in Hl as [Hl1 Hl2]. split; [done|].
        intros [|q] t'' Hq' Ht''; [by simplify_eq/=|]. apply (Hq q); [lia|done].
      * intros E. by destruct (O3 E).
      * intros E. by destruct (O4 E).
      * intros [|q] t'' Hq Ht''; simplify_eq/=.
        -- split; [done|]. intros Hfe. by destruct (Hfence eq_refl Hfe) as (_ & ? & ?).
        -- apply (O5 q t''); [lia|done].
  - destruct (IH _ _ _ _ _ Hp) as (t' & Hk & Ht' & Hok). exists t'.
    replace (p - k)%nat with (S (p - S k)) by lia. split_and!; [lia|done|].
    assert (forall y, y ∈ select_ref room n (lsu || is_lsu t) (S k) l -> (S k <= y)%nat) as Hge
      by (intros y Hy; by destruct (IH _ _ _ _ _ Hy) as (? & ? & _)).
    assert (((fun p => p - k)%nat <$> select_ref room n (lsu || is_lsu t) (S k) l) =
            S <$> ((fun p => p - S k)%nat <$> select_ref room n (lsu || is_lsu t) (S k) l)) as Eps.
    { rewrite <- list_fmap_compose. apply list_fmap_ext. intros i y Hy%list_elem_of_lookup_2. cbn.
      apply Hge in Hy. lia. }
    rewrite Eps. set (ps := (fun p => p - S k)%nat <$> _) in *. clearbody ps.
    destruct Hok as [O1 O2 O3 O4 O5]. split; try done.
    + intros El. destruct (O2 El) as [Hl Hq]. apply orb_false_iff in Hl as [Hl1 Hl2]. split; [done|].
      intros [|q] t'' Hq' Ht''; [by simplify_eq/=|]. apply (Hq q); [lia|done].
    + intros E. destruct (O3 E) as (-> & -> & ->). done.
    + intros E. destruct (O4 E) as (-> & Hh & -> & ->). split_and!; try done. by destruct ps; simplify_eq/=.
    + intros [|q] t'' Hq Ht''; simplify_eq/=.
      * split; [done|]. intros Hfe. by destruct (Hfence eq_refl Hfe) as (_ & ? & ?).
      * apply (O5 q t''); [lia|done].
Qed.
End select.

(** * The loop selects as the reference does *)

Lemma unit_sel_set {A} (p : per_unit A) u x u' :
  unit_sel (unit_set p u x) u' = if decide (u' = u) then x else unit_sel p u'.
Proof. by destruct p, u, u'. Qed.

Lemma unit_sel_map {A B} (g : A -> B) p u : unit_sel (unit_map g p) u = g (unit_sel p u).
Proof. by destruct u. Qed.

Fixpoint count_true (bl : list bool) : nat :=
  match bl with [] => 0%nat | b :: bl => ((if b then 1 else 0) + count_true bl)%nat end.

(** [unit_available] as numbers. *)
Definition rooms (avail : per_unit (list bool)) (room : op_unit_t -> nat) : Prop :=
  forall u, Z.of_nat (length (unit_sel avail u)) = unit_cnt u /\ count_true (unit_sel avail u) = room u.

Lemma count_true_insert bl i : bl !! i = Some true -> S (count_true (<[i := false]> bl)) = count_true bl.
Proof.
  revert i. induction bl as [|b bl IH]; intros [|i] H; simplify_eq/=; [done|]. specialize (IH i H). destruct b; lia.
Qed.

Lemma find_unit_spec bl n :
  length bl = n -> exists r, find_unit (upto (Z.of_nat n)) bl = Some r /\
    match r with Some i => 0 <= i /\ bl !! Z.to_nat i = Some true /\ (0 < count_true bl)%nat | None => count_true bl = 0%nat end.
Proof.
  intros Hn. unfold upto. rewrite Nat2Z.id.
  assert (forall bl' k, drop k bl = bl' -> exists r, find_unit (Z.of_nat <$> seq k (length bl')) bl = Some r /\
    match r with Some i => 0 <= i /\ bl !! Z.to_nat i = Some true /\ (0 < count_true bl')%nat | None => count_true bl' = 0%nat end) as H.
  { induction bl' as [|b bl' IH]; intros k Hk; cbn [length seq]; [by exists None|]. rewrite fmap_cons. cbn [find_unit].
    assert (bl !! k = Some b) as Hb by (rewrite <- (Nat.add_0_r k), <- lookup_drop, Hk; done).
    rewrite arr_get_lookup, Nat2Z.id, Hb by lia. cbn [mbind option_bind]. destruct b.
    - eexists. split; [reflexivity|]. cbn beta iota. split_and!; [lia|by rewrite Nat2Z.id|cbn; lia].
    - destruct (IH (S k)) as (r & -> & Hr); [by apply drop_cons_S in Hk|]. by exists r. }
  rewrite <- Hn. by apply (H bl 0%nat).
Qed.

(** The elements at given positions. *)
Definition pick {A} (l : list A) (ps : list nat) : list A := omap (fun p => l !! p) ps.

Section loop.
Context (sb : store_buffer) (efs : list execute_feedback_channel_t) (cfp : commit_feedback_pack_t).
Context (He : length efs = Z.to_nat EXECUTE_UNIT_NUM).

Lemma ready_loop_spec t n j r1 r2 :
  length efs = (j + n)%nat ->
  ready_loop n (Z.of_nat j) efs t r1 r2 =
    Some (r1 || broadcast (drop j efs) (it_rs1_phy t), r2 || broadcast (drop j efs) (it_rs2_phy t)) \/
  (ready_loop n (Z.of_nat j) efs t r1 r2 = Some (true, true) /\
   r1 || broadcast (drop j efs) (it_rs1_phy t) = true /\ r2 || broadcast (drop j efs) (it_rs2_phy t) = true).
Proof.
  revert j r1 r2. induction n as [|n IH]; intros j r1 r2 Hn; cbn [ready_loop].
  { left. rewrite drop_ge by lia. cbn. by rewrite !orb_false_r. }
  destruct (lookup_lt_is_Some_2 efs j) as [e Ee]; [lia|]. rewrite arr_get_lookup, Nat2Z.id, Ee by lia. cbn [mbind option_bind].
  rewrite (drop_S _ _ _ Ee). cbn [broadcast existsb]. fold (broadcast (drop (S j) efs)).
  replace (Z.of_nat j + 1) with (Z.of_nat (S j)) by lia. rewrite !orb_assoc.
  destruct (fb_enable e); cbn [andb]; [|rewrite !orb_false_r; apply IH; lia].
  destruct (r1 || (it_rs1_phy t =? fb_phy_id e)), (r2 || (it_rs2_phy t =? fb_phy_id e)); cbn [andb orb];
    try (apply IH; lia). by right.
Qed.

Lemma sources_ready_spec t :
  sources_ready efs t = Some (it_src1_loaded t || broadcast efs (it_rs1_phy t), it_src2_loaded t || broadcast efs (it_rs2_phy t)).
Proof.
  unfold sources_ready.
  destruct (ready_loop_spec t (Z.to_nat EXECUTE_UNIT_NUM) 0 (it_src1_loaded t) (it_src2_loaded t) He) as [H|(H & H1 & H2)];
    rewrite drop_0 in *; change (Z.of_nat 0) with 0 in H; rewrite H.
  - by destruct (it_src1_loaded t), (it_src2_loaded t).
  - rewrite H1, H2. by destruct (it_src1_loaded t), (it_src2_loaded t).
Qed.

Abbreviation drained := (fifo_is_empty (sb_fifo sb)).
Abbreviation head_id := (cf_next_handle_rob_id cfp).
Abbreviation width := (Z.to_nat ISSUE_WIDTH).

(** The loop variables with [chosen] selected. *)
Record select_inv (chosen : list issue_queue_item_t) (room : op_unit_t -> nat) (lsu : bool) (v : select_vars) : Prop := {
  si_i : sv_i v = Z.of_nat (length chosen);
  si_ids : length (sv_item_id_list v) = length chosen;
  si_items : length (sv_items v) = width;
  si_take : take (length chosen) (sv_items v) = chosen;
  si_room : rooms (sv_unit_available v) room;
  si_lsu : sv_has_lsu_op v = lsu
}.

Definition plain (v : select_vars) : Prop := sv_has_csr_op v = false /\ sv_has_mret_op v = false.

Lemma select_try_ref id t v chosen room lsu :
  select_inv chosen room lsu v -> plain v -> (length chosen < width)%nat -> sv_items v !! length chosen = Some t ->
  let n := length chosen in
  let go := is_ready efs t && Nat.ltb 0 (room (it_op_unit t)) && (negb lsu || negb (is_lsu t)) && negb (fence_waits head_id drained n t) in
  exists v', select_try sb efs cfp id t v = Some (serial t || fence_waits head_id drained n t, v') /\
    sv_item_id_list v' = sv_item_id_list v ++ (if go then [id] else []) /\
    select_inv (chosen ++ (if go then [t] else [])) (if go then take_room room (it_op_unit t) else room) (lsu || is_lsu t) v' /\
    (serial t = false -> plain v').
Proof.
  intros [Hi Hids Hlen Htake Hroom Hlsu] [Hc Hm] Hn Ht n go. unfold select_try. rewrite sources_ready_spec. cbn [mbind option_bind].
  destruct (Hroom (it_op_unit t)) as [Hcnt Hct]. rewrite <- Hcnt.
  destruct (find_unit_spec (unit_sel (sv_unit_available v) (it_op_unit t)) _ eq_refl) as (r & -> & Hr). cbn [mbind option_bind].
  rewrite Hc, Hm, Hlsu. cbn [negb orb]. rewrite !andb_true_r.
  assert (bool_decide (it_op t = op_fence) && (negb drained || negb (sv_i v =? 0) || negb (head_id =? it_rob_id t)) =
          fence_waits head_id drained n t) as ->.
  { unfold fence_waits, is_fence, at_head. do 4 f_equal. rewrite Hi. subst n. by destruct (length chosen). }
  assert (match r with Some _ => is_ready efs t && (negb lsu || negb (is_lsu t)) && negb (fence_waits head_id drained n t) | None => false end = go) as Hgo.
  { subst go. rewrite <- Hct. destruct r; [|rewrite Hr; by rewrite andb_false_r].
    destruct Hr as (_ & _ & Hr). destruct (Nat.ltb_spec 0 (count_true (unit_sel (sv_unit_available v) (it_op_unit t)))); [|lia].
    by rewrite andb_true_r. }
  unfold is_ready, is_lsu in Hgo. fold (is_lsu t) in Hgo |- *. change (it_op_unit t = unit_lsu) with (it_op_unit t = unit_lsu).
  assert (forall v1, let v2 := v1 <| sv_has_lsu_op ::= fun b => b || is_lsu t |> <| sv_has_csr_op ::= fun b => b || bool_decide (it_op_unit t = unit_csr) |>
                           <| sv_has_mret_op ::= fun b => b || bool_decide (it_op t = op_mret) |> in
    sv_has_csr_op v1 = false -> sv_has_mret_op v1 = false -> serial t = false -> plain v2) as Hplain.
  { intros v1 v2 H1 H2 Hs. unfold serial in Hs. apply orb_false_iff in Hs as [Hs1 Hs2]. unfold plain. cbn. by rewrite H1, H2, Hs1, Hs2. }
  assert (arr_set (sv_items v) (sv_i v) (t <| it_enable := false |>) = Some (<[length chosen := t <| it_enable := false |>]> (sv_items v))) as Hset
    by (rewrite Hi, arr_set_eq, Nat2Z.id; [done|lia]).
  destruct r as [i|].
  - rewrite Hgo. destruct Hr as (Hi0 & Hri & Hr). destruct go.
    + rewrite arr_set_eq by (apply lookup_lt_Some in Hri; lia). cbn [mbind option_bind].
      eexists. split; [reflexivity|]. split; [done|]. split; [|by apply Hplain]. 
      assert (length (chosen ++ [t]) = S (length chosen)) as Hl by (rewrite length_app; cbn; lia).
      split; cbn [sv_i sv_item_id_list sv_items sv_unit_available sv_has_lsu_op upd]; rewrite ?Hl.
      * rewrite Hi, u32_small; [lia|]. assert (width = 2%nat) by done. lia.
      * rewrite length_app. cbn. lia.
      * done.
      * by rewrite (take_S_r _ _ _ Ht), Htake.
      * intros u. rewrite unit_sel_set. unfold take_room. destruct (decide (u = it_op_unit t)) as [->|]; [|apply Hroom].
        rewrite length_insert. split; [done|]. pose proof (count_true_insert _ _ Hri). lia.
      * by rewrite Hlsu.
    + rewrite Hset. cbn [mbind option_bind]. eexists. split; [reflexivity|].
      split; [by rewrite app_nil_r|]. split; [|by apply Hplain]. rewrite app_nil_r.
      split; cbn [sv_i sv_item_id_list sv_items sv_unit_available sv_has_lsu_op upd]; try done;
        [by rewrite length_insert|by rewrite take_insert_ge by lia|by rewrite Hlsu].
  - rewrite <- Hgo, Hset. cbn [mbind option_bind]. eexists. split; [reflexivity|].
    split; [by rewrite app_nil_r|]. split; [|by apply Hplain]. rewrite app_nil_r.
    split; cbn [sv_i sv_item_id_list sv_items sv_unit_available sv_has_lsu_op upd]; try done;
      [by rewrite length_insert|by rewrite take_insert_ge by lia|by rewrite Hlsu].
Qed.

Lemma pick_cons {A} (l : list A) p ps x : l !! p = Some x -> pick l (p :: ps) = x :: pick l ps.
Proof. intros H. unfold pick. cbn. by rewrite H. Qed.

Context (Hen : cf_enable cfp = true).

Lemma select_loop_ref (q : issue_queue issue_queue_item_t) l b st fuel k v chosen room lsu :
  window (iq_fifo q) l b st -> (k < length l)%nat -> (length l - k <= fuel)%nat ->
  select_inv chosen room lsu v -> plain v -> (length chosen < width)%nat ->
  let ps := select_ref efs head_id drained room (length chosen) lsu k (drop k l) in
  exists v', select_loop sb efs cfp fuel q (slot (iq_fifo q) b 0) (slot (iq_fifo q) b k) v = Some v' /\
    sv_item_id_list v' = sv_item_id_list v ++ map (slot (iq_fifo q) b) ps /\
    take (length chosen + length ps) (sv_items v') = chosen ++ pick l ps.
Proof.
  intros W. revert k v chosen room lsu. induction fuel as [|fuel IH]; intros k v chosen room lsu Hk Hf SI HP Hn; [lia|].
  destruct (lookup_lt_is_Some_2 l k Hk) as [t Ht]. rewrite (drop_S _ _ _ Ht).
  cbn [select_loop]. unfold select_body, iq_get_item. rewrite (window_get_checked W), Ht by done. cbn [mbind option_bind].
  rewrite (si_i _ _ _ _ SI), arr_set_eq, Nat2Z.id by (rewrite (si_items _ _ _ _ SI); lia). cbn [mbind option_bind].
  set (v0 := v <| sv_items := <[length chosen := t]> (sv_items v) |>).
  assert (select_inv chosen room lsu v0) as SI0.
  { destruct SI as [I1 I2 I3 I4 I5 I6]. split; cbn; try done; [by rewrite length_insert|by rewrite take_insert_ge]. }
  assert (forall v1, sv_items v1 = sv_items v0 -> take (length chosen + 0) (sv_items v1) = chosen ++ []) as Hstop.
  { intros v1 ->. by rewrite Nat.add_0_r, app_nil_r, (si_take _ _ _ _ SI0). }
  assert ((sv_i v0 =? 0) = Nat.eqb (length chosen) 0) as E0 by (rewrite (si_i _ _ _ _ SI0); by destruct (length chosen)).
  cbn [select_ref]. rewrite E0, Hen. cbn [assert mbind option_bind].
  destruct (serial t && negb (Nat.eqb (length chosen) 0)) eqn:E1.
  { apply andb_true_iff in E1 as [-> E1%negb_true_iff]. rewrite E1. cbn.
    eexists. split; [reflexivity|]. cbn [map length]. split; [by rewrite app_nil_r|by apply (Hstop v0)]. }
  destruct (serial t && negb (head_id =? it_rob_id t)) eqn:E2.
  { apply andb_true_iff in E2 as [-> E2%negb_true_iff]. unfold at_head. rewrite E2, andb_false_r. cbn.
    eexists. split; [reflexivity|]. cbn [map length]. split; [by rewrite app_nil_r|by apply (Hstop v0)]. }
  destruct (select_try_ref (slot (iq_fifo q) b k) t v0 chosen room lsu SI0 HP Hn) as (v1 & -> & Hids & SI1 & HP1).
  { cbn. apply list_lookup_insert_eq. rewrite (si_items _ _ _ _ SI). lia. }
  set (go := is_ready efs t && _ && _ && _) in *. cbn [mbind option_bind]. cbn zeta.
  assert (forall v2, v2 = v1 -> forall ps, ps = (if go then [k] else []) ->
    sv_item_id_list v2 = sv_item_id_list v ++ map (slot (iq_fifo q) b) ps /\
    take (length chosen + length ps) (sv_items v2) = chosen ++ pick l ps) as Hhere.
  { intros v2 -> ps ->. rewrite Hids. pose proof (si_take _ _ _ _ SI1) as Htk. rewrite length_app in Htk.
    destruct go; cbn [length map] in *; (split; [done|]); rewrite ?(pick_cons _ _ _ _ Ht); exact Htk. }
  destruct (serial t) eqn:Es; cbn [orb andb] in *.
  { apply negb_false_iff in E1, E2. unfold at_head. rewrite E1, E2. cbn [andb].
    exists v1. split; [done|]. by apply Hhere. }
  destruct (fence_waits head_id drained (length chosen) t) eqn:Ef.
  { exists v1. split; [done|]. apply Hhere; [done|]. subst go. by rewrite andb_false_r. }
  unfold iq_get_next_id. rewrite (window_next_id W) by done. cbn [mbind option_bind].
  rewrite (Z.eqb_sym (slot _ b 0)), (window_loop_test W) by done.
  assert ((Z.of_nat (length (sv_item_id_list v1)) <? ISSUE_WIDTH) =
          (length (chosen ++ (if go then [t] else [])) <? width)%nat) as Hw.
  { rewrite (si_ids _ _ _ _ SI1). apply eq_true_iff_eq. rewrite Z.ltb_lt, Nat.ltb_lt. unfold ISSUE_WIDTH. lia. }
  rewrite Hw. destruct (decide (S k < length l)%nat) as [Hlast|Hlast].
  - rewrite bool_decide_true by done. cbn [andb].
    destruct go eqn:Eg.
    + rewrite length_app in *. cbn [length] in *. replace (length chosen + 1)%nat with (S (length chosen)) in * by lia.
      destruct (Nat.ltb_spec (S (length chosen)) width) as [Hlt|].
      * destruct (IH (S k) v1 _ _ _ Hlast ltac:(lia) SI1 (HP1 eq_refl)) as (v2 & -> & Hi2 & Ht2); [rewrite length_app; cbn; lia|].
        exists v2. split; [done|]. rewrite length_app in Hi2, Ht2. cbn [length] in Hi2, Ht2.
        replace (length chosen + 1)%nat with (S (length chosen)) in * by lia.
        rewrite Hi2, Hids. cbn [map length]. rewrite (pick_cons _ _ _ _ Ht), <- !app_assoc in *. split; [done|].
        etrans; [|exact Ht2]. f_equal. lia.
      * exists v1. split; [done|]. by apply Hhere.
    + rewrite app_nil_r in *. destruct (Nat.ltb_spec (length chosen) width); [|lia].
      destruct (IH (S k) v1 _ _ _ Hlast ltac:(lia) SI1 (HP1 eq_refl) Hn) as (v2 & -> & Hi2 & Ht2).
      exists v2. split; [done|]. by rewrite Hi2, Hids.
  - rewrite bool_decide_false by done. cbn [andb]. rewrite drop_ge by lia. cbn [select_ref].
    exists v1. split; [done|]. apply Hhere; [done|]. destruct go; [|done].
    by destruct (Nat.ltb (S (length chosen)) width).
Qed.

(** Selection of a cycle. *)
Definition issue_room (s : issue_world) (u : op_unit_t) : nat :=
  count_true (map (fun f => negb (fifo_is_full f)) (unit_sel (is_unit_fifo s) u)).

(** From the start, with any fuel that reaches the end of the queue. *)
Lemma select_init_ref s l b st fuel :
  window (iq_fifo (is_issue_q s)) l b st -> l <> [] -> (length l <= fuel)%nat ->
  (forall u, Z.of_nat (length (unit_sel (is_unit_fifo s) u)) = unit_cnt u) ->
  let ps := select_ref efs head_id drained (issue_room s) 0 false 0 l in
  exists v, select_loop sb efs cfp fuel (is_issue_q s) (slot (iq_fifo (is_issue_q s)) b 0) (slot (iq_fifo (is_issue_q s)) b 0) (select_init s) = Some v /\
    sv_item_id_list v = map (slot (iq_fifo (is_issue_q s)) b) ps /\ take (length ps) (sv_items v) = pick l ps.
Proof.
  intros W Hl Hfuel Hu ps. assert (0 < length l)%nat by (destruct l; cbn; [done|lia]).
  destruct (select_loop_ref (is_issue_q s) l b st fuel 0 (select_init s) [] (issue_room s) false W) as (v & E & H1 & H2); try done; try lia.
  - split; try done. intros u. cbn. rewrite unit_sel_map, length_map. split; [apply Hu|done].
  - unfold width. cbn. lia.
  - exists v. split; [exact E|]. by rewrite drop_0 in *.
Qed.

Lemma issue_select_ref s l b st :
  window (iq_fifo (is_issue_q s)) l b st -> l <> [] ->
  (forall u, Z.of_nat (length (unit_sel (is_unit_fifo s) u)) = unit_cnt u) ->
  let ps := select_ref efs head_id drained (issue_room s) 0 false 0 l in
  exists v, issue_select sb efs cfp s = Some v /\
    sv_item_id_list v = map (slot (iq_fifo (is_issue_q s)) b) ps /\ take (length ps) (sv_items v) = pick l ps.
Proof.
  intros W Hl Hu. unfold issue_select, iq_get_front_id. rewrite (window_front_id W), decide_False by done.
  cbn [mbind option_bind]. destruct (window_facts W) as (_ & _ & _ & Hlen & _). by apply (select_init_ref s l b st).
Qed.
End loop.
