(* ===== verification/IssueCycle.v ===== *)
(** A cycle of the issue stage ([Issue.v]): no instruction is lost or issued
    twice, what leaves has its operands, what stays is woken by the results of
    the cycle, and the order among memory accesses, fences and instructions
    that act on the machine state is kept. *)

From Stdlib Require Import ZArith Lia.
From stdpp Require Import base numbers list option tactics.
From S2P Require Import Prelude Common Bitmap Fifo FifoIds IdQueue IssueQueue Rob CheckpointBuffer Rat Bus Regfile PipelineCommon StoreBuffer Packs Execute ExecuteLsu WriteBack Issue IssueSelect.

Local Open Scope Z_scope.

(** * Dispatch *)

Definition fifo_items {T} (f : fifo T) : list T := (fifo_entries f).*2.

Lemma fifo_items_push {T} (f : fifo T) x :
  fifo_ok f -> fifo_is_full f = false ->
  exists f', fifo_push f x = Some (true, f') /\ fifo_ok f' /\ fifo_items f' = fifo_items f ++ [x].
Proof.
  intros Hok Hfull. destruct (fifo_entries_push f x Hok Hfull) as (f' & E & Hok' & He & _).
  exists f'. split_and!; try done. unfold fifo_items. by rewrite He, fmap_app.
Qed.

(** The packets for the queue [k] of the units [u]. *)
Definition sent_to (u : op_unit_t) (k : nat) (out : list (nat * issue_execute_pack_t)) : list issue_execute_pack_t :=
  (filter (fun x => x.1 = k /\ ie_op_unit x.2 = u) out).*2.

Lemma sent_to_app u k o1 o2 : sent_to u k (o1 ++ o2) = sent_to u k o1 ++ sent_to u k o2.
Proof. unfold sent_to. by rewrite list.filter_app, fmap_app. Qed.

(** The queues of the units are well-formed and the indices in range. *)
Record units_ok (s : issue_world) : Prop := {
  uo_len : forall u, Z.of_nat (length (unit_sel (is_unit_fifo s) u)) = unit_cnt u;
  uo_fifo : forall u k f, unit_sel (is_unit_fifo s) u !! k = Some f -> fifo_ok f;
  uo_index : forall u, 0 <= unit_sel (is_unit_index s) u < unit_cnt u
}.

(** [out] is what went to which queue. *)
Record dispatched (out : list (nat * issue_execute_pack_t)) (s s' : issue_world) : Prop := {
  di_units : units_ok s';
  di_fifo : forall u k f, unit_sel (is_unit_fifo s) u !! k = Some f ->
    exists f', unit_sel (is_unit_fifo s') u !! k = Some f' /\ fifo_items f' = fifo_items f ++ sent_to u k out;
  di_q : is_issue_q s' = is_issue_q s;
  di_busy : is_busy s' = is_busy s;
  di_last : is_last_index s' = is_last_index s;
  di_full : is_issue_queue_full s' = is_issue_queue_full s;
  di_lost : is_issue_execute_fifo_full s' = is_issue_execute_fifo_full s
}.

Lemma dispatched_refl s : units_ok s -> dispatched [] s s.
Proof. intros H. split; try done. intros u k f Hf. exists f. by rewrite app_nil_r. Qed.

Lemma dispatched_trans o1 o2 s1 s2 s3 : dispatched o1 s1 s2 -> dispatched o2 s2 s3 -> dispatched (o1 ++ o2) s1 s3.
Proof.
  intros [U1 F1 A1 B1 C1 D1 E1] [U2 F2 A2 B2 C2 D2 E2]. split; try congruence.
  intros u k f Hf. destruct (F1 u k f Hf) as (f1 & Hf1 & I1). destruct (F2 u k f1 Hf1) as (f2 & Hf2 & I2).
  exists f2. split; [done|]. by rewrite I2, I1, sent_to_app, app_assoc.
Qed.

Lemma unit_cnt_range u : 0 < unit_cnt u < 2 ^ 31.
Proof. by destruct u. Qed.

Lemma count_true_exists bl : (0 < count_true bl)%nat -> exists k, bl !! k = Some true.
Proof.
  induction bl as [|b bl IH]; cbn; [lia|]. destruct b; [by exists 0%nat|].
  intros [k Hk]%IH. by exists (S k).
Qed.

(** The round robin search finds a queue with room when there is one. *)
Lemma dispatch_search_spec fifos cnt start d fuel :
  Z.of_nat (length fifos) = cnt -> 0 <= start < cnt -> cnt < 2 ^ 31 -> (Z.of_nat d < cnt) -> Z.of_nat (d + fuel) = cnt ->
  (forall i, (i < d)%nat -> exists f, arr_get fifos ((start + Z.of_nat i) mod cnt) = Some f /\ fifo_is_full f = true) ->
  (exists k f, fifos !! k = Some f /\ fifo_is_full f = false) ->
  exists j f, dispatch_search fuel fifos cnt start ((start + Z.of_nat d) mod cnt) = Some (Some (Z.of_nat j)) /\
    fifos !! j = Some f /\ fifo_is_full f = false.
Proof.
  revert d. induction fuel as [|fuel IH]; intros d Hlen Hs Hc Hd Hf Hfull Hex; [lia|].
  cbn [dispatch_search]. set (sel := (start + Z.of_nat d) mod cnt).
  assert (0 <= sel < cnt) as Hsel by (apply Z.mod_pos_bound; lia).
  destruct (arr_get_in_range fifos sel) as [f Ef]; [lia|]. rewrite Ef. cbn [mbind option_bind].
  destruct (fifo_is_full f) eqn:Efull; cbn [negb].
  2: { exists (Z.to_nat sel), f. rewrite Z2Nat.id by lia. split; [done|]. split; [|done]. by apply arr_get_Some in Ef as [_ ?]. }
  assert (forall i, (i < S d)%nat -> exists f, arr_get fifos ((start + Z.of_nat i) mod cnt) = Some f /\ fifo_is_full f = true) as Hfull'.
  { intros i Hi. destruct (decide (i = d)) as [->|]; [by exists f|]. apply Hfull. lia. }
  assert (u32 (sel + 1) mod cnt = (start + Z.of_nat (S d)) mod cnt) as ->.
  { rewrite u32_small by lia. subst sel. rewrite Zplus_mod_idemp_l. f_equal. lia. }
  destruct (decide (Z.of_nat (S d) < cnt)) as [Hlt|Hge].
  - destruct (Z.eqb_spec ((start + Z.of_nat (S d)) mod cnt) start) as [E|_].
    + exfalso. destruct (decide (start + Z.of_nat (S d) < cnt)).
      * rewrite Z.mod_small in E by lia. lia.
      * rewrite <- (Z.mod_unique_pos (start + Z.of_nat (S d)) cnt 1 (start + Z.of_nat (S d) - cnt)) in E; lia.
    + apply IH; try done; lia.
  - exfalso. destruct Hex as (k & g & Hk & Hg). pose proof (lookup_lt_Some _ _ _ Hk) as Hkl.
    destruct (Hfull' (Z.to_nat ((Z.of_nat k - start) mod cnt))) as (g' & Hg' & Hg'').
    + pose proof (Z.mod_pos_bound (Z.of_nat k - start) cnt). lia.
    + rewrite Z2Nat.id in Hg' by (apply Z.mod_pos_bound; lia). rewrite Zplus_mod_idemp_r in Hg'.
      replace (start + (Z.of_nat k - start)) with (Z.of_nat k) in Hg' by lia.
      rewrite Z.mod_small, arr_get_lookup, Nat2Z.id, Hk in Hg' by lia. congruence.
Qed.

(** It ends after one round in any case. *)
Lemma dispatch_search_total fifos cnt start d fuel :
  Z.of_nat (length fifos) = cnt -> 0 <= start < cnt -> cnt < 2 ^ 31 -> Z.of_nat d < cnt -> Z.of_nat (d + fuel) = cnt ->
  exists r, dispatch_search fuel fifos cnt start ((start + Z.of_nat d) mod cnt) = Some r.
Proof.
  revert d. induction fuel as [|fuel IH]; intros d Hlen Hs Hc Hd Hf; [lia|].
  cbn [dispatch_search]. set (sel := (start + Z.of_nat d) mod cnt).
  assert (0 <= sel < cnt) as Hsel by (apply Z.mod_pos_bound; lia).
  destruct (arr_get_in_range fifos sel) as [f Ef]; [lia|]. rewrite Ef. cbn [mbind option_bind].
  destruct (negb (fifo_is_full f)); [by eexists|].
  assert (u32 (sel + 1) mod cnt = (start + Z.of_nat (S d)) mod cnt) as ->.
  { rewrite u32_small by lia. subst sel. rewrite Zplus_mod_idemp_l. f_equal. lia. }
  destruct (Z.eqb_spec ((start + Z.of_nat (S d)) mod cnt) start) as [|Hne]; [by eexists|]. apply IH; try done; [|lia].
  destruct (decide (Z.of_nat (S d) < cnt)) as [|Hge]; [done|]. exfalso. apply Hne.
  replace (start + Z.of_nat (S d)) with (start + 1 * cnt) by lia. by rewrite Z_mod_plus_full, Z.mod_small.
Qed.

Lemma dispatch_ref p s :
  units_ok s -> (0 < issue_room s (ie_op_unit p))%nat ->
  exists j s', dispatch p s = Some (true, s') /\ dispatched [(j, p)] s s' /\
    is_inst_waiting s' = is_inst_waiting s /\ is_inst_waiting_rob_id s' = is_inst_waiting_rob_id s /\
    (forall u, (issue_room s u <= issue_room s' u + (if decide (u = ie_op_unit p) then 1 else 0))%nat).
Proof.
  intros [Ul Uf Ui] Hroom. set (u := ie_op_unit p) in *. pose proof (unit_cnt_range u) as Hcnt.
  destruct (count_true_exists _ Hroom) as [k0 Hk0]. rewrite list_lookup_fmap in Hk0.
  destruct (unit_sel (is_unit_fifo s) u !! k0) as [f0|] eqn:Ef0; [|done]. cbn in Hk0. injection Hk0 as Hk0. apply negb_true_iff in Hk0.
  destruct (dispatch_search_spec (unit_sel (is_unit_fifo s) u) (unit_cnt u) (unit_sel (is_unit_index s) u) 0 (Z.to_nat (unit_cnt u)))
    as (j & f & Esearch & Hj & Hfull); [apply Ul|apply Ui|lia|lia|lia|lia|by exists k0, f0|].
  rewrite Z.add_0_r, Z.mod_small in Esearch by apply Ui.
  destruct (fifo_items_push f p (Uf _ _ _ Hj) Hfull) as (f' & Epush & Hok' & Hitems).
  assert (0 <= Z.of_nat j < Z.of_nat (length (unit_sel (is_unit_fifo s) u))) as Hjr by (apply lookup_lt_Some in Hj; lia).
  exists j, (s <| is_unit_index := unit_set (is_unit_index s) u (u32 (Z.of_nat j + 1) mod unit_cnt u) |>
               <| is_unit_fifo := unit_set (is_unit_fifo s) u (<[j := f']> (unit_sel (is_unit_fifo s) u)) |>).
  split; [|split; [|split; [done|split; [done|]]]].
  - unfold dispatch. fold u. rewrite Esearch. cbn [mbind option_bind].
    rewrite arr_get_lookup, Nat2Z.id, Hj by lia. cbn [mbind option_bind]. rewrite Epush. cbn [mbind option_bind assert].
    rewrite arr_set_eq, Nat2Z.id by lia. cbn [mbind option_bind]. reflexivity.
  - split; try done.
    + split; cbn [is_unit_fifo is_unit_index upd]; intros u'; rewrite ?unit_sel_set.
      * destruct (decide (u' = u)) as [->|]; [rewrite length_insert|]; apply Ul.
      * intros k g. destruct (decide (u' = u)) as [->|]; [|apply Uf].
        intros [[-> [<- _]]|[_ Hg]]%list_lookup_insert_Some; [done|]. by apply Uf in Hg.
      * destruct (decide (u' = u)) as [->|]; [|apply Ui]. apply Z.mod_pos_bound. lia.
    + intros u' k g Hg. cbn [is_unit_fifo upd]. rewrite unit_sel_set. unfold sent_to.
      destruct (decide (u' = u)) as [->|Hne].
      * destruct (decide (k = j)) as [->|Hk].
        -- rewrite list_lookup_insert_eq by lia. exists f'. split; [done|]. rewrite Hj in Hg. injection Hg as <-.
           rewrite filter_cons_True by done. done.
        -- rewrite list_lookup_insert_ne by done. exists g. split; [done|].
           rewrite filter_cons_False by (cbn; intros [? _]; done). by rewrite app_nil_r.
      * exists g. split; [done|]. rewrite filter_cons_False by (cbn; intros [_ ?]; done). by rewrite app_nil_r.
  - intros u'. unfold issue_room. cbn [is_unit_fifo upd]. rewrite unit_sel_set.
    destruct (decide (u' = u)) as [->|]; [|lia].
    assert (map (fun f => negb (fifo_is_full f)) (<[j:=f']> (unit_sel (is_unit_fifo s) u)) =
            <[j := negb (fifo_is_full f')]> (map (fun f => negb (fifo_is_full f)) (unit_sel (is_unit_fifo s) u))) as ->
      by apply (list_fmap_insert (fun f => negb (fifo_is_full f))).
    set (bl := map _ (unit_sel (is_unit_fifo s) u)).
    assert (bl !! j = Some true) as Hbj by (subst bl; rewrite list_lookup_fmap, Hj; cbn; by rewrite Hfull).
    destruct (negb (fifo_is_full f')).
    + rewrite list_insert_id by done. lia.
    + rewrite <- (count_true_insert bl j Hbj). lia.
Qed.

(** * Output *)

(** What every element of the queue satisfies: it is an instruction, a missing
    operand is one of a register, and a memory access names its kind. *)
Record item_ok (t : issue_queue_item_t) : Prop := {
  io_enable : it_enable t = true;
  io_src1 : it_src1_loaded t = false -> it_rs1_need_map t = true;
  io_src2 : it_src2_loaded t = false -> it_rs2_need_map t = true;
  io_lsu : it_valid t = true -> it_op_unit t = unit_lsu -> is_Some (as_lsu (it_sub_op t))
}.

Lemma wake_ok rs t : item_ok t -> item_ok (wake rs t).
Proof.
  intros [H1 H2 H3 H4]. split; try done; cbn; intros [_ H]%orb_false_iff; auto.
Qed.

(** The packet of an element: its operands with the results of the cycle, and
    the address of a memory access. *)
Definition issue_pack (rs : list (Z * Z)) (t : issue_queue_item_t) : issue_execute_pack_t :=
  default (pack_of (wake rs t)) (lsu_address (pack_of (wake rs t))).

Lemma issue_pack_spec rs t :
  item_ok t -> lsu_address (pack_of (wake rs t)) = Some (issue_pack rs t) /\
    ie_op_unit (issue_pack rs t) = it_op_unit t /\ ie_rob_id (issue_pack rs t) = it_rob_id t /\
    ie_src1_loaded (issue_pack rs t) = it_src1_loaded (wake rs t) /\
    ie_src2_loaded (issue_pack rs t) = it_src2_loaded (wake rs t) /\
    ie_src1_value (issue_pack rs t) = it_src1_value (wake rs t) /\ ie_src2_value (issue_pack rs t) = it_src2_value (wake rs t).
Proof.
  intros Ht. unfold issue_pack, lsu_address. cbn [ie_valid ie_op_unit ie_sub_op pack_of].
  destruct (it_valid (wake rs t) && bool_decide (it_op_unit (wake rs t) = unit_lsu)) eqn:E; [|done].
  apply andb_true_iff in E as [E1 E2%bool_decide_eq_true].
  destruct (io_lsu _ (wake_ok rs t Ht) E1 E2) as [op ->]. cbn [mbind option_bind].
  destruct (lsu_access op) as [[a b] c]. done.
Qed.

Section output.
Context (efs : list execute_feedback_channel_t) (wfs : wb_feedback_pack_t) (cfp : commit_feedback_pack_t).
Context (He : length efs = Z.to_nat EXECUTE_UNIT_NUM) (Hw : length wfs = Z.to_nat EXECUTE_UNIT_NUM).
Context (Hag : results_agree (results efs wfs)) (Hen : cf_enable cfp = true).
Abbreviation rs := (results efs wfs).

Lemma broadcast_result a : broadcast efs a = true -> is_Some (result_get rs a).
Proof.
  unfold results. revert wfs Hw Hag. rewrite <- He. clear He.
  induction efs as [|e es IH]; intros [|w ws] Hl Hag' Hb; cbn in *; try done.
  unfold result_of. cbn. rewrite <- app_assoc, !result_get_app. apply orb_true_iff in Hb as [Hb|Hb].
  - apply andb_true_iff in Hb as [-> Hb%Z.eqb_eq]. cbn. rewrite Hb, Z.eqb_refl. by eexists.
  - destruct (result_get _ a); [by eexists|]. destruct (result_get _ a); [by eexists|].
    apply IH; [lia| |done]. intros x v v' H1 H2. apply (Hag' x); rewrite elem_of_app; by right.
Qed.

(** An element selected as ready has its operands. *)
Lemma ready_loaded t :
  item_ok t -> is_ready efs t = true -> it_src1_loaded (wake rs t) = true /\ it_src2_loaded (wake rs t) = true.
Proof.
  intros [_ H1 H2 _] [R1 R2]%andb_true_iff. unfold wake, with_feedback, wake_src1, wake_src2. cbn.
  split; [destruct (it_src1_loaded t)|destruct (it_src2_loaded t)]; cbn in *; rewrite ?orb_true_r; try done.
  - rewrite H1 by done. destruct (broadcast_result _ R1) as [v ->]. done.
  - rewrite H2 by done. destruct (broadcast_result _ R2) as [v ->]. done.
Qed.

Lemma issue_one_steps t s s1 v send p c s2 :
  (if serial t then _ ← assert (cf_enable cfp); Some (s <| is_inst_waiting := true |> <| is_inst_waiting_rob_id := it_rob_id t |>)
   else Some s) = Some s1 ->
  (if negb (it_src1_loaded t && it_src2_loaded t) then channels (feedback_take t) efs wfs (None, None) else Some (None, None)) = Some v ->
  with_feedback t v = send -> it_src1_loaded send = true -> it_src2_loaded send = true ->
  lsu_address (pack_of send) = Some p -> dispatch p s1 = Some (c, s2) ->
  issue_one efs wfs cfp t s = Some (if (c : bool) then negb (is_inst_waiting s2) else false, s2).
Proof.
  intros E1 E2 E3 L1 L2 E4 E5. unfold issue_one. rewrite E1. mstep. rewrite E2. mstep. rewrite E3, L1, L2, E4. mstep.
  rewrite E5. mstep. rewrite andb_false_r. by destruct c.
Qed.

Lemma issue_one_ref t s :
  units_ok s -> item_ok t -> is_ready efs t = true -> (0 < issue_room s (it_op_unit t))%nat -> is_inst_waiting s = false ->
  exists j s', issue_one efs wfs cfp t s = Some (negb (serial t), s') /\ dispatched [(j, issue_pack rs t)] s s' /\
    is_inst_waiting s' = serial t /\ (serial t = true -> is_inst_waiting_rob_id s' = it_rob_id t) /\
    (forall u, (issue_room s u <= issue_room s' u + (if decide (u = it_op_unit t) then 1 else 0))%nat).
Proof.
  intros U Ht Hr Hroom Hwait.
  destruct (issue_pack_spec rs t Ht) as (Epack & Hunit & _). destruct (ready_loaded t Ht Hr) as [L1 L2].
  set (s1 := if serial t then s <| is_inst_waiting := true |> <| is_inst_waiting_rob_id := it_rob_id t |> else s).
  assert (units_ok s1) as U1 by (unfold s1; destruct (serial t); destruct U as [A B C]; done).
  assert (forall u, issue_room s1 u = issue_room s u) as Hr1 by (intros u; unfold s1; by destruct (serial t)).
  destruct (dispatch_ref (issue_pack rs t) s1 U1) as (j & s2 & Ed & D & W1 & W2 & R).
  { by rewrite Hunit, Hr1. }
  assert (is_inst_waiting s2 = serial t) as Hw2 by (rewrite W1; unfold s1; by destruct (serial t)).
  exists j, s2. split_and!; [|..|done| |].
  - rewrite <- Hw2. refine (issue_one_steps t s s1 (wake_src1 rs t, wake_src2 rs t) _ _ true s2 _ _ eq_refl L1 L2 Epack Ed).
    + rewrite Hen. unfold s1. by destruct (serial t).
    + destruct (it_src1_loaded t && it_src2_loaded t) eqn:E; cbn [negb]; [|by apply channels_feedback].
      apply andb_true_iff in E as [E1 E2]. unfold wake_src1, wake_src2. by rewrite E1, E2.
  - destruct D as [D1 D2 D3 D4 D5 D6 D7]. unfold s1 in D2, D3, D4, D5, D6, D7. destruct (serial t); by split.
  - intros Es. rewrite W2. unfold s1. by rewrite Es.
  - intros u. rewrite <- Hr1, <- Hunit. apply R.
Qed.

(** The number of elements for a kind of unit. *)
Definition demand (ts : list issue_queue_item_t) (u : op_unit_t) : nat := length (filter (fun t => it_op_unit t = u) ts).

Lemma demand_cons t ts u : demand (t :: ts) u = ((if decide (u = it_op_unit t) then 1 else 0) + demand ts u)%nat.
Proof.
  unfold demand. destruct (decide (u = it_op_unit t)) as [->|E];
    [by rewrite filter_cons_True|by rewrite filter_cons_False].
Qed.

Lemma issue_output_ref ts items s i :
  units_ok s -> Forall item_ok ts -> Forall (fun t => is_ready efs t = true) ts ->
  (forall u, (demand ts u <= issue_room s u)%nat) -> is_inst_waiting s = false ->
  (forall t, t ∈ ts -> serial t = true -> ts = [t]) ->
  take (length ts) (drop i items) = ts -> (i + length ts <= Z.to_nat ISSUE_WIDTH)%nat ->
  exists js s', issue_output efs wfs cfp (Z.of_nat <$> seq i (Z.to_nat ISSUE_WIDTH - i)) items (Z.of_nat (i + length ts)) s = Some s' /\
    length js = length ts /\ dispatched (zip js (issue_pack rs <$> ts)) s s' /\
    is_inst_waiting s' = existsb serial ts /\
    (forall t, t ∈ ts -> serial t = true -> is_inst_waiting_rob_id s' = it_rob_id t).
Proof.
  revert s i. induction ts as [|t ts IH]; intros s i U Hok Hrd Hroom Hwait Hser Htake Hlen.
  { exists [], s. split_and!; try done; [|by apply dispatched_refl|by intros t ?%not_elem_of_nil]. rewrite Nat.add_0_r.
    destruct (seq i _) as [|i' js] eqn:E; [done|]. cbn [fmap list_fmap issue_output].
    assert (i' = i) as -> by (destruct (Z.to_nat ISSUE_WIDTH - i)%nat; cbn in E; congruence).
    destruct (Z.leb_spec (Z.of_nat i) (Z.of_nat i)); [done|lia]. }
  cbn [length] in *. replace (Z.to_nat ISSUE_WIDTH - i)%nat with (S (Z.to_nat ISSUE_WIDTH - S i)) by lia.
  cbn [seq fmap list_fmap issue_output]. destruct (Z.leb_spec (Z.of_nat (i + S (length ts))) (Z.of_nat i)); [lia|].
  assert (items !! i = Some t) as Hi.
  { rewrite <- (Nat.add_0_r i), <- lookup_drop. destruct (drop i items); [done|]. cbn in Htake. by injection Htake as -> _. }
  rewrite arr_get_lookup, Nat2Z.id, Hi by lia. cbn [mbind option_bind].
  apply list.Forall_cons in Hok as [Ht Hok]. apply list.Forall_cons in Hrd as [Hr Hrd]. rewrite (io_enable _ Ht).
  destruct (issue_one_ref t s U Ht Hr) as (j & s1 & -> & D & W1 & W2 & R); [|done|].
  { specialize (Hroom (it_op_unit t)). rewrite demand_cons, decide_True in Hroom by done. lia. }
  cbn [mbind option_bind]. rewrite (drop_S _ _ _ Hi) in Htake. cbn in Htake. injection Htake as Htake.
  destruct (serial t) eqn:Es; cbn [negb].
  - assert (ts = []) as -> by (assert (t :: ts = [t]) as E by (apply (Hser t); [left|done]); by injection E).
    exists [j], s1. cbn. rewrite Es. split_and!; try done. intros t' ->%list_elem_of_singleton _. by apply W2.
  - destruct (IH s1 (S i)) as (js & s2 & E & Hl & D2 & W3 & W4); [apply D|done|done| |by rewrite W1| |done|lia|].
    + intros u. specialize (Hroom u). specialize (R u). rewrite demand_cons in Hroom. case_decide; lia.
    + intros t' Ht' Es'. assert (t :: ts = [t']) as E by (apply Hser; [by right|done]). injection E as -> ->.
      by apply not_elem_of_nil in Ht'.
    + exists (j :: js), s2. replace (i + S (length ts))%nat with (S i + length ts)%nat by lia. split_and!.
      * exact E.
      * cbn. by rewrite Hl.
      * exact (dispatched_trans [(j, issue_pack rs t)] _ _ _ _ D D2).
      * cbn. by rewrite Es.
      * intros t' [->|Ht']%elem_of_cons Es'; [congruence|]. by apply W4.
Qed.
End output.

(** Selection never asks for more than there is room. *)
Lemma select_ref_demand efs head_id drained room n lsu l u :
  (demand (pick l (select_ref efs head_id drained room n lsu 0 l)) u <= room u)%nat.
Proof.
  assert (forall l' k room n lsu, drop k l = l' -> (demand (pick l (select_ref efs head_id drained room n lsu k l')) u <= room u)%nat) as H;
    [|by apply H].
  clear. induction l' as [|t l' IH]; intros k room n lsu Hk; cbn [select_ref]; [unfold demand; cbn; lia|].
  assert (l !! k = Some t) as Ht by (rewrite <- (Nat.add_0_r k), <- lookup_drop, Hk; done).
  apply drop_cons_S in Hk. set (go := is_ready efs t && _ && _ && _). cbn zeta.
  assert (go = true -> (0 < room (it_op_unit t))%nat) as Hgo.
  { subst go. rewrite !andb_true_iff, Nat.ltb_lt. tauto. }
  assert (demand (pick l []) u = 0%nat) as H0 by done.
  assert (go = true -> demand (pick l [k]) u <= room u)%nat as H1.
  { intros Hr%Hgo. rewrite (pick_cons _ _ _ _ Ht), demand_cons, H0. case_decide; [subst|]; lia. }
  destruct (serial t); [|destruct (fence_waits head_id drained n t); [rewrite H0; lia|]].
  - destruct (_ && at_head head_id t); [destruct go; [by apply H1|]|]; rewrite H0; lia.
  - destruct go eqn:Eg; [|by apply IH]. rewrite (pick_cons _ _ _ _ Ht), demand_cons.
    specialize (Hgo eq_refl). destruct (Nat.ltb (S n) (Z.to_nat ISSUE_WIDTH)).
    + specialize (IH (S k) (take_room room (it_op_unit t)) (S n) (lsu || is_lsu t) Hk). unfold take_room in IH at 2.
      repeat case_decide; subst; try done; lia.
    + rewrite H0. case_decide; [subst|]; lia.
Qed.

(** * Wake-up *)

(** [ws]: the elements of [l], from position [k] on and other than those at
    [ps], that are written back, with their new values. *)
Definition woken (rs : list (Z * Z)) (l : list issue_queue_item_t) (ps : list nat) (k : nat)
    (ws : list (nat * issue_queue_item_t)) : Prop :=
  Forall (fun x => (x.1 < length l)%nat /\ forall t, l !! x.1 = Some t -> x.2 = wake rs t) ws /\
  (forall j t, (k <= j)%nat -> l !! j = Some t -> j ∈ ps \/ j ∈ ws.*1 \/ wake rs t = t).

Definition set_request (f : fifo issue_queue_item_t) (b : nat) (x : nat * issue_queue_item_t)
    : iq_sync_request issue_queue_item_t := iq_req_set_item (slot f b x.1) x.2.

Lemma ordered_lt k n ps : ordered k n ps -> Forall (fun p => (k <= p < n)%nat) ps.
Proof.
  revert k. induction ps as [|p ps IH]; intros k; [done|]. cbn. intros [Hp Ho]. constructor; [done|].
  eapply List.Forall_impl; [|exact (IH _ Ho)]. cbn. lia.
Qed.

Section wake_up.
Context (efs : list execute_feedback_channel_t) (wfs : wb_feedback_pack_t).
Context (He : length efs = Z.to_nat EXECUTE_UNIT_NUM) (Hw : length wfs = Z.to_nat EXECUTE_UNIT_NUM).
Abbreviation rs := (results efs wfs).

Lemma wake_loop_ref (q : issue_queue issue_queue_item_t) l b st ps fuel k :
  window (iq_fifo q) l b st -> ordered 0 (length l) ps -> (k < length l)%nat -> (length l - k <= fuel)%nat ->
  exists ws, wake_loop efs wfs fuel (map (slot (iq_fifo q) b) ps) (slot (iq_fifo q) b 0) (slot (iq_fifo q) b k) q =
      Some (q <| iq_sync_request_q ::= fun r => r ++ (set_request (iq_fifo q) b <$> ws) |>) /\
    woken rs l ps k ws.
Proof.
  intros W Ho%ordered_lt. revert q k W. induction fuel as [|fuel IH]; intros q k W Hk Hf; [lia|]. cbn [wake_loop].
  destruct (window_facts W) as (_ & _ & _ & Hlen & _).
  destruct (lookup_lt_is_Some_2 l k Hk) as [t Ht].
  assert (exists ws1, (if bool_decide (slot (iq_fifo q) b k ∈ map (slot (iq_fifo q) b) ps) then Some q else
    cur_item ← iq_get_item q (slot (iq_fifo q) b k); '(cur_item, modified) ← channels wake_mark efs wfs (cur_item, false);
    Some (if (modified : bool) then iq_set_item_sync q (slot (iq_fifo q) b k) cur_item else q)) =
      Some (q <| iq_sync_request_q ::= fun r => r ++ (set_request (iq_fifo q) b <$> ws1) |>) /\
    Forall (fun x => (x.1 < length l)%nat /\ forall t, l !! x.1 = Some t -> x.2 = wake rs t) ws1 /\
    (k ∈ ps \/ k ∈ ws1.*1 \/ wake rs t = t)) as (ws1 & -> & Hw1 & Hk1).
  { assert (q <| iq_sync_request_q ::= fun r => r ++ [] |> = q) as Hid by (destruct q; unfold upd; cbn; by rewrite app_nil_r).
    case_bool_decide as Hin.
    - exists []. split; [by cbn; rewrite Hid|]. split; [done|]. left.
      apply list_elem_of_fmap in Hin as (p & Hp & Hpin). rewrite Forall_forall in Ho. specialize (Ho p). 
      assert (k = p) as ->; [|done]. apply (slot_inj W); [lia| |done]. rewrite <- list_elem_of_In in Ho. specialize (Ho Hpin). lia.
    - unfold iq_get_item. rewrite (window_get_checked W), Ht by done. cbn [mbind option_bind].
      destruct (channels_mark efs wfs He Hw t) as (m & -> & Hm). cbn [mbind option_bind]. destruct m.
      + exists [(k, wake rs t)]. split_and!; [done| |right; left; left]. constructor; [|done]. cbn. split; [done|]. intros t0 E0. rewrite Ht in E0. by injection E0 as <-.
      + exists []. split; [by cbn; rewrite Hid|]. split; [done|]. right. right. by apply Hm. }
  cbn [mbind option_bind]. set (q1 := q <| iq_sync_request_q ::= _ |>).
  assert (iq_fifo q1 = iq_fifo q) as Hq1 by done.
  unfold iq_get_next_id. rewrite Hq1, (window_next_id W) by done. cbn [mbind option_bind].
  rewrite (window_loop_test W) by done. case_bool_decide as Hlast.
  - destruct (IH q1 (S k)) as (ws2 & E2 & Hw2 & Hrest); [done|done|lia|]. rewrite Hq1 in E2. rewrite E2.
    exists (ws1 ++ ws2). split; [|split].
    + unfold q1. destruct q. unfold upd. cbn. by rewrite fmap_app, app_assoc.
    + by apply Forall_app.
    + intros j t' Hj Hjt. rewrite fmap_app, elem_of_app. destruct (decide (j = k)) as [->|].
      * rewrite Ht in Hjt. injection Hjt as <-. tauto.
      * destruct (Hrest j t') as [|[|]]; [lia|done|..]; tauto.
  - exists ws1. split; [done|]. split; [done|]. intros j t' Hj Hjt.
    assert (j = k) as -> by (apply lookup_lt_Some in Hjt; lia). rewrite Ht in Hjt. by injection Hjt as <-.
Qed.

Lemma issue_wake_ref (q : issue_queue issue_queue_item_t) l b st ps :
  window (iq_fifo q) l b st -> ordered 0 (length l) ps ->
  exists ws, issue_wake efs wfs (map (slot (iq_fifo q) b) ps) q =
      Some (q <| iq_sync_request_q ::= fun r => r ++ (set_request (iq_fifo q) b <$> ws) |>) /\ woken rs l ps 0 ws.
Proof.
  intros W Ho. unfold issue_wake, iq_get_front_id. rewrite (window_front_id W).
  destruct (window_facts W) as (_ & _ & _ & Hlen & _). case_decide as El.
  - subst l. exists []. split; [|by split]. destruct q. unfold upd. cbn. by rewrite app_nil_r.
  - apply (wake_loop_ref q l b st); [done|done| |lia]. destruct l; cbn; [done|lia].
Qed.
End wake_up.

(** * The updates at the end *)

Fixpoint set_all {A} (l : list A) (ws : list (nat * A)) : list A :=
  match ws with
  | [] => l
  | x :: ws => set_all (<[x.1 := x.2]> l) ws
  end.

Lemma set_all_length {A} (l : list A) ws : length (set_all l ws) = length l.
Proof. revert l. induction ws as [|x ws IH]; intros l; [done|]. cbn. rewrite IH. apply length_insert. Qed.

Lemma set_all_lookup {A} (l : list A) ws j y :
  (j < length l)%nat -> (forall x, (j, x) ∈ ws -> x = y) -> (j ∈ ws.*1 \/ l !! j = Some y) -> set_all l ws !! j = Some y.
Proof.
  revert l. induction ws as [|[i x] ws IH]; intros l Hj Hy Hin; cbn in *.
  { destruct Hin as [H|H]; [by apply not_elem_of_nil in H|done]. }
  apply IH; [by rewrite length_insert|intros x' Hx'; apply Hy; by right|].
  destruct (decide (j ∈ ws.*1)) as [|Hn]; [by left|right].
  destruct (decide (i = j)) as [->|].
  - rewrite list_lookup_insert_eq by done. f_equal. apply Hy. left.
  - rewrite list_lookup_insert_ne by done. destruct Hin as [Hin|]; [|done].
    apply elem_of_cons in Hin as [->|Hin]; [done|]. done.
Qed.

Lemma set_all_app {A} (l new : list A) ws :
  Forall (fun x => (x.1 < length l)%nat) ws -> set_all (l ++ new) ws = set_all l ws ++ new.
Proof.
  revert l. induction ws as [|x ws IH]; intros l Hws; [done|]. cbn [set_all].
  apply list.Forall_cons in Hws as [Hx Hws]. rewrite insert_app_l by done. apply IH.
  eapply List.Forall_impl; [|exact Hws]. intros y. by rewrite length_insert.
Qed.

Lemma iq_sync_sets (q : issue_queue issue_queue_item_t) l b st f0 ws rest :
  window (iq_fifo q) l b st -> length (buffer f0) = length (buffer (iq_fifo q)) -> Forall (fun x => (x.1 < length l)%nat) ws ->
  exists q', iq_sync_loop q ((set_request f0 b <$> ws) ++ rest) = iq_sync_loop q' rest /\
    window (iq_fifo q') (set_all l ws) b st /\ length (buffer (iq_fifo q')) = length (buffer (iq_fifo q)).
Proof.
  revert q l. induction ws as [|x ws IH]; intros q l W Hb Hlt; [by exists q|].
  apply list.Forall_cons in Hlt as [Hx Hlt]. rewrite fmap_cons. cbn [app iq_sync_loop iq_sync_one set_request].
  assert (slot f0 b x.1 = slot (iq_fifo q) b x.1) as -> by (unfold slot; by rewrite Hb).
  destruct (window_set_checked W x.1 x.2 Hx) as (f' & E & W' & Hcap & _).
  assert (forall r, iq_set_item (q <| iq_sync_request_q := r |>) (slot (iq_fifo q) b x.1) x.2 = Some (mk_issue_queue f' r)) as ->
    by (intros r; unfold iq_set_item; destruct q; unfold upd; cbn in *; by rewrite E).
  cbn [mbind option_bind].
  destruct (IH (mk_issue_queue f' ((set_request f0 b <$> ws) ++ rest)) (<[x.1:=x.2]> l)) as (q' & E2 & W2 & Hb2); [done|cbn; congruence| |].
  { eapply List.Forall_impl; [|exact Hlt]. intros y. by rewrite length_insert. }
  exists q'. split; [exact E2|]. split; [done|]. cbn in Hb2. congruence.
Qed.

Lemma remove_at_ext {A} (l1 l2 : list A) k ps :
  length l1 = length l2 -> (forall j, (k + j)%nat ∉ ps -> l1 !! j = l2 !! j) -> ordered k (k + length l1) ps -> remove_at k ps l1 = remove_at k ps l2.
Proof.
  revert l2 k ps. induction l1 as [|x l1 IH]; intros [|y l2] k ps Hl He Ho; try done. cbn in Hl. injection Hl as Hl. cbn [remove_at].
  destruct ps as [|p ps].
  - assert (x = y) as -> by (specialize (He 0%nat); cbn in He; by injection (He (not_elem_of_nil _))).
    f_equal. apply IH; [done| |done]. intros j Hj. apply (He (S j)). by rewrite Nat.add_succ_r.
  - cbn in Ho. destruct Ho as [Hp Ho]. case_decide as E.
    + subst p. apply IH; [done| |by replace (S k + length l1)%nat with (k + S (length l1))%nat by lia].
      intros j Hj. apply (He (S j)). rewrite Nat.add_succ_r. intros [|]%elem_of_cons; [lia|done].
    + pose proof (He 0%nat) as H0. cbn in H0. rewrite Nat.add_0_r in H0.
      assert (k ∉ p :: ps) as Hk.
      { intros [|Hin]%elem_of_cons; [lia|]. apply ordered_lt in Ho. rewrite Forall_forall in Ho.
        rewrite list_elem_of_In in Hin. specialize (Ho k Hin). lia. }
      injection (H0 Hk) as ->. f_equal. apply IH; [done| |cbn; split; [lia|by replace (S (k + length l1)) with (k + S (length l1))%nat by lia]].
      intros j Hj. apply (He (S j)). by rewrite Nat.add_succ_r.
Qed.

Lemma remove_at_elem {A} (l : list A) k ps x : x ∈ remove_at k ps l -> x ∈ l.
Proof.
  revert k ps. induction l as [|y l IH]; intros k ps; [done|]. cbn [remove_at]. destruct ps as [|p ps]; [|case_decide].
  - intros [->|H]%elem_of_cons; [left|right; by eapply IH].
  - intros Hx. right. by eapply IH.
  - intros [->|H']%elem_of_cons; [left|right; by eapply IH].
Qed.

Lemma remove_at_tail {A} (l1 l2 : list A) k ps :
  ordered k (k + length l1) ps -> remove_at k ps (l1 ++ l2) = remove_at k ps l1 ++ l2.
Proof.
  revert k ps. induction l1 as [|x l1 IH]; intros k [|p ps] Ho; cbn [app remove_at].
  - by rewrite remove_at_nil.
  - cbn in Ho. lia.
  - f_equal. by apply IH.
  - cbn in Ho. destruct Ho as [Hp Ho]. case_decide.
    + subst p. apply IH. by replace (S k + length l1)%nat with (k + S (length l1))%nat by lia.
    + cbn. f_equal. apply IH. cbn. split; [lia|]. by replace (S (k + length l1)) with (k + S (length l1))%nat by lia.
Qed.

(** * Intake *)

(** The value of a register that is valid. *)
Definition reg_value (f : regfile phy_regfile_item_t) (phy : Z) : option Z :=
  match regfile_view f phy with Some (it, true) => Some (pri_value it) | _ => None end.

Definition load_regs (f : regfile phy_regfile_item_t) (t : issue_queue_item_t) : issue_queue_item_t :=
  with_feedback t
    (if negb (it_src1_loaded t) && it_rs1_need_map t then reg_value f (it_rs1_phy t) else None,
     if negb (it_src2_loaded t) && it_rs2_need_map t then reg_value f (it_rs2_phy t) else None).

(** The element an operation of the group becomes. *)
Definition entered (f : regfile phy_regfile_item_t) (rs : list (Z * Z)) (op : readreg_issue_op_info_t) : issue_queue_item_t :=
  if ri_valid op then wake rs (load_regs f (item_of op)) else item_of op.

Record op_ok (f : regfile phy_regfile_item_t) (op : readreg_issue_op_info_t) : Prop := {
  oo_item : item_ok (item_of op);
  oo_rs1 : ri_rs1_need_map op = true -> 0 <= ri_rs1_phy op < rf_size f;
  oo_rs2 : ri_rs2_need_map op = true -> 0 <= ri_rs2_phy op < rf_size f
}.

Lemma entered_ok f rs op : op_ok f op -> item_ok (entered f rs op).
Proof.
  intros [Hi _ _]. unfold entered. destruct (ri_valid op); [|done]. apply wake_ok.
  destruct Hi as [H1 H2 H3 H4]. split; try done; cbn; intros [_ H]%orb_false_iff; auto.
Qed.

Lemma load_source_spec f loaded need phy value :
  regfile_ok f -> (need = true -> 0 <= phy < rf_size f) ->
  let r := if negb loaded && need then reg_value f phy else None in
  load_source f loaded need phy value = Some (default value r, bool_decide (is_Some r) || loaded).
Proof.
  intros Hok Hr. unfold load_source, reg_value, regfile_view. destruct (negb loaded && need) eqn:E; [|done].
  apply andb_true_iff in E as [E1%negb_true_iff E2]. rewrite E1. specialize (Hr E2). destruct Hok as (_ & Hl & Hb).
  unfold regfile_read, regfile_read_data_valid. destruct (Z.ltb_spec phy (rf_size f)); [|lia]. cbn [assert mbind option_bind].
  destruct (arr_get_in_range (reg_data f) phy) as [it ->]; [lia|]. cbn [mbind option_bind].
  rewrite (bitmap_get_bit _ _ Hb) by lia. cbn [mbind option_bind]. by destruct (bit_at _ phy).
Qed.

Definition enabled (op : readreg_issue_op_info_t) : Prop := ri_enable op = true.

Section intake.
Context (f : regfile phy_regfile_item_t) (efs : list execute_feedback_channel_t) (wfs : wb_feedback_pack_t).
Context (He : length efs = Z.to_nat EXECUTE_UNIT_NUM) (Hw : length wfs = Z.to_nat EXECUTE_UNIT_NUM) (Hf : regfile_ok f).
Abbreviation rs := (results efs wfs).

Lemma enter_item_ref op : op_ok f op -> enter_item f efs wfs op = Some (entered f rs op).
Proof.
  intros [_ H1 H2]. unfold enter_item, entered. cbn [it_valid item_of]. destruct (ri_valid op); [|done].
  rewrite (load_source_spec f _ _ _ _ Hf H1). cbn [mbind option_bind].
  match goal with |- context [load_source f ?a ?b ?c ?d] =>
    change (load_source f a b c d) with (load_source f (ri_src2_loaded op) (ri_rs2_need_map op) (ri_rs2_phy op) (ri_src2_value op)) end.
  rewrite (load_source_spec f _ _ _ _ Hf H2). cbn [mbind option_bind]. rewrite (channels_wake efs wfs He Hw). done.
Qed.

(** The fields the intake leaves alone. *)
Definition same_issue (s s' : issue_world) : Prop :=
  is_unit_fifo s' = is_unit_fifo s /\ is_unit_index s' = is_unit_index s /\ is_busy s' = is_busy s /\
  is_inst_waiting s' = is_inst_waiting s /\ is_inst_waiting_rob_id s' = is_inst_waiting_rob_id s /\
  iq_sync_request_q (is_issue_q s') = iq_sync_request_q (is_issue_q s) /\
  length (buffer (iq_fifo (is_issue_q s'))) = length (buffer (iq_fifo (is_issue_q s))).

Lemma issue_input_ref rev n s l b st i :
  window (iq_fifo (is_issue_q s)) l b st -> is_last_index s = Z.of_nat i -> length rev = (i + n)%nat -> Z.of_nat (i + n) < 2 ^ 31 ->
  Forall (op_ok f) (filter enabled (drop i rev)) ->
  exists s' taken rest i', issue_input f efs wfs n rev s = Some (bool_decide (rest = []), s') /\ same_issue s s' /\
    filter enabled (drop i rev) = taken ++ rest /\ window (iq_fifo (is_issue_q s')) (l ++ (entered f rs <$> taken)) b st /\
    (rest <> [] -> (length l + length taken)%nat = length (buffer (iq_fifo (is_issue_q s)))) /\
    is_last_index s' = Z.of_nat i' /\ filter enabled (drop i' rev) = rest /\ (i' <= i + n)%nat /\ (rest <> [] -> i' < i + n)%nat /\
    is_issue_queue_full s' = (if decide (rest = []) then is_issue_queue_full s else u64 (is_issue_queue_full s + 1)) /\
    is_issue_execute_fifo_full s' = is_issue_execute_fifo_full s.
Proof.
  revert s l i. induction n as [|n IH]; intros s l i W Hi Hlen Hb Hok; cbn [issue_input].
  { exists s, [], [], i. rewrite drop_ge by lia. cbn. rewrite app_nil_r. split_and!; try done; lia. }
  destruct (lookup_lt_is_Some_2 rev i) as [op Hop]; [lia|]. rewrite (drop_S _ _ _ Hop) in *.
  rewrite Hi, arr_get_lookup, Nat2Z.id, Hop by lia. cbn [mbind option_bind].
  assert (u32 (Z.of_nat i + 1) = Z.of_nat (S i)) as Hu by (rewrite u32_small; lia).
  destruct (ri_enable op) eqn:Een; cbn [negb].
  2: { rewrite filter_cons_False in * by (unfold enabled; congruence).
       destruct (IH (s <| is_last_index := u32 (is_last_index s + 1) |>) l (S i)) as (s' & taken & rest & i' & E & S1 & T & W' & F & L & R & I1 & I2 & Q1 & Q2);
         [done|by cbn; rewrite Hi|lia|lia|done|].
       exists s', taken, rest, i'. rewrite Hi in E. split_and!; try done; lia || (intros Hr; specialize (I2 Hr); lia). }
  rewrite filter_cons_True in * by done. apply list.Forall_cons in Hok as [Hop1 Hok].
  rewrite (window_full W). case_bool_decide as Hfull.
  { exists (issue_queue_full_add s), [], (op :: filter enabled (drop (S i) rev)), i. rewrite fmap_nil, app_nil_r.
    split_and!; try done; [| |lia|lia].
    - intros _. cbn. lia.
    - rewrite (drop_S _ _ _ Hop). by rewrite filter_cons_True. }
  destruct (window_facts W) as (_ & _ & _ & Hll & _).
  rewrite (enter_item_ref op Hop1). cbn [mbind option_bind].
  destruct (window_push W (entered f rs op)) as (f' & Ep & W' & Hcap & _); [lia|]. rewrite Ep. cbn [mbind option_bind].
  set (s1 := s <| is_issue_q ::= fun q => q <| iq_fifo := f' |> |>).
  destruct (IH (s1 <| is_last_index := u32 (is_last_index s1 + 1) |>) (l ++ [entered f rs op]) (S i))
    as (s' & taken & rest & i' & E & S1 & T & W2 & F & L & R & I1 & I2 & Q1 & Q2);
    [done|by cbn; rewrite Hi|lia|lia|done|].
  exists s', (op :: taken), rest, i'. split_and!.
  - exact E.
  - destruct S1 as (A1 & A2 & A3 & A4 & A5 & A6 & A7). cbn in A1, A2, A3, A4, A5, A6, A7. unfold same_issue. rewrite Hcap. by split_and!.
  - by rewrite T.
  - rewrite fmap_cons. replace (l ++ entered f rs op :: (entered f rs <$> taken)) with ((l ++ [entered f rs op]) ++ (entered f rs <$> taken))
      by (by rewrite <- app_assoc). exact W2.
  - intros Hr. specialize (F Hr). cbn in F. rewrite Hcap, <- F, length_app. cbn. lia.
  - done.
  - done.
  - lia.
  - intros Hr. specialize (I2 Hr). lia.
  - exact Q1.
  - exact Q2.
Qed.
End intake.

(** * The cycle *)

(** The stage with the elements [l] in its queue. *)
Record issue_inv (l : list issue_queue_item_t) (s : issue_world) : Prop := {
  iv_window : exists b st, window (iq_fifo (is_issue_q s)) l b st;
  iv_queue : iq_sync_request_q (is_issue_q s) = [];
  iv_items : Forall item_ok l;
  iv_units : units_ok s;
  iv_index : is_busy s = true -> 0 <= is_last_index s < READREG_WIDTH
}.

(** The operations of the group that are still to enter the queue. *)
Definition pending (s : issue_world) (rev : readreg_issue_pack_t) : list readreg_issue_op_info_t :=
  filter enabled (if is_busy s then drop (Z.to_nat (is_last_index s)) rev else rev).

Section cycle.
Context (f : regfile phy_regfile_item_t) (sb : store_buffer) (efs : list execute_feedback_channel_t)
  (wfs : wb_feedback_pack_t) (cfp : commit_feedback_pack_t).
Abbreviation rs := (results efs wfs).

(** Nothing is issued while an instruction that must be alone is in flight. *)
Definition may_issue (s : issue_world) : bool := negb (is_inst_waiting s) || waiting_committed cfp s.

Definition selection (l : list issue_queue_item_t) (s : issue_world) : list nat :=
  if may_issue s
  then select_ref efs (cf_next_handle_rob_id cfp) (fifo_is_empty (sb_fifo sb)) (issue_room s) 0 false 0 l else [].

Lemma selection_ordered l s : ordered 0 (length l) (selection l s).
Proof. unfold selection. destruct (may_issue s); [apply (select_ref_ordered _ _ _ _ _ _ 0)|done]. Qed.

Lemma selection_elem l s p :
  p ∈ selection l s -> exists t, l !! p = Some t /\
    selected_ok efs (cf_next_handle_rob_id cfp) (fifo_is_empty (sb_fifo sb)) 0 false l (selection l s) p t.
Proof. unfold selection. destruct (may_issue s); [apply select_ref_ok|by intros ?%not_elem_of_nil]. Qed.

Lemma pick_elem {A} (l : list A) ps t : t ∈ pick l ps -> exists p, p ∈ ps /\ l !! p = Some t.
Proof. unfold pick. rewrite list_elem_of_omap. intros (p & Hp & Ht). by exists p. Qed.

Lemma pick_length {A} (l : list A) k ps : ordered k (length l) ps -> length (pick l ps) = length ps.
Proof.
  revert k. induction ps as [|p ps IH]; intros k Ho; [done|]. cbn in Ho. destruct Ho as [Hp Ho].
  destruct (lookup_lt_is_Some_2 l p) as [t Ht]; [lia|]. rewrite (pick_cons _ _ _ _ Ht). cbn. f_equal. by eapply IH.
Qed.

Context (He : length efs = Z.to_nat EXECUTE_UNIT_NUM) (Hw : length wfs = Z.to_nat EXECUTE_UNIT_NUM).
Context (Hag : results_agree rs) (Hf : regfile_ok f).

Lemma selection_ready {P : issue_queue_item_t -> Prop} l s :
  Forall P l -> Forall P (pick l (selection l s)) /\ Forall (fun t => is_ready efs t = true) (pick l (selection l s)) /\
    forall t, t ∈ pick l (selection l s) -> serial t = true -> pick l (selection l s) = [t].
Proof.
  intros Hok. rewrite !list.Forall_forall in *. split_and!.
  - intros t (p & _ & Ht)%pick_elem. apply list_elem_of_lookup_2 in Ht. by apply Hok.
  - intros t (p & (t' & Ht' & S)%selection_elem & Ht)%pick_elem. rewrite Ht in Ht'. injection Ht' as <-. apply S.
  - intros t (p & (t' & Ht' & S)%selection_elem & Ht)%pick_elem Es. rewrite Ht in Ht'. injection Ht' as <-.
    destruct (so_serial _ _ _ _ _ _ _ _ _ S Es) as (_ & -> & _). by rewrite (pick_cons _ _ _ _ Ht).
Qed.

(** Selection and dispatch together. *)
Lemma issue_front_ref l b st s :
  issue_inv l s -> window (iq_fifo (is_issue_q s)) l b st -> (l <> [] -> cf_enable cfp = true) ->
  exists js s', (if may_issue s then
       if fifo_is_empty (iq_fifo (is_issue_q s)) then Some ([], s <| is_inst_waiting := false |>)
       else
         v ← issue_select sb efs cfp (s <| is_inst_waiting := false |>);
         s ← issue_output efs wfs cfp (upto ISSUE_WIDTH) (sv_items v) (Z.of_nat (length (sv_item_id_list v))) (s <| is_inst_waiting := false |>);
         Some (sv_item_id_list v, s)
     else Some ([], s)) = Some (map (slot (iq_fifo (is_issue_q s)) b) (selection l s), s') /\
    length js = length (selection l s) /\ dispatched (zip js (issue_pack rs <$> pick l (selection l s))) s s' /\
    is_inst_waiting s' = (if may_issue s then existsb serial (pick l (selection l s)) else is_inst_waiting s) /\
    (forall t, t ∈ pick l (selection l s) -> serial t = true -> is_inst_waiting_rob_id s' = it_rob_id t).
Proof.
  intros [_ _ Hok U _] W Hen. destruct (selection_ready l s Hok) as (Hok' & Hrd & Hser).
  pose proof (selection_ordered l s) as Ho. unfold selection in *. destruct (may_issue s).
  2: { exists [], s. split_and!; try done; [by apply dispatched_refl|by intros t ?%not_elem_of_nil]. }
  set (s1 := s <| is_inst_waiting := false |>). rewrite (window_empty W). case_bool_decide as El.
  { subst l. exists [], s1. split_and!; try done; [|by intros t ?%not_elem_of_nil].
    destruct (dispatched_refl s U) as [D1 D2 D3 D4 D5 D6 D7]. destruct D1. by split. }
  assert (units_ok s1) as U1 by (destruct U; by split).
  change (issue_room s) with (issue_room s1) in *. set (ps := select_ref _ _ _ _ _ _ _ l) in *.
  destruct (issue_select_ref sb efs cfp He (Hen El) s1 l b st W El (uo_len _ U1)) as (v & -> & Hids & Htake).
  fold ps in Hids, Htake. cbn [mbind option_bind].
  assert (length (pick l ps) = length ps) as Hpl by (by apply (pick_length _ 0)).
  destruct (issue_output_ref efs wfs cfp He Hw Hag (Hen El) (pick l ps) (sv_items v) s1 0 U1 Hok' Hrd)
    as (js & s2 & E & Hl & D & W1 & W2); [|done|done| | |].
  - intros u. apply select_ref_demand.
  - by rewrite drop_0, Hpl, Htake.
  - rewrite Hpl. apply (select_ref_width _ _ _ _ 0). unfold ISSUE_WIDTH. lia.
  - exists js, s2. rewrite Hids, length_map. cbn [Nat.add] in E. rewrite Hpl, Nat.sub_0_r in E. fold (upto ISSUE_WIDTH) in E.
    rewrite E. cbn [mbind option_bind]. split_and!; try done; [by rewrite Hl, Hpl|].
    destruct D as [D1 D2 D3 D4 D5 D6 D7]. by split.
Qed.

(** Writing back what was woken and removing what was issued. *)
Lemma issue_sync_ref (q : issue_queue issue_queue_item_t) f0 l new b st ps ws :
  window (iq_fifo q) (l ++ new) b st -> length (buffer f0) = length (buffer (iq_fifo q)) -> ordered 0 (length l) ps ->
  woken rs l ps 0 ws -> iq_sync_request_q q = set_request f0 b <$> ws ->
  exists q', iq_sync (iq_compress_sync q (map (slot f0 b) ps)) = Some q' /\
    window (iq_fifo q') (remove_at 0 ps (wake rs <$> l) ++ new) b st /\ iq_sync_request_q q' = [].
Proof.
  intros W Hb Ho [Hws Hall] Hq. unfold iq_sync, iq_compress_sync. cbn [iq_sync_request_q upd]. rewrite Hq.
  destruct (iq_sync_sets (q <| iq_sync_request_q ::= fun l => l ++ [iq_req_compress (map (slot f0 b) ps)] |>) (l ++ new) b st f0 ws
    [iq_req_compress (map (slot f0 b) ps)]) as (q1 & E & W1 & Hb1); [exact W|exact Hb| |].
  { eapply List.Forall_impl; [|exact Hws]. intros x [Hx _]. rewrite length_app. lia. }
  rewrite E. cbn [iq_sync_loop iq_sync_one].
  assert (slot f0 b = slot (iq_fifo q1) b) as -> by (unfold slot; rewrite Hb1; cbn; by rewrite Hb).
  destruct (iq_compress_spec (mk_issue_queue (iq_fifo q1) []) (set_all (l ++ new) ws) b st ps W1) as (q2 & E2 & W2 & Hq2).
  { rewrite set_all_length, length_app. clear -Ho. revert Ho. generalize 0%nat. induction ps as [|p ps IH]; intros k; [done|].
    cbn. intros [? ?]. split; [lia|by apply IH]. }
  change (iq_compress (mk_issue_queue (iq_fifo q1) []) (map (slot (iq_fifo q1) b) ps) = Some q2) in E2.
  change (q1 <| iq_sync_request_q := [] |>) with (mk_issue_queue (iq_fifo q1) []). rewrite E2. exists q2. split; [done|]. split; [|by rewrite Hq2].
  assert (length (set_all l ws) = length l) as Hsl by apply set_all_length.
  rewrite set_all_app, remove_at_tail in W2; [|by rewrite Hsl|eapply List.Forall_impl; [|exact Hws]; by intros x [Hx _]].
  rewrite (remove_at_ext _ (wake rs <$> l)) in W2; [done|by rewrite Hsl, length_fmap| |by rewrite Hsl].
  intros j Hj. cbn in Hj. rewrite list_lookup_fmap. destruct (l !! j) as [t|] eqn:Et; cbn [fmap option_fmap option_map].
  - pose proof (lookup_lt_Some _ _ _ Et). apply set_all_lookup; [done| |].
    + intros x Hx. rewrite list.Forall_forall in Hws. destruct (Hws _ Hx) as [_ Hv]. by apply Hv.
    + destruct (Hall j t) as [|[|Hsame]]; [lia|done|done|by left|right]. by rewrite Et, Hsame.
  - apply lookup_ge_None. apply lookup_ge_None in Et. lia.
Qed.

(** The group after its intake: what is left over waits for the next cycle. *)
Lemma pending_rest s rev i rest finish :
  is_last_index s = Z.of_nat i -> filter enabled (drop i rev) = rest -> finish = bool_decide (rest = []) ->
  let s' := if finish then s <| is_busy := false |> <| is_last_index := 0 |> else s in
  is_busy s = true -> is_busy s' = negb finish /\ (rest <> [] -> pending s' rev = rest).
Proof.
  intros Hi Hr -> s' Hb. unfold s'. case_bool_decide as E; cbn; [by split|]. split; [done|]. intros _.
  unfold pending. by rewrite Hb, Hi, Nat2Z.id.
Qed.

(** What a cycle of the stage does to the queue [l], the units and the group
    [rev]: [ps] are the positions issued, [js] the units they go to. *)
Record issued (rev : readreg_issue_pack_t) (l : list issue_queue_item_t) (s : issue_world) (js : list nat)
    (taken rest : list readreg_issue_op_info_t) (s' : issue_world) : Prop := {
  is_inv : issue_inv (remove_at 0 (selection l s) (wake rs <$> l) ++ (entered f rs <$> taken)) s';
  is_group : pending s rev = taken ++ rest;
  is_rest : rest <> [] -> pending s' rev = rest /\ (length l + length taken)%nat = length (buffer (iq_fifo (is_issue_q s)));
  is_indices : length js = length (selection l s);
  is_sent : forall u k fi, unit_sel (is_unit_fifo s) u !! k = Some fi -> exists fi', unit_sel (is_unit_fifo s') u !! k = Some fi' /\
    fifo_items fi' = fifo_items fi ++ sent_to u k (zip js (issue_pack rs <$> pick l (selection l s)));
  is_loaded : Forall (fun p => ie_src1_loaded p = true /\ ie_src2_loaded p = true) (issue_pack rs <$> pick l (selection l s));
  is_waits : is_inst_waiting s' = (if may_issue s then existsb serial (pick l (selection l s)) else true)
}.

Lemma issue_normal_steps rev s ids s2 q3 s4 s5 finish s6 q6 :
  (if may_issue s then
     if fifo_is_empty (iq_fifo (is_issue_q s)) then Some ([], s <| is_inst_waiting := false |>)
     else
       v ← issue_select sb efs cfp (s <| is_inst_waiting := false |>);
       s ← issue_output efs wfs cfp (upto ISSUE_WIDTH) (sv_items v) (Z.of_nat (length (sv_item_id_list v))) (s <| is_inst_waiting := false |>);
       Some (sv_item_id_list v, s)
   else Some ([], s)) = Some (ids, s2) ->
  issue_wake efs wfs ids (is_issue_q s2) = Some q3 ->
  s4 = (let s3 := s2 <| is_issue_q := q3 |> in if is_busy s3 then s3 else s3 <| is_busy := true |> <| is_last_index := 0 |>) ->
  issue_input f efs wfs (Z.to_nat (READREG_WIDTH - is_last_index s4)) rev s4 = Some (finish, s5) ->
  s6 = (if (finish : bool) then s5 <| is_busy := false |> <| is_last_index := 0 |> else s5) ->
  iq_sync (iq_compress_sync (is_issue_q s6) ids) = Some q6 ->
  issue_normal f sb efs wfs cfp rev s = Some (is_busy s6, s6 <| is_issue_q := q6 |>).
Proof.
  intros E1 E2 E3 E4 E5 E6. unfold issue_normal. fold (may_issue s). cbn zeta.
  change (is_issue_q (s <| is_inst_waiting := false |>)) with (is_issue_q s).
  rewrite E1. cbn [mbind option_bind]. rewrite E2. cbn [mbind option_bind]. cbn zeta in E3. rewrite <- E3, E4. cbn [mbind option_bind].
  by rewrite <- E5, E6.
Qed.

Lemma issue_cycle_ref port s l :
  issue_inv l s -> flushes cfp = false -> (l <> [] -> cf_enable cfp = true) ->
  Z.of_nat (length (port_get port)) = READREG_WIDTH -> Forall (op_ok f) (pending s (port_get port)) ->
  exists js taken rest s', issue_run f sb efs wfs cfp port s = Some (negb (bool_decide (rest = [])), s') /\
    issued (port_get port) l s js taken rest s'.
Proof.
  intros IV Hfl Hen Hlen Hops. set (rev := port_get port) in *. pose proof IV as [(b & st & W) Hq Hok U Hidx].
  destruct (issue_front_ref l b st s IV W Hen) as (js & s2 & Efront & Hjs & D & Hwait & _).
  set (ps := selection l s) in *. pose proof (selection_ordered l s) as Ho. fold ps in Ho.
  pose proof D as [U2 F2 Q2 B2 L2 _ _].
  destruct (issue_wake_ref efs wfs He Hw (is_issue_q s2) l b st ps) as (ws & Ewake & Hws); [by rewrite Q2|done|].
  rewrite Q2 in Ewake. set (q3 := (is_issue_q s) <| iq_sync_request_q ::= fun r => r ++ (set_request (iq_fifo (is_issue_q s)) b <$> ws) |>) in Ewake.
  set (s3 := s2 <| is_issue_q := q3 |>).
  set (s4 := if is_busy s3 then s3 else s3 <| is_busy := true |> <| is_last_index := 0 |>).
  set (i := Z.to_nat (is_last_index s4)).
  assert (is_last_index s4 = Z.of_nat i /\ (i <= Z.to_nat READREG_WIDTH)%nat /\ is_busy s4 = true /\ is_issue_q s4 = q3 /\
          is_unit_fifo s4 = is_unit_fifo s2 /\ is_unit_index s4 = is_unit_index s2 /\ is_inst_waiting s4 = is_inst_waiting s2 /\
          filter enabled (drop i rev) = pending s rev) as (Hi & Hile & Hb4 & Hq4 & Hf4 & Hx4 & Hw4 & Hpend).
  { unfold i, s4. unfold pending. change (is_busy s3) with (is_busy s2). change (is_last_index s3) with (is_last_index s2).
    rewrite B2. destruct (is_busy s) eqn:Eb; cbn; rewrite ?L2, ?B2, ?Eb.
    - specialize (Hidx eq_refl). split_and!; try done; lia.
    - by split_and!; try lia. }
  destruct (issue_input_ref f efs wfs He Hw Hf rev (Z.to_nat (READREG_WIDTH - is_last_index s4)) s4 l b st i)
    as (s5 & taken & rest & i' & Ein & (G1 & G2 & G3 & G4 & G5 & G6 & G7) & Hgroup & W5 & Hfull & Hi' & Hrest & Hile' & Hilt' & _).
  { by rewrite Hq4. }
  { done. }
  { lia. }
  { unfold READREG_WIDTH, RENAME_WIDTH in *. lia. }
  { by rewrite Hpend. }
  destruct (issue_sync_ref (is_issue_q s5) (iq_fifo (is_issue_q s)) l (entered f rs <$> taken) b st ps ws) as (q6 & Esync & W6 & Hq6); try done.
  { by rewrite G7, Hq4. }
  { rewrite G6, Hq4. unfold q3. cbn. by rewrite Hq. }
  set (s6 := if bool_decide (rest = []) then s5 <| is_busy := false |> <| is_last_index := 0 |> else s5).
  destruct (pending_rest s5 rev i' rest _ Hi' Hrest eq_refl) as [Hb6 Hp6]; [by rewrite G3|]. fold s6 in Hb6, Hp6.
  assert (is_issue_q s6 = is_issue_q s5 /\ is_unit_fifo s6 = is_unit_fifo s2 /\ is_unit_index s6 = is_unit_index s2 /\
          is_inst_waiting s6 = is_inst_waiting s2) as (Hq6' & Hf6 & Hx6 & Hw6).
  { unfold s6. destruct (bool_decide (rest = [])); cbn; rewrite ?G1, ?G2, ?G4, ?Hf4, ?Hx4, ?Hw4; done. }
  exists js, taken, rest, (s6 <| is_issue_q := q6 |>). split.
  - unfold issue_run. rewrite Hfl. cbn [negb]. fold rev. rewrite <- Hb6.
    apply (issue_normal_steps rev s (map (slot (iq_fifo (is_issue_q s)) b) ps) s2 q3 s4 s5 (bool_decide (rest = [])) s6 q6); try done.
    + by rewrite Q2.
    + by rewrite Hq6'.
  - split.
    + split; cbn [is_issue_q is_busy is_last_index upd].
      * by exists b, st.
      * done.
      * apply Forall_app. split.
        -- apply list.Forall_forall. intros t (t0 & -> & Ht0)%remove_at_elem%list_elem_of_fmap.
           apply wake_ok. by apply (proj1 (list.Forall_forall _ _) Hok).
        -- apply list.Forall_forall. intros t (op & -> & Hop)%list_elem_of_fmap.
           apply (entered_ok f). apply (proj1 (list.Forall_forall _ _) Hops). rewrite <- Hpend, Hgroup. apply elem_of_app. by left.
      * destruct U2 as [A1 A2 A3]. split; cbn [is_unit_fifo is_unit_index upd]; rewrite ?Hf6, ?Hx6; done.
      * rewrite Hb6. intros E%negb_true_iff%bool_decide_eq_false. unfold s6. rewrite bool_decide_false by done.
        rewrite Hi'. specialize (Hilt' E). lia.
    + by rewrite <- Hpend.
    + intros Hr. split; [|by rewrite (Hfull Hr), Hq4]. by apply Hp6.
    + done.
    + intros u k fi Hfi. cbn [is_unit_fifo upd]. rewrite Hf6. by apply F2.
    + apply list.Forall_forall. intros p (t & -> & Ht)%list_elem_of_fmap.
      destruct (selection_ready l s Hok) as (Hok' & Hrd & _). rewrite list.Forall_forall in Hok', Hrd.
      destruct (issue_pack_spec rs t (Hok' t Ht)) as (_ & _ & _ & -> & -> & _).
      apply (ready_loaded efs wfs He Hw Hag); auto.
    + cbn [is_inst_waiting upd]. rewrite Hw6, Hwait. unfold may_issue. by destruct (is_inst_waiting s).
Qed.
End cycle.

(** C17: a cycle of issue loses nothing and duplicates nothing.  Unless it is
    flushed, it runs without a fault and finds a unit for everything it selects:
    the selected elements leave the queue, one packet for each at the end of a
    queue of its kind of unit, with both operands present and the values that
    units and write-back broadcast in this cycle; the other elements keep their
    order and take the results they wait for; the instructions of the group
    enter behind them, in order and as many as there is room, and the others
    are offered again in the next cycle, while the stage stalls.  The invariant
    is kept. *)
Theorem issue_run_correct f sb efs wfs cfp port s l :
  length efs = Z.to_nat EXECUTE_UNIT_NUM -> length wfs = Z.to_nat EXECUTE_UNIT_NUM -> results_agree (results efs wfs) ->
  regfile_ok f -> issue_inv l s -> flushes cfp = false -> (l <> [] -> cf_enable cfp = true) ->
  Z.of_nat (length (port_get port)) = READREG_WIDTH -> Forall (op_ok f) (pending s (port_get port)) ->
  exists js taken rest s', issue_run f sb efs wfs cfp port s = Some (negb (bool_decide (rest = [])), s') /\
    issued f sb efs wfs cfp (port_get port) l s js taken rest s'.
Proof. intros He Hw Hag Hf. by apply issue_cycle_ref. Qed.


(** C19: the loops of issue end.  The two [do ... while] loops that walk over the
    ids of the queue, the one that selects and the one that wakes up, come to an
    end within as many iterations as the queue has elements, and do not depend
    on how many more they were given; the round-robin search, a [while(1)],
    comes to an end within one round, even when every queue of the units is
    full. *)
Theorem issue_loops_end sb efs wfs cfp s l b st fuel :
  length efs = Z.to_nat EXECUTE_UNIT_NUM -> length wfs = Z.to_nat EXECUTE_UNIT_NUM -> cf_enable cfp = true -> units_ok s ->
  window (iq_fifo (is_issue_q s)) l b st -> l <> [] -> (length l <= fuel)%nat ->
  let q := is_issue_q s in
  (exists v v', select_loop sb efs cfp fuel q (slot (iq_fifo q) b 0) (slot (iq_fifo q) b 0) (select_init s) = Some v /\
     issue_select sb efs cfp s = Some v' /\ sv_item_id_list v = sv_item_id_list v' /\
     exists q', wake_loop efs wfs fuel (sv_item_id_list v) (slot (iq_fifo q) b 0) (slot (iq_fifo q) b 0) q = Some q') /\
  forall u, exists r, dispatch_search (Z.to_nat (unit_cnt u)) (unit_sel (is_unit_fifo s) u) (unit_cnt u)
    (unit_sel (is_unit_index s) u) (unit_sel (is_unit_index s) u) = Some r.
Proof.
  intros He Hw Hen [U1 U2 U3] W Hl Hfuel q. split.
  - destruct (select_init_ref sb efs cfp He Hen s l b st fuel W Hl Hfuel U1) as (v & E & Hids & _).
    destruct (issue_select_ref sb efs cfp He Hen s l b st W Hl U1) as (v' & E' & Hids' & _).
    exists v, v'. split; [done|]. split; [done|]. rewrite Hids, Hids'. split; [done|].
    destruct (wake_loop_ref efs wfs He Hw q l b st (select_ref efs (cf_next_handle_rob_id cfp) (fifo_is_empty (sb_fifo sb)) (issue_room s) 0 false 0 l) fuel 0 W)
      as (ws & Ew & _); [apply (select_ref_ordered _ _ _ _ _ _ 0)|destruct l; cbn; [done|lia]|lia|]. by eexists.
  - intros u. pose proof (unit_cnt_range u).
    destruct (dispatch_search_total (unit_sel (is_unit_fifo s) u) (unit_cnt u) (unit_sel (is_unit_index s) u) 0 (Z.to_nat (unit_cnt u))) as [r Er];
      [apply U1|apply U3|lia..|]. rewrite Z.add_0_r, Z.mod_small in Er by apply U3. by exists r.
Qed.

(** A load, an addition that waits for register 40 and a multiplication that
    waits for 41 are in the queue, the addition's operand is computed in this
    cycle, and one more instruction arrives. *)
Definition issue_demo_item (u : op_unit_t) (rob_id phy : Z) (loaded : bool) (sub : sub_op_t) : issue_queue_item_t :=
  issue_queue_item_zero <| it_enable := true |> <| it_valid := true |> <| it_rob_id := rob_id |> <| it_rs1_need_map := true |>
    <| it_rs1_phy := phy |> <| it_src1_loaded := loaded |> <| it_src2_loaded := true |> <| it_op_unit := u |> <| it_sub_op := sub |>.

Definition issue_demo_list : list issue_queue_item_t :=
  [issue_demo_item unit_lsu 0 3 true (sub_lsu lsu_lw); issue_demo_item unit_alu 1 40 false (sub_alu alu_add);
   issue_demo_item unit_mul 2 41 false (sub_mul mul_mul)].

Definition issue_demo_fifo : fifo issue_execute_pack_t := fifo_new ([issue_execute_pack_zero], 0, false) 1.

Definition issue_demo : issue_world :=
  mk_issue_world (mk_per_unit [issue_demo_fifo; issue_demo_fifo] [issue_demo_fifo] [issue_demo_fifo] [issue_demo_fifo]
                    [issue_demo_fifo] [issue_demo_fifo; issue_demo_fifo])
    (mk_issue_queue (mk_fifo (issue_demo_list ++ [issue_queue_item_zero]) 4 3 false 0 false false 0 false) [])
    false false 0 0 (mk_per_unit 0 0 0 0 0 0) 0 0.

Definition issue_demo_efs : list execute_feedback_channel_t := mk_feedback true 40 7 :: repeat (mk_feedback false 0 0) 7.
Definition issue_demo_op : readreg_issue_op_info_t :=
  readreg_issue_op_info_zero <| ri_enable := true |> <| ri_rob_id := 3 |> <| ri_src1_loaded := true |> <| ri_src2_loaded := true |>.
Definition issue_demo_port : port readreg_issue_pack_t :=
  port_set (port_new readreg_issue_pack_zero) (<[1%nat := issue_demo_op]> readreg_issue_pack_zero).
Definition issue_demo_commit : commit_feedback_pack_t := commit_feedback_zero <| cf_enable := true |>.
Definition issue_demo_sb : store_buffer := store_buffer_new ([], 0, false) 0.

Lemma issue_demo_inv : issue_inv issue_demo_list issue_demo.
Proof.
  assert (fifo_ok issue_demo_fifo) as Hok by (apply (fifo_new_ok [issue_execute_pack_zero] 0 false); cbn; lia).
  split; try done.
  - exists 0%nat, false. split; cbn; try done; lia.
  - repeat constructor; cbn; try done; eauto.
  - split.
    + by intros [].
    + intros u k fi Hfi. assert (fi = issue_demo_fifo) as ->; [|done].
      destruct u; repeat (destruct k as [|k]; [by injection Hfi as <-|]); done.
    + by intros [].
Qed.

Lemma issue_demo_results : results_agree (results issue_demo_efs wb_feedback_pack_zero).
Proof. intros a v v' H1 H2. apply list_elem_of_singleton in H1, H2. congruence. Qed.

Lemma issue_demo_pending : Forall (op_ok (wb_phy_regfile wb_demo_world)) (pending issue_demo (port_get issue_demo_port)).
Proof.
  assert (pending issue_demo (port_get issue_demo_port) = [issue_demo_op]) as -> by reflexivity.
  constructor; [|done]. by split.
Qed.

Lemma issue_run_correct_witness :
  exists s', issue_run (wb_phy_regfile wb_demo_world) issue_demo_sb issue_demo_efs wb_feedback_pack_zero issue_demo_commit issue_demo_port issue_demo
      = Some (false, s') /\
    issue_inv [issue_demo_item unit_mul 2 41 false (sub_mul mul_mul); item_of issue_demo_op] s'.
Proof.
  destruct (issue_run_correct (wb_phy_regfile wb_demo_world) issue_demo_sb issue_demo_efs wb_feedback_pack_zero issue_demo_commit
              issue_demo_port issue_demo issue_demo_list) as (js & taken & rest & s' & E & [I1 I2 I3 _ _ _ _]).
  - reflexivity.
  - reflexivity.
  - exact issue_demo_results.
  - exact wb_demo_ok.
  - exact issue_demo_inv.
  - reflexivity.
  - reflexivity.
  - reflexivity.
  - exact issue_demo_pending.
  - assert ([issue_demo_op] = taken ++ rest) as Ep by (etrans; [|exact I2]; reflexivity). clear I2. rename Ep into I2.
    destruct taken as [|op taken]; cbn in I2.
    + subst rest. destruct (I3 ltac:(done)) as [_ H]. vm_compute in H. discriminate H.
    + injection I2 as <- E2. symmetry in E2. apply app_eq_nil in E2 as [-> ->]. exists s'. split; [exact E|]. exact I1.
Defined.


Lemma issue_loops_end_witness :
  exists v, select_loop issue_demo_sb issue_demo_efs issue_demo_commit 3 (is_issue_q issue_demo) 0 0 (select_init issue_demo) = Some v /\
    exists q', wake_loop issue_demo_efs wb_feedback_pack_zero 3 (sv_item_id_list v) 0 0 (is_issue_q issue_demo) = Some q'.
Proof.
  pose proof issue_demo_inv as [_ _ _ U _].
  destruct (issue_loops_end issue_demo_sb issue_demo_efs wb_feedback_pack_zero issue_demo_commit issue_demo issue_demo_list 0 false 3)
    as [(v & v' & E & _ & _ & q' & E') _].
  - reflexivity.
  - reflexivity.
  - reflexivity.
  - exact U.
  - split; cbn; try done; lia.
  - discriminate.
  - cbn. lia.
  - exists v. split; [exact E|]. exists q'. exact E'.
Defined.
