(* ===== verification/Fetch.v ===== *)
(** The fetch stage ([pipeline/fetch.cpp], [pipeline/fetch.h]): it reads up to
    [FETCH_WIDTH] instructions from the program counter on, up to the first
    jump, asks the branch predictor where to go on, and leaves a checkpoint for
    every prediction it follows.  A jump that is not predicted, or for which
    there is no checkpoint, stops fetch until commit has its outcome. *)

From Stdlib Require Import ZArith Lia.
From stdpp Require Import base numbers list option tactics.
From S2P Require Import Prelude Common Bitmap Fifo FifoIds CheckpointBuffer Bus PipelineCommon StoreBuffer Packs Isa Decode BranchPredictor Execute.

Local Open Scope Z_scope.

(** The stage with what it owns or changes; the last three fields are counters
    of [main.cpp]. *)
Record fetch_world := mk_fetch_world {
  fw_bus : bus;
  fw_fetch_decode_fifo : fifo fetch_decode_pack_t;
  fw_checkpoint_buffer : checkpoint_buffer;
  fw_branch_predictor : branch_predictor;
  fw_init_pc : Z;
  fw_pc : Z;
  fw_jump_wait : bool;
  fw_wait_first_memory_result : bool;
  fw_checkpoint_buffer_full : Z;
  fw_fetch_not_full : Z;
  fw_fetch_decode_fifo_full : Z
}.

#[export] Instance fetch_world_eta : Eta fetch_world := fun s =>
  mk_fetch_world (fw_bus s) (fw_fetch_decode_fifo s) (fw_checkpoint_buffer s) (fw_branch_predictor s) (fw_init_pc s)
    (fw_pc s) (fw_jump_wait s) (fw_wait_first_memory_result s) (fw_checkpoint_buffer_full s) (fw_fetch_not_full s)
    (fw_fetch_decode_fifo_full s).

Definition fetch_reset (s : fetch_world) : fetch_world :=
  s <| fw_pc := fw_init_pc s |> <| fw_jump_wait := false |> <| fw_wait_first_memory_result := true |>.

Definition checkpoint_buffer_full_add (s : fetch_world) : fetch_world :=
  s <| fw_checkpoint_buffer_full := u64 (fw_checkpoint_buffer_full s + 1) |>.
Definition fetch_not_full_add (s : fetch_world) : fetch_world :=
  s <| fw_fetch_not_full := u64 (fw_fetch_not_full s + 1) |>.
Definition fetch_decode_fifo_full_add (s : fetch_world) : fetch_world :=
  s <| fw_fetch_decode_fifo_full := u64 (fw_fetch_decode_fifo_full s + 1) |>.

(** [jump] and [fence_i] *)
Definition is_jump (opcode : Z) : bool :=
  (Z.land opcode 0x7f =? 0x6f) || (Z.land opcode 0x7f =? 0x67) || (Z.land opcode 0x7f =? 0x63) || (opcode =? 0x30200073).
Definition is_fence_i (opcode : Z) : bool :=
  (Z.land opcode 0x7f =? 0x0f) && (Z.land (shr32 opcode 12) 0x07 =? 0x01).

Section run.
(** The uninitialised checkpoint, the feedback of the stages behind, and
    [store_buffer->is_empty()]. *)
Context (mem : checkpoint_t) (decode_idle rename_idle sb_empty : bool) (cfp : commit_feedback_pack_t).

(** The branch [if(jump)]: the packet with the prediction, and the state. *)
Definition fetch_jump (cur_pc opcode : Z) (pack : fetch_decode_pack_t) (s : fetch_world)
    : option (fetch_decode_pack_t * fetch_world) :=
  '(prediction, bp) ← get_prediction (fw_branch_predictor s) cur_pc opcode;
  let s := s <| fw_branch_predictor := bp |> in
  match prediction with
  | Some (jump_result, jump_next_pc) =>
      cp ← bp_save bp mem cur_pc;
      '(valid, id, cb) ← cb_push (fw_checkpoint_buffer s) cp;
      let pack := pack <| fd_checkpoint_id_valid := valid |> <| fd_checkpoint_id := id |> in
      bp ← update_prediction_guess bp cur_pc opcode jump_result jump_next_pc;
      let s := s <| fw_checkpoint_buffer := cb |> <| fw_branch_predictor := bp |> in
      if negb valid then
        Some (pack, (checkpoint_buffer_full_add s) <| fw_jump_wait := true |> <| fw_pc := u32 (cur_pc + 4) |>)
      else
        Some (pack <| fd_predicted := true |> <| fd_predicted_jump := jump_result |> <| fd_predicted_next_pc := jump_next_pc |>,
              s <| fw_pc := if (jump_result : bool) then jump_next_pc else u32 (cur_pc + 4) |> <| fw_jump_wait := false |>)
  | None => Some (pack, s <| fw_jump_wait := true |> <| fw_pc := u32 (cur_pc + 4) |>)
  end.

(** [opcode], with the state after the access. *)
Definition fetch_word (cur_pc : Z) (s : fetch_world) : option (Z * fetch_world) :=
  if negb (bus_check_align cur_pc 4) then Some (0, s)
  else '(opcode, b) ← bus_read32 (fw_bus s) cur_pc; Some (opcode, s <| fw_bus := b |>).

(** One iteration; [false] is [break]. *)
Definition fetch_one (old_pc : Z) (i : nat) (s : fetch_world) : option (bool * fetch_world) :=
  if negb (fifo_is_full (fw_fetch_decode_fifo s)) then
    let cur_pc := u32 (old_pc + u32 (Z.of_nat i * 4)) in
    '(opcode, s) ← fetch_word cur_pc s;
    let jump := is_jump opcode in
    if is_fence_i opcode && (negb (Nat.eqb i 0) || negb decode_idle || negb rename_idle || cf_enable cfp || negb sb_empty)
    then Some (false, s)
    else
      '(pack, s) ← (if jump then fetch_jump cur_pc opcode fetch_decode_pack_zero s
                    else Some (fetch_decode_pack_zero, s <| fw_pc := u32 (cur_pc + 4) |>));
      let pack := pack <| fd_value := opcode |> <| fd_enable := true |> <| fd_pc := cur_pc |>
                       <| fd_has_exception := negb (bus_check_align cur_pc 4) |>
                       <| fd_exception_id := if negb (bus_check_align cur_pc 4) then instruction_address_misaligned
                                             else instruction_access_fault |>
                       <| fd_exception_value := cur_pc |> in
      '(_, f) ← fifo_push (fw_fetch_decode_fifo s) pack;
      let s := s <| fw_fetch_decode_fifo := f |> in
      if jump then Some (false, fetch_not_full_add s) else Some (true, s)
  else Some (true, fetch_decode_fifo_full_add s).

Fixpoint fetch_loop (n i : nat) (old_pc : Z) (s : fetch_world) : option fetch_world :=
  match n with
  | O => Some s
  | S n =>
      '(continue, s) ← fetch_one old_pc i s;
      if (continue : bool) then fetch_loop n (S i) old_pc s else Some s
  end.

(** The reads for the trace, which go through [read32] and its checks. *)
Fixpoint trace_reads (n i : nat) (old_pc : Z) (b : bus) : option bus :=
  match n with
  | O => Some b
  | S n => '(_, b) ← bus_read32 b (u32 (old_pc + u32 (Z.of_nat i * 4))); trace_reads n (S i) old_pc b
  end.

(** The object of the slave is taken for a memory: undefined for the other one. *)
Definition fetch_trace (old_pc : Z) (s : fetch_world) : option fetch_world :=
  b ← trace_reads (Z.to_nat FETCH_WIDTH) 0 old_pc (fw_bus s);
  b ← match bus_get_slave_obj b old_pc with
      | Some obj =>
          match sl_dev obj with
          | dev_memory _ => trace_reads (Z.to_nat FETCH_WIDTH) 0 old_pc b
          | dev_clint _ => None
          end
      | None => Some b
      end;
  b ← trace_reads (Z.to_nat FETCH_WIDTH) 0 old_pc b;
  Some (s <| fw_bus := b |>).

Definition fetch_run (s : fetch_world) : option fetch_world :=
  if fw_wait_first_memory_result s then Some (s <| fw_wait_first_memory_result := false |>)
  else if negb (flushes cfp) then
    if fw_jump_wait s then
      if cf_jump_enable cfp then
        let s := s <| fw_jump_wait := false |> in
        Some (if cf_jump cfp then s <| fw_pc := cf_next_pc cfp |> else s)
      else Some s
    else
      let old_pc := fw_pc s in
      s ← fetch_trace old_pc s;
      fetch_loop (Z.to_nat FETCH_WIDTH) 0 old_pc s
  else
    let s := s <| fw_fetch_decode_fifo ::= fifo_flush |> <| fw_jump_wait := false |> in
    Some (if cf_has_exception cfp then s <| fw_pc := cf_exception_pc cfp |>
          else if cf_jump_enable cfp then s <| fw_pc := cf_next_pc cfp |>
          else s).

End run.

(** * The path fetch follows

    [word] is what the bus reads at an address. *)

(** Where fetch goes on behind an instruction. *)
Definition fetch_next (p : fetch_decode_pack_t) : Z :=
  if fd_predicted p && fd_predicted_jump p then fd_predicted_next_pc p else u32 (fd_pc p + 4).

Fixpoint path (pc : Z) (ps : list fetch_decode_pack_t) (pc' : Z) : Prop :=
  match ps with
  | [] => pc' = pc
  | p :: ps => fd_pc p = pc /\ path (fetch_next p) ps pc'
  end.

(** The packet for the instruction [w] at [pc], without prediction. *)
Definition plain_pack (pc w : Z) : fetch_decode_pack_t :=
  mk_fetch_decode_pack_t pc w true (negb (bus_check_align pc 4))
    (if negb (bus_check_align pc 4) then instruction_address_misaligned else instruction_access_fault) pc false false 0 false 0.

(** [p] is that packet, up to the prediction. *)
Definition fetched_from (word : Z -> Z) (p : fetch_decode_pack_t) : Prop :=
  exists predicted jump next valid id,
    p = (plain_pack (fd_pc p) (word (fd_pc p))) <| fd_predicted := predicted |> <| fd_predicted_jump := jump |>
          <| fd_predicted_next_pc := next |> <| fd_checkpoint_id_valid := valid |> <| fd_checkpoint_id := id |>.

Section path.
Context (mem : checkpoint_t) (decode_idle rename_idle sb_empty : bool) (cfp : commit_feedback_pack_t).
Context (word : Z -> Z).

(** The address reads as [word] says and reading changes nothing. *)
Definition readable (b : bus) (pc : Z) : Prop :=
  bus_read32 b pc = Some (word pc, b) /\ (bus_check_align pc 4 = false -> word pc = 0).

(** [pc] with [i] instructions fetched before it: a fence.i that has to wait. *)
Definition fence_holds (i : nat) (pc : Z) : bool :=
  is_fence_i (word pc) && (negb (Nat.eqb i 0) || negb decode_idle || negb rename_idle || cf_enable cfp || negb sb_empty).

(** The predictor and the checkpoints behind the jump at [pc], with the packet. *)
Definition jump_outcome (pc : Z) (s s' : fetch_world) (p : fetch_decode_pack_t) : Prop :=
  exists prediction bp1, get_prediction (fw_branch_predictor s) pc (word pc) = Some (prediction, bp1) /\
  match prediction with
  | None => p = plain_pack pc (word pc) /\ fw_branch_predictor s' = bp1 /\ fw_checkpoint_buffer s' = fw_checkpoint_buffer s
  | Some (taken, next) =>
      update_prediction_guess bp1 pc (word pc) taken next = Some (fw_branch_predictor s') /\
      exists cp, bp_save bp1 mem pc = Some cp /\
      if decide (length (fifo_entries (cb_fifo (fw_checkpoint_buffer s))) = length (buffer (cb_fifo (fw_checkpoint_buffer s)))) then
        p = (plain_pack pc (word pc)) <| fd_checkpoint_id := wptr (cb_fifo (fw_checkpoint_buffer s)) |> /\
        fw_checkpoint_buffer s' = fw_checkpoint_buffer s
      else
        let id := wptr (cb_fifo (fw_checkpoint_buffer s)) in
        p = (plain_pack pc (word pc)) <| fd_predicted := true |> <| fd_predicted_jump := taken |> <| fd_predicted_next_pc := next |>
              <| fd_checkpoint_id_valid := true |> <| fd_checkpoint_id := id |> /\
        fifo_entries (cb_fifo (fw_checkpoint_buffer s')) = fifo_entries (cb_fifo (fw_checkpoint_buffer s)) ++ [(id, cp)] /\
        cb_get_item (fw_checkpoint_buffer s') id = Some cp
  end.

(** What a group fetched from the state [s] leaves; [ps] are its packets, [q]
    the queue to decode, [n] the slots and [i] the instructions before. *)
Record fetched (n i : nat) (q : queue fetch_decode_pack_t) (s s' : fetch_world) (ps : list fetch_decode_pack_t) : Prop := {
  fe_queue : fifo_refines (fw_fetch_decode_fifo s') (q_append q ps);
  fe_path : path (fw_pc s) ps (fw_pc s');
  fe_words : Forall (fetched_from word) ps;
  fe_bus : fw_bus s' = fw_bus s;
  fe_bp : bp_ok (fw_branch_predictor s');
  fe_cb : fifo_ok (cb_fifo (fw_checkpoint_buffer s'));
  fe_end :
    (* all the way to the end of the group, of the room, or to a fence.i *)
    (Forall (fun p => is_jump (fd_value p) = false) ps /\ fw_jump_wait s' = false /\
     fw_branch_predictor s' = fw_branch_predictor s /\ fw_checkpoint_buffer s' = fw_checkpoint_buffer s /\
     (length ps = n \/ (q_used q + length ps)%nat = q_cap q \/
      fence_holds (i + length ps) (fw_pc s') = true)) \/
    (* or to a jump *)
    (exists init p, ps = init ++ [p] /\ Forall (fun p => is_jump (fd_value p) = false) init /\ is_jump (fd_value p) = true /\
     jump_outcome (fd_pc p) s s' p /\ fw_jump_wait s' = negb (fd_predicted p))
}.

Lemma fetch_word_ref s pc : readable (fw_bus s) pc -> fetch_word pc s = Some (word pc, s).
Proof.
  intros [E H]. unfold fetch_word. destruct (bus_check_align pc 4); cbn [negb]; [|by rewrite H].
  rewrite E. cbn [mbind option_bind]. by destruct s.
Qed.

Lemma plain_pack_fetched pc predicted jump next valid id :
  fetched_from word ((plain_pack pc (word pc)) <| fd_predicted := predicted |> <| fd_predicted_jump := jump |>
    <| fd_predicted_next_pc := next |> <| fd_checkpoint_id_valid := valid |> <| fd_checkpoint_id := id |>).
Proof. by exists predicted, jump, next, valid, id. Qed.

Lemma cb_full_ref cb : fifo_ok (cb_fifo cb) ->
  fifo_is_full (cb_fifo cb) = bool_decide (length (fifo_entries (cb_fifo cb)) = length (buffer (cb_fifo cb))).
Proof. intros (l & b & st & W). by rewrite (window_full W), (window_entries _ _ _ _ W), length_imap. Qed.

(** The jump of a group: the packet and the state, before the packet is pushed. *)
Lemma fetch_jump_ref pc s :
  bp_ok (fw_branch_predictor s) -> fifo_ok (cb_fifo (fw_checkpoint_buffer s)) -> is_u32 pc ->
  exists pack s1, fetch_jump mem pc (word pc) fetch_decode_pack_zero s = Some (pack, s1) /\
    let p := pack <| fd_value := word pc |> <| fd_enable := true |> <| fd_pc := pc |>
                  <| fd_has_exception := negb (bus_check_align pc 4) |>
                  <| fd_exception_id := if negb (bus_check_align pc 4) then instruction_address_misaligned else instruction_access_fault |>
                  <| fd_exception_value := pc |> in
    jump_outcome pc s s1 p /\ fetched_from word p /\ fw_pc s1 = fetch_next p /\ fw_jump_wait s1 = negb (fd_predicted p) /\
    fw_bus s1 = fw_bus s /\ fw_fetch_decode_fifo s1 = fw_fetch_decode_fifo s /\
    bp_ok (fw_branch_predictor s1) /\ fifo_ok (cb_fifo (fw_checkpoint_buffer s1)).
Proof.
  intros Hbp Hcb Hpc. unfold fetch_jump, jump_outcome.
  destruct (prediction_ok (fw_branch_predictor s) pc (word pc) Hbp) as (r & bp1 & E & Hbp1). rewrite E. cbn [mbind option_bind].
  destruct r as [[taken next]|].
  - destruct (save_ok bp1 Hbp1 mem pc) as (cp & Ecp & _). destruct (guess_ok bp1 Hbp1 pc (word pc) taken next) as (bp2 & Eg & Hbp2).
    rewrite Ecp. cbn [mbind option_bind fw_checkpoint_buffer upd]. unfold cb_push. set (cb := fw_checkpoint_buffer s) in *.
    pose proof (cb_full_ref cb Hcb) as Hfull. destruct (fifo_is_full (cb_fifo cb)) eqn:Ef.
    + symmetry in Hfull. apply bool_decide_eq_true in Hfull.
      assert (fifo_push (cb_fifo cb) cp = Some (false, cb_fifo cb)) as -> by (unfold fifo_push; by rewrite Ef).
      cbn [mbind option_bind]. rewrite Eg. cbn [mbind option_bind negb].
      assert (cb <| cb_fifo := cb_fifo cb |> = cb) as Hid by (by destruct cb).
      do 2 eexists. split; [reflexivity|]. cbn zeta. split_and!; try done.
      * exists (Some (taken, next)), bp1. split; [done|]. cbn. split; [done|]. exists cp. split; [done|].
        rewrite decide_True by done. by rewrite Hid.
      * exact (plain_pack_fetched pc false false 0 false (wptr (cb_fifo cb))).
    + symmetry in Hfull. apply bool_decide_eq_false in Hfull.
      destruct (fifo_entries_push (cb_fifo cb) cp Hcb Ef) as (f' & Ep & Hok' & Hent & _). rewrite Ep. cbn [mbind option_bind].
      rewrite Eg. cbn [mbind option_bind negb]. do 2 eexists. split; [reflexivity|]. cbn zeta. split_and!; try done.
      * exists (Some (taken, next)), bp1. split; [done|]. cbn. split; [done|]. exists cp. split; [done|].
        rewrite decide_False by done. split_and!; [done|done|].
        unfold cb_get_item. cbn. apply (fifo_entries_get f' (wptr (cb_fifo cb)) cp Hok'). rewrite Hent, elem_of_app. right. left.
      * exact (plain_pack_fetched pc true taken next true (wptr (cb_fifo cb))).
  - do 2 eexists. split; [reflexivity|]. cbn zeta. split_and!; try done.
    + by exists None, bp1.
    + exact (plain_pack_fetched pc false false 0 false 0).
Qed.

(** An instruction that is not a jump. *)
Lemma fetch_one_plain old i s q :
  let pc := u32 (old + u32 (Z.of_nat i * 4)) in
  fifo_refines (fw_fetch_decode_fifo s) q -> q_stale q = false -> q_used q <> q_cap q -> readable (fw_bus s) pc ->
  fence_holds i pc = false -> is_jump (word pc) = false ->
  exists s', fetch_one mem decode_idle rename_idle sb_empty cfp old i s = Some (true, s') /\
    fifo_refines (fw_fetch_decode_fifo s') (q_append q [plain_pack pc (word pc)]) /\ fw_pc s' = u32 (pc + 4) /\
    fw_bus s' = fw_bus s /\ fw_branch_predictor s' = fw_branch_predictor s /\
    fw_checkpoint_buffer s' = fw_checkpoint_buffer s /\ fw_jump_wait s' = fw_jump_wait s.
Proof.
  intros pc (b & st & W) Hst Hroom Hr Hf Hj. unfold fetch_one. rewrite (repr_is_full W) by done.
  rewrite bool_decide_false by done. cbn [negb]. fold pc. rewrite fetch_word_ref by done. cbn [mbind option_bind].
  unfold fence_holds in Hf. rewrite Hf, Hj. cbn [mbind option_bind fw_fetch_decode_fifo upd].
  destruct (repr_push W (plain_pack pc (word pc)) Hst) as (f' & E & W'). unfold q_push in E, W'.
  rewrite decide_False in E, W' by done. cbn [fst snd] in E, W'.
  change (fifo_push _ _) with (fifo_push (fw_fetch_decode_fifo s) (plain_pack pc (word pc))).
  rewrite E. cbn [mbind option_bind]. eexists. split; [reflexivity|]. cbn. split_and!; try done. by exists b, st.
Qed.

(** A jump: it ends the group. *)
Lemma fetch_one_jump old i s q :
  let pc := u32 (old + u32 (Z.of_nat i * 4)) in
  fifo_refines (fw_fetch_decode_fifo s) q -> q_stale q = false -> q_used q <> q_cap q -> readable (fw_bus s) pc ->
  bp_ok (fw_branch_predictor s) -> fifo_ok (cb_fifo (fw_checkpoint_buffer s)) ->
  fence_holds i pc = false -> is_jump (word pc) = true ->
  exists s' p, fetch_one mem decode_idle rename_idle sb_empty cfp old i s = Some (false, s') /\
    fd_pc p = pc /\ fetched_from word p /\ jump_outcome pc s s' p /\
    fifo_refines (fw_fetch_decode_fifo s') (q_append q [p]) /\ fw_pc s' = fetch_next p /\
    fw_bus s' = fw_bus s /\ bp_ok (fw_branch_predictor s') /\ fifo_ok (cb_fifo (fw_checkpoint_buffer s')) /\
    fw_jump_wait s' = negb (fd_predicted p).
Proof.
  intros pc (b & st & W) Hst Hroom Hr Hbp Hcb Hf Hj. unfold fetch_one. rewrite (repr_is_full W) by done.
  rewrite bool_decide_false by done. cbn [negb]. fold pc. rewrite fetch_word_ref by done. cbn [mbind option_bind].
  unfold fence_holds in Hf. rewrite Hf, Hj.
  destruct (fetch_jump_ref pc s Hbp Hcb) as (pack & s1 & E1 & Hjo & Hff & Hpc & Hw & Hb & Hfd & Hbp1 & Hcb1); [apply u32_range|].
  rewrite E1. cbn [mbind option_bind]. cbn zeta in Hjo, Hff, Hpc, Hw. rewrite Hfd.
  match type of Hff with fetched_from _ ?p => set (pk := p) in * end.
  destruct (repr_push W pk Hst) as (f' & E & W'). unfold q_push in E, W'.
  rewrite decide_False in E, W' by done. cbn [fst snd] in E, W'. rewrite E. cbn [mbind option_bind].
  eexists _, pk. split; [reflexivity|]. cbn. split_and!; try done. by exists b, st.
Qed.

Lemma fetch_one_full old i s q :
  fifo_refines (fw_fetch_decode_fifo s) q -> q_stale q = false -> q_used q = q_cap q ->
  fetch_one mem decode_idle rename_idle sb_empty cfp old i s = Some (true, fetch_decode_fifo_full_add s).
Proof.
  intros (b & st & W) Hst Hroom. unfold fetch_one. rewrite (repr_is_full W) by done. by rewrite bool_decide_true by done.
Qed.

Lemma fetch_one_fence old i s q :
  let pc := u32 (old + u32 (Z.of_nat i * 4)) in
  fifo_refines (fw_fetch_decode_fifo s) q -> q_stale q = false -> q_used q <> q_cap q -> readable (fw_bus s) pc ->
  fence_holds i pc = true ->
  fetch_one mem decode_idle rename_idle sb_empty cfp old i s = Some (false, s).
Proof.
  intros pc (b & st & W) Hst Hroom Hr Hf. unfold fetch_one. rewrite (repr_is_full W) by done.
  rewrite bool_decide_false by done. cbn [negb]. fold pc. rewrite fetch_word_ref by done. cbn [mbind option_bind].
  unfold fence_holds in Hf. by rewrite Hf.
Qed.

(** With a full queue the rest of the group counts the lost slots. *)
Lemma fetch_loop_full n i old s q :
  fifo_refines (fw_fetch_decode_fifo s) q -> q_stale q = false -> q_used q = q_cap q ->
  exists c, fetch_loop mem decode_idle rename_idle sb_empty cfp n i old s = Some (s <| fw_fetch_decode_fifo_full := c |>).
Proof.
  revert i s. induction n as [|n IH]; intros i s Rq Hst Hfull; cbn [fetch_loop].
  - exists (fw_fetch_decode_fifo_full s). by destruct s.
  - rewrite (fetch_one_full old i s q) by done. cbn [mbind option_bind].
    destruct (IH (S i) (fetch_decode_fifo_full_add s)) as [c ->]; [done..|]. by exists c.
Qed.

Lemma q_append_cons {T} (q : queue T) x l : q_append (q_append q [x]) l = q_append q (x :: l).
Proof. unfold q_append. cbn. by rewrite <- app_assoc. Qed.

Lemma q_used_append {T} (q : queue T) l : q_used (q_append q l) = (q_used q + length l)%nat.
Proof. unfold q_used. cbn. rewrite length_app. lia. Qed.

Lemma next_slot old i : u32 (u32 (old + u32 (Z.of_nat i * 4)) + 4) = u32 (old + u32 (Z.of_nat (S i) * 4)).
Proof.
  unfold u32. rewrite Zplus_mod_idemp_l, Zplus_mod_idemp_r.
  rewrite <- Z.add_assoc, (Z.add_comm _ 4), Z.add_assoc, Zplus_mod_idemp_r. f_equal. lia.
Qed.

(** Nothing more is fetched. *)
Lemma fetched_none n i q s s' :
  fifo_refines (fw_fetch_decode_fifo s') q -> bp_ok (fw_branch_predictor s) -> fifo_ok (cb_fifo (fw_checkpoint_buffer s)) ->
  fw_jump_wait s = false -> fw_pc s' = fw_pc s -> fw_bus s' = fw_bus s -> fw_jump_wait s' = fw_jump_wait s ->
  fw_branch_predictor s' = fw_branch_predictor s -> fw_checkpoint_buffer s' = fw_checkpoint_buffer s ->
  n = O \/ q_used q = q_cap q \/ fence_holds i (fw_pc s) = true -> fetched n i q s s' [].
Proof.
  intros Rq Hbp Hcb Hw Epc Eb Ew Ebp Ecb Hend. split; [by rewrite q_append_nil|done|constructor|done|by rewrite Ebp|by rewrite Ecb|].
  left. split_and!; [constructor|by rewrite Ew|done|done|]. cbn [length]. rewrite !Nat.add_0_r, Epc. destruct Hend as [->|[]]; auto.
Qed.

(** An instruction before a group. *)
Lemma fetched_cons n i q s s1 s' ps :
  let p := plain_pack (fw_pc s) (word (fw_pc s)) in
  fw_pc s1 = u32 (fw_pc s + 4) -> fw_bus s1 = fw_bus s -> fw_branch_predictor s1 = fw_branch_predictor s ->
  fw_checkpoint_buffer s1 = fw_checkpoint_buffer s -> is_jump (word (fw_pc s)) = false ->
  fetched n (S i) (q_append q [p]) s1 s' ps -> fetched (S n) i q s s' (p :: ps).
Proof.
  intros p Epc Eb Ebp Ecb Hj [Fq Fp Fw Fb Fbp Fcb Fe]. split; try done.
  - by rewrite <- q_append_cons.
  - split; [done|]. change (fetch_next p) with (u32 (fw_pc s + 4)). by rewrite <- Epc.
  - constructor; [|done]. exact (plain_pack_fetched (fw_pc s) false false 0 false 0).
  - by rewrite Fb.
  - destruct Fe as [(H1 & H2 & H3 & H4 & H5)|(init & pj & -> & H1 & H2 & H3 & H4)].
    + left. rewrite H3, H4. split_and!; [by constructor|done..|]. rewrite q_used_append in H5. cbn [length q_cap q_append] in *.
      replace (i + S (length ps))%nat with (S i + length ps)%nat by lia.
      replace (q_used q + S (length ps))%nat with (q_used q + 1 + length ps)%nat by lia. destruct H5 as [->|[]]; auto.
    + right. exists (p :: init), pj. split_and!; try done; [by constructor|].
      unfold jump_outcome in *. by rewrite Ebp, Ecb in H3.
Qed.

Lemma fetch_loop_path n i old s q :
  fifo_refines (fw_fetch_decode_fifo s) q -> q_stale q = false ->
  bp_ok (fw_branch_predictor s) -> fifo_ok (cb_fifo (fw_checkpoint_buffer s)) -> fw_jump_wait s = false ->
  fw_pc s = u32 (old + u32 (Z.of_nat i * 4)) ->
  (forall k, (i <= k < i + n)%nat -> readable (fw_bus s) (u32 (old + u32 (Z.of_nat k * 4)))) ->
  exists s' ps, fetch_loop mem decode_idle rename_idle sb_empty cfp n i old s = Some s' /\ fetched n i q s s' ps.
Proof.
  revert i s q. induction n as [|n IH]; intros i s q Rq Hst Hbp Hcb Hw Hpc Hr.
  { exists s, []. split; [done|]. apply fetched_none; try done. by left. }
  destruct (decide (q_used q = q_cap q)) as [Hfull|Hroom].
  { destruct (fetch_loop_full (S n) i old s q Rq Hst Hfull) as [c ->]. eexists _, []. split; [reflexivity|].
    apply fetched_none; try done. by right; left. }
  assert (readable (fw_bus s) (u32 (old + u32 (Z.of_nat i * 4)))) as Hri by (apply Hr; lia).
  cbn [fetch_loop]. destruct (fence_holds i (fw_pc s)) eqn:Hf; [|destruct (is_jump (word (fw_pc s))) eqn:Hj]; rewrite Hpc in *.
  - rewrite (fetch_one_fence old i s q) by done. cbn [mbind option_bind]. exists s, []. split; [done|].
    apply fetched_none; try done. right; right. by rewrite Hpc.
  - destruct (fetch_one_jump old i s q) as (s' & p & -> & Ep & Hff & Ho & Rq' & Epc & Eb & Hbp' & Hcb' & Hw'); [done..|].
    cbn [mbind option_bind]. exists s', [p]. split; [done|]. split; try done.
    + by rewrite Hpc.
    + by constructor.
    + right. exists [], p. rewrite Ep. split_and!; try done. destruct Hff as (? & ? & ? & ? & ? & ->). cbn. by rewrite Ep.
  - destruct (fetch_one_plain old i s q) as (s1 & -> & Rq1 & Epc & Eb & Ebp & Ecb & Ew); [done..|].
    cbn [mbind option_bind]. rewrite next_slot in Epc.
    destruct (IH (S i) s1 (q_append q [plain_pack (fw_pc s) (word (fw_pc s))])) as (s' & ps & -> & Hps); try done.
    { by rewrite Hpc. } { by rewrite Ebp. } { by rewrite Ecb. } { by rewrite Ew. }
    { intros k Hk. rewrite Eb. apply Hr. lia. }
    exists s', (plain_pack (fw_pc s) (word (fw_pc s)) :: ps). split; [done|].
    apply (fetched_cons n i q s s1); try done; rewrite Hpc; [by rewrite next_slot|done].
Qed.

Lemma trace_reads_ok n i old b :
  (forall k, (i <= k < i + n)%nat -> readable b (u32 (old + u32 (Z.of_nat k * 4)))) -> trace_reads n i old b = Some b.
Proof.
  revert i. induction n as [|n IH]; intros i Hr; [done|]. cbn [trace_reads].
  destruct (Hr i) as [-> _]; [lia|]. cbn [mbind option_bind]. apply IH. intros k Hk. apply Hr. lia.
Qed.

End path.

(** * Fetching from a memory *)

Definition bus_word (b : bus) (a : Z) : Z := from_option fst 0 (bus_read32 b a).

(** An address fetch can read: an aligned one of a memory, or one where nothing
    is mapped, which reads as 0. *)
Definition fetchable (b : bus) (a : Z) : Prop :=
  (bus_check_align a 4 = true /\ memory_access b W32 a) \/ find_slave_info b a = -1.

Lemma fetchable_readable b a : bus_ok b -> fetchable b a -> readable (bus_word b) b a.
Proof.
  intros Hok [[Hal Hm]|Hno]; unfold readable, bus_word, bus_read32.
  - destruct (bus_read_memory b W32 a Hok Hm) as (x & E & _). by rewrite E, Hal.
  - unfold bus_read. by rewrite Hno.
Qed.

(** The object at such an address is a memory, if there is one. *)
Lemma fetchable_object b a : bus_ok b -> fetchable b a ->
  match bus_get_slave_obj b a with Some obj => exists mem, sl_dev obj = dev_memory mem | None => True end.
Proof.
  intros Hok [[_ (k & s & mem & Hk & Hd & H1 & H2 & _)]|Hno]; unfold bus_get_slave_obj.
  - rewrite (find_slave_in b a k s) by (done || unfold in_region; cbn in H2; lia).
    destruct (Z.leb_spec 0 (Z.of_nat k)); [|lia]. rewrite arr_get_lookup, Nat2Z.id, Hk by lia. cbn. by exists mem.
  - by rewrite Hno.
Qed.

Lemma fetch_trace_ok s pc :
  bus_ok (fw_bus s) -> (forall k, (k < 4)%nat -> fetchable (fw_bus s) (u32 (pc + u32 (Z.of_nat k * 4)))) -> is_u32 pc ->
  fetch_trace pc s = Some s.
Proof.
  intros Hok Hf Hpc. unfold fetch_trace.
  assert (trace_reads (Z.to_nat FETCH_WIDTH) 0 pc (fw_bus s) = Some (fw_bus s)) as E.
  { apply (trace_reads_ok (bus_word (fw_bus s))). intros k Hk. apply fetchable_readable; [done|]. apply Hf. change (Z.to_nat FETCH_WIDTH) with 4%nat in Hk. lia. }
  rewrite E. cbn [mbind option_bind].
  assert (fetchable (fw_bus s) pc) as H0.
  { specialize (Hf 0%nat ltac:(lia)). cbn in Hf. by rewrite Z.add_0_r, u32_small in Hf. }
  pose proof (fetchable_object _ _ Hok H0) as Ho. destruct (bus_get_slave_obj (fw_bus s) pc) as [obj|].
  - destruct Ho as [m ->]. rewrite E. cbn [mbind option_bind]. rewrite E. cbn. by destruct s.
  - cbn [mbind option_bind]. rewrite E. cbn. by destruct s.
Qed.

(** C21: a cycle of fetch.  Unless commit redirects it or it waits for a jump,
    fetch appends to the queue to decode a run of the program: the packets hold
    the words of the memory at consecutive addresses from the program counter
    on, and the program counter is left where the last packet says to go on.
    The run ends at the width of the stage, where the queue is full, before a
    fence.i that is not first or finds the pipeline or the store buffer busy, or
    at the first jump.  A jump carries what the predictor says; only when it
    predicts and there is room for a checkpoint of the predictor, stored under
    the id in the packet, does fetch go on along the prediction, otherwise it
    waits for the outcome.  The memory is not changed. *)
Theorem fetch_run_path mem decode_idle rename_idle sb_empty cfp s q :
  bus_ok (fw_bus s) -> is_u32 (fw_pc s) ->
  (forall k, (k < 4)%nat -> fetchable (fw_bus s) (u32 (fw_pc s + u32 (Z.of_nat k * 4)))) ->
  fifo_refines (fw_fetch_decode_fifo s) q -> q_stale q = false ->
  bp_ok (fw_branch_predictor s) -> fifo_ok (cb_fifo (fw_checkpoint_buffer s)) ->
  fw_wait_first_memory_result s = false -> flushes cfp = false -> fw_jump_wait s = false ->
  exists s' ps, fetch_run mem decode_idle rename_idle sb_empty cfp s = Some s' /\
    fetched mem decode_idle rename_idle sb_empty cfp (bus_word (fw_bus s)) (Z.to_nat FETCH_WIDTH) 0 q s s' ps.
Proof.
  intros Hok Hpc Hf Rq Hst Hbp Hcb Hfirst Hfl Hw. unfold fetch_run. rewrite Hfirst, Hfl, Hw. cbn [negb].
  rewrite fetch_trace_ok by done. cbn [mbind option_bind].
  apply fetch_loop_path; try done.
  - cbn. by rewrite Z.add_0_r, u32_small.
  - intros k Hk. apply fetchable_readable; [done|]. apply Hf. change (Z.to_nat FETCH_WIDTH) with 4%nat in Hk. lia.
Qed.

(** C30: a misaligned program counter inside a mapped region ends the program
    with a failed assertion: the reads for the trace come before the check that
    turns it into an exception of the instruction. *)
Theorem fetch_misaligned_fails mem decode_idle rename_idle sb_empty cfp s k sl :
  bus_ok (fw_bus s) -> slave_info_list (fw_bus s) !! k = Some sl -> in_region sl (fw_pc s) -> si_base sl mod 4 = 0 ->
  is_u32 (fw_pc s) -> bus_check_align (fw_pc s) 4 = false ->
  fw_wait_first_memory_result s = false -> flushes cfp = false -> fw_jump_wait s = false ->
  fetch_run mem decode_idle rename_idle sb_empty cfp s = None.
Proof.
  intros Hok Hk Hr Hb Hpc Hal Hfirst Hfl Hw. unfold fetch_run. rewrite Hfirst, Hfl, Hw. cbn [negb].
  assert (bus_read32 (fw_bus s) (fw_pc s) = None) as E.
  { assert (slave_ok sl) as (S1 & S2 & S3 & S4 & S5 & S6 & S7) by (by apply (Forall_lookup_1 _ _ _ _ (bus_slaves _ Hok) Hk)).
    unfold bus_read32, bus_read. rewrite (find_slave_in _ _ k sl) by done.
    destruct (Z.leb_spec 0 (Z.of_nat k)); [|lia]. rewrite arr_get_lookup, Nat2Z.id, Hk by lia. cbn [mbind option_bind].
    unfold in_region in Hr. rewrite u32_small by lia. unfold slave_read, slave_check. rewrite S5. cbn [negb width_bytes].
    unfold bus_check_align in Hal. apply Z.eqb_neq in Hal. change (u32 (4 - 1)) with (2 ^ 2 - 1) in *. rewrite land_low in * by lia.
    destruct (Z.eqb_spec ((fw_pc s - si_base sl) mod 2 ^ 2) 0) as [H0|]; [|done].
    exfalso. apply Hal. change (2 ^ 2) with 4 in *.
    rewrite <- H0, Zminus_mod, Hb, Z.sub_0_r, Z.mod_mod by lia. done. }
  unfold fetch_trace. change (Z.to_nat FETCH_WIDTH) with 4%nat. cbn [trace_reads].
  change (u32 (Z.of_nat 0 * 4)) with 0. rewrite Z.add_0_r, (u32_small (fw_pc s)) by done. by rewrite E.
Qed.

(** A loop of two instructions in a memory of four words; the queue to decode
    has room for three packets. *)
Definition word_bytes (w : Z) : list Z := [byte 0 w; byte 1 w; byte 2 w; byte 3 w].

Definition bus_loop : bus :=
  mk_bus [] [mk_slave_info 0x80000000 16 (mk_slave 16 false false
    (dev_memory (word_bytes (encode (OPIMM ADDI 5 5 1)) ++ word_bytes (encode (JAL 0 (-4))) ++ repeat 0 8)))].

Definition fetch_demo_world (pc : Z) : fetch_world :=
  mk_fetch_world bus_loop (mk_fifo (repeat fetch_decode_pack_zero 3) 3 0 false 0 false false 0 false)
    (mk_checkpoint_buffer (mk_fifo (repeat cp_demo 2) 2 0 false 0 false false 0 false) []) bp_demo 0x80000000 pc false false 0 0 0.

Lemma bus_loop_ok : bus_ok bus_loop.
Proof.
  split.
  - repeat constructor; cbn; lia || done.
  - intros [|i] [|j] si sj a Hi Hj; cbn in Hi, Hj; simplify_eq; done.
Qed.

Lemma bus_loop_fetchable a :
  a = 0x80000000 \/ a = 0x80000004 \/ a = 0x80000008 \/ a = 0x8000000c -> fetchable bus_loop a.
Proof.
  intros Ha. left. split; [by destruct Ha as [->|[->|[->| ->]]]|]. exists 0%nat. eexists _, _.
  split; [reflexivity|]. split; [reflexivity|]. cbn [si_base si_size width_bytes].
  destruct Ha as [->|[->|[->| ->]]]; split_and!; lia || reflexivity.
Qed.

Lemma fetch_run_path_witness :
  exists s' ps, fetch_run cp_demo true true true no_feedback (fetch_demo_world 0x80000000) = Some s' /\
    fifo_refines (fw_fetch_decode_fifo s') (mk_queue 3 [] ps false false) /\ path 0x80000000 ps 0x80000000 /\
    fw_jump_wait s' = false.
Proof.
  destruct (fetch_run_path cp_demo true true true no_feedback (fetch_demo_world 0x80000000) (mk_queue 3 [] [] false false))
    as (s' & ps & E & [Fq Fp _ _ _ _ _]); try reflexivity.
  - exact bus_loop_ok.
  - unfold is_u32. cbn. lia.
  - intros k Hk. apply bus_loop_fetchable. do 4 (destruct k as [|k]; [vm_compute; auto|]). lia.
  - exists 0%nat, false. split; cbn; try done; lia.
  - apply bp_new_ok; [apply zeros_ok; reflexivity|reflexivity].
  - exists [], 0%nat, false. split; cbn; try done; lia.
  - assert (fw_pc <$> fetch_run cp_demo true true true no_feedback (fetch_demo_world 0x80000000) = Some 0x80000000) as H1 by (vm_compute; reflexivity).
    assert (fw_jump_wait <$> fetch_run cp_demo true true true no_feedback (fetch_demo_world 0x80000000) = Some false) as H2 by (vm_compute; reflexivity).
    rewrite E in H1, H2. injection H1 as H1. injection H2 as H2.
    exists s', ps. split_and!; [exact E|exact Fq| |exact H2]. rewrite <- H1 at 2. exact Fp.
Defined.

Lemma fetch_misaligned_fails_witness :
  fetch_run cp_demo true true true no_feedback (fetch_demo_world 0x80000002) = None.
Proof.
  eapply (fetch_misaligned_fails cp_demo true true true no_feedback (fetch_demo_world 0x80000002) 0); try reflexivity.
  - exact bus_loop_ok.
  - unfold in_region. cbn. lia.
  - unfold is_u32. cbn. lia.
Defined.
