(* ===== verification/Core.v ===== *)
(** The core ([top_source/main.cpp]): its components and stages, [reset], and
    one cycle of [run], in which the stages run from the last to the first and
    the components then take over what was requested of them. *)

From Stdlib Require Import ZArith Lia.
From stdpp Require Import base numbers list option tactics gmap.
From S2P Require Import Prelude Common Bitmap Fifo FifoIds IdQueue IssueQueue CheckpointBuffer Ras Rat Regfile CsrFile InterruptInterface Bus Rob PipelineCommon StoreBuffer Packs Isa Decode BranchPredictor Execute ExecuteBru ExecuteCsr ExecuteLsu WriteBack ReadReg Rename Commit Issue Fetch.

Local Open Scope Z_scope.

(** * The state

    [co_commit] holds the commit stage and the components it reaches, which are
    also those of the other stages; [co_issue] the issue stage and the queues of
    the units.  The interruptor is the second device of the bus. *)
Record core := mk_core {
  co_commit : commit_world;
  co_bus : bus;
  co_store_buffer : store_buffer;
  co_fetch_decode_fifo : fifo fetch_decode_pack_t;
  co_decode_rename_fifo : fifo decode_rename_pack_t;
  co_rename_readreg_port : port rename_readreg_pack_t;
  co_readreg_issue_port : port readreg_issue_pack_t;
  co_issue : issue_world;
  co_wb_port : per_unit (list (port execute_wb_pack_t));
  co_wb_commit_port : port wb_commit_pack_t;
  (* fetch *)
  co_init_pc : Z;
  co_pc : Z;
  co_jump_wait : bool;
  co_wait_first_memory_result : bool;
  (* rename *)
  co_rename_busy : bool;
  co_rename_rev_pack : decode_rename_pack_t;
  (* the CSR units and the load/store units *)
  co_csr_rev_pack : list issue_execute_pack_t;
  co_lsu_hold : list (bool * issue_execute_pack_t);
  (* counters *)
  co_cpu_clock_cycle : Z;
  co_committed_instruction_num : Z;
  co_fetch_decode_fifo_full : Z;
  co_decode_rename_fifo_full : Z;
  co_checkpoint_buffer_full : Z;
  co_rob_full : Z;
  co_phy_regfile_full : Z;
  co_fetch_not_full : Z
}.

#[export] Instance core_eta : Eta core := fun c =>
  mk_core (co_commit c) (co_bus c) (co_store_buffer c) (co_fetch_decode_fifo c) (co_decode_rename_fifo c)
    (co_rename_readreg_port c) (co_readreg_issue_port c) (co_issue c) (co_wb_port c) (co_wb_commit_port c)
    (co_init_pc c) (co_pc c) (co_jump_wait c) (co_wait_first_memory_result c) (co_rename_busy c) (co_rename_rev_pack c)
    (co_csr_rev_pack c) (co_lsu_hold c) (co_cpu_clock_cycle c) (co_committed_instruction_num c)
    (co_fetch_decode_fifo_full c) (co_decode_rename_fifo_full c) (co_checkpoint_buffer_full c) (co_rob_full c)
    (co_phy_regfile_full c) (co_fetch_not_full c).

(** * The interruptor on the bus *)

Fixpoint find_clint (l : list slave_info_t) : option clint_t :=
  match l with
  | [] => None
  | s :: l => match sl_dev (si_slave s) with dev_clint c => Some c | dev_memory _ => find_clint l end
  end.

Fixpoint alter_clint (g : clint_t -> clint_t) (l : list slave_info_t) : list slave_info_t :=
  match l with
  | [] => []
  | s :: l =>
      match sl_dev (si_slave s) with
      | dev_clint c => (s <| si_slave ::= fun sl => sl <| sl_dev := dev_clint (g c) |> |>) :: l
      | dev_memory _ => s :: alter_clint g l
      end
  end.

(** * The stages *)

Definition core_clint_pre (c : core) : option core :=
  clint ← find_clint (slave_info_list (co_bus c));
  Some (c <| co_commit ::= fun s => s <| cm_interrupt_interface ::= clint_run_pre clint |> |>).

Definition core_clint_post (c : core) : core :=
  c <| co_bus ::= fun b => b <| slave_info_list ::= alter_clint clint_run_post |> |>.

Definition core_commit (c : core) : option (commit_feedback_pack_t * core) :=
  '(cfp, s) ← commit_run (co_wb_commit_port c) (co_commit c);
  Some (cfp, c <| co_commit := s |>).

Section cycle.
(** What uninitialised variables hold: checkpoints, the registers [rename] takes,
    the feedback of a CSR unit; and the counter of the return address stack. *)
Context (mem : checkpoint_t) (mem_ids : list Z) (junk : Z * Z) (ras_full : Z).

Definition core_wb (cfp : commit_feedback_pack_t) (c : core) : option (wb_feedback_pack_t * core) :=
  let p := co_wb_port c in
  '(wfs, w) ← wb_run (wb_init (pu_alu p) (pu_bru p) (pu_csr p) (pu_div p) (pu_lsu p) (pu_mul p))
                (mk_wb_world (co_wb_commit_port c) (cm_phy_regfile (co_commit c))) cfp;
  Some (wfs, c <| co_wb_commit_port := wb_commit_port w |>
               <| co_commit ::= fun s => s <| cm_phy_regfile := wb_phy_regfile w |> |>).

(** The loops over the units of a kind: the channels, the queues and the ports. *)
Fixpoint units_run (run : exec_unit -> commit_feedback_pack_t -> option (execute_feedback_channel_t * exec_unit))
    (cfp : commit_feedback_pack_t) (fs : list (fifo issue_execute_pack_t)) (ps : list (port execute_wb_pack_t))
    : option (list execute_feedback_channel_t * list (fifo issue_execute_pack_t) * list (port execute_wb_pack_t)) :=
  match fs, ps with
  | [], [] => Some ([], [], [])
  | f :: fs, p :: ps =>
      '(e, u) ← run (mk_exec_unit f p) cfp;
      '(es, fs, ps) ← units_run run cfp fs ps;
      Some (e :: es, issue_fifo u :: fs, wb_port u :: ps)
  | _, _ => None
  end.

Fixpoint bru_units_run (cfp : commit_feedback_pack_t) (csr : csrfile) (cb : checkpoint_buffer) (bp : branch_predictor)
    (fs : list (fifo issue_execute_pack_t)) (ps : list (port execute_wb_pack_t))
    : option (list execute_feedback_channel_t * list (fifo issue_execute_pack_t) * list (port execute_wb_pack_t) *
              branch_predictor) :=
  match fs, ps with
  | [], [] => Some ([], [], [], bp)
  | f :: fs, p :: ps =>
      '(e, u, bp) ← bru_run (mk_exec_unit f p) csr cb bp cfp;
      '(es, fs, ps, bp) ← bru_units_run cfp csr cb bp fs ps;
      Some (e :: es, issue_fifo u :: fs, wb_port u :: ps, bp)
  | _, _ => None
  end.

Fixpoint csr_units_run (cfp : commit_feedback_pack_t) (csr : csrfile) (fs : list (fifo issue_execute_pack_t))
    (ps : list (port execute_wb_pack_t)) (rs : list issue_execute_pack_t)
    : option (list execute_feedback_channel_t * list (fifo issue_execute_pack_t) * list (port execute_wb_pack_t) *
              list issue_execute_pack_t) :=
  match fs, ps, rs with
  | [], [], [] => Some ([], [], [], [])
  | f :: fs, p :: ps, r :: rs =>
      '(e, u) ← csr_run junk (mk_csr_unit f p r) csr cfp;
      '(es, fs, ps, rs) ← csr_units_run cfp csr fs ps rs;
      Some (e :: es, csr_issue_fifo u :: fs, csr_wb_port u :: ps, csr_rev_pack u :: rs)
  | _, _, _ => None
  end.

Fixpoint lsu_units_run (cfp : commit_feedback_pack_t) (b : bus) (sb : store_buffer)
    (fs : list (fifo issue_execute_pack_t)) (ps : list (port execute_wb_pack_t)) (hs : list (bool * issue_execute_pack_t))
    : option (list execute_feedback_channel_t * list (fifo issue_execute_pack_t) * list (port execute_wb_pack_t) *
              list (bool * issue_execute_pack_t) * bus * store_buffer) :=
  match fs, ps, hs with
  | [], [], [] => Some ([], [], [], [], b, sb)
  | f :: fs, p :: ps, (busy, hold) :: hs =>
      '(e, w) ← lsu_run (mk_lsu_world (mk_lsu_unit f p busy hold) b sb) cfp;
      '(es, fs, ps, hs, b, sb) ← lsu_units_run cfp (lw_bus w) (lw_sb w) fs ps hs;
      let u := lw_unit w in
      Some (e :: es, lsu_issue_fifo u :: fs, lsu_wb_port u :: ps, (lsu_busy u, hold_rev_pack u) :: hs, b, sb)
  | _, _, _ => None
  end.

Definition core_execute (cfp : commit_feedback_pack_t) (c : core) : option (list execute_feedback_channel_t * core) :=
  let f := is_unit_fifo (co_issue c) in
  let p := co_wb_port c in
  let s := co_commit c in
  '(alu_e, alu_f, alu_p) ← units_run alu_run cfp (pu_alu f) (pu_alu p);
  '(bru_e, bru_f, bru_p, bp) ←
    bru_units_run cfp (cm_csr_file s) (cm_checkpoint_buffer s) (cm_branch_predictor s) (pu_bru f) (pu_bru p);
  '(csr_e, csr_f, csr_p, csr_r) ← csr_units_run cfp (cm_csr_file s) (pu_csr f) (pu_csr p) (co_csr_rev_pack c);
  '(div_e, div_f, div_p) ← units_run div_run cfp (pu_div f) (pu_div p);
  '(lsu_e, lsu_f, lsu_p, lsu_h, b, sb) ←
    lsu_units_run cfp (co_bus c) (co_store_buffer c) (pu_lsu f) (pu_lsu p) (co_lsu_hold c);
  '(mul_e, mul_f, mul_p) ← units_run mul_run cfp (pu_mul f) (pu_mul p);
  Some (alu_e ++ bru_e ++ csr_e ++ div_e ++ lsu_e ++ mul_e,
        c <| co_commit := s <| cm_branch_predictor := bp |> |>
          <| co_bus := b |> <| co_store_buffer := sb |>
          <| co_issue ::= fun i => i <| is_unit_fifo := mk_per_unit alu_f bru_f csr_f div_f lsu_f mul_f |> |>
          <| co_wb_port := mk_per_unit alu_p bru_p csr_p div_p lsu_p mul_p |>
          <| co_csr_rev_pack := csr_r |> <| co_lsu_hold := lsu_h |>).

(** The result is [t_issue_feedback_pack.stall]. *)
Definition core_issue (efs : list execute_feedback_channel_t) (wfs : wb_feedback_pack_t) (cfp : commit_feedback_pack_t)
    (c : core) : option (bool * core) :=
  '(stall, i) ← issue_run (cm_phy_regfile (co_commit c)) (co_store_buffer c) efs wfs cfp (co_readreg_issue_port c) (co_issue c);
  Some (stall, c <| co_issue := i |>).

Definition core_readreg (stall : bool) (efs : list execute_feedback_channel_t) (wfs : wb_feedback_pack_t)
    (cfp : commit_feedback_pack_t) (c : core) : option core :=
  p ← readreg_run (co_rename_readreg_port c) (co_readreg_issue_port c) (cm_phy_regfile (co_commit c)) stall efs wfs cfp;
  Some (c <| co_readreg_issue_port := p |>).

(** The results of [rename] and [decode] are their [idle]. *)
Definition rename_view (c : core) : rename_world :=
  mk_rename_world (co_decode_rename_fifo c) (co_rename_readreg_port c) (cm_rat (co_commit c)) (cm_rob (co_commit c))
    (cm_checkpoint_buffer (co_commit c)) (co_rename_busy c) (co_rename_rev_pack c) (co_phy_regfile_full c) (co_rob_full c).

Definition core_rename (stall : bool) (cfp : commit_feedback_pack_t) (c : core) : option (bool * core) :=
  '(idle, w) ← rename_run mem mem_ids (rename_view c) stall cfp;
  Some (idle, c <| co_decode_rename_fifo := rn_decode_rename_fifo w |>
                <| co_rename_readreg_port := rn_rename_readreg_port w |>
                <| co_commit ::= fun s => s <| cm_rat := rn_rat w |> <| cm_rob := rn_rob w |>
                                            <| cm_checkpoint_buffer := rn_checkpoint_buffer w |> |>
                <| co_rename_busy := rn_busy w |> <| co_rename_rev_pack := rn_rev_pack w |>
                <| co_phy_regfile_full := rn_phy_regfile_full w |> <| co_rob_full := rn_rob_full w |>).

Definition core_decode (cfp : commit_feedback_pack_t) (c : core) : option (bool * core) :=
  '(idle, w) ← decode_run (mk_decode_state (co_fetch_decode_fifo c) (co_decode_rename_fifo c) (co_decode_rename_fifo_full c)) cfp;
  Some (idle, c <| co_fetch_decode_fifo := fetch_decode_fifo w |> <| co_decode_rename_fifo := decode_rename_fifo w |>
                <| co_decode_rename_fifo_full := decode_rename_fifo_full w |>).

Definition fetch_view (c : core) : fetch_world :=
  mk_fetch_world (co_bus c) (co_fetch_decode_fifo c) (cm_checkpoint_buffer (co_commit c))
    (cm_branch_predictor (co_commit c)) (co_init_pc c) (co_pc c) (co_jump_wait c) (co_wait_first_memory_result c)
    (co_checkpoint_buffer_full c) (co_fetch_not_full c) (co_fetch_decode_fifo_full c).

Definition core_fetch (decode_idle rename_idle : bool) (cfp : commit_feedback_pack_t) (c : core) : option core :=
  w ← fetch_run mem decode_idle rename_idle (fifo_is_empty (sb_fifo (co_store_buffer c))) cfp (fetch_view c);
  Some (c <| co_bus := fw_bus w |> <| co_fetch_decode_fifo := fw_fetch_decode_fifo w |>
          <| co_commit ::= fun s => s <| cm_checkpoint_buffer := fw_checkpoint_buffer w |>
                                      <| cm_branch_predictor := fw_branch_predictor w |> |>
          <| co_init_pc := fw_init_pc w |> <| co_pc := fw_pc w |> <| co_jump_wait := fw_jump_wait w |>
          <| co_wait_first_memory_result := fw_wait_first_memory_result w |>
          <| co_checkpoint_buffer_full := fw_checkpoint_buffer_full w |> <| co_fetch_not_full := fw_fetch_not_full w |>
          <| co_fetch_decode_fifo_full := fw_fetch_decode_fifo_full w |>).

(** * The end of a cycle *)

Definition core_interrupt (c : core) : option core :=
  '(i, f) ← int_run (cm_interrupt_interface (co_commit c)) (cm_csr_file (co_commit c));
  Some (c <| co_commit ::= fun s => s <| cm_interrupt_interface := i |> <| cm_csr_file := f |> |>).

(** From [rat.sync()] to [interrupt_interface.sync()]. *)
Definition core_sync (cfp : commit_feedback_pack_t) (c : core) : option core :=
  s ← commit_sync (co_commit c);
  '(sb, b) ← sb_run (co_store_buffer c) (co_bus c) cfp;
  b ← bus_sync b;
  sb ← sb_sync sb;
  cb ← cb_sync (cm_checkpoint_buffer s);
  bp ← bp_sync (cm_branch_predictor s);
  Some (c <| co_bus := b |> <| co_store_buffer := sb |>
          <| co_commit := s <| cm_checkpoint_buffer := cb |> <| cm_branch_predictor := bp |>
                            <| cm_interrupt_interface ::= int_sync |> |>).

(** The low and the high half of a counter. *)
Definition counter_writes (addr addrh n : Z) : list (Z * Z) := [(addr, Z.land n 0xffffffff); (addrh, Z.shiftr n 32)].

Fixpoint write_sys_all (f : csrfile) (ws : list (Z * Z)) : option csrfile :=
  match ws with
  | [] => Some f
  | (addr, value) :: ws => f ← csrfile_write_sys f addr value; write_sys_all f ws
  end.

(** The counters in the order in which they are written. *)
Definition core_counters (c : core) : list (Z * Z) :=
  counter_writes CSR_MCYCLE CSR_MCYCLEH (co_cpu_clock_cycle c) ++
  counter_writes CSR_MINSTRET CSR_MINSTRETH (co_committed_instruction_num c) ++
  mjoin (imap (fun i n => counter_writes (CSR_BRANCHNUM + Z.of_nat i) (CSR_BRANCHNUMH + Z.of_nat i) n)
    [cm_branch_num (co_commit c); cm_branch_predicted (co_commit c); cm_branch_hit (co_commit c);
     cm_branch_miss (co_commit c); co_fetch_decode_fifo_full c; co_decode_rename_fifo_full c;
     is_issue_queue_full (co_issue c); is_issue_execute_fifo_full (co_issue c); co_checkpoint_buffer_full c;
     co_rob_full c; co_phy_regfile_full c; ras_full; co_fetch_not_full c]).

Definition core_count (c : core) : option core :=
  let c := c <| co_cpu_clock_cycle := u64 (co_cpu_clock_cycle c + 1) |>
             <| co_committed_instruction_num := rob_get_global_commit_num (cm_rob (co_commit c)) |> in
  f ← write_sys_all (cm_csr_file (co_commit c)) (core_counters c);
  Some (c <| co_commit ::= fun s => s <| cm_csr_file := f |> |>).

(** * A cycle *)

Definition core_start (c : core) : core :=
  c <| co_commit ::= fun s => s <| cm_rob ::= fun r => rob_set_committed r false |> |>
    <| co_fetch_decode_fifo ::= fifo_reset_pop_status |> <| co_decode_rename_fifo ::= fifo_reset_pop_status |>.

(** The stages behind commit, with its feedback. *)
Definition core_stages (cfp : commit_feedback_pack_t) (c : core) : option core :=
  '(wfs, c) ← core_wb cfp c;
  '(efs, c) ← core_execute cfp c;
  '(stall, c) ← core_issue efs wfs cfp c;
  c ← core_readreg stall efs wfs cfp c;
  '(rename_idle, c) ← core_rename stall cfp c;
  '(decode_idle, c) ← core_decode cfp c;
  core_fetch decode_idle rename_idle cfp c.

Definition core_cycle (c : core) : option core :=
  c ← core_clint_pre (core_start c);
  '(cfp, c) ← core_commit c;
  c ← core_stages cfp c;
  c ← core_interrupt c;
  c ← core_sync cfp (core_clint_post c);
  core_count c.

Fixpoint core_run (n : nat) (c : core) : option core :=
  match n with
  | O => Some c
  | S n => c ← core_cycle c; core_run n c
  end.

End cycle.

(** * [init] and [reset] *)

(** The image, one buffer of the file after the other: [i] is its offset. *)
Fixpoint load_bytes (b : bus) (i : Z) (buf : list Z) : option bus :=
  match buf with
  | [] => Some b
  | x :: buf => b ← bus_write8 b (u32 (0x80000000 + i)) x; load_bytes b (i + 1) buf
  end.

Fixpoint load_image (b : bus) (n : Z) (bufs : list (list Z)) : option bus :=
  match bufs with
  | [] => Some b
  | buf :: bufs => b ← load_bytes b n buf; load_image b (n + Z.of_nat (length buf)) bufs
  end.

(** A queue of one element per unit; [unit_mem] is the memory they get. *)
Definition unit_fifos (unit_mem : op_unit_t -> nat -> list issue_execute_pack_t * Z * bool) (u : op_unit_t)
    : list (fifo issue_execute_pack_t) :=
  (fun i => fifo_new (unit_mem u i) 1) <$> seq 0 (Z.to_nat (unit_cnt u)).

Definition unit_ports (u : op_unit_t) : list (port execute_wb_pack_t) :=
  repeat (port_new execute_wb_pack_zero) (Z.to_nat (unit_cnt u)).

Definition each_unit {A} (g : op_unit_t -> A) : per_unit A :=
  mk_per_unit (g unit_alu) (g unit_bru) (g unit_csr) (g unit_div) (g unit_lsu) (g unit_mul).

(** [bufs] are the buffers read from the file. *)
Definition core_init (unit_mem : op_unit_t -> nat -> list issue_execute_pack_t * Z * bool) (bufs : list (list Z)) (c : core)
    : option core :=
  b ← bus_map (co_bus c) 0x80000000 1048576 (slave_new (dev_memory []));
  b ← bus_map b 0x20000000 0x10000 (slave_new (dev_clint (mk_clint false 0 0)));
  b ← load_image b 0 bufs;
  '(r, f) ← boot_rename (cm_rat (co_commit c)) (cm_phy_regfile (co_commit c));
  csr ← csrfile_map_all (cm_csr_file (co_commit c)) csr_maps;
  Some (c <| co_bus := b |>
          <| co_fetch_decode_fifo ::= fun f => fifo_set_pop_status_save f true |>
          <| co_decode_rename_fifo ::= fun f => fifo_set_pop_status_save f true |>
          <| co_issue ::= fun i => i <| is_unit_fifo := each_unit (unit_fifos unit_mem) |> |>
          <| co_wb_port := each_unit unit_ports |>
          <| co_commit ::= fun s => s <| cm_rat := r |> <| cm_phy_regfile := f |> <| cm_csr_file := csr |> |>).

(** The counter [fetch_not_full] is not among those that are cleared. *)
Definition core_reset (c : core) : option core :=
  let b := bus_reset (co_bus c) in
  '(r, f) ← boot_rename (cm_rat (co_commit c)) (regfile_reset phy_regfile_item_zero (cm_phy_regfile (co_commit c)));
  _ ← bus_get_slave_obj b 0x80000000;
  Some (c <| co_fetch_decode_fifo ::= fifo_reset |> <| co_decode_rename_fifo ::= fifo_reset |>
          <| co_rename_readreg_port ::= port_reset |> <| co_readreg_issue_port ::= port_reset |>
          <| co_wb_port ::= unit_map (map port_reset) |> <| co_wb_commit_port ::= port_reset |>
          <| co_bus := b <| slave_info_list ::= alter_clint (fun _ => mk_clint false 0 0) |> |>
          <| co_store_buffer ::= sb_reset |>
          <| co_commit ::= fun s => (commit_reset s) <| cm_rat := r |> <| cm_rob ::= rob_reset |> <| cm_csr_file ::= csrfile_reset |>
                <| cm_phy_regfile := f |> <| cm_checkpoint_buffer ::= cb_reset |> <| cm_branch_predictor ::= bp_reset |>
                <| cm_interrupt_interface ::= int_reset |> <| cm_branch_num := 0 |> <| cm_branch_predicted := 0 |>
                <| cm_branch_hit := 0 |> <| cm_branch_miss := 0 |> |>
          <| co_issue ::= fun i => (issue_reset i) <| is_unit_fifo ::= unit_map (map fifo_reset) |>
                <| is_issue_queue_full := 0 |> <| is_issue_execute_fifo_full := 0 |> |>
          <| co_pc := co_init_pc c |> <| co_jump_wait := false |> <| co_wait_first_memory_result := true |>
          <| co_rename_busy := false |>
          <| co_csr_rev_pack ::= map (fun _ => issue_execute_pack_zero) |> <| co_lsu_hold ::= map (fun h => (false, h.2)) |>
          <| co_cpu_clock_cycle := 0 |> <| co_committed_instruction_num := 0 |> <| co_fetch_decode_fifo_full := 0 |>
          <| co_decode_rename_fifo_full := 0 |> <| co_checkpoint_buffer_full := 0 |> <| co_rob_full := 0 |>
          <| co_phy_regfile_full := 0 |>).

(** * A program

    The core with little memory, after [reset]: queues and tables of the sizes
    of [config.h], and what is not initialised is 0. *)

Definition program_bus (words : list Z) : bus :=
  mk_bus [] [mk_slave_info 0x80000000 128 (mk_slave 128 false false
               (dev_memory (take 128 (mjoin (word_bytes <$> words) ++ repeat 0 128))));
             mk_slave_info 0x20000000 0x10000 (slave_init (slave_new (dev_clint (mk_clint false 0 0))) 0x10000)].

Definition empty_fifo {T} (x : T) (size : Z) : fifo T := fifo_new (repeat x (Z.to_nat size), 0, false) size.

Definition checkpoint_zero : checkpoint_t := mk_checkpoint (repeat 0 2) (repeat 0 2) (repeat 0 2) (repeat 0 128) 0 0.

Definition core_static (b : bus) (csr : csrfile) : core :=
  mk_core
    (mk_commit_world rat_of_boot (rob_new (repeat rob_item_zero (Z.to_nat ROB_SIZE), 0, false) ROB_SIZE) csr
       (regfile_new phy_regfile_item_zero PHY_REG_NUM)
       (checkpoint_buffer_new (repeat checkpoint_zero (Z.to_nat CHECKPOINT_BUFFER_SIZE), 0, false) CHECKPOINT_BUFFER_SIZE)
       bp_demo int_new normal rob_item_zero 0 0 0 machine_external 0 0 0 0)
    b (store_buffer_new (repeat (mk_sb_item false false 0 0 0 0 0) (Z.to_nat STORE_BUFFER_SIZE), 0, false) STORE_BUFFER_SIZE)
    (fifo_set_pop_status_save (empty_fifo fetch_decode_pack_zero FETCH_DECODE_FIFO_SIZE) true)
    (fifo_set_pop_status_save (empty_fifo decode_rename_pack_zero DECODE_RENAME_FIFO_SIZE) true)
    (port_new rename_readreg_pack_zero) (port_new readreg_issue_pack_zero)
    (mk_issue_world (each_unit (unit_fifos (fun _ _ => ([issue_execute_pack_zero], 0, false))))
       (issue_queue_new (repeat issue_queue_item_zero (Z.to_nat ISSUE_QUEUE_SIZE), 0, false) ISSUE_QUEUE_SIZE)
       false false 0 0 (each_unit (fun _ => 0)) 0 0)
    (each_unit unit_ports) (port_new wb_commit_pack_zero) 0x80000000 0 false false false decode_rename_pack_zero
    [issue_execute_pack_zero] [(false, issue_execute_pack_zero)] 0 0 0 0 0 0 0 0.

Definition core_demo (program : list instr) : option core :=
  csr ← csrfile_init (mk_char_fifos [] []);
  core_reset (core_static (program_bus (encode <$> program)) csr).

(** A register as the committed mapping gives it. *)
Definition core_reg (c : core) (a : Z) : option Z :=
  phy ← rat_get_commit_phy_id (cm_rat (co_commit c)) a;
  item ← regfile_read (cm_phy_regfile (co_commit c)) phy;
  Some (pri_value item).

(** Three times through a loop that adds 5, then a store, a load of what was
    stored, and a product: predicted and mispredicted branches, forwarding and
    all kinds of units. *)
Definition demo_program : list instr :=
  [OPIMM ADDI 5 0 3; OPIMM ADDI 6 6 5; OPIMM ADDI 5 5 (-1); BRANCH BNE 5 0 (-8);
   LUI 7 0x80000; STORE SW 7 6 64; LOAD LW 8 7 64; OPM MUL 9 8 8; JAL 0 0].

Example core_runs_program :
  (c ← core_demo demo_program; c ← core_run checkpoint_zero (repeat 0 4) (0, 0) 0 45 c;
   Some (core_reg c <$> [5; 6; 7; 8; 9], co_pc c)) =
  Some ([Some 0; Some 15; Some 0x80000000; Some 15; Some 225], 0x80000020).
Proof. vm_compute. reflexivity. Qed.
