(* ===== verification/Flight.v ===== *)
(** The instructions in flight: those that the reorder buffer has and that have
    not reached commit.  A flush takes all of them out of the pipeline, in one
    cycle, and nothing else changes but where fetch goes on. *)

From Stdlib Require Import ZArith Lia.
From stdpp Require Import base numbers list option tactics.
From S2P Require Import Prelude Common Fifo FifoIds IssueQueue CheckpointBuffer Regfile CsrFile Bus Rob PipelineCommon StoreBuffer Packs Decode BranchPredictor Execute ExecuteBru ExecuteCsr ExecuteLsu WriteBack ReadReg Rename Commit CommitWalk Issue IssueCycle Fetch Core.

Local Open Scope Z_scope.

(** * Packets *)

(** What stays with an instruction: its entry of the reorder buffer, its
    address, its word and its destination register. *)
Definition tag : Type := Z * Z * Z * Z.

Class Packet (A : Type) := { pk_enable : A -> bool; pk_tag : A -> tag }.

#[export] Instance rename_packet : Packet rename_readreg_op_info_t :=
  {| pk_enable := rr_enable; pk_tag p := (rr_rob_id p, rr_pc p, rr_value p, rr_rd_phy p) |}.
#[export] Instance readreg_packet : Packet readreg_issue_op_info_t :=
  {| pk_enable := ri_enable; pk_tag p := (ri_rob_id p, ri_pc p, ri_value p, ri_rd_phy p) |}.
#[export] Instance queue_packet : Packet issue_queue_item_t :=
  {| pk_enable := it_enable; pk_tag p := (it_rob_id p, it_pc p, it_value p, it_rd_phy p) |}.
#[export] Instance issue_packet : Packet issue_execute_pack_t :=
  {| pk_enable := ie_enable; pk_tag p := (ie_rob_id p, ie_pc p, ie_value p, ie_rd_phy p) |}.
#[export] Instance execute_packet : Packet execute_wb_pack_t :=
  {| pk_enable := ew_enable; pk_tag p := (ew_rob_id p, ew_pc p, ew_value p, ew_rd_phy p) |}.
#[export] Instance wb_packet : Packet wb_commit_op_info_t :=
  {| pk_enable := wc_enable; pk_tag p := (wc_rob_id p, wc_pc p, wc_value p, wc_rd_phy p) |}.

Definition tags {A} `{Packet A} (l : list A) : list tag := pk_tag <$> filter (fun x => pk_enable x = true) l.

#[global] Arguments tags {A H} l : simpl never.

Section tags.
Context {A : Type} `{Packet A}.
Implicit Types (l : list A).

Lemma tags_app l1 l2 : tags (l1 ++ l2) = tags l1 ++ tags l2.
Proof. unfold tags. by rewrite list.filter_app, fmap_app. Qed.

Lemma tags_cons x l : tags (x :: l) = (if pk_enable x then [pk_tag x] else []) ++ tags l.
Proof. unfold tags. rewrite filter_cons. by destruct (decide _) as [->|E%not_true_is_false]; [|rewrite E]. Qed.

Lemma tags_none l : Forall (fun x => pk_enable x = false) l -> tags l = [].
Proof. induction 1 as [|x l Hx _ IH]; [done|]. by rewrite tags_cons, Hx, IH. Qed.

#[global] Instance tags_perm : Proper ((≡ₚ) ==> (≡ₚ)) (tags (A := A)).
Proof. intros l1 l2 E. unfold tags. by rewrite E. Qed.
End tags.

(** Packets that carry the same instructions. *)
Lemma tags_map {A B} `{Packet A} `{Packet B} (l : list A) (l' : list B) :
  Forall2 (fun x y => pk_enable y = pk_enable x /\ (pk_enable x = true -> pk_tag y = pk_tag x)) l l' -> tags l' = tags l.
Proof.
  induction 1 as [|x y l l' [E T] _ IH]; [done|]. rewrite !tags_cons, IH, E. by destruct (pk_enable x); [rewrite T|].
Qed.

(** * The packets of the core *)

(** The units one after the other, as write-back sees them. *)
Definition unit_all {A} (p : per_unit (list A)) : list A :=
  pu_alu p ++ pu_bru p ++ pu_csr p ++ pu_div p ++ pu_lsu p ++ pu_mul p.

(** The slots of the group that issue has not taken yet. *)
Definition group_rest (s : issue_world) (rev : readreg_issue_pack_t) : readreg_issue_pack_t :=
  if is_busy s then drop (Z.to_nat (is_last_index s)) rev else rev.

Definition held (hs : list (bool * issue_execute_pack_t)) : list issue_execute_pack_t :=
  (filter (fun h => h.1 = true) hs).*2.

#[global] Arguments held hs : simpl never.

Definition flight_front (c : core) : list tag :=
  tags (port_get (co_rename_readreg_port c)) ++
  tags (group_rest (co_issue c) (port_get (co_readreg_issue_port c))) ++
  tags (fifo_items (iq_fifo (is_issue_q (co_issue c)))).

Definition flight_units (c : core) : list tag :=
  tags (unit_all (is_unit_fifo (co_issue c)) ≫= fifo_items) ++ tags (held (co_lsu_hold c)).

Definition flight (c : core) : list tag :=
  flight_front c ++ flight_units c ++ tags (port_get <$> unit_all (co_wb_port c)) ++
  tags (port_get (co_wb_commit_port c)).

(** As many queues, ports and registers as there are units, all queues in
    order. *)
Record core_shape (c : core) : Prop := {
  cs_units : units_ok (co_issue c);
  cs_ports : forall u, Z.of_nat (length (unit_sel (co_wb_port c) u)) = unit_cnt u;
  cs_csr : Z.of_nat (length (co_csr_rev_pack c)) = CSR_UNIT_NUM;
  cs_hold : Z.of_nat (length (co_lsu_hold c)) = LSU_UNIT_NUM;
  cs_queue : fifo_ok (iq_fifo (is_issue_q (co_issue c)))
}.

(** * A flush *)

Definition all_zero (ps : list (port execute_wb_pack_t)) : Prop := Forall (fun p => port_get p = execute_wb_pack_zero) ps.

Lemma zero_tags ps : all_zero ps -> tags (port_get <$> ps) = [].
Proof. intros Hz. apply tags_none, Forall_fmap. eapply List.Forall_impl; [|exact Hz]. intros p E. unfold compose. by rewrite E. Qed.

Section flush.
Context (cfp : commit_feedback_pack_t) (Hfl : flushes cfp = true).

Lemma unit_flush execute s :
  unit_run execute s cfp = Some (feedback_of execute_wb_pack_zero, mk_exec_unit (issue_fifo s) (port_set (wb_port s) execute_wb_pack_zero)).
Proof. unfold unit_run. by rewrite Hfl, andb_false_r. Qed.

Lemma units_flush execute fs ps :
  length fs = length ps -> exists es ps', units_run (unit_run execute) cfp fs ps = Some (es, fs, ps') /\
    all_zero ps' /\ length ps' = length ps.
Proof.
  revert ps. induction fs as [|f fs IH]; intros [|p ps] Hl; try done; [by exists [], []; repeat constructor|]. cbn in Hl. injection Hl as Hl.
  destruct (IH ps Hl) as (es & ps' & E & Hz & Hl'). cbn [units_run]. rewrite unit_flush.
  cbn [mbind option_bind issue_fifo wb_port]. rewrite E. cbn [mbind option_bind]. do 2 eexists. split; [reflexivity|].
  split; [by constructor|]. cbn. by rewrite Hl'.
Qed.

Lemma bru_units_flush csr cb bp fs ps :
  length fs = length ps -> exists es ps', bru_units_run cfp csr cb bp fs ps = Some (es, fs, ps', bp) /\
    all_zero ps' /\ length ps' = length ps.
Proof.
  revert ps. induction fs as [|f fs IH]; intros [|p ps] Hl; try done; [by exists [], []; repeat constructor|]. cbn in Hl. injection Hl as Hl.
  destruct (IH ps Hl) as (es & ps' & E & Hz & Hl'). cbn [bru_units_run]. unfold bru_run at 1. rewrite Hfl, andb_false_r.
  cbn [mbind option_bind issue_fifo wb_port]. rewrite E. cbn [mbind option_bind]. do 2 eexists. split; [reflexivity|].
  split; [by constructor|]. cbn. by rewrite Hl'.
Qed.

Lemma csr_units_flush junk csr fs ps rs :
  length fs = length ps -> length rs = length ps ->
  exists es ps', csr_units_run junk cfp csr fs ps rs = Some (es, fs, ps', rs) /\ all_zero ps' /\ length ps' = length ps.
Proof.
  revert ps rs. induction fs as [|f fs IH]; intros [|p ps] [|r rs] Hl Hr; try done; [by exists [], []; repeat constructor|].
  cbn in Hl, Hr. injection Hl as Hl. injection Hr as Hr.
  destruct (IH ps rs Hl Hr) as (es & ps' & E & Hz & Hl'). cbn [csr_units_run]. unfold csr_run at 1. rewrite Hfl.
  cbn [negb mbind option_bind csr_issue_fifo csr_wb_port csr_rev_pack]. rewrite E. cbn [mbind option_bind]. do 2 eexists.
  split; [reflexivity|]. split; [by constructor|]. cbn. by rewrite Hl'.
Qed.

Lemma lsu_units_flush b sb fs ps hs :
  length fs = length ps -> length hs = length ps ->
  exists es ps' hs', lsu_units_run cfp b sb fs ps hs = Some (es, fs, ps', hs', b, sb) /\ all_zero ps' /\
    length ps' = length ps /\ length hs' = length hs /\ held hs' = [].
Proof.
  revert ps hs. induction fs as [|f fs IH]; intros [|p ps] [|[busy h] hs] Hl Hh; try done; [by exists [], [], []; repeat constructor|].
  cbn in Hl, Hh. injection Hl as Hl. injection Hh as Hh.
  destruct (IH ps hs Hl Hh) as (es & ps' & hs' & E & Hz & Hl' & Hh' & He). cbn [lsu_units_run]. unfold lsu_run at 1.
  rewrite Hfl, andb_false_r. cbn. rewrite E. cbn. do 3 eexists. split; [reflexivity|].
  split; [by constructor|]. cbn. rewrite Hl', Hh'. split_and!; try done.
Qed.

End flush.

(** Where fetch goes on. *)
Definition redirect (cfp : commit_feedback_pack_t) (pc : Z) : Z :=
  if cf_has_exception cfp then cf_exception_pc cfp else if cf_jump_enable cfp then cf_next_pc cfp else pc.

Record flushed (cfp : commit_feedback_pack_t) (c c' : core) : Prop := {
  fl_flight : flight c' = [];
  fl_fetch_decode : fifo_is_empty (co_fetch_decode_fifo c') = true;
  fl_decode_rename : fifo_is_empty (co_decode_rename_fifo c') = true;
  fl_issue : is_busy (co_issue c') = false /\ is_inst_waiting (co_issue c') = false;
  fl_fetch : co_jump_wait c' = false /\ co_pc c' = redirect cfp (co_pc c);
  fl_kept : co_commit c' = co_commit c /\ co_bus c' = co_bus c /\ co_store_buffer c' = co_store_buffer c;
  fl_shape : core_shape c'
}.

Lemma unit_all_fmap {A B} (g : A -> B) (p : per_unit (list A)) : unit_all (unit_map (map g) p) = g <$> unit_all p.
Proof. unfold unit_all. by rewrite !fmap_app. Qed.

Lemma unit_all_elem {A} (p : per_unit (list A)) x : x ∈ unit_all p -> exists u k, unit_sel p u !! k = Some x.
Proof.
  unfold unit_all. rewrite !elem_of_app.
  intros [H|[H|[H|[H|[H|H]]]]]; apply list_elem_of_lookup in H as [k Hk];
    [exists unit_alu|exists unit_bru|exists unit_csr|exists unit_div|exists unit_lsu|exists unit_mul]; by exists k.
Qed.

Lemma bind_none {A B} (g : A -> list B) l : Forall (fun x => g x = []) l -> l ≫= g = [].
Proof. induction 1 as [|x l Hx _ IH]; [done|]. rewrite bind_cons. by rewrite Hx, IH. Qed.

Lemma fifo_items_flush {T} (f : fifo T) : fifo_ok f -> fifo_items (fifo_flush f) = [].
Proof. intros Hok. unfold fifo_items. by rewrite (proj2 (fifo_flush_ok f Hok)). Qed.

Lemma some_pair {A B} (a : A) (x y : B) : x = y -> Some (a, x) = Some (a, y).
Proof. by intros ->. Qed.

Lemma core_wb_flush cfp c : flushes cfp = true ->
  core_wb cfp c = Some (wb_feedback_pack_zero, c <| co_wb_commit_port ::= fun p => port_set p wb_commit_pack_zero |>).
Proof.
  intros Hfl. unfold core_wb, wb_run. fold (flushes cfp). rewrite Hfl. apply some_pair. destruct c as [s], s. reflexivity.
Qed.

(** The units after a flush. *)
Lemma core_execute_flush junk cfp c : flushes cfp = true -> core_shape c ->
  exists efs ps hs, core_execute junk cfp c = Some (efs, c <| co_wb_port := ps |> <| co_lsu_hold := hs |>) /\
    all_zero (unit_all ps) /\ (forall u, Z.of_nat (length (unit_sel ps u)) = unit_cnt u) /\
    Z.of_nat (length hs) = LSU_UNIT_NUM /\ held hs = [].
Proof.
  intros Hfl [[Ul _ _] Up Uc Uh _]. set (f := is_unit_fifo (co_issue c)) in *. set (p := co_wb_port c) in *.
  assert (forall u, length (unit_sel f u) = length (unit_sel p u)) as Hlen by (intros u; specialize (Ul u); specialize (Up u); lia).
  destruct (units_flush cfp Hfl alu_execute (pu_alu f) (pu_alu p) (Hlen unit_alu)) as (e1 & p1 & E1 & Z1 & L1).
  destruct (bru_units_flush cfp Hfl (cm_csr_file (co_commit c)) (cm_checkpoint_buffer (co_commit c)) (cm_branch_predictor (co_commit c))
    (pu_bru f) (pu_bru p) (Hlen unit_bru)) as (e2 & p2 & E2 & Z2 & L2).
  destruct (csr_units_flush cfp Hfl junk (cm_csr_file (co_commit c)) (pu_csr f) (pu_csr p) (co_csr_rev_pack c) (Hlen unit_csr))
    as (e3 & p3 & E3 & Z3 & L3).
  { specialize (Up unit_csr). cbn in Up. unfold CSR_UNIT_NUM in *. fold p in Up. lia. }
  destruct (units_flush cfp Hfl div_execute (pu_div f) (pu_div p) (Hlen unit_div)) as (e4 & p4 & E4 & Z4 & L4).
  destruct (lsu_units_flush cfp Hfl (co_bus c) (co_store_buffer c) (pu_lsu f) (pu_lsu p) (co_lsu_hold c) (Hlen unit_lsu))
    as (e5 & p5 & hs & E5 & Z5 & L5 & H5 & H6).
  { specialize (Up unit_lsu). cbn in Up. unfold LSU_UNIT_NUM in *. fold p in Up. lia. }
  destruct (units_flush cfp Hfl mul_execute (pu_mul f) (pu_mul p) (Hlen unit_mul)) as (e6 & p6 & E6 & Z6 & L6).
  exists (e1 ++ e2 ++ e3 ++ e4 ++ e5 ++ e6), (mk_per_unit p1 p2 p3 p4 p5 p6), hs. split_and!.
  - unfold core_execute. fold f p. unfold alu_run, div_run, mul_run. rewrite E1. mstep. rewrite E2. mstep. rewrite E3. mstep.
    rewrite E4. mstep. rewrite E5. mstep. rewrite E6. mstep. apply some_pair. subst f p. clear. destruct c as [s ? ? ? ? ? ? i], s, i as [fs], fs. reflexivity.
  - unfold unit_all, all_zero in *. cbn. by rewrite !Forall_app.
  - intros u. rewrite <- Up. destruct u; cbn; f_equal; assumption.
  - by rewrite H5.
  - done.
Qed.

(** The other stages. *)
Definition issue_flushed (s : issue_world) : issue_world :=
  s <| is_unit_fifo ::= unit_map (map fifo_flush) |> <| is_issue_q ::= fun q => q <| iq_fifo ::= fifo_flush |> |>
    <| is_busy := false |> <| is_inst_waiting := false |>.

Lemma core_issue_flush efs wfs cfp c : flushes cfp = true ->
  core_issue efs wfs cfp c = Some (false, c <| co_issue ::= issue_flushed |>).
Proof. intros Hfl. unfold core_issue, issue_run. by rewrite Hfl. Qed.

Lemma core_readreg_flush stall efs wfs cfp c : flushes cfp = true ->
  core_readreg stall efs wfs cfp c = Some (c <| co_readreg_issue_port ::= fun p => port_set p readreg_issue_pack_zero |>).
Proof. intros Hfl. unfold core_readreg, readreg_run. fold (flushes cfp). by rewrite Hfl. Qed.

Lemma core_rename_flush mem mem_ids stall cfp c : flushes cfp = true ->
  exists idle, core_rename mem mem_ids stall cfp c =
    Some (idle, c <| co_rename_readreg_port ::= fun p => port_set p rename_readreg_pack_zero |>
                  <| co_rename_busy := false |> <| co_rename_rev_pack := decode_rename_pack_zero |>).
Proof.
  intros Hfl. unfold core_rename, rename_run. fold (flushes cfp). rewrite Hfl. eexists. apply some_pair. destruct c as [s], s. reflexivity.
Qed.

Lemma core_decode_flush cfp c : flushes cfp = true ->
  exists idle, core_decode cfp c = Some (idle, c <| co_decode_rename_fifo ::= fifo_flush |>).
Proof.
  intros Hfl. unfold core_decode, decode_run. fold (flushes cfp). rewrite Hfl. eexists. apply some_pair. destruct c. reflexivity.
Qed.

Lemma core_fetch_flush mem decode_idle rename_idle cfp c : flushes cfp = true -> co_wait_first_memory_result c = false ->
  core_fetch mem decode_idle rename_idle cfp c =
    Some (c <| co_fetch_decode_fifo ::= fifo_flush |> <| co_jump_wait := false |> <| co_pc := redirect cfp (co_pc c) |>).
Proof.
  intros Hfl Hfirst. unfold core_fetch, fetch_run, redirect. rewrite Hfl. cbn [fetch_view fw_wait_first_memory_result]. rewrite Hfirst.
  destruct c as [s], s. cbn in Hfirst. subst. by destruct (cf_has_exception cfp), (cf_jump_enable cfp).
Qed.

(** All of them together; [ps] and [hs] are the ports and the load/store units. *)
Definition core_flushed (cfp : commit_feedback_pack_t) (ps : per_unit (list (port execute_wb_pack_t)))
    (hs : list (bool * issue_execute_pack_t)) (c : core) : core :=
  c <| co_wb_commit_port ::= fun p => port_set p wb_commit_pack_zero |> <| co_wb_port := ps |> <| co_lsu_hold := hs |>
    <| co_issue ::= issue_flushed |> <| co_readreg_issue_port ::= fun p => port_set p readreg_issue_pack_zero |>
    <| co_rename_readreg_port ::= fun p => port_set p rename_readreg_pack_zero |>
    <| co_rename_busy := false |> <| co_rename_rev_pack := decode_rename_pack_zero |>
    <| co_decode_rename_fifo ::= fifo_flush |>
    <| co_fetch_decode_fifo ::= fifo_flush |> <| co_jump_wait := false |> <| co_pc := redirect cfp (co_pc c) |>.

Lemma core_stages_flush mem mem_ids junk cfp c : core_shape c -> flushes cfp = true -> co_wait_first_memory_result c = false ->
  exists ps hs, core_stages mem mem_ids junk cfp c = Some (core_flushed cfp ps hs c) /\
    all_zero (unit_all ps) /\ (forall u, Z.of_nat (length (unit_sel ps u)) = unit_cnt u) /\
    Z.of_nat (length hs) = LSU_UNIT_NUM /\ held hs = [].
Proof.
  intros Sh Hfl Hfirst. set (c1 := c <| co_wb_commit_port ::= fun p => port_set p wb_commit_pack_zero |>).
  assert (core_shape c1) as Sh1 by (by destruct Sh).
  destruct (core_execute_flush junk cfp c1 Hfl Sh1) as (efs & ps & hs & E & Hz & Hps & Hhs & Hh).
  exists ps, hs. split; [|done]. unfold core_stages. rewrite core_wb_flush by done. mstep. fold c1. rewrite E. mstep.
  rewrite core_issue_flush by done. mstep. rewrite core_readreg_flush by done. mstep.
  match goal with |- context [core_rename ?a ?b ?d ?e ?f] => destruct (core_rename_flush a b d e f Hfl) as [idle ->] end. mstep.
  match goal with |- context [core_decode ?a ?b] => destruct (core_decode_flush a b Hfl) as [idle' ->] end. mstep.
  by rewrite core_fetch_flush.
Qed.

(** Queues of units, all of them flushed. *)
Section flushed_fifos.
Context (p : per_unit (list (fifo issue_execute_pack_t))).
Context (U1 : forall u, Z.of_nat (length (unit_sel p u)) = unit_cnt u) (U2 : forall u k f, unit_sel p u !! k = Some f -> fifo_ok f).

Lemma flushed_items : unit_all (unit_map (map fifo_flush) p) ≫= fifo_items = [].
Proof.
  rewrite unit_all_fmap. apply bind_none, Forall_fmap, list.Forall_forall. intros f (u & k & Hf)%unit_all_elem.
  apply fifo_items_flush. by eapply U2.
Qed.

Lemma flushed_fifos :
  (forall u, Z.of_nat (length (unit_sel (unit_map (map fifo_flush) p) u)) = unit_cnt u) /\
  (forall u k f, unit_sel (unit_map (map fifo_flush) p) u !! k = Some f -> fifo_ok f).
Proof.
  assert (forall u, unit_sel (unit_map (map fifo_flush) p) u = fifo_flush <$> unit_sel p u) as Hsel by (by intros []).
  split; intros u; rewrite Hsel; [by rewrite length_fmap|]. intros k f Hf. rewrite list_lookup_fmap in Hf.
  destruct (unit_sel p u !! k) as [g|] eqn:Eg; [|done]. injection Hf as <-. apply fifo_flush_ok. by eapply U2.
Qed.
End flushed_fifos.

Section flushed.
Context (cfp : commit_feedback_pack_t) (c : core) (ps : per_unit (list (port execute_wb_pack_t))) (hs : list (bool * issue_execute_pack_t)).
Context (Sh : core_shape c) (Hz : all_zero (unit_all ps)) (Hps : forall u, Z.of_nat (length (unit_sel ps u)) = unit_cnt u).
Context (Hhs : Z.of_nat (length hs) = LSU_UNIT_NUM) (Hh : held hs = []).

Lemma core_flushed_flight : flight (core_flushed cfp ps hs c) = [].
Proof.
  destruct Sh as [[U1 U2 U3] S2 S3 S4 S5]. unfold flight, flight_front, flight_units, group_rest.
  change (tags readreg_issue_pack_zero) with ([] : list tag).
  assert (fifo_items (fifo_flush (iq_fifo (is_issue_q (co_issue c)))) = []) as Hq by (by apply fifo_items_flush).
  pose proof (flushed_items (is_unit_fifo (co_issue c)) U2) as Hu.
  change ([] ++ ([] ++ tags (fifo_items (fifo_flush (iq_fifo (is_issue_q (co_issue c)))))) ++
    (tags (unit_all (unit_map (map fifo_flush) (is_unit_fifo (co_issue c))) ≫= fifo_items) ++ tags (held hs)) ++
    tags (port_get <$> unit_all ps) ++ [] = []).
  by rewrite Hq, Hu, Hh, zero_tags.
Qed.

Lemma core_flushed_shape : core_shape (core_flushed cfp ps hs c).
Proof.
  destruct Sh as [[U1 U2 U3] S2 S3 S4 S5]. destruct (flushed_fifos (is_unit_fifo (co_issue c)) U1 U2) as [F1 F2].
  split; [by split|done|done|done|by apply (fifo_flush_ok _ S5)].
Qed.
End flushed.

(** C20: a flush.  When commit flushes, the other stages run through without a
    fault, whatever they hold, and the pipeline is empty behind them: no
    instruction is in flight, both instruction queues are empty, issue holds
    nothing back, and fetch goes on at the exception handler or at the target
    commit names.  Nothing else changes in that cycle: not the tables and the
    registers, not the memory, and not the store buffer. *)
Theorem core_flush mem mem_ids junk cfp c :
  core_shape c -> flushes cfp = true -> co_wait_first_memory_result c = false ->
  exists c', core_stages mem mem_ids junk cfp c = Some c' /\ flushed cfp c c'.
Proof.
  intros Sh Hfl Hfirst. destruct (core_stages_flush mem mem_ids junk cfp c Sh Hfl Hfirst) as (ps & hs & E & Hz & Hps & Hhs & Hh).
  eexists. split; [exact E|]. clear E. split; try done; [by apply core_flushed_flight|by apply core_flushed_shape].
Qed.

(** An empty core with an instruction on its way to read registers. *)
Definition flight_demo : core :=
  (core_static bus_new (csrfile_new (mk_char_fifos [] []))) <| co_rename_readreg_port ::= fun p => port_set p
      (<[1%nat := rename_readreg_op_info_zero <| rr_enable := true |> <| rr_rob_id := 7 |>]> rename_readreg_pack_zero) |>.

Lemma core_static_shape b csr : core_shape (core_static b csr).
Proof.
  assert (fifo_ok (fifo_new ([issue_execute_pack_zero], 0, false) 1)) as Hok.
  { apply (fifo_new_ok [issue_execute_pack_zero] 0 false). cbn. lia. }
  split; [split| | | |].
  - by intros [].
  - intros u k f Hf. destruct u; repeat (destruct k as [|k]; [by injection Hf as <-|]); done.
  - by intros [].
  - by intros [].
  - done.
  - done.
  - apply (fifo_new_ok (repeat issue_queue_item_zero 16) 0 false). cbn. lia.
Qed.

Lemma core_flush_witness :
  flight flight_demo = [(7, 0, 0, 0)] /\
  exists c', core_stages checkpoint_zero (repeat 0 4) (0, 0) (walk_pack <| cf_has_exception := true |> <| cf_exception_pc := 0x80000040 |>) flight_demo = Some c' /\
    flight c' = [] /\ co_pc c' = 0x80000040.
Proof.
  split; [vm_compute; reflexivity|].
  destruct (core_flush checkpoint_zero (repeat 0 4) (0, 0) (walk_pack <| cf_has_exception := true |> <| cf_exception_pc := 0x80000040 |>) flight_demo)
    as (c' & E & [F1 _ _ _ F2 _ _]).
  - destruct (core_static_shape bus_new (csrfile_new (mk_char_fifos [] []))) as [[] ? ? ? ?]. by split.
  - reflexivity.
  - reflexivity.
  - exists c'. split; [exact E|]. split; [exact F1|]. exact (proj2 F2).
Defined.
