(* ===== verification/FlowStages.v ===== *)
(** The stages keep the instructions they are given: a packet that leaves a
    stage carries an instruction that entered it, and nothing is lost but what
    a queue without room holds back.  The lemmas are about runs of the stages
    without a flush. *)

From Stdlib Require Import ZArith Lia.
From stdpp Require Import base numbers list option tactics.
From S2P Require Import Prelude Common Fifo FifoIds IdQueue IssueQueue CheckpointBuffer Rat Regfile CsrFile Bus Rob PipelineCommon StoreBuffer Packs Decode BranchPredictor Execute ExecuteBru ExecuteCsr ExecuteLsu WriteBack ReadReg Rename Commit Issue IssueSelect IssueCycle Fetch Core Flight.

Local Open Scope Z_scope.

(** A packet for the instruction of another one. *)
Definition carries_on {A B} `{Packet A} `{Packet B} (x : A) (y : B) : Prop :=
  pk_enable y = pk_enable x /\ pk_tag y = pk_tag x.

Lemma carries_on_tags {A B} `{Packet A} `{Packet B} (x : A) (y : B) : carries_on x y -> tags [y] = tags [x].
Proof. intros [E T]. by rewrite !tags_cons, E, T. Qed.

(** Inversion of the steps of a computation that returned. *)
Ltac steps H := repeat match type of H with mbind _ _ = Some _ => apply bind_Some in H as (? & ? & H) end.

(** * Execution units *)

Section units.
Context (cfp : commit_feedback_pack_t) (Hfl : flushes cfp = false).

Lemma alu_carries x y : alu_execute x = Some y -> carries_on x y.
Proof.
  unfold alu_execute. destruct (ie_enable x) eqn:E1, (ie_valid x), (ie_has_exception x); cbn; try (intros [= <-]; by split).
  destruct (as_alu (ie_sub_op x)) as [[]|]; cbn; try done; intros [= <-]; by split.
Qed.

Lemma mul_carries x y : mul_execute x = Some y -> carries_on x y.
Proof.
  unfold mul_execute. destruct (ie_enable x && ie_valid x); [|intros [= <-]; by split].
  destruct (as_mul (ie_sub_op x)) as [[]|]; cbn; try done; intros [= <-]; by split.
Qed.

Lemma div_carries x y : div_execute x = Some y -> carries_on x y.
Proof.
  unfold div_execute. destruct (ie_enable x && ie_valid x); [|intros [= <-]; by split].
  destruct (as_div (ie_sub_op x)) as [[]|]; cbn; try done; intros [= <-]; by split.
Qed.

Lemma bru_carries csr cb bp x y bp' : bru_execute csr cb bp x = Some (y, bp') -> carries_on x y.
Proof.
  unfold bru_execute. intros H. apply bind_Some in H as (z & E & H). apply bind_Some in H as (bp1 & _ & H).
  injection H as <- _. assert (carries_on x z) as [E1 E2].
  { destruct (ie_enable x && ie_valid x); [|injection E as <-; by split]. apply bind_Some in E as (op & _ & E).
    destruct op; cbn in E; try (injection E as <-; by split). apply bind_Some in E as (? & _ & E). injection E as <-. by split. }
  by destruct (ew_bru_jump z).
Qed.

Lemma csr_carries csr x y : csr_execute csr x = Some y -> carries_on x y.
Proof.
  unfold csr_execute. destruct (ie_enable x) eqn:E1; [|intros [= <-]; by split]. destruct (ie_valid x); [|intros [= <-]; by split].
  destruct (csrfile_read csr (ie_csr x)); [|intros [= <-]; by split]. cbv zeta.
  destruct (negb _); [|intros [= <-]; by split]. destruct (as_csr (ie_sub_op x)); [|done]. cbn [mbind option_bind].
  destruct (negb _); intros [= <-]; by split.
Qed.

(** What is taken from a queue. *)
Lemma pop_items {T} (f : fifo T) x f' :
  fifo_ok f -> fifo_pop f = Some (Some x, f') -> fifo_ok f' /\ fifo_items f = x :: fifo_items f'.
Proof.
  intros Hok E. destruct (fifo_entries_pop f Hok) as (g & E' & Hok' & He & _). rewrite E in E'. injection E' as Eh ->.
  split; [done|]. unfold fifo_items. rewrite He. destruct (fifo_entries f) as [|[id y] l]; [done|]. cbn in *. by injection Eh as ->.
Qed.

Lemma taken_kept (f g : fifo issue_execute_pack_t) x (z : execute_wb_pack_t) :
  fifo_ok f -> fifo_pop f = Some (Some x, g) -> carries_on x z ->
  fifo_ok g /\ tags (fifo_items g) ++ tags [z] ≡ₚ tags (fifo_items f).
Proof.
  intros Hok E Hc. destruct (pop_items _ _ _ Hok E) as [Hok' ->]. split; [done|].
  rewrite (carries_on_tags x z) by done. change (x :: fifo_items g) with ([x] ++ fifo_items g). rewrite tags_app. solve_Permutation.
Qed.

(** The queues and ports of the units of one kind, before and after. *)
Record kept (fs fs' : list (fifo issue_execute_pack_t)) (ps' : list (port execute_wb_pack_t))
    (hs hs' : list (bool * issue_execute_pack_t)) (es : list execute_feedback_channel_t) : Prop := {
  kp_ok : Forall fifo_ok fs -> Forall fifo_ok fs';
  kp_len : length fs' = length fs /\ length ps' = length fs /\ length es = length fs;
  kp_tags : Forall fifo_ok fs -> tags (fs' ≫= fifo_items) ++ tags (held hs') ++ tags (port_get <$> ps') ≡ₚ
            tags (fs ≫= fifo_items) ++ tags (held hs)
}.

Lemma kept_nil : kept [] [] [] [] [] [].
Proof. by split. Qed.

Lemma held_cons b x hs : held ((b, x) :: hs) = (if b then [x] else []) ++ held hs.
Proof. unfold held. rewrite filter_cons. cbn. by destruct b. Qed.

Lemma held_app hs hs' : held (hs ++ hs') = held hs ++ held hs'.
Proof. unfold held. by rewrite list.filter_app, fmap_app. Qed.

(** One more unit. *)
Lemma kept_cons f f' p' (h h' : list (bool * issue_execute_pack_t)) e fs fs' ps' hs hs' es :
  (fifo_ok f -> fifo_ok f' /\ tags (fifo_items f') ++ tags (held h') ++ tags [port_get p'] ≡ₚ tags (fifo_items f) ++ tags (held h)) ->
  kept fs fs' ps' hs hs' es -> kept (f :: fs) (f' :: fs') (p' :: ps') (h ++ hs) (h' ++ hs') (e :: es).
Proof.
  intros H1 [K1 (L1 & L2 & L3) K3]. split.
  - intros [Hf Hfs]%list.Forall_cons. constructor; [by apply H1|by apply K1].
  - cbn. by rewrite L1, L2, L3.
  - intros [Hf Hfs]%list.Forall_cons. specialize (K3 Hfs). destruct (H1 Hf) as [_ T]. rewrite !bind_cons, fmap_cons, !held_app, !tags_app.
    change (tags (port_get p' :: (port_get <$> ps'))) with (tags ([port_get p'] ++ (port_get <$> ps'))). rewrite tags_app.
    transitivity ((tags (fifo_items f') ++ tags (held h') ++ tags [port_get p']) ++
      tags (fs' ≫= fifo_items) ++ tags (held hs') ++ tags (port_get <$> ps')); [solve_Permutation|].
    rewrite T, K3. solve_Permutation.
Qed.

Lemma unit_kept execute s e u :
  (forall x y, execute x = Some y -> carries_on x y) -> unit_run execute s cfp = Some (e, u) -> fifo_ok (issue_fifo s) ->
  fifo_ok (issue_fifo u) /\ tags (fifo_items (issue_fifo u)) ++ tags (held []) ++ tags [port_get (wb_port u)] ≡ₚ
    tags (fifo_items (issue_fifo s)) ++ tags (held []).
Proof.
  intros Hc E Hok. unfold unit_run in E. rewrite Hfl, andb_true_r in E.
  apply bind_Some in E as ([y f'] & E & [= <- <-]). cbn [issue_fifo wb_port].
  destruct (fifo_is_empty (issue_fifo s)); cbn [negb] in E; [by injection E as <- <-|].
  apply bind_Some in E as ([o g] & E1 & E). apply bind_Some in E as (x & -> & E). apply bind_Some in E as (z & E2 & E).
  injection E as <- <-. rewrite app_nil_r. apply (taken_kept _ _ x); auto.
Qed.

Lemma units_kept execute fs ps es fs' ps' :
  (forall x y, execute x = Some y -> carries_on x y) ->
  units_run (unit_run execute) cfp fs ps = Some (es, fs', ps') -> kept fs fs' ps' [] [] es.
Proof.
  intros Hc. revert ps es fs' ps'. induction fs as [|f fs IH]; intros [|p ps] es fs' ps' E; cbn [units_run] in E; try done.
  { injection E as <- <- <-. apply kept_nil. }
  apply bind_Some in E as ([e u] & E1 & E). apply bind_Some in E as ([[es1 fs1] ps1] & E2 & E). injection E as <- <- <-.
  apply (kept_cons f (issue_fifo u) (wb_port u) [] []); [|by eapply IH].
  by apply (unit_kept execute (mk_exec_unit f p) e u Hc).
Qed.

Lemma bru_kept csr cb bp s e u bp' :
  bru_run s csr cb bp cfp = Some (e, u, bp') -> fifo_ok (issue_fifo s) ->
  fifo_ok (issue_fifo u) /\ tags (fifo_items (issue_fifo u)) ++ tags (held []) ++ tags [port_get (wb_port u)] ≡ₚ
    tags (fifo_items (issue_fifo s)) ++ tags (held []).
Proof.
  intros E Hok. unfold bru_run in E. rewrite Hfl, andb_true_r in E.
  apply bind_Some in E as ([[y f'] bp1] & E & [= <- <- <-]). cbn [issue_fifo wb_port].
  destruct (fifo_is_empty (issue_fifo s)); cbn [negb] in E; [by injection E as <- <- <-|].
  apply bind_Some in E as ([o g] & E1 & E). apply bind_Some in E as (x & -> & E). apply bind_Some in E as ([z bp2] & E2 & E).
  injection E as <- <- <-. rewrite app_nil_r. apply (taken_kept _ _ x); [done..|]. by eapply bru_carries.
Qed.

Lemma bru_units_kept csr cb bp fs ps es fs' ps' bp' :
  bru_units_run cfp csr cb bp fs ps = Some (es, fs', ps', bp') -> kept fs fs' ps' [] [] es.
Proof.
  revert bp ps es fs' ps'. induction fs as [|f fs IH]; intros bp [|p ps] es fs' ps' E; cbn [bru_units_run] in E; try done.
  { injection E as <- <- <- <-. apply kept_nil. }
  apply bind_Some in E as ([[e u] bp1] & E1 & E). apply bind_Some in E as ([[[es1 fs1] ps1] bp2] & E2 & E). injection E as <- <- <- <-.
  apply (kept_cons f (issue_fifo u) (wb_port u) [] []); [|by eapply IH].
  by apply (bru_kept csr cb bp (mk_exec_unit f p) e u bp1).
Qed.

Lemma csr_unit_kept junk csr s e u :
  csr_run junk s csr cfp = Some (e, u) -> fifo_ok (csr_issue_fifo s) ->
  fifo_ok (csr_issue_fifo u) /\ tags (fifo_items (csr_issue_fifo u)) ++ tags (held []) ++ tags [port_get (csr_wb_port u)] ≡ₚ
    tags (fifo_items (csr_issue_fifo s)) ++ tags (held []).
Proof.
  intros E Hok. unfold csr_run in E. rewrite Hfl in E. cbn [negb] in E.
  apply bind_Some in E as ([y s'] & E & [= <- <-]). cbn [csr_issue_fifo csr_wb_port].
  destruct (fifo_is_empty (csr_issue_fifo s)); cbn [negb] in E; [by injection E as <- <-|].
  apply bind_Some in E as ([o g] & E1 & E). apply bind_Some in E as (x & -> & E). apply bind_Some in E as (z & E2 & E).
  injection E as <- <-. rewrite app_nil_r. apply (taken_kept _ _ x); [done..|]. by eapply csr_carries.
Qed.

Lemma csr_units_kept junk csr fs ps rs es fs' ps' rs' :
  csr_units_run junk cfp csr fs ps rs = Some (es, fs', ps', rs') -> kept fs fs' ps' [] [] es /\ length rs' = length rs.
Proof.
  revert ps rs es fs' ps' rs'. induction fs as [|f fs IH]; intros [|p ps] [|r rs] es fs' ps' rs' E; cbn [csr_units_run] in E; try done.
  { injection E as <- <- <- <-. split; [apply kept_nil|done]. }
  apply bind_Some in E as ([e u] & E1 & E). apply bind_Some in E as ([[[es1 fs1] ps1] rs1] & E2 & E). injection E as <- <- <- <-.
  destruct (IH _ _ _ _ _ _ E2) as [K L]. split; [|cbn; by rewrite L].
  apply (kept_cons f (csr_issue_fifo u) (csr_wb_port u) [] []); [|done].
  by apply (csr_unit_kept junk csr (mk_csr_unit f p r) e u).
Qed.

(** A store that finds the store buffer full stays with the unit. *)
Definition lsu_held (u : lsu_unit) : list (bool * issue_execute_pack_t) := [(lsu_busy u, hold_rev_pack u)].

Lemma lsu_store_carries size data s x z y s' :
  carries_on x z -> lsu_store size data s x z = (y, s') -> lsu_busy (lw_unit s) = false ->
  lsu_issue_fifo (lw_unit s') = lsu_issue_fifo (lw_unit s) /\
  tags (held (lsu_held (lw_unit s'))) ++ tags [y] = tags [x].
Proof.
  intros [E1 E2] E Hb. unfold lsu_store in E. destruct (fifo_is_full (sb_fifo (lw_sb s))); injection E as <- <-; (split; [done|]).
  - rewrite (tags_none [_]) by (by constructor). apply app_nil_r.
  - change (lw_unit _) with (lw_unit s) at 1. unfold lsu_held. rewrite Hb. by apply carries_on_tags.
Qed.

Lemma lsu_read_unit w s addr v s' : lsu_read w s addr = Some (v, s') -> lw_unit s' = lw_unit s.
Proof.
  unfold lsu_read. intros E. apply bind_Some in E as ([x b] & _ & E). apply bind_Some in E as (y & _ & E). by injection E as _ <-.
Qed.

Lemma lsu_execute_kept s x y s' :
  lsu_execute s x = Some (y, s') -> lsu_busy (lw_unit s) = false ->
  lsu_issue_fifo (lw_unit s') = lsu_issue_fifo (lw_unit s) /\
  tags (held (lsu_held (lw_unit s'))) ++ tags [y] = tags [x].
Proof.
  intros E Hb. assert (carries_on x (wb_pack_of x)) as Hx by (by split).
  assert (forall z : execute_wb_pack_t, carries_on x z -> tags (held (lsu_held (lw_unit s))) ++ tags [z] = tags [x]) as Hkeep.
  { intros z Hz. unfold lsu_held. rewrite Hb. by apply carries_on_tags. }
  unfold lsu_execute in E. destruct (ie_enable x && ie_valid x); [|injection E as <- <-; auto].
  destruct (negb _); [|injection E as <- <-; auto]. apply bind_Some in E as (op & _ & E). unfold lsu_switch in E.
  destruct op; try (injection E as E; eapply lsu_store_carries; [|exact E|done]; exact Hx).
  all: apply bind_Some in E as ([v s1] & E1%lsu_read_unit & E).
  all: try (apply bind_Some in E as (w & _ & E)).
  all: injection E as <- <-; rewrite E1; split; [done|]; apply Hkeep; by split.
Qed.

Lemma lsu_unit_kept s e w :
  lsu_run s cfp = Some (e, w) -> fifo_ok (lsu_issue_fifo (lw_unit s)) ->
  fifo_ok (lsu_issue_fifo (lw_unit w)) /\
  tags (fifo_items (lsu_issue_fifo (lw_unit w))) ++ tags (held (lsu_held (lw_unit w))) ++ tags [port_get (lsu_wb_port (lw_unit w))] ≡ₚ
    tags (fifo_items (lsu_issue_fifo (lw_unit s))) ++ tags (held (lsu_held (lw_unit s))).
Proof.
  intros E Hok. unfold lsu_run in E. rewrite Hfl, andb_true_r in E. apply bind_Some in E as ([y s1] & E & [= <- <-]).
  change (lsu_issue_fifo (lw_unit (s1 <| lw_unit ::= fun u => u <| lsu_wb_port ::= fun p => port_set p y |> |>))) with (lsu_issue_fifo (lw_unit s1)).
  change (lsu_held (lw_unit (s1 <| lw_unit ::= fun u => u <| lsu_wb_port ::= fun p => port_set p y |> |>))) with (lsu_held (lw_unit s1)).
  change (port_get (lsu_wb_port (lw_unit (s1 <| lw_unit ::= fun u => u <| lsu_wb_port ::= fun p => port_set p y |> |>)))) with y.
  destruct (negb (fifo_is_empty (lsu_issue_fifo (lw_unit s))) || lsu_busy (lw_unit s)).
  2: { injection E as <- <-. split; [done|]. change (tags [execute_wb_pack_zero]) with ([] : list tag). by rewrite app_nil_r. }
  apply bind_Some in E as ([x s2] & E1 & E). unfold lsu_take in E1. destruct (lsu_busy (lw_unit s)) eqn:Eb.
  - injection E1 as <- <-. destruct (lsu_execute_kept _ _ _ _ E eq_refl) as [E2 E3]. rewrite E2. split; [done|]. rewrite E3.
    unfold lsu_held at 1. rewrite Eb. done.
  - apply bind_Some in E1 as ([o g] & E1 & E2). apply bind_Some in E2 as (x' & -> & E2). injection E2 as <- <-.
    destruct (pop_items _ _ _ Hok E1) as [Hok' ->]. destruct (lsu_execute_kept _ _ _ _ E Eb) as [E2 E3]. rewrite E2. split; [done|].
    rewrite E3. unfold lsu_held. rewrite Eb. change (tags (held [(false, hold_rev_pack (lw_unit s))])) with ([] : list tag).
    change (tags (x' :: fifo_items g)) with (tags ([x'] ++ fifo_items g)). rewrite tags_app.
    change (fifo_items (lsu_issue_fifo _)) with (fifo_items g). solve_Permutation.
Qed.

Lemma lsu_units_kept b sb fs ps hs es fs' ps' hs' b' sb' :
  lsu_units_run cfp b sb fs ps hs = Some (es, fs', ps', hs', b', sb') -> kept fs fs' ps' hs hs' es /\ length hs' = length hs.
Proof.
  revert b sb ps hs es fs' ps' hs'.
  induction fs as [|f fs IH]; intros b sb [|p ps] [|[busy h] hs] es fs' ps' hs' E; cbn [lsu_units_run] in E; try done.
  { injection E as <- <- <- <- <- <-. split; [apply kept_nil|done]. }
  apply bind_Some in E as ([e w] & E1 & E). apply bind_Some in E as ([[[[[es1 fs1] ps1] hs1] b1] sb1] & E2 & E).
  injection E as <- <- <- <- <- <-. destruct (IH _ _ _ _ _ _ _ _ E2) as [K L]. split; [|cbn; by rewrite L].
  apply (kept_cons f _ _ [(busy, h)] [(_, _)]); [|done].
  exact (lsu_unit_kept (mk_lsu_world (mk_lsu_unit f p busy h) b sb) e w E1).
Qed.
End units.

(** All units.  What is left of the state is named by its parts. *)
Definition executed (bp : branch_predictor) (b : bus) (sb : store_buffer) (fs : per_unit (list (fifo issue_execute_pack_t)))
    (ps : per_unit (list (port execute_wb_pack_t))) (rs : list issue_execute_pack_t)
    (hs : list (bool * issue_execute_pack_t)) (c : core) : core :=
  c <| co_commit := (co_commit c) <| cm_branch_predictor := bp |> |> <| co_bus := b |> <| co_store_buffer := sb |>
    <| co_issue ::= fun i => i <| is_unit_fifo := fs |> |> <| co_wb_port := ps |> <| co_csr_rev_pack := rs |> <| co_lsu_hold := hs |>.

Lemma core_execute_kept junk cfp c efs c' :
  flushes cfp = false -> core_shape c -> core_execute junk cfp c = Some (efs, c') ->
  exists bp b sb fs ps rs hs, c' = executed bp b sb fs ps rs hs c /\ core_shape c' /\
    length efs = Z.to_nat EXECUTE_UNIT_NUM /\
    flight_units c' ++ tags (port_get <$> unit_all ps) ≡ₚ flight_units c.
Proof.
  intros Hfl [[U1 U2 U3] S2 S3 S4 S5] E. unfold core_execute in E.
  apply bind_Some in E as ([[e1 f1] p1] & E1 & E). apply bind_Some in E as ([[[e2 f2] p2] bp] & E2 & E).
  apply bind_Some in E as ([[[e3 f3] p3] rs] & E3 & E). apply bind_Some in E as ([[e4 f4] p4] & E4 & E).
  apply bind_Some in E as ([[[[[e5 f5] p5] hs] b] sb] & E5 & E). apply bind_Some in E as ([[e6 f6] p6] & E6 & E).
  injection E as <- <-.
  exists bp, b, sb, (mk_per_unit f1 f2 f3 f4 f5 f6), (mk_per_unit p1 p2 p3 p4 p5 p6), rs, hs.
  apply (units_kept cfp Hfl alu_execute) in E1; [|exact alu_carries]. apply (bru_units_kept cfp Hfl) in E2.
  apply (csr_units_kept cfp Hfl) in E3 as [E3 Lr]. apply (units_kept cfp Hfl div_execute) in E4; [|exact div_carries].
  apply (lsu_units_kept cfp Hfl) in E5 as [E5 Lh]. apply (units_kept cfp Hfl mul_execute) in E6; [|exact mul_carries].
  destruct E1 as [O1 (A1 & B1 & C1) T1], E2 as [O2 (A2 & B2 & C2) T2], E3 as [O3 (A3 & B3 & C3) T3],
    E4 as [O4 (A4 & B4 & C4) T4], E5 as [O5 (A5 & B5 & C5) T5], E6 as [O6 (A6 & B6 & C6) T6].
  assert (forall u, Forall fifo_ok (unit_sel (is_unit_fifo (co_issue c)) u)) as Hok.
  { intros u. apply list.Forall_forall. intros f [k Hk]%list_elem_of_lookup. by eapply U2. }
  assert (forall u, length (unit_sel (is_unit_fifo (co_issue c)) u) = Z.to_nat (unit_cnt u)) as Hlen by (intros u; specialize (U1 u); lia).
  pose proof (Hlen unit_alu) as L1. pose proof (Hlen unit_bru) as L2. pose proof (Hlen unit_csr) as L3.
  pose proof (Hlen unit_div) as L4. pose proof (Hlen unit_lsu) as L5. pose proof (Hlen unit_mul) as L6.
  pose proof (Hok unit_alu) as K1. pose proof (Hok unit_bru) as K2. pose proof (Hok unit_csr) as K3.
  pose proof (Hok unit_div) as K4. pose proof (Hok unit_lsu) as K5. pose proof (Hok unit_mul) as K6.
  cbn [unit_sel] in *. split_and!.
  - done.
  - split; [split| | | |done].
    + intros u. destruct u; cbn; rewrite ?A1, ?A2, ?A3, ?A4, ?A5, ?A6; first [exact (U1 unit_alu)|exact (U1 unit_bru)|exact (U1 unit_csr)|exact (U1 unit_div)|exact (U1 unit_lsu)|exact (U1 unit_mul)].
    + intros u k f Hf. apply (list_elem_of_lookup_2) in Hf. revert Hf.
      destruct u; cbn; intros Hf; (eapply list.Forall_forall; [|exact Hf]); auto.
    + done.
    + intros u. destruct u; cbn; rewrite ?B1, ?B2, ?B3, ?B4, ?B5, ?B6; first [exact (U1 unit_alu)|exact (U1 unit_bru)|exact (U1 unit_csr)|exact (U1 unit_div)|exact (U1 unit_lsu)|exact (U1 unit_mul)].
    + cbn. by rewrite Lr.
    + cbn. by rewrite Lh.
  - rewrite !length_app, C1, C2, C3, C4, C5, C6, L1, L2, L3, L4, L5, L6. reflexivity.
  - specialize (T1 K1). specialize (T2 K2). specialize (T3 K3). specialize (T4 K4). specialize (T5 K5). specialize (T6 K6).
    unfold flight_units, unit_all. cbn. rewrite !bind_app, !fmap_app, !tags_app. change (tags (held [])) with ([] : list tag) in *.
    rewrite !app_nil_r in *. cbn [app] in *. rewrite <- T1, <- T2, <- T3, <- T4, <- T6, <- !(app_assoc (A := tag)).
    transitivity (tags (f1 ≫= fifo_items) ++ tags (port_get <$> p1) ++ tags (f2 ≫= fifo_items) ++ tags (port_get <$> p2) ++
      tags (f3 ≫= fifo_items) ++ tags (port_get <$> p3) ++ tags (f4 ≫= fifo_items) ++ tags (port_get <$> p4) ++
      (tags (f5 ≫= fifo_items) ++ tags (held hs) ++ tags (port_get <$> p5)) ++ tags (f6 ≫= fifo_items) ++ tags (port_get <$> p6));
      [solve_Permutation|]. rewrite T5. solve_Permutation.
Qed.

(** * Write-back and register read *)

Lemma core_wb_kept cfp c : flushes cfp = false -> core_shape c ->
  exists wfs p f, core_wb cfp c =
      Some (wfs, c <| co_wb_commit_port := p |> <| co_commit ::= fun s => s <| cm_phy_regfile := f |> |>) /\
    length wfs = Z.to_nat EXECUTE_UNIT_NUM /\ tags (port_get p) = tags (port_get <$> unit_all (co_wb_port c)).
Proof.
  intros Hfl Sh. unfold core_wb. change (wb_init _ _ _ _ _ _) with (unit_all (co_wb_port c)).
  assert (length (unit_all (co_wb_port c)) = Z.to_nat EXECUTE_UNIT_NUM) as Hlen.
  { pose proof (cs_ports _ Sh unit_alu) as L1. pose proof (cs_ports _ Sh unit_bru) as L2. pose proof (cs_ports _ Sh unit_csr) as L3.
    pose proof (cs_ports _ Sh unit_div) as L4. pose proof (cs_ports _ Sh unit_lsu) as L5. pose proof (cs_ports _ Sh unit_mul) as L6.
    unfold unit_all. rewrite !length_app. unfold unit_cnt in *. cbn in *. unfold EXECUTE_UNIT_NUM. lia. }
  rewrite wb_run_spec by done. mstep. do 3 eexists. split; [reflexivity|]. split; [by rewrite length_fmap|].
  cbn. rewrite list_fmap_compose. apply tags_map, Forall2_fmap_r, Forall_Forall2_diag. by apply Forall_true.
Qed.

(** A missing operand is one of a register. *)
Definition waits_for_reg (op : readreg_issue_op_info_t) : Prop :=
  ri_enable op = true -> (ri_src1_loaded op = false -> ri_rs1_need_map op = true) /\ (ri_src2_loaded op = false -> ri_rs2_need_map op = true).

Lemma read_operand_loaded f efs wfs need phy arg imm src r :
  read_operand f efs wfs need phy arg imm src = Some r -> r.2 = false -> need = true.
Proof. unfold read_operand. destruct need; [done|]. destruct (decide (arg = src_imm)); by intros [= <-]. Qed.

Lemma readreg_slot_kept f efs wfs rev send :
  readreg_slot f efs wfs rev = Some send -> carries_on rev send /\ waits_for_reg send.
Proof.
  unfold readreg_slot. intros E. destruct (rr_enable rev && rr_valid rev); [|by injection E as <-].
  apply bind_Some in E as (s1 & E1 & E). apply bind_Some in E as (s2 & E2 & E). injection E as <-.
  split; [by split|]. intros _. split; cbn; [by eapply read_operand_loaded|by eapply read_operand_loaded].
Qed.

Lemma readreg_slots_kept f efs wfs revs sends :
  readreg_slots f efs wfs revs = Some sends ->
  tags sends = tags revs /\ length sends = length revs /\ Forall waits_for_reg sends.
Proof.
  revert sends. induction revs as [|rev revs IH]; intros sends E; cbn [readreg_slots] in E; [by injection E as <-|].
  apply bind_Some in E as (send & E1 & E). apply bind_Some in E as (sends' & E2 & E). injection E as <-.
  destruct (IH _ E2) as (T & L & F), (readreg_slot_kept _ _ _ _ _ E1) as [[C1 C2] W]. split_and!; [|cbn; by rewrite L|by constructor].
  rewrite !tags_cons, T, C1, C2. done.
Qed.

(** * Rename *)

(** What an entry of the reorder buffer says of its instruction. *)
Definition entry_tag (e : Z * rob_item_t) : tag := (e.1, rob_pc e.2, rob_inst_value e.2, rob_new_phy_reg_id e.2).

Definition unfinished (es : list (Z * rob_item_t)) : list (Z * rob_item_t) := filter (fun e => rob_finish e.2 = false) es.

(** The entries [es] are new, for the slots [new]. *)
Record pushed (r r' : rob) (es : list (Z * rob_item_t)) (new : list rename_readreg_op_info_t) : Prop := {
  pu_ok : rob_ok r';
  pu_entries : rob_entries r' = rob_entries r ++ es;
  pu_queue : rob_sync_request_q r' = rob_sync_request_q r;
  pu_size : size (rob_fifo r') = size (rob_fifo r);
  pu_tags : entry_tag <$> es = tags new;
  pu_unfinished : Forall (fun e => rob_finish e.2 = false) es
}.

Lemma pushed_trans r r1 r2 es1 es2 new1 new2 :
  pushed r r1 es1 new1 -> pushed r1 r2 es2 new2 -> pushed r r2 (es1 ++ es2) (new1 ++ new2).
Proof.
  intros [A1 A2 A3 A4 A5 A6] [B1 B2 B3 B4 B5 B6]. split; [done|by rewrite B2, A2, app_assoc|congruence|congruence| |by apply Forall_app].
  by rewrite fmap_app, tags_app, A5, B5.
Qed.

Lemma rob_push_kept r x id id' r' :
  rob_ok r -> rob_get_new_id r = Some id -> rob_push r x = Some (true, id', r') ->
  rob_ok r' /\ rob_entries r' = rob_entries r ++ [(id, x)] /\ rob_sync_request_q r' = rob_sync_request_q r /\
  size (rob_fifo r') = size (rob_fifo r).
Proof.
  intros Hok Hid E. unfold rob_push in E. unfold rob_get_new_id, fifo_get_new_id in Hid.
  destruct (fifo_is_full (rob_fifo r)) eqn:Ef; [done|]. injection Hid as <-.
  destruct (fifo_entries_push (rob_fifo r) x Hok Ef) as (f' & Ep & Hok' & He & Hs). rewrite Ep in E. cbn in E. injection E as _ <-.
  by split_and!.
Qed.

Lemma source_step_kept t tj : carries_on t (source_step t tj).
Proof. unfold source_step. destruct (rr_enable tj && rr_valid tj && rr_rd_enable tj); [|by split]. cbn zeta. by repeat case_match. Qed.

Lemma source_loop_kept js send_pack t t' : source_loop js send_pack t = Some t' -> carries_on t t'.
Proof.
  revert t. induction js as [|j js IH]; intros t E; cbn [source_loop] in E; [injection E as <-; by split|].
  apply bind_Some in E as (tj & _ & E). destruct (IH _ E) as [E1 E2], (source_step_kept t tj) as [E3 E4].
  split; congruence.
Qed.

Lemma rename_dest_kept i rev v rd old ov v' :
  rename_dest i rev v = Some (rd, old, ov, v') ->
  rv_send_pack v' = rv_send_pack v /\ rn_rob (rv_world v') = rn_rob (rv_world v).
Proof.
  unfold rename_dest. intros E. destruct (dr_valid rev && dr_need_rename rev); [|by injection E as _ _ _ <-].
  steps E. by injection E as _ _ _ <-.
Qed.

Lemma rename_slot_kept mem i rev v t v' :
  rob_ok (rn_rob (rv_world v)) -> dr_enable rev = true -> rename_slot mem i rev v = Some (t, v') ->
  rv_send_pack v' = rv_send_pack v /\ exists e, pushed (rn_rob (rv_world v)) (rn_rob (rv_world v')) [e] [t].
Proof.
  intros Hok Hen E. unfold rename_slot in E. apply bind_Some in E as ([[[rd old] ov] v1] & E1 & E).
  destruct (rename_dest_kept _ _ _ _ _ _ _ E1) as [Hs Hr]. cbv zeta in E.
  apply bind_Some in E as (id & E2 & E). apply bind_Some in E as ([[ret id'] r'] & E3 & E).
  apply bind_Some in E as ([] & E4 & E). destruct ret; [|done]. apply bind_Some in E as (p1 & _ & E). apply bind_Some in E as (p2 & _ & E).
  apply bind_Some in E as (t1 & E5 & E). apply bind_Some in E as (b & _ & E). injection E as <- <-.
  rewrite Hr in E2, E3. destruct (rob_push_kept _ _ _ _ _ Hok E2 E3) as (Hok' & He & Hq & Hz). split; [done|].
  set (t0 := (rename_op_of rev) <| rr_rd_phy := rd |> <| rr_rob_id := id |> <| rr_rs1_phy := p1 |> <| rr_rs2_phy := p2 |>) in E5.
  assert (carries_on t0 t1) as [C1 C2] by (destruct (dr_valid rev); [by eapply source_loop_kept|by injection E5 as <-]).
  eexists. split; [done|exact He|done|done| |by constructor]. rewrite tags_cons, C1, C2.
  change (pk_enable t0) with (dr_enable rev). by rewrite Hen.
Qed.

Lemma rename_move_kept mem i v v' done n :
  rob_ok (rn_rob (rv_world v)) -> rv_send_pack v = done ++ repeat rename_readreg_op_info_zero (S n) -> length done = i ->
  rename_move mem i v = Some v' ->
  exists t es, rv_send_pack v' = (done ++ [t]) ++ repeat rename_readreg_op_info_zero n /\
    pushed (rn_rob (rv_world v)) (rn_rob (rv_world v')) es [t].
Proof.
  intros Hok Hsend Hi E. unfold rename_move in E. apply bind_Some in E as ([o f] & _ & E). apply bind_Some in E as (rev & -> & E).
  cbv zeta in E. apply bind_Some in E as ([t v1] & E1 & E). apply bind_Some in E as (sp & E2 & E). injection E as <-.
  assert (exists es, rv_send_pack v1 = rv_send_pack v /\ pushed (rn_rob (rv_world v)) (rn_rob (rv_world v1)) es [t]) as (es & Hs & Hp).
  { destruct (dr_enable rev) eqn:Hen.
    - apply rename_slot_kept in E1 as (Hs & e & Hp); [|exact Hok|exact Hen]. by exists [e].
    - injection E1 as <- <-. exists []. split; [done|]. split; try done; [by rewrite app_nil_r|].
      by rewrite tags_none by (by constructor). }
  exists t, es. split; [|done]. cbn. rewrite Hs, Hsend, <- Hi in E2. cbn [repeat] in E2. rewrite arr_set_middle in E2.
  injection E2 as <-. by rewrite <- app_assoc.
Qed.

Lemma rename_loop_kept mem n i v v' done :
  rob_ok (rn_rob (rv_world v)) -> rv_send_pack v = done ++ repeat rename_readreg_op_info_zero n -> length done = i ->
  rename_loop mem n i v = Some v' ->
  exists new k es, rv_send_pack v' = done ++ new ++ repeat rename_readreg_op_info_zero k /\ (length new + k)%nat = n /\
    pushed (rn_rob (rv_world v)) (rn_rob (rv_world v')) es new.
Proof.
  revert i v done. induction n as [|n IH]; intros i v done Hok Hsend Hi E; cbn [rename_loop] in E.
  { injection E as <-. exists [], 0%nat, []. split_and!; [by rewrite Hsend|done|]. split; try done. by rewrite app_nil_r. }
  assert (forall w, rv_send_pack w = rv_send_pack v -> rn_rob (rv_world w) = rn_rob (rv_world v) ->
    exists new k es, rv_send_pack w = done ++ new ++ repeat rename_readreg_op_info_zero k /\ (length new + k)%nat = S n /\
      pushed (rn_rob (rv_world v)) (rn_rob (rv_world w)) es new) as Hstop.
  { intros w H1 H2. exists [], (S n), []. rewrite H1, H2. split_and!; [done|done|]. split; try done. by rewrite app_nil_r. }
  apply bind_Some in E as ([go v1] & E1 & E). unfold rename_one in E1.
  destruct (negb (fifo_is_empty _)); [|injection E1 as <- <-; injection E as <-; by apply Hstop].
  apply bind_Some in E1 as (o & _ & E1). apply bind_Some in E1 as (rev & _ & E1). cbv zeta in E1.
  apply bind_Some in E1 as (free & _ & E1). apply bind_Some in E1 as (ids & _ & E1).
  match type of E1 with (if ?b then (v ← rename_move mem i ?w; _) else _) = _ =>
    assert (rv_send_pack w = rv_send_pack v /\ rv_world w = rv_world v) as [Hw1 Hw2] by (by destruct (dr_enable rev), (dr_valid rev), (dr_need_rename rev));
    destruct b; [set (w0 := w) in *; clearbody w0|] end.
  - apply bind_Some in E1 as (v2 & E1 & E2). injection E2 as <- <-. rewrite <- Hw1 in Hsend. rewrite <- Hw2 in Hok |- *.
    destruct (rename_move_kept _ _ _ _ done n Hok Hsend Hi E1) as (t & es & Hs & Hp).
    destruct (IH (S i) v2 (done ++ [t]) (pu_ok _ _ _ _ Hp) Hs) as (new & k & es2 & Hs2 & Hl & Hp2); [rewrite length_app; cbn; lia|done|].
    exists (t :: new), k, (es ++ es2). split_and!; [by rewrite Hs2, <- app_assoc|cbn; lia|].
    exact (pushed_trans _ _ _ es es2 [t] new Hp Hp2).
  - injection E1 as <- <-. injection E as <-. apply Hstop; unfold rename_block; cbn; repeat case_match; cbn; by rewrite ?Hw1, ?Hw2.
Qed.
