(* ===== verification/FlowIssue.v ===== *)
(** The issue stage keeps the instructions it is given: those of the group, of
    its queue and of the queues of the units are the same before and after a
    cycle without a flush, whatever the values of the operands. *)

From Stdlib Require Import ZArith Lia.
From stdpp Require Import base numbers list option tactics.
From S2P Require Import Prelude Common Fifo FifoIds IdQueue IssueQueue Regfile PipelineCommon StoreBuffer Packs Execute ExecuteLsu WriteBack Issue IssueSelect IssueCycle Core Flight FlowStages.

Local Open Scope Z_scope.

(** The instructions in the queues of the units. *)
Definition queued (s : issue_world) : list tag := tags (unit_all (is_unit_fifo s) ≫= fifo_items).

(** * Dispatch *)

(** One list of [unit_all] is replaced. *)
Lemma unit_all_set {A B} `{Packet B} (g : A -> list B) (p : per_unit (list A)) u l x :
  tags (l ≫= g) ≡ₚ tags (unit_sel p u ≫= g) ++ x -> tags (unit_all (unit_set p u l) ≫= g) ≡ₚ tags (unit_all p ≫= g) ++ x.
Proof.
  destruct p as [a b c d m n]. unfold unit_all. destruct u; cbn; rewrite !bind_app, !tags_app; intros ->; solve_Permutation.
Qed.

Lemma insert_tags {A B} `{Packet B} (g : A -> list B) (l : list A) j x y z :
  l !! j = Some x -> g y = g x ++ z -> tags (<[j := y]> l ≫= g) ≡ₚ tags (l ≫= g) ++ tags z.
Proof.
  revert j. induction l as [|a l IH]; intros [|j] Hj Hy; cbn in Hj; try done; cbn [insert list_insert].
  - injection Hj as ->. rewrite !bind_cons, Hy, !tags_app. solve_Permutation.
  - rewrite !bind_cons, !tags_app, (IH j) by done. solve_Permutation.
Qed.

Lemma dispatch_queued p s s' : units_ok s -> dispatch p s = Some (true, s') -> queued s' ≡ₚ queued s ++ tags [p].
Proof.
  intros U E. unfold dispatch in E. apply bind_Some in E as ([j|] & _ & E); [|by injection E].
  apply bind_Some in E as (f & Ef & E). apply bind_Some in E as ([ret f'] & Ep & E). apply bind_Some in E as ([] & Er & E).
  apply bind_Some in E as (fs & Es & E). injection E as <-. destruct ret; [|done].
  apply arr_get_Some in Ef as [Hj Ef]. pose proof (uo_fifo _ U _ _ _ Ef) as Hok.
  assert (fifo_is_full f = false) as Hfull.
  { unfold fifo_push in Ep. destruct (fifo_is_full f); [by injection Ep|done]. }
  destruct (fifo_items_push f p Hok Hfull) as (g & Eg & _ & Hg). rewrite Ep in Eg. injection Eg as <-.
  pose proof (lookup_lt_Some _ _ _ Ef) as Hlt. rewrite arr_set_eq in Es by lia. injection Es as <-.
  unfold queued. cbn [is_unit_fifo upd]. apply unit_all_set. by apply (insert_tags _ _ _ f).
Qed.

(** * Output *)

(** An element of the queue: a missing operand is one of a register. *)
Record item_flow (t : issue_queue_item_t) : Prop := {
  if_enable : it_enable t = true;
  if_src1 : it_src1_loaded t = false -> it_rs1_need_map t = true;
  if_src2 : it_src2_loaded t = false -> it_rs2_need_map t = true
}.

Lemma feedback_flow t v : item_flow t -> item_flow (with_feedback t v).
Proof. intros [H1 H2 H3]. destruct v as [f1 f2]. split; [done|..]; cbn; intros [_ H]%orb_false_iff; auto. Qed.

Lemma feedback_carries t v : carries_on t (with_feedback t v).
Proof. by destruct v. Qed.

Lemma lsu_address_carries p q : lsu_address p = Some q -> carries_on p q /\ ie_op_unit q = ie_op_unit p.
Proof.
  unfold lsu_address. intros E. destruct (_ && _); [|injection E as <-; by repeat split].
  apply bind_Some in E as (op & _ & E). destruct (lsu_access op) as [[a b] c]. injection E as <-. by repeat split.
Qed.

Section output.
Context (efs : list execute_feedback_channel_t) (wfs : wb_feedback_pack_t) (cfp : commit_feedback_pack_t).
Context (He : length efs = Z.to_nat EXECUTE_UNIT_NUM) (Hw : length wfs = Z.to_nat EXECUTE_UNIT_NUM).

Lemma feedback_take_some t e w v :
  (is_Some v.1 -> is_Some (feedback_take t e w v).1) /\ (is_Some v.2 -> is_Some (feedback_take t e w v).2) /\
  (fb_enable e = true -> waits1 t (fb_phy_id e) = true -> is_Some (feedback_take t e w v).1) /\
  (fb_enable e = true -> waits2 t (fb_phy_id e) = true -> is_Some (feedback_take t e w v).2).
Proof.
  destruct v as [f1 f2]. unfold feedback_take. cbn.
  destruct (fb_enable e), (waits1 t (fb_phy_id e)), (waits2 t (fb_phy_id e)), (wf_enable w), (waits1 t (wf_phy_id w)), (waits2 t (wf_phy_id w));
    cbn; repeat case_match; cbn; split_and!; intros; try done; by eexists.
Qed.

(** An operand a unit computes in this cycle is taken. *)
Lemma feedback_ready t v :
  item_flow t -> is_ready efs t = true -> channels (feedback_take t) efs wfs (None, None) = Some v ->
  it_src1_loaded (with_feedback t v) = true /\ it_src2_loaded (with_feedback t v) = true.
Proof.
  intros [_ N1 N2] [R1 R2]%andb_true_iff E. rewrite (channels_fold efs wfs He Hw) in E. injection E as <-.
  assert (forall (ps : list (execute_feedback_channel_t * wb_feedback_channel_t)) v,
    (is_Some v.1 \/ Exists (fun p => fb_enable p.1 = true /\ waits1 t (fb_phy_id p.1) = true) ps ->
       is_Some (foldl (fun a p => feedback_take t p.1 p.2 a) v ps).1) /\
    (is_Some v.2 \/ Exists (fun p => fb_enable p.1 = true /\ waits2 t (fb_phy_id p.1) = true) ps ->
       is_Some (foldl (fun a p => feedback_take t p.1 p.2 a) v ps).2)) as Hfold.
  { induction ps as [|[e w] ps IH]; intros v; cbn [foldl].
    - split; intros [H|H]; try done; by inversion H.
    - destruct (IH (feedback_take t e w v)) as [IH1 IH2]. destruct (feedback_take_some t e w v) as (A & B & C & D).
      split; intros [H|H]; first [apply IH1|apply IH2]; try (left; by auto); (inversion H as [? ? [? ?]|]; subst; cbn in *; [left; by auto|by right]). }
  assert (forall phy, broadcast efs phy = true -> exists p, p ∈ zip efs wfs /\ fb_enable p.1 = true /\ phy = fb_phy_id p.1) as Hb.
  { intros phy H. unfold broadcast in H. apply existsb_exists in H as (e & Hin & [H1 H2%Z.eqb_eq]%andb_true_iff).
    apply list_elem_of_In, list_elem_of_lookup in Hin as [k Hk]. pose proof (lookup_lt_Some _ _ _ Hk).
    destruct (lookup_lt_is_Some_2 wfs k) as [w Hwk]; [lia|]. exists (e, w). split; [|done].
    apply (list_elem_of_lookup_2 _ k). by rewrite lookup_zip_with, Hk, Hwk. }
  destruct (Hfold (zip efs wfs) (None, None)) as [F1 F2]. set (v := foldl _ _ _) in *. clearbody v. destruct v as [f1 f2]. cbn in *.
  split; [destruct (it_src1_loaded t) eqn:L|destruct (it_src2_loaded t) eqn:L]; rewrite ?orb_true_r; try done; rewrite orb_false_r;
    apply bool_decide_eq_true; [apply F1|apply F2]; right; apply list.Exists_exists; cbn in R1, R2.
  - destruct (Hb _ R1) as (p & Hp & Hen & Hphy). exists p. unfold waits1. rewrite L, N1, Hphy, Z.eqb_refl by done. done.
  - destruct (Hb _ R2) as (p & Hp & Hen & Hphy). exists p. unfold waits2. rewrite L, N2, Hphy, Z.eqb_refl by done. done.
Qed.

(** What one element does on its way to a unit. *)
Lemma issue_one_flow t s c s' :
  units_ok s -> item_flow t -> is_ready efs t = true -> (0 < issue_room s (it_op_unit t))%nat -> is_inst_waiting s = false ->
  issue_one efs wfs cfp t s = Some (c, s') ->
  c = negb (serial t) /\ is_inst_waiting s' = serial t /\ units_ok s' /\ queued s' ≡ₚ queued s ++ tags [t] /\
  is_issue_q s' = is_issue_q s /\ is_busy s' = is_busy s /\ is_last_index s' = is_last_index s /\
  (forall u, (issue_room s u <= issue_room s' u + (if decide (u = it_op_unit t) then 1 else 0))%nat).
Proof.
  intros U Ht Hr Hroom Hwait E. unfold issue_one in E. apply bind_Some in E as (s1 & E1 & E).
  assert (s1 = if serial t then s <| is_inst_waiting := true |> <| is_inst_waiting_rob_id := it_rob_id t |> else s) as ->.
  { destruct (serial t); [apply bind_Some in E1 as (? & _ & E1)|]; by injection E1 as <-. }
  clear E1. set (s1 := if serial t then _ else s) in *.
  assert (units_ok s1) as U1 by (unfold s1; destruct (serial t); destruct U; done).
  assert (issue_room s1 = issue_room s /\ queued s1 = queued s /\ is_issue_q s1 = is_issue_q s /\ is_busy s1 = is_busy s /\
    is_last_index s1 = is_last_index s /\ is_inst_waiting s1 = serial t) as (R1 & Q1 & I1 & B1 & L1 & W1).
  { unfold s1. by destruct (serial t). }
  clearbody s1. apply bind_Some in E as (v & E2 & E). cbv zeta in E.
  assert (it_src1_loaded (with_feedback t v) = true /\ it_src2_loaded (with_feedback t v) = true) as [F1 F2].
  { destruct (it_src1_loaded t && it_src2_loaded t) eqn:El; cbn [negb] in E2; [|by apply (feedback_ready t v Ht Hr)].
    injection E2 as <-. apply andb_true_iff in El as [El1 El2]. cbn. by rewrite El1, El2. }
  rewrite F1, F2, andb_false_r in E. apply bind_Some in E as (p & E3 & E). apply bind_Some in E as ([c1 s2] & E4 & E).
  destruct (lsu_address_carries _ _ E3) as [Hc Hu]. assert (ie_op_unit p = it_op_unit t) as Hut by (rewrite Hu; by destruct v).
  destruct (dispatch_ref p s1 U1) as (j & s3 & E5 & [U3 _ D3 D4 D5 _ _] & W3 & _ & R3); [by rewrite Hut, R1|].
  rewrite E4 in E5. injection E5 as -> ->. injection E as <- <-. rewrite W3, W1. split_and!; try done; try congruence.
  - assert (carries_on t (pack_of (with_feedback t v))) as Hv by (by destruct v).
    by rewrite (dispatch_queued _ _ _ U1 E4), Q1, (carries_on_tags _ _ Hc), (carries_on_tags _ _ Hv).
  - intros u. rewrite <- R1, <- Hut. apply R3.
Qed.

Lemma issue_output_flow ts items s i s' :
  units_ok s -> Forall item_flow ts -> Forall (fun t => is_ready efs t = true) ts ->
  (forall u, (demand ts u <= issue_room s u)%nat) -> is_inst_waiting s = false ->
  (forall t, t ∈ ts -> serial t = true -> ts = [t]) ->
  take (length ts) (drop i items) = ts -> (i + length ts <= Z.to_nat ISSUE_WIDTH)%nat ->
  issue_output efs wfs cfp (Z.of_nat <$> seq i (Z.to_nat ISSUE_WIDTH - i)) items (Z.of_nat (i + length ts)) s = Some s' ->
  units_ok s' /\ queued s' ≡ₚ queued s ++ tags ts /\ is_issue_q s' = is_issue_q s /\ is_busy s' = is_busy s /\
  is_last_index s' = is_last_index s.
Proof.
  revert s i. induction ts as [|t ts IH]; intros s i U Hok Hrd Hroom Hwait Hser Htake Hlen E.
  { rewrite Nat.add_0_r in E. assert (s' = s) as ->; [|by rewrite app_nil_r].
    destruct (seq i _) as [|i' js] eqn:Es; [by injection E|]. cbn [fmap list_fmap issue_output] in E.
    assert (i' = i) as -> by (destruct (Z.to_nat ISSUE_WIDTH - i)%nat; cbn in Es; congruence).
    destruct (Z.leb_spec (Z.of_nat i) (Z.of_nat i)); [by injection E|lia]. }
  cbn [length] in *. replace (Z.to_nat ISSUE_WIDTH - i)%nat with (S (Z.to_nat ISSUE_WIDTH - S i)) in E by lia.
  cbn [seq fmap list_fmap issue_output] in E. destruct (Z.leb_spec (Z.of_nat (i + S (length ts))) (Z.of_nat i)); [lia|].
  assert (items !! i = Some t) as Hi.
  { rewrite <- (Nat.add_0_r i), <- lookup_drop. destruct (drop i items); [done|]. cbn in Htake. by injection Htake as -> _. }
  rewrite arr_get_lookup, Nat2Z.id, Hi in E by lia. cbn [mbind option_bind] in E.
  apply list.Forall_cons in Hok as [Ht Hok]. apply list.Forall_cons in Hrd as [Hr Hrd]. rewrite (if_enable _ Ht) in E.
  apply bind_Some in E as ([c s1] & E1 & E).
  destruct (issue_one_flow t s c s1 U Ht Hr) as (-> & W1 & U1 & Q1 & I1 & B1 & L1 & R); [|done|done|].
  { specialize (Hroom (it_op_unit t)). rewrite demand_cons, decide_True in Hroom by done. lia. }
  rewrite (drop_S _ _ _ Hi) in Htake. cbn in Htake. injection Htake as Htake.
  change (tags (t :: ts)) with (tags ([t] ++ ts)). rewrite tags_app.
  destruct (serial t) eqn:Es; cbn [negb] in E.
  - assert (ts = []) as -> by (assert (t :: ts = [t]) as E' by (apply (Hser t); [left|done]); by injection E').
    injection E as <-. rewrite app_nil_r. by split_and!.
  - destruct (IH s1 (S i)) as (U2 & Q2 & I2 & B2 & L2); [done|done|done| |done| |done|lia| |].
    + intros u. specialize (Hroom u). specialize (R u). rewrite demand_cons in Hroom. case_decide; lia.
    + intros t' Ht' Es'. assert (t :: ts = [t']) as E' by (apply Hser; [by right|done]). injection E' as -> ->.
      by apply not_elem_of_nil in Ht'.
    + by replace (S i + length ts)%nat with (i + S (length ts))%nat by lia.
    + split_and!; try congruence. rewrite Q2, Q1. solve_Permutation.
Qed.
End output.

(** * Selection *)

Lemma issue_select_enabled sb efs cfp s v : issue_select sb efs cfp s = Some v -> cf_enable cfp = true.
Proof.
  unfold issue_select. intros E. apply bind_Some in E as (id & _ & E). destruct (length _) as [|n]; [done|]. cbn [select_loop] in E.
  apply bind_Some in E as ([stop v1] & E & _). unfold select_body in E.
  apply bind_Some in E as (t & _ & E). apply bind_Some in E as (items & _ & E). cbn in E. rewrite andb_false_r in E.
  apply bind_Some in E as ([] & E & _). by destruct (cf_enable cfp).
Qed.

Lemma window_items {T} (f : fifo T) l b st : window f l b st -> fifo_items f = l.
Proof.
  intros W. unfold fifo_items. rewrite (window_entries _ _ _ _ W). rewrite fmap_imap. apply list_eq. intros i.
  rewrite list_lookup_imap. by destruct (l !! i).
Qed.

(** Removing positions takes the elements at them. *)
Lemma pick_remove {A} (l pre : list A) ps :
  ordered (length pre) (length (pre ++ l)) ps -> pick (pre ++ l) ps ++ remove_at (length pre) ps l ≡ₚ l.
Proof.
  revert pre ps. induction l as [|x l IH]; intros pre [|p ps] Ho; cbn [remove_at].
  - done.
  - cbn in Ho. rewrite app_nil_r in Ho. lia.
  - cbn. by rewrite remove_at_nil.
  - assert (pre ++ x :: l = (pre ++ [x]) ++ l) as Ep by (by rewrite <- app_assoc).
    assert (length (pre ++ [x]) = S (length pre)) as El by (rewrite length_app; cbn; lia).
    destruct Ho as [Hp Ho]. case_decide as E.
    + subst p. rewrite (pick_cons _ _ _ x) by (rewrite lookup_app_r, Nat.sub_diag by lia; done).
      rewrite Ep in Ho |- *. rewrite <- El in Ho |- *. cbn [app]. by rewrite (IH _ _ Ho).
    + assert (ordered (length (pre ++ [x])) (length ((pre ++ [x]) ++ l)) (p :: ps)) as Ho'.
      { rewrite El. split; [|by rewrite <- Ep]. rewrite <- Ep. lia. }
      apply IH in Ho'. rewrite <- Ep, El in Ho'. etrans; [|exact (perm_skip x Ho')]. solve_Permutation.
Qed.

Lemma remove_at_fmap {A B} (g : A -> B) k ps l : remove_at k ps (g <$> l) = g <$> remove_at k ps l.
Proof.
  revert k ps. induction l as [|x l IH]; intros k ps; [done|]. rewrite fmap_cons. cbn [remove_at].
  destruct ps as [|p ps]; [by rewrite IH|]. case_decide; rewrite IH; done.
Qed.

Lemma wake_tags rs l : tags (wake rs <$> l) = tags l.
Proof. apply tags_map, Forall2_fmap_r, Forall_Forall2_diag. by apply Forall_true. Qed.

Section cycle.
Context (f : regfile phy_regfile_item_t) (sb : store_buffer) (efs : list execute_feedback_channel_t)
  (wfs : wb_feedback_pack_t) (cfp : commit_feedback_pack_t).
Context (He : length efs = Z.to_nat EXECUTE_UNIT_NUM) (Hw : length wfs = Z.to_nat EXECUTE_UNIT_NUM).
Abbreviation rs := (results efs wfs).

Lemma issue_front_flow l b st s ids s' :
  units_ok s -> Forall item_flow l -> window (iq_fifo (is_issue_q s)) l b st ->
  (if may_issue cfp s then
     if fifo_is_empty (iq_fifo (is_issue_q s)) then Some ([], s <| is_inst_waiting := false |>)
     else
       v ← issue_select sb efs cfp (s <| is_inst_waiting := false |>);
       s ← issue_output efs wfs cfp (upto ISSUE_WIDTH) (sv_items v) (Z.of_nat (length (sv_item_id_list v))) (s <| is_inst_waiting := false |>);
       Some (sv_item_id_list v, s)
   else Some ([], s)) = Some (ids, s') ->
  ids = map (slot (iq_fifo (is_issue_q s)) b) (selection sb efs cfp l s) /\ units_ok s' /\
  queued s' ≡ₚ queued s ++ tags (pick l (selection sb efs cfp l s)) /\
  is_issue_q s' = is_issue_q s /\ is_busy s' = is_busy s /\ is_last_index s' = is_last_index s.
Proof.
  intros U Hok W E. destruct (selection_ready sb efs cfp l s Hok) as (Hok' & Hrd & Hser).
  pose proof (selection_ordered sb efs cfp l s) as Ho. unfold selection in *. destruct (may_issue cfp s).
  2: { injection E as <- <-. by rewrite app_nil_r. }
  set (s1 := s <| is_inst_waiting := false |>) in *. assert (units_ok s1) as U1 by (destruct U; by split).
  rewrite (window_empty W) in E. case_bool_decide as El.
  { subst l. injection E as <- <-. cbn. by rewrite app_nil_r. }
  change (issue_room s) with (issue_room s1) in *. set (ps := select_ref _ _ _ _ _ _ _ l) in *.
  apply bind_Some in E as (v & Es & E). apply bind_Some in E as (s2 & Eo & E). injection E as <- <-.
  destruct (issue_select_ref sb efs cfp He (issue_select_enabled _ _ _ _ _ Es) s1 l b st W El (uo_len _ U1)) as (v' & E' & Hids & Htake).
  rewrite Es in E'. injection E' as <-. fold ps in Hids, Htake.
  assert (length (pick l ps) = length ps) as Hpl by (by apply (pick_length _ 0)).
  split; [done|]. rewrite Hids, length_map, <- Hpl in Eo.
  destruct (issue_output_flow efs wfs cfp He Hw (pick l ps) (sv_items v) s1 0 s2 U1 Hok' Hrd) as (U2 & Q & I & B & L);
    [|done|done| | | |by split_and!].
  - intros u. apply select_ref_demand.
  - by rewrite drop_0, Hpl, Htake.
  - rewrite Hpl. apply (select_ref_width _ _ _ _ 0). unfold ISSUE_WIDTH. lia.
  - by rewrite Nat.sub_0_r.
Qed.

(** * Intake *)

Lemma load_source_loaded loaded need phy value r : load_source f loaded need phy value = Some r -> r.2 = false -> loaded = false.
Proof.
  unfold load_source. intros E. destruct (negb loaded && need) eqn:En; [|by injection E as <-].
  by apply andb_true_iff in En as [->%negb_true_iff _].
Qed.

Lemma enter_item_flow op t :
  waits_for_reg op -> ri_enable op = true -> enter_item f efs wfs op = Some t -> item_flow t /\ carries_on op t.
Proof.
  intros Hw0 Hen E. destruct (Hw0 Hen) as [N1 N2]. unfold enter_item in E. cbn [it_valid item_of] in E. destruct (ri_valid op); [|by injection E as <-].
  apply bind_Some in E as (s1 & E1 & E). cbn in E.
  apply bind_Some in E as (s2 & E2 & E). rewrite (channels_wake efs wfs He Hw) in E. injection E as <-.
  split; [|by split]. apply feedback_flow. split; [done|..]; cbn; intros H.
  - apply N1. by eapply (load_source_loaded _ _ _ _ _ E1).
  - apply N2. by eapply (load_source_loaded _ _ _ _ _ E2).
Qed.

Lemma issue_input_flow rev n s l b st i finish s' :
  window (iq_fifo (is_issue_q s)) l b st -> Forall item_flow l -> is_last_index s = Z.of_nat i -> length rev = (i + n)%nat ->
  Z.of_nat (i + n) < 2 ^ 31 -> Forall waits_for_reg rev -> issue_input f efs wfs n rev s = Some (finish, s') ->
  exists new i', same_issue s s' /\ window (iq_fifo (is_issue_q s')) (l ++ new) b st /\ Forall item_flow (l ++ new) /\
    tags new ++ tags (drop i' rev) = tags (drop i rev) /\ is_last_index s' = Z.of_nat i' /\
    (if finish then i' = (i + n)%nat else (i' < i + n)%nat).
Proof.
  intros W Hok Hi Hlen Hb Hrev E. revert s l i W Hok Hi Hlen Hb E. induction n as [|n IH]; intros s l i W Hok Hi Hlen Hb E; cbn [issue_input] in E.
  { injection E as <- <-. exists [], i. rewrite app_nil_r. split_and!; try done; lia. }
  destruct (lookup_lt_is_Some_2 rev i) as [op Hop]; [lia|]. rewrite (drop_S _ _ _ Hop) in *.
  rewrite Hi, arr_get_lookup, Nat2Z.id, Hop in E by lia. cbn [mbind option_bind] in E.
  assert (u32 (Z.of_nat i + 1) = Z.of_nat (S i)) as Hu by (rewrite u32_small; lia).
  assert (waits_for_reg op) as Hwait by (eapply list.Forall_forall; [exact Hrev|by apply (list_elem_of_lookup_2 _ i)]).
  rewrite tags_cons. change (pk_enable op) with (ri_enable op). destruct (ri_enable op) eqn:Een; cbn [negb] in E.
  2: { apply (IH _ l (S i)) in E as (new & i' & S1 & W1 & F1 & T1 & L1 & Hfin); [|done|done|cbn; by rewrite ?Hi|lia|lia].
       exists new, i'. split_and!; try done. destruct finish; lia. }
  rewrite (window_full W) in E. case_bool_decide as Hfull.
  { injection E as <- <-. exists [], i. rewrite app_nil_r, (drop_S _ _ _ Hop), tags_cons. change (pk_enable op) with (ri_enable op).
    rewrite Een. split_and!; try done. lia. }
  apply bind_Some in E as (t & Et & E). apply bind_Some in E as ([r f'] & Ep & E).
  destruct (enter_item_flow op t Hwait Een Et) as [Ht Hc]. destruct (window_facts W) as (_ & _ & _ & Hll & _).
  destruct (window_push W t) as (f1 & Ep1 & W1 & Hcap & _); [lia|]. rewrite Ep in Ep1. injection Ep1 as -> ->.
  apply (IH _ (l ++ [t]) (S i)) in E as (new & i' & S1 & W2 & F1 & T1 & L1 & Hfin);
    [|done|by apply Forall_app; split; [|constructor]|cbn; by rewrite ?Hi|lia|lia].
  exists (t :: new), i'. rewrite <- (app_assoc (A := issue_queue_item_t)) in W2, F1. split_and!; try done.
  - destruct S1 as (A1 & A2 & A3 & A4 & A5 & A6 & A7). cbn in A1, A2, A3, A4, A5, A6, A7. unfold same_issue. rewrite Hcap. by split_and!.
  - rewrite tags_cons. destruct Hc as [-> ->]. change (pk_enable op) with (ri_enable op). by rewrite Een, <- T1, app_assoc.
  - destruct finish; lia.
Qed.

(** * The cycle *)

(** The stage with elements that can be issued. *)
Record issue_ready (s : issue_world) : Prop := {
  ir_units : units_ok s;
  ir_queue : fifo_ok (iq_fifo (is_issue_q s));
  ir_requests : iq_sync_request_q (is_issue_q s) = [];
  ir_items : Forall item_flow (fifo_items (iq_fifo (is_issue_q s)));
  ir_index : is_busy s = true -> 0 <= is_last_index s < READREG_WIDTH
}.

Lemma issue_flow port s stall s' :
  flushes cfp = false -> issue_ready s -> Z.of_nat (length (port_get port)) = READREG_WIDTH -> Forall waits_for_reg (port_get port) ->
  issue_run f sb efs wfs cfp port s = Some (stall, s') ->
  issue_ready s' /\ is_busy s' = stall /\
  (if stall then tags (group_rest s' (port_get port)) else []) ++ tags (fifo_items (iq_fifo (is_issue_q s'))) ++ queued s' ≡ₚ
    tags (group_rest s (port_get port)) ++ tags (fifo_items (iq_fifo (is_issue_q s))) ++ queued s.
Proof.
  intros Hfl [U (l & b & st & W) Hq Hok Hidx] Hlen Hrev E. unfold issue_run in E. rewrite Hfl in E. cbn [negb] in E.
  set (rev := port_get port) in *. rewrite (window_items _ _ _ _ W) in *. unfold issue_normal in E. fold (may_issue cfp s) in E. cbv zeta in E.
  apply bind_Some in E as ([ids s2] & E1 & E). change (is_issue_q (s <| is_inst_waiting := false |>)) with (is_issue_q s) in E1.
  destruct (issue_front_flow l b st s ids s2 U Hok W E1) as (-> & U2 & Q2 & I2 & B2 & L2). clear E1.
  set (ps := selection sb efs cfp l s) in *. pose proof (selection_ordered sb efs cfp l s) as Ho. fold ps in Ho.
  apply bind_Some in E as (q3 & E3 & E).
  destruct (issue_wake_ref efs wfs He Hw (is_issue_q s2) l b st ps) as (ws & Ewake & Hws); [by rewrite I2|done|].
  rewrite I2 in E3, Ewake. rewrite E3 in Ewake. injection Ewake as ->. clear E3.
  set (q3 := (is_issue_q s) <| iq_sync_request_q ::= fun r => r ++ (set_request (iq_fifo (is_issue_q s)) b <$> ws) |>) in *.
  set (s3 := s2 <| is_issue_q := q3 |>) in *.
  set (s4 := if is_busy s3 then s3 else s3 <| is_busy := true |> <| is_last_index := 0 |>) in *.
  set (i := Z.to_nat (is_last_index s4)).
  assert (is_last_index s4 = Z.of_nat i /\ (i <= Z.to_nat READREG_WIDTH)%nat /\ is_busy s4 = true /\ is_issue_q s4 = q3 /\
          is_unit_fifo s4 = is_unit_fifo s2 /\ is_unit_index s4 = is_unit_index s2 /\ group_rest s rev = drop i rev)
    as (Hi & Hile & Hb4 & Hq4 & Hf4 & Hx4 & Hpend).
  { unfold i, s4, group_rest. change (is_busy s3) with (is_busy s2). change (is_last_index s3) with (is_last_index s2).
    rewrite B2. destruct (is_busy s) eqn:Eb; cbn; rewrite ?L2, ?B2, ?Eb.
    - specialize (Hidx eq_refl). split_and!; try done; lia.
    - by split_and!; try lia. }
  clearbody s4 i. apply bind_Some in E as ([finish s5] & E5 & E).
  destruct (issue_input_flow rev (Z.to_nat (READREG_WIDTH - is_last_index s4)) s4 l b st i finish s5)
    as (new & i' & (G1 & G2 & G3 & G4 & G5 & G6 & G7) & W5 & Hok5 & T5 & L5 & Hfin);
    [by rewrite Hq4|done|done|lia|unfold READREG_WIDTH, RENAME_WIDTH in *; lia|done|done|].
  apply bind_Some in E as (q6 & E6 & E). injection E as <- <-.
  set (s6 := if finish then s5 <| is_busy := false |> <| is_last_index := 0 |> else s5) in *.
  assert (is_issue_q s6 = is_issue_q s5 /\ is_unit_fifo s6 = is_unit_fifo s2 /\ is_unit_index s6 = is_unit_index s2 /\
    is_busy s6 = negb finish /\ (finish = false -> is_last_index s6 = Z.of_nat i')) as (A1 & A2 & A3 & A4 & A5).
  { unfold s6. destruct finish; cbn; split_and!; intros; congruence. }
  destruct (issue_sync_ref efs wfs He Hw (is_issue_q s5) (iq_fifo (is_issue_q s)) l new b st ps ws) as (q6' & E6' & W6 & R6);
    [done|by rewrite G7, Hq4|done|done|by rewrite G6, Hq4; unfold q3; cbn; rewrite Hq|].
  rewrite A1, E6' in E6. injection E6 as ->. clearbody s6. clear E6'.
  assert (fifo_items (iq_fifo q6) = remove_at 0 ps (wake rs <$> l) ++ new) as Hitems by (by apply window_items in W6).
  apply Forall_app in Hok5 as [_ Hnew]. split_and!.
  - split; cbn [is_issue_q is_busy is_last_index upd].
    + destruct U2 as [V1 V2 V3]. split; cbn [is_unit_fifo is_unit_index upd]; rewrite ?A2, ?A3; done.
    + by eexists _, _, _.
    + done.
    + rewrite Hitems. apply Forall_app. split; [|done]. rewrite remove_at_fmap. apply list.Forall_forall.
      intros t (t0 & -> & Ht0%remove_at_elem)%list_elem_of_fmap. apply feedback_flow. by apply (proj1 (list.Forall_forall _ _) Hok).
    + rewrite A4. intros ->%negb_true_iff. rewrite A5 by done. lia.
  - done.
  - cbn [is_issue_q is_busy is_last_index upd]. rewrite Hitems, tags_app, Hpend, <- T5, A4.
    change (queued (s6 <| is_issue_q := q6 |>)) with (queued s6). assert (queued s6 = queued s2) as -> by (unfold queued; by rewrite A2).
    rewrite Q2, remove_at_fmap, wake_tags.
    assert (tags l ≡ₚ tags (pick l ps) ++ tags (remove_at 0 ps l)) as -> by (rewrite <- tags_app; symmetry; f_equiv; by apply (pick_remove l [])).
    assert ((if negb finish then tags (group_rest (s6 <| is_issue_q := q6 |>) rev) else []) = tags (drop i' rev)) as ->.
    { destruct finish; cbn [negb].
      - rewrite drop_ge by lia. done.
      - unfold group_rest. cbn [is_busy is_last_index upd]. by rewrite A4, A5, Nat2Z.id by done. }
    solve_Permutation.
Qed.
End cycle.
