(* ===== verification/FlowCommit.v ===== *)
(** Commit and the instructions in flight: what a cycle of commit does to the
    entries of the reorder buffer that wait for their packets. *)

From Stdlib Require Import ZArith Lia.
From stdpp Require Import base numbers list option tactics.
From S2P Require Import Prelude Common Fifo FifoIds IdQueue CheckpointBuffer Rat Regfile CsrFile InterruptInterface Rob PipelineCommon Packs BranchPredictor Execute WriteBack Rename Commit CommitRetire CommitWalk Issue Core Flight FlowStages.

Local Open Scope Z_scope.

(** * Packets that arrive *)

(** An entry is finished under the id of the packet. *)
Definition finishes (op : wb_commit_op_info_t) (q : sync_request rob_item_t) : Prop :=
  exists x, rob_finish x = true /\ q = req_set_item (wc_rob_id op) x.

Definition arriving (op : wb_commit_op_info_t) : Prop := wc_enable op = true.

Lemma commit_input_flow (ops : list wb_commit_op_info_t) r r' :
  rob_ok r -> commit_input ops r = Some r' ->
  exists reqs, rob_fifo r' = rob_fifo r /\ rob_sync_request_q r' = rob_sync_request_q r ++ reqs /\
    Forall2 finishes (filter arriving ops) reqs /\ Forall (request_in_range (size (rob_fifo r))) reqs.
Proof.
  revert r. induction ops as [|op ops IH]; intros r Hok E; cbn [commit_input] in E.
  { injection E as <-. exists []. rewrite app_nil_r. by split_and!. }
  destruct (wc_enable op) eqn:Een.
  2: { rewrite filter_cons_False by (unfold arriving; congruence). by apply IH. }
  rewrite filter_cons_True by done. apply bind_Some in E as (x & Ex & E).
  apply IH in E as (reqs & F & Q & H1 & H2); [|exact Hok].
  eexists (_ :: reqs). split_and!; [exact F|rewrite Q; cbn; by rewrite <- (app_assoc (A := sync_request rob_item_t))|..].
  - constructor; [|exact H1]. eexists. split; [|reflexivity]. done.
  - constructor; [|exact H2]. destruct Hok as (l & b & st & W). destruct (window_facts W) as (_ & -> & _).
    apply arr_get_Some in Ex as [Hr Hx%lookup_lt_Some]. cbn. lia.
Qed.

Lemma unfinished_app es1 es2 : unfinished (es1 ++ es2) = unfinished es1 ++ unfinished es2.
Proof. unfold unfinished. by rewrite list.filter_app. Qed.

Lemma unfinished_none es : Forall (fun e => rob_finish e.2 = true) es -> unfinished es = [].
Proof.
  induction 1 as [|e es He _ IH]; [done|]. unfold unfinished in *. rewrite filter_cons_False by congruence. done.
Qed.

Lemma unfinished_all es : Forall (fun e => rob_finish e.2 = false) es -> unfinished es = es.
Proof. induction 1 as [|e es He _ IH]; [done|]. unfold unfinished in *. rewrite filter_cons_True by done. by rewrite IH. Qed.

Lemma entries_set_middle {A} (es1 es2 : list (Z * A)) id y x :
  NoDup (map fst (es1 ++ (id, y) :: es2)) -> entries_set (es1 ++ (id, y) :: es2) id x = es1 ++ (id, x) :: es2.
Proof.
  intros Hnd. rewrite map_app in Hnd. cbn in Hnd. apply list.NoDup_app in Hnd as (_ & H1 & H2). apply list.NoDup_cons in H2 as [H2 _].
  assert (forall l, id ∉ map fst l -> entries_set l id x = l) as Hid.
  { induction l as [|[i z] l IH]; intros Hn; [done|]. cbn in *. apply not_elem_of_cons in Hn as [Hi Hn].
    destruct (Z.eqb_spec i id); [by subst|]. by rewrite <- (IH Hn) at 2. }
  unfold entries_set in *. rewrite map_app. cbn. rewrite Z.eqb_refl. do 2 f_equal; apply Hid; [|done].
  intros Hin. apply (H1 _ Hin). left.
Qed.

(** A packet takes its entry from those that wait, and no other. *)
Lemma finish_flow (ops : list wb_commit_op_info_t) reqs es x :
  Forall2 finishes ops reqs -> NoDup (map fst es) -> (pk_tag <$> ops) ++ x ≡ₚ entry_tag <$> unfinished es ->
  entry_tag <$> unfinished (fold_left entries_apply reqs es) ≡ₚ x.
Proof.
  intros F. revert es. induction F as [|op q ops reqs (y & Hy & ->) _ IH]; intros es Hnd Hp; cbn [fold_left]; [by rewrite <- Hp|].
  assert (pk_tag op ∈ entry_tag <$> unfinished es) as Hin by (rewrite <- Hp; left).
  apply list_elem_of_fmap in Hin as ([id it] & Ht & Hin). apply list_elem_of_filter in Hin as [Hf Hin]. cbn in Hf.
  pose proof Ht as Hid. injection Hid as Hid _ _ _. apply list_elem_of_split in Hin as (es1 & es2 & ->).
  cbn [entries_apply]. rewrite Hid, entries_set_middle by done. apply IH.
  - by rewrite map_app in *.
  - assert (forall z, unfinished (es1 ++ (id, z) :: es2) = unfinished es1 ++ (if rob_finish z then [] else [(id, z)]) ++ unfinished es2) as Hu.
    { intros z. change ((id, z) :: es2) with ([(id, z)] ++ es2). rewrite !unfinished_app. do 2 f_equal. unfold unfinished.
      rewrite filter_cons. cbn. by destruct (rob_finish z). }
    rewrite Hu, Hf in Hp. rewrite Hu, Hy. cbn [app] in *. rewrite !fmap_app in *. cbn [fmap list_fmap] in Hp.
    apply (Permutation_cons_inv (a := pk_tag op)). etrans; [exact Hp|].
    rewrite <- Ht. solve_Permutation.
Qed.

(** * The cycle of commit *)

(** It goes on: finished entries leave at the front, and the packets that
    arrive are taken in. *)
Record commit_goes (wb_port : port wb_commit_pack_t) (s s' : commit_world) (l rest : list (Z * rob_item_t))
    (reqs : list (sync_request rob_item_t)) : Prop := {
  cg_entries : rob_entries (cm_rob s) = l ++ rest;
  cg_finished : Forall (fun e => rob_finish e.2 = true) l;
  cg_fifo : rob_fifo (cm_rob s') = rob_fifo (cm_rob s);
  cg_queue : rob_sync_request_q (cm_rob s') = repeat req_pop (length l) ++ reqs;
  cg_packets : Forall2 finishes (filter arriving (port_get wb_port : list wb_commit_op_info_t)) reqs;
  cg_range : Forall (request_in_range (size (rob_fifo (cm_rob s)))) reqs;
  cg_state : cm_cur_state s' = normal
}.

(** It flushes: back in [normal], no entry is left. *)
Record commit_stops (s : commit_world) : Prop := {
  ct_ok : rob_ok (cm_rob s);
  ct_queue : Forall (fun q => q = req_pop) (rob_sync_request_q (cm_rob s));
  ct_state : cm_cur_state s = normal -> rob_entries (cm_rob s) = []
}.

Lemma retire_fold_rob l s : rob_sync_request_q (cm_rob s) = [] ->
  rob_sync_request_q (cm_rob (fold_left retire_world l s)) = repeat req_pop (length l).
Proof.
  intros Hq. rewrite <- (app_nil_l (repeat _ _)), <- Hq. clear Hq. revert s. induction l as [|e l IH]; intros s.
  { cbn. by rewrite app_nil_r. }
  cbn [fold_left]. rewrite IH. cbn [length repeat]. change (req_pop :: repeat req_pop (length l)) with ([@req_pop rob_item_t] ++ repeat req_pop (length l)).
  rewrite (app_assoc (A := sync_request rob_item_t)). f_equal. unfold retire_world, commit_csr, commit_release. by do 2 case_match.
Qed.

Lemma pops_only n : Forall (fun q => q = req_pop) (repeat (@req_pop rob_item_t) n).
Proof. induction n; by constructor. Qed.

Lemma rob_flush_stops s k : rob_ok (cm_rob s) -> rob_sync_request_q (cm_rob s) = repeat req_pop k ->
  forall s', cm_rob s' = rob_flush (cm_rob s) -> commit_stops s'.
Proof.
  intros Hok Hq s' E. destruct (fifo_flush_ok _ Hok) as [H1 H2]. split; rewrite E; [done|cbn; rewrite Hq; apply pops_only|done].
Qed.

(** A branch at the end of what retires: only a misprediction flushes. *)
Lemma commit_branch_flow it s p v k :
  rob_ok (cm_rob s) -> rob_sync_request_q (cm_rob s) = repeat req_pop k -> cf_flush p = false ->
  commit_branch it (mk_commit_vars s p false) = Some v ->
  (cv_need_flush v = false /\ cf_flush (cv_feedback_pack v) = false /\ cm_rob (cv_world v) = cm_rob s /\
     cm_cur_state (cv_world v) = cm_cur_state s) \/
  (cv_need_flush v = true /\ flushes (cv_feedback_pack v) = true /\ commit_stops (cv_world v)).
Proof.
  intros Hok Hq Hp E. unfold commit_branch in E. cbn [cv_world] in E. apply bind_Some in E as (s1 & E1 & E).
  assert (cm_rob s1 = cm_rob s /\ cm_cur_state s1 = cm_cur_state s) as [Hr Hs].
  { destruct (rob_is_mret it); [unfold commit_mret in E1; apply bind_Some in E1 as (x & _ & E1)|]; by injection E1 as <-. }
  clear E1. destruct (rob_predicted it).
  2: { injection E as <-. left. by split_and!. }
  destruct (prediction_hit it).
  { apply bind_Some in E as (bp & _ & E). injection E as <-. left. by split_and!. }
  destruct (rob_checkpoint_id_valid it); [|done]. unfold commit_mispredict in E.
  apply bind_Some in E as (bp & _ & E). apply bind_Some in E as (cp & _ & E). apply bind_Some in E as (cp1 & _ & E).
  apply bind_Some in E as ([cp2 cnt] & _ & E). apply bind_Some in E as ([] & _ & E). injection E as <-. right.
  split_and!; [done|done|]. apply (rob_flush_stops s k); [done..|]. cbn. by rewrite Hr.
Qed.

Lemma commit_output_flow s v :
  rob_ok (cm_rob s) -> rob_sync_request_q (cm_rob s) = [] ->
  commit_normal_output (mk_commit_vars s commit_feedback_zero false) = Some v ->
  (cv_need_flush v = false /\ cf_flush (cv_feedback_pack v) = false /\ cm_cur_state (cv_world v) = cm_cur_state s /\
     rob_fifo (cm_rob (cv_world v)) = rob_fifo (cm_rob s) /\
     exists l rest, rob_entries (cm_rob s) = l ++ rest /\ Forall (fun e => rob_finish e.2 = true) l /\
       rob_sync_request_q (cm_rob (cv_world v)) = repeat req_pop (length l)) \/
  (cv_need_flush v = true /\ flushes (cv_feedback_pack v) = true /\ rob_entries (cm_rob s) <> [] /\ commit_stops (cv_world v)).
Proof.
  intros Hok Hq E. pose proof E as E0. unfold commit_normal_output in E0. cbn [cv_world cv_feedback_pack] in E0.
  destruct (fifo_is_empty (rob_fifo (cm_rob s))) eqn:Ee; cbn [negb] in E0.
  { injection E0 as <-. left. split_and!; try done. by exists [], (rob_entries (cm_rob s)). }
  apply bind_Some in E0 as (first_id & Ef & E0). apply bind_Some in E0 as (it0 & _ & E0). apply bind_Some in E0 as (cause & Ec & E0).
  assert (rob_entries (cm_rob s) <> []) as Hne.
  { unfold rob_get_front_id in Ef. rewrite fifo_entries_front in Ef by done. unfold rob_entries. by intros En; rewrite En in Ef. }
  destruct cause as [cause|].
  { apply bind_Some in E0 as (tail_id & _ & E0). injection E0 as <-. right. split_and!; try done.
    split; [done|cbn; by rewrite Hq|done]. }
  clear E0 Ee Ef. set (es := rob_entries (cm_rob s)) in *.
  destruct (commit_normal_output_ref es s Hok eq_refl Hne Ec) as (it & id & p & rest & Er & (nx & -> & _) & E1).
  rewrite E1 in E. clear E1. pose proof (commit_scan_finished (Z.to_nat COMMIT_WIDTH) es) as Hfin.
  pose proof (commit_scan_stop (Z.to_nat COMMIT_WIDTH) es) as Hstop.
  destruct (commit_scan (Z.to_nat COMMIT_WIDTH) es) as [l stop]. cbn [fst snd] in *.
  assert (Forall (fun e => rob_finish e.2 = true) l) as Hl by (eapply List.Forall_impl; [|exact Hfin]; by intros ? [? _]).
  set (s1 := fold_left retire_world l s) in *. destruct (retire_fold_keeps l s) as (K1 & _ & _ & _ & K2). fold s1 in K1, K2.
  pose proof (retire_fold_rob l s Hq) as K3. fold s1 in K3.
  destruct stop as [|id1 it1|id1 it1]; cbn [after_stop stop_entries app] in *.
  - injection E as <-. left. split_and!; try done. by exists l, rest.
  - unfold commit_exception in E. apply bind_Some in E as (tail_id & _ & E). injection E as <-. right. split_and!; try done.
    split; [unfold rob_ok; cbn; by rewrite K2|cbn; rewrite K3; apply pops_only|done].
  - set (s2 := retire_world _ _) in E. 
    assert (rob_fifo (cm_rob s2) = rob_fifo (cm_rob s) /\ cm_cur_state s2 = cm_cur_state s) as [F2 S2].
    { unfold s2. rewrite retire_world_fifo. split; [exact K2|]. rewrite <- K1. unfold retire_world, commit_csr, commit_release. by do 2 case_match. }
    assert (rob_sync_request_q (cm_rob s2) = repeat req_pop (length (l ++ [(id1, it1)]))) as Q2.
    { rewrite length_app, repeat_app, <- K3. unfold s2, retire_world, commit_csr, commit_release. by do 2 case_match. }
    apply (commit_branch_flow it1 s2 _ v (length (l ++ [(id1, it1)]))) in E as [(V1 & V2 & V3 & V4)|(V1 & V2 & V3)];
      [| |unfold rob_ok; by rewrite F2|done|done].
    + left. split_and!; try done; [by rewrite V4|by rewrite V3|]. exists (l ++ [(id1, it1)]), rest. split_and!.
      * by rewrite <- (app_assoc (A := Z * rob_item_t)).
      * apply Forall_app. split; [done|]. constructor; [exact Hstop|done].
      * by rewrite V3.
    + right. by split_and!.
Qed.

Lemma commit_walk_flow enter s p s' :
  (forall s1 s2, enter s1 = Some s2 -> cm_rob s2 = cm_rob s1) ->
  rob_ok (cm_rob s) -> rob_sync_request_q (cm_rob s) = [] -> cm_cur_state s <> normal -> commit_walk enter s = Some (p, s') ->
  flushes p = true /\ commit_stops s'.
Proof.
  intros Henter Hok Hq Hst E. unfold commit_walk in E. apply bind_Some in E as (s1 & E1 & E).
  assert (cm_rob s1 = cm_rob s /\ cm_cur_state s1 = cm_cur_state s) as [Hr Hs].
  { unfold commit_undo in E1. apply bind_Some in E1 as (it & _ & E1). injection E1 as <-. by destruct (rob_old_phy_reg_id_valid it). }
  clear E1. apply bind_Some in E as ([prev_id prev_ok] & _ & E).
  assert (forall st : bool * commit_world, cm_rob st.2 = cm_rob s -> cm_cur_state st.2 = cm_cur_state s ->
    (let '(go_on, s0) := st in
     if go_on then Some (commit_feedback_zero <| cf_enable := true |> <| cf_flush := true |>, s0)
     else s0 ← enter (s0 <| cm_rob ::= rob_flush |>); exception_pc ← csrfile_read_sys (cm_csr_file s0) CSR_MTVEC;
       Some (commit_feedback_zero <| cf_enable := true |> <| cf_flush := true |> <| cf_has_exception := true |> <| cf_exception_pc := exception_pc |>,
             commit_counted (s0 <| cm_cur_state := normal |>))) = Some (p, s') -> flushes p = true /\ commit_stops s') as Hrest.
  { intros [go s2] R2 S2 E2. cbn in R2, S2. destruct go.
    - injection E2 as <- <-. split; [done|]. split; [by rewrite R2|by rewrite R2, Hq|]. rewrite S2. intros E3. by rewrite E3 in Hst.
    - apply bind_Some in E2 as (s3 & E3%Henter & E2). apply bind_Some in E2 as (pc & _ & E2). injection E2 as <- <-.
      split; [done|]. destruct (fifo_flush_ok _ Hok) as [F1 F2]. split.
      + unfold rob_ok. cbn. rewrite E3. cbn. by rewrite R2.
      + cbn. rewrite E3. cbn. by rewrite R2, Hq.
      + intros _. unfold rob_entries. cbn. rewrite E3. cbn. by rewrite R2. }
  eapply Hrest; [..|exact E]; by destruct (negb _).
Qed.

Lemma enter_exception_rob s1 s2 : enter_exception s1 = Some s2 -> cm_rob s2 = cm_rob s1.
Proof. unfold enter_exception. by intros [= <-]. Qed.

Lemma enter_interrupt_rob s1 s2 : enter_interrupt s1 = Some s2 -> cm_rob s2 = cm_rob s1.
Proof. unfold enter_interrupt. intros E. apply bind_Some in E as (x & _ & E). by injection E as <-. Qed.

Lemma commit_run_flow wb_port s p s' :
  rob_ok (cm_rob s) -> rob_sync_request_q (cm_rob s) = [] -> commit_run wb_port s = Some (p, s') ->
  (cm_cur_state s = normal /\ flushes p = false /\ exists l rest reqs, commit_goes wb_port s s' l rest reqs) \/
  (flushes p = true /\ (cm_cur_state s = normal -> rob_entries (cm_rob s) <> []) /\ commit_stops s').
Proof.
  intros Hok Hq E. unfold commit_run in E. destruct (cm_cur_state s) eqn:Es.
  - unfold commit_normal in E. apply bind_Some in E as (v & Ev & E). apply bind_Some in E as (s1 & E1 & E). injection E as <- <-.
    destruct (commit_output_flow s v Hok Hq Ev) as [(V1 & V2 & V3 & V4 & l & rest & L1 & L2 & L3)|(V1 & V2 & V3 & V4)];
      rewrite V1 in E1; cbn [negb] in E1.
    + left. split; [done|]. split; [unfold flushes; by rewrite V2, andb_false_r|].
      apply bind_Some in E1 as (r & E1 & E2). injection E2 as <-.
      apply commit_input_flow in E1 as (reqs & F & Q & H1 & H2); [|unfold rob_ok; by rewrite V4].
      exists l, rest, reqs. split; try done; cbn; [by rewrite F|by rewrite Q, L3|by rewrite V4 in H2|by rewrite V3].
    + injection E1 as <-. right. by split_and!.
  - right. destruct (commit_walk_flow enter_exception s p s') as [H1 H2]; try done; [exact enter_exception_rob|by rewrite Es].
  - right. destruct (commit_walk_flow enter_interrupt s p s') as [H1 H2]; try done; [exact enter_interrupt_rob|by rewrite Es].
Qed.
