(* ===== verification/CoreFlow.v ===== *)
(** The instructions in flight and the reorder buffer.  In the normal state
    every entry that is not finished has exactly one packet in the pipeline,
    with its address, its word and its destination, and there are no other
    packets; while commit walks back, the pipeline is empty.  This holds from
    [reset] on, in every cycle. *)

From Stdlib Require Import ZArith Lia.
From stdpp Require Import base numbers list option tactics.
From S2P Require Import Prelude Common Fifo FifoIds IdQueue IssueQueue CheckpointBuffer Rat Regfile CsrFile InterruptInterface Bus Rob PipelineCommon StoreBuffer Packs Isa Decode BranchPredictor Execute ExecuteBru ExecuteCsr ExecuteLsu WriteBack ReadReg Rename Commit CommitRetire CommitWalk Issue IssueSelect IssueCycle Fetch Core Flight FlowStages FlowIssue FlowCommit.

Local Open Scope Z_scope.

(** * What the packets are in *)

Definition flow_view (c : core) :=
  (co_readreg_issue_port c, co_issue c, co_wb_port c, co_wb_commit_port c, co_csr_rev_pack c, co_lsu_hold c,
   cm_cur_state (co_commit c), co_wait_first_memory_result c).

(** * The stages *)

Section stages.
Context (cfp : commit_feedback_pack_t) (Hfl : flushes cfp = false).

(** The group issue takes its instructions from. *)
Definition group_ok (p : readreg_issue_pack_t) : Prop :=
  Z.of_nat (length p) = READREG_WIDTH /\ Forall waits_for_reg p.

Lemma core_issue_flow efs wfs c stall c' :
  length efs = Z.to_nat EXECUTE_UNIT_NUM -> length wfs = Z.to_nat EXECUTE_UNIT_NUM -> issue_ready (co_issue c) ->
  group_ok (port_get (co_readreg_issue_port c)) -> core_issue efs wfs cfp c = Some (stall, c') ->
  exists i, c' = c <| co_issue := i |> /\ issue_ready i /\ is_busy i = stall /\
    (if stall then tags (group_rest i (port_get (co_readreg_issue_port c))) else []) ++ tags (fifo_items (iq_fifo (is_issue_q i))) ++ queued i ≡ₚ
    tags (group_rest (co_issue c) (port_get (co_readreg_issue_port c))) ++ tags (fifo_items (iq_fifo (is_issue_q (co_issue c)))) ++
      queued (co_issue c).
Proof.
  intros He Hw IR [G1 G2] E. unfold core_issue in E. apply bind_Some in E as ([st i] & E & E'). injection E' as <- <-.
  exists i. split; [done|]. by apply (issue_flow _ _ efs wfs cfp He Hw) in E.
Qed.

Lemma core_readreg_flow stall efs wfs c c' :
  core_readreg stall efs wfs cfp c = Some c' ->
  exists p, c' = c <| co_readreg_issue_port := p |> /\
    (if stall then p = co_readreg_issue_port c
     else tags (port_get p) = tags (port_get (co_rename_readreg_port c)) /\
       length (port_get p) = length (port_get (co_rename_readreg_port c)) /\ Forall waits_for_reg (port_get p)).
Proof.
  unfold core_readreg, readreg_run. fold (flushes cfp). rewrite Hfl. intros E. apply bind_Some in E as (p & E & E').
  injection E' as <-. exists p. split; [done|]. destruct stall; cbn [negb] in E; [by injection E|].
  apply bind_Some in E as (sends & E & E'). injection E' as <-. by apply readreg_slots_kept in E.
Qed.

Lemma core_rename_flow mem mem_ids stall c idle c' :
  rob_ok (cm_rob (co_commit c)) -> core_rename mem mem_ids stall cfp c = Some (idle, c') ->
  flow_view c' = flow_view c /\
  exists es new, pushed (cm_rob (co_commit c)) (cm_rob (co_commit c')) es new /\
    (if stall then es = [] /\ co_rename_readreg_port c' = co_rename_readreg_port c
     else tags (port_get (co_rename_readreg_port c')) = entry_tag <$> es /\
       Z.of_nat (length (port_get (co_rename_readreg_port c'))) = RENAME_WIDTH).
Proof.
  intros Hok E. unfold core_rename, rename_run in E. fold (flushes cfp) in E. rewrite Hfl in E. cbn [negb] in E.
  apply bind_Some in E as ([idle1 w] & E & E'). injection E' as <- <-. split; [done|].
  destruct stall; cbn [negb] in E.
  { injection E as <- <-. exists [], []. split; [|done]. split; try done. by rewrite app_nil_r. }
  apply bind_Some in E as (cp & _ & E). apply bind_Some in E as (v & E & E'). injection E' as <- <-.
  apply (rename_loop_kept _ _ _ _ _ []) in E as (new & k & es & Hs & Hl & Hp); [|done|done|done].
  exists es, new. cbn in Hp. split; [by destruct Hp|]. cbn. rewrite Hs. cbn [app]. rewrite tags_app, length_app, repeat_length.
  split; [|by rewrite Hl]. destruct Hp as [_ _ _ _ -> _]. rewrite (tags_none (repeat _ _)); [by rewrite app_nil_r|]. clear. by induction k; constructor.
Qed.

Lemma core_decode_flow c idle c' : core_decode cfp c = Some (idle, c') ->
  flow_view c' = flow_view c /\ co_commit c' = co_commit c /\ co_rename_readreg_port c' = co_rename_readreg_port c.
Proof. unfold core_decode. intros E. apply bind_Some in E as ([i w] & _ & E). by injection E as _ <-. Qed.
End stages.

Lemma fetch_first_wait (mem : checkpoint_t) a b d cfp s s' : fetch_run mem a b d cfp s = Some s' -> fw_wait_first_memory_result s' = false.
Proof.
  unfold fetch_run. destruct (fw_wait_first_memory_result s) eqn:Hf; [by intros [= <-]|].
  assert (forall n i pc s1 s2, fetch_loop mem a b d cfp n i pc s1 = Some s2 -> fw_wait_first_memory_result s1 = false ->
    fw_wait_first_memory_result s2 = false) as Hloop.
  { induction n as [|n IH]; intros i pc s1 s2 E H1; cbn [fetch_loop] in E; [by injection E as <-|].
    apply bind_Some in E as ([go s3] & E3 & E). assert (fw_wait_first_memory_result s3 = false) as H3.
    { unfold fetch_one in E3. destruct (negb (fifo_is_full _)); [|by injection E3 as _ <-].
      apply bind_Some in E3 as ([w s4] & E4 & E3). assert (fw_wait_first_memory_result s4 = false) as H4.
      { unfold fetch_word in E4. destruct (negb _); [by injection E4 as _ <-|]. apply bind_Some in E4 as ([w1 b1] & _ & E4). by injection E4 as _ <-. }
      destruct (is_fence_i w && _); [by injection E3 as _ <-|]. apply bind_Some in E3 as ([p s5] & E5 & E3).
      assert (fw_wait_first_memory_result s5 = false) as H5.
      { destruct (is_jump w); [|by injection E5 as _ <-]. unfold fetch_jump in E5. apply bind_Some in E5 as ([pr bp] & _ & E5). cbv zeta in E5.
        destruct pr as [[j n0]|]; [|by injection E5 as _ <-]. apply bind_Some in E5 as (cp & _ & E5). apply bind_Some in E5 as ([[vld id] cb] & _ & E5).
        apply bind_Some in E5 as (bp1 & _ & E5). destruct (negb vld); by injection E5 as _ <-. }
      apply bind_Some in E3 as ([r f] & _ & E3). destruct (is_jump w); by injection E3 as _ <-. }
    destruct go; [by eapply IH|by injection E as <-]. }
  destruct (negb (flushes cfp)).
  - destruct (fw_jump_wait s); [destruct (cf_jump_enable cfp), (cf_jump cfp); by intros [= <-]|]. intros E.
    apply bind_Some in E as (s1 & E1 & E). eapply Hloop; [exact E|]. unfold fetch_trace in E1.
    apply bind_Some in E1 as (b1 & _ & E1). apply bind_Some in E1 as (b2 & _ & E1). apply bind_Some in E1 as (b3 & _ & E1). by injection E1 as <-.
  - destruct (cf_has_exception cfp), (cf_jump_enable cfp); by intros [= <-].
Qed.

Lemma core_fetch_flow mem a b cfp c c' : core_fetch mem a b cfp c = Some c' ->
  flow_view c' = flow_view (c <| co_wait_first_memory_result := false |>) /\ cm_rob (co_commit c') = cm_rob (co_commit c) /\
  co_rename_readreg_port c' = co_rename_readreg_port c.
Proof.
  unfold core_fetch. intros E. apply bind_Some in E as (w & E%fetch_first_wait & E'). injection E' as <-.
  split_and!; try done. unfold flow_view. cbn. by rewrite E.
Qed.

(** * A cycle that goes on *)

(** The stages can be run. *)
Record stages_ok (c : core) : Prop := {
  so_shape : core_shape c;
  so_issue : issue_ready (co_issue c);
  so_group : group_ok (port_get (co_readreg_issue_port c));
  so_renamed : Z.of_nat (length (port_get (co_rename_readreg_port c))) = RENAME_WIDTH
}.

Lemma core_shape_issue c i : core_shape c -> issue_ready i -> core_shape (c <| co_issue := i |>).
Proof. intros [_ S2 S3 S4 _] [U Q _ _ _]. by split. Qed.

(** [flight_units] with the queues named. *)
Lemma flight_units_eq c : flight_units c = queued (co_issue c) ++ tags (held (co_lsu_hold c)).
Proof. done. Qed.

Lemma issue_ready_units s s' :
  issue_ready s -> units_ok s' -> is_issue_q s' = is_issue_q s -> is_busy s' = is_busy s -> is_last_index s' = is_last_index s -> issue_ready s'.
Proof. intros [_ I2 I3 I4 I5] U E1 E2 E3. split; rewrite ?E1, ?E2, ?E3; done. Qed.

(** The parts of the pipeline before and after: what issue had ([g], [q], [u])
    and what it has. *)
Lemma flow_sum {A} (wc rn g g' q q' u u' h p w : list A) :
  g' ++ q' ++ u' ≡ₚ g ++ q ++ u ->
  wc ++ (rn ++ g' ++ q') ++ (u' ++ h) ++ p ++ w ≡ₚ (rn ++ g ++ q) ++ (u ++ h ++ p) ++ w ++ wc.
Proof.
  intros T. transitivity (rn ++ (g ++ q ++ u) ++ h ++ p ++ w ++ wc); [rewrite <- T|]; solve_Permutation.
Qed.

(** The packets that reached commit leave, those of the new entries enter. *)
Lemma core_stages_flow mem mem_ids junk cfp c c' :
  flushes cfp = false -> stages_ok c -> rob_ok (cm_rob (co_commit c)) -> core_stages mem mem_ids junk cfp c = Some c' ->
  stages_ok c' /\ cm_cur_state (co_commit c') = cm_cur_state (co_commit c) /\ co_wait_first_memory_result c' = false /\
  exists es new, pushed (cm_rob (co_commit c)) (cm_rob (co_commit c')) es new /\
    tags (port_get (co_wb_commit_port c)) ++ flight c' ≡ₚ flight c ++ (entry_tag <$> es).
Proof.
  intros Hfl [Sh IR G R] Hok E. unfold core_stages in E.
  destruct (core_wb_kept cfp c Hfl Sh) as (wfs & wp & rf & Ewb & Lw & Tw). rewrite Ewb in E. cbn [mbind option_bind] in E. clear Ewb.
  set (c1 := c <| co_wb_commit_port := wp |> <| co_commit ::= fun s => s <| cm_phy_regfile := rf |> |>) in *.
  assert (core_shape c1) as Sh1 by (by destruct Sh).
  apply bind_Some in E as ([efs c2] & E2 & E).
  destruct (core_execute_kept junk cfp c1 efs c2 Hfl Sh1 E2) as (bp & b & sb & fs & ps & rs & hs & Ec2 & Sh2 & Le & T2). clear E2.
  assert (issue_ready (co_issue c2)) as IR2.
  { apply (issue_ready_units (co_issue c)); [done|apply Sh2|..]; by rewrite Ec2. }
  apply bind_Some in E as ([stall c3] & E3 & E).
  destruct (core_issue_flow cfp Hfl efs wfs c2 stall c3 Le Lw IR2) as (i & Ec3 & IR3 & Hbusy & T3); [by rewrite Ec2|done|]. clear E3.
  apply bind_Some in E as (c4 & E4 & E). destruct (core_readreg_flow cfp Hfl stall efs wfs c3 c4 E4) as (rp & Ec4 & Hrp). clear E4.
  apply bind_Some in E as ([idle1 c5] & E5 & E).
  assert (rob_ok (cm_rob (co_commit c4))) as Hok4 by (by rewrite Ec4, Ec3, Ec2).
  destruct (core_rename_flow cfp Hfl mem mem_ids stall c4 idle1 c5 Hok4 E5) as (F5 & es & new & Hp & Hport). clear E5.
  apply bind_Some in E as ([idle2 c6] & (F6 & C6 & P6)%core_decode_flow & (F7 & C7 & P7)%core_fetch_flow).
  pose proof (core_shape_issue c2 i Sh2 IR3) as Sh3.
  assert (flow_view c' = (rp, i, ps, wp, rs, hs, cm_cur_state (co_commit c), false)) as Hview.
  { rewrite F7. unfold flow_view in F5, F6 |- *. cbn. injection F6 as -> -> -> -> -> -> -> _.
    injection F5 as -> -> -> -> -> -> -> _. by rewrite Ec4, Ec3, Ec2. }
  assert (co_rename_readreg_port c4 = co_rename_readreg_port c) as R4 by (by rewrite Ec4, Ec3, Ec2).
  assert (co_rename_readreg_port c3 = co_rename_readreg_port c) as R3 by (by rewrite Ec3, Ec2).
  assert (co_readreg_issue_port c2 = co_readreg_issue_port c /\ co_readreg_issue_port c3 = co_readreg_issue_port c) as [G2 G3] by (by rewrite Ec3, Ec2).
  assert (cm_rob (co_commit c4) = cm_rob (co_commit c)) as Rb by (by rewrite Ec4, Ec3, Ec2).
  rewrite Rb in Hp. rewrite R4 in Hport. rewrite R3, G3 in Hrp. rewrite G2 in T3. pose proof (eq_trans P7 P6) as P. clear P6 P7 R3 R4.
  assert (core_shape c' /\ issue_ready (co_issue c')) as [Sh' IR'].
  { unfold flow_view in Hview. injection Hview as V1 V2 V3 V4 V5 V6 V7 V8. destruct Sh3 as [A1 A2 A3 A4 A5].
    rewrite Ec2 in A2, A3, A4. split; [split|]; rewrite ?V2, ?V3, ?V5, ?V6; done. }
  unfold flow_view in Hview. injection Hview as V1 V2 V3 V4 V5 V6 V7 V8.
  assert (T2' : queued (co_issue c2) ++ tags (held hs) ++ tags (port_get <$> unit_all ps) ≡ₚ flight_units c).
  { rewrite flight_units_eq in T2. rewrite Ec2 in T2 |- *. rewrite (app_assoc (A := tag)). exact T2. }
  assert (tags (fifo_items (iq_fifo (is_issue_q (co_issue c2)))) = tags (fifo_items (iq_fifo (is_issue_q (co_issue c)))) /\
    group_rest (co_issue c2) (port_get (co_readreg_issue_port c)) = group_rest (co_issue c) (port_get (co_readreg_issue_port c))) as [I2 I3].
  { by rewrite Ec2. }
  rewrite I2, I3 in T3. clear I2 I3 Ec2 Ec3 Ec4 T2.
  split; [|split; [done|split; [done|exists es, new; split; [by rewrite C7, C6|]]]].
  - split; [done|done|..]; rewrite ?V1, ?P.
    + destruct stall; [by subst rp|]. destruct Hrp as (_ & Hl & ?). split; [by rewrite Hl|done].
    + destruct stall; [by destruct Hport as [_ ->]|by destruct Hport].
  - unfold flight, flight_front. rewrite flight_units_eq, V1, V2, V3, V4, V6, P, Tw, <- T2'.
    destruct stall.
    + destruct Hport as [-> ->]. subst rp. rewrite fmap_nil, app_nil_r. by apply flow_sum.
    + destruct Hport as [-> _], Hrp as [Trp _]. assert (group_rest i (port_get rp) = port_get rp) as -> by (unfold group_rest; by rewrite Hbusy).
      rewrite Trp, <- (flow_sum _ _ _ [] _ _ _ _ _ _ _ T3). solve_Permutation.
Qed.

(** * The cycle *)

(** What the beginning and the end of a cycle leave alone. *)
Definition same_flow (c c' : core) : Prop :=
  flow_view c' = flow_view c /\ co_rename_readreg_port c' = co_rename_readreg_port c.

Lemma same_flow_trans c1 c2 c3 : same_flow c1 c2 -> same_flow c2 c3 -> same_flow c1 c3.
Proof. intros [H1 H2] [H3 H4]. split; congruence. Qed.

Lemma core_start_flow c : same_flow c (core_start c) /\ cm_rob (co_commit (core_start c)) = rob_set_committed (cm_rob (co_commit c)) false.
Proof. done. Qed.

Lemma core_clint_pre_flow c c' : core_clint_pre c = Some c' -> same_flow c c' /\ cm_rob (co_commit c') = cm_rob (co_commit c).
Proof. unfold core_clint_pre. intros E. apply bind_Some in E as (clint & _ & E). by injection E as <-. Qed.

Lemma core_interrupt_flow c c' : core_interrupt c = Some c' -> same_flow c c' /\ cm_rob (co_commit c') = cm_rob (co_commit c).
Proof. unfold core_interrupt. intros E. apply bind_Some in E as ([i f] & _ & E). by injection E as <-. Qed.

Lemma core_clint_post_flow c : same_flow c (core_clint_post c) /\ co_commit (core_clint_post c) = co_commit c.
Proof. done. Qed.

Lemma commit_sync_flow s s' : commit_sync s = Some s' -> rob_sync (cm_rob s) = Some (cm_rob s') /\ cm_cur_state s' = cm_cur_state s.
Proof.
  unfold commit_sync. intros E. apply bind_Some in E as (r & _ & E). apply bind_Some in E as (b & Hb & E).
  apply bind_Some in E as (rf & _ & E). apply bind_Some in E as (cf & _ & E). by injection E as <-.
Qed.

Lemma core_sync_flow cfp c c' : core_sync cfp c = Some c' ->
  same_flow c c' /\ rob_sync (cm_rob (co_commit c)) = Some (cm_rob (co_commit c')).
Proof.
  unfold core_sync. intros E. apply bind_Some in E as (s & [Hr Hs]%commit_sync_flow & E). apply bind_Some in E as ([sb bu] & _ & E).
  apply bind_Some in E as (b1 & _ & E). apply bind_Some in E as (b2 & _ & E). apply bind_Some in E as (b3 & _ & E).
  apply bind_Some in E as (b4 & _ & E). injection E as <-. split; [|done]. split; [|done]. unfold flow_view. cbn. by rewrite Hs.
Qed.

Lemma core_count_flow ras_full c c' : core_count ras_full c = Some c' -> same_flow c c' /\ cm_rob (co_commit c') = cm_rob (co_commit c).
Proof.
  unfold core_count. set (c1 := c <| co_cpu_clock_cycle := _ |> <| co_committed_instruction_num := _ |>). cbv zeta.
  assert (same_flow c c1 /\ cm_rob (co_commit c1) = cm_rob (co_commit c)) as [F R] by done. clearbody c1.
  intros E. apply bind_Some in E as (g & _ & E). injection E as <-. split; [|done]. by apply (same_flow_trans _ _ _ F).
Qed.

Lemma core_commit_flow c cfp c' : core_commit c = Some (cfp, c') ->
  exists s, c' = c <| co_commit := s |> /\ commit_run (co_wb_commit_port c) (co_commit c) = Some (cfp, s).
Proof. unfold core_commit. intros E. apply bind_Some in E as ([p s] & E & E'). injection E' as -> <-. by exists s. Qed.

(** The instructions in flight are those the reorder buffer waits for. *)
Definition flow (c : core) : Prop :=
  match cm_cur_state (co_commit c) with
  | normal => flight c ≡ₚ entry_tag <$> unfinished (rob_entries (cm_rob (co_commit c)))
  | _ => flight c = []
  end.

Record flow_inv (c : core) : Prop := {
  fi_stages : stages_ok c;
  fi_rob : rob_ok (cm_rob (co_commit c));
  fi_requests : rob_sync_request_q (cm_rob (co_commit c)) = [];
  fi_first : co_wait_first_memory_result c = true -> cm_cur_state (co_commit c) = normal /\ rob_entries (cm_rob (co_commit c)) = [];
  fi_flow : flow c
}.

Lemma flight_view c c' : same_flow c c' -> flight c' = flight c.
Proof.
  unfold same_flow, flow_view. intros [[= E1 E2 E3 E4 _ E6 _ _] R]. unfold flight, flight_front, flight_units. by rewrite E1, E2, E3, E4, E6, R.
Qed.

Lemma stages_view c c' : same_flow c c' -> stages_ok c -> stages_ok c'.
Proof.
  unfold same_flow, flow_view. intros [[= E1 E2 E3 E4 E5 E6 _ _] R] [[A1 A2 A3 A4 A5] B C D].
  split; [split|..]; rewrite ?E1, ?E2, ?E3, ?E5, ?E6, ?R; done.
Qed.

(** The entries after the updates of the cycle. *)
Lemma rob_pops_sync r l rest reqs r' :
  rob_ok r -> rob_sync_request_q r = repeat req_pop (length l) ++ reqs -> Forall (request_in_range (size (rob_fifo r))) reqs ->
  rob_entries r = l ++ rest -> rob_sync r = Some r' ->
  rob_ok r' /\ rob_sync_request_q r' = [] /\ rob_entries r' = fold_left entries_apply reqs rest.
Proof.
  intros Hok Hq Hr He E. destruct (rob_sync_spec r Hok) as (r1 & E1 & Hok1 & He1 & Hq1 & _).
  { rewrite Hq. apply Forall_app. split; [|done]. induction l as [|x l IH] using rev_ind; [constructor|].
    clear. induction (length _); by constructor. }
  rewrite E in E1. injection E1 as <-. split_and!; [done|done|]. by rewrite He1, Hq, He, fold_left_app, pops_entries.
Qed.

(** * A cycle that flushes *)

Lemma core_flush_flow mem mem_ids junk cfp c c' :
  flushes cfp = true -> stages_ok c -> co_wait_first_memory_result c = false -> core_stages mem mem_ids junk cfp c = Some c' ->
  stages_ok c' /\ flight c' = [] /\ co_commit c' = co_commit c /\ co_wait_first_memory_result c' = false.
Proof.
  intros Hfl [Sh IR _ _] Hfirst E. destruct (core_stages_flush mem mem_ids junk cfp c Sh Hfl Hfirst) as (ps & hs & E' & Hz & Hps & Hhs & Hh).
  rewrite E in E'. injection E' as ->. pose proof (core_flushed_shape cfp c ps hs Sh Hps Hhs) as Sh'.
  split; [|split; [by apply core_flushed_flight|done]]. split; [done|..].
  - destruct IR as [_ I2 I3 _ _], (fifo_flush_ok _ I2) as [F1 F2]. split; [apply Sh'|done|done| |done].
    change (Forall item_flow (fifo_items (fifo_flush (iq_fifo (is_issue_q (co_issue c)))))). by rewrite fifo_items_flush.
  - split; [done|]. by repeat (constructor; [done|]).
  - done.
Qed.

(** * The theorem *)

Section cycle.
Context (mem : checkpoint_t) (mem_ids : list Z) (junk : Z * Z) (ras_full : Z).

(** The two kinds of cycles, from the state commit starts in to the one before
    the updates. *)
Lemma cycle_goes c cfp s c1 :
  flow_inv c -> commit_run (co_wb_commit_port c) (co_commit c) = Some (cfp, s) -> flushes cfp = false ->
  core_stages mem mem_ids junk cfp (c <| co_commit := s |>) = Some c1 ->
  stages_ok c1 /\ co_wait_first_memory_result c1 = false /\ cm_cur_state (co_commit c1) = normal /\
  forall r, rob_sync (cm_rob (co_commit c1)) = Some r ->
    rob_ok r /\ rob_sync_request_q r = [] /\ flight c1 ≡ₚ entry_tag <$> unfinished (rob_entries r).
Proof.
  intros [St Hok Hq _ Hflow] Ec Hfl E. destruct (commit_run_flow _ _ _ _ Hok Hq Ec) as [(Hn & _ & l & rest & reqs & [G1 G2 G3 G4 G5 G6 G7])|(H & _)];
    [|congruence]. unfold flow in Hflow. rewrite Hn in Hflow.
  assert (rob_ok (cm_rob s)) as Hok1 by (unfold rob_ok; by rewrite G3).
  assert (stages_ok (c <| co_commit := s |>)) as St1 by (by destruct St as [[] ? ? ?]).
  destruct (core_stages_flow _ _ _ _ _ _ Hfl St1 Hok1 E) as (St2 & S2 & W2 & es & new & [P1 P2 P3 P4 P5 P6] & T).
  change (co_commit (c <| co_commit := s |>)) with s in *. change (co_wb_commit_port (c <| co_commit := s |>)) with (co_wb_commit_port c) in T.
  change (flight (c <| co_commit := s |>)) with (flight c) in T.
  split; [done|]. split; [done|]. split; [by rewrite S2|]. intros r Er.
  assert (rob_entries (cm_rob s) = l ++ rest) as Es by (unfold rob_entries in *; by rewrite G3).
  rewrite Es, <- (app_assoc (A := Z * rob_item_t)) in P2. pose proof (fifo_entries_nodup _ P1) as Hnd. unfold rob_entries in P2 at 1. rewrite P2, map_app in Hnd.
  apply list.NoDup_app in Hnd as (_ & _ & Hnd).
  destruct (rob_pops_sync (cm_rob (co_commit c1)) l (rest ++ es) reqs r P1) as (R1 & R2 & R3); [by rewrite P3|by rewrite P4, G3|done|done|].
  split; [done|]. split; [done|]. rewrite R3. symmetry. apply (finish_flow _ _ _ _ G5 Hnd).
  rewrite unfinished_app, (unfinished_all es P6), fmap_app.
  assert (unfinished (rob_entries (cm_rob (co_commit c))) = unfinished rest) as Hu by (by rewrite G1, unfinished_app, (unfinished_none l G2)).
  rewrite Hu in Hflow. rewrite <- Hflow, <- T. done.
Qed.

Lemma cycle_flushes c cfp s c1 :
  flow_inv c -> commit_run (co_wb_commit_port c) (co_commit c) = Some (cfp, s) -> flushes cfp = true ->
  core_stages mem mem_ids junk cfp (c <| co_commit := s |>) = Some c1 ->
  stages_ok c1 /\ co_wait_first_memory_result c1 = false /\ flight c1 = [] /\
  forall r, rob_sync (cm_rob (co_commit c1)) = Some r ->
    rob_ok r /\ rob_sync_request_q r = [] /\ (cm_cur_state (co_commit c1) = normal -> rob_entries r = []).
Proof.
  intros [St Hok Hq Hfirst _] Ec Hfl E. destruct (commit_run_flow _ _ _ _ Hok Hq Ec) as [(_ & H & _)|(_ & Hne & [C1 C2 C3])]; [congruence|].
  assert (stages_ok (c <| co_commit := s |>)) as St1 by (by destruct St as [[] ? ? ?]).
  destruct (core_flush_flow mem mem_ids junk cfp _ c1 Hfl St1) as (S1 & F1 & K1 & W1); [|exact E|].
  { change (co_wait_first_memory_result c = false). destruct (co_wait_first_memory_result c); [|done]. destruct (Hfirst eq_refl) as [Hn He]. by destruct (Hne Hn). }
  change (co_commit (c <| co_commit := s |>)) with s in K1. rewrite K1. split_and!; try done. intros r Er.
  destruct (rob_sync_spec (cm_rob s) C1) as (r' & Er' & R1 & R2 & R3 & _).
  { eapply List.Forall_impl; [|exact C2]. by intros q ->. }
  rewrite Er in Er'. injection Er' as <-. split; [done|]. split; [done|]. intros Hn. rewrite R2, (C3 Hn). clear -C2.
  induction C2 as [|q qs -> _ IH]; [done|]. exact IH.
Qed.

Lemma flow_inv_begin c c' : same_flow c c' -> rob_fifo (cm_rob (co_commit c')) = rob_fifo (cm_rob (co_commit c)) ->
  rob_sync_request_q (cm_rob (co_commit c')) = rob_sync_request_q (cm_rob (co_commit c)) -> flow_inv c -> flow_inv c'.
Proof.
  intros F R Q [I1 I2 I3 I4 I5]. pose proof F as [Fv _]. unfold flow_view in Fv. injection Fv as _ _ _ _ _ _ Fs Fw.
  split; unfold flow, rob_ok, rob_entries in *; rewrite ?R, ?Q, ?Fs, ?Fw, ?(flight_view _ _ F); try done. by apply (stages_view c).
Qed.

Lemma core_cycle_flow c c' : flow_inv c -> core_cycle mem mem_ids junk ras_full c = Some c' -> flow_inv c'.
Proof.
  intros I E. unfold core_cycle in E. apply bind_Some in E as (c1 & [F1 R1]%core_clint_pre_flow & E).
  destruct (core_start_flow c) as [F0 R0]. assert (flow_inv c1) as I1.
  { apply (flow_inv_begin c); [by apply (same_flow_trans _ _ _ F0)|by rewrite R1, R0..|done]. }
  clear I F0 R0 F1 R1. apply bind_Some in E as ([cfp c2] & (s & -> & Ec)%core_commit_flow & E). apply bind_Some in E as (c3 & Est & E).
  apply bind_Some in E as (c4 & [F4 R4]%core_interrupt_flow & E). apply bind_Some in E as (c5 & [F5 R5]%core_sync_flow & [F6 R6]%core_count_flow).
  destruct (core_clint_post_flow c4) as [Fp Rp]. rewrite Rp, R4, <- R6 in R5.
  assert (same_flow c3 c') as F by (eapply same_flow_trans; [exact F4|eapply same_flow_trans; [exact Fp|eapply same_flow_trans; [exact F5|exact F6]]]).
  clear F4 Fp F5 F6 Rp R4 R6. pose proof F as [Fv _]. unfold flow_view in Fv. injection Fv as _ _ _ _ _ _ Fs Fw.
  destruct (flushes cfp) eqn:Hfl.
  - destruct (cycle_flushes c1 cfp s c3 I1 Ec Hfl Est) as (S3 & W3 & T3 & Hr). destruct (Hr _ R5) as (H1 & H2 & H3).
    split; [by apply (stages_view c3)|done|done|by rewrite Fw, W3|]. unfold flow. rewrite (flight_view _ _ F), T3, Fs.
    destruct (cm_cur_state (co_commit c3)); [|done|done]. by rewrite H3.
  - destruct (cycle_goes c1 cfp s c3 I1 Ec Hfl Est) as (S3 & W3 & N3 & Hr). destruct (Hr _ R5) as (H1 & H2 & H3).
    split; [by apply (stages_view c3)|done|done|by rewrite Fw, W3|]. unfold flow. by rewrite (flight_view _ _ F), Fs, N3.
Qed.
End cycle.

(** * From reset on *)

(** The core as it is put together: queues of the right kind, ports that start
    empty. *)
Record core_made (c : core) : Prop := {
  ma_shape : core_shape c;
  ma_rob : rob_ok (cm_rob (co_commit c));
  ma_rename : port_init_value (co_rename_readreg_port c) = rename_readreg_pack_zero;
  ma_readreg : port_init_value (co_readreg_issue_port c) = readreg_issue_pack_zero;
  ma_commit : port_init_value (co_wb_commit_port c) = wb_commit_pack_zero;
  ma_units : Forall (fun p => port_init_value p = execute_wb_pack_zero) (unit_all (co_wb_port c))
}.

Lemma core_reset_flow c c' : core_reset c = Some c' ->
  flow_view c' = (port_reset (co_readreg_issue_port c),
     (issue_reset (co_issue c)) <| is_unit_fifo ::= unit_map (map fifo_reset) |> <| is_issue_queue_full := 0 |> <| is_issue_execute_fifo_full := 0 |>,
     unit_map (map port_reset) (co_wb_port c), port_reset (co_wb_commit_port c),
     map (fun _ => issue_execute_pack_zero) (co_csr_rev_pack c), map (fun h => (false, h.2)) (co_lsu_hold c), normal, true) /\
  co_rename_readreg_port c' = port_reset (co_rename_readreg_port c) /\ cm_rob (co_commit c') = rob_reset (cm_rob (co_commit c)).
Proof.
  unfold core_reset. intros E. apply bind_Some in E as ([r f] & _ & E). apply bind_Some in E as (o & _ & E).
  apply (inj Some) in E. subst c'. split_and!; reflexivity.
Qed.

Lemma core_reset_inv c c' : core_made c -> core_reset c = Some c' -> flow_inv c'.
Proof.
  intros [[[U1 U2 U3] S2 S3 S4 S5] Hok M1 M2 M3 M4] (V & R & B)%core_reset_flow.
  unfold flow_view in V. injection V as V1 V2 V3 V4 V5 V6 V7 V8.
  destruct (flushed_fifos (is_unit_fifo (co_issue c)) U1 U2) as [F1 F2]. destruct (fifo_flush_ok _ S5) as [Q1 Q2].
  assert (units_ok (co_issue c')) as Uok by (rewrite V2; split; [exact F1|exact F2|by intros []]).
  assert (rob_entries (rob_reset (cm_rob (co_commit c))) = []) as He by exact (proj2 (fifo_flush_ok _ Hok)).
  assert (port_get (port_reset (co_rename_readreg_port c)) = rename_readreg_pack_zero) as Pr by exact M1.
  assert (port_get (port_reset (co_readreg_issue_port c)) = readreg_issue_pack_zero) as Pi by exact M2.
  assert (port_get (port_reset (co_wb_commit_port c)) = wb_commit_pack_zero) as Pc by exact M3.
  split; [split; [split; [done|..]|..]|..]; rewrite ?V1, ?V3, ?V5, ?V6, ?V7, ?V8, ?R, ?B, ?Pr, ?Pi, ?length_map; try done.
  - intros u. rewrite <- S2. destruct u; cbn; by rewrite length_map.
  - by rewrite V2.
  - split; [done|rewrite V2..]; try done. change (Forall item_flow (fifo_items (fifo_flush (iq_fifo (is_issue_q (co_issue c)))))). by rewrite fifo_items_flush.
  - split; [done|]. by repeat (constructor; [done|]).
  - by apply (fifo_flush_ok _ Hok).
  - unfold flow. rewrite V7, B, He. unfold flight, flight_front. rewrite flight_units_eq, V1, V3, V4, V6, R, Pr, Pi, Pc, V2.
    assert (held (map (fun h => (false, h.2)) (co_lsu_hold c)) = []) as -> by (clear; induction (co_lsu_hold c); done).
    rewrite zero_tags; [|unfold all_zero; by rewrite unit_all_fmap, Forall_fmap].
    change (queued _) with (tags (unit_all (unit_map (map fifo_flush) (is_unit_fifo (co_issue c))) ≫= fifo_items)). rewrite (flushed_items _ U2).
    change (fifo_items (iq_fifo (is_issue_q _))) with (fifo_items (fifo_flush (iq_fifo (is_issue_q (co_issue c))))). by rewrite fifo_items_flush.
Qed.

Lemma core_run_inv mem mem_ids junk ras_full n c c' : flow_inv c -> core_run mem mem_ids junk ras_full n c = Some c' -> flow_inv c'.
Proof.
  revert c. induction n as [|n IH]; intros c I E; cbn [core_run] in E; [by injection E as <-|].
  apply bind_Some in E as (c1 & E1 & E). by apply (IH c1); [apply (core_cycle_flow mem mem_ids junk ras_full c)|].
Qed.

(** The entry a packet belongs to. *)
Definition tag_id (t : tag) : Z := t.1.1.1.

Lemma flow_ids c : rob_ok (cm_rob (co_commit c)) -> flow c -> NoDup (tag_id <$> flight c).
Proof.
  intros Hok. unfold flow. destruct (cm_cur_state (co_commit c)); [|intros ->; constructor..]. intros ->.
  rewrite <- list_fmap_compose. apply (sublist_NoDup _ (fst <$> rob_entries (cm_rob (co_commit c)))); [by apply fifo_entries_nodup|].
  change (tag_id ∘ entry_tag) with (@fst Z rob_item_t). apply fmap_sublist, sublist_filter.
Qed.

(** C2: no instruction is lost, duplicated or mixed up.  From reset on, in every
    cycle and whatever the program does, the packets between rename and commit
    and the entries of the reorder buffer belong together: in the normal state
    the packets are, one for one, those of the entries that are not finished,
    each with the address, the word and the destination register its entry has;
    so two packets never belong to the same entry.  While commit walks back
    after an exception or an interrupt, the pipeline is empty. *)
Theorem core_flow mem mem_ids junk ras_full n c0 c c' :
  core_made c0 -> core_reset c0 = Some c -> core_run mem mem_ids junk ras_full n c = Some c' ->
  flow c' /\ NoDup (tag_id <$> flight c').
Proof.
  intros M E0 E. pose proof (core_run_inv _ _ _ _ _ _ _ (core_reset_inv _ _ M E0) E) as [_ Hok _ _ F]. split; [done|by apply flow_ids].
Qed.

Lemma core_static_made b csr : core_made (core_static b csr).
Proof.
  split; try done; [apply core_static_shape|..].
  - by apply (fifo_new_ok (repeat rob_item_zero (Z.to_nat ROB_SIZE)) 0 false).
  - repeat constructor.
Qed.

(** Eight cycles into the program of [Core.v]: eleven instructions are in flight. *)
Lemma core_flow_witness :
  exists c c', core_demo demo_program = Some c /\ core_run checkpoint_zero (repeat 0 4) (0, 0) 0 8 c = Some c' /\
    length (flight c') = 11%nat /\ flow c' /\ NoDup (tag_id <$> flight c').
Proof.
  assert ((c ← core_demo demo_program; c ← core_run checkpoint_zero (repeat 0 4) (0, 0) 0 8 c; Some (length (flight c))) = Some 11%nat)
    as H by (vm_compute; reflexivity).
  apply bind_Some in H as (c & E1 & H). apply bind_Some in H as (c' & E2 & H). injection H as H.
  exists c, c'. split; [exact E1|]. split; [exact E2|]. split; [exact H|].
  unfold core_demo in E1. apply bind_Some in E1 as (csr & _ & E1).
  exact (core_flow checkpoint_zero (repeat 0 4) (0, 0) 0 8 _ c c' (core_static_made _ _) E1 E2).
Defined.
