(* ===== verification/Status.v ===== *)
(** The status of the pipeline as the debugger shows it: the [get_json] of the
    packets, of the queues ([component/fifo.h], [component/rob.h]), of the ports and
    of the stages, and the object [get_pipeline_status] of [top_source/main.cpp]
    makes of them.  A JSON value is what is handed to the library, the members of an
    object in the order in which they are set; its [dump] is an argument. *)

From Stdlib Require Import ZArith Lia String.
From stdpp Require Import base numbers list option tactics.
From S2P Require Import Prelude Common Fifo FifoIds IssueQueue Rob PipelineCommon Packs Execute WriteBack Issue IssueCycle Commit Core Flight CoreFlow.

Local Open Scope string_scope.
Local Open Scope list_scope.
Local Open Scope Z_scope.

#[warnings="-register-all"] Inductive json :=
| jnull
| jbool (b : bool)
| jnum (n : Z)
| jstr (s : string)
| jarr (l : list json)
| jobj (members : list (string * json)).

(** [j[key] = v] for a key that is not there yet, and reading it. *)
Definition json_add (j : json) (key : string) (v : json) : json :=
  match j with jobj l => jobj (l ++ [(key, v)]) | _ => jobj [(key, v)] end.

Fixpoint member (key : string) (l : list (string * json)) : option json :=
  match l with
  | [] => None
  | (k, v) :: l => if String.eqb k key then Some v else member key l
  end.

Definition json_get (key : string) (j : json) : option json := match j with jobj l => member key l | _ => None end.

(** * The names of enumerators *)

(** [outenum] gives a number that is no enumerator the empty name. *)
Definition name_of (names : list string) (n : nat) : string := default "" (names !! n).

Definition exception_names : list string :=
  ["instruction_address_misaligned"; "instruction_access_fault"; "illegal_instruction"; "breakpoint";
  "load_address_misaligned"; "load_access_fault"; "store_amo_address_misaligned"; "store_amo_access_fault";
  "environment_call_from_u_mode"; "environment_call_from_s_mode"; "reserved_10"; "environment_call_from_m_mode";
  "instruction_page_fault"; "load_page_fault"; "reserved_14"; "store_amo_page_fault"].

Definition exception_name (e : riscv_exception_t) : string := name_of exception_names (Z.to_nat (exception_code e)).

Definition arg_src_num (s : arg_src_t) : Z := match s with src_reg => 0 | src_imm => 1 | src_disable => 2 end.

Definition arg_src_name (s : arg_src_t) : string := match s with src_reg => "reg" | src_imm => "imm" | src_disable => "disable" end.

Definition op_unit_name (u : op_unit_t) : string :=
  match u with unit_alu => "alu" | unit_mul => "mul" | unit_div => "div" | unit_lsu => "lsu" | unit_bru => "bru" | unit_csr => "csr" end.

Definition op_name (o : op_t) : string :=
  match o with
  | op_add => "add" | op_addi => "addi" | op_and => "_and" | op_andi => "andi" | op_auipc => "auipc"
  | op_csrrc => "csrrc" | op_csrrci => "csrrci" | op_csrrs => "csrrs" | op_csrrsi => "csrrsi" | op_csrrw => "csrrw"
  | op_csrrwi => "csrrwi" | op_ebreak => "ebreak" | op_ecall => "ecall" | op_fence => "fence" | op_fence_i => "fence_i"
  | op_lui => "lui" | op_or => "_or" | op_ori => "ori" | op_sll => "sll" | op_slli => "slli" | op_slt => "slt"
  | op_slti => "slti" | op_sltiu => "sltiu" | op_sltu => "sltu" | op_sra => "sra" | op_srai => "srai" | op_srl => "srl"
  | op_srli => "srli" | op_sub => "sub" | op_xor => "_xor" | op_xori => "xori" | op_beq => "beq" | op_bge => "bge"
  | op_bgeu => "bgeu" | op_blt => "blt" | op_bltu => "bltu" | op_bne => "bne" | op_jal => "jal" | op_jalr => "jalr"
  | op_div => "div" | op_divu => "divu" | op_rem => "rem" | op_remu => "remu" | op_lb => "lb" | op_lbu => "lbu"
  | op_lh => "lh" | op_lhu => "lhu" | op_lw => "lw" | op_sb => "sb" | op_sh => "sh" | op_sw => "sw" | op_mul => "mul"
  | op_mulh => "mulh" | op_mulhsu => "mulhsu" | op_mulhu => "mulhu" | op_mret => "mret"
  end.

Definition alu_names : list string :=
  ["add"; "_and"; "auipc"; "ebreak"; "ecall"; "fence"; "fence_i"; "lui"; "_or"; "sll"; "slt"; "sltu"; "sra"; "srl";
  "sub"; "_xor"].

Definition alu_op_num (o : alu_op_t) : nat :=
  match o with
  | alu_add => 0 | alu_and => 1 | alu_auipc => 2 | alu_ebreak => 3 | alu_ecall => 4 | alu_fence => 5 | alu_fence_i => 6
  | alu_lui => 7 | alu_or => 8 | alu_sll => 9 | alu_slt => 10 | alu_sltu => 11 | alu_sra => 12 | alu_srl => 13
  | alu_sub => 14 | alu_xor => 15
  end.

Definition bru_names : list string :=
  ["beq"; "bge"; "bgeu"; "blt"; "bltu"; "bne"; "jal"; "jalr"; "mret"].

Definition bru_op_num (o : bru_op_t) : nat :=
  match o with
  | bru_beq => 0 | bru_bge => 1 | bru_bgeu => 2 | bru_blt => 3 | bru_bltu => 4 | bru_bne => 5 | bru_jal => 6
  | bru_jalr => 7 | bru_mret => 8
  end.

Definition div_names : list string :=
  ["div"; "divu"; "rem"; "remu"].

Definition div_op_num (o : div_op_t) : nat :=
  match o with
  | div_div => 0 | div_divu => 1 | div_rem => 2 | div_remu => 3
  end.

Definition lsu_names : list string :=
  ["lb"; "lbu"; "lh"; "lhu"; "lw"; "sb"; "sh"; "sw"].

Definition lsu_op_num (o : lsu_op_t) : nat :=
  match o with
  | lsu_lb => 0 | lsu_lbu => 1 | lsu_lh => 2 | lsu_lhu => 3 | lsu_lw => 4 | lsu_sb => 5 | lsu_sh => 6 | lsu_sw => 7
  end.

Definition mul_names : list string :=
  ["mul"; "mulh"; "mulhsu"; "mulhu"].

Definition mul_op_num (o : mul_op_t) : nat :=
  match o with
  | mul_mul => 0 | mul_mulh => 1 | mul_mulhsu => 2 | mul_mulhu => 3
  end.

Definition csr_names : list string :=
  ["csrrc"; "csrrs"; "csrrw"].

Definition csr_op_num (o : csr_op_t) : nat :=
  match o with
  | csr_csrrc => 0 | csr_csrrs => 1 | csr_csrrw => 2
  end.

(** The number the union [sub_op] holds. *)
Definition sub_op_num (o : sub_op_t) : nat :=
  match o with
  | sub_none => 0
  | sub_alu o => alu_op_num o
  | sub_bru o => bru_op_num o
  | sub_div o => div_op_num o
  | sub_lsu o => lsu_op_num o
  | sub_mul o => mul_op_num o
  | sub_csr o => csr_op_num o
  end.

(** The switch over the unit reads the member of this unit. *)
Definition sub_op_name (u : op_unit_t) (o : sub_op_t) : string :=
  name_of (match u with
           | unit_alu => alu_names | unit_bru => bru_names | unit_csr => csr_names
           | unit_div => div_names | unit_lsu => lsu_names | unit_mul => mul_names
           end) (sub_op_num o).

(** * Packets *)

Definition fetch_decode_json (t : fetch_decode_pack_t) : json :=
  jobj [("pc", jnum (fd_pc t)); ("value", jnum (fd_value t)); ("enable", jbool (fd_enable t));
    ("has_exception", jbool (fd_has_exception t)); ("exception_id", jstr (exception_name (fd_exception_id t)));
    ("exception_value", jnum (fd_exception_value t)); ("predicted", jbool (fd_predicted t));
    ("predicted_jump", jbool (fd_predicted_jump t)); ("predicted_next_pc", jnum (fd_predicted_next_pc t));
    ("checkpoint_id_valid", jbool (fd_checkpoint_id_valid t)); ("checkpoint_id", jnum (fd_checkpoint_id t))].

Definition decode_rename_json (t : decode_rename_pack_t) : json :=
  jobj [("enable", jbool (dr_enable t)); ("value", jnum (dr_value t)); ("valid", jbool (dr_valid t));
    ("pc", jnum (dr_pc t)); ("imm", jnum (dr_imm t)); ("has_exception", jbool (dr_has_exception t));
    ("exception_id", jstr (exception_name (dr_exception_id t))); ("exception_value", jnum (dr_exception_value t));
    ("predicted", jbool (dr_predicted t)); ("predicted_jump", jbool (dr_predicted_jump t));
    ("predicted_next_pc", jnum (dr_predicted_next_pc t)); ("checkpoint_id_valid", jbool (dr_checkpoint_id_valid t));
    ("checkpoint_id", jnum (dr_checkpoint_id t)); ("rs1", jnum (dr_rs1 t));
    ("arg1_src", jnum (arg_src_num (dr_arg1_src t))); ("rs1_need_map", jbool (dr_rs1_need_map t)); ("rs2", jnum (dr_rs2 t));
    ("arg2_src", jstr (arg_src_name (dr_arg2_src t))); ("rs2_need_map", jbool (dr_rs2_need_map t)); ("rd", jnum (dr_rd t));
    ("rd_enable", jbool (dr_rd_enable t)); ("need_rename", jbool (dr_need_rename t)); ("csr", jnum (dr_csr t));
    ("op", jstr (op_name (dr_op t))); ("op_unit", jstr (op_unit_name (dr_op_unit t)));
    ("sub_op", jstr (sub_op_name (dr_op_unit t) (dr_sub_op t)))].

Definition rename_readreg_json (t : rename_readreg_op_info_t) : json :=
  jobj [("enable", jbool (rr_enable t)); ("value", jnum (rr_value t)); ("valid", jbool (rr_valid t));
    ("rob_id", jnum (rr_rob_id t)); ("pc", jnum (rr_pc t)); ("imm", jnum (rr_imm t));
    ("has_exception", jbool (rr_has_exception t)); ("exception_id", jstr (exception_name (rr_exception_id t)));
    ("exception_value", jnum (rr_exception_value t)); ("predicted", jbool (rr_predicted t));
    ("predicted_jump", jbool (rr_predicted_jump t)); ("predicted_next_pc", jnum (rr_predicted_next_pc t));
    ("checkpoint_id_valid", jbool (rr_checkpoint_id_valid t)); ("checkpoint_id", jnum (rr_checkpoint_id t));
    ("rs1", jnum (rr_rs1 t)); ("arg1_src", jnum (arg_src_num (rr_arg1_src t))); ("rs1_need_map", jbool (rr_rs1_need_map t));
    ("rs1_phy", jnum (rr_rs1_phy t)); ("rs2", jnum (rr_rs2 t)); ("arg2_src", jstr (arg_src_name (rr_arg2_src t)));
    ("rs2_need_map", jbool (rr_rs2_need_map t)); ("rs2_phy", jnum (rr_rs2_phy t)); ("rd", jnum (rr_rd t));
    ("rd_enable", jbool (rr_rd_enable t)); ("need_rename", jbool (rr_need_rename t)); ("rd_phy", jnum (rr_rd_phy t));
    ("csr", jnum (rr_csr t)); ("op", jstr (op_name (rr_op t))); ("op_unit", jstr (op_unit_name (rr_op_unit t)));
    ("sub_op", jstr (sub_op_name (rr_op_unit t) (rr_sub_op t)))].

Definition readreg_issue_json (t : readreg_issue_op_info_t) : json :=
  jobj [("enable", jbool (ri_enable t)); ("value", jnum (ri_value t)); ("valid", jbool (ri_valid t));
    ("rob_id", jnum (ri_rob_id t)); ("pc", jnum (ri_pc t)); ("imm", jnum (ri_imm t));
    ("has_exception", jbool (ri_has_exception t)); ("exception_id", jstr (exception_name (ri_exception_id t)));
    ("exception_value", jnum (ri_exception_value t)); ("predicted", jbool (ri_predicted t));
    ("predicted_jump", jbool (ri_predicted_jump t)); ("predicted_next_pc", jnum (ri_predicted_next_pc t));
    ("checkpoint_id_valid", jbool (ri_checkpoint_id_valid t)); ("checkpoint_id", jnum (ri_checkpoint_id t));
    ("rs1", jnum (ri_rs1 t)); ("arg1_src", jnum (arg_src_num (ri_arg1_src t))); ("rs1_need_map", jbool (ri_rs1_need_map t));
    ("rs1_phy", jnum (ri_rs1_phy t)); ("src1_value", jnum (ri_src1_value t)); ("src1_loaded", jbool (ri_src1_loaded t));
    ("rs2", jnum (ri_rs2 t)); ("arg2_src", jstr (arg_src_name (ri_arg2_src t)));
    ("rs2_need_map", jbool (ri_rs2_need_map t)); ("rs2_phy", jnum (ri_rs2_phy t)); ("src2_value", jnum (ri_src2_value t));
    ("src2_loaded", jbool (ri_src2_loaded t)); ("rd", jnum (ri_rd t)); ("rd_enable", jbool (ri_rd_enable t));
    ("need_rename", jbool (ri_need_rename t)); ("rd_phy", jnum (ri_rd_phy t)); ("csr", jnum (ri_csr t));
    ("op", jstr (op_name (ri_op t))); ("op_unit", jstr (op_unit_name (ri_op_unit t)));
    ("sub_op", jstr (sub_op_name (ri_op_unit t) (ri_sub_op t)))].

Definition issue_queue_item_json (t : issue_queue_item_t) : json :=
  jobj [("enable", jbool (it_enable t)); ("value", jnum (it_value t)); ("valid", jbool (it_valid t));
    ("rob_id", jnum (it_rob_id t)); ("pc", jnum (it_pc t)); ("imm", jnum (it_imm t));
    ("has_exception", jbool (it_has_exception t)); ("exception_id", jstr (exception_name (it_exception_id t)));
    ("exception_value", jnum (it_exception_value t)); ("predicted", jbool (it_predicted t));
    ("predicted_jump", jbool (it_predicted_jump t)); ("predicted_next_pc", jnum (it_predicted_next_pc t));
    ("checkpoint_id_valid", jbool (it_checkpoint_id_valid t)); ("checkpoint_id", jnum (it_checkpoint_id t));
    ("rs1", jnum (it_rs1 t)); ("arg1_src", jnum (arg_src_num (it_arg1_src t))); ("rs1_need_map", jbool (it_rs1_need_map t));
    ("rs1_phy", jnum (it_rs1_phy t)); ("src1_value", jnum (it_src1_value t)); ("src1_loaded", jbool (it_src1_loaded t));
    ("rs2", jnum (it_rs2 t)); ("arg2_src", jstr (arg_src_name (it_arg2_src t)));
    ("rs2_need_map", jbool (it_rs2_need_map t)); ("rs2_phy", jnum (it_rs2_phy t)); ("src2_value", jnum (it_src2_value t));
    ("src2_loaded", jbool (it_src2_loaded t)); ("rd", jnum (it_rd t)); ("rd_enable", jbool (it_rd_enable t));
    ("need_rename", jbool (it_need_rename t)); ("rd_phy", jnum (it_rd_phy t)); ("csr", jnum (it_csr t));
    ("op", jstr (op_name (it_op t))); ("op_unit", jstr (op_unit_name (it_op_unit t)));
    ("sub_op", jstr (sub_op_name (it_op_unit t) (it_sub_op t)))].

Definition issue_execute_json (t : issue_execute_pack_t) : json :=
  jobj [("enable", jbool (ie_enable t)); ("value", jnum (ie_value t)); ("valid", jbool (ie_valid t));
    ("rob_id", jnum (ie_rob_id t)); ("pc", jnum (ie_pc t)); ("imm", jnum (ie_imm t));
    ("has_exception", jbool (ie_has_exception t)); ("exception_id", jstr (exception_name (ie_exception_id t)));
    ("exception_value", jnum (ie_exception_value t)); ("predicted", jbool (ie_predicted t));
    ("predicted_jump", jbool (ie_predicted_jump t)); ("predicted_next_pc", jnum (ie_predicted_next_pc t));
    ("checkpoint_id_valid", jbool (ie_checkpoint_id_valid t)); ("checkpoint_id", jnum (ie_checkpoint_id t));
    ("rs1", jnum (ie_rs1 t)); ("arg1_src", jnum (arg_src_num (ie_arg1_src t))); ("rs1_need_map", jbool (ie_rs1_need_map t));
    ("rs1_phy", jnum (ie_rs1_phy t)); ("src1_value", jnum (ie_src1_value t)); ("src1_loaded", jbool (ie_src1_loaded t));
    ("rs2", jnum (ie_rs2 t)); ("arg2_src", jstr (arg_src_name (ie_arg2_src t)));
    ("rs2_need_map", jbool (ie_rs2_need_map t)); ("rs2_phy", jnum (ie_rs2_phy t)); ("src2_value", jnum (ie_src2_value t));
    ("src2_loaded", jbool (ie_src2_loaded t)); ("rd", jnum (ie_rd t)); ("rd_enable", jbool (ie_rd_enable t));
    ("need_rename", jbool (ie_need_rename t)); ("rd_phy", jnum (ie_rd_phy t)); ("csr", jnum (ie_csr t));
    ("op", jstr (op_name (ie_op t))); ("op_unit", jstr (op_unit_name (ie_op_unit t)));
    ("sub_op", jstr (sub_op_name (ie_op_unit t) (ie_sub_op t)))].

Definition execute_wb_json (t : execute_wb_pack_t) : json :=
  jobj [("enable", jbool (ew_enable t)); ("value", jnum (ew_value t)); ("valid", jbool (ew_valid t));
    ("rob_id", jnum (ew_rob_id t)); ("pc", jnum (ew_pc t)); ("imm", jnum (ew_imm t));
    ("has_exception", jbool (ew_has_exception t)); ("exception_id", jstr (exception_name (ew_exception_id t)));
    ("exception_value", jnum (ew_exception_value t)); ("predicted", jbool (ew_predicted t));
    ("predicted_jump", jbool (ew_predicted_jump t)); ("predicted_next_pc", jnum (ew_predicted_next_pc t));
    ("checkpoint_id_valid", jbool (ew_checkpoint_id_valid t)); ("checkpoint_id", jnum (ew_checkpoint_id t));
    ("bru_jump", jbool (ew_bru_jump t)); ("bru_next_pc", jnum (ew_bru_next_pc t)); ("rs1", jnum (ew_rs1 t));
    ("arg1_src", jnum (arg_src_num (ew_arg1_src t))); ("rs1_need_map", jbool (ew_rs1_need_map t));
    ("rs1_phy", jnum (ew_rs1_phy t)); ("src1_value", jnum (ew_src1_value t)); ("src1_loaded", jbool (ew_src1_loaded t));
    ("rs2", jnum (ew_rs2 t)); ("arg2_src", jstr (arg_src_name (ew_arg2_src t)));
    ("rs2_need_map", jbool (ew_rs2_need_map t)); ("rs2_phy", jnum (ew_rs2_phy t)); ("src2_value", jnum (ew_src2_value t));
    ("src2_loaded", jbool (ew_src2_loaded t)); ("rd", jnum (ew_rd t)); ("rd_enable", jbool (ew_rd_enable t));
    ("need_rename", jbool (ew_need_rename t)); ("rd_phy", jnum (ew_rd_phy t)); ("rd_value", jnum (ew_rd_value t));
    ("csr", jnum (ew_csr t)); ("op", jstr (op_name (ew_op t))); ("op_unit", jstr (op_unit_name (ew_op_unit t)));
    ("sub_op", jstr (sub_op_name (ew_op_unit t) (ew_sub_op t)))].

Definition wb_commit_json (t : wb_commit_op_info_t) : json :=
  jobj [("enable", jbool (wc_enable t)); ("value", jnum (wc_value t)); ("valid", jbool (wc_valid t));
    ("rob_id", jnum (wc_rob_id t)); ("pc", jnum (wc_pc t)); ("imm", jnum (wc_imm t));
    ("has_exception", jbool (wc_has_exception t)); ("exception_id", jstr (exception_name (wc_exception_id t)));
    ("exception_value", jnum (wc_exception_value t)); ("predicted", jbool (wc_predicted t));
    ("predicted_jump", jbool (wc_predicted_jump t)); ("predicted_next_pc", jnum (wc_predicted_next_pc t));
    ("checkpoint_id_valid", jbool (wc_checkpoint_id_valid t)); ("checkpoint_id", jnum (wc_checkpoint_id t));
    ("bru_jump", jbool (wc_bru_jump t)); ("bru_next_pc", jnum (wc_bru_next_pc t)); ("rs1", jnum (wc_rs1 t));
    ("arg1_src", jnum (arg_src_num (wc_arg1_src t))); ("rs1_need_map", jbool (wc_rs1_need_map t));
    ("rs1_phy", jnum (wc_rs1_phy t)); ("src1_value", jnum (wc_src1_value t)); ("src1_loaded", jbool (wc_src1_loaded t));
    ("rs2", jnum (wc_rs2 t)); ("arg2_src", jstr (arg_src_name (wc_arg2_src t)));
    ("rs2_need_map", jbool (wc_rs2_need_map t)); ("rs2_phy", jnum (wc_rs2_phy t)); ("src2_value", jnum (wc_src2_value t));
    ("src2_loaded", jbool (wc_src2_loaded t)); ("rd", jnum (wc_rd t)); ("rd_enable", jbool (wc_rd_enable t));
    ("need_rename", jbool (wc_need_rename t)); ("rd_phy", jnum (wc_rd_phy t)); ("rd_value", jnum (wc_rd_value t));
    ("csr", jnum (wc_csr t)); ("op", jstr (op_name (wc_op t))); ("op_unit", jstr (op_unit_name (wc_op_unit t)));
    ("sub_op", jstr (sub_op_name (wc_op_unit t) (wc_sub_op t)))].

Definition rob_item_json (t : rob_item_t) : json :=
  jobj [("new_phy_reg_id", jnum (rob_new_phy_reg_id t)); ("old_phy_reg_id", jnum (rob_old_phy_reg_id t));
    ("old_phy_reg_id_valid", jbool (rob_old_phy_reg_id_valid t)); ("finish", jbool (rob_finish t)); ("pc", jnum (rob_pc t));
    ("inst_value", jnum (rob_inst_value t)); ("has_exception", jbool (rob_has_exception t));
    ("exception_id", jstr (exception_name (rob_exception_id t))); ("exception_value", jnum (rob_exception_value t));
    ("predicted", jbool (rob_predicted t)); ("predicted_jump", jbool (rob_predicted_jump t));
    ("predicted_next_pc", jnum (rob_predicted_next_pc t)); ("checkpoint_id_valid", jbool (rob_checkpoint_id_valid t));
    ("checkpoint_id", jnum (rob_checkpoint_id t)); ("bru_op", jbool (rob_bru_op t)); ("bru_jump", jbool (rob_bru_jump t));
    ("bru_next_pc", jnum (rob_bru_next_pc t)); ("is_mret", jbool (rob_is_mret t)); ("csr_addr", jnum (rob_csr_addr t));
    ("csr_newvalue", jnum (rob_csr_newvalue t)); ("csr_newvalue_valid", jbool (rob_csr_newvalue_valid t))].

Definition wb_feedback_channel_json (t : wb_feedback_channel_t) : json :=
  jobj [("enable", jbool (wf_enable t)); ("phy_id", jnum (wf_phy_id t)); ("value", jnum (wf_value t))].

Definition wb_feedback_json (t : wb_feedback_pack_t) : json := jarr (wb_feedback_channel_json <$> t).

Definition issue_feedback_json (stall : bool) : json := jobj [("stall", jbool stall)].

(** Two of the [COMMIT_WIDTH] elements of the arrays. *)
Definition commit_feedback_json (t : commit_feedback_pack_t) : json :=
  let committed i := default (false, 0) (cf_committed t !! i) in
  jobj [("enable", jbool (cf_enable t)); ("next_handle_rob_id_valid", jbool (cf_next_handle_rob_id_valid t));
    ("next_handle_rob_id", jnum (cf_next_handle_rob_id t));
    ("committed_rob_id_valid_0", jbool (committed 0%nat).1); ("committed_rob_id_0", jnum (committed 0%nat).2);
    ("committed_rob_id_valid_1", jbool (committed 1%nat).1); ("committed_rob_id_1", jnum (committed 1%nat).2);
    ("has_exception", jbool (cf_has_exception t)); ("exception_pc", jnum (cf_exception_pc t)); ("flush", jbool (cf_flush t));
    ("jump_enable", jbool (cf_jump_enable t)); ("jump", jbool (cf_jump t)); ("next_pc", jnum (cf_next_pc t))].

(** * Queues, ports and stages *)

(** [fifo<T>::get_json], whose loop is [fifo_dump]; [item] is [get_json] of the
    elements. *)
Definition fifo_get_json {T} (item : T -> json) (f : fifo T) : option json :=
  l ← fifo_dump (Z.to_nat (size f)) f; Some (jarr (item <$> l)).

Definition port_get_json {T} (item : T -> json) (p : port T) : json := item (port_get p).

(** An element of the reorder buffer with its id. *)
Definition rob_entry_json (e : Z * rob_item_t) : json := json_add (rob_item_json e.2) "rob_id" (jnum e.1).

Fixpoint rob_json_loop (fuel : nat) (f : fifo rob_item_t) (cur : Z) (cur_stage : bool) : option (list json) :=
  match fuel with
  | O => None
  | S fuel =>
      x ← arr_get (buffer f) cur;
      let item := rob_entry_json (cur, x) in
      let cur := u32 (cur + 1) in
      let '(cur, cur_stage) := if size f <=? cur then (0, negb cur_stage) else (cur, cur_stage) in
      if (cur =? wptr f) && eqb cur_stage (wstage f) then Some [item]
      else rest ← rob_json_loop fuel f cur cur_stage; Some (item :: rest)
  end.

Definition rob_get_json (r : rob) : option json :=
  let f := rob_fifo r in
  if fifo_is_empty f then Some (jarr [])
  else l ← rob_json_loop (Z.to_nat (size f)) f (rptr f) (rstage f); Some (jarr l).

Definition fetch_get_json (c : core) : json := jobj [("pc", jnum (co_pc c)); ("jump_wait", jbool (co_jump_wait c))].

Definition issue_get_json (s : issue_world) : option json := fifo_get_json issue_queue_item_json (iq_fifo (is_issue_q s)).

(** * The status *)

(** The feedback packets of the last cycle that are shown. *)
Record feedback_packs := mk_feedback_packs {
  fp_issue : bool;
  fp_wb : wb_feedback_pack_t;
  fp_commit : commit_feedback_pack_t
}.

Definition feedback_packs_zero : feedback_packs := mk_feedback_packs false wb_feedback_pack_zero commit_feedback_zero.

(** A loop over the units of a kind for each kind. *)
Definition units_json {A} (item : A -> option json) (p : per_unit (list A)) : option json :=
  alu ← mapM item (pu_alu p);
  bru ← mapM item (pu_bru p);
  csr ← mapM item (pu_csr p);
  div ← mapM item (pu_div p);
  lsu ← mapM item (pu_lsu p);
  mul ← mapM item (pu_mul p);
  Some (jobj [("alu", jarr alu); ("bru", jarr bru); ("csr", jarr csr); ("div", jarr div); ("lsu", jarr lsu); ("mul", jarr mul)]).

Definition pipeline_json (fp : feedback_packs) (c : core) : option json :=
  fetch_decode ← fifo_get_json fetch_decode_json (co_fetch_decode_fifo c);
  decode_rename ← fifo_get_json decode_rename_json (co_decode_rename_fifo c);
  issue ← issue_get_json (co_issue c);
  tie ← units_json (fifo_get_json issue_execute_json) (is_unit_fifo (co_issue c));
  tew ← units_json (fun p => Some (port_get_json execute_wb_json p)) (co_wb_port c);
  rob ← rob_get_json (cm_rob (co_commit c));
  Some (jobj [("fetch", fetch_get_json c); ("fetch_decode", fetch_decode); ("decode_rename", decode_rename);
    ("rename_readreg", port_get_json (fun t => jarr (rename_readreg_json <$> t)) (co_rename_readreg_port c));
    ("readreg_issue", port_get_json (fun t => jarr (readreg_issue_json <$> t)) (co_readreg_issue_port c));
    ("issue", issue); ("issue_execute", tie); ("execute_wb", tew);
    ("wb_commit", port_get_json (fun t => jarr (wb_commit_json <$> t)) (co_wb_commit_port c));
    ("issue_feedback_pack", issue_feedback_json (fp_issue fp)); ("wb_feedback_pack", wb_feedback_json (fp_wb fp));
    ("commit_feedback_pack", commit_feedback_json (fp_commit fp)); ("rob", rob)]).

(** The feedback packets of a cycle; [junk] is the uninitialised feedback of a CSR
    unit. *)
Definition core_feedback (junk : Z * Z) (c : core) : option feedback_packs :=
  c ← core_clint_pre (core_start c);
  '(cfp, c) ← core_commit c;
  '(wfs, c) ← core_wb cfp c;
  '(efs, c) ← core_execute junk cfp c;
  '(stall, _) ← core_issue efs wfs cfp c;
  Some (mk_feedback_packs stall wfs cfp).
