(* ===== verification/StatusSpec.v ===== *)
(** What the status of [Status.v] shows.  From reset on the queues between fetch,
    decode and rename hold a list, as the later ones do ([CoreFlow.v]); so the
    walks over the circular buffers end, and give the elements in their order. *)

From Stdlib Require Import ZArith Lia String.
From stdpp Require Import base numbers list option tactics.
From S2P Require Import Prelude Common Fifo FifoIds IssueQueue Rob PipelineCommon Packs Decode Execute WriteBack Rename Bus Issue IssueCycle Fetch Commit Core Flight FlowIssue CoreFlow Status.

Local Open Scope string_scope.
Local Open Scope list_scope.
Local Open Scope Z_scope.

(** * The queues of the front end *)

(** A queue that holds a list, and one that can also be asked for room. *)
Definition fifo_sound {T} (f : fifo T) : Prop := exists q, fifo_refines f q.
Definition fifo_live {T} (f : fifo T) : Prop := exists q, fifo_refines f q /\ q_stale q = false.

Section live.
Context {T : Type}.
Implicit Types f : fifo T.

Lemma fifo_live_sound f : fifo_live f -> fifo_sound f.
Proof. intros (q & R & _). by exists q. Qed.

Lemma fifo_flush_sound f : fifo_sound f -> fifo_sound (fifo_flush f).
Proof. intros (q & b & st & R). exists (q_clear q), 0%nat, false. apply (repr_clear R). Qed.

Lemma fifo_reset_pop_status_live f : fifo_sound f -> fifo_live (fifo_reset_pop_status f).
Proof.
  intros (q & R). destruct (fifo_step_refines f q OpResetPopStatus RUnit (q_forget q (q_save q)) R eq_refl) as (f' & E & R').
  injection E as <-. by exists (q_forget q (q_save q)).
Qed.

Lemma fifo_pop_live f x f' : fifo_live f -> fifo_pop f = Some (x, f') -> fifo_live f'.
Proof.
  intros (q & (b & st & R) & Hs) E. destruct (repr_pop R) as (f1 & b' & st' & E' & R'). rewrite E in E'. injection E' as -> ->.
  exists (q_pop q).2. split; [by exists b', st'|]. unfold q_pop. by destruct (q_items q).
Qed.

Lemma fifo_push_live f x ok f' : fifo_live f -> fifo_push f x = Some (ok, f') -> fifo_live f'.
Proof.
  intros (q & (b & st & R) & Hs) E. destruct (repr_push R x Hs) as (f1 & E' & R'). rewrite E in E'. injection E' as -> ->.
  exists (q_push q x).2. split; [by exists b, st|]. unfold q_push. by case_decide.
Qed.
End live.

(** Rename takes elements. *)
Lemma rename_dest_queue i p v rd old valid v' :
  rename_dest i p v = Some (rd, old, valid, v') -> rn_decode_rename_fifo (rv_world v') = rn_decode_rename_fifo (rv_world v).
Proof.
  unfold rename_dest. case_match; [|by intros [= _ _ _ <-]]. intros E.
  repeat (apply bind_Some in E as (? & _ & E)). by injection E as _ _ _ <-.
Qed.

Lemma rename_slot_queue mem i p v t v' :
  rename_slot mem i p v = Some (t, v') -> rn_decode_rename_fifo (rv_world v') = rn_decode_rename_fifo (rv_world v).
Proof.
  unfold rename_slot. intros E. apply bind_Some in E as ([[[rd old] valid] v1] & <-%rename_dest_queue & E).
  apply bind_Some in E as (rob_id & _ & E). apply bind_Some in E as ([[ret id] r] & _ & E).
  repeat (apply bind_Some in E as (? & _ & E)). by injection E as _ <-.
Qed.

Lemma rename_one_live mem i v continue v' :
  fifo_live (rn_decode_rename_fifo (rv_world v)) -> rename_one mem i v = Some (continue, v') -> fifo_live (rn_decode_rename_fifo (rv_world v')).
Proof.
  unfold rename_one. intros H E. case_match; [|by injection E as _ <-]. apply bind_Some in E as (p & _ & E). apply bind_Some in E as (q & _ & E).
  cbv zeta in E. apply bind_Some in E as (free & _ & E). apply bind_Some in E as (ids & _ & E).
  match type of E with context [rename_move _ _ ?v1] => assert (fifo_live (rn_decode_rename_fifo (rv_world v1))) as H1;
    [by destruct (dr_enable q && dr_valid q && dr_need_rename q), (dr_enable q)|clear H; generalize dependent v1] end. intros v1 E H1.
  case_match.
  - apply bind_Some in E as (v2 & E & E'). injection E' as _ <-. unfold rename_move in E. apply bind_Some in E as ([x f] & Ep & E).
    apply bind_Some in E as (x' & _ & E). apply bind_Some in E as ([t v3] & E3 & E). apply bind_Some in E as (sp & _ & E). injection E as <-.
    change (rv_world (v3 <| rv_send_pack := sp |>)) with (rv_world v3). apply (fifo_pop_live _ _ _ H1) in Ep.
    destruct (dr_enable x'); [by rewrite (rename_slot_queue _ _ _ _ _ _ E3)|by injection E3 as _ <-].
  - injection E as _ <-. unfold rename_block. by repeat case_match.
Qed.

Lemma rename_loop_live mem n i v v' :
  fifo_live (rn_decode_rename_fifo (rv_world v)) -> rename_loop mem n i v = Some v' -> fifo_live (rn_decode_rename_fifo (rv_world v')).
Proof.
  revert i v. induction n as [|n IH]; intros i v H E; cbn [rename_loop] in E; [by injection E as <-|].
  apply bind_Some in E as ([continue v1] & E1 & E). apply (rename_one_live _ _ _ _ _ H) in E1. destruct continue; [by apply (IH (S i) v1)|by injection E as <-].
Qed.

Lemma rename_run_live mem ids s stall cfp idle s' :
  fifo_live (rn_decode_rename_fifo s) -> rename_run mem ids s stall cfp = Some (idle, s') -> fifo_live (rn_decode_rename_fifo s').
Proof.
  unfold rename_run. intros H E. case_match; [case_match|]; [|by injection E as _ <-..].
  apply bind_Some in E as (cp & _ & E). apply bind_Some in E as (v & Ev & E). injection E as _ <-.
  change (fifo_live (rn_decode_rename_fifo (rv_world v))). by apply (rename_loop_live _ _ _ _ _) in Ev.
Qed.

(** Decode moves elements, or empties its queue. *)
Lemma decode_loop_live n s s' :
  fifo_live (fetch_decode_fifo s) -> fifo_live (decode_rename_fifo s) -> decode_loop n s = Some s' ->
  fifo_live (fetch_decode_fifo s') /\ fifo_live (decode_rename_fifo s').
Proof.
  revert s. induction n as [|n IH]; intros s H1 H2 E; cbn [decode_loop] in E; [by injection E as <-|].
  apply bind_Some in E as (s1 & E1 & E). assert (fifo_live (fetch_decode_fifo s1) /\ fifo_live (decode_rename_fifo s1)) as [L1 L2]; [|by apply (IH s1)].
  unfold decode_one in E1. case_match; [|case_match; by injection E1 as <-]. apply bind_Some in E1 as ([x f] & Ef & E1).
  apply bind_Some in E1 as (x' & _ & E1). apply bind_Some in E1 as (p & _ & E1). apply bind_Some in E1 as ([ok g] & Eg & E1). injection E1 as <-.
  split; [by apply (fifo_pop_live _ _ _ H1) in Ef|by apply (fifo_push_live _ _ _ _ H2) in Eg].
Qed.

Lemma decode_run_live s cfp idle s' :
  fifo_live (fetch_decode_fifo s) -> fifo_live (decode_rename_fifo s) -> decode_run s cfp = Some (idle, s') ->
  fifo_live (fetch_decode_fifo s') /\ fifo_sound (decode_rename_fifo s').
Proof.
  unfold decode_run. intros H1 H2 E. apply bind_Some in E as (s1 & E1 & E). injection E as _ <-. case_match.
  - destruct (decode_loop_live _ _ _ H1 H2 E1) as [L1 L2]. split; [done|by apply fifo_live_sound].
  - injection E1 as <-. split; [done|by apply fifo_flush_sound, fifo_live_sound].
Qed.

(** Fetch adds elements, or empties the queue. *)
Lemma fetch_jump_queue mem pc op p s p' s' : fetch_jump mem pc op p s = Some (p', s') -> fw_fetch_decode_fifo s' = fw_fetch_decode_fifo s.
Proof.
  unfold fetch_jump. intros E. apply bind_Some in E as ([o bp] & _ & E). destruct o as [[j next]|]; [|by injection E as _ <-].
  apply bind_Some in E as (cp & _ & E). apply bind_Some in E as ([[valid id] cb] & _ & E). apply bind_Some in E as (bp' & _ & E).
  destruct valid; by injection E as _ <-.
Qed.

Lemma fetch_one_live mem di ri sb cfp old_pc i s continue s' :
  fifo_live (fw_fetch_decode_fifo s) -> fetch_one mem di ri sb cfp old_pc i s = Some (continue, s') -> fifo_live (fw_fetch_decode_fifo s').
Proof.
  unfold fetch_one. intros H E. destruct (negb (fifo_is_full (fw_fetch_decode_fifo s))); [|by injection E as _ <-]. cbv zeta in E. apply bind_Some in E as ([op s1] & E1 & E).
  assert (fw_fetch_decode_fifo s1 = fw_fetch_decode_fifo s) as H1.
  { unfold fetch_word in E1. destruct (negb (bus_check_align _ 4)) in E1; [by injection E1 as _ <-|]. apply bind_Some in E1 as ([o b] & _ & E1). by injection E1 as _ <-. }
  rewrite <- H1 in H. clear H1 E1. destruct (is_fence_i op && _); [by injection E as _ <-|]. apply bind_Some in E as ([p s2] & E2 & E).
  assert (fw_fetch_decode_fifo s2 = fw_fetch_decode_fifo s1) as H2 by (destruct (is_jump op); [by apply fetch_jump_queue in E2|by injection E2 as _ <-]).
  rewrite <- H2 in H. clear H2 E2. apply bind_Some in E as ([ok f] & Ef & E). apply (fifo_push_live _ _ _ _ H) in Ef.
  destruct (is_jump op); by injection E as _ <-.
Qed.

Lemma fetch_loop_live mem di ri sb cfp n i old_pc s s' :
  fifo_live (fw_fetch_decode_fifo s) -> fetch_loop mem di ri sb cfp n i old_pc s = Some s' -> fifo_live (fw_fetch_decode_fifo s').
Proof.
  revert i s. induction n as [|n IH]; intros i s H E; cbn [fetch_loop] in E; [by injection E as <-|].
  apply bind_Some in E as ([continue s1] & E1 & E). apply (fetch_one_live _ _ _ _ _ _ _ _ _ _ H) in E1.
  destruct continue; [by apply (IH (S i) s1)|by injection E as <-].
Qed.

Lemma fetch_run_sound mem di ri sb cfp s s' :
  fifo_live (fw_fetch_decode_fifo s) -> fetch_run mem di ri sb cfp s = Some s' -> fifo_sound (fw_fetch_decode_fifo s').
Proof.
  unfold fetch_run. intros H E. pose proof (fifo_live_sound _ H) as Hs. case_match; [by injection E as <-|]. case_match; [case_match|].
  - case_match; [case_match|]; by injection E as <-.
  - apply bind_Some in E as (s1 & E1 & E). unfold fetch_trace in E1. repeat (apply bind_Some in E1 as (? & _ & E1)). injection E1 as <-.
    apply fifo_live_sound. by apply fetch_loop_live in E.
  - pose proof (fifo_flush_sound _ Hs). repeat case_match; by injection E as <-.
Qed.

(** * Through a cycle *)

Definition front (c : core) : fifo fetch_decode_pack_t * fifo decode_rename_pack_t := (co_fetch_decode_fifo c, co_decode_rename_fifo c).

Definition front_sound (c : core) : Prop := fifo_sound (co_fetch_decode_fifo c) /\ fifo_sound (co_decode_rename_fifo c).

(** The other parts of the cycle leave the two queues alone. *)
Ltac keeps_front E := repeat (let x := fresh in apply bind_Some in E as (x & _ & E); repeat destruct x as [x ?]); by simplify_eq.

Lemma core_clint_pre_front c c' : core_clint_pre c = Some c' -> front c' = front c.
Proof. unfold core_clint_pre. intros E. keeps_front E. Qed.

Lemma core_commit_front c cfp c' : core_commit c = Some (cfp, c') -> front c' = front c.
Proof. unfold core_commit. intros E. keeps_front E. Qed.

Lemma core_wb_front cfp c wfs c' : core_wb cfp c = Some (wfs, c') -> front c' = front c.
Proof. unfold core_wb. intros E. keeps_front E. Qed.

Lemma core_execute_front junk cfp c efs c' : core_execute junk cfp c = Some (efs, c') -> front c' = front c.
Proof. unfold core_execute. intros E. keeps_front E. Qed.

Lemma core_issue_front efs wfs cfp c stall c' : core_issue efs wfs cfp c = Some (stall, c') -> front c' = front c.
Proof. unfold core_issue. intros E. keeps_front E. Qed.

Lemma core_readreg_front stall efs wfs cfp c c' : core_readreg stall efs wfs cfp c = Some c' -> front c' = front c.
Proof. unfold core_readreg. intros E. keeps_front E. Qed.

Lemma core_interrupt_front c c' : core_interrupt c = Some c' -> front c' = front c.
Proof. unfold core_interrupt. intros E. keeps_front E. Qed.

Lemma core_sync_front cfp c c' : core_sync cfp c = Some c' -> front c' = front c.
Proof. unfold core_sync. intros E. keeps_front E. Qed.

Lemma core_count_front ras_full c c' : core_count ras_full c = Some c' -> front c' = front c.
Proof. unfold core_count. intros E. keeps_front E. Qed.

Lemma core_rename_front mem mem_ids stall cfp c idle c' :
  core_rename mem mem_ids stall cfp c = Some (idle, c') -> fifo_live (co_decode_rename_fifo c) ->
  co_fetch_decode_fifo c' = co_fetch_decode_fifo c /\ fifo_live (co_decode_rename_fifo c').
Proof.
  unfold core_rename. intros E L. apply bind_Some in E as ([i w] & Ew & E). apply rename_run_live in Ew; [|exact L].
  revert Ew E. generalize (rename_view c). intros _ Ew E. apply (inj Some), (f_equal snd) in E. cbn [snd] in E. subst c'. split; [reflexivity|exact Ew].
Qed.

Lemma core_decode_front cfp c idle c' :
  core_decode cfp c = Some (idle, c') -> fifo_live (co_fetch_decode_fifo c) -> fifo_live (co_decode_rename_fifo c) ->
  fifo_live (co_fetch_decode_fifo c') /\ fifo_sound (co_decode_rename_fifo c').
Proof.
  unfold core_decode. intros E L1 L2. apply bind_Some in E as ([i w] & Ew & E). apply decode_run_live in Ew; [|exact L1|exact L2].
  apply (inj Some), (f_equal snd) in E. cbn [snd] in E. subst c'. exact Ew.
Qed.

Lemma core_fetch_front mem di ri cfp c c' :
  core_fetch mem di ri cfp c = Some c' -> fifo_live (co_fetch_decode_fifo c) ->
  fifo_sound (co_fetch_decode_fifo c') /\ co_decode_rename_fifo c' = co_decode_rename_fifo c.
Proof.
  unfold core_fetch. intros E L. apply bind_Some in E as (w & Ew & E). apply fetch_run_sound in Ew; [|exact L].
  apply (inj Some) in E. subst c'. split; [exact Ew|reflexivity].
Qed.

Lemma core_stages_front mem mem_ids junk cfp c c' :
  fifo_live (co_fetch_decode_fifo c) -> fifo_live (co_decode_rename_fifo c) -> core_stages mem mem_ids junk cfp c = Some c' -> front_sound c'.
Proof.
  intros L1 L2 E. unfold core_stages in E. apply bind_Some in E as ([wfs c1] & H1%core_wb_front & E).
  apply bind_Some in E as ([efs c2] & H2%core_execute_front & E). apply bind_Some in E as ([stall c3] & H3%core_issue_front & E).
  apply bind_Some in E as (c4 & H4%core_readreg_front & E). rewrite H3, H2, H1 in H4. unfold front in H4. injection H4 as F1 F2.
  rewrite <- F1 in L1. rewrite <- F2 in L2. clear H1 H2 H3 F1 F2.
  apply bind_Some in E as ([ri c5] & [E5 L5]%core_rename_front & E); [|done]. rewrite <- E5 in L1.
  apply bind_Some in E as ([di c6] & [L6 S6]%core_decode_front & E); [|done..]. apply core_fetch_front in E as [S7 E7]; [|done].
  split; [done|by rewrite E7].
Qed.

Lemma core_cycle_front mem mem_ids junk ras_full c c' :
  front_sound c -> core_cycle mem mem_ids junk ras_full c = Some c' -> front_sound c'.
Proof.
  intros [S1 S2] E. unfold core_cycle in E. apply bind_Some in E as (c1 & H1%core_clint_pre_front & E).
  apply bind_Some in E as ([cfp c2] & H2%core_commit_front & E). apply bind_Some in E as (c3 & E3 & E).
  apply bind_Some in E as (c4 & H4%core_interrupt_front & E). apply bind_Some in E as (c5 & H5%core_sync_front & H6%core_count_front).
  assert (front c' = front c3) as F by (rewrite H6, H5; exact H4). rewrite H1 in H2. unfold front in H2, F. injection H2 as F1 F2. injection F as G1 G2.
  unfold front_sound. rewrite G1, G2. apply (core_stages_front _ _ _ _ _ _) in E3; [exact E3|rewrite F1|rewrite F2].
  - exact (fifo_reset_pop_status_live _ S1).
  - exact (fifo_reset_pop_status_live _ S2).
Qed.

Lemma core_reset_front c c' : front_sound c -> core_reset c = Some c' -> front_sound c'.
Proof.
  intros [S1 S2] E. unfold core_reset in E. apply bind_Some in E as ([r f] & _ & E). apply bind_Some in E as (o & _ & E). injection E as <-.
  split; by apply fifo_flush_sound.
Qed.

Lemma core_run_front mem mem_ids junk ras_full n c c' : front_sound c -> core_run mem mem_ids junk ras_full n c = Some c' -> front_sound c'.
Proof.
  revert c. induction n as [|n IH]; intros c H E; cbn [core_run] in E; [by injection E as <-|].
  apply bind_Some in E as (c1 & E1 & E). apply (IH c1); [|done]. by apply core_cycle_front in E1.
Qed.

(** The packets of a cycle exist when the cycle does. *)
Lemma core_cycle_feedback mem mem_ids junk ras_full c c' :
  core_cycle mem mem_ids junk ras_full c = Some c' -> exists fp, core_feedback junk c = Some fp.
Proof.
  unfold core_cycle, core_feedback. intros E. apply bind_Some in E as (c1 & -> & E). apply bind_Some in E as ([cfp c2] & E2 & E).
  apply bind_Some in E as (c3 & E3 & _). unfold core_stages in E3. apply bind_Some in E3 as ([wfs c4] & E4 & E).
  apply bind_Some in E as ([efs c5] & E5 & E). apply bind_Some in E as ([stall c6] & E6 & _).
  mstep. rewrite E2. mstep. rewrite E4. mstep. rewrite E5. mstep. rewrite E6. mstep. by eexists.
Qed.

(** * The walks over the queues *)

Lemma fifo_get_json_refines {T} (item : T -> json) (f : fifo T) q : fifo_refines f q -> fifo_get_json item f = Some (jarr (item <$> q_items q)).
Proof. intros (b & st & R). unfold fifo_get_json. by rewrite (repr_dump R). Qed.

Lemma fifo_get_json_ok {T} (item : T -> json) (f : fifo T) : fifo_ok f -> fifo_get_json item f = Some (jarr (item <$> fifo_items f)).
Proof. intros (l & b & st & W). rewrite (window_items _ _ _ _ W). apply (fifo_get_json_refines item f (window_queue f l)). by exists b, st. Qed.

Lemma rob_json_loop_window (f : fifo rob_item_t) l b st fuel i :
  window f l b st -> (i < length l)%nat -> (length l - i <= fuel)%nat ->
  rob_json_loop fuel f (slot f b i) (slot_stage f b i st) = Some (rob_entry_json <$> drop i (fifo_entries f)).
Proof.
  intros W. destruct (window_facts W) as (Hcap & Hsize & Hb & Hl & _ & _ & Hw & Hws & _).
  revert i. induction fuel as [|fuel IH]; intros i Hi Hf; [lia|]. cbn [rob_json_loop].
  rewrite (window_get W) by done. destruct (lookup_lt_is_Some_2 l i Hi) as [x Hx]. rewrite Hx. mstep. cbv zeta.
  destruct (adv_step (length (buffer f)) b i st) as [Hp Ht]; [lia..|]. fold (slot f b i) (slot f b (S i)) in Hp. fold (slot f b i) (slot_stage f b i st) (slot_stage f b (S i) st) in Ht.
  rewrite <- Hsize in Hp, Ht.
  assert ((if size f <=? u32 (slot f b i + 1) then (0, negb (slot_stage f b i st)) else (u32 (slot f b i + 1), slot_stage f b i st)) =
          (slot f b (S i), slot_stage f b (S i) st)) as -> by (rewrite <- Hp, <- Ht; by destruct (size f <=? u32 (slot f b i + 1))).
  assert (drop i (fifo_entries f) = (slot f b i, x) :: drop (S i) (fifo_entries f)) as Hd.
  { apply drop_S. by rewrite (window_entries_lookup _ _ _ _ _ W), Hx. }
  rewrite Hd, Hw, Hws. unfold slot, slot_stage. rewrite adv_same by lia. fold (slot f b i) (slot f b (S i)) (slot_stage f b (S i) st).
  case_bool_decide as E.
  - rewrite (drop_ge _ (S i)); [done|]. rewrite (window_entries _ _ _ _ W), length_imap. lia.
  - rewrite IH by lia. done.
Qed.

Lemma rob_get_json_ok r : rob_ok r -> rob_get_json r = Some (jarr (rob_entry_json <$> rob_entries r)).
Proof.
  intros (l & b & st & W). unfold rob_get_json, rob_entries. rewrite (window_empty W). case_bool_decide as E.
  - by rewrite (window_entries _ _ _ _ W), E.
  - destruct (window_facts W) as (Hcap & Hsize & _ & Hl & -> & -> & _). assert (0 < length l)%nat by (destruct l; [done|cbn; lia]).
    rewrite (rob_json_loop_window _ l) by (done || lia). done.
Qed.

Lemma mapM_all {A B} (f : A -> option B) (g : A -> B) l : Forall (fun x => f x = Some (g x)) l -> mapM f l = Some (g <$> l).
Proof. induction 1 as [|x l E _ IH]; [done|]. change (mapM f (x :: l)) with (y ← f x; k ← mapM f l; Some (y :: k)). by rewrite E, IH. Qed.

Lemma units_json_all {A} (item : A -> option json) (g : A -> json) p :
  (forall u, Forall (fun x => item x = Some (g x)) (unit_sel p u)) ->
  exists j, units_json item p = Some j /\ forall u, json_get (op_unit_name u) j = Some (jarr (g <$> unit_sel p u)).
Proof.
  intros H. unfold units_json. rewrite (mapM_all item g (pu_alu p) (H unit_alu)), (mapM_all item g (pu_bru p) (H unit_bru)),
    (mapM_all item g (pu_csr p) (H unit_csr)), (mapM_all item g (pu_div p) (H unit_div)), (mapM_all item g (pu_lsu p) (H unit_lsu)),
    (mapM_all item g (pu_mul p) (H unit_mul)). eexists. split; [reflexivity|]. by intros [].
Qed.

(** * What the status tells *)

Lemma exception_name_inj e1 e2 : exception_name e1 = exception_name e2 -> e1 = e2.
Proof. by destruct e1, e2. Qed.

Lemma rob_entry_json_inj e1 e2 : rob_entry_json e1 = rob_entry_json e2 -> e1 = e2.
Proof.
  destruct e1 as [id1 []], e2 as [id2 []]. intros E. unfold rob_entry_json, rob_item_json in E. cbn in E.
  injection E. intros. repeat match goal with H : exception_name _ = exception_name _ |- _ => apply exception_name_inj in H end. by subst.
Qed.

(** The status [j] of [c]; [fd] and [dr] are the instructions on their way to decode
    and to rename. *)
Record shows (c : core) (fd : list fetch_decode_pack_t) (dr : list decode_rename_pack_t) (j : json) : Prop := {
  shows_fetch : (json_get "fetch" j ≫= json_get "pc") = Some (jnum (co_pc c));
  shows_fetch_decode : json_get "fetch_decode" j = Some (jarr (fetch_decode_json <$> fd));
  shows_decode_rename : json_get "decode_rename" j = Some (jarr (decode_rename_json <$> dr));
  shows_rename : json_get "rename_readreg" j = Some (jarr (rename_readreg_json <$> port_get (co_rename_readreg_port c)));
  shows_readreg : json_get "readreg_issue" j = Some (jarr (readreg_issue_json <$> port_get (co_readreg_issue_port c)));
  shows_issue : json_get "issue" j = Some (jarr (issue_queue_item_json <$> fifo_items (iq_fifo (is_issue_q (co_issue c)))));
  shows_units : forall u, (json_get "issue_execute" j ≫= json_get (op_unit_name u)) =
    Some (jarr ((fun f => jarr (issue_execute_json <$> fifo_items f)) <$> unit_sel (is_unit_fifo (co_issue c)) u));
  shows_wb : forall u, (json_get "execute_wb" j ≫= json_get (op_unit_name u)) =
    Some (jarr ((fun p => execute_wb_json (port_get p)) <$> unit_sel (co_wb_port c) u));
  shows_commit : json_get "wb_commit" j = Some (jarr (wb_commit_json <$> port_get (co_wb_commit_port c)));
  shows_rob : json_get "rob" j = Some (jarr (rob_entry_json <$> rob_entries (cm_rob (co_commit c))));
  shows_rob_only : forall es, json_get "rob" j = Some (jarr (rob_entry_json <$> es)) -> es = rob_entries (cm_rob (co_commit c))
}.

Lemma pipeline_json_shows fp c fd dr :
  core_shape c -> rob_ok (cm_rob (co_commit c)) -> fifo_refines (co_fetch_decode_fifo c) fd -> fifo_refines (co_decode_rename_fifo c) dr ->
  exists j, pipeline_json fp c = Some j /\ shows c (q_items fd) (q_items dr) j.
Proof.
  intros [[_ Hu _] _ _ _ Hq] Hr Hf Hd. unfold pipeline_json, issue_get_json.
  rewrite (fifo_get_json_refines _ _ fd Hf), (fifo_get_json_refines _ _ dr Hd), (fifo_get_json_ok _ _ Hq), (rob_get_json_ok _ Hr).
  destruct (units_json_all (fifo_get_json issue_execute_json) (fun f => jarr (issue_execute_json <$> fifo_items f)) (is_unit_fifo (co_issue c)))
    as (tie & -> & Htie).
  { intros u. apply list.Forall_forall. intros f [k Hk]%list_elem_of_lookup. apply fifo_get_json_ok, (Hu u k f Hk). }
  destruct (units_json_all (fun p => Some (port_get_json execute_wb_json p)) (fun p => execute_wb_json (port_get p)) (co_wb_port c)) as (tew & -> & Htew).
  { intros u. by apply list.Forall_forall. }
  mstep. eexists. split; [reflexivity|]. split; try reflexivity; try assumption.
  intros es [= E]. apply (list_fmap_eq_inj rob_entry_json rob_entry_json_inj) in E. done.
Qed.

Lemma core_static_front b csr : front_sound (core_static b csr).
Proof.
  assert (forall T (x : T) n, 0 < n < 2 ^ 31 -> fifo_sound (fifo_set_pop_status_save (empty_fifo x n) true)) as H.
  { intros T x n Hn. assert (fifo_refines (empty_fifo x n) (mk_queue (length (repeat x (Z.to_nat n))) [] [] false false)) as R.
    { unfold empty_fifo. replace n with (Z.of_nat (length (repeat x (Z.to_nat n)))) at 2 by (rewrite repeat_length; lia).
      apply fifo_new_refines. rewrite repeat_length. lia. }
    destruct (fifo_step_refines _ _ (OpSetPopStatusSave true) _ _ R eq_refl) as (f' & E & R'). injection E as <-. by eexists. }
  split; by apply H.
Qed.
