(* ===== verification/SelfTest.v ===== *)
(** The tests under [test/], which the simulator runs before anything else: each is
    the sequence of its calls and assertions, and [None] is a failed assertion.
    That they pass on the definitions is a check of these against the program. *)

From Stdlib Require Import ZArith Lia.
From stdpp Require Import base numbers list option tactics.
From S2P Require Import Prelude Common Bitmap Fifo FifoIds Ras IssueQueue CheckpointBuffer Rat Regfile Execute.

Local Open Scope Z_scope.

(** [assert(q.push(x))], [assert(!q.push(x))] *)
Definition pushes {Q} (push : Q -> Z -> option (bool * Q)) (accepted : bool) (q : Q) (x : Z) : option Q :=
  '(ret, q) ← push q x; _ ← assert (eqb ret accepted); Some q.

Fixpoint pushes_all {Q} (push : Q -> Z -> option (bool * Q)) (q : Q) (xs : list Z) : option Q :=
  match xs with
  | [] => Some q
  | x :: xs => q ← pushes push true q x; pushes_all push q xs
  end.

(** [assert(q.pop(&x)); assert(x == v)], and [assert(!q.pop(&x))] for [None] *)
Definition pops {Q} (pop : Q -> option (option Z * Q)) (q : Q) (v : option Z) : option Q :=
  '(x, q) ← pop q; _ ← assert (bool_decide (x = v)); Some q.

Fixpoint pops_all {Q} (pop : Q -> option (option Z * Q)) (q : Q) (vs : list Z) : option Q :=
  match vs with
  | [] => Some q
  | v :: vs => q ← pops pop q (Some v); pops_all pop q vs
  end.

(** [test/fifo.cpp] *)
Definition fifo_test (mem : list Z * Z * bool) : option unit :=
  let q := fifo_new mem 5 in
  _ ← assert (fifo_is_empty q);
  q ← pushes fifo_push true q 1;
  _ ← assert (negb (fifo_is_empty q));
  q ← pushes_all fifo_push q [2; 3; 4];
  _ ← assert (negb (fifo_is_full q));
  q ← pushes fifo_push true q 5;
  _ ← assert (fifo_is_full q);
  q ← pushes fifo_push false q 6;
  q ← pops_all fifo_pop q [1; 2; 3; 4];
  _ ← assert (negb (fifo_is_empty q));
  q ← pops fifo_pop q (Some 5);
  _ ← assert (fifo_is_empty q);
  _ ← pops fifo_pop q None;
  Some tt.

(** [test/stack.cpp] *)
Definition stack_test (mem : list Z) : option unit :=
  let s := stack_new mem 5 in
  _ ← assert (stack_is_empty s);
  _ ← assert (negb (stack_is_full s));
  s ← pops stack_pop s None;
  s ← pushes_all stack_push s [1; 2; 3; 4];
  _ ← assert (negb (stack_is_full s));
  s ← pushes stack_push true s 5;
  _ ← assert (stack_is_full s);
  s ← pushes stack_push false s 6;
  _ ← assert (stack_is_full s);
  s ← pops_all stack_pop s [5; 4; 3; 2; 1];
  s ← pops stack_pop s None;
  _ ← assert (stack_is_empty s);
  _ ← assert (negb (stack_is_full s));
  Some tt.

(** [test/port.cpp] *)
Definition port_test : option unit :=
  let p := port_new 0 in
  _ ← assert (port_get p =? 0);
  assert (port_get (port_set p 1) =? 1).

(** Loops of the tests. *)
Fixpoint for_each {S} (l : list Z) (body : Z -> S -> option S) (s : S) : option S :=
  match l with
  | [] => Some s
  | i :: l => s ← body i s; for_each l body s
  end.

Definition check_each (l : list Z) (body : Z -> option bool) : option unit :=
  for_each l (fun i _ => b ← body i; assert b) tt.

Definition range (a b : Z) : list Z := (fun i => a + i) <$> upto (b - a).

(** [test/rat.cpp] *)
Definition set_map_each (r : rat) : option rat :=
  for_each (range 1 32) (fun i r => '(_, r) ← rat_set_map r i i; Some r) r.

Definition maps_to (r : rat) (a phy : Z) : option unit :=
  p ← rat_get_phy_id r a; assert (bool_decide (p = Some phy)).

Definition free_count (r : rat) (n count : Z) : option unit :=
  l ← rat_get_free_phy_id r n; assert (Z.of_nat (length l) =? count).

(** The first part leaves a table in which the registers 0 and 32 to 511 are free;
    asked for any number of them, it gives that many. *)
Definition rat_test_setup (mem_table mem_valid mem_visible mem_commit : list Z) : option rat :=
  r ← set_map_each (rat_init_start (rat_new mem_table mem_valid mem_visible mem_commit 512 32));
  let r := rat_init_finish r in
  _ ← for_each (range 1 32) (fun i _ => maps_to r i i) tt;
  Some r.

Definition rat_test_free (r : rat) : option unit := for_each (range 1 (512 - 31 + 1)) (fun i _ => free_count r i i) tt.

Definition rat_test_rest (r : rat) : option unit :=
  free_phy ← rat_get_free_phy_id r (512 - 31);
  _ ← assert (bool_decide (free_phy !! 0%nat = Some 0));
  _ ← check_each (range 32 512) (fun i => x ← arr_get free_phy (i - 31); Some (x =? i));
  '(_, r) ← rat_set_map r 1 0;
  _ ← free_count r 512 (512 - 32);
  _ ← maps_to r 1 0;
  r ← rat_release_map r 1;
  _ ← free_count r 512 (512 - 31);
  _ ← maps_to r 1 0;
  r ← rat_set_map_sync r 1 1;
  _ ← free_count r 512 (512 - 31);
  _ ← maps_to r 1 0;
  r ← rat_sync r;
  _ ← free_count r 512 (512 - 32);
  _ ← maps_to r 1 1;
  let r := rat_release_map_sync r 0 in
  _ ← free_count r 512 (512 - 32);
  _ ← maps_to r 1 1;
  r ← rat_sync r;
  _ ← free_count r 512 (512 - 31);
  maps_to r 1 1.

Definition rat_test (mem_table mem_valid mem_visible mem_commit : list Z) : option unit :=
  r ← rat_test_setup mem_table mem_valid mem_visible mem_commit;
  _ ← rat_test_free r;
  rat_test_rest r.

(** [test/regfile.cpp] *)
Definition regfile_test : option unit :=
  let reads f v := check_each (upto 32) (fun i => x ← regfile_read f i; Some (x =? v i)) in
  let f := regfile_new 0 32 in
  _ ← reads f (fun _ => 0);
  f ← for_each (upto 32) (fun i f => regfile_write f i i true) f;
  _ ← reads f (fun i => i);
  f ← for_each (upto 32) (fun i f => Some (regfile_write_sync f i (i + 1) true)) f;
  _ ← reads f (fun i => i);
  f ← regfile_sync f;
  reads f (fun i => i + 1).

(** [test/issue_queue.cpp] *)
Definition iq_push (q : issue_queue Z) (x : Z) : option (bool * issue_queue Z) :=
  '(ret, f) ← fifo_push (iq_fifo q) x; Some (ret, q <| iq_fifo := f |>).

Definition iq_pop (q : issue_queue Z) : option (option Z * issue_queue Z) :=
  '(x, f) ← fifo_pop (iq_fifo q); Some (x, q <| iq_fifo := f |>).

Definition iq_front_is (q : issue_queue Z) (v : Z) : option unit :=
  '(x, ret) ← iq_get_front q; assert (ret && (x =? v)).

Definition issue_queue_test (mem : list Z * Z * bool) : option unit :=
  let q := issue_queue_new mem 5 in
  _ ← assert (fifo_is_empty (iq_fifo q));
  q ← pushes iq_push true q 1;
  _ ← assert (negb (fifo_is_empty (iq_fifo q)));
  q ← pushes_all iq_push q [2; 3; 4];
  _ ← assert (negb (fifo_is_full (iq_fifo q)));
  q ← pushes iq_push true q 5;
  _ ← assert (fifo_is_full (iq_fifo q));
  q ← pushes iq_push false q 6;
  q ← pops_all iq_pop q [1; 2; 3; 4];
  _ ← assert (negb (fifo_is_empty (iq_fifo q)));
  q ← pops iq_pop q (Some 5);
  _ ← assert (fifo_is_empty (iq_fifo q));
  '(_, ret) ← iq_get_front q;
  _ ← assert (negb ret);
  _ ← assert (bool_decide (iq_get_front_id q = None));
  q ← pushes iq_push true q 3;
  _ ← iq_front_is q 3;
  y1 ← iq_get_front_id q;
  q ← pushes iq_push true q 4;
  '(y1, ret) ← iq_get_next_id q y1;
  _ ← assert ret;
  y2 ← iq_get_tail_id q;
  _ ← assert (y1 =? y2);
  let q := iq_set_item_sync q y2 1 in
  x ← iq_get_item q y2;
  _ ← assert (x =? 4);
  q ← iq_sync q;
  x ← iq_get_item q y2;
  _ ← assert (x =? 1);
  let q := iq_pop_sync q in
  _ ← iq_front_is q 3;
  _ ← assert (iq_get_size q =? 2);
  q ← iq_sync q;
  _ ← iq_front_is q 1;
  assert (iq_get_size q =? 1).

(** [test/test.cpp]; the test of the memory is a comment. *)
Definition self_test (mem : list Z * Z * bool) (rat_mem : list Z * list Z * list Z * list Z) : option unit :=
  let '(table, valid, visible, commit) := rat_mem in
  _ ← fifo_test mem;
  _ ← stack_test mem.1.1;
  _ ← port_test;
  _ ← rat_test table valid visible commit;
  _ ← regfile_test;
  issue_queue_test mem.

Definition rat_mem_zero : list Z * list Z * list Z * list Z := (repeat 0 512, repeat 0 8, repeat 0 8, repeat 0 8).

Lemma for_each_same {S} l (body : Z -> S -> option S) s : (forall i, i ∈ l -> body i s = Some s) -> for_each l body s = Some s.
Proof.
  induction l as [|i l IH]; intros H; cbn [for_each]; [done|]. rewrite H by left. mstep. apply IH. intros j Hj. apply H. by right.
Qed.

(** A search that asks for fewer registers stops earlier. *)
Lemma free_phy_id_loop_take r num ids n ret l :
  free_phy_id_loop r num ids ret = Some l -> Z.of_nat (length ret) < n -> n <= Z.of_nat (length l) -> Z.of_nat (length l) <= num ->
  free_phy_id_loop r n ids ret = Some (take (Z.to_nat n) l).
Proof.
  revert ret. induction ids as [|i ids IH]; intros ret E H1 H2 H3; cbn [free_phy_id_loop] in *.
  { injection E as <-. lia. }
  apply bind_Some in E as (v & Ev & E). rewrite Ev. mstep. destruct v; cbn [negb] in *; [by apply IH|]. cbv zeta in *.
  rewrite length_app in *. cbn [length] in *. destruct (Z.leb_spec num (Z.of_nat (length ret + 1))).
  - injection E as <-. rewrite length_app in H2, H3. cbn [length] in *. destruct (Z.leb_spec n (Z.of_nat (length ret + 1))); [|lia].
    f_equal. symmetry. apply firstn_all2. rewrite length_app. cbn [length]. lia.
  - destruct (Z.leb_spec n (Z.of_nat (length ret + 1))) as [Hle|Hgt].
    + f_equal. assert (exists z, l = (ret ++ [i]) ++ z) as [z ->].
      { clear -E. revert E. generalize (ret ++ [i]) as ret'. induction ids as [|j ids IH]; intros ret' E; cbn [free_phy_id_loop] in E.
        - injection E as <-. exists []. by rewrite app_nil_r.
        - apply bind_Some in E as (v & _ & E). destruct v; cbn [negb] in E; [by apply IH|]. cbv zeta in E. destruct (_ <=? _).
          + injection E as <-. by exists [j].
          + apply IH in E as [z ->]. exists (j :: z). by rewrite <- app_assoc. }
      rewrite take_app_length'; [done|]. rewrite length_app. cbn [length]. lia.
    + apply IH; [done|rewrite length_app; cbn [length]; lia|done|done].
Qed.

Lemma rat_test_free_passes r l : rat_get_free_phy_id r (512 - 31) = Some l -> Z.of_nat (length l) = 512 - 31 -> rat_test_free r = Some tt.
Proof.
  intros E Hl. apply for_each_same. intros i Hi. unfold range in Hi. apply list_elem_of_fmap in Hi as (j & -> & Hj). apply elem_of_upto in Hj.
  unfold free_count, rat_get_free_phy_id. rewrite (free_phy_id_loop_take r _ _ (1 + j) _ l E) by (cbn [length]; lia). mstep.
  rewrite length_take, Z2Nat.inj_add by lia. destruct (Z.eqb_spec (Z.of_nat (Nat.min (Z.to_nat 1 + Z.to_nat j) (length l))) (1 + j)); [done|lia].
Qed.

Lemma rat_test_split (o : option rat) (rest : rat -> option unit) :
  (r ← o; l ← rat_get_free_phy_id r (512 - 31); u ← rest r; Some (Z.of_nat (length l), u)) = Some (512 - 31, tt) ->
  (r ← o; _ ← rat_test_free r; rest r) = Some tt.
Proof.
  intros H. apply bind_Some in H as (r & -> & H). apply bind_Some in H as (l & E & H). apply bind_Some in H as ([] & Hr & H).
  injection H as H. cbn [mbind option_bind]. by rewrite (rat_test_free_passes r l E).
Qed.

Lemma rat_test_run :
  (r ← rat_test_setup (repeat 0 512) (repeat 0 8) (repeat 0 8) (repeat 0 8); l ← rat_get_free_phy_id r (512 - 31); u ← rat_test_rest r;
   Some (Z.of_nat (length l), u)) = Some (512 - 31, tt).
Proof. vm_compute. reflexivity. Qed.

Lemma rat_test_passes : rat_test (repeat 0 512) (repeat 0 8) (repeat 0 8) (repeat 0 8) = Some tt.
Proof. exact (rat_test_split _ _ rat_test_run). Qed.

Lemma regfile_test_passes : regfile_test = Some tt.
Proof. vm_compute. reflexivity. Qed.

Lemma fifo_test_passes a b c d e p s : fifo_test ([a; b; c; d; e], p, s) = Some tt.
Proof. vm_compute. reflexivity. Qed.

Lemma stack_test_passes a b c d e : stack_test [a; b; c; d; e] = Some tt.
Proof. vm_compute. reflexivity. Qed.

Lemma issue_queue_test_passes a b c d e p s : issue_queue_test ([a; b; c; d; e], p, s) = Some tt.
Proof. vm_compute. reflexivity. Qed.

Lemma port_test_passes : port_test = Some tt.
Proof. vm_compute. reflexivity. Qed.

Lemma passes_then (o k : option unit) : o = Some tt -> k = Some tt -> (_ ← o; k) = Some tt.
Proof. by intros -> ->. Qed.

(** The self-test passes, whatever the memory of the queues held. *)
Theorem self_test_passes a b c d e p s : self_test ([a; b; c; d; e], p, s) rat_mem_zero = Some tt.
Proof.
  exact (passes_then _ _ (fifo_test_passes a b c d e p s) (passes_then _ _ (stack_test_passes a b c d e) (passes_then _ _ port_test_passes
    (passes_then _ _ rat_test_passes (passes_then _ _ regfile_test_passes (issue_queue_test_passes a b c d e p s)))))).
Qed.
