(* ===== verification/Trace.v ===== *)
(** [tools/trace/trace.h] and [trace.cpp]: the database a component writes its
    signals to, one row of bytes per cycle, behind a header that says where in
    the row each signal is. *)

From Stdlib Require Import ZArith Lia Ascii String.
From stdpp Require Import base numbers list option tactics strings gmap.
From S2P Require Import Prelude.

Local Open Scope Z_scope.

(** * Bytes *)

(** A number in memory, lowest byte first, and what it reads as. *)
Fixpoint le_bytes (k : nat) (n : Z) : list Z :=
  match k with
  | O => []
  | S k => n mod 256 :: le_bytes k (n / 256)
  end.

Fixpoint le_value (l : list Z) : Z :=
  match l with
  | [] => 0
  | b :: l => b + 256 * le_value l
  end.

(** The characters of a string. *)
Definition str_bytes (s : string) : list Z := (fun c => Z.of_N (N_of_ascii c)) <$> list_ascii_of_string s.

(** A character array as a C string: up to the first zero. *)
Fixpoint c_string (l : list Z) : string :=
  match l with
  | [] => EmptyString
  | b :: l => if b =? 0 then EmptyString else String (ascii_of_N (Z.to_N b)) (c_string l)
  end.

(** [memcpy] to a place in a buffer; no result outside of it. *)
Definition mem_write (buf : list Z) (pos : Z) (data : list Z) : option (list Z) :=
  _ ← assert ((0 <=? pos) && (pos + Z.of_nat (length data) <=? Z.of_nat (length buf)));
  Some (take (Z.to_nat pos) buf ++ data ++ drop (Z.to_nat pos + length data) buf).

(** [n] bytes from a place in a buffer. *)
Definition mem_read (buf : list Z) (pos n : Z) : option (list Z) :=
  _ ← assert ((0 <=? pos) && (pos + n <=? Z.of_nat (length buf)));
  Some (take (Z.to_nat n) (drop (Z.to_nat pos) buf)).

(** The variables of the program, as the bytes at their addresses. *)
Definition load (mem : Z -> Z) (p n : Z) : list Z := (fun i => mem (p + i)) <$> upto n.

(** * The output file *)

Record ofstream := mk_ofstream { fs_is_open : bool; fs_data : list Z; fs_pos : Z }.

#[export] Instance ofstream_eta : Eta ofstream := fun f => mk_ofstream (fs_is_open f) (fs_data f) (fs_pos f).

(** [open] truncates; [ok]: whether the system opens the file. *)
Definition fs_open (ok : bool) (f : ofstream) : ofstream := if ok then mk_ofstream true [] 0 else f <| fs_is_open := false |>.

Definition fs_close (f : ofstream) : ofstream := f <| fs_is_open := false |>.

(** [write] at the position, filling a gap with zeros; a closed file stays as it
    is. *)
Definition fs_write (f : ofstream) (data : list Z) : ofstream :=
  if fs_is_open f then
    let p := Z.to_nat (fs_pos f) in
    mk_ofstream true (resize p 0 (fs_data f) ++ data ++ drop (p + length data) (fs_data f)) (fs_pos f + Z.of_nat (length data))
  else f.

Definition fs_seekp (f : ofstream) (pos : Z) : ofstream := if fs_is_open f then f <| fs_pos := pos |> else f.

(** * The structures of the file *)

Definition FIELDNAME_LENGTH : Z := 255.
Definition FEATURE_STRING : string := "TRACEDB".

Record fieldinfo_t := mk_fieldinfo {
  tf_name : list Z;
  tf_offset : Z;
  tf_size : Z;
  tf_element_bitsize : Z;
  tf_element_size : Z;
  tf_element_num : Z
}.

#[export] Instance fieldinfo_eta : Eta fieldinfo_t := fun t =>
  mk_fieldinfo (tf_name t) (tf_offset t) (tf_size t) (tf_element_bitsize t) (tf_element_size t) (tf_element_num t).

Record headerinfo_t := mk_headerinfo {
  th_featurestr : list Z;
  th_fieldinfo_num : Z;
  th_input_fieldinfo_num : Z;
  th_output_fieldinfo_num : Z;
  th_status_fieldinfo_num : Z;
  th_data_offset : Z;
  th_row_size : Z
}.

#[export] Instance headerinfo_eta : Eta headerinfo_t := fun t =>
  mk_headerinfo (th_featurestr t) (th_fieldinfo_num t) (th_input_fieldinfo_num t) (th_output_fieldinfo_num t)
    (th_status_fieldinfo_num t) (th_data_offset t) (th_row_size t).

(** With [#pragma pack(1)]. *)
Definition sizeof_fieldinfo : Z := FIELDNAME_LENGTH + 1 + 5 * 4.
Definition sizeof_headerinfo : Z := 8 + 6 * 4.

(** The structures as bytes, as [db.write] takes them. *)
Definition fieldinfo_bytes (t : fieldinfo_t) : list Z :=
  tf_name t ++ le_bytes 4 (tf_offset t) ++ le_bytes 4 (tf_size t) ++ le_bytes 4 (tf_element_bitsize t) ++
  le_bytes 4 (tf_element_size t) ++ le_bytes 4 (tf_element_num t).

Definition headerinfo_bytes (t : headerinfo_t) : list Z :=
  th_featurestr t ++ le_bytes 4 (th_fieldinfo_num t) ++ le_bytes 4 (th_input_fieldinfo_num t) ++
  le_bytes 4 (th_output_fieldinfo_num t) ++ le_bytes 4 (th_status_fieldinfo_num t) ++
  le_bytes 4 (th_data_offset t) ++ le_bytes 4 (th_row_size t).

(** A character array set to zero, with a string copied into it. *)
Definition char_array (n : Z) (s : string) : list Z := resize (Z.to_nat n) 0 (str_bytes s).

Definition headerinfo_zero : headerinfo_t := mk_headerinfo (repeat 0 8) 0 0 0 0 0 0.

(** * The database *)

Inductive domain_t := dom_input | dom_output | dom_status.

#[export] Instance domain_eq_dec : EqDecision domain_t.
Proof. solve_decision. Defined.

(** The three members a domain has: a bound signal has the address of its
    variable, the others [NULL]. *)
Record signals := mk_signals {
  bind_list : gmap string (option Z);
  fieldinfo_list : list fieldinfo_t;
  fieldid_map : gmap string Z
}.

#[export] Instance signals_eta : Eta signals := fun s => mk_signals (bind_list s) (fieldinfo_list s) (fieldid_map s).

Definition no_signals : signals := mk_signals ∅ [] ∅.

Record trace_database := mk_trace_database {
  td_db : ofstream;
  td_is_enabled : bool;
  td_is_tracing : bool;
  td_is_open : bool;
  td_metainfo_ok : bool;
  td_input : signals;
  td_output : signals;
  td_status : signals;
  td_hinfo : headerinfo_t;
  td_row_buffer : option (list Z)
}.

#[export] Instance trace_database_eta : Eta trace_database := fun t =>
  mk_trace_database (td_db t) (td_is_enabled t) (td_is_tracing t) (td_is_open t) (td_metainfo_ok t) (td_input t) (td_output t)
    (td_status t) (td_hinfo t) (td_row_buffer t).

Definition trace_new (enable : bool) : trace_database :=
  mk_trace_database (mk_ofstream false [] 0) enable false false false no_signals no_signals no_signals headerinfo_zero None.

Definition get_signals (t : trace_database) (domain : domain_t) : signals :=
  match domain with dom_input => td_input t | dom_output => td_output t | dom_status => td_status t end.

Definition set_signals (domain : domain_t) (s : signals) (t : trace_database) : trace_database :=
  match domain with
  | dom_input => t <| td_input := s |>
  | dom_output => t <| td_output := s |>
  | dom_status => t <| td_status := s |>
  end.

Definition forget_signals (t : trace_database) : trace_database :=
  t <| td_input := no_signals |> <| td_output := no_signals |> <| td_status := no_signals |>.

(** ** Opening and closing *)

Definition trace_create (ok : bool) (t : trace_database) : option trace_database :=
  if td_is_enabled t then
    let db := fs_open ok (if fs_is_open (td_db t) then fs_close (td_db t) else td_db t) in
    let t := forget_signals (t <| td_db := db |> <| td_is_open := fs_is_open db |> <| td_is_tracing := false |>
                               <| td_metainfo_ok := false |>) in
    _ ← assert (td_is_open t);
    Some t
  else Some t.

Definition trace_close (t : trace_database) : trace_database :=
  if td_is_enabled t then
    t <| td_db ::= fun f => if fs_is_open f then fs_close f else f |> <| td_row_buffer := None |>
      <| td_is_open := false |> <| td_is_tracing := false |> <| td_metainfo_ok := false |>
  else t.

Definition clear_bind_list (t : trace_database) : option trace_database :=
  if td_is_enabled t then
    _ ← assert (td_is_open t && negb (td_metainfo_ok t));
    Some (forget_signals t)
  else Some t.

Definition trace_on (t : trace_database) : option trace_database :=
  if td_is_enabled t then
    _ ← assert (td_is_open t && td_metainfo_ok t);
    Some (t <| td_is_tracing := true |>)
  else Some t.

Definition trace_off (t : trace_database) : trace_database := t <| td_is_tracing := false |>.

Definition trace_set (on : bool) (t : trace_database) : option trace_database := if on then trace_on t else Some (trace_off t).

(** ** Declaring signals *)

(** What [mark_signal] and [mark_signal_bitmap] share. *)
Definition mark_field (domain : domain_t) (name : string) (size bitsize element_size element_num : Z) (t : trace_database)
    : option trace_database :=
  let s := get_signals t domain in
  _ ← assert (bool_decide (bind_list s !! name = None));
  _ ← assert (Z.of_nat (String.length name) <=? FIELDNAME_LENGTH);
  Some (set_signals domain
          (mk_signals (<[name := None]> (bind_list s))
             (fieldinfo_list s ++ [mk_fieldinfo (char_array (FIELDNAME_LENGTH + 1) name) 0 size bitsize element_size element_num])
             (<[name := Z.of_nat (length (fieldinfo_list s))]> (fieldid_map s))) t).

Definition mark_signal (domain : domain_t) (name : string) (element_size element_num : Z) (t : trace_database)
    : option trace_database :=
  if td_is_enabled t then
    mark_field domain name (u32 (element_size * element_num)) (u32 (element_num * 8)) element_size element_num t
  else Some t.

Definition mark_signal_bitmap (domain : domain_t) (name : string) (bit_num element_num : Z) (t : trace_database)
    : option trace_database :=
  if td_is_enabled t then
    let element_size := u32 (bit_num + 8 - 1) / 8 * 1 in
    mark_field domain name (u32 (element_size * element_num)) bit_num element_size element_num t
  else Some t.

Definition bind_signal (domain : domain_t) (name : string) (buf element_size element_num : Z) (t : trace_database)
    : option trace_database :=
  if td_is_enabled t then
    t ← mark_signal domain name element_size element_num t;
    let s := get_signals t domain in
    Some (set_signals domain (s <| bind_list ::= <[name := Some buf]> |>) t)
  else Some t.

(** ** The header *)

(** The loop that lays out a domain behind [row_size]. *)
Fixpoint lay_out (row_size : Z) (l : list fieldinfo_t) : list fieldinfo_t * Z :=
  match l with
  | [] => ([], row_size)
  | item :: l =>
      let '(l, row_size') := lay_out (u32 (row_size + tf_size item)) l in
      (item <| tf_offset := row_size |> :: l, row_size')
  end.

Definition write_metainfo (t : trace_database) : option trace_database :=
  if td_is_enabled t then
    _ ← assert (negb (td_metainfo_ok t));
    let count s := u32 (Z.of_nat (length (fieldinfo_list s))) in
    let fieldinfo_num := u32 (Z.of_nat (length (fieldinfo_list (td_input t) ++ fieldinfo_list (td_output t) ++ fieldinfo_list (td_status t)))) in
    let '(inputs, size1) := lay_out 0 (fieldinfo_list (td_input t)) in
    let '(outputs, size2) := lay_out size1 (fieldinfo_list (td_output t)) in
    let '(statuses, row_size) := lay_out size2 (fieldinfo_list (td_status t)) in
    let hinfo := mk_headerinfo (char_array 8 FEATURE_STRING) fieldinfo_num (count (td_input t)) (count (td_output t))
                   (count (td_status t)) (u32 (sizeof_headerinfo + sizeof_fieldinfo * fieldinfo_num)) row_size in
    let write_fields db l := fold_left fs_write (fieldinfo_bytes <$> l) db in
    let db := fs_write (td_db t) (headerinfo_bytes hinfo) in
    let db := write_fields (write_fields (write_fields db inputs) outputs) statuses in
    Some (t <| td_input ::= fun s => s <| fieldinfo_list := inputs |> |> <| td_output ::= fun s => s <| fieldinfo_list := outputs |> |>
            <| td_status ::= fun s => s <| fieldinfo_list := statuses |> |> <| td_hinfo := hinfo |>
            <| td_row_buffer := Some (repeat 0 (Z.to_nat row_size)) |>
            <| td_db := fs_seekp db (th_data_offset hinfo) |> <| td_metainfo_ok := true |>)
  else Some t.

(** ** Rows *)

(** The field of a signal; a name that was not declared trips an assertion, and
    so does one that is bound to a variable. *)
Definition find_field (domain : domain_t) (name : string) (t : trace_database) : option fieldinfo_t :=
  let s := get_signals t domain in
  buf ← bind_list s !! name;
  _ ← assert (bool_decide (buf = None));
  i ← fieldid_map s !! name;
  arr_get (fieldinfo_list s) i.

Definition row_write (pos : Z) (data : list Z) (t : trace_database) : option trace_database :=
  row ← td_row_buffer t;
  row ← mem_write row pos data;
  Some (t <| td_row_buffer := Some row |>).

(** Where an element is; the product is one of 32-bit numbers. *)
Definition element_pos (item : fieldinfo_t) (index : Z) : Z := tf_offset item + u32 (tf_element_size item * index).

(** [bind_list[item.name]] would add a null entry for a name that is not there; every
    field has one from its declaration, so that the list does not change. *)
Fixpoint capture_loop (mem : Z -> Z) (bind : gmap string (option Z)) (l : list fieldinfo_t) (t : trace_database)
    : option trace_database :=
  match l with
  | [] => Some t
  | item :: l =>
      t ← match default None (bind !! c_string (tf_name item)) with
          | Some p => row_write (tf_offset item) (load mem p (tf_size item)) t
          | None => Some t
          end;
      capture_loop mem bind l t
  end.

Definition capture (domain : domain_t) (mem : Z -> Z) (t : trace_database) : option trace_database :=
  if td_is_tracing t then
    let s := get_signals t domain in capture_loop mem (bind_list s) (fieldinfo_list s) t
  else Some t.

Definition capture_input (mem : Z -> Z) (t : trace_database) : option trace_database := capture dom_input mem t.
Definition capture_output (mem : Z -> Z) (t : trace_database) : option trace_database := capture dom_output mem t.
Definition capture_status (mem : Z -> Z) (t : trace_database) : option trace_database := capture dom_status mem t.

Definition capture_output_status (mem : Z -> Z) (t : trace_database) : option trace_database :=
  t ← capture_output mem t; capture_status mem t.

(** [buf]: the bytes at the address given; [memcpy] takes the size of an element
    of them. *)
Definition update_signal_raw (domain : domain_t) (name : string) (buf : list Z) (index : Z) (t : trace_database)
    : option trace_database :=
  if td_is_tracing t then
    item ← find_field domain name t;
    _ ← assert (index <? tf_element_num item);
    data ← mem_read buf 0 (tf_element_size item);
    row_write (element_pos item index) data t
  else Some t.

(** [T] is an unsigned type of [width] bytes. *)
Definition update_signal (width : nat) (domain : domain_t) (name : string) (value index : Z) (t : trace_database)
    : option trace_database :=
  if td_is_tracing t then
    let s := get_signals t domain in
    _ ← bind_list s !! name;
    i ← fieldid_map s !! name;
    item ← arr_get (fieldinfo_list s) i;
    _ ← assert (tf_element_size item =? Z.of_nat width);
    update_signal_raw domain name (le_bytes width value) index t
  else Some t.

(** [~(1 << k)] as an [int]: for 31 it is positive, so that it has no bits above. *)
Definition int_mask (k : Z) : option Z :=
  _ ← assert (k <? 32);
  Some (if k <? 31 then Z.lnot (2 ^ k) else 2 ^ 31 - 1).

(** [(x & ~(1 << k)) | ((value & 0x01) << k)], stored in [width] bytes. *)
Definition set_bit (width : nat) (x value k : Z) : option Z :=
  mask ← int_mask k;
  Some (Z.lor (Z.land x mask) (Z.shiftl (Z.land value 1) k) mod 2 ^ (8 * Z.of_nat width)).

Definition update_signal_bit (width : nat) (domain : domain_t) (name : string) (value bit_index index : Z) (t : trace_database)
    : option trace_database :=
  if td_is_tracing t then
    item ← find_field domain name t;
    _ ← assert (index <? tf_element_num item);
    _ ← assert (tf_element_size item =? Z.of_nat width);
    _ ← assert (bit_index <? tf_element_bitsize item);
    row ← td_row_buffer t;
    stored ← mem_read row (element_pos item index) (Z.of_nat width);
    v ← set_bit width (le_value stored) value bit_index;
    row_write (element_pos item index) (le_bytes width v) t
  else Some t.

Definition update_signal_bitmap (domain : domain_t) (name : string) (value bit_index index : Z) (t : trace_database)
    : option trace_database :=
  if td_is_tracing t then
    item ← find_field domain name t;
    _ ← assert (index <? tf_element_num item);
    _ ← assert (bit_index <? tf_element_bitsize item);
    let pos := element_pos item index + bit_index / 8 in
    row ← td_row_buffer t;
    stored ← mem_read row pos 1;
    v ← set_bit 1 (le_value stored) value (bit_index mod 8);
    row_write pos [v] t
  else Some t.

(** The overload that takes a buffer. *)
Definition update_signal_bitmap_buf (domain : domain_t) (name : string) (buf : list Z) (index : Z) (t : trace_database)
    : option trace_database :=
  if td_is_tracing t then
    item ← find_field domain name t;
    _ ← assert (index <? tf_element_num item);
    data ← mem_read buf 0 (tf_element_size item);
    row_write (element_pos item index) data t
  else Some t.

Definition update_signal_bitmap_all (domain : domain_t) (name : string) (value index : Z) (t : trace_database)
    : option trace_database :=
  if td_is_tracing t then
    item ← find_field domain name t;
    _ ← assert (index <? tf_element_num item);
    row_write (element_pos item index) (repeat (if value =? 0 then 0 else 0xff) (Z.to_nat (tf_element_size item))) t
  else Some t.

Definition write_row (t : trace_database) : option trace_database :=
  if td_is_enabled t then
    _ ← assert (td_metainfo_ok t);
    if td_is_tracing t then
      row ← td_row_buffer t;
      let n := th_row_size (td_hinfo t) in
      data ← mem_read row 0 n;
      Some (t <| td_db ::= fun f => fs_write f data |>
              <| td_row_buffer := Some (repeat 0 (Z.to_nat n) ++ drop (Z.to_nat n) row) |>)
    else Some t
  else Some t.
