(* ===== verification/TraceSpec.v ===== *)
(** The trace database keeps its promise: a reader that knows nothing but the
    format of the file gets back the signals that were declared and, for every
    row, the values they were given. *)

From Stdlib Require Import ZArith Lia Ascii String.
From stdpp Require Import base numbers list option tactics strings gmap.
From S2P Require Import Prelude Trace.

Local Open Scope Z_scope.

(** * Reading what was written *)

(** Types with a binary form, which can be read from the front of a file. *)
Class Binary (T : Type) := {
  put : T -> list Z;
  get : list Z -> option (T * list Z);
  storable : T -> Prop;
  get_put x rest : storable x -> get (put x ++ rest) = Some (x, rest)
}.

Lemma le_bytes_length k n : length (le_bytes k n) = k.
Proof. revert n. induction k as [|k IH]; intros n; cbn [le_bytes length]; [done|]. by rewrite IH. Qed.

Lemma le_value_bytes k n : 0 <= n < 256 ^ Z.of_nat k -> le_value (le_bytes k n) = n.
Proof.
  revert n. induction k as [|k IH]; intros n Hn; cbn [le_bytes le_value]; [change (256 ^ Z.of_nat 0) with 1 in Hn; lia|].
  rewrite Nat2Z.inj_succ, Z.pow_succ_r in Hn by lia.
  rewrite IH by (split; [apply Z.div_pos; lia|apply Z.div_lt_upper_bound; lia]).
  pose proof (Z.div_mod n 256). lia.
Qed.

(** [n] bytes. *)
Definition get_bytes (n : nat) (l : list Z) : option (list Z * list Z) :=
  if (n <=? length l)%nat then Some (take n l, drop n l) else None.

Lemma get_bytes_app n x rest : length x = n -> get_bytes n (x ++ rest) = Some (x, rest).
Proof.
  intros <-. unfold get_bytes. rewrite length_app. destruct (Nat.leb_spec (length x) (length x + length rest)); [|lia].
  by rewrite take_app_length, drop_app_length.
Qed.

Definition get_u32 (l : list Z) : option (Z * list Z) := '(x, l) ← get_bytes 4 l; Some (le_value x, l).

Lemma get_u32_app n rest : is_u32 n -> get_u32 (le_bytes 4 n ++ rest) = Some (n, rest).
Proof.
  intros Hn. unfold get_u32. rewrite get_bytes_app by apply le_bytes_length. mstep. by rewrite le_value_bytes.
Qed.

Definition get_fieldinfo (l : list Z) : option (fieldinfo_t * list Z) :=
  '(name, l) ← get_bytes (Z.to_nat (FIELDNAME_LENGTH + 1)) l; '(offset, l) ← get_u32 l; '(size, l) ← get_u32 l;
  '(bitsize, l) ← get_u32 l; '(element_size, l) ← get_u32 l; '(element_num, l) ← get_u32 l;
  Some (mk_fieldinfo name offset size bitsize element_size element_num, l).

Record fieldinfo_storable (t : fieldinfo_t) : Prop := {
  fst_name : length (tf_name t) = Z.to_nat (FIELDNAME_LENGTH + 1);
  fst_offset : is_u32 (tf_offset t);
  fst_size : is_u32 (tf_size t);
  fst_bitsize : is_u32 (tf_element_bitsize t);
  fst_element_size : is_u32 (tf_element_size t);
  fst_element_num : is_u32 (tf_element_num t)
}.

#[export, refine] Instance fieldinfo_binary : Binary fieldinfo_t :=
  {| put := fieldinfo_bytes; get := get_fieldinfo; storable := fieldinfo_storable |}.
Proof.
  intros [n o s b e m] rest []. cbn [tf_name tf_offset tf_size tf_element_bitsize tf_element_size tf_element_num th_featurestr th_fieldinfo_num th_input_fieldinfo_num th_output_fieldinfo_num th_status_fieldinfo_num th_data_offset th_row_size] in * |-. unfold fieldinfo_bytes, get_fieldinfo. cbn [tf_name tf_offset tf_size tf_element_bitsize tf_element_size tf_element_num].
  rewrite <- !app_assoc, get_bytes_app by done. mstep. do 5 (rewrite get_u32_app by done; mstep). done.
Defined.

Definition get_headerinfo (l : list Z) : option (headerinfo_t * list Z) :=
  '(feature, l) ← get_bytes 8 l; '(num, l) ← get_u32 l; '(inputs, l) ← get_u32 l; '(outputs, l) ← get_u32 l;
  '(statuses, l) ← get_u32 l; '(offset, l) ← get_u32 l; '(row_size, l) ← get_u32 l;
  Some (mk_headerinfo feature num inputs outputs statuses offset row_size, l).

Record headerinfo_storable (t : headerinfo_t) : Prop := {
  hs_feature : length (th_featurestr t) = 8%nat;
  hs_num : is_u32 (th_fieldinfo_num t);
  hs_inputs : is_u32 (th_input_fieldinfo_num t);
  hs_outputs : is_u32 (th_output_fieldinfo_num t);
  hs_statuses : is_u32 (th_status_fieldinfo_num t);
  hs_offset : is_u32 (th_data_offset t);
  hs_row_size : is_u32 (th_row_size t)
}.

#[export, refine] Instance headerinfo_binary : Binary headerinfo_t :=
  {| put := headerinfo_bytes; get := get_headerinfo; storable := headerinfo_storable |}.
Proof.
  intros [f n i o s d r] rest []. cbn [tf_name tf_offset tf_size tf_element_bitsize tf_element_size tf_element_num th_featurestr th_fieldinfo_num th_input_fieldinfo_num th_output_fieldinfo_num th_status_fieldinfo_num th_data_offset th_row_size] in * |-. unfold headerinfo_bytes, get_headerinfo.
  cbn [th_featurestr th_fieldinfo_num th_input_fieldinfo_num th_output_fieldinfo_num th_status_fieldinfo_num th_data_offset th_row_size].
  rewrite <- !app_assoc, get_bytes_app by done. mstep. do 6 (rewrite get_u32_app by done; mstep). done.
Defined.

(** Several, one after the other. *)
Fixpoint get_many {T} `{Binary T} (n : nat) (l : list Z) : option (list T * list Z) :=
  match n with
  | O => Some ([], l)
  | S n => '(x, l) ← get l; '(xs, l) ← get_many n l; Some (x :: xs, l)
  end.

Lemma get_many_put {T} `{Binary T} (xs : list T) rest :
  Forall storable xs -> get_many (length xs) (mjoin (put <$> xs) ++ rest) = Some (xs, rest).
Proof.
  induction 1 as [|x xs Hx _ IH]; [done|]. cbn [length get_many]. change (mjoin (put <$> x :: xs)) with (put x ++ mjoin (put <$> xs)).
  rewrite <- app_assoc, get_put by done. mstep. by rewrite IH.
Qed.

(** The rows: pieces of [n] bytes, as many as there are. *)
Fixpoint pieces (fuel n : nat) (l : list Z) : list (list Z) :=
  match fuel with
  | O => []
  | S fuel => if (n =? 0)%nat || (length l <? n)%nat then [] else take n l :: pieces fuel n (drop n l)
  end.

Lemma pieces_join fuel n (rows : list (list Z)) :
  (0 < n)%nat -> Forall (fun r => length r = n) rows -> (length rows < fuel)%nat -> pieces fuel n (mjoin rows) = rows.
Proof.
  intros Hn H. revert fuel. induction H as [|r rows Hr _ IH]; intros fuel Hf; (destruct fuel as [|fuel]; [cbn [length] in Hf; lia|]).
  - cbn. by destruct n.
  - cbn [mjoin list_join pieces]. rewrite length_app, Hr. destruct (Nat.eqb_spec n 0); [lia|]. rewrite (proj2 (Nat.ltb_ge _ _)) by lia.
    cbn [orb]. rewrite take_app_length', drop_app_length', IH by first [done | by rewrite Hr | cbn in Hf; lia]. done.
Qed.

(** A reader of trace files: the header, the fields and the rows. *)
Definition read_trace (file : list Z) : option (headerinfo_t * list fieldinfo_t * list (list Z)) :=
  '(h, l) ← get (T := headerinfo_t) file;
  _ ← assert (bool_decide (th_featurestr h = char_array 8 FEATURE_STRING));
  '(fields, _) ← get_many (T := fieldinfo_t) (Z.to_nat (th_fieldinfo_num h)) l;
  let data := drop (Z.to_nat (th_data_offset h)) file in
  Some (h, fields, pieces (S (length data)) (Z.to_nat (th_row_size h)) data).

(** * Declarations *)

Inductive decl :=
| decl_signal (d : domain_t) (name : string) (element_size element_num : Z)
| decl_bitmap (d : domain_t) (name : string) (bit_num element_num : Z)
| decl_bind (d : domain_t) (name : string) (buf element_size element_num : Z).

Definition declare (x : decl) (t : trace_database) : option trace_database :=
  match x with
  | decl_signal d name es num => mark_signal d name es num t
  | decl_bitmap d name bits num => mark_signal_bitmap d name bits num t
  | decl_bind d name buf es num => bind_signal d name buf es num t
  end.

Fixpoint declare_all (ds : list decl) (t : trace_database) : option trace_database :=
  match ds with
  | [] => Some t
  | x :: ds => t ← declare x t; declare_all ds t
  end.

Definition decl_key (x : decl) : domain_t * string :=
  match x with decl_signal d n _ _ | decl_bitmap d n _ _ | decl_bind d n _ _ _ => (d, n) end.

Definition decl_ptr (x : decl) : option Z := match x with decl_bind _ _ p _ _ => Some p | _ => None end.

Definition decl_element_size (x : decl) : Z :=
  match x with decl_signal _ _ es _ | decl_bind _ _ _ es _ => es | decl_bitmap _ _ bits _ => (bits + 7) / 8 end.

Definition decl_element_num (x : decl) : Z := match x with decl_signal _ _ _ num | decl_bitmap _ _ _ num | decl_bind _ _ _ _ num => num end.

(** The bits an index may name; see [mark_signal]. *)
Definition decl_bitsize (x : decl) : Z :=
  match x with decl_signal _ _ _ num | decl_bind _ _ _ _ num => u32 (num * 8) | decl_bitmap _ _ bits _ => bits end.

Definition decl_size (x : decl) : Z := decl_element_size x * decl_element_num x.

(** A name that fits, without a zero in it; sizes that do not wrap around. *)
Record decl_ok (x : decl) : Prop := {
  dk_name : Z.of_nat (String.length (decl_key x).2) <= FIELDNAME_LENGTH;
  dk_text : Forall (fun b => b <> 0) (str_bytes (decl_key x).2);
  dk_element_size : is_u32 (decl_element_size x);
  dk_element_num : is_u32 (decl_element_num x);
  dk_size : is_u32 (decl_size x);
  dk_bits : match x with decl_bitmap _ _ bits _ => 0 <= bits /\ bits + 7 < 2 ^ 32 | _ => True end
}.

Definition decl_field (x : decl) : fieldinfo_t :=
  mk_fieldinfo (char_array (FIELDNAME_LENGTH + 1) (decl_key x).2) 0 (decl_size x) (decl_bitsize x) (decl_element_size x) (decl_element_num x).

Definition add_signal (s : signals) (x : decl) : signals :=
  mk_signals (<[(decl_key x).2 := decl_ptr x]> (bind_list s)) (fieldinfo_list s ++ [decl_field x])
    (<[(decl_key x).2 := Z.of_nat (length (fieldinfo_list s))]> (fieldid_map s)).

Definition signals_of (l : list decl) : signals := fold_left add_signal l no_signals.

Definition in_domain (d : domain_t) (ds : list decl) : list decl := filter (fun x => (decl_key x).1 = d) ds.

(** The database [t] with the declarations [ds]. *)
Definition trace_with (ds : list decl) (t : trace_database) : trace_database :=
  t <| td_input := signals_of (in_domain dom_input ds) |> <| td_output := signals_of (in_domain dom_output ds) |>
    <| td_status := signals_of (in_domain dom_status ds) |>.

Lemma get_trace_with ds t d : get_signals (trace_with ds t) d = signals_of (in_domain d ds).
Proof. by destruct d. Qed.

Lemma signals_of_snoc l x : signals_of (l ++ [x]) = add_signal (signals_of l) x.
Proof. unfold signals_of. by rewrite fold_left_app. Qed.

Lemma trace_with_snoc ds x t : set_signals (decl_key x).1 (add_signal (signals_of (in_domain (decl_key x).1 ds)) x) (trace_with ds t) = trace_with (ds ++ [x]) t.
Proof.
  unfold trace_with, in_domain. rewrite !list.filter_app, !filter_cons, !filter_nil.
  destruct (decl_key x) as [d n] eqn:E. cbn [fst]. destruct d; cbn [set_signals]; repeat case_decide; try done;
    rewrite ?app_nil_r, signals_of_snoc; by destruct t.
Qed.

Lemma signals_of_fields l : fieldinfo_list (signals_of l) = decl_field <$> l.
Proof. induction l as [|x l IH] using rev_ind; [done|]. rewrite signals_of_snoc, fmap_app. cbn. by rewrite IH. Qed.

(** What the maps of a domain hold. *)
Lemma signals_of_absent l n : n ∉ (snd ∘ decl_key <$> l) -> bind_list (signals_of l) !! n = None.
Proof.
  induction l as [|x l IH] using rev_ind; [done|]. rewrite signals_of_snoc, fmap_app, not_elem_of_app. intros [H1 H2]. cbn in *.
  rewrite lookup_insert_ne; [auto|]. intros <-. apply H2. by left.
Qed.

Lemma signals_of_lookup l i x :
  NoDup (snd ∘ decl_key <$> l) -> l !! i = Some x ->
  bind_list (signals_of l) !! (decl_key x).2 = Some (decl_ptr x) /\ fieldid_map (signals_of l) !! (decl_key x).2 = Some (Z.of_nat i).
Proof.
  induction l as [|y l IH] using rev_ind; [done|]. rewrite signals_of_snoc, fmap_app. intros Hn Hx. cbn in *.
  apply list.NoDup_app in Hn as (Hn & Hd & _). apply lookup_app_Some in Hx as [Hx|[Hl Hx]].
  - destruct (IH Hn Hx) as [B F]. assert ((decl_key x).2 <> (decl_key y).2) as Hne.
    { intros E. apply (Hd (decl_key x).2); [|rewrite E; by left].
      apply (list_elem_of_lookup_2 _ i). by rewrite list_lookup_fmap, Hx. }
    by rewrite !lookup_insert_ne by done.
  - destruct (i - length l)%nat as [|k] eqn:Ei; [|done]. injection Hx as <-. rewrite !lookup_insert_eq, signals_of_fields, length_fmap.
    split; [done|]. f_equal. lia.
Qed.

Lemma mark_field_ok d name size bits es num t :
  bind_list (get_signals t d) !! name = None -> Z.of_nat (String.length name) <= FIELDNAME_LENGTH ->
  mark_field d name size bits es num t =
    let s := get_signals t d in
    Some (set_signals d (mk_signals (<[name := None]> (bind_list s))
      (fieldinfo_list s ++ [mk_fieldinfo (char_array (FIELDNAME_LENGTH + 1) name) 0 size bits es num])
      (<[name := Z.of_nat (length (fieldinfo_list s))]> (fieldid_map s))) t).
Proof.
  intros Hb Hl. unfold mark_field. rewrite bool_decide_true by done. destruct (Z.leb_spec (Z.of_nat (String.length name)) FIELDNAME_LENGTH); [done|lia].
Qed.

Lemma get_set_signals d s t : get_signals (set_signals d s t) d = s.
Proof. by destruct d. Qed.

Lemma set_set_signals d s s' t : set_signals d s (set_signals d s' t) = set_signals d s t.
Proof. by destruct d. Qed.

Lemma declare_ok x t :
  td_is_enabled t = true -> decl_ok x -> bind_list (get_signals t (decl_key x).1) !! (decl_key x).2 = None ->
  declare x t = Some (set_signals (decl_key x).1 (add_signal (get_signals t (decl_key x).1) x) t).
Proof.
  intros He [Hl _ Hes Hnum Hsz Hb] Hn. unfold decl_size in Hsz.
  destruct x as [d name es num|d name bits num|d name buf es num];
    cbn [declare decl_key fst snd decl_element_size decl_element_num] in *; unfold add_signal, decl_field, decl_size;
    cbn [decl_key fst snd decl_element_size decl_element_num decl_bitsize decl_ptr].
  - unfold mark_signal. by rewrite He, mark_field_ok, (u32_small (es * num)) by done.
  - unfold mark_signal_bitmap. rewrite He. replace (bits + 8 - 1) with (bits + 7) by lia.
    rewrite (u32_small (bits + 7)), Z.mul_1_r by lia. by rewrite mark_field_ok, u32_small by done.
  - unfold bind_signal, mark_signal. rewrite He, mark_field_ok, (u32_small (es * num)) by done. cbv zeta. mstep. rewrite get_set_signals, set_set_signals.
    cbn [bind_list fieldinfo_list fieldid_map]. do 3 f_equal. unfold upd. cbn. f_equal. apply insert_insert_eq.
Qed.

Definition decls_ok (ds : list decl) : Prop := NoDup (decl_key <$> ds) /\ Forall decl_ok ds.

Lemma in_domain_key ds d n : (d, n) ∉ (decl_key <$> ds) -> n ∉ (snd ∘ decl_key <$> in_domain d ds).
Proof.
  intros H (x & Hx & Hi)%list_elem_of_fmap. apply list_elem_of_filter in Hi as [Hd Hi]. apply H. apply list_elem_of_fmap.
  exists x. split; [|done]. cbn in Hx. destruct (decl_key x). cbn in *. by subst.
Qed.

Lemma declare_all_ok ds done t :
  td_is_enabled t = true -> decls_ok (done ++ ds) -> declare_all ds (trace_with done t) = Some (trace_with (done ++ ds) t).
Proof.
  intros He. revert done. induction ds as [|x ds IH]; intros dn [Hn Hk]; cbn [declare_all]; [by rewrite app_nil_r|].
  rewrite declare_ok.
  - mstep. rewrite get_trace_with, trace_with_snoc. rewrite IH; [by rewrite <- app_assoc|]. by rewrite <- app_assoc.
  - done.
  - by apply Forall_app in Hk as [_ [Hx _]%list.Forall_cons].
  - rewrite get_trace_with. apply signals_of_absent, in_domain_key. rewrite <- surjective_pairing.
    rewrite fmap_app in Hn. apply list.NoDup_app in Hn as (_ & Hd & _). intros Hi. apply (Hd _ Hi). by left.
Qed.

(** * Layout *)

(** The signals in the order in which the row has them. *)
Definition ordered (ds : list decl) : list decl := in_domain dom_input ds ++ in_domain dom_output ds ++ in_domain dom_status ds.

Definition total (l : list decl) : Z := foldr (fun x n => decl_size x + n) 0 l.

Fixpoint place (start : Z) (l : list decl) : list fieldinfo_t :=
  match l with
  | [] => []
  | x :: l => (decl_field x) <| tf_offset := start |> :: place (start + decl_size x) l
  end.

Definition layout (ds : list decl) : list fieldinfo_t := place 0 (ordered ds).

Lemma total_cons x l : total (x :: l) = decl_size x + total l.
Proof. done. Qed.

Lemma total_app l1 l2 : total (l1 ++ l2) = total l1 + total l2.
Proof. induction l1 as [|x l1 IH]; cbn; [done|]. unfold total in *. lia. Qed.

Lemma total_nonneg l : Forall decl_ok l -> 0 <= total l.
Proof. induction 1 as [|x l [] _ IH]; cbn; [lia|]. unfold is_u32, total in *. lia. Qed.

Lemma place_app start l1 l2 : place start (l1 ++ l2) = place start l1 ++ place (start + total l1) l2.
Proof.
  revert start. induction l1 as [|x l1 IH]; intros start; cbn; [by rewrite Z.add_0_r|]. rewrite IH. unfold total. by rewrite Z.add_assoc.
Qed.

Lemma place_length start l : length (place start l) = length l.
Proof. revert start. induction l as [|x l IH]; intros start; cbn; [done|]. by rewrite IH. Qed.

Lemma lay_out_place start l :
  0 <= start -> Forall decl_ok l -> start + total l < 2 ^ 32 -> lay_out start (decl_field <$> l) = (place start l, start + total l).
Proof.
  intros H0 H. revert start H0. induction H as [|x l Hx Hl IH]; intros start H0 Ht; cbn [fmap list_fmap lay_out place total foldr] in *; [by rewrite Z.add_0_r|].
  pose proof (total_nonneg l Hl) as Hn. unfold total in Hn. destruct Hx as [_ _ _ _ Hs _]. unfold is_u32 in Hs.
  change (tf_size (decl_field x)) with (decl_size x). rewrite u32_small by lia.
  change (list_fmap _ _ decl_field l) with (decl_field <$> l). rewrite IH by (unfold total; lia). unfold total. by rewrite Z.add_assoc.
Qed.

(** Where a signal is. *)
Fixpoint offset_in (l : list decl) (k : domain_t * string) : Z :=
  match l with
  | [] => 0
  | x :: l => if decide (decl_key x = k) then 0 else decl_size x + offset_in l k
  end.

Lemma place_lookup start l i x :
  NoDup (decl_key <$> l) -> l !! i = Some x -> place start l !! i = Some ((decl_field x) <| tf_offset := start + offset_in l (decl_key x) |>).
Proof.
  revert start i. induction l as [|y l IH]; intros start i Hn Hx; [done|]. cbn [fmap list_fmap] in Hn. apply list.NoDup_cons in Hn as [Hni Hn].
  destruct i as [|i]; cbn [place lookup list_lookup] in *.
  - injection Hx as ->. cbn [offset_in]. by rewrite decide_True, Z.add_0_r.
  - cbn [offset_in]. rewrite decide_False.
    + rewrite (IH _ _ Hn Hx). by rewrite Z.add_assoc.
    + intros E. apply Hni. rewrite E. apply list_elem_of_fmap. exists x. split; [done|]. by apply (list_elem_of_lookup_2 _ i).
Qed.

(** Signals lie apart, inside the row. *)
Lemma offset_bounds l i x :
  NoDup (decl_key <$> l) -> Forall decl_ok l -> l !! i = Some x ->
  offset_in l (decl_key x) = total (take i l) /\ total (take i l) + decl_size x + total (drop (S i) l) = total l.
Proof.
  intros Hn H. revert i Hn. induction H as [|y l Hy Hl IH]; intros i Hn Hx; [done|]. cbn [fmap list_fmap] in Hn. apply list.NoDup_cons in Hn as [Hni Hn].
  destruct i as [|i]; cbn [lookup list_lookup] in Hx; cbn [offset_in].
  - injection Hx as ->. rewrite decide_True by done. split; [done|]. change (total (take 0 (x :: l))) with 0. change (drop 1 (x :: l)) with l. by rewrite total_cons.
  - rewrite decide_False.
    + destruct (IH i Hn Hx) as [E1 E2]. cbn [take drop]. rewrite !total_cons, E1. lia.
    + intros E. apply Hni. rewrite E. apply list_elem_of_fmap. exists x. split; [done|]. by apply (list_elem_of_lookup_2 _ i).
Qed.

Lemma total_take_le l i j : Forall decl_ok l -> (i <= j)%nat -> total (take i l) <= total (take j l).
Proof.
  intros H Hij. replace (take i l) with (take i (take j l)) by (rewrite take_take; f_equal; lia).
  rewrite <- (take_drop i (take j l)) at 2. rewrite total_app. pose proof (total_nonneg (drop i (take j l))) as Hd. cut (0 <= total (drop i (take j l))); [lia|].
  apply Hd. by apply Forall_drop, Forall_take.
Qed.

Lemma offsets_apart l i j x y :
  NoDup (decl_key <$> l) -> Forall decl_ok l -> l !! i = Some x -> l !! j = Some y -> (i < j)%nat ->
  offset_in l (decl_key x) + decl_size x <= offset_in l (decl_key y).
Proof.
  intros Hn H Hx Hy Hij. destruct (offset_bounds l i x Hn H Hx) as [-> _], (offset_bounds l j y Hn H Hy) as [-> _].
  transitivity (total (take (S i) l)); [|apply total_take_le; [done|lia]]. rewrite (take_S_r _ _ _ Hx), total_app. cbn. lia.
Qed.

Lemma in_domain_elem d ds x : x ∈ in_domain d ds <-> (decl_key x).1 = d /\ x ∈ ds.
Proof. unfold in_domain. by rewrite list_elem_of_filter. Qed.

Lemma ordered_perm ds : ordered ds ≡ₚ ds.
Proof.
  unfold ordered, in_domain. induction ds as [|x ds IH]; [done|]. rewrite !filter_cons.
  destruct (decl_key x) as [d n] eqn:E. cbn [fst]. destruct d; repeat case_decide; try done;
    (etransitivity; [|apply perm_skip, IH]); solve_Permutation.
Qed.

Lemma ordered_ok ds : decls_ok ds -> NoDup (decl_key <$> ordered ds) /\ Forall decl_ok (ordered ds).
Proof. intros [H1 H2]. by rewrite (ordered_perm ds). Qed.

Definition base_of (ds : list decl) (d : domain_t) : Z :=
  match d with
  | dom_input => 0
  | dom_output => total (in_domain dom_input ds)
  | dom_status => total (in_domain dom_input ds) + total (in_domain dom_output ds)
  end.

(** The members of a domain after [write_metainfo]. *)
Definition laid_out (ds : list decl) (d : domain_t) : signals :=
  let s := signals_of (in_domain d ds) in
  mk_signals (bind_list s) (place (base_of ds d) (in_domain d ds)) (fieldid_map s).

Lemma layout_split ds :
  layout ds = fieldinfo_list (laid_out ds dom_input) ++ fieldinfo_list (laid_out ds dom_output) ++ fieldinfo_list (laid_out ds dom_status).
Proof. unfold layout, ordered. by rewrite !place_app. Qed.

(** The field of a signal is that of the layout. *)
Definition field_of (ds : list decl) (x : decl) : fieldinfo_t :=
  (decl_field x) <| tf_offset := offset_in (ordered ds) (decl_key x) |>.

Definition layout_index (ds : list decl) (d : domain_t) (i : nat) : nat :=
  match d with
  | dom_input => i
  | dom_output => length (in_domain dom_input ds) + i
  | dom_status => length (in_domain dom_input ds) + (length (in_domain dom_output ds) + i)
  end.

Lemma ordered_lookup ds d i x : in_domain d ds !! i = Some x -> ordered ds !! layout_index ds d i = Some x.
Proof.
  intros Hx. unfold ordered. destruct d; cbn [layout_index].
  - by apply lookup_app_l_Some.
  - rewrite lookup_app_r, Nat.add_comm, Nat.add_sub by lia. by apply lookup_app_l_Some.
  - rewrite lookup_app_r by lia. rewrite lookup_app_r by lia. rewrite <- Hx. f_equal. lia.
Qed.

Lemma laid_out_lookup ds d i x :
  decls_ok ds -> in_domain d ds !! i = Some x -> fieldinfo_list (laid_out ds d) !! i = Some (field_of ds x).
Proof.
  intros Hok Hx. destruct (ordered_ok ds Hok) as [Hn _].
  pose proof (place_lookup 0 (ordered ds) _ _ Hn (ordered_lookup ds d i x Hx)) as E. fold (layout ds) in E. rewrite layout_split in E.
  assert (forall d, length (fieldinfo_list (laid_out ds d)) = length (in_domain d ds)) as L by (intros d'; apply place_length).
  apply lookup_lt_Some in Hx. destruct d; cbn [layout_index] in E.
  - rewrite lookup_app_l in E by (by rewrite L). exact E.
  - rewrite lookup_app_r in E by (rewrite L; lia). rewrite L, lookup_app_l in E by (rewrite L; lia). etransitivity; [|exact E]. f_equal. lia.
  - rewrite lookup_app_r in E by (rewrite L; lia). rewrite lookup_app_r in E by (rewrite !L; lia). rewrite !L in E. etransitivity; [|exact E]. f_equal. lia.
Qed.

Lemma in_domain_nodup ds d : NoDup (decl_key <$> ds) -> NoDup (snd ∘ decl_key <$> in_domain d ds).
Proof.
  intros H. assert (NoDup (decl_key <$> in_domain d ds)) as H1.
  { apply (sublist_NoDup _ (decl_key <$> ds)); [done|]. apply fmap_sublist, sublist_filter. }
  assert (Forall (fun x => (decl_key x).1 = d) (in_domain d ds)) as H2 by (apply list.Forall_forall; intros x [Hx _]%in_domain_elem; done).
  clear H. induction H2 as [|x l Hx Hl IH]; [constructor|]. cbn [fmap list_fmap] in H1 |- *. apply list.NoDup_cons in H1 as [Hni Hn].
  apply list.NoDup_cons. split; [|by apply IH]. intros (y & Hy & Hi)%list_elem_of_fmap. apply Hni. apply list_elem_of_fmap. exists y.
  split; [|done]. rewrite list.Forall_forall in Hl. specialize (Hl y Hi). cbn in Hy. destruct (decl_key x), (decl_key y). cbn in *. by subst.
Qed.

(** The signal [x] as the database finds it. *)
Lemma laid_out_find ds x :
  decls_ok ds -> x ∈ ds -> exists i, fieldid_map (laid_out ds (decl_key x).1) !! (decl_key x).2 = Some (Z.of_nat i) /\
    fieldinfo_list (laid_out ds (decl_key x).1) !! i = Some (field_of ds x) /\
    bind_list (laid_out ds (decl_key x).1) !! (decl_key x).2 = Some (decl_ptr x).
Proof.
  intros Hok Hx. assert (x ∈ in_domain (decl_key x).1 ds) as Hi by (by apply in_domain_elem).
  apply list_elem_of_lookup_1 in Hi as [i Hi]. exists i. pose proof Hok as [Hn _].
  destruct (signals_of_lookup _ _ _ (in_domain_nodup ds _ Hn) Hi) as [B F]. split; [done|]. split; [by apply laid_out_lookup|done].
Qed.

(** * The database while it traces *)

Definition trace_header (ds : list decl) : headerinfo_t :=
  mk_headerinfo (char_array 8 FEATURE_STRING) (Z.of_nat (length ds)) (Z.of_nat (length (in_domain dom_input ds)))
    (Z.of_nat (length (in_domain dom_output ds))) (Z.of_nat (length (in_domain dom_status ds)))
    (sizeof_headerinfo + sizeof_fieldinfo * Z.of_nat (length ds)) (total ds).

Definition meta_bytes (ds : list decl) : list Z := put (trace_header ds) ++ mjoin (put <$> layout ds).

Record tracing (ds : list decl) (row : list Z) (rows : list (list Z)) (t : trace_database) : Prop := {
  tr_enabled : td_is_enabled t = true;
  tr_tracing : td_is_tracing t = true;
  tr_metainfo : td_metainfo_ok t = true;
  tr_signals d : get_signals t d = laid_out ds d;
  tr_header : td_hinfo t = trace_header ds;
  tr_row : td_row_buffer t = Some row;
  tr_row_length : Z.of_nat (length row) = total ds;
  tr_file : td_db t = mk_ofstream true (meta_bytes ds ++ mjoin rows) (Z.of_nat (length (meta_bytes ds ++ mjoin rows)))
}.

Lemma find_field_ok ds row rows t x :
  decls_ok ds -> tracing ds row rows t -> x ∈ ds -> decl_ptr x = None -> find_field (decl_key x).1 (decl_key x).2 t = Some (field_of ds x).
Proof.
  intros Hok T Hx Hp. destruct (laid_out_find ds x Hok Hx) as (i & F & L & B). unfold find_field. rewrite (tr_signals _ _ _ _ T).
  rewrite B, Hp. mstep. rewrite bool_decide_true by done. mstep. rewrite F. mstep. by rewrite arr_get_lookup, Nat2Z.id by lia.
Qed.

(** * Writing to the row *)

Definition splice (l : list Z) (p : nat) (data : list Z) : list Z := take p l ++ data ++ drop (p + length data) l.

Lemma splice_length l p data : (p + length data <= length l)%nat -> length (splice l p data) = length l.
Proof. intros H. unfold splice. rewrite !length_app, length_take, length_drop. lia. Qed.

Lemma splice_lookup l p data i :
  (p + length data <= length l)%nat ->
  splice l p data !! i = if decide (p <= i < p + length data)%nat then data !! (i - p)%nat else l !! i.
Proof.
  intros H. unfold splice. destruct (decide _) as [[H1 H2]|Hn].
  - rewrite lookup_app_r, length_take, Nat.min_l by (rewrite ?length_take; lia). by apply lookup_app_l; lia.
  - destruct (decide (i < p)%nat).
    + rewrite lookup_app_l by (rewrite length_take; lia). by apply lookup_take_lt.
    + rewrite lookup_app_r, length_take, Nat.min_l by (rewrite ?length_take; lia). rewrite lookup_app_r by lia.
      rewrite lookup_drop. f_equal. lia.
Qed.

(** Part of a list, and what a splice does to it. *)
Definition part (l : list Z) (o s : nat) : list Z := take s (drop o l).

Lemma part_lookup l o s i : part l o s !! i = if decide (i < s)%nat then l !! (o + i)%nat else None.
Proof. unfold part. destruct (decide _); [by rewrite lookup_take_lt, lookup_drop|]. apply lookup_take_ge. lia. Qed.

Lemma part_length l o s : (o + s <= length l)%nat -> length (part l o s) = s.
Proof. intros H. unfold part. rewrite length_take, length_drop. lia. Qed.

Lemma part_splice_in l p data o s :
  (o + p + length data <= o + s)%nat -> (o + s <= length l)%nat -> part (splice l (o + p) data) o s = splice (part l o s) p data.
Proof.
  intros H1 H2. apply list_eq. intros i. rewrite part_lookup, (splice_lookup (part l o s)) by (rewrite part_length; lia).
  destruct (decide (i < s)%nat).
  - rewrite splice_lookup by lia. destruct (decide (p <= i < p + length data)%nat), (decide (o + p <= o + i < o + p + length data)%nat); try lia.
    + f_equal. lia.
    + by rewrite part_lookup, decide_True.
  - rewrite decide_False by lia. by rewrite part_lookup, decide_False.
Qed.

Lemma part_splice_out l p data o s :
  (o + s <= p \/ p + length data <= o)%nat -> (p + length data <= length l)%nat -> part (splice l p data) o s = part l o s.
Proof.
  intros H1 H2. apply list_eq. intros i. rewrite !part_lookup. destruct (decide (i < s)%nat); [|done].
  rewrite splice_lookup by lia. by rewrite decide_False by lia.
Qed.

(** The bytes of a signal. *)
Definition view (ds : list decl) (row : list Z) (x : decl) : list Z :=
  part row (Z.to_nat (offset_in (ordered ds) (decl_key x))) (Z.to_nat (decl_size x)).

Lemma total_ordered ds : total (ordered ds) = total ds.
Proof.
  assert (forall l1 l2, l1 ≡ₚ l2 -> total l1 = total l2) as H; [|by apply H, ordered_perm].
  induction 1; rewrite ?total_cons; lia.
Qed.

Lemma signal_place ds x : decls_ok ds -> x ∈ ds ->
  0 <= offset_in (ordered ds) (decl_key x) /\ 0 <= decl_size x /\ offset_in (ordered ds) (decl_key x) + decl_size x <= total ds.
Proof.
  intros Hok Hx. destruct (ordered_ok ds Hok) as [Hn Ho]. rewrite <- (ordered_perm ds) in Hx. apply list_elem_of_lookup_1 in Hx as [i Hi].
  destruct (offset_bounds _ _ _ Hn Ho Hi) as [-> E]. rewrite <- (total_ordered ds), <- E.
  pose proof (total_nonneg (take i (ordered ds)) ltac:(by apply Forall_take)). pose proof (total_nonneg (drop (S i) (ordered ds)) ltac:(by apply Forall_drop)).
  rewrite list.Forall_forall in Ho. destruct (Ho x) as [_ _ _ _ Hs _]; [by apply (list_elem_of_lookup_2 _ i)|]. unfold is_u32 in Hs. lia.
Qed.

Lemma signals_apart ds x y : decls_ok ds -> x ∈ ds -> y ∈ ds -> decl_key x <> decl_key y ->
  offset_in (ordered ds) (decl_key x) + decl_size x <= offset_in (ordered ds) (decl_key y) \/
  offset_in (ordered ds) (decl_key y) + decl_size y <= offset_in (ordered ds) (decl_key x).
Proof.
  intros Hok Hx Hy Hne. destruct (ordered_ok ds Hok) as [Hn Ho]. rewrite <- (ordered_perm ds) in Hx, Hy.
  apply list_elem_of_lookup_1 in Hx as [i Hi]. apply list_elem_of_lookup_1 in Hy as [j Hj].
  destruct (Nat.lt_trichotomy i j) as [|[->|]]; [left; by apply (offsets_apart _ i j)|congruence|right; by apply (offsets_apart _ j i)].
Qed.

(** A write inside a signal changes that signal only. *)
Lemma row_write_ok ds row rows t x rel data :
  decls_ok ds -> tracing ds row rows t -> x ∈ ds -> 0 <= rel -> rel + Z.of_nat (length data) <= decl_size x ->
  exists row' t', row_write (offset_in (ordered ds) (decl_key x) + rel) data t = Some t' /\ tracing ds row' rows t' /\
    view ds row' x = splice (view ds row x) (Z.to_nat rel) data /\
    (forall y, y ∈ ds -> decl_key y <> decl_key x -> view ds row' y = view ds row y).
Proof.
  intros Hok T Hx H0 Hl. destruct (signal_place ds x Hok Hx) as (P1 & P2 & P3). pose proof T as [T1 T2 T3 T4 T5 T6 T7 T8].
  set (o := offset_in _ _) in *. unfold row_write. rewrite T6. mstep. unfold mem_write.
  destruct (Z.leb_spec 0 (o + rel)); [|lia]. destruct (Z.leb_spec (o + rel + Z.of_nat (length data)) (Z.of_nat (length row))); [|lia]. cbn [andb]. mstep.
  fold (splice row (Z.to_nat (o + rel)) data). replace (Z.to_nat (o + rel)) with (Z.to_nat o + Z.to_nat rel)%nat by lia.
  eexists _, _. split; [reflexivity|]. split; [|split].
  - split; try done. rewrite splice_length; lia.
  - unfold view. fold o. apply part_splice_in; lia.
  - intros y Hy Hne. destruct (signal_place ds y Hok Hy) as (Q1 & Q2 & Q3). unfold view. apply part_splice_out; [|lia].
    destruct (signals_apart ds x y Hok Hx Hy); [congruence| |]; subst o; lia.
Qed.

(** * From the constructor to the first row *)

(** A file that is written at its end. *)
Definition file_of (data : list Z) : ofstream := mk_ofstream true data (Z.of_nat (length data)).

Lemma fs_write_end data x : fs_write (file_of data) x = file_of (data ++ x).
Proof.
  unfold fs_write, file_of. cbn [fs_is_open fs_data fs_pos]. rewrite Nat2Z.id, resize_all, drop_ge by lia.
  rewrite app_nil_r. f_equal. rewrite length_app. lia.
Qed.

Lemma fs_write_all data xs : fold_left fs_write xs (file_of data) = file_of (data ++ mjoin xs).
Proof.
  revert data. induction xs as [|x xs IH]; intros data; cbn [fold_left]; [by rewrite app_nil_r|]. rewrite fs_write_end, IH.
  cbn [mjoin list_join]. by rewrite app_assoc.
Qed.

Lemma str_bytes_length s : length (str_bytes s) = String.length s.
Proof. unfold str_bytes. rewrite length_fmap. induction s as [|c s IH]; cbn; [done|]. by rewrite IH. Qed.

Lemma field_bytes_length start l :
  Forall decl_ok l -> Z.of_nat (length (mjoin (fieldinfo_bytes <$> place start l))) = sizeof_fieldinfo * Z.of_nat (length l).
Proof.
  intros H. revert start. induction H as [|x l Hx _ IH]; intros start; [done|]. cbn [place].
  change (mjoin (fieldinfo_bytes <$> ?f :: ?r)) with (fieldinfo_bytes f ++ mjoin (fieldinfo_bytes <$> r)).
  rewrite length_app, Nat2Z.inj_add, IH. cbn [length].
  unfold fieldinfo_bytes. rewrite !length_app, !le_bytes_length. cbn [decl_field tf_name upd]. unfold char_array. rewrite length_resize.
  unfold sizeof_fieldinfo, FIELDNAME_LENGTH. lia.
Qed.

Record trace_ok (ds : list decl) : Prop := {
  to_decls : decls_ok ds;
  to_head : sizeof_headerinfo + sizeof_fieldinfo * Z.of_nat (length ds) < 2 ^ 32;
  to_row : 0 < total ds < 2 ^ 32
}.

(** The calls a component makes when it is reset. *)
Definition trace_start (ds : list decl) (t : trace_database) : option trace_database :=
  t ← trace_create true t; t ← declare_all ds t; t ← write_metainfo t; trace_on t.

Lemma in_domain_lengths ds :
  (length (in_domain dom_input ds) + length (in_domain dom_output ds) + length (in_domain dom_status ds) = length ds)%nat.
Proof. rewrite <- (ordered_perm ds) at 4. unfold ordered. rewrite !length_app. lia. Qed.

Lemma meta_length ds : decls_ok ds -> Z.of_nat (length (meta_bytes ds)) = th_data_offset (trace_header ds).
Proof.
  intros Hok. unfold meta_bytes. rewrite length_app, Nat2Z.inj_add. change (put <$> layout ds) with (fieldinfo_bytes <$> place 0 (ordered ds)).
  rewrite field_bytes_length by (by apply ordered_ok). rewrite (Permutation_length (ordered_perm ds)).
  change (put (trace_header ds)) with (headerinfo_bytes (trace_header ds)). unfold headerinfo_bytes. rewrite !length_app, !le_bytes_length.
  cbn [trace_header th_featurestr th_data_offset]. unfold char_array, sizeof_headerinfo. rewrite length_resize. lia.
Qed.

Lemma write_metainfo_ok ds t :
  trace_ok ds -> td_is_enabled t = true -> td_metainfo_ok t = false -> td_db t = file_of [] ->
  exists t', write_metainfo (trace_with ds t) = Some t' /\ td_is_open t' = td_is_open t /\
    tracing ds (repeat 0 (Z.to_nat (total ds))) [] (t' <| td_is_tracing := true |>).
Proof.
  intros [Hok Hh Hr] He Hm Hd. unfold write_metainfo. change (td_is_enabled (trace_with ds t)) with (td_is_enabled t).
  change (td_metainfo_ok (trace_with ds t)) with (td_metainfo_ok t). change (td_db (trace_with ds t)) with (td_db t). rewrite He, Hm, Hd. cbn [negb]. mstep.
  change (td_input (trace_with ds t)) with (signals_of (in_domain dom_input ds)).
  change (td_output (trace_with ds t)) with (signals_of (in_domain dom_output ds)).
  change (td_status (trace_with ds t)) with (signals_of (in_domain dom_status ds)). rewrite !signals_of_fields.
  pose proof Hok as [Hn Ha]. pose proof (ordered_ok ds Hok) as [_ Ho]. unfold ordered in Ho. apply Forall_app in Ho as [A1 Ho]. apply Forall_app in Ho as [A2 A3].
  pose proof (total_ordered ds) as Ht. unfold ordered in Ht. rewrite !total_app in Ht.
  pose proof (total_nonneg _ A1). pose proof (total_nonneg _ A2). pose proof (total_nonneg _ A3).
  rewrite lay_out_place by (done || lia). rewrite lay_out_place by (done || lia). rewrite lay_out_place by (done || lia).
  replace (0 + total (in_domain dom_input ds) + total (in_domain dom_output ds) + total (in_domain dom_status ds)) with (total ds) by lia.
  rewrite !length_app, !length_fmap. pose proof (in_domain_lengths ds) as Hlen.
  replace (length (in_domain dom_input ds) + (length (in_domain dom_output ds) + length (in_domain dom_status ds)))%nat with (length ds) by lia.
  unfold sizeof_fieldinfo, sizeof_headerinfo, FIELDNAME_LENGTH in Hh.
  rewrite (u32_small (Z.of_nat (length ds))), !(u32_small (Z.of_nat (length (in_domain _ ds)))) by lia.
  rewrite (u32_small (sizeof_headerinfo + _)) by (unfold sizeof_fieldinfo, sizeof_headerinfo, FIELDNAME_LENGTH; lia).
  fold (trace_header ds). rewrite fs_write_end, !fs_write_all. cbn [app].
  eexists. split; [reflexivity|]. split; [done|].
  assert (meta_bytes ds = ((headerinfo_bytes (trace_header ds) ++ mjoin (fieldinfo_bytes <$> place 0 (in_domain dom_input ds))) ++
            mjoin (fieldinfo_bytes <$> place (0 + total (in_domain dom_input ds)) (in_domain dom_output ds))) ++
            mjoin (fieldinfo_bytes <$> place (0 + total (in_domain dom_input ds) + total (in_domain dom_output ds)) (in_domain dom_status ds))) as Em.
  { unfold meta_bytes, layout, ordered. rewrite !place_app, !fmap_app, !join_app, !app_assoc. done. }
  split; try done.
  - intros []; done.
  - rewrite repeat_length. lia.
  - cbn [mjoin list_join]. rewrite app_nil_r. cbn [td_db upd]. unfold fs_seekp. cbn [fs_is_open file_of]. rewrite <- Em.
    change ((file_of (meta_bytes ds)) <| fs_pos := th_data_offset (trace_header ds) |> = file_of (meta_bytes ds)).
    rewrite <- meta_length by done. done.
Qed.

Lemma trace_start_ok ds t :
  trace_ok ds -> td_is_enabled t = true ->
  exists t', trace_start ds t = Some t' /\ tracing ds (repeat 0 (Z.to_nat (total ds))) [] t'.
Proof.
  intros Hok He. unfold trace_start, trace_create. rewrite He. cbn [fs_open].
  match goal with |- context [assert ?b] => change b with true end. mstep.
  match goal with |- context [declare_all ds ?u] => set (t0 := u) end.
  assert (t0 = trace_with [] t0) as E0 by reflexivity. rewrite E0.
  rewrite (declare_all_ok ds [] t0); [|done|apply (to_decls _ Hok)]. mstep. cbn [app].
  destruct (write_metainfo_ok ds t0 Hok) as (t' & -> & Ho & T); [done..|]. mstep. unfold trace_on.
  pose proof T as [T1 _ T3 _ _ _ _ _]. change (td_is_enabled (t' <| td_is_tracing := true |>)) with (td_is_enabled t') in T1.
  change (td_metainfo_ok (t' <| td_is_tracing := true |>)) with (td_metainfo_ok t') in T3. rewrite T1, T3, Ho.
  match goal with |- context [assert ?b] => change b with true end. mstep. by eexists.
Qed.

(** * Operations, and what they mean *)

Inductive trace_op :=
| tr_raw (d : domain_t) (name : string) (buf : list Z) (index : Z)
| tr_value (width : nat) (d : domain_t) (name : string) (value index : Z)
| tr_bit (width : nat) (d : domain_t) (name : string) (value bit_index index : Z)
| tr_bitmap (d : domain_t) (name : string) (value bit_index index : Z)
| tr_bitmap_buf (d : domain_t) (name : string) (buf : list Z) (index : Z)
| tr_bitmap_all (d : domain_t) (name : string) (value index : Z)
| tr_capture (d : domain_t) (mem : Z -> Z)
| tr_write_row.

Definition trace_do (op : trace_op) (t : trace_database) : option trace_database :=
  match op with
  | tr_raw d n buf i => update_signal_raw d n buf i t
  | tr_value w d n v i => update_signal w d n v i t
  | tr_bit w d n v k i => update_signal_bit w d n v k i t
  | tr_bitmap d n v k i => update_signal_bitmap d n v k i t
  | tr_bitmap_buf d n buf i => update_signal_bitmap_buf d n buf i t
  | tr_bitmap_all d n v i => update_signal_bitmap_all d n v i t
  | tr_capture d mem => capture d mem t
  | tr_write_row => write_row t
  end.

Fixpoint trace_run (ops : list trace_op) (t : trace_database) : option trace_database :=
  match ops with
  | [] => Some t
  | op :: ops => t ← trace_do op t; trace_run ops t
  end.

(** The meaning: the bytes of every signal, by domain and name. *)
Definition contents : Type := domain_t * string -> list Z.

(** What an update stores, and where in the signal; [old]: the bytes of the
    signal before. *)
Definition stores (x : decl) (old : list Z) (op : trace_op) : nat * list Z :=
  let es := decl_element_size x in
  let at_element i data := (Z.to_nat (es * i), data) in
  match op with
  | tr_raw _ _ buf i | tr_bitmap_buf _ _ buf i => at_element i (take (Z.to_nat es) buf)
  | tr_value w _ _ v i => at_element i (le_bytes w v)
  | tr_bit w _ _ v k i => at_element i (le_bytes w (default 0 (set_bit w (le_value (part old (Z.to_nat (es * i)) w)) v k)))
  | tr_bitmap _ _ v k i =>
      let p := Z.to_nat (es * i + k / 8) in (p, [default 0 (set_bit 1 (le_value (part old p 1)) v (k mod 8))])
  | tr_bitmap_all _ _ v i => at_element i (repeat (if v =? 0 then 0 else 0xff) (Z.to_nat es))
  | _ => (0%nat, [])
  end.

Definition op_key (op : trace_op) : option (domain_t * string) :=
  match op with
  | tr_raw d n _ _ | tr_value _ d n _ _ | tr_bit _ d n _ _ _ | tr_bitmap d n _ _ _ | tr_bitmap_buf d n _ _ | tr_bitmap_all d n _ _ => Some (d, n)
  | tr_capture _ _ | tr_write_row => None
  end.

Fixpoint find_decl (ds : list decl) (k : domain_t * string) : option decl :=
  match ds with
  | [] => None
  | x :: ds => if decide (decl_key x = k) then Some x else find_decl ds k
  end.

Definition spec_do (ds : list decl) (op : trace_op) (s : contents * list contents) : contents * list contents :=
  let '(F, rows) := s in
  match op with
  | tr_write_row => (fun k => match find_decl ds k with Some x => repeat 0 (Z.to_nat (decl_size x)) | None => [] end, rows ++ [F])
  | tr_capture d mem =>
      (fun k => match find_decl ds k with
                | Some x => match decl_ptr x with
                            | Some p => if decide (k.1 = d) then load mem p (decl_size x) else F k
                            | None => F k
                            end
                | None => F k
                end, rows)
  | _ =>
      (fun k => if decide (op_key op = Some k)
                then match find_decl ds k with Some x => let '(p, data) := stores x (F k) op in splice (F k) p data | None => F k end
                else F k, rows)
  end.

Definition spec_run (ds : list decl) (ops : list trace_op) (s : contents * list contents) : contents * list contents :=
  fold_left (fun s op => spec_do ds op s) ops s.

Definition zero_bytes (ds : list decl) : contents := fun k => match find_decl ds k with Some x => repeat 0 (Z.to_nat (decl_size x)) | None => [] end.

(** The contract: the signal is declared and not bound, the index and the type
    fit. *)
Definition op_fits (x : decl) (op : trace_op) : Prop :=
  let index_ok i := 0 <= i < decl_element_num x in
  match op with
  | tr_raw _ _ buf i | tr_bitmap_buf _ _ buf i => index_ok i /\ decl_element_size x <= Z.of_nat (length buf)
  | tr_value w _ _ _ i => index_ok i /\ decl_element_size x = Z.of_nat w
  | tr_bit w _ _ _ k i => index_ok i /\ decl_element_size x = Z.of_nat w /\ 0 <= k < decl_bitsize x /\ k < 32
  | tr_bitmap _ _ _ k i => index_ok i /\ 0 <= k < decl_bitsize x /\ k < 8 * decl_element_size x
  | tr_bitmap_all _ _ _ i => index_ok i
  | tr_capture _ _ | tr_write_row => True
  end.

Definition op_ok (ds : list decl) (op : trace_op) : Prop :=
  match op_key op with
  | Some k => exists x, x ∈ ds /\ decl_key x = k /\ decl_ptr x = None /\ op_fits x op
  | None => True
  end.

(** * The operations do what they mean *)

Lemma find_decl_ok ds x : decls_ok ds -> x ∈ ds -> find_decl ds (decl_key x) = Some x.
Proof.
  intros [Hn _]. induction ds as [|y ds IH]; intros Hx; [by apply not_elem_of_nil in Hx|]. cbn [find_decl fmap list_fmap] in *.
  apply list.NoDup_cons in Hn as [Hni Hn]. apply elem_of_cons in Hx as [->|Hx]; [by rewrite decide_True|].
  rewrite decide_False; [auto|]. intros E. apply Hni. rewrite E. by apply list_elem_of_fmap_2.
Qed.

Lemma decl_key_inj ds x y : decls_ok ds -> x ∈ ds -> y ∈ ds -> decl_key y = decl_key x -> y = x.
Proof.
  intros Hok Hx Hy E. pose proof (find_decl_ok ds x Hok Hx) as E1. pose proof (find_decl_ok ds y Hok Hy) as E2. rewrite E in E2. congruence.
Qed.

(** The row shows the contents [F]. *)
Definition shows (ds : list decl) (row : list Z) (F : contents) : Prop := forall x, x ∈ ds -> view ds row x = F (decl_key x).

Lemma part_part l o s p n : (p + n <= s)%nat -> part (part l o s) p n = part l (o + p) n.
Proof.
  intros H. apply list_eq. intros i. rewrite !part_lookup. destruct (decide (i < n)%nat); [|done]. rewrite decide_True by lia. f_equal. lia.
Qed.

Lemma mem_read_part row p n : 0 <= p -> 0 <= n -> p + n <= Z.of_nat (length row) -> mem_read row p n = Some (part row (Z.to_nat p) (Z.to_nat n)).
Proof.
  intros H1 H2 H3. unfold mem_read. destruct (Z.leb_spec 0 p); [|lia]. destruct (Z.leb_spec (p + n) (Z.of_nat (length row))); [|lia]. done.
Qed.

Lemma element_pos_ok ds x i : decls_ok ds -> x ∈ ds -> 0 <= i < decl_element_num x ->
  element_pos (field_of ds x) i = offset_in (ordered ds) (decl_key x) + decl_element_size x * i /\
  0 <= decl_element_size x * i /\ decl_element_size x * i + decl_element_size x <= decl_size x.
Proof.
  intros [_ Hk] Hx Hi. rewrite list.Forall_forall in Hk. destruct (Hk x Hx) as [_ _ He _ Hs _]. unfold is_u32, decl_size in *.
  assert (0 <= decl_element_size x * i /\ decl_element_size x * i + decl_element_size x <= decl_element_size x * decl_element_num x) as [H1 H2] by nia.
  split; [|done]. unfold element_pos. change (tf_element_size (field_of ds x)) with (decl_element_size x).
  change (tf_offset (field_of ds x)) with (offset_in (ordered ds) (decl_key x)).
  destruct (Z.eq_dec (decl_element_size x) 0) as [E|]; [rewrite E; done|]. by rewrite u32_small by lia.
Qed.

Lemma store_ok ds row rows t x F op p data :
  decls_ok ds -> tracing ds row rows t -> x ∈ ds -> shows ds row F -> op_key op = Some (decl_key x) ->
  0 <= p -> p + Z.of_nat (length data) <= decl_size x ->
  stores x (F (decl_key x)) op = (Z.to_nat p, data) ->
  exists row' t', row_write (offset_in (ordered ds) (decl_key x) + p) data t = Some t' /\ tracing ds row' rows t' /\
    forall s, shows ds row' (spec_do ds op (F, s)).1.
Proof.
  intros Hok T Hx HF Hop H0 Hl Hst. destruct (row_write_ok ds row rows t x p data Hok T Hx H0 Hl) as (row' & t' & E & T' & V & O).
  exists row', t'. split; [done|]. split; [done|]. intros s y Hy.
  assert ((spec_do ds op (F, s)).1 (decl_key y) =
          if decide (op_key op = Some (decl_key y))
          then match find_decl ds (decl_key y) with Some x => let '(p, data) := stores x (F (decl_key y)) op in splice (F (decl_key y)) p data | None => F (decl_key y) end
          else F (decl_key y)) as -> by (by destruct op).
  destruct (decide (decl_key y = decl_key x)) as [Ek|Nk].
  - assert (y = x) as -> by (by apply (decl_key_inj ds)).
    rewrite decide_True by done. rewrite find_decl_ok by done. by rewrite Hst, V, HF.
  - rewrite decide_False by (rewrite Hop; congruence). by rewrite O, HF.
Qed.

Lemma set_bit_total w x v k : 0 <= k < 32 -> exists r, set_bit w x v k = Some r.
Proof. intros Hk. unfold set_bit, int_mask. destruct (Z.ltb_spec k 32); [|lia]. by eexists. Qed.

(** ** Updates *)

Section update.
Context (ds : list decl) (row : list Z) (rows : list (list Z)) (t : trace_database) (F : contents) (x : decl).
Context (Hok : decls_ok ds) (T : tracing ds row rows t) (HF : shows ds row F) (Hx : x ∈ ds) (Hp : decl_ptr x = None).

Abbreviation d := (decl_key x).1.
Abbreviation n := (decl_key x).2.
Abbreviation es := (decl_element_size x).
Abbreviation index_ok i := (0 <= i < decl_element_num x).

(** The database [t'] after [op]. *)
Definition done_as (op : trace_op) (t' : trace_database) : Prop :=
  exists row', tracing ds row' rows t' /\ forall s, shows ds row' (spec_do ds op (F, s)).1.

Lemma field_found : find_field d n t = Some (field_of ds x).
Proof. by apply (find_field_ok ds row rows). Qed.

Lemma index_test i : index_ok i -> (i <? tf_element_num (field_of ds x)) = true.
Proof. intros Hi. apply Z.ltb_lt. apply Hi. Qed.

Lemma es_nonneg : 0 <= es.
Proof. destruct Hok as [_ Hk]. rewrite list.Forall_forall in Hk. apply (Hk x Hx). Qed.

Lemma op_stores op p data :
  op_key op = Some (decl_key x) -> 0 <= p -> p + Z.of_nat (length data) <= decl_size x ->
  stores x (F (decl_key x)) op = (Z.to_nat p, data) ->
  exists t', row_write (offset_in (ordered ds) (decl_key x) + p) data t = Some t' /\ done_as op t'.
Proof.
  intros H1 H2 H3 H4. destruct (store_ok ds row rows t x F op p data Hok T Hx HF H1 H2 H3 H4) as (row' & t' & E & R).
  exists t'. split; [done|]. by exists row'.
Qed.

Lemma key_eta : Some (d, n) = Some (decl_key x).
Proof. by destruct (decl_key x). Qed.

Lemma raw_ok buf i : index_ok i -> es <= Z.of_nat (length buf) ->
  exists t', update_signal_raw d n buf i t = Some t' /\ done_as (tr_raw d n buf i) t'.
Proof.
  intros Hi Hb. destruct (element_pos_ok ds x i Hok Hx Hi) as (Ep & Q1 & Q2). pose proof es_nonneg.
  unfold update_signal_raw. rewrite (tr_tracing _ _ _ _ T), field_found. mstep. rewrite index_test by done. mstep.
  change (tf_element_size (field_of ds x)) with es. rewrite mem_read_part by lia. mstep. rewrite Ep.
  apply op_stores; [apply key_eta|done|rewrite part_length; lia|done].
Qed.

Lemma value_ok w v i : index_ok i -> es = Z.of_nat w ->
  exists t', update_signal w d n v i t = Some t' /\ done_as (tr_value w d n v i) t'.
Proof.
  intros Hi Hw. destruct (laid_out_find ds x Hok Hx) as (j & Fj & Lj & Bj).
  unfold update_signal. rewrite (tr_tracing _ _ _ _ T), (tr_signals _ _ _ _ T), Bj. mstep. rewrite Fj. mstep. rewrite arr_get_lookup, Nat2Z.id, Lj by lia. mstep.
  change (tf_element_size (field_of ds x)) with es. rewrite (proj2 (Z.eqb_eq _ _) Hw). mstep.
  destruct (element_pos_ok ds x i Hok Hx Hi) as (Ep & Q1 & Q2).
  unfold update_signal_raw. rewrite (tr_tracing _ _ _ _ T), field_found. mstep. rewrite index_test by done. mstep.
  change (tf_element_size (field_of ds x)) with es. rewrite mem_read_part by (rewrite ?le_bytes_length; lia). mstep. rewrite Ep.
  assert (part (le_bytes w v) (Z.to_nat 0) (Z.to_nat es) = le_bytes w v) as ->.
  { apply firstn_all2. change (drop (Z.to_nat 0) (le_bytes w v)) with (le_bytes w v). rewrite le_bytes_length. lia. }
  apply op_stores; [apply key_eta|done|rewrite le_bytes_length; lia|done].
Qed.

(** The bytes before, in the row and in the signal. *)
Lemma old_bytes p k : 0 <= p -> p + Z.of_nat k <= decl_size x ->
  part row (Z.to_nat (offset_in (ordered ds) (decl_key x) + p)) k = part (F (decl_key x)) (Z.to_nat p) k.
Proof.
  intros H0 Hk. destruct (signal_place ds x Hok Hx) as (P1 & P2 & P3). rewrite <- HF by done. unfold view. rewrite part_part by lia.
  by rewrite Z2Nat.inj_add by lia.
Qed.

Lemma bit_ok w v k i : index_ok i -> es = Z.of_nat w -> 0 <= k < decl_bitsize x -> k < 32 ->
  exists t', update_signal_bit w d n v k i t = Some t' /\ done_as (tr_bit w d n v k i) t'.
Proof.
  intros Hi Hw Hb H32. destruct (element_pos_ok ds x i Hok Hx Hi) as (Ep & Q1 & Q2). destruct (signal_place ds x Hok Hx) as (P1 & P2 & P3).
  unfold update_signal_bit. rewrite (tr_tracing _ _ _ _ T), field_found. mstep. rewrite index_test by done. mstep.
  change (tf_element_size (field_of ds x)) with es. rewrite (proj2 (Z.eqb_eq _ _) Hw). mstep.
  change (tf_element_bitsize (field_of ds x)) with (decl_bitsize x). rewrite (proj2 (Z.ltb_lt _ _) (proj2 Hb)). mstep.
  rewrite (tr_row _ _ _ _ T). mstep. pose proof (tr_row_length _ _ _ _ T).
  rewrite Ep, mem_read_part, Nat2Z.id, old_bytes by lia. mstep.
  destruct (set_bit_total w (le_value (part (F (decl_key x)) (Z.to_nat (es * i)) w)) v k) as [r Er]; [lia|].
  rewrite Er. mstep. apply op_stores; [apply key_eta|done|rewrite le_bytes_length; lia|]. cbn [stores]. by rewrite Er.
Qed.

Lemma bitmap_ok v k i : index_ok i -> 0 <= k < decl_bitsize x -> k < 8 * es ->
  exists t', update_signal_bitmap d n v k i t = Some t' /\ done_as (tr_bitmap d n v k i) t'.
Proof.
  intros Hi Hb Hb8. destruct (element_pos_ok ds x i Hok Hx Hi) as (Ep & Q1 & Q2). destruct (signal_place ds x Hok Hx) as (P1 & P2 & P3).
  assert (0 <= k / 8 < es) as Hq by (split; [apply Z.div_pos; lia|apply Z.div_lt_upper_bound; lia]).
  unfold update_signal_bitmap. rewrite (tr_tracing _ _ _ _ T), field_found. mstep. rewrite index_test by done. mstep.
  change (tf_element_bitsize (field_of ds x)) with (decl_bitsize x). rewrite (proj2 (Z.ltb_lt _ _) (proj2 Hb)). mstep. cbv zeta.
  rewrite (tr_row _ _ _ _ T). mstep. pose proof (tr_row_length _ _ _ _ T).
  rewrite Ep, <- Z.add_assoc, mem_read_part by lia. change (Z.to_nat 1) with 1%nat. rewrite old_bytes by lia. mstep.
  destruct (set_bit_total 1 (le_value (part (F (decl_key x)) (Z.to_nat (es * i + k / 8)) 1)) v (k mod 8)) as [r Er];
    [pose proof (Z.mod_pos_bound k 8); lia|].
  rewrite Er. mstep. apply op_stores; [apply key_eta|lia|cbn [length]; lia|]. cbn [stores]. cbv zeta. by rewrite Er.
Qed.

Lemma bitmap_all_ok v i : index_ok i -> exists t', update_signal_bitmap_all d n v i t = Some t' /\ done_as (tr_bitmap_all d n v i) t'.
Proof.
  intros Hi. destruct (element_pos_ok ds x i Hok Hx Hi) as (Ep & Q1 & Q2). pose proof es_nonneg.
  unfold update_signal_bitmap_all. rewrite (tr_tracing _ _ _ _ T), field_found. mstep. rewrite index_test by done. mstep. rewrite Ep.
  apply op_stores; [apply key_eta|done|rewrite repeat_length|done]. change (tf_element_size (field_of ds x)) with es. lia.
Qed.
End update.

Lemma signal_update_ok ds row rows t F op k :
  decls_ok ds -> tracing ds row rows t -> shows ds row F -> op_key op = Some k -> op_ok ds op ->
  exists t', trace_do op t = Some t' /\ done_as ds rows F op t'.
Proof.
  intros Hok T HF Hk Hop. unfold op_ok in Hop. rewrite Hk in Hop. destruct Hop as (x & Hx & Hkx & Hp & Hfit). rewrite <- Hkx in Hk. clear k Hkx.
  destruct op as [d n buf i|w d n v i|w d n v b i|d n v b i|d n buf i|d n v i|d mem|]; try done;
    cbn [op_key] in Hk; injection Hk as Hkey; cbn [op_fits] in Hfit;
    replace d with ((decl_key x).1) by (by rewrite <- Hkey); replace n with ((decl_key x).2) by (by rewrite <- Hkey); cbn [trace_do].
  - apply (raw_ok ds row); by try apply Hfit.
  - apply (value_ok ds row); by try apply Hfit.
  - apply (bit_ok ds row); by try apply Hfit.
  - apply (bitmap_ok ds row); by try apply Hfit.
  - apply (raw_ok ds row); by try apply Hfit.
  - apply (bitmap_all_ok ds row); by try apply Hfit.
Qed.

(** ** Bound signals *)

Lemma c_string_bytes s z : Forall (fun b => b <> 0) (str_bytes s) -> c_string (str_bytes s ++ 0 :: z) = s.
Proof.
  induction s as [|c s IH]; intros H; [done|].
  change (str_bytes (String c s)) with (Z.of_N (N_of_ascii c) :: str_bytes s) in *. apply list.Forall_cons in H as [Hc H]. cbn [app c_string].
  destruct (Z.eqb_spec (Z.of_N (N_of_ascii c)) 0); [done|]. by rewrite N2Z.id, ascii_N_embedding, IH.
Qed.

Lemma field_name ds x : decl_ok x -> c_string (tf_name (field_of ds x)) = (decl_key x).2.
Proof.
  intros [Hl Ht _ _ _ _]. change (tf_name (field_of ds x)) with (char_array (FIELDNAME_LENGTH + 1) (decl_key x).2). unfold char_array.
  unfold FIELDNAME_LENGTH in *. rewrite resize_ge by (rewrite str_bytes_length; lia).
  destruct (Z.to_nat (255 + 1) - length (str_bytes (decl_key x).2))%nat as [|m] eqn:E; [rewrite str_bytes_length in E; lia|].
  cbn [replicate]. by apply c_string_bytes.
Qed.

Lemma load_length mem p k : length (load mem p k) = Z.to_nat k.
Proof. unfold load, upto. by rewrite !length_fmap, length_seq. Qed.

Lemma splice_all l data : length data = length l -> splice l 0 data = data.
Proof. intros H. unfold splice. rewrite take_0, drop_ge by lia. by rewrite app_nil_r. Qed.

(** The signals [l] of the domain, one after the other. *)
Lemma capture_loop_ok ds d mem l row rows t :
  decls_ok ds -> tracing ds row rows t -> NoDup (decl_key <$> l) -> Forall (fun x => x ∈ ds /\ (decl_key x).1 = d) l ->
  exists row' t', capture_loop mem (bind_list (laid_out ds d)) (field_of ds <$> l) t = Some t' /\ tracing ds row' rows t' /\
    forall y, y ∈ ds -> view ds row' y =
      match decl_ptr y with
      | Some p => if decide (decl_key y ∈ (decl_key <$> l)) then load mem p (decl_size y) else view ds row y
      | None => view ds row y
      end.
Proof.
  intros Hok T Hn Hl. revert row t T Hn. induction Hl as [|x l [Hx Hd] _ IH]; intros row t T Hn.
  { exists row, t. split; [done|]. split; [done|]. intros y _. destruct (decl_ptr y); [|done]. rewrite decide_False; [done|]. apply not_elem_of_nil. }
  cbn [fmap list_fmap] in Hn. apply list.NoDup_cons in Hn as [Hni Hn]. change (field_of ds <$> x :: l) with (field_of ds x :: (field_of ds <$> l)). cbn [capture_loop].
  destruct (laid_out_find ds x Hok Hx) as (_ & _ & _ & B). rewrite Hd in B. pose proof Hok as [_ Hk]. rewrite list.Forall_forall in Hk.
  rewrite (field_name ds x (Hk x Hx)), B. cbn [default from_option]. destruct (decl_ptr x) as [p|] eqn:Ep.
  - destruct (row_write_ok ds row rows t x 0 (load mem p (decl_size x)) Hok T Hx) as (row1 & t1 & E1 & T1 & V1 & O1); [lia|rewrite load_length; pose proof (signal_place ds x Hok Hx); lia|].
    rewrite Z.add_0_r in E1. change (tf_offset (field_of ds x)) with (offset_in (ordered ds) (decl_key x)).
    change (tf_size (field_of ds x)) with (decl_size x). unfold id. rewrite E1. mstep.
    destruct (IH row1 t1 T1 Hn) as (row' & t' & E & T' & V). exists row', t'. split; [done|]. split; [done|]. intros y Hy. rewrite (V y Hy).
    change (decl_key <$> x :: l) with (decl_key x :: (decl_key <$> l)).
    destruct (decide (decl_key y = decl_key x)) as [Ek|Nk].
    + assert (y = x) as -> by (by apply (decl_key_inj ds)).
      rewrite Ep. rewrite decide_False by done. rewrite decide_True by left. rewrite V1. apply splice_all. rewrite load_length. unfold view.
      rewrite part_length; [done|]. pose proof (signal_place ds x Hok Hx). pose proof (tr_row_length _ _ _ _ T). lia.
    + rewrite (O1 y Hy Nk). destruct (decl_ptr y); [|done]. destruct (decide (decl_key y ∈ (decl_key <$> l))) as [Hi|Hi].
      * by rewrite decide_True by (by right).
      * rewrite decide_False; [done|]. rewrite elem_of_cons. tauto.
  - unfold id. mstep. destruct (IH row t T Hn) as (row' & t' & E & T' & V). exists row', t'. split; [done|]. split; [done|]. intros y Hy. rewrite (V y Hy).
    destruct (decl_ptr y) eqn:Ey; [|done]. change (decl_key <$> x :: l) with (decl_key x :: (decl_key <$> l)).
    destruct (decide (decl_key y ∈ (decl_key <$> l))) as [Hi|Hi]; [by rewrite decide_True by (by right)|].
    rewrite decide_False; [done|]. rewrite elem_of_cons. intros [Ek|]; [|done].
    assert (y = x) as -> by (by apply (decl_key_inj ds)). congruence.
Qed.

Lemma laid_out_fields ds d : decls_ok ds -> fieldinfo_list (laid_out ds d) = field_of ds <$> in_domain d ds.
Proof.
  intros Hok. apply list_eq. intros i. rewrite list_lookup_fmap. destruct (in_domain d ds !! i) as [x|] eqn:E; cbn [fmap option_fmap option_map].
  - by apply laid_out_lookup.
  - apply lookup_ge_None_1 in E. apply lookup_ge_None_2. cbn [laid_out fieldinfo_list]. by rewrite place_length.
Qed.

Lemma capture_ok ds row rows t F d mem :
  decls_ok ds -> tracing ds row rows t -> shows ds row F ->
  exists t', capture d mem t = Some t' /\ done_as ds rows F (tr_capture d mem) t'.
Proof.
  intros Hok T HF. unfold capture. rewrite (tr_tracing _ _ _ _ T), (tr_signals _ _ _ _ T). cbv zeta. rewrite laid_out_fields by done.
  destruct (capture_loop_ok ds d mem (in_domain d ds) row rows t Hok T) as (row' & t' & E & T' & V).
  { destruct Hok as [Hn _]. apply (sublist_NoDup _ (decl_key <$> ds)); [done|]. apply fmap_sublist, sublist_filter. }
  { apply list.Forall_forall. intros x [Hd Hx]%in_domain_elem. done. }
  exists t'. split; [done|]. exists row'. split; [done|]. intros s y Hy. cbn [spec_do fst]. rewrite (V y Hy), find_decl_ok by done.
  destruct (decl_ptr y); [|by apply HF]. destruct (decide ((decl_key y).1 = d)) as [Ed|Nd].
  - rewrite decide_True; [done|]. by apply list_elem_of_fmap_2, in_domain_elem.
  - rewrite decide_False; [by apply HF|]. intros Hi. apply list_elem_of_fmap in Hi as (y1 & E1 & H1). apply in_domain_elem in H1 as [H1 _]. congruence.
Qed.

(** ** Rows *)

Lemma repeat_replicate {A} (x : A) n : repeat x n = replicate n x.
Proof. induction n as [|n IH]; cbn; [done|]. by rewrite IH. Qed.

Lemma part_zeros n o s : part (repeat 0 n) o s = repeat 0 (Nat.min s (n - o)).
Proof. unfold part. by rewrite !repeat_replicate, drop_replicate, take_replicate. Qed.

Lemma zeros_show ds : decls_ok ds -> shows ds (repeat 0 (Z.to_nat (total ds))) (zero_bytes ds).
Proof.
  intros Hok x Hx. unfold zero_bytes. rewrite find_decl_ok by done. unfold view. rewrite part_zeros. f_equal.
  pose proof (signal_place ds x Hok Hx). lia.
Qed.

Lemma write_row_ok ds row rows t :
  decls_ok ds -> 0 <= total ds -> tracing ds row rows t ->
  exists t', write_row t = Some t' /\ tracing ds (repeat 0 (Z.to_nat (total ds))) (rows ++ [row]) t'.
Proof.
  intros Hok H0 T. pose proof T as [T1 T2 T3 T4 T5 T6 T7 T8]. unfold write_row. rewrite T1, T3. mstep. rewrite T2, T6. mstep. cbv zeta.
  rewrite T5. cbn [trace_header th_row_size]. rewrite mem_read_part by lia. mstep.
  assert (part row (Z.to_nat 0) (Z.to_nat (total ds)) = row) as -> by (apply firstn_all2; cbn [drop]; change (drop (Z.to_nat 0) row) with row; lia).
  rewrite drop_ge, app_nil_r by lia. eexists. split; [reflexivity|]. split; try done.
  - rewrite repeat_length. lia.
  - change (fs_write (td_db t) row = file_of (meta_bytes ds ++ mjoin (rows ++ [row]))). rewrite T8. fold (file_of (meta_bytes ds ++ mjoin rows)).
    rewrite fs_write_end, join_app. cbn [mjoin list_join]. by rewrite app_nil_r, app_assoc.
Qed.

(** The database and its meaning agree. *)
Record agrees (ds : list decl) (t : trace_database) (s : contents * list contents) (rows : list (list Z)) : Prop := {
  ag_row : exists row, tracing ds row rows t /\ shows ds row s.1;
  ag_rows : Forall2 (shows ds) rows s.2;
  ag_sizes : Forall (fun r => Z.of_nat (length r) = total ds) rows
}.

Lemma trace_do_ok ds op t s rows :
  decls_ok ds -> 0 <= total ds -> op_ok ds op -> agrees ds t s rows ->
  exists t' rows', trace_do op t = Some t' /\ agrees ds t' (spec_do ds op s) rows'.
Proof.
  intros Hok H0 Hop [(row & T & HF) HR HL]. destruct s as [F R]. cbn [fst snd] in *. destruct (op_key op) as [k|] eqn:Hk.
  - destruct (signal_update_ok ds row rows t F op k Hok T HF Hk Hop) as (t' & E & row' & T' & S'). exists t', rows. split; [done|].
    split; [exists row'; split; [done|apply S']|by destruct op|done].
  - destruct op as [| | | | | |d mem|]; try done.
    + destruct (capture_ok ds row rows t F d mem Hok T HF) as (t' & E & row' & T' & S'). exists t', rows. split; [done|].
      split; [exists row'; split; [done|apply S']|done|done].
    + destruct (write_row_ok ds row rows t Hok H0 T) as (t' & E & T'). exists t', (rows ++ [row]). split; [done|]. split.
      * eexists. split; [done|]. by apply zeros_show.
      * apply Forall2_app; [done|]. by constructor.
      * apply Forall_app. split; [done|]. constructor; [|constructor]. apply (tr_row_length _ _ _ _ T).
Qed.

Lemma trace_run_ok ds ops t s rows :
  decls_ok ds -> 0 <= total ds -> Forall (op_ok ds) ops -> agrees ds t s rows ->
  exists t' rows', trace_run ops t = Some t' /\ agrees ds t' (spec_run ds ops s) rows'.
Proof.
  intros Hok H0 H. revert t s rows. induction H as [|op ops Hop _ IH]; intros t s rows A; [by exists t, rows|].
  destruct (trace_do_ok ds op t s rows Hok H0 Hop A) as (t1 & rows1 & E1 & A1). cbn [trace_run]. rewrite E1. mstep. by apply (IH t1 _ rows1).
Qed.

(** ** The file *)

Lemma layout_storable ds : trace_ok ds -> Forall storable (layout ds).
Proof.
  intros [Hok _ Ht]. apply list.Forall_forall. intros f Hf. destruct (ordered_ok ds Hok) as [Hn Ho].
  apply list_elem_of_lookup_1 in Hf as [i Hi]. unfold layout in Hi.
  assert (is_Some (ordered ds !! i)) as [x Hx] by (apply lookup_lt_is_Some; rewrite <- (place_length 0); by eapply lookup_lt_Some).
  pose proof (place_lookup 0 _ _ _ Hn Hx) as E. rewrite Hi in E. injection E as ->. rewrite list.Forall_forall in Ho.
  apply (list_elem_of_lookup_2 _ i) in Hx. assert (x ∈ ds) as Hxs by (by rewrite <- (ordered_perm ds)).
  pose proof (signal_place ds x Hok Hxs) as (P1 & P2 & P3). destruct (Ho x Hx) as [_ _ D1 D2 D3 D4]. split.
  - change (length (char_array (FIELDNAME_LENGTH + 1) (decl_key x).2) = Z.to_nat (FIELDNAME_LENGTH + 1)). unfold char_array. by rewrite length_resize.
  - change (is_u32 (0 + offset_in (ordered ds) (decl_key x))). unfold is_u32 in *. lia.
  - exact D3.
  - change (is_u32 (decl_bitsize x)). destruct x; cbn; [apply u32_range| |apply u32_range]. unfold is_u32. lia.
  - exact D1.
  - exact D2.
Qed.

Lemma read_trace_ok ds rows :
  trace_ok ds -> Forall (fun r => Z.of_nat (length r) = total ds) rows ->
  read_trace (meta_bytes ds ++ mjoin rows) = Some (trace_header ds, layout ds, rows).
Proof.
  intros Hok Hr. pose proof Hok as [Hd Hh Ht]. unfold read_trace.
  assert (storable (trace_header ds)) as Hs.
  { pose proof (in_domain_lengths ds). unfold sizeof_headerinfo, sizeof_fieldinfo, FIELDNAME_LENGTH in Hh.
    split; cbn [trace_header th_featurestr th_fieldinfo_num th_input_fieldinfo_num th_output_fieldinfo_num th_status_fieldinfo_num th_data_offset th_row_size];
      unfold is_u32, sizeof_headerinfo, sizeof_fieldinfo, FIELDNAME_LENGTH in *; try lia.
    unfold char_array. by rewrite length_resize. }
  assert (get (T := headerinfo_t) (meta_bytes ds ++ mjoin rows) = Some (trace_header ds, mjoin (put <$> layout ds) ++ mjoin rows)) as ->.
  { unfold meta_bytes. rewrite <- app_assoc. by apply get_put. }
  mstep. cbn [trace_header th_featurestr th_fieldinfo_num]. rewrite bool_decide_true by done. mstep.
  rewrite Nat2Z.id. replace (length ds) with (length (layout ds)) by (unfold layout; rewrite place_length; apply Permutation_length, ordered_perm).
  rewrite get_many_put by (by apply layout_storable). mstep. cbv zeta. fold (trace_header ds). do 2 f_equal.
  change (sizeof_headerinfo + sizeof_fieldinfo * Z.of_nat (length ds)) with (th_data_offset (trace_header ds)).
  rewrite <- meta_length, Nat2Z.id, drop_app_length by done. cbn [trace_header th_row_size]. apply pieces_join.
  - lia.
  - apply (list.Forall_impl _ _ _ Hr). intros r E. lia.
  - apply Nat.lt_succ_r. clear -Hr Ht. induction Hr as [|r rows E _ IH]; [done|].
    change (mjoin (r :: rows)) with (r ++ mjoin rows). rewrite length_app. cbn [length]. lia.
Qed.

(** C40: what the trace says is what happened.  A database is opened, signals are
    declared, and then it takes updates, captures of bound variables and ends of
    rows in any order; as long as the calls fit the declarations, no assertion
    is tripped, and a reader of the file finds the declared signals, next to each
    other in the row, and one row for every [write_row], in which each signal has the
    bytes that the calls since the row before gave it, or zeros. *)
Theorem trace_reads_back ds ops t :
  trace_ok ds -> Forall (op_ok ds) ops -> td_is_enabled t = true ->
  exists t' rows, (t ← trace_start ds t; trace_run ops t) = Some t' /\
    read_trace (fs_data (td_db t')) = Some (trace_header ds, layout ds, rows) /\
    Forall2 (fun row F => forall i x, ordered ds !! i = Some x ->
               exists f, layout ds !! i = Some f /\ c_string (tf_name f) = (decl_key x).2 /\
                 tf_offset f = total (take i (ordered ds)) /\ tf_size f = decl_size x /\
                 part row (Z.to_nat (tf_offset f)) (Z.to_nat (tf_size f)) = F (decl_key x))
      rows (spec_run ds ops (zero_bytes ds, [])).2.
Proof.
  intros Hok Hops He. pose proof Hok as [Hd _ Ht]. destruct (trace_start_ok ds t Hok He) as (t1 & -> & T1). mstep.
  destruct (trace_run_ok ds ops t1 (zero_bytes ds, []) [] Hd) as (t' & rows & E & [(row & T & _) HR HL]); [lia|done| |].
  { split; [|constructor|constructor]. eexists. split; [done|]. by apply zeros_show. }
  exists t', rows. split; [done|]. rewrite (tr_file _ _ _ _ T). cbn [fs_data]. split; [by apply read_trace_ok|].
  destruct (ordered_ok ds Hd) as [Hn Ho]. apply (Forall2_impl _ _ _ _ HR). intros r F HF i x Hx. exists (field_of ds x).
  assert (x ∈ ds) as Hxs by (rewrite <- (ordered_perm ds); by apply (list_elem_of_lookup_2 _ i)).
  split_and!; [exact (place_lookup 0 _ _ _ Hn Hx)| | |done|by apply HF].
  - apply field_name. destruct Hd as [_ Hd]. rewrite list.Forall_forall in Hd. by apply Hd.
  - exact (proj1 (offset_bounds _ _ _ Hn Ho Hx)).
Qed.

(** * Single bits *)

Lemma set_bit_testbit w x v k i :
  0 <= k < 31 \/ k = 31 /\ (w <= 4)%nat -> 0 <= x < 2 ^ (8 * Z.of_nat w) -> k < 8 * Z.of_nat w -> 0 <= i ->
  exists r, set_bit w x v k = Some r /\ Z.testbit r i = if decide (i = k) then Z.odd v else Z.testbit x i.
Proof.
  intros Hk Hx Hkw Hi. unfold set_bit, int_mask. destruct (Z.ltb_spec k 32); [|lia]. mstep. eexists. split; [reflexivity|].
  assert (forall j, 0 <= j -> Z.testbit (Z.shiftl (Z.land v 1) k) j = if decide (j = k) then Z.odd v else false) as Hs.
  { intros j Hj. rewrite Z.shiftl_spec, Z.land_spec by lia. destruct (decide (j = k)) as [->|Hne].
    - rewrite Z.sub_diag. change (Z.testbit 1 0) with true. by rewrite andb_true_r, Z.bit0_odd.
    - destruct (Z.lt_ge_cases j k); [by rewrite (Z.testbit_neg_r v) by lia|].
      replace (Z.testbit 1 (j - k)) with false; [by rewrite andb_false_r|]. symmetry. apply Z.bits_above_log2; cbn; lia. }
  destruct (Z.lt_ge_cases i (8 * Z.of_nat w)) as [Hlt|Hge].
  - rewrite Z.mod_pow2_bits_low by lia. rewrite Z.lor_spec, Z.land_spec, Hs by lia. destruct (decide (i = k)) as [->|Hne].
    + destruct (Z.ltb_spec k 31).
      * rewrite Z.lnot_spec, Z.pow2_bits_true by lia. by rewrite andb_false_r.
      * replace k with 31 by lia. change (Z.testbit (2 ^ 31 - 1) 31) with false. by rewrite andb_false_r.
    + rewrite orb_false_r. destruct (Z.ltb_spec k 31).
      * rewrite Z.lnot_spec, Z.pow2_bits_false by lia. by rewrite andb_true_r.
      * replace (2 ^ 31 - 1) with (Z.ones 31) by done. rewrite Z.ones_spec_low by lia. by rewrite andb_true_r.
  - rewrite Z.mod_pow2_bits_high by lia. rewrite decide_False by lia. symmetry. apply (testbit_high (8 * Z.of_nat w)); lia.
Qed.

(** Single bits.  [update_signal_bit] changes the bit it names and no other,
    for bits below 31, and for bit 31 of types of up to four bytes.  In a type of
    eight bytes bit 31 clears the upper half, and the higher bits cannot be set; and
    because [mark_signal] takes the number of elements for their size, a signal of
    one element accepts eight bits only, whatever its type. *)
Theorem trace_bits w x v k :
  0 <= x < 2 ^ (8 * Z.of_nat w) -> 0 <= k < 8 * Z.of_nat w ->
  (k < 31 \/ k = 31 /\ (w <= 4)%nat ->
   exists r, set_bit w x v k = Some r /\ forall i, 0 <= i -> Z.testbit r i = if decide (i = k) then Z.odd v else Z.testbit x i) /\
  (k = 31 -> w = 8%nat -> set_bit w x v k = Some (x mod 2 ^ 31 + Z.b2z (Z.odd v) * 2 ^ 31)) /\
  (32 <= k -> set_bit w x v k = None) /\
  (forall ds row rows t y, decls_ok ds -> tracing ds row rows t -> y ∈ ds -> decl_ptr y = None ->
   match y with decl_signal _ _ _ 1 => True | _ => False end -> 8 <= k ->
   update_signal_bit w (decl_key y).1 (decl_key y).2 v k 0 t = None).
Proof.
  intros Hx Hk. split; [|split; [|split]].
  - intros Hk31. destruct (set_bit_testbit w x v k 0) as (r & E & _); [lia..|]. exists r. split; [done|]. intros i Hi.
    destruct (set_bit_testbit w x v k i) as (r' & E' & H); [lia..|]. rewrite E in E'. by injection E' as <-.
  - intros -> ->. unfold set_bit, int_mask. change (31 <? 32) with true. change (31 <? 31) with false. mstep. f_equal.
    change (2 ^ 31 - 1) with (Z.ones 31). rewrite Z.land_ones by lia. change 1 with (Z.ones 1) at 1. rewrite Z.land_ones by lia.
    rewrite <- Z.bit0_mod, Z.bit0_odd. rewrite lor_shiftl_add by (try apply Z.mod_pos_bound; lia).
    apply Z.mod_small. pose proof (Z.mod_pos_bound x (2 ^ 31)). change (8 * Z.of_nat 8) with 64. destruct (Z.odd v); cbn [Z.b2z]; lia.
  - intros H32. unfold set_bit, int_mask. by destruct (Z.ltb_spec k 32); [lia|].
  - intros ds row rows t y Hok T Hy Hp H1 Hk8. unfold update_signal_bit. rewrite (tr_tracing _ _ _ _ T).
    rewrite (find_field_ok ds row rows t y Hok T Hy Hp). mstep. destruct y as [d n es num| |]; try done.
    assert (num = 1) as -> by (destruct num as [|[]|]; done).
    change (tf_element_num (field_of ds (decl_signal d n es 1))) with 1. change (0 <? 1) with true. mstep.
    destruct (_ =? _); [|done]. mstep. change (tf_element_bitsize (field_of ds (decl_signal d n es 1))) with 8.
    by destruct (Z.ltb_spec k 8); [lia|].
Qed.

(** ** A small database *)

Definition trace_demo : list decl :=
  [decl_signal dom_input "pc" 4 2; decl_bitmap dom_output "valid" 12 1; decl_bind dom_status "count" 100 2 1].

Definition trace_demo_ops : list trace_op :=
  [tr_value 4 dom_input "pc" 0x80000004 1; tr_capture dom_status (fun a => a - 90); tr_bitmap dom_output "valid" 1 9 0; tr_write_row;
   tr_bitmap_all dom_output "valid" 1 0; tr_write_row].

Lemma trace_demo_ok : trace_ok trace_demo /\ Forall (op_ok trace_demo) trace_demo_ops.
Proof.
  split; [split; [split|..]|].
  - apply (bool_decide_unpack _). vm_compute. exact I.
  - repeat (apply List.Forall_cons; [split; cbn; unfold is_u32, decl_size, FIELDNAME_LENGTH; cbn; try lia; repeat (constructor; try done)|]). constructor.
  - vm_compute. reflexivity.
  - split; vm_compute; reflexivity.
  - assert (op_ok trace_demo (tr_value 4 dom_input "pc" 0x80000004 1)) as H1.
    { exists (decl_signal dom_input "pc" 4 2). split_and!; [left|done|done|cbn; lia]. }
    assert (op_ok trace_demo (tr_bitmap dom_output "valid" 1 9 0)) as H2.
    { exists (decl_bitmap dom_output "valid" 12 1). split_and!; [right; left|done|done|repeat split; vm_compute; (reflexivity || discriminate)]. }
    assert (op_ok trace_demo (tr_bitmap_all dom_output "valid" 1 0)) as H3.
    { exists (decl_bitmap dom_output "valid" 12 1). split_and!; [right; left|done|done|repeat split; vm_compute; (reflexivity || discriminate)]. }
    by repeat (apply List.Forall_cons; [assumption || exact I|]).
Qed.

Lemma trace_reads_back_witness :
  exists t rows, (t ← trace_start trace_demo (trace_new true); trace_run trace_demo_ops t) = Some t /\
    read_trace (fs_data (td_db t)) = Some (trace_header trace_demo, layout trace_demo, rows) /\
    rows = [[0; 0; 0; 0; 4; 0; 0; 128; 0; 2; 10; 11]; [0; 0; 0; 0; 0; 0; 0; 0; 255; 255; 0; 0]].
Proof.
  destruct (trace_reads_back trace_demo trace_demo_ops (trace_new true) (proj1 trace_demo_ok) (proj2 trace_demo_ok) eq_refl) as (t & rows & E & R & _).
  exists t, rows. split; [exact E|]. split; [exact R|].
  assert ((t ← (t ← trace_start trace_demo (trace_new true); trace_run trace_demo_ops t); r ← read_trace (fs_data (td_db t)); Some r.2) =
    Some [[0; 0; 0; 0; 4; 0; 0; 128; 0; 2; 10; 11]; [0; 0; 0; 0; 0; 0; 0; 0; 255; 255; 0; 0]]) as H by (vm_compute; reflexivity).
  rewrite E in H. cbn [mbind option_bind] in H. rewrite R in H. cbn in H. by injection H.
Defined.

Lemma trace_bits_witness : set_bit 8 (2 ^ 40 + 5) 0 31 = Some 5 /\ set_bit 4 5 1 31 = Some (2 ^ 31 + 5).
Proof.
  split.
  - exact (proj1 (proj2 (trace_bits 8 (2 ^ 40 + 5) 0 31 ltac:(cbn; lia) ltac:(lia))) eq_refl eq_refl).
  - destruct (proj1 (trace_bits 4 5 1 31 ltac:(cbn; lia) ltac:(lia)) (or_intror (conj eq_refl (le_n 4)))) as (r & E & _).
    rewrite E. vm_compute in E. by injection E as <-.
Defined.
