(* ===== verification/Text.v ===== *)
(** What the remote control of [top_source/main.cpp] uses of the text streams
    of the standard library: words ([stream >> t] for a string), numbers
    ([stream >> n] for a [uint32_t], in base 10 and 16) and their output. *)

From Stdlib Require Import ZArith Lia Ascii String.
From stdpp Require Import base numbers list option tactics.
From S2P Require Import Prelude.

Local Open Scope Z_scope.

(** A [std::string]. *)
Definition text : Type := list ascii.

Definition str (s : string) : text := list_ascii_of_string s.

#[export] Instance ascii_eq_dec : EqDecision ascii := ascii_dec.

Definition code (c : ascii) : Z := Z.of_N (N_of_ascii c).
Definition chr (n : Z) : ascii := ascii_of_N (Z.to_N n).

Lemma code_chr n : 0 <= n < 256 -> code (chr n) = n.
Proof. intros H. unfold code, chr. rewrite N_ascii_embedding by lia. lia. Qed.

Lemma chr_code c : chr (code c) = c.
Proof. unfold code, chr. rewrite N2Z.id. apply ascii_N_embedding. Qed.

Lemma code_range c : 0 <= code c < 256.
Proof. unfold code. pose proof (N_ascii_bounded c). lia. Qed.

(** * Words *)

(** [isspace] of the C locale. *)
Definition is_space (c : ascii) : bool := (code c =? 32) || ((9 <=? code c) && (code c <=? 13)).

Fixpoint skip_spaces (s : text) : text :=
  match s with
  | [] => []
  | c :: s' => if is_space c then skip_spaces s' else s
  end.

Fixpoint take_word (s : text) : text * text :=
  match s with
  | [] => ([], [])
  | c :: s' => if is_space c then ([], s) else let '(w, r) := take_word s' in (c :: w, r)
  end.

(** [stream >> t], from an empty [t]: the word, what is left, and [eof()]. *)
Definition get_word (s : text) : text * text * bool :=
  match skip_spaces s with
  | [] => ([], [], true)
  | s => let '(w, r) := take_word s in (w, r, bool_decide (r = []))
  end.

(** [while(!stream.eof()) { std::string t; stream >> t; list.push_back(t); }]:
    every iteration but the last takes a character, so that the length is enough
    fuel. *)
Fixpoint get_words_loop (fuel : nat) (s : text) : option (list text) :=
  match fuel with
  | O => None
  | S fuel =>
      let '(w, r, eof) := get_word s in
      if (eof : bool) then Some [w] else l ← get_words_loop fuel r; Some (w :: l)
  end.

Definition get_words (s : text) : option (list text) := get_words_loop (S (length s)) s.

(** * Numbers *)

Definition digit_of (base : Z) (c : ascii) : option Z :=
  let n := code c in
  let d := if (48 <=? n) && (n <=? 57) then n - 48
           else if (97 <=? n) && (n <=? 102) then n - 87
           else if (65 <=? n) && (n <=? 70) then n - 55
           else base in
  if d <? base then Some d else None.

Fixpoint read_digits (base acc : Z) (s : text) : Z :=
  match s with
  | [] => acc
  | c :: s => match digit_of base c with Some d => read_digits base (acc * base + d) s | None => acc end
  end.

Definition read_sign (s : text) : bool * text :=
  match s with
  | c :: s' => if code c =? 45 then (true, s') else if code c =? 43 then (false, s') else (false, s)
  | [] => (false, s)
  end.

(** ["0x"] *)
Definition read_prefix (base : Z) (s : text) : text :=
  match s with
  | c :: x :: s' => if (base =? 16) && (code c =? 48) && ((code x =? 120) || (code x =? 88)) then s' else s
  | _ => s
  end.

(** [stream >> n] for a [uint32_t]: no digits give 0, too large a number the
    largest one. *)
Definition read_uint32 (base : Z) (s : text) : Z :=
  let '(negative, s) := read_sign (skip_spaces s) in
  let v := read_digits base 0 (read_prefix base s) in
  if 2 ^ 32 <=? v then 2 ^ 32 - 1 else if negative then u32 (- v) else v.

Definition digit_char (upper : bool) (d : Z) : ascii :=
  chr (if d <? 10 then 48 + d else (if upper then 55 else 87) + d).

(** [stream << n]; 64 digits are enough for 64 bits in any base. *)
Fixpoint print_digits (fuel : nat) (base : Z) (upper : bool) (n : Z) (acc : text) : text :=
  match fuel with
  | O => acc
  | S fuel =>
      let acc := digit_char upper (n mod base) :: acc in
      if n <? base then acc else print_digits fuel base upper (n / base) acc
  end.

Definition print_uint (base : Z) (upper : bool) (n : Z) : text := print_digits 64 base upper n [].

(** * What is read is what was written *)

Lemma digit_char_of upper base d : 0 <= d < base -> base <= 16 -> digit_of base (digit_char upper d) = Some d.
Proof.
  intros Hd Hb. unfold digit_of, digit_char. assert (0 <= (if d <? 10 then 48 + d else (if upper then 55 else 87) + d) < 256) as H.
  { destruct (Z.ltb_spec d 10), upper; lia. }
  rewrite code_chr by done. clear H. destruct (Z.ltb_spec d 10), upper;
    repeat match goal with |- context [?a <=? ?b] => destruct (Z.leb_spec a b); try lia end; cbn [andb];
    match goal with |- context [?a <? ?b] => destruct (Z.ltb_spec a b); [f_equal; lia|lia] end.
Qed.

Lemma print_digits_read fuel base upper n acc a rest :
  2 <= base <= 16 -> 0 <= n < base ^ Z.of_nat fuel -> (0 < fuel)%nat ->
  exists k, 0 <= k /\ read_digits base a (print_digits fuel base upper n acc ++ rest) = read_digits base (a * base ^ k + n) (acc ++ rest).
Proof.
  intros Hb. revert n acc. induction fuel as [|fuel IH]; intros n acc Hn Hf; [lia|]. cbn [print_digits].
  rewrite Nat2Z.inj_succ, Z.pow_succ_r in Hn by lia.
  destruct (Z.ltb_spec n base) as [Hlt|Hge].
  - exists 1. split; [lia|]. cbn [app read_digits]. rewrite Z.mod_small, digit_char_of by lia. by rewrite Z.pow_1_r.
  - assert (fuel <> 0%nat) by (intros ->; cbn in Hn; lia).
    destruct (IH (n / base) (digit_char upper (n mod base) :: acc)) as (k & Hk & E); [|lia|].
    { split; [apply Z.div_pos; lia|]. apply Z.div_lt_upper_bound; lia. }
    exists (k + 1). split; [lia|]. rewrite E. cbn [app read_digits]. pose proof (Z.mod_pos_bound n base).
    rewrite digit_char_of by lia. rewrite Z.pow_add_r, Z.pow_1_r by lia. f_equal. pose proof (Z.div_mod n base). lia.
Qed.

(** The characters of a number. *)
Definition is_digit (c : ascii) : Prop := 48 <= code c <= 57 \/ 65 <= code c <= 70 \/ 97 <= code c <= 102.

Lemma digit_char_digit upper d : 0 <= d < 16 -> is_digit (digit_char upper d).
Proof.
  intros Hd. unfold is_digit, digit_char. rewrite code_chr by (destruct (Z.ltb_spec d 10), upper; lia).
  destruct (Z.ltb_spec d 10), upper; lia.
Qed.

Lemma print_digits_digit fuel base upper n acc :
  2 <= base <= 16 -> Forall is_digit acc -> Forall is_digit (print_digits fuel base upper n acc).
Proof.
  intros Hb. revert n acc. induction fuel as [|fuel IH]; intros n acc Ha; cbn [print_digits]; [done|].
  pose proof (Z.mod_pos_bound n base). assert (Forall is_digit (digit_char upper (n mod base) :: acc)).
  { constructor; [apply digit_char_digit; lia|done]. }
  destruct (n <? base); [done|by apply IH].
Qed.

Lemma print_uint_digit base upper n : 2 <= base <= 16 -> Forall is_digit (print_uint base upper n).
Proof. intros Hb. by apply print_digits_digit. Qed.

Lemma print_digits_cons fuel base upper n acc : (0 < fuel)%nat -> print_digits fuel base upper n acc <> [].
Proof.
  revert n acc. induction fuel as [|fuel IH]; intros n acc Hf; [lia|]. cbn [print_digits].
  destruct (n <? base); [done|]. destruct fuel; [done|]. apply IH. lia.
Qed.

Lemma digit_not_space c : is_digit c -> is_space c = false.
Proof. unfold is_digit, is_space. intros H. bcase; try lia; done. Qed.

Lemma read_plain base s : Forall is_digit s -> read_prefix base (snd (read_sign (skip_spaces s))) = s /\ fst (read_sign (skip_spaces s)) = false.
Proof.
  intros Hs. destruct s as [|c s]; [done|]. apply list.Forall_cons in Hs as [Hc Hs]. cbn [skip_spaces]. rewrite digit_not_space by done.
  unfold read_sign. assert ((code c =? 45) = false) as -> by (unfold is_digit in Hc; bcase; lia || done).
  assert ((code c =? 43) = false) as -> by (unfold is_digit in Hc; bcase; lia || done). split; [|done]. cbn [snd read_prefix].
  destruct s as [|x s]; [done|]. apply list.Forall_cons in Hs as [Hx _].
  assert ((code x =? 120) || (code x =? 88) = false) as -> by (unfold is_digit in Hx; bcase; lia || done). by rewrite andb_false_r.
Qed.

(** A number that was printed is read back. *)
Lemma read_print base upper n : 2 <= base <= 16 -> 0 <= n < 2 ^ 32 -> read_uint32 base (print_uint base upper n) = n.
Proof.
  intros Hb Hn. unfold read_uint32. destruct (read_plain base _ (print_uint_digit base upper n Hb)) as [Hp Hs].
  destruct (read_sign _) as [neg s]. cbn [fst snd] in Hp, Hs. rewrite Hs. cbv zeta. rewrite Hp.
  destruct (print_digits_read 64 base upper n [] 0 [] Hb) as (k & _ & E); [|lia|].
  { split; [lia|]. apply (Z.lt_le_trans _ (2 ^ 64)); [lia|]. apply Z.pow_le_mono_l. lia. }
  change (print_digits 64 base upper n []) with (print_uint base upper n) in E. rewrite !app_nil_r in E. rewrite E. cbn [read_digits]. rewrite Z.mul_0_l, Z.add_0_l.
  destruct (Z.leb_spec (2 ^ 32) n); [lia|done].
Qed.

(** * Words *)

Definition is_word (w : text) : Prop := w <> [] /\ Forall (fun c => is_space c = false) w.

Definition blank : ascii := " "%char.

(** Words with a blank between them. *)
Fixpoint join (ws : list text) : text :=
  match ws with
  | [] => []
  | [w] => w
  | w :: ws => w ++ blank :: join ws
  end.

Lemma take_word_app w r : Forall (fun c => is_space c = false) w -> (r = [] \/ exists c r', r = c :: r' /\ is_space c = true) -> take_word (w ++ r) = (w, r).
Proof.
  intros Hw Hr. induction Hw as [|c w Hc _ IH]; cbn [app take_word].
  - destruct Hr as [->|(c & r' & -> & Hc)]; [done|]. cbn [take_word]. by rewrite Hc.
  - by rewrite Hc, IH.
Qed.

Lemma get_word_app w r : is_word w -> (r = [] \/ exists c r', r = c :: r' /\ is_space c = true) -> get_word (w ++ r) = (w, r, bool_decide (r = [])).
Proof.
  intros [Hne Hw] Hr. unfold get_word. destruct w as [|c w]; [done|]. pose proof Hw as Hc. apply list.Forall_cons in Hc as [Hc _].
  cbn [app skip_spaces]. rewrite Hc. change (c :: w ++ r) with ((c :: w) ++ r). by rewrite take_word_app.
Qed.

Lemma get_word_blank s : get_word (blank :: s) = get_word s.
Proof. done. Qed.

Lemma get_words_loop_blank fuel s : get_words_loop fuel (blank :: s) = get_words_loop fuel s.
Proof. by destruct fuel. Qed.

(** Words come back as they were; a blank at the end gives one more, empty. *)
Lemma get_words_loop_join ws fuel tail :
  Forall is_word ws -> ws <> [] -> (length (join ws) < fuel)%nat -> (tail = [] \/ tail = [blank]) ->
  get_words_loop fuel (join ws ++ tail) = Some (ws ++ (if decide (tail = []) then [] else [[]])).
Proof.
  intros Hws. revert fuel. induction Hws as [|w ws Hw Hws IH]; intros fuel Hne Hf Ht; [done|].
  destruct fuel as [|fuel]; [lia|]. destruct ws as [|w2 ws].
  - cbn [join get_words_loop]. rewrite get_word_app; [|done|destruct Ht as [->| ->]; [by left|right; by exists blank, []]].
    destruct Ht as [->| ->]; [done|]. cbn [bool_decide decide]. rewrite get_words_loop_blank.
    assert (fuel <> 0%nat) as Hf0. { cbn in Hf. destruct Hw as [Hn _]. destruct w; [done|cbn in Hf; lia]. }
    destruct fuel; [done|]. done.
  - change (join (w :: w2 :: ws)) with (w ++ blank :: join (w2 :: ws)) in *. rewrite <- app_assoc. cbn [app get_words_loop].
    rewrite get_word_app; [|done|right; by eexists blank, _]. rewrite bool_decide_false by done. rewrite get_words_loop_blank.
    rewrite IH; [done|done| |done]. rewrite length_app in Hf. cbn [length] in Hf. lia.
Qed.

Lemma get_words_join ws tail :
  Forall is_word ws -> ws <> [] -> (tail = [] \/ tail = [blank]) ->
  get_words (join ws ++ tail) = Some (ws ++ (if decide (tail = []) then [] else [[]])).
Proof. intros Hws Hne Ht. apply get_words_loop_join; try done. rewrite length_app. lia. Qed.

(** The words are always found. *)
Lemma skip_spaces_length s : (length (skip_spaces s) <= length s)%nat.
Proof. induction s as [|c s IH]; cbn; [lia|]. destruct (is_space c); cbn; lia. Qed.

Lemma take_word_length s : (length (take_word s).2 <= length s)%nat.
Proof.
  induction s as [|c s IH]; cbn [take_word length]; [done|]. destruct (is_space c); [done|].
  destruct (take_word s) as [w r]. cbn [snd] in *. lia.
Qed.

Lemma skip_spaces_head s c r : skip_spaces s = c :: r -> is_space c = false.
Proof. induction s as [|x s IH]; cbn; [done|]. destruct (is_space x) eqn:E; [done|]. by intros [= <- _]. Qed.

Lemma get_word_shorter s w r : get_word s = (w, r, false) -> (length r < length s)%nat.
Proof.
  unfold get_word. pose proof (skip_spaces_length s) as Hs. destruct (skip_spaces s) as [|c s'] eqn:E; [done|].
  apply skip_spaces_head in E. cbn [take_word]. rewrite E. pose proof (take_word_length s') as Ht.
  destruct (take_word s') as [w' r']. cbn in *. intros [= _ <- _]. lia.
Qed.

Lemma get_words_loop_total fuel s : (length s < fuel)%nat -> exists ws, get_words_loop fuel s = Some ws.
Proof.
  revert s. induction fuel as [|fuel IH]; intros s Hf; [lia|]. cbn [get_words_loop].
  destruct (get_word s) as [[w r] eof] eqn:E. destruct eof; [by eexists|]. apply get_word_shorter in E.
  destruct (IH r) as [ws ->]; [lia|]. by eexists.
Qed.

Lemma get_words_total s : exists ws, get_words s = Some ws.
Proof. apply get_words_loop_total. lia. Qed.
