(* ===== verification/CsrInfo.v ===== *)
(** The text the remote control gives of the registers: the names the classes of
    [component/csr/] are created with, [csr_out_list_cmp] and [get_info_packet] of
    [component/csrfile.h].  The hash table is read in any order and [std::sort]
    leaves the order of equivalent names open; the text depends on neither. *)

From Stdlib Require Import ZArith Lia Ascii String.
From stdpp Require Import base numbers list option tactics gmap sorting.
From S2P Require Import Prelude CsrFile Text.

Local Open Scope Z_scope.

(** * Names *)

(** [CSR_BRANCHNUM] .. [CSR_FNF] *)
Definition counter_names : list string :=
  ["branchnum"; "branchpredicted"; "branchhit"; "branchmiss"; "fd"; "dr"; "iq"; "ie"; "cb"; "rob"; "phy"; "ras"; "fnf"]%string.

Definition counter_name (addr : Z) : text :=
  let name i := str (default ""%string (counter_names !! Z.to_nat i)) in
  if addr <? CSR_BRANCHNUMH then name (addr - CSR_BRANCHNUM) else name (addr - CSR_BRANCHNUMH) ++ str "h".

(** [get_name()] of the register of a class that [init] maps at an address. *)
Definition csr_name (addr : Z) (k : csr_kind) : text :=
  match k with
  | mvendorid => str "mvendorid" | marchid => str "marchid" | mimpid => str "mimpid" | mhartid => str "mhartid"
  | mconfigptr => str "mconfigptr" | mstatus => str "mstatus" | misa => str "misa" | mie => str "mie" | mtvec => str "mtvec"
  | mcounteren => str "mcounteren" | mstatush => str "mstatush" | mscratch => str "mscratch" | mepc => str "mepc"
  | mcause => str "mcause" | mtval => str "mtval" | mip => str "mip" | charfifo => str "charfifo" | finish => str "finish"
  | mcycle => str "mcycle" | minstret => str "minstret" | mcycleh => str "mcycleh" | minstreth => str "minstreth"
  | mhpmcounter | mhpmcounterh => counter_name addr
  | pmpcfg => str "pmpcfg" ++ print_uint 10 false (addr - 0x3A0)
  | pmpaddr => str "pmpaddr" ++ print_uint 10 false (addr - 0x3B0)
  end.

(** * The order of the names *)

Definition isdigit (c : ascii) : bool := (48 <=? code c) && (code c <=? 57).

(** [operator<] of [std::string] *)
Fixpoint text_lt (a b : text) : bool :=
  match a, b with
  | _, [] => false
  | [], _ :: _ => true
  | x :: a, y :: b => (code x <? code y) || ((code x =? code y) && text_lt a b)
  end.

(** The loop from the last character down: where the digits at the end start. *)
Fixpoint digits_index (s : text) (i index : nat) : nat :=
  match s !! i with
  | Some c => if isdigit c then match i with O => i | S i' => digits_index s i' i end else index
  | None => index
  end.

(** [stream >> n] for an [int], of digits. *)
Definition read_int (s : text) : Z := Z.min (read_digits 10 0 s) (2 ^ 31 - 1).

(** Defined for names that are not empty. *)
Definition csr_out_list_cmp (a b : text) : bool :=
  let ends_in_digit s := match s !! (length s - 1)%nat with Some c => isdigit c | None => false end in
  if ends_in_digit a && ends_in_digit b then
    let a_index := digits_index a (length a - 1) 0 in
    let b_index := digits_index b (length b - 1) 0 in
    let '(a_left, a_right) := (take a_index a, drop a_index a) in
    let '(b_left, b_right) := (take b_index b, drop b_index b) in
    text_lt a_left b_left || (bool_decide (a_left = b_left) && (read_int a_right <? read_int b_right))
  else text_lt a b.

(** * The text *)

(** What [std::sort] promises: the elements, none before one that is smaller. *)
Definition sorted_by {A} (lt : A -> A -> bool) : list A -> Prop := StronglySorted (fun a b => lt b a = false).

Fixpoint sort_insert {A} (lt : A -> A -> bool) (x : A) (l : list A) : list A :=
  match l with
  | [] => [x]
  | y :: l => if lt y x then y :: sort_insert lt x l else x :: y :: l
  end.

Definition sort {A} (lt : A -> A -> bool) (l : list A) : list A := foldr (sort_insert lt) [] l.

Definition entry_lt (a b : text * text) : bool := csr_out_list_cmp (fst a) (fst b).

Definition out_list (f : csrfile) (table : list (Z * csr_item_t)) : list (text * text) :=
  (fun '(addr, it) => (csr_name addr (csr_class (csr it)), print_uint 16 true (csrfile_item_read f it))) <$> table.

(** [iter != out_list.end()] holds in every iteration. *)
Fixpoint info_text (l : list (text * text)) : text :=
  match l with
  | [] => []
  | (name, value) :: l => name ++ ":"%char :: value ++ ","%char :: info_text l
  end.

Definition get_info_packet (f : csrfile) : text := info_text (sort entry_lt (out_list f (map_to_list (csr_map_table f)))).

(** * Sorting *)

Lemma sort_insert_perm {A} (lt : A -> A -> bool) x l : sort_insert lt x l ≡ₚ x :: l.
Proof. induction l as [|y l IH]; cbn; [done|]. case_match; [|done]. rewrite IH. apply Permutation_swap. Qed.

Lemma sort_perm {A} (lt : A -> A -> bool) l : sort lt l ≡ₚ l.
Proof. induction l as [|x l IH]; cbn [sort foldr]; [done|]. fold (sort lt l). by rewrite sort_insert_perm, IH. Qed.

Section sorting.
Context {A : Type} (lt : A -> A -> bool) (pos : A -> nat).

(** A comparison that is the one of the positions of its arguments. *)
Definition positions (l : list A) : Prop := forall a b, a ∈ l -> b ∈ l -> lt a b = (pos a <? pos b)%nat.

Lemma positions_incl l1 l2 : (forall a, a ∈ l2 -> a ∈ l1) -> positions l1 -> positions l2.
Proof. intros E H a b Ha Hb. apply H; by apply E. Qed.

Lemma sort_insert_sorted x l : positions (x :: l) -> sorted_by lt l -> sorted_by lt (sort_insert lt x l).
Proof.
  induction l as [|y l IH]; intros Hp Hs; cbn [sort_insert]; [repeat constructor|].
  apply StronglySorted_inv in Hs as [Hs Hy]. rewrite (Hp y x) by set_solver. destruct (Nat.ltb_spec (pos y) (pos x)) as [E|E].
  - constructor; [apply IH; [|done]; apply (positions_incl (x :: y :: l)); [intros a; rewrite !elem_of_cons; tauto|done]|].
    apply list.Forall_forall. intros z Hz. rewrite sort_insert_perm in Hz. apply elem_of_cons in Hz as [->|Hz].
    + rewrite Hp by set_solver. apply Nat.ltb_ge. lia.
    + rewrite list.Forall_forall in Hy. by apply Hy.
  - constructor; [by constructor|]. constructor; [rewrite Hp by set_solver; by apply Nat.ltb_ge|].
    rewrite list.Forall_forall in Hy |- *. intros z Hz. specialize (Hy z Hz). rewrite Hp in Hy |- * by set_solver.
    apply Nat.ltb_ge in Hy. apply Nat.ltb_ge. lia.
Qed.

Lemma sort_sorted l : positions l -> sorted_by lt (sort lt l).
Proof.
  induction l as [|x l IH]; intros Hp; cbn [sort foldr]; [constructor|]. fold (sort lt l). apply sort_insert_sorted.
  - apply (positions_incl (x :: l)); [intros a; by rewrite sort_perm|done].
  - apply IH. apply (positions_incl (x :: l)); [by right|done].
Qed.

(** When no two elements have the same position there is one sorted list. *)
Lemma sorted_unique l1 l2 :
  positions l1 -> (forall a b, a ∈ l1 -> b ∈ l1 -> pos a = pos b -> a = b) -> sorted_by lt l1 -> sorted_by lt l2 -> l1 ≡ₚ l2 -> l1 = l2.
Proof.
  intros Hp Hi H1 H2 E. apply (StronglySorted_unique_strong (fun a b => lt b a = false)); [|done..].
  intros a b Ha Hb Hab Hba. rewrite <- E in Hb. apply Hi; [done..|]. rewrite Hp in Hab, Hba by done.
  apply Nat.ltb_ge in Hab, Hba. lia.
Qed.

Lemma sorted_strict l :
  positions l -> NoDup l -> (forall a b, a ∈ l -> b ∈ l -> pos a = pos b -> a = b) -> sorted_by lt l -> StronglySorted (fun a b => lt a b = true) l.
Proof.
  induction l as [|x l IH]; intros Hp Hn Hi Hs; [constructor|]. apply StronglySorted_inv in Hs as [Hs Hx]. apply NoDup_cons in Hn as [Hx' Hn].
  constructor; [apply IH; [apply (positions_incl (x :: l)); [by right|done]|done|intros a b Ha Hb; apply Hi; by right|done]|].
  rewrite list.Forall_forall in Hx |- *. intros y Hy. specialize (Hx y Hy). rewrite Hp in Hx |- * by set_solver.
  apply Nat.ltb_ge in Hx. apply Nat.ltb_lt. destruct (decide (pos x = pos y)) as [E|]; [|lia].
  apply Hi in E as ->; [done|by left|by right].
Qed.

End sorting.

(** * The names of the register file *)

Definition names (table : list (Z * csr_item_t)) : list text := (fun '(addr, it) => csr_name addr (csr_class (csr it))) <$> table.

Definition init_names : list text := names (map_to_list csrfile_init_table).

(** The comparison of the elements of a list is that of their indices. *)
Definition in_order (l : list text) : bool :=
  let il := imap pair l in
  forallb (fun '(i, a) => forallb (fun '(j, b) => eqb (csr_out_list_cmp a b) (i <? j)%nat) il) il.

Lemma in_order_spec l i j a b :
  in_order l = true -> l !! i = Some a -> l !! j = Some b -> csr_out_list_cmp a b = (i <? j)%nat.
Proof.
  intros H Ha Hb. unfold in_order in H. rewrite forallb_forall in H.
  assert (forall k c, l !! k = Some c -> In (k, c) (imap pair l)) as Hin.
  { intros k c Hk. apply list_elem_of_In, (list_elem_of_lookup_2 _ k). by rewrite list_lookup_imap, Hk. }
  specialize (H _ (Hin i a Ha)). cbn beta in H. rewrite forallb_forall in H. specialize (H _ (Hin j b Hb)). by apply eqb_prop.
Qed.

Lemma init_names_in_order : in_order (sort csr_out_list_cmp init_names) = true.
Proof. vm_compute. reflexivity. Qed.

(** The comparison is a strict total order of the names. *)
Lemma name_positions :
  NoDup init_names /\
  exists pos, positions csr_out_list_cmp pos init_names /\ (forall a b, a ∈ init_names -> b ∈ init_names -> pos a = pos b -> a = b).
Proof.
  pose proof init_names_in_order as H. pose proof (sort_perm csr_out_list_cmp init_names) as E.
  revert H E. generalize (sort csr_out_list_cmp init_names) as l. generalize init_names as l0. intros l0 l H E. split.
  { rewrite <- E. apply NoDup_alt. intros i j a Hi Hj. pose proof (in_order_spec l i j a a H Hi Hj) as H1.
    rewrite (in_order_spec l j i a a H Hj Hi) in H1. destruct (Nat.ltb_spec i j), (Nat.ltb_spec j i); done || lia. }
  exists (fun a => default 0%nat (fst <$> list_find (fun b => b = a) l)).
  assert (forall a, a ∈ l0 -> l !! default 0%nat (fst <$> list_find (fun b => b = a) l) = Some a) as Hpos.
  { intros a Ha. rewrite <- E in Ha. destruct (list_find_elem_of (fun b => b = a) l a Ha eq_refl) as [[i b] Hi]. rewrite Hi. cbn.
    apply list_find_Some in Hi as (Hl & -> & _). exact Hl. }
  split.
  - intros a b Ha Hb. by apply (in_order_spec l); [|apply Hpos..].
  - intros a b Ha Hb Hab. apply (inj Some). by rewrite <- (Hpos a Ha), <- (Hpos b Hb), Hab.
Qed.

Lemma same_registers_names f g :
  same_registers f g -> names (map_to_list (csr_map_table f)) ≡ₚ names (map_to_list (csr_map_table g)).
Proof.
  intros H. set (k := fun it : csr_item_t => csr_class (csr it)).
  assert (forall t : gmap Z csr_item_t, names (map_to_list t) = (fun '(addr, c) => csr_name addr c) <$> (prod_map id k <$> map_to_list t)) as E.
  { intros t. unfold names. generalize (map_to_list t) as l. induction l as [|[addr it] l IH]; [done|]. cbn [fmap list_fmap]. f_equal. exact IH. }
  rewrite !E. apply fmap_Permutation. rewrite <- !map_to_list_fmap.
  assert (k <$> csr_map_table f = k <$> csr_map_table g) as ->; [|done].
  apply map_eq. intros addr. rewrite !lookup_fmap. specialize (H addr).
  subst k. destruct (csr_map_table f !! addr), (csr_map_table g !! addr); cbn in *; congruence.
Qed.

(** * Reading the text *)

Fixpoint split_at (sep : ascii) (s : text) : list text :=
  match s with
  | [] => [[]]
  | c :: s =>
      if decide (c = sep) then [] :: split_at sep s
      else match split_at sep s with w :: ws => (c :: w) :: ws | [] => [[c]] end
  end.

Definition read_entry (w : text) : option (text * Z) :=
  match split_at ":"%char w with
  | [name; value] => Some (name, read_uint32 16 value)
  | _ => None
  end.

(** The entries between the commas; there is none after the last comma. *)
Definition read_packet (s : text) : list (text * Z) := omap read_entry (split_at ","%char s).

Definition without (sep : ascii) (w : text) : Prop := Forall (fun c => c <> sep) w.

Lemma split_at_plain sep w : without sep w -> split_at sep w = [w].
Proof.
  induction w as [|c w IH]; intros H; cbn [split_at]; [done|]. apply list.Forall_cons in H as [Hc H]. by rewrite decide_False, IH.
Qed.

Lemma split_at_app sep w s : without sep w -> split_at sep (w ++ sep :: s) = w :: split_at sep s.
Proof.
  induction w as [|c w IH]; intros H; cbn [split_at app]; [by rewrite decide_True|].
  apply list.Forall_cons in H as [Hc H]. by rewrite decide_False, IH.
Qed.

Lemma hex_without sep v : sep = ":"%char \/ sep = ","%char -> without sep (print_uint 16 true v).
Proof.
  intros Hs. apply (list.Forall_impl _ _ _ (print_uint_digit 16 true v ltac:(lia))). intros c Hc ->.
  unfold is_digit in Hc. destruct Hs as [-> | ->]; cbv in Hc; intuition discriminate.
Qed.

Definition plain (name : text) : Prop := without ":"%char name /\ without ","%char name.

Lemma read_info_text (l : list (text * Z)) :
  Forall (fun e => plain (fst e) /\ is_u32 (snd e)) l ->
  read_packet (info_text ((fun e => (fst e, print_uint 16 true (snd e))) <$> l)) = l.
Proof.
  unfold read_packet. induction l as [|[name v] l IH]; intros H; [done|]. apply list.Forall_cons in H as [[[Hn1 Hn2] Hv] H].
  cbn [fmap list_fmap info_text fst snd] in *. rewrite app_comm_cons, app_assoc, split_at_app.
  - change (omap read_entry (?a :: ?b)) with (match read_entry a with Some y => y :: omap read_entry b | None => omap read_entry b end).
    unfold read_entry at 1. rewrite split_at_app, split_at_plain by (done || apply hex_without; tauto).
    rewrite read_print by (unfold is_u32 in Hv; lia). f_equal. apply IH, H.
  - apply list.Forall_app. split; [done|]. constructor; [discriminate|]. apply hex_without. tauto.
Qed.

Definition plainb (name : text) : bool := forallb (fun c => negb (bool_decide (c = ":"%char)) && negb (bool_decide (c = ","%char))) name.

Lemma plainb_spec name : plainb name = true -> plain name.
Proof.
  unfold plainb. rewrite forallb_forall. intros H. split; apply list.Forall_forall; intros c Hc ->; apply list_elem_of_In, H in Hc; discriminate Hc.
Qed.

Lemma init_names_plain : forallb plainb init_names = true.
Proof. vm_compute. reflexivity. Qed.

(** * Registers hold 32 bits *)

Definition request_u32 (r : csr_sync_request) : Prop :=
  match r with csr_req_write _ v | csr_req_write_sys _ v => is_u32 v end.

Definition values_u32 (f : csrfile) : Prop := map_Forall (fun _ it => is_u32 (csr_value (csr it))) (csr_map_table f).

Lemma csr_filter_u32 k v : is_u32 v -> is_u32 (csr_filter k v).
Proof.
  intros Hv. rewrite csr_filter_mask by done. apply (land_range 32); [lia|done|]. by destruct k.
Qed.

Lemma item_write_u32 f addr it value f' :
  values_u32 f -> is_u32 value -> csrfile_item_write f addr it value = Some f' -> values_u32 f'.
Proof.
  unfold csrfile_item_write. intros Hf Hv E. case_decide as Hk.
  - apply bind_Some in E as ([v fs] & Ev & E). simplify_eq. apply map_Forall_insert_2; [|done]. cbn.
    unfold charfifo_filter in Ev. repeat case_match; simplify_eq; unfold is_u32; lia.
  - simplify_eq. apply map_Forall_insert_2; [|done]. by apply csr_filter_u32.
Qed.

Lemma sync_loop_u32 reqs f f' : values_u32 f -> Forall request_u32 reqs -> csrfile_sync_loop f reqs = Some f' -> values_u32 f'.
Proof.
  revert f. induction reqs as [|t reqs IH]; intros f Hf Hr E; cbn [csrfile_sync_loop] in E; [by simplify_eq|].
  apply list.Forall_cons in Hr as [Ht Hr]. apply bind_Some in E as (f1 & E1 & E). apply (IH f1); [|done..]. clear IH E.
  destruct t; cbn [csrfile_sync_one] in E1; unfold csrfile_write, csrfile_write_sys in E1.
  - case_match; cbn in E1; [by simplify_eq|]. apply bind_Some in E1 as ([ok f2] & E2 & E3).
    apply bind_Some in E2 as (it & _ & E2). apply bind_Some in E2 as (f3 & E2 & E4). simplify_eq. cbn in E3. simplify_eq.
    by eapply item_write_u32 in E2.
  - apply bind_Some in E1 as (it & _ & E1). by eapply item_write_u32 in E1.
Qed.

Lemma item_read_u32 f addr it : values_u32 f -> csr_map_table f !! addr = Some it -> is_u32 (csrfile_item_read f it).
Proof.
  intros Hf Hit. unfold csrfile_item_read. case_decide; [|by apply (Hf addr)]. unfold charfifo_read. case_match; [unfold is_u32; lia|].
  apply (lor_range 32); [lia|lia|apply u32_range].
Qed.

Lemma init_u32 : forallb (fun '(_, it) => (0 <=? csr_value (csr it)) && (csr_value (csr it) <? 2 ^ 32)) (map_to_list csrfile_init_table) = true.
Proof. vm_compute. reflexivity. Qed.

(** The register file of the core after some deferred writes. *)
Definition register_file (f : csrfile) : Prop :=
  names (map_to_list (csr_map_table f)) ≡ₚ init_names /\ values_u32 f.

Lemma register_file_sync fs f0 reqs f :
  csrfile_init fs = Some f0 -> Forall request_u32 reqs -> csrfile_sync_loop f0 reqs = Some f -> register_file f.
Proof.
  intros Hi Hr E. destruct (csrfile_init_spec fs) as (f0' & Hi' & Ht). rewrite Hi in Hi'. injection Hi' as <-. split.
  - rewrite (same_registers_names f f0) by (by eapply csrfile_sync_loop_same). by rewrite Ht.
  - apply (sync_loop_u32 reqs f0); [|done..]. unfold values_u32. rewrite Ht. intros addr it Hit.
    pose proof init_u32 as H. rewrite forallb_forall in H. apply elem_of_map_to_list, list_elem_of_In in Hit.
    specialize (H _ Hit). cbn beta in H. apply andb_true_iff in H as [H1 H2]. unfold is_u32. lia.
Qed.

(** * The text of the register file *)

(** Name and value of every register. *)
Definition registers (f : csrfile) (table : list (Z * csr_item_t)) : list (text * Z) :=
  (fun '(addr, it) => (csr_name addr (csr_class (csr it)), csrfile_item_read f it)) <$> table.

Definition print_entry (e : text * Z) : text * text := (fst e, print_uint 16 true (snd e)).

Lemma out_list_registers f table : out_list f table = print_entry <$> registers f table.
Proof. unfold out_list, registers. rewrite <- list_fmap_compose. apply list_fmap_ext. by intros i [addr it] _. Qed.

Lemma out_list_names f table : (out_list f table).*1 = names table.
Proof. unfold out_list, names. rewrite <- list_fmap_compose. apply list_fmap_ext. by intros i [addr it] _. Qed.

Lemma fst_inj_on {A B} (l : list (A * B)) a b : NoDup l.*1 -> a ∈ l -> b ∈ l -> fst a = fst b -> a = b.
Proof.
  intros Hn Ha Hb E. apply list_elem_of_lookup in Ha as [i Hi], Hb as [j Hj].
  assert (i = j) as <- by (apply (NoDup_lookup l.*1 i j (fst a)); [done|by rewrite list_lookup_fmap, Hi|by rewrite list_lookup_fmap, Hj, E]).
  congruence.
Qed.

Lemma out_list_positions f table :
  register_file f -> table ≡ₚ map_to_list (csr_map_table f) ->
  NoDup (out_list f table) /\
  exists pos, positions entry_lt pos (out_list f table) /\ (forall a b, a ∈ out_list f table -> b ∈ out_list f table -> pos a = pos b -> a = b).
Proof.
  intros [Hf _] Ht. destruct name_positions as (Hn & pos & Hp & Hi).
  assert ((out_list f table).*1 ≡ₚ init_names) as E by (rewrite out_list_names, <- Hf; by apply fmap_Permutation).
  assert (forall e, e ∈ out_list f table -> fst e ∈ init_names) as Hin by (intros e He; rewrite <- E; by apply list_elem_of_fmap_2).
  rewrite <- E in Hn. split; [by apply (NoDup_fmap_1 fst)|]. exists (fun e => pos (fst e)). split.
  - intros a b Ha Hb. apply Hp; by apply Hin.
  - intros a b Ha Hb Hab. apply (fst_inj_on (out_list f table)); [done..|]. apply Hi; [by apply Hin..|done].
Qed.

(** Whatever the order of the table and the algorithm, the list is the same. *)
Lemma out_list_sort f table l :
  register_file f -> table ≡ₚ map_to_list (csr_map_table f) -> l ≡ₚ out_list f table -> sorted_by entry_lt l ->
  l = sort entry_lt (out_list f (map_to_list (csr_map_table f))).
Proof.
  intros Hf Ht Hl Hs. destruct (out_list_positions f _ Hf (reflexivity (map_to_list (csr_map_table f)))) as (_ & pos & Hp & Hi).
  assert (l ≡ₚ out_list f (map_to_list (csr_map_table f))) as E by (rewrite Hl; by apply fmap_Permutation).
  apply (sorted_unique entry_lt pos).
  - apply (positions_incl _ pos (out_list f (map_to_list (csr_map_table f)))); [intros a; by rewrite E|done].
  - intros a b. rewrite E. apply Hi.
  - done.
  - by apply (sort_sorted _ pos).
  - by rewrite sort_perm.
Qed.

(** The list as the registers in the order of their names. *)
Lemma sorted_registers f :
  register_file f ->
  exists entries, sort entry_lt (out_list f (map_to_list (csr_map_table f))) = print_entry <$> entries /\
    entries ≡ₚ registers f (map_to_list (csr_map_table f)) /\ StronglySorted (fun a b => csr_out_list_cmp a b = true) entries.*1.
Proof.
  intros Hf. destruct (out_list_positions f _ Hf (reflexivity _)) as (Hn & pos & Hp & Hi).
  set (L := out_list f (map_to_list (csr_map_table f))) in *.
  assert (StronglySorted (fun a b => entry_lt a b = true) (sort entry_lt L)) as Hs.
  { apply (sorted_strict entry_lt pos); [|by rewrite sort_perm|intros a b; rewrite sort_perm; apply Hi|by apply (sort_sorted _ pos)].
    apply (positions_incl _ pos L); [intros a; by rewrite sort_perm|done]. }
  destruct (Permutation_map_inv print_entry (registers f (map_to_list (csr_map_table f))) (l1 := sort entry_lt L)) as (entries & E & Hperm).
  { rewrite sort_perm. unfold L. by rewrite out_list_registers. }
  change (map print_entry entries) with (print_entry <$> entries) in E. exists entries. split; [done|]. split; [by symmetry|].
  rewrite E in Hs. clear -Hs. induction entries as [|e entries IH]; [constructor|]. cbn [fmap list_fmap] in *.
  apply StronglySorted_inv in Hs as [Hs He]. constructor; [by apply IH|]. rewrite list.Forall_fmap in He. by rewrite list.Forall_fmap.
Qed.

Lemma registers_plain f :
  register_file f -> Forall (fun e => plain (fst e) /\ is_u32 (snd e)) (registers f (map_to_list (csr_map_table f))).
Proof.
  intros [Hf Hv]. apply list.Forall_forall. intros e He. apply list_elem_of_fmap in He as ([addr it] & -> & Hit). split; cbn [fst snd].
  - pose proof (proj1 (forallb_forall _ _) init_names_plain) as H. apply plainb_spec, H.
    apply (Permutation_in _ Hf), list_elem_of_In, list_elem_of_fmap. by exists (addr, it).
  - apply elem_of_map_to_list in Hit. by apply (item_read_u32 _ addr).
Qed.

(** A register file after three writes. *)
Definition csr_demo_info : csrfile := default csr_demo_file (csrfile_sync_loop csr_demo_file csr_demo_reqs).

Lemma csr_demo_init : csrfile_init (mk_char_fifos [] []) = Some csr_demo_file.
Proof. vm_compute. reflexivity. Qed.

Lemma csr_demo_sync : csrfile_sync_loop csr_demo_file csr_demo_reqs = Some csr_demo_info.
Proof. vm_compute. reflexivity. Qed.

Lemma csr_demo_sorted : sorted_by entry_lt (sort entry_lt (out_list csr_demo_info (map_to_list (csr_map_table csr_demo_info)))).
Proof.
  assert (register_file csr_demo_info) as Hf.
  { apply (register_file_sync (mk_char_fifos [] []) csr_demo_file csr_demo_reqs); [exact csr_demo_init| |exact csr_demo_sync].
    repeat constructor; unfold is_u32; cbn; lia. }
  destruct (out_list_positions _ _ Hf (reflexivity _)) as (_ & pos & Hp & _). exact (sort_sorted _ pos _ Hp).
Qed.

(** C37: the answer to [read_csr]: after any deferred writes of 32-bit values, and in
    whatever order the hash table is read and the sort proceeds, the text is the same,
    and a reader that splits it at the commas and colons gets the name and the value of
    every register once, in the strict order of the names that [csr_out_list_cmp] is. *)
Theorem csr_info_packet_reads fs f0 reqs f table l :
  csrfile_init fs = Some f0 -> Forall request_u32 reqs -> csrfile_sync_loop f0 reqs = Some f ->
  table ≡ₚ map_to_list (csr_map_table f) -> l ≡ₚ out_list f table -> sorted_by entry_lt l ->
  info_text l = get_info_packet f /\
  exists entries, read_packet (get_info_packet f) = entries /\
    entries ≡ₚ registers f (map_to_list (csr_map_table f)) /\ StronglySorted (fun a b => csr_out_list_cmp a b = true) entries.*1.
Proof.
  intros Hi Hr E Ht Hl Hs. pose proof (register_file_sync fs f0 reqs f Hi Hr E) as Hf. unfold get_info_packet. split.
  { f_equal. by apply (out_list_sort f table). }
  destruct (sorted_registers f Hf) as (entries & -> & Hp & Ho). exists entries. split; [|exact (conj Hp Ho)]. apply read_info_text. rewrite Hp.
  by apply registers_plain.
Qed.

Lemma csr_info_packet_reads_witness :
  info_text (sort entry_lt (out_list csr_demo_info (map_to_list (csr_map_table csr_demo_info)))) = get_info_packet csr_demo_info /\
  exists entries, read_packet (get_info_packet csr_demo_info) = entries /\
    entries ≡ₚ registers csr_demo_info (map_to_list (csr_map_table csr_demo_info)) /\
    StronglySorted (fun a b => csr_out_list_cmp a b = true) entries.*1.
Proof.
  apply (csr_info_packet_reads (mk_char_fifos [] []) csr_demo_file csr_demo_reqs csr_demo_info (map_to_list (csr_map_table csr_demo_info))).
  - exact csr_demo_init.
  - repeat constructor; unfold is_u32; cbn; lia.
  - exact csr_demo_sync.
  - reflexivity.
  - apply sort_perm.
  - exact csr_demo_sorted.
Defined.
