(* ===== verification/Receive.v ===== *)
(** The messages of the remote control as they travel over the connection:
    [send_cmd_result] and [tcp_server_thread_receive_entry] of
    [top_source/main.cpp].  A message is its length in four bytes and its
    characters; the receiver gets them in pieces of any size. *)

From Stdlib Require Import ZArith Lia Ascii String.
From stdpp Require Import base numbers list option tactics.
From S2P Require Import Prelude Text.

Local Open Scope Z_scope.

(** * Numbers in memory *)

(** A [uint32_t] in memory, lowest byte first, and what it reads as. *)
Fixpoint le_write (k : nat) (n : Z) : text :=
  match k with
  | O => []
  | S k => chr (n mod 256) :: le_write k (n / 256)
  end.

Fixpoint le_read (l : text) : Z :=
  match l with
  | [] => 0
  | c :: l => code c + 256 * le_read l
  end.

(** [memcpy] to a position of a buffer. *)
Definition buffer_write (buf : text) (pos : Z) (data : text) : text :=
  take (Z.to_nat pos) buf ++ data ++ drop (Z.to_nat pos + length data) buf.

(** [resize] of a string. *)
Definition str_resize (s : text) (n : Z) : text := resize (Z.to_nat n) (chr 0) s.

(** * The two ends *)

Definition send_cmd_result (result : text) : text := le_write 4 (u32 (Z.of_nat (length result))) ++ result.

(** The variables of the receiving thread; [rc_payload]: [packet_payload] is not
    [nullptr], that is, it points into [rev_str]. *)
Record receiver := mk_receiver {
  rc_length : Z;
  rc_rev_length : Z;
  rc_payload : bool;
  rc_packet_length : text;
  rc_rev_str : text
}.

#[export] Instance receiver_eta : Eta receiver := fun r =>
  mk_receiver (rc_length r) (rc_rev_length r) (rc_payload r) (rc_packet_length r) (rc_rev_str r).

(** [mem]: what the array [packet_length] holds. *)
Definition receiver_new (mem : text) : receiver := mk_receiver 0 0 false mem [].

(** The size of the buffer [soc.receive] is given. *)
Definition receive_room (r : receiver) : Z :=
  if rc_payload r then rc_length r - rc_rev_length r else 4 - rc_rev_length r.

(** One iteration, [data] being what [soc.receive] put into the buffer; the
    message when there is one. *)
Definition receive_step (data : text) (r : receiver) : option text * receiver :=
  if negb (rc_payload r) then
    let r := r <| rc_packet_length := buffer_write (rc_packet_length r) (rc_rev_length r) data |>
               <| rc_rev_length ::= fun n => n + Z.of_nat (length data) |> in
    if rc_rev_length r =? 4 then
      let n := le_read (rc_packet_length r) in
      (None, r <| rc_length := n |> <| rc_rev_str ::= fun s => str_resize s n |> <| rc_payload := true |> <| rc_rev_length := 0 |>)
    else (None, r)
  else
    let r := r <| rc_rev_str := buffer_write (rc_rev_str r) (rc_rev_length r) data |>
               <| rc_rev_length ::= fun n => n + Z.of_nat (length data) |> in
    if rc_rev_length r =? rc_length r then
      (Some (rc_rev_str r), r <| rc_payload := false |> <| rc_rev_length := 0 |>)
    else (None, r).

(** [soc.receive]: at least one byte when the buffer has room and not more than
    that; the network decides how many, here as the numbers [sizes].  With
    nothing to come the call does not return. *)
Definition receive_count (size room : Z) (stream : text) : nat :=
  Z.to_nat (Z.min (Z.max 1 size) (Z.min room (Z.of_nat (length stream)))).

Fixpoint receive_loop (sizes : list Z) (stream : text) (r : receiver) : list text * text * receiver :=
  match sizes with
  | [] => ([], stream, r)
  | size :: sizes =>
      if (0 <? receive_room r) && bool_decide (stream = []) then ([], stream, r)
      else
        let k := receive_count size (receive_room r) stream in
        let '(m, r) := receive_step (take k stream) r in
        let '(ms, stream, r) := receive_loop sizes (drop k stream) r in
        (match m with Some m => m :: ms | None => ms end, stream, r)
  end.

(** * Frames *)

Lemma le_write_length k n : length (le_write k n) = k.
Proof. revert n. induction k as [|k IH]; intros n; cbn [le_write length]; [done|]. by rewrite IH. Qed.

Lemma le_read_write k n : 0 <= n < 256 ^ Z.of_nat k -> le_read (le_write k n) = n.
Proof.
  revert n. induction k as [|k IH]; intros n Hn; cbn [le_write le_read]; [change (256 ^ Z.of_nat 0) with 1 in Hn; lia|].
  rewrite Nat2Z.inj_succ, Z.pow_succ_r in Hn by lia. pose proof (Z.mod_pos_bound n 256).
  rewrite code_chr, IH by (lia || (split; [apply Z.div_pos; lia|apply Z.div_lt_upper_bound; lia])).
  pose proof (Z.div_mod n 256). lia.
Qed.

Lemma le_write_read l : le_write (length l) (le_read l) = l.
Proof.
  induction l as [|c l IH]; cbn [length le_write le_read]; [done|]. pose proof (code_range c).
  replace (code c + 256 * le_read l) with (le_read l * 256 + code c) by lia.
  rewrite Z.div_add_l, (Z.div_small (code c)), Z.add_0_r, IH by lia.
  f_equal. rewrite Z.add_comm, Z.mod_add, Z.mod_small by lia. apply chr_code.
Qed.

Lemma le_read_range l : 0 <= le_read l < 256 ^ Z.of_nat (length l).
Proof.
  induction l as [|c l IH]; cbn [length le_read]; [change (256 ^ Z.of_nat 0) with 1; lia|].
  rewrite Nat2Z.inj_succ, Z.pow_succ_r by lia. pose proof (code_range c). lia.
Qed.

(** A message whose length a [uint32_t] holds. *)
Definition sendable (m : text) : Prop := Z.of_nat (length m) < 2 ^ 32.

Lemma frame_head m : sendable m -> take 4 (send_cmd_result m) = le_write 4 (Z.of_nat (length m)) /\ drop 4 (send_cmd_result m) = m.
Proof.
  intros Hm. unfold send_cmd_result. rewrite u32_small by (unfold sendable in Hm; lia).
  rewrite take_app_length', drop_app_length' by (by rewrite le_write_length). done.
Qed.

Lemma frame_length m : length (send_cmd_result m) = (4 + length m)%nat.
Proof. unfold send_cmd_result. by rewrite length_app, le_write_length. Qed.

(** A sequence of frames has one reading. *)
Lemma frame_inj m1 m2 r1 r2 : sendable m1 -> sendable m2 -> send_cmd_result m1 ++ r1 = send_cmd_result m2 ++ r2 -> m1 = m2 /\ r1 = r2.
Proof.
  intros S1 S2 E. assert (length m1 = length m2) as Hl.
  { pose proof (f_equal (take 4) E) as T. rewrite !take_app_le in T by (rewrite frame_length; lia).
    rewrite (proj1 (frame_head m1 S1)), (proj1 (frame_head m2 S2)) in T. apply (f_equal le_read) in T.
    unfold sendable in *. rewrite !le_read_write in T by (change (256 ^ Z.of_nat 4) with (2 ^ 32); lia). lia. }
  apply app_inj_1 in E as [E <-]; [|by rewrite !frame_length, Hl]. split; [|done].
  apply (f_equal (drop 4)) in E. by rewrite (proj2 (frame_head m1 S1)), (proj2 (frame_head m2 S2)) in E.
Qed.

(** * The receiver *)

(** The bytes of the frame that is being received. *)
Definition partial (r : receiver) : text :=
  if rc_payload r then rc_packet_length r ++ take (Z.to_nat (rc_rev_length r)) (rc_rev_str r)
  else take (Z.to_nat (rc_rev_length r)) (rc_packet_length r).

Record receiver_ok (r : receiver) : Prop := {
  receiver_head : length (rc_packet_length r) = 4%nat;
  receiver_count : 0 <= rc_rev_length r;
  receiver_part : if rc_payload r then
      rc_length r = le_read (rc_packet_length r) /\ Z.of_nat (length (rc_rev_str r)) = rc_length r /\
      (rc_rev_length r < rc_length r \/ rc_rev_length r = 0 /\ rc_length r = 0)
    else rc_rev_length r < 4
}.

Lemma buffer_write_length buf pos data :
  0 <= pos -> pos + Z.of_nat (length data) <= Z.of_nat (length buf) -> length (buffer_write buf pos data) = length buf.
Proof. intros Hp Hl. unfold buffer_write. rewrite !length_app, length_take, length_drop. lia. Qed.

Lemma buffer_write_take buf pos data :
  0 <= pos -> pos + Z.of_nat (length data) <= Z.of_nat (length buf) ->
  take (Z.to_nat (pos + Z.of_nat (length data))) (buffer_write buf pos data) = take (Z.to_nat pos) buf ++ data.
Proof.
  intros Hp Hl. unfold buffer_write. rewrite app_assoc. apply take_app_length'. rewrite length_app, length_take. lia.
Qed.

Lemma take_whole {A} (l : list A) n : n = Z.of_nat (length l) -> take (Z.to_nat n) l = l.
Proof. intros ->. rewrite Nat2Z.id. by apply firstn_all2. Qed.

(** The head of the frame. *)
Lemma receive_step_head data r m r' :
  receiver_ok r -> rc_payload r = false -> data <> [] -> Z.of_nat (length data) <= receive_room r ->
  receive_step data r = (m, r') -> m = None /\ receiver_ok r' /\ partial r' = partial r ++ data.
Proof.
  intros [H4 H0 Hp] Ep Hd Hl E. unfold receive_room in Hl. unfold receive_step in E. unfold partial. rewrite Ep in *. cbn [negb] in E.
  assert (0 < Z.of_nat (length data)) by (destruct data; [done|cbn; lia]).
  assert (length (buffer_write (rc_packet_length r) (rc_rev_length r) data) = 4%nat) as L by (rewrite buffer_write_length; lia).
  pose proof (buffer_write_take (rc_packet_length r) (rc_rev_length r) data) as T. rewrite H4 in T. specialize (T H0 ltac:(lia)).
  change (rc_rev_length (_ <| rc_rev_length ::= _ |>)) with (rc_rev_length r + Z.of_nat (length data)) in E.
  destruct (Z.eqb_spec (rc_rev_length r + Z.of_nat (length data)) 4) as [E4|N4]; injection E as <- <-; (split; [done|]).
  - split; [split; [done|done|cbn]|cbn].
    + unfold str_resize. rewrite length_resize. pose proof (le_read_range (buffer_write (rc_packet_length r) (rc_rev_length r) data)).
      split; [done|]. lia.
    + rewrite <- T, E4, app_nil_r. symmetry. apply take_whole. lia.
  - split; [split; [done|cbn; lia|cbn]|].
    + rewrite Ep. cbn. lia.
    + cbn. by rewrite Ep, T.
Qed.

(** The characters. *)
Lemma receive_step_body data r m r' :
  receiver_ok r -> rc_payload r = true -> (0 < receive_room r -> data <> []) -> Z.of_nat (length data) <= receive_room r ->
  receive_step data r = (m, r') -> receiver_ok r' /\
    match m with
    | Some m => partial r ++ data = send_cmd_result m /\ sendable m /\ partial r' = []
    | None => partial r' = partial r ++ data
    end.
Proof.
  intros [H4 H0 Hp] Ep Hd Hl E. unfold receive_room in Hl, Hd. unfold receive_step in E. unfold partial. rewrite Ep in *. cbn [negb] in E.
  destruct Hp as (Hn & Hs & Hp). pose proof (le_read_range (rc_packet_length r)) as Hr. rewrite H4 in Hr.
  assert (length (buffer_write (rc_rev_str r) (rc_rev_length r) data) = length (rc_rev_str r)) as L by (rewrite buffer_write_length; lia).
  pose proof (buffer_write_take (rc_rev_str r) (rc_rev_length r) data H0 ltac:(lia)) as T.
  change (rc_rev_length (_ <| rc_rev_length ::= _ |>)) with (rc_rev_length r + Z.of_nat (length data)) in E.
  change (rc_length (_ <| rc_rev_length ::= _ |>)) with (rc_length r) in E.
  destruct (Z.eqb_spec (rc_rev_length r + Z.of_nat (length data)) (rc_length r)) as [E4|N4]; injection E as <- <-.
  - rewrite E4 in T. rewrite take_whole in T by lia.
    assert (send_cmd_result (buffer_write (rc_rev_str r) (rc_rev_length r) data)
            = rc_packet_length r ++ buffer_write (rc_rev_str r) (rc_rev_length r) data) as F.
    { unfold send_cmd_result. rewrite L, Hs, u32_small, Hn by (change (256 ^ Z.of_nat 4) with (2 ^ 32) in Hr; lia).
      by rewrite <- H4, le_write_read. }
    split; [split; [done|done|cbn; lia]|]. split; [|split; [|done]].
    + etransitivity; [|symmetry; exact F]. by rewrite T, app_assoc.
    + change (256 ^ Z.of_nat 4) with (2 ^ 32) in Hr. unfold sendable. cbn. rewrite L. lia.
  - split; [split; [done|cbn; lia|]|]; cbn; rewrite Ep.
    + assert (data <> [] \/ rc_length r - rc_rev_length r <= 0) as [|] by (destruct (Z.lt_ge_cases 0 (rc_length r - rc_rev_length r)); [left; auto|by right]).
      * assert (0 < Z.of_nat (length data)) by (destruct data; [done|cbn; lia]). rewrite L. lia.
      * lia.
    + by rewrite T, app_assoc.
Qed.

(** An iteration takes bytes from the stream, and keeps or delivers them. *)
Lemma receive_step_spec data r m r' :
  receiver_ok r -> (0 < receive_room r -> data <> []) -> Z.of_nat (length data) <= receive_room r ->
  receive_step data r = (m, r') -> receiver_ok r' /\
    partial r ++ data = default [] (send_cmd_result <$> m) ++ partial r' /\ (forall m0, m = Some m0 -> sendable m0) /\
    (data = [] -> rc_payload r = true /\ rc_payload r' = false).
Proof.
  intros Hok Hd Hl E. destruct (rc_payload r) eqn:Ep.
  - assert (data = [] -> rc_payload r' = false) as Hf.
    { intros ->. destruct Hok as [_ H0 Hp]. rewrite Ep in Hp. unfold receive_room in Hd. rewrite Ep in Hd.
      assert (rc_rev_length r = 0 /\ rc_length r = 0) as [R0 L0].
      { destruct Hp as (_ & _ & [|]); [|done]. exfalso. apply Hd; [lia|done]. }
      unfold receive_step in E. rewrite Ep in E. cbn in E. rewrite R0, L0 in E. by injection E as _ <-. }
    destruct (receive_step_body data r m r' Hok Ep Hd Hl E) as [Hok' H]. split; [done|]. destruct m as [m|].
    + destruct H as (H & Hs & Hp). rewrite Hp, app_nil_r. split; [done|]. split; [by intros ? [= <-]|]. auto.
    + split; [by symmetry|]. split; [done|]. auto.
  - pose proof (receiver_part r Hok) as Hp. rewrite Ep in Hp.
    assert (data <> []) as Hne by (apply Hd; unfold receive_room; rewrite Ep; lia).
    destruct (receive_step_head data r m r' Hok Ep Hne Hl E) as (-> & Hok' & H).
    split; [done|]. split; [by rewrite H|]. done.
Qed.

Lemma receive_count_spec size room stream :
  0 <= room -> (0 < room -> stream <> []) -> let data := take (receive_count size room stream) stream in
  (0 < room -> data <> []) /\ Z.of_nat (length data) <= room.
Proof.
  intros Hr Hs. cbv zeta. rewrite length_take. unfold receive_count. split; [|lia]. intros Hlt.
  specialize (Hs Hlt). destruct stream as [|c stream]; [done|]. cbn [length].
  destruct (Z.to_nat _) eqn:E; [lia|done].
Qed.

Lemma receive_room_pos r : receiver_ok r -> 0 <= receive_room r.
Proof. intros [_ _ H]. unfold receive_room. destruct (rc_payload r); lia. Qed.

(** What is left to do. *)
Definition receive_work (stream : text) (r : receiver) : nat := (2 * length stream + if rc_payload r then 1 else 0)%nat.

Lemma receive_loop_spec sizes stream r ms stream' r' :
  receiver_ok r -> receive_loop sizes stream r = (ms, stream', r') -> receiver_ok r' /\ Forall sendable ms /\
    partial r ++ stream = mjoin (send_cmd_result <$> ms) ++ partial r' ++ stream' /\
    ((receive_work stream r < length sizes)%nat -> stream' = [] /\ 0 < receive_room r').
Proof.
  revert stream r ms. induction sizes as [|size sizes IH]; intros stream r ms Hok E; cbn [receive_loop] in E.
  { injection E as <- <- <-. split; [done|]. split; [constructor|]. split; [done|]. cbn. lia. }
  destruct (Z.ltb_spec 0 (receive_room r)) as [Hr|Hr]; cbn [andb] in E; [case_bool_decide as Hst|].
  { injection E as <- <- <-. rewrite Hst. split; [done|]. split; [constructor|]. by split. }
  all: destruct (receive_count_spec size (receive_room r) stream) as [C1 C2]; [by apply receive_room_pos|by (intros; (done || lia))|].
  all: set (k := receive_count _ _ _) in *; destruct (receive_step (take k stream) r) as [m r1] eqn:E1.
  all: destruct (receive_loop sizes (drop k stream) r1) as [[ms1 stream1] r2] eqn:E2; injection E as <- <- <-.
  all: destruct (receive_step_spec _ _ _ _ Hok C1 C2 E1) as (Hok1 & P1 & S1 & W1).
  all: destruct (IH _ _ _ Hok1 E2) as (Hok2 & S2 & P2 & W2); split; [done|]; split; [destruct m; [constructor; auto|done]|].
  all: split; [rewrite <- (take_drop k stream) at 1; rewrite app_assoc, P1, <- app_assoc, P2; destruct m; cbn; by rewrite ?app_assoc|].
  all: cbn [length]; intros Hw; apply W2; revert Hw; unfold receive_work; rewrite length_drop;
    destruct (take k stream) eqn:Et; [destruct (W1 eq_refl) as [-> ->]; lia|];
    apply (f_equal length) in Et; rewrite length_take in Et; cbn [length] in Et; destruct (rc_payload r), (rc_payload r1); lia.
Qed.

(** * What is received is what was sent *)

Lemma frames_split ms ms' rest :
  Forall sendable ms -> Forall sendable ms' -> mjoin (send_cmd_result <$> ms) = mjoin (send_cmd_result <$> ms') ++ rest ->
  exists ms1, ms = ms' ++ ms1 /\ mjoin (send_cmd_result <$> ms1) = rest.
Proof.
  intros H H'. revert ms H. induction H' as [|m' ms' Hm' _ IH]; intros ms H E; [by exists ms|].
  cbn [fmap list_fmap mjoin list_join] in E. rewrite <- app_assoc in E. destruct H as [|m ms Hm Hms].
  { apply (f_equal length) in E. rewrite !length_app, frame_length in E. cbn in E. lia. }
  cbn [fmap list_fmap mjoin list_join] in E. apply frame_inj in E as [-> E]; [|done..].
  destruct (IH ms Hms E) as (ms1 & -> & Hms1). by exists ms1.
Qed.

(** A part of a frame is not a frame. *)
Lemma pending_part r ms :
  receiver_ok r -> 0 < receive_room r -> Forall sendable ms -> mjoin (send_cmd_result <$> ms) = partial r -> ms = [].
Proof.
  intros [H4 H0 Hp] Hroom [|m ms' Hm _] E; [done|]. exfalso. cbn [fmap list_fmap mjoin list_join] in E.
  unfold partial in E. unfold receive_room in Hroom. destruct (rc_payload r).
  - destruct Hp as (Hn & Hs & _). pose proof (f_equal (take 4) E) as T.
    rewrite take_app_le, (proj1 (frame_head m Hm)), take_app_le, firstn_all2 in T by (rewrite ?frame_length; lia).
    apply (f_equal le_read) in T. unfold sendable in Hm. rewrite le_read_write in T by (change (256 ^ Z.of_nat 4) with (2 ^ 32); lia).
    apply (f_equal length) in E. rewrite !length_app, frame_length, length_take in E. lia.
  - apply (f_equal length) in E. rewrite length_app, frame_length, length_take in E. lia.
Qed.

(** C31: the messages arrive as they were sent, wherever the network cuts the
    stream.  At any time what the receiver has delivered is a prefix of the
    messages sent; after as many calls of [receive] as there are bytes and
    lengths to take, it has delivered all of them, has nothing left over and is
    ready for the next. *)
Theorem receive_frames mem msgs sizes ms rest r :
  length mem = 4%nat -> Forall sendable msgs ->
  receive_loop sizes (mjoin (send_cmd_result <$> msgs)) (receiver_new mem) = (ms, rest, r) ->
  ms `prefix_of` msgs /\
  ((2 * length (mjoin (send_cmd_result <$> msgs)) < length sizes)%nat ->
   ms = msgs /\ rest = [] /\ rc_payload r = false /\ rc_rev_length r = 0).
Proof.
  intros Hmem Hms E. apply receive_loop_spec in E as (Hok & Hs & P & W); [|by split].
  change (partial (receiver_new mem)) with (@nil ascii) in P. cbn [app] in P.
  destruct (frames_split _ _ _ Hms Hs P) as (ms1 & -> & P1). split; [by exists ms1|]. intros Hw.
  destruct W as [-> Hroom]; [by unfold receive_work; cbn [rc_payload receiver_new]; rewrite Nat.add_0_r|].
  rewrite app_nil_r in P1. apply Forall_app in Hms as [_ Hms1].
  pose proof (pending_part r ms1 Hok Hroom Hms1 P1) as ->. rewrite app_nil_r. split; [done|]. split; [done|].
  cbn in P1. destruct Hok as [H4 H0 Hp]. unfold partial in P1. destruct (rc_payload r).
  - destruct (rc_packet_length r); done.
  - split; [done|]. apply (f_equal length) in P1. rewrite length_take in P1. cbn in P1. lia.
Qed.

Lemma receive_frames_witness :
  exists r, receive_loop (repeat 3 40) (send_cmd_result (str "a step"%string) ++ send_cmd_result []) (receiver_new (repeat (chr 0) 4))
    = ([str "a step"%string; []], [], r) /\ rc_payload r = false.
Proof.
  destruct (receive_loop (repeat 3 40) (mjoin (send_cmd_result <$> [str "a step"%string; []])) (receiver_new (repeat (chr 0) 4)))
    as [[ms rest] r] eqn:E.
  destruct (receive_frames (repeat (chr 0) 4) [str "a step"%string; []] (repeat 3 40) ms rest r) as [_ H];
    [done|repeat constructor; unfold sendable; cbn; lia|done|].
  destruct H as (-> & -> & Hp & _); [cbn; lia|]. exists r. split; [|exact Hp]. revert E. vm_compute. intros <-. reflexivity.
Defined.
