(* ===== verification/Remote.v ===== *)
(** The debugger of [top_source/main.cpp]: the commands of the remote control
    ([socket_cmd_...], [socket_cmd_handle]) and of the console ([cmd_...],
    [cmd_handle]), and the loop of [run] that waits for them between the cycles
    of the core.  The receiving thread sets [ctrl_c_detected] at any time; the
    order of its steps and those of the loop is a list of events. *)

From Stdlib Require Import ZArith Lia Ascii String.
From stdpp Require Import base numbers list option tactics.
From S2P Require Import Prelude Common Fifo Rob Rat Regfile CsrFile Bus PipelineCommon Packs CheckpointBuffer Commit Core Status Text CsrInfo Receive.

Local Open Scope Z_scope.

(** * State *)

(** Where the loop of [run] is: at its head, in [while(pause_state)], or left. *)
Inductive run_phase := at_head | in_pause | left_loop.

(** [db_feedback]: the feedback packets of the last cycle; [db_replies]: what was
    posted to [send_ioc], oldest first. *)
Record debugger := mk_debugger {
  db_core : core;
  db_feedback : feedback_packs;
  db_pause_state : bool;
  db_step_state : bool;
  db_wait_commit : bool;
  db_gui_mode : bool;
  db_ctrl_c_detected : bool;
  db_recv_thread_stop : bool;
  db_program_stop : bool;
  db_last_cmd : text;
  db_replies : list text;
  db_phase : run_phase
}.

#[export] Instance debugger_eta : Eta debugger := fun d =>
  mk_debugger (db_core d) (db_feedback d) (db_pause_state d) (db_step_state d) (db_wait_commit d) (db_gui_mode d) (db_ctrl_c_detected d)
    (db_recv_thread_stop d) (db_program_stop d) (db_last_cmd d) (db_replies d) (db_phase d).

(** * Run control, shared by the console and the remote control *)

Definition db_continue (d : debugger) : debugger :=
  d <| db_pause_state := false |> <| db_step_state := false |> <| db_wait_commit := false |>.

Definition db_step (d : debugger) : debugger :=
  d <| db_pause_state := false |> <| db_step_state := true |> <| db_wait_commit := false |>.

Definition db_stepcommit (d : debugger) : debugger :=
  d <| db_pause_state := false |> <| db_step_state := true |> <| db_wait_commit := true |>.

(** * The commands of the remote control *)

Definition hex (n : Z) : text := print_uint 16 false n.

(** A handler: the answer and the state; [None] for a failed assertion. *)
Definition socket_cmd_handler : Type := list text -> debugger -> option (text * debugger).

Definition socket_cmd_quit : socket_cmd_handler := fun args d =>
  if negb (length args =? 0)%nat then Some (str "argerror", d)
  else Some (str "ok", d <| db_recv_thread_stop := true |> <| db_program_stop := true |>).

Definition socket_cmd_reset : socket_cmd_handler := fun args d =>
  if negb (length args =? 0)%nat then Some (str "argerror", d)
  else c ← core_reset (db_core d); Some (str "ok", d <| db_core := c |>).

Definition socket_cmd_continue : socket_cmd_handler := fun args d =>
  if negb (length args =? 0)%nat then Some (str "argerror", d) else Some (str "ok", db_continue d).

Definition socket_cmd_pause : socket_cmd_handler := fun args d =>
  if negb (length args =? 0)%nat then Some (str "argerror", d)
  else Some (str "ok", d <| db_step_state := true |> <| db_wait_commit := false |>).

Definition socket_cmd_step : socket_cmd_handler := fun args d =>
  if negb (length args =? 0)%nat then Some (str "argerror", d) else Some (str "ok", db_step d).

Definition socket_cmd_stepcommit : socket_cmd_handler := fun args d =>
  if negb (length args =? 0)%nat then Some (str "argerror", d) else Some (str "ok", db_stepcommit d).

(** The loops over memory; [addr < end] bounds the first, and [size] iterations
    are enough: [end] is [address + size] or has wrapped around. *)
Fixpoint read_memory_loop (fuel : nat) (b : bus) (addr last : Z) (result : text) : option (text * bus) :=
  if addr <? last then
    match fuel with
    | O => None
    | S fuel => '(v, b) ← bus_read8 b addr; read_memory_loop fuel b (u32 (addr + 1)) last (result ++ ","%char :: hex v)
    end
  else Some (result, b).

Definition socket_cmd_read_memory : socket_cmd_handler := fun args d =>
  match args with
  | [address_str; size_str] =>
      let address := read_uint32 16 address_str in
      let size := read_uint32 10 size_str in
      '(result, b) ← read_memory_loop (Z.to_nat size) (co_bus (db_core d)) address (u32 (address + size)) (hex address);
      Some (result, d <| db_core ::= fun c => c <| co_bus := b |> |>)
  | _ => Some (str "argerror", d)
  end.

(** [data_str.substr(offset << 1, 2)], for the offsets from 0 to half the length. *)
Fixpoint write_memory_loop (b : bus) (address offset : Z) (data_str : text) : option bus :=
  match data_str with
  | c1 :: c2 :: data_str =>
      b ← bus_write8 b (u32 (address + offset)) (u8 (read_uint32 16 [c1; c2]));
      write_memory_loop b address (offset + 1) data_str
  | _ => Some b
  end.

Definition socket_cmd_write_memory : socket_cmd_handler := fun args d =>
  match args with
  | [address_str; data_str] =>
      b ← write_memory_loop (co_bus (db_core d)) (read_uint32 16 address_str) 0 data_str;
      Some (str "ok", d <| db_core ::= fun c => c <| co_bus := b |> |>)
  | _ => Some (str "argerror", d)
  end.

Fixpoint read_archreg_loop (s : commit_world) (regs : list Z) (result : text) : option text :=
  match regs with
  | [] => Some result
  | i :: regs =>
      if i =? 0 then read_archreg_loop s regs (result ++ hex 0)
      else
        phy_id ← rat_get_commit_phy_id (cm_rat s) i;
        v ← regfile_read (cm_phy_regfile s) phy_id;
        valid ← regfile_read_data_valid (cm_phy_regfile s) phy_id;
        _ ← assert valid;
        read_archreg_loop s regs (result ++ ","%char :: hex (pri_value v))
  end.

Definition socket_cmd_read_archreg : socket_cmd_handler := fun args d =>
  if negb (length args =? 0)%nat then Some (str "argerror", d)
  else result ← read_archreg_loop (co_commit (db_core d)) (upto ARCH_REG_NUM) []; Some (result, d).

(** The packet a queue gives, when it is an instruction. *)
Definition front_pc {T} (enable : T -> bool) (pc : T -> Z) (f : fifo T) : option (option Z) :=
  pack ← fifo_get_front f;
  Some (match pack with Some p => if enable p then Some (pc p) else None | None => None end).

(** The instruction the core is at: the oldest one anywhere in the pipeline. *)
Definition get_current_pc (c : core) : option Z :=
  if negb (fifo_is_empty (rob_fifo (cm_rob (co_commit c)))) then
    item ← rob_get_front (cm_rob (co_commit c)); Some (rob_pc item)
  else
    pc ← front_pc dr_enable dr_pc (co_decode_rename_fifo c);
    match pc with
    | Some pc => Some pc
    | None =>
        pc ← front_pc fd_enable fd_pc (co_fetch_decode_fifo c);
        Some (default (co_pc c) pc)
    end.

Definition socket_cmd_get_pc : socket_cmd_handler := fun args d =>
  if negb (length args =? 0)%nat then Some (str "argerror", d)
  else pc ← get_current_pc (db_core d); Some (print_uint 16 true pc, d).

Definition socket_cmd_get_cycle : socket_cmd_handler := fun args d =>
  if negb (length args =? 0)%nat then Some (str "argerror", d)
  else Some (print_uint 10 false (co_cpu_clock_cycle (db_core d)), d).

Definition socket_cmd_get_commit_num : socket_cmd_handler := fun args d =>
  if negb (length args =? 0)%nat then Some (str "argerror", d)
  else
    let r := cm_rob (co_commit (db_core d)) in
    Some (print_uint 10 false (rob_get_commit_num r),
          d <| db_core ::= fun c => c <| co_commit ::= fun s => s <| cm_rob := rob_clear_commit_num r |> |> |>).

(** [result << (int)value] *)
Definition print_int (value : Z) : text :=
  if value <? 2 ^ 31 then print_uint 10 false value else "-"%char :: print_uint 10 false (2 ^ 32 - value).

Definition socket_cmd_get_finish : socket_cmd_handler := fun args d =>
  if negb (length args =? 0)%nat then Some (str "argerror", d)
  else v ← csrfile_read_sys (cm_csr_file (co_commit (db_core d))) CSR_FINISH; Some (print_int v, d).

Section remote.
(** The text the JSON library makes of an object. *)
Context (dump : json -> text).

Definition socket_cmd_read_csr : socket_cmd_handler := fun args d =>
  if negb (length args =? 0)%nat then Some (str "argerror", d)
  else Some (get_info_packet (cm_csr_file (co_commit (db_core d))), d).

Definition socket_cmd_get_pipeline_status : socket_cmd_handler := fun args d =>
  if negb (length args =? 0)%nat then Some (str "argerror", d)
  else j ← pipeline_json (db_feedback d) (db_core d); Some (dump j, d).

Definition socket_cmd_list : list (text * socket_cmd_handler) :=
  [(str "quit", socket_cmd_quit); (str "reset", socket_cmd_reset); (str "continue", socket_cmd_continue);
   (str "pause", socket_cmd_pause); (str "step", socket_cmd_step); (str "stepcommit", socket_cmd_stepcommit);
   (str "read_memory", socket_cmd_read_memory); (str "write_memory", socket_cmd_write_memory);
   (str "read_archreg", socket_cmd_read_archreg); (str "read_csr", socket_cmd_read_csr); (str "get_pc", socket_cmd_get_pc);
   (str "get_cycle", socket_cmd_get_cycle); (str "get_pipeline_status", socket_cmd_get_pipeline_status);
   (str "get_commit_num", socket_cmd_get_commit_num); (str "get_finish", socket_cmd_get_finish)].

Fixpoint cmd_search {A} (l : list (text * A)) (cmd : text) : option A :=
  match l with
  | [] => None
  | (name, handler) :: l => if decide (name = cmd) then Some handler else cmd_search l cmd
  end.

Definition socket_cmd_handle (rev_str : text) (d : debugger) : option debugger :=
  cmd_arg_list ← get_words rev_str;
  match cmd_arg_list with
  | prefix :: cmd :: args =>
      '(ret, d) ← match cmd_search socket_cmd_list cmd with
                  | Some handler => handler args d
                  | None => Some (str "notfound", d)
                  end;
      Some (d <| db_replies ::= fun l => l ++ [prefix ++ str " " ++ cmd ++ str " " ++ ret] |>)
  | _ => Some d
  end.

(** The receiving thread when it has a message, before it posts it. *)
Definition receive_message (rev_str : text) (d : debugger) : option debugger :=
  cmd_arg_list ← get_words rev_str;
  match cmd_arg_list with
  | _ :: cmd :: _ => Some (if decide (cmd = str "pause") then d <| db_ctrl_c_detected := true |> else d)
  | _ => Some d
  end.

(** * The console *)

(** [bind]: whether the server gets its port. *)
Definition cmd_gui (bind : bool) (d : debugger) : debugger := if bind then d <| db_gui_mode := true |> else d.

(** [arch] checks what it prints; what [p], [rat], [rob], [csr] and [arch] print
    is not modelled. *)
Definition cmd_list (bind : bool) : list (text * (debugger -> option debugger)) :=
  [(str "q", fun d => Some (d <| db_phase := left_loop |>)); (str "c", fun d => Some (db_continue d));
   (str "s", fun d => Some (db_step d)); (str "sc", fun d => Some (db_stepcommit d));
   (str "p", Some); (str "rat", Some); (str "rob", Some); (str "csr", Some);
   (str "arch", fun d => _ ← read_archreg_loop (co_commit (db_core d)) (upto ARCH_REG_NUM) []; Some d);
   (str "gui", fun d => Some (cmd_gui bind d))].

(** [false] for an invalid command. *)
Definition cmd_handle (bind : bool) (cmd : text) (d : debugger) : option (bool * debugger) :=
  if decide (cmd = []) then Some (true, d)
  else match cmd_search (cmd_list bind) cmd with
       | Some handler => d ← handler d; Some (true, d)
       | None => Some (false, d)
       end.

(** * The loop *)

Section run.
Context (mem : checkpoint_t) (mem_ids : list Z) (junk : Z * Z) (ras_full : Z).

(** A cycle of the core, at the end of which the loop is at its head. *)
Definition run_cycle (d : debugger) : option debugger :=
  c ← core_cycle mem mem_ids junk ras_full (db_core d);
  fp ← core_feedback junk (db_core d);
  Some (d <| db_core := c |> <| db_feedback := fp |> <| db_phase := at_head |>).

Definition run_stops (d : debugger) : bool :=
  db_ctrl_c_detected d ||
  (db_step_state d && (negb (db_wait_commit d) || (db_wait_commit d && rob_get_committed (cm_rob (co_commit (db_core d)))))).

Definition run_pause (d : debugger) : debugger :=
  (if db_ctrl_c_detected d then d <| db_step_state := true |> <| db_wait_commit := false |> else d)
    <| db_pause_state := true |> <| db_phase := in_pause |>.

(** What happens next: the loop goes on where it need not wait; it takes a
    message or a line of the console; the receiving thread has a message; the
    user presses Ctrl-C. *)
Inductive event :=
| ev_go
| ev_message (m : text)
| ev_line (bind : bool) (line : text)
| ev_arrive (m : text)
| ev_ctrl_c.

(** [None]: not possible here, or an assertion fails. *)
Definition run_event (e : event) (d : debugger) : option debugger :=
  match e with
  | ev_go =>
      match db_phase d with
      | at_head => if run_stops d then Some (run_pause d) else run_cycle d
      | in_pause =>
          if db_pause_state d then None
          else if db_program_stop d then Some (d <| db_phase := left_loop |>)
          else run_cycle (d <| db_ctrl_c_detected := false |>)
      | left_loop => None
      end
  | ev_message m =>
      match db_phase d with
      | in_pause =>
          if db_pause_state d && db_gui_mode d then
            d ← socket_cmd_handle m d;
            Some (if db_program_stop d then d <| db_phase := left_loop |> else d)
          else None
      | _ => None
      end
  | ev_line bind line =>
      match db_phase d with
      | in_pause =>
          if db_pause_state d && negb (db_gui_mode d) then
            let cmd := if decide (line = []) then db_last_cmd d else line in
            '(_, d) ← cmd_handle bind cmd (d <| db_last_cmd := cmd |>);
            Some d
          else None
      | _ => None
      end
  | ev_arrive m => receive_message m d
  | ev_ctrl_c => Some (d <| db_ctrl_c_detected := true |>)
  end.

Fixpoint run_events (es : list event) (d : debugger) : option debugger :=
  match es with
  | [] => Some d
  | e :: es => d ← run_event e d; run_events es d
  end.

(** [run], after [init]. *)
Definition run_start (bind : bool) (c : core) : option debugger :=
  c ← core_reset c;
  Some ((cmd_gui bind (mk_debugger c feedback_packs_zero false false false false false false false [] [] at_head)) <| db_step_state := true |>).
End run.
End remote.
