(* ===== verification/RemoteSpec.v ===== *)
(** What the remote control does: how the commands run and stop the core, that
    memory written is memory read, and the answers to what is not a command. *)

From Stdlib Require Import ZArith Lia Ascii String.
From stdpp Require Import base numbers list option tactics.
From S2P Require Import Prelude Common Fifo Rob Rat Regfile CsrFile Bus PipelineCommon Packs CheckpointBuffer Isa Decode Commit Core Flight CoreFlow Status StatusSpec Text CsrInfo Receive Remote.

Local Open Scope Z_scope.

Section spec.
Context (dump : json -> text).
Context (mem : checkpoint_t) (mem_ids : list Z) (junk : Z * Z) (ras_full : Z).

Abbreviation handle := (socket_cmd_handle dump).
Abbreviation events := (run_events dump mem mem_ids junk ras_full).
Abbreviation happens := (run_event dump mem mem_ids junk ras_full).
Abbreviation cycles := (core_run mem mem_ids junk ras_full).

(** * Messages *)

(** The message [p cmd args...], with blanks between its words. *)
Definition command (p : text) (cmd : string) (args : list text) : text := join (p :: str cmd :: args).

Definition reply (p : text) (cmd : string) (ret : text) : text := p ++ str " " ++ str cmd ++ str " " ++ ret.

Definition cmd_name (cmd : string) : Prop := is_word (str cmd).

Definition is_wordb (w : text) : bool := negb (bool_decide (w = [])) && forallb (fun c => negb (is_space c)) w.

Lemma is_word_check w : is_wordb w = true -> is_word w.
Proof.
  unfold is_wordb. intros [Hn Hw]%andb_true_iff. split; [by case_bool_decide|].
  apply Is_true_true, forallb_True in Hw. apply (list.Forall_impl _ _ _ Hw). intros c. by destruct (is_space c).
Qed.

Lemma command_words p cmd args :
  is_word p -> cmd_name cmd -> Forall is_word args -> get_words (command p cmd args) = Some (p :: str cmd :: args).
Proof.
  intros Hp Hc Ha. unfold command. rewrite <- (app_nil_r (join _)). rewrite get_words_join; [|by constructor; [|constructor]|done|by left].
  by rewrite decide_True, app_nil_r.
Qed.

Lemma handle_words m p cmd args handler d :
  get_words m = Some (p :: str cmd :: args) -> cmd_search (socket_cmd_list dump) (str cmd) = Some handler ->
  handle m d = ('(ret, d) ← handler args d; Some (d <| db_replies ::= fun l => l ++ [reply p cmd ret] |>)).
Proof. intros Hw Hs. unfold socket_cmd_handle. rewrite Hw. mstep. by rewrite Hs. Qed.

(** * Running and stopping *)

(** The loop waits for a command of the remote control. *)
Record waits (d : debugger) : Prop := {
  waits_phase : db_phase d = in_pause;
  waits_pause : db_pause_state d = true;
  waits_gui : db_gui_mode d = true;
  waits_program : db_program_stop d = false
}.

Lemma events_app es1 es2 d : events (es1 ++ es2) d = (d ← events es1 d; events es2 d).
Proof.
  revert d. induction es1 as [|e es1 IH]; intros d; [done|]. cbn [app run_events].
  destruct (happens e d); [apply IH|done].
Qed.

(** [k] cycles from the head of the loop, which it never leaves. *)
Lemma run_cycles k d c :
  db_phase d = at_head -> (forall j c1 fp, (j < k)%nat -> cycles j (db_core d) = Some c1 -> run_stops (d <| db_core := c1 |> <| db_feedback := fp |>) = false) ->
  cycles k (db_core d) = Some c -> exists fp, events (repeat ev_go k) d = Some (d <| db_core := c |> <| db_feedback := fp |>).
Proof.
  revert d. induction k as [|k IH]; intros d Hp Hs Hc.
  { injection Hc as <-. exists (db_feedback d). cbn. f_equal. by destruct d. }
  cbn [core_run] in Hc. apply bind_Some in Hc as (c1 & H1 & Hc). cbn [repeat run_events run_event]. rewrite Hp.
  pose proof (Hs 0%nat (db_core d) (db_feedback d) ltac:(lia) eq_refl) as H0.
  replace (d <| db_core := db_core d |> <| db_feedback := db_feedback d |>) with d in H0 by (by destruct d).
  destruct (core_cycle_feedback _ _ _ _ _ _ H1) as [fp Hf]. rewrite H0. unfold run_cycle. rewrite H1. mstep. rewrite Hf. mstep.
  replace (d <| db_core := c1 |> <| db_feedback := fp |> <| db_phase := at_head |>) with (d <| db_core := c1 |> <| db_feedback := fp |>) by (destruct d; cbn in Hp; by subst).
  destruct (IH (d <| db_core := c1 |> <| db_feedback := fp |>)) as [fp' E]; [done| |done|].
  - intros j c2 fp2 Hj H2. apply (Hs (S j)); [lia|]. cbn [core_run]. by rewrite H1.
  - exists fp'. rewrite E. by destruct d.
Qed.

(** The first cycle after a command, and those that follow. *)
Lemma run_resumes k d c :
  db_phase d = in_pause -> db_pause_state d = false -> db_program_stop d = false -> cycles (S k) (db_core d) = Some c ->
  (forall j c1 fp, (0 < j <= k)%nat -> cycles j (db_core d) = Some c1 ->
     run_stops (d <| db_ctrl_c_detected := false |> <| db_core := c1 |> <| db_feedback := fp |> <| db_phase := at_head |>) = false) ->
  exists fp, events (repeat ev_go (S k)) d = Some (d <| db_ctrl_c_detected := false |> <| db_core := c |> <| db_feedback := fp |> <| db_phase := at_head |>).
Proof.
  intros Hp Hs Hq Hc Hr. cbn [core_run] in Hc. apply bind_Some in Hc as (c1 & H1 & Hc).
  destruct (core_cycle_feedback _ _ _ _ _ _ H1) as [fp Hf]. cbn [repeat run_events run_event]. rewrite Hp, Hs, Hq. unfold run_cycle.
  change (db_core (d <| db_ctrl_c_detected := false |>)) with (db_core d). rewrite H1. mstep. rewrite Hf. mstep.
  destruct (run_cycles k (d <| db_ctrl_c_detected := false |> <| db_core := c1 |> <| db_feedback := fp |> <| db_phase := at_head |>) c) as [fp' E]; [done| |done|].
  - intros j c2 fp2 Hj H2. apply (Hr (S j) c2 fp2); [lia|]. cbn [core_run]. by rewrite H1.
  - exists fp'. rewrite E. by destruct d.
Qed.

Ltac resumes k c :=
  match goal with |- context [run_events _ _ _ _ _ (repeat ev_go _) ?d] =>
    let fp := fresh "fp" in let E := fresh "E" in destruct (run_resumes k d c) as [fp E]; [..|rewrite E; clear E] end.

Lemma head_pauses d : db_phase d = at_head -> run_stops d = true -> happens ev_go d = Some (run_pause d).
Proof. intros Hp Hs. unfold run_event. by rewrite Hp, Hs. Qed.

Definition committed_now (c : core) : bool := rob_get_committed (cm_rob (co_commit c)).

(** A command that changes the run control only. *)
Lemma message_ok p cmd (f : debugger -> debugger) d :
  waits d -> is_word p -> cmd_name cmd ->
  (exists handler, cmd_search (socket_cmd_list dump) (str cmd) = Some handler /\
     handler [] d = Some (str "ok", f d)) -> db_program_stop (f d) = false ->
  happens (ev_message (command p cmd [])) d = Some ((f d) <| db_replies ::= fun l => l ++ [reply p cmd (str "ok")] |>).
Proof.
  intros [Hp Hs Hg Hq] Hw Hc (handler & Hf & Hh) Hn. unfold run_event. rewrite Hp, Hs, Hg. cbn [andb].
  rewrite (handle_words _ p cmd [] handler); [|apply command_words; [done|done|exact (List.Forall_nil _)]|done]. rewrite Hh. mstep.
  change (db_program_stop (_ <| db_replies ::= _ |>)) with (db_program_stop (f d)). by rewrite Hn.
Qed.

Ltac solve_command :=
  match goal with
  | |- cmd_name _ => apply is_word_check; reflexivity
  | |- is_word _ => apply is_word_check; reflexivity
  | |- exists _, _ /\ _ => eexists; split; [reflexivity|done]
  end.

(** C32: single steps are exact.  [step] runs the core for one cycle,
    [stepcommit] up to and with the first cycle that commits an instruction;
    then the loop waits again.  Both answer [ok], once. *)
Theorem remote_steps p d c :
  waits d -> is_word p ->
  (cycles 1 (db_core d) = Some c ->
   exists d', events [ev_message (command p "step" []); ev_go; ev_go] d = Some d' /\ waits d' /\ db_core d' = c /\
     db_replies d' = db_replies d ++ [reply p "step" (str "ok")]) /\
  (forall k, cycles (S k) (db_core d) = Some c -> committed_now c = true ->
   (forall j c1, (0 < j <= k)%nat -> cycles j (db_core d) = Some c1 -> committed_now c1 = false) ->
   exists d', events (ev_message (command p "stepcommit" []) :: repeat ev_go (S (S k))) d = Some d' /\ waits d' /\ db_core d' = c /\
     db_replies d' = db_replies d ++ [reply p "stepcommit" (str "ok")]).
Proof.
  intros W Hp. pose proof W as [Hph Hps Hg Hq]. split.
  - intros Hc. change [_; ev_go; ev_go] with ([ev_message (command p "step" [])] ++ repeat ev_go 1 ++ [ev_go]).
    rewrite events_app. cbn [run_events]. rewrite (message_ok p "step" db_step d) by (done || solve_command).
    mstep. rewrite events_app. resumes 0%nat c; [done..|lia|]. mstep. cbn [run_events].
    rewrite head_pauses by done. mstep. eexists. split; [done|]. by split.
  - intros k Hc Hk Hj. replace (repeat ev_go (S (S k))) with (repeat ev_go (S k) ++ [ev_go]) by (by rewrite <- repeat_cons).
    change (?e :: ?l) with ([e] ++ l) at 1.
    rewrite events_app. cbn [run_events]. rewrite (message_ok p "stepcommit" db_stepcommit d) by (done || solve_command).
    mstep. rewrite events_app. resumes k c; [done..|intros j c1 fp Hlt Hc1; exact (Hj j c1 Hlt Hc1)|]. mstep. cbn [run_events].
    rewrite head_pauses by done. mstep. eexists. split; [done|]. by split.
Qed.

(** The core runs for [k + 1] cycles after [continue]; whatever set
    [ctrl_c_detected] before is forgotten. *)
Lemma continue_runs p d k c :
  waits d -> is_word p -> cycles (S k) (db_core d) = Some c ->
  exists d', events (ev_message (command p "continue" []) :: repeat ev_go (S k)) d = Some d' /\ db_core d' = c /\
    db_phase d' = at_head /\ db_gui_mode d' = true /\ db_program_stop d' = false /\ run_stops d' = false /\
    db_replies d' = db_replies d ++ [reply p "continue" (str "ok")].
Proof.
  intros W Hp Hc. pose proof W as [Hph Hps Hg Hq]. change (?e :: ?l) with ([e] ++ l) at 1.
  rewrite events_app. cbn [run_events]. rewrite (message_ok p "continue" db_continue d) by (done || solve_command).
  mstep. resumes k c; [done..|]. eexists. split; [done|]. by split_and!.
Qed.

Lemma pause_arrives q d : is_word q -> happens (ev_arrive (command q "pause" [])) d = Some (d <| db_ctrl_c_detected := true |>).
Proof.
  intros Hq. unfold run_event, receive_message. rewrite command_words by (done || solve_command || exact (List.Forall_nil _)). done.
Qed.

(** C33: [continue] runs the core, and [pause] stops it.  After [continue] the
    loop runs cycle after cycle and does not stop by itself, also when it had been
    stopping at every cycle before; when a [pause] arrives, it stops before the
    next cycle, and then answers. *)
Theorem remote_continue_pause p q d k c :
  waits d -> is_word p -> is_word q -> cycles (S k) (db_core d) = Some c ->
  exists d' d'', events (ev_message (command p "continue" []) :: repeat ev_go (S k)) d = Some d' /\
    db_core d' = c /\ run_stops d' = false /\
    events [ev_arrive (command q "pause" []); ev_go; ev_message (command q "pause" [])] d' = Some d'' /\
    waits d'' /\ db_core d'' = c /\
    db_replies d'' = db_replies d ++ [reply p "continue" (str "ok"); reply q "pause" (str "ok")].
Proof.
  intros W Hp Hq Hc. destruct (continue_runs p d k c W Hp Hc) as (d' & E & Hd & Hph & Hg & Hs & Hr & Hl).
  exists d'. cbn [run_events]. rewrite pause_arrives by done. mstep. rewrite head_pauses by done. mstep.
  rewrite (message_ok q "pause" (fun d => d <| db_step_state := true |> <| db_wait_commit := false |>));
    [|by split|done|solve_command..|done].
  mstep. eexists. split; [done|]. split; [done|]. split; [done|]. split; [done|]. split; [by split|]. split; [done|].
  change (db_replies d' ++ [reply q "pause" (str "ok")] = db_replies d ++ [reply p "continue" (str "ok"); reply q "pause" (str "ok")]).
  by rewrite Hl, <- app_assoc.
Qed.

(** C34: a [pause] that arrives while the loop still waits, before it has taken a
    [continue] sent earlier, is lost: the flag it set is cleared when the core
    starts again, and its message waits in the queue, so that the core runs on
    for as long as nothing else arrives and the [pause] has no answer. *)
Theorem remote_pause_lost p q d k c :
  waits d -> is_word p -> is_word q -> cycles (S k) (db_core d) = Some c ->
  exists d', events (ev_arrive (command q "pause" []) :: ev_message (command p "continue" []) :: repeat ev_go (S k)) d = Some d' /\
    db_core d' = c /\ db_phase d' = at_head /\ run_stops d' = false /\
    db_replies d' = db_replies d ++ [reply p "continue" (str "ok")].
Proof.
  intros W Hp Hq Hc. change (?e :: ?l) with ([e] ++ l) at 1. rewrite events_app. cbn [run_events]. rewrite pause_arrives by done. mstep.
  assert (waits (d <| db_ctrl_c_detected := true |>)) as W' by (by destruct W).
  destruct (continue_runs p _ k c W' Hp Hc) as (d' & E & Hd & Hph & _ & _ & Hr & Hl).
  exists d'. by split_and!.
Qed.

(** * What is not a command *)

(** The number of arguments. *)
Definition socket_cmd_arity : list (text * nat) :=
  [(str "quit", 0%nat); (str "reset", 0%nat); (str "continue", 0%nat); (str "pause", 0%nat); (str "step", 0%nat);
   (str "stepcommit", 0%nat); (str "read_memory", 2%nat); (str "write_memory", 2%nat); (str "read_archreg", 0%nat);
   (str "read_csr", 0%nat); (str "get_pc", 0%nat); (str "get_cycle", 0%nat); (str "get_pipeline_status", 0%nat);
   (str "get_commit_num", 0%nat); (str "get_finish", 0%nat)].

(** What a handler does with the wrong number of arguments. *)
Definition wants (n : nat) (handler : socket_cmd_handler) : Prop :=
  forall args d, length args <> n -> handler args d = Some (str "argerror", d).

Lemma cmd_search_all {A B} (P : A -> B -> Prop) l1 l2 cmd :
  Forall2 (fun x y => x.1 = y.1 /\ P x.2 y.2) l1 l2 ->
  match cmd_search l1 cmd, cmd_search l2 cmd with Some a, Some b => P a b | None, None => True | _, _ => False end.
Proof.
  induction 1 as [|[n1 a] [n2 b] l1 l2 [E H] _ IH]; [done|]. cbn in E, H |- *. subst. by destruct (decide (n2 = cmd)).
Qed.

Lemma socket_cmd_wants cmd :
  match cmd_search (socket_cmd_list dump) cmd, cmd_search socket_cmd_arity cmd with
  | Some handler, Some n => wants n handler | None, None => True | _, _ => False end.
Proof.
  apply (cmd_search_all (fun handler n => wants n handler)). unfold socket_cmd_list, socket_cmd_arity.
  repeat (apply List.Forall2_cons; [split; [reflexivity|]|]); try exact (List.Forall2_nil _);
    intros [|a [|b [|x args]]] d Hl; first [by exfalso; apply Hl | reflexivity].
Qed.

(** C38: the errors of the remote control.  A message with less than two words
    has no effect and no answer; an unknown command is answered [notfound] and a
    command with the wrong number of arguments [argerror], and nothing else
    changes, whatever the words are. *)
Theorem remote_errors m d :
  exists ws, get_words m = Some ws /\
  match ws with
  | p :: cmd :: args =>
      let answered ret := handle m d = Some (d <| db_replies ::= fun l => l ++ [p ++ str " " ++ cmd ++ str " " ++ str ret] |>) in
      match cmd_search socket_cmd_arity cmd with
      | None => answered "notfound"%string
      | Some n => length args <> n -> answered "argerror"%string
      end
  | _ => handle m d = Some d
  end.
Proof.
  destruct (get_words_total m) as [ws Hws]. exists ws. split; [done|]. unfold socket_cmd_handle. rewrite Hws. mstep.
  destruct ws as [|p [|cmd args]]; try done. pose proof (socket_cmd_wants cmd) as H.
  destruct (cmd_search (socket_cmd_list _) cmd) as [handler|], (cmd_search socket_cmd_arity cmd) as [n|]; try done.
  cbv zeta. intros Hl. by rewrite (H args d Hl).
Qed.

(** * Memory *)

(** A byte as two hexadecimal digits. *)
Definition byte_hex (v : Z) : text := [digit_char false (v / 16); digit_char false (v mod 16)].

Lemma byte_hex_digit v : 0 <= v < 256 -> Forall is_digit (byte_hex v).
Proof.
  intros Hv. pose proof (Z.mod_pos_bound v 16). assert (0 <= v / 16 < 16) by (split; [apply Z.div_pos|apply Z.div_lt_upper_bound]; lia).
  repeat (apply List.Forall_cons; [apply digit_char_digit; lia|]). exact (List.Forall_nil _).
Qed.

Lemma read_byte_hex v : 0 <= v < 256 -> u8 (read_uint32 16 (byte_hex v)) = v.
Proof.
  intros Hv. unfold read_uint32. destruct (read_plain 16 (byte_hex v) (byte_hex_digit v Hv)) as [Hp Hs].
  destruct (read_sign _) as [neg s]. cbn [fst snd] in Hp, Hs. subst neg. rewrite Hp. unfold byte_hex. cbn [read_digits].
  pose proof (Z.mod_pos_bound v 16). assert (0 <= v / 16 < 16) by (split; [apply Z.div_pos|apply Z.div_lt_upper_bound]; lia).
  rewrite !digit_char_of by lia. replace ((0 * 16 + v / 16) * 16 + v mod 16) with v by (pose proof (Z.div_mod v 16); lia).
  destruct (Z.leb_spec (2 ^ 32) v); [lia|]. by apply Z.mod_small.
Qed.

(** The memory from [a] on, [n] bytes of it. *)
Definition in_memory (b : bus) (a : Z) (n : nat) : Prop := forall i, 0 <= i < Z.of_nat n -> memory_access b W8 (a + i).

Lemma write_memory_loop_spec vals b address offset :
  bus_ok b -> Forall (fun v => 0 <= v < 256) vals -> 0 <= address + offset -> address + offset + Z.of_nat (length vals) < 2 ^ 32 ->
  in_memory b (address + offset) (length vals) ->
  exists b', write_memory_loop b address offset (mjoin (byte_hex <$> vals)) = Some b' /\ bus_ok b' /\
    (forall w a, memory_access b' w a <-> memory_access b w a) /\
    (forall i v, vals !! i = Some v -> bus_byte b' (address + offset + Z.of_nat i) = v) /\
    (forall a, ~ (address + offset <= a < address + offset + Z.of_nat (length vals)) -> bus_byte b' a = bus_byte b a).
Proof.
  intros Hok Hv. revert b offset Hok. induction Hv as [|v vals Hv _ IH]; intros b offset Hok H0 Hl Hm; [by exists b|].
  cbn [length] in *. change (mjoin (byte_hex <$> v :: vals)) with (byte_hex v ++ mjoin (byte_hex <$> vals)).
  cbn [write_memory_loop app byte_hex]. change [digit_char false (v / 16); digit_char false (v mod 16)] with (byte_hex v).
  rewrite read_byte_hex, u32_small by lia. specialize (Hm 0 ltac:(lia)) as Hm0. rewrite Z.add_0_r in Hm0.
  destruct (bus_write_memory b W8 (address + offset) v Hok Hm0) as (b1 & E1 & Hok1 & _ & B1 & M1); [simpl; lia|].
  unfold bus_write8. rewrite E1. mstep. destruct (IH b1 (offset + 1)) as (b2 & E2 & Hok2 & M2 & B2 & O2); try done; try lia.
  { intros i Hi. apply M1. replace (address + (offset + 1) + i) with (address + offset + (i + 1)) by lia. apply Hm. lia. }
  exists b2. split; [done|]. split; [done|]. split; [intros w a; by rewrite M2|]. split.
  - intros [|i] x Hx.
    + injection Hx as <-. rewrite Z.add_0_r, O2, B1 by lia. rewrite decide_True by (simpl; lia). rewrite Z.sub_diag.
      unfold byte. rewrite Z.shiftr_0_r. by apply Z.mod_small.
    + replace (address + offset + Z.of_nat (S i)) with (address + (offset + 1) + Z.of_nat i) by lia. by apply B2.
  - intros a Ha. rewrite O2, B1 by lia. rewrite decide_False; [done|]. simpl. lia.
Qed.

(** The values as [read_memory] prints them. *)
Definition listing (vals : list Z) : text := mjoin ((fun v => ","%char :: hex v) <$> vals).

Lemma read_memory_loop_spec vals b addr result :
  bus_ok b -> 0 <= addr -> addr + Z.of_nat (length vals) < 2 ^ 32 -> in_memory b addr (length vals) ->
  (forall i v, vals !! i = Some v -> bus_byte b (addr + Z.of_nat i) = v) ->
  read_memory_loop (length vals) b addr (addr + Z.of_nat (length vals)) result = Some (result ++ listing vals, b).
Proof.
  intros Hok. revert addr result. induction vals as [|v vals IH]; intros addr result H0 Hl Hm Hv.
  { cbn [length read_memory_loop]. rewrite Z.add_0_r, Z.ltb_irrefl. cbn. by rewrite app_nil_r. }
  cbn [length] in *. cbn [read_memory_loop]. destruct (Z.ltb_spec addr (addr + Z.of_nat (S (length vals)))); [|lia].
  pose proof (Hm 0 ltac:(lia)) as Hm0. rewrite Z.add_0_r in Hm0.
  destruct (bus_read_memory b W8 addr Hok Hm0) as (x & E & Hx & B). unfold bus_read8. rewrite E. mstep.
  assert (x = v) as ->.
  { specialize (B 0 ltac:(simpl; lia)). pose proof (Hv 0%nat v eq_refl) as Hv0. change (Z.of_nat 0) with 0 in Hv0. rewrite Hv0 in B. rewrite <- B.
    unfold byte. rewrite Z.shiftr_0_r. symmetry. apply Z.mod_small. simpl in Hx. lia. }
  rewrite u32_small by lia. replace (addr + Z.of_nat (S (length vals))) with (addr + 1 + Z.of_nat (length vals)) by lia.
  rewrite IH; [by rewrite <- app_assoc|lia|lia| |].
  - intros i Hi. rewrite <- Z.add_assoc. apply Hm. lia.
  - intros i y Hy. rewrite <- Z.add_assoc. replace (1 + Z.of_nat i) with (Z.of_nat (S i)) by lia. by apply Hv.
Qed.

Lemma print_uint_word base n : 2 <= base <= 16 -> is_word (print_uint base false n).
Proof.
  intros Hb. split; [apply print_digits_cons; lia|].
  apply (list.Forall_impl _ _ _ (print_uint_digit base false n Hb)). apply digit_not_space.
Qed.

Lemma bytes_word vals : vals <> [] -> Forall (fun v => 0 <= v < 256) vals -> is_word (mjoin (byte_hex <$> vals)).
Proof.
  intros Hne Hv. split; [by destruct vals|]. clear Hne. induction Hv as [|v vals Hv _ IH]; [exact (List.Forall_nil _)|].
  change (mjoin (byte_hex <$> v :: vals)) with (byte_hex v ++ mjoin (byte_hex <$> vals)). apply Forall_app. split; [|done].
  apply (list.Forall_impl _ _ _ (byte_hex_digit v Hv)). apply digit_not_space.
Qed.

Lemma read_hex n : 0 <= n < 2 ^ 32 -> read_uint32 16 (hex n) = n.
Proof. intros Hn. by apply read_print. Qed.

Lemma write_memory_answer p d address vals b :
  is_word p -> 0 <= address < 2 ^ 32 -> vals <> [] -> Forall (fun v => 0 <= v < 256) vals ->
  write_memory_loop (co_bus (db_core d)) address 0 (mjoin (byte_hex <$> vals)) = Some b ->
  handle (command p "write_memory" [hex address; mjoin (byte_hex <$> vals)]) d =
    Some (d <| db_core ::= fun c => c <| co_bus := b |> |> <| db_replies ::= fun l => l ++ [reply p "write_memory" (str "ok")] |>).
Proof.
  intros Hp Ha Hne Hv E. rewrite (handle_words _ p "write_memory" [hex address; mjoin (byte_hex <$> vals)] socket_cmd_write_memory);
    [|apply command_words; [done|solve_command|]|reflexivity].
  - unfold socket_cmd_write_memory. rewrite read_hex by lia. by rewrite E.
  - repeat apply List.Forall_cons; [apply print_uint_word; lia|by apply bytes_word|exact (List.Forall_nil _)].
Qed.

Lemma read_memory_answer q d address n result b :
  is_word q -> 0 <= address < 2 ^ 32 -> Z.of_nat n < 2 ^ 32 ->
  read_memory_loop n (co_bus (db_core d)) address (u32 (address + Z.of_nat n)) (hex address) = Some (result, b) ->
  handle (command q "read_memory" [hex address; print_uint 10 false (Z.of_nat n)]) d =
    Some (d <| db_core ::= fun c => c <| co_bus := b |> |> <| db_replies ::= fun l => l ++ [reply q "read_memory" result] |>).
Proof.
  intros Hq Ha Hn E. rewrite (handle_words _ q "read_memory" [hex address; print_uint 10 false (Z.of_nat n)] socket_cmd_read_memory);
    [|apply command_words; [done|solve_command|]|reflexivity].
  - unfold socket_cmd_read_memory. rewrite (read_hex address), read_print, Nat2Z.id by lia. by rewrite E.
  - repeat apply List.Forall_cons; [apply print_uint_word; lia..|exact (List.Forall_nil _)].
Qed.

(** C35: what [write_memory] writes, [read_memory] reads: the bytes sent as pairs
    of hexadecimal digits come back in the answer, in their order, and no other
    byte of the memory changes. *)
Theorem remote_memory p q d address vals :
  is_word p -> is_word q -> vals <> [] -> Forall (fun v => 0 <= v < 256) vals ->
  bus_ok (co_bus (db_core d)) -> 0 <= address -> address + Z.of_nat (length vals) < 2 ^ 32 ->
  in_memory (co_bus (db_core d)) address (length vals) ->
  exists d1 d2,
    handle (command p "write_memory" [hex address; mjoin (byte_hex <$> vals)]) d = Some d1 /\
    handle (command q "read_memory" [hex address; print_uint 10 false (Z.of_nat (length vals))]) d1 = Some d2 /\
    db_replies d2 = db_replies d ++ [reply p "write_memory" (str "ok"); reply q "read_memory" (hex address ++ listing vals)] /\
    (forall a, ~ (address <= a < address + Z.of_nat (length vals)) -> bus_byte (co_bus (db_core d2)) a = bus_byte (co_bus (db_core d)) a).
Proof.
  intros Hp Hq Hne Hv Hok H0 Hl Hm.
  destruct (write_memory_loop_spec vals (co_bus (db_core d)) address 0) as (b & E & Hokb & M & B & O); try done; rewrite ?Z.add_0_r; try done.
  rewrite Z.add_0_r in B, O. eexists _, _. split; [apply write_memory_answer; try done; lia|]. split.
  { apply (read_memory_answer q _ address (length vals) (hex address ++ listing vals) b); try done; try lia.
    rewrite u32_small by lia. apply read_memory_loop_spec; try done. intros i Hi. by apply M, Hm. }
  split; [|done]. change (db_replies (_ <| db_replies ::= _ |>)) with ((db_replies d ++ [reply p "write_memory" (str "ok")]) ++ [reply q "read_memory" (hex address ++ listing vals)]).
  by rewrite <- app_assoc.
Qed.

(** * The status *)

(** C36: [get_pipeline_status] shows the pipeline.  After any number of cycles from
    reset the walks over the circular buffers end; the answer, which is
    all that changes, is the text of an object with the instructions on their way to decode and to rename, those in the
    ports, in the issue queue and in the queue of every unit, each list in the order
    of the queue, and the entries of the reorder buffer with their ids, oldest
    first; the latter determine the contents of the reorder buffer. *)
Theorem pipeline_status_shows p n c0 c d :
  core_made c0 -> front_sound c0 -> core_reset c0 = Some c -> cycles n c = Some (db_core d) -> is_word p ->
  exists j fd dr,
    handle (command p "get_pipeline_status" []) d = Some (d <| db_replies ::= fun l => l ++ [reply p "get_pipeline_status" (dump j)] |>) /\
    fifo_refines (co_fetch_decode_fifo (db_core d)) fd /\ fifo_refines (co_decode_rename_fifo (db_core d)) dr /\
    shows (db_core d) (q_items fd) (q_items dr) j.
Proof.
  intros M F E0 E Hp. pose proof (core_run_inv _ _ _ _ _ _ _ (core_reset_inv _ _ M E0) E) as [[Sh _ _ _] Hr _ _ _].
  destruct (core_run_front _ _ _ _ _ _ _ (core_reset_front _ _ F E0) E) as [[fd Hf] [dr Hd]].
  destruct (pipeline_json_shows (db_feedback d) (db_core d) fd dr Sh Hr Hf Hd) as (j & Ej & Hj). exists j, fd, dr. split; [|done].
  rewrite (handle_words _ p "get_pipeline_status" [] (socket_cmd_get_pipeline_status dump));
    [|apply command_words; [done|solve_command|exact (List.Forall_nil _)]|reflexivity].
  unfold socket_cmd_get_pipeline_status. cbn [length Nat.eqb negb]. by rewrite Ej.
Qed.
End spec.

(** * The program of [Core.v] under the debugger *)

(** The loop has stopped for the first command. *)
Definition remote_demo : option debugger :=
  csr ← csrfile_init (mk_char_fifos [] []);
  d ← run_start true (core_static (program_bus (encode <$> demo_program)) csr);
  run_events (fun _ => []) checkpoint_zero (repeat 0 4) (0, 0) 0 [ev_go] d.

Definition waitsb (d : debugger) : bool :=
  match db_phase d with in_pause => db_pause_state d && db_gui_mode d && negb (db_program_stop d) | _ => false end.

Lemma waitsb_waits d : waitsb d = true -> waits d.
Proof.
  unfold waitsb. destruct (db_phase d) eqn:E; try done. intros [[H1 H2]%andb_true_iff H3]%andb_true_iff.
  split; try done. by destruct (db_program_stop d).
Qed.

Abbreviation demo_cycles := (core_run checkpoint_zero (repeat 0 4) (0, 0) 0).

Definition no_commit (j : nat) (c : core) : bool := match demo_cycles j c with Some c => negb (committed_now c) | None => true end.

(** The first commit is in the eleventh cycle. *)
Lemma remote_demo_ready :
  exists d c1 c11, remote_demo = Some d /\ waits d /\ demo_cycles 1 (db_core d) = Some c1 /\
    demo_cycles 11 (db_core d) = Some c11 /\ committed_now c11 = true /\
    (forall j c, (0 < j <= 10)%nat -> demo_cycles j (db_core d) = Some c -> committed_now c = false).
Proof.
  assert ((d ← remote_demo; c1 ← demo_cycles 1 (db_core d); c11 ← demo_cycles 11 (db_core d);
           Some (waitsb d, committed_now c11, forallb (fun j => no_commit j (db_core d)) (seq 0 11)))
          = Some (true, true, true)) as H by (vm_compute; reflexivity).
  apply bind_Some in H as (d & Ed & H). apply bind_Some in H as (c1 & E1 & H). apply bind_Some in H as (c11 & E11 & H).
  apply (inj Some) in H. apply pair_equal_spec in H as [H H3]. apply pair_equal_spec in H as [H1 H2]. exists d, c1, c11.
  refine (conj Ed (conj (waitsb_waits _ H1) (conj E1 (conj E11 (conj H2 _))))). intros j c Hj Hc.
  rewrite forallb_forall in H3. specialize (H3 j). unfold no_commit in H3. rewrite Hc in H3.
  destruct (committed_now c); [|done]. exfalso. apply diff_false_true, H3, in_seq. lia.
Qed.

Lemma remote_steps_witness :
  exists d c d', demo_cycles 11 (db_core d) = Some c /\
    run_events (fun _ => []) checkpoint_zero (repeat 0 4) (0, 0) 0
      (ev_message (command (str "1") "stepcommit" []) :: repeat ev_go 12) d = Some d' /\ waits d' /\ db_core d' = c.
Proof.
  destruct remote_demo_ready as (d & _ & c & _ & W & _ & E & Hc & Hn).
  destruct (remote_steps (fun _ => []) checkpoint_zero (repeat 0 4) (0, 0) 0 (str "1") d c W) as [_ H];
    [by apply is_word_check|].
  destruct (H 10%nat E Hc Hn) as (d' & E' & W' & Hd & _). exact (ex_intro _ d (ex_intro _ c (ex_intro _ d' (conj E (conj E' (conj W' Hd)))))).
Defined.

Lemma remote_continue_pause_witness :
  exists d c d' d'', demo_cycles 11 (db_core d) = Some c /\
    run_events (fun _ => []) checkpoint_zero (repeat 0 4) (0, 0) 0
      (ev_message (command (str "1") "continue" []) :: repeat ev_go 11) d = Some d' /\
    run_events (fun _ => []) checkpoint_zero (repeat 0 4) (0, 0) 0
      [ev_arrive (command (str "2") "pause" []); ev_go; ev_message (command (str "2") "pause" [])] d' = Some d'' /\
    waits d'' /\ db_core d'' = c.
Proof.
  destruct remote_demo_ready as (d & _ & c & _ & W & _ & E & _ & _).
  destruct (remote_continue_pause (fun _ => []) checkpoint_zero (repeat 0 4) (0, 0) 0 (str "1") (str "2") d 10 c W)
    as (d' & d'' & E1 & _ & _ & E2 & W' & Hd & _); [by apply is_word_check..|exact E|]. 
  exact (ex_intro _ d (ex_intro _ c (ex_intro _ d' (ex_intro _ d'' (conj E (conj E1 (conj E2 (conj W' Hd)))))))).
Defined.

Lemma remote_pause_lost_witness :
  exists d c d', demo_cycles 11 (db_core d) = Some c /\
    run_events (fun _ => []) checkpoint_zero (repeat 0 4) (0, 0) 0
      (ev_arrive (command (str "2") "pause" []) :: ev_message (command (str "1") "continue" []) :: repeat ev_go 11) d = Some d' /\
    db_core d' = c.
Proof.
  destruct remote_demo_ready as (d & _ & c & _ & W & _ & E & _ & _).
  destruct (remote_pause_lost (fun _ => []) checkpoint_zero (repeat 0 4) (0, 0) 0 (str "1") (str "2") d 10 c W)
    as (d' & E1 & Hd & _); [by apply is_word_check..|exact E|].
  exact (ex_intro _ d (ex_intro _ c (ex_intro _ d' (conj E (conj E1 Hd))))).
Defined.

Definition memory_demo : debugger :=
  mk_debugger (core_static bus_demo (csrfile_new (mk_char_fifos [] []))) feedback_packs_zero true true false true false false false [] [] in_pause.

Lemma remote_memory_witness :
  exists d1 d2,
    socket_cmd_handle (fun _ => []) (str "1 write_memory 80000004 0aff") memory_demo = Some d1 /\
    socket_cmd_handle (fun _ => []) (str "2 read_memory 80000004 2") d1 = Some d2 /\
    db_replies d2 = [str "1 write_memory ok"; str "2 read_memory 80000004,a,ff"].
Proof.
  destruct (remote_memory (fun _ => []) (str "1") (str "2") memory_demo 0x80000004 [10; 255]) as (d1 & d2 & E1 & E2 & R & _).
  - by apply is_word_check.
  - by apply is_word_check.
  - done.
  - repeat (apply List.Forall_cons; [lia|]). exact (List.Forall_nil _).
  - exact bus_demo_ok.
  - lia.
  - cbn. lia.
  - intros i Hi. exists 0%nat. eexists _, _. cbn [length] in Hi. cbn [si_base si_size width_bytes].
    split; [reflexivity|]. split; [reflexivity|]. rewrite Z.mod_1_r. cbn. lia.
  - exists d1, d2. split; [exact E1|]. split; [exact E2|]. exact R.
Defined.

(** Eight cycles into the program of [Core.v]. *)
Lemma pipeline_status_shows_witness :
  exists c d j fd dr, core_demo demo_program = Some c /\ demo_cycles 8 c = Some (db_core d) /\
    socket_cmd_handle (fun _ => []) (command (str "1") "get_pipeline_status" []) d =
      Some (d <| db_replies ::= fun l => l ++ [reply (str "1") "get_pipeline_status" []] |>) /\ shows (db_core d) fd dr j.
Proof.
  assert ((c ← core_demo demo_program; c ← demo_cycles 8 c; Some tt) = Some tt) as H by (vm_compute; reflexivity).
  apply bind_Some in H as (c & E1 & H). apply bind_Some in H as (c' & E2 & _). pose proof E1 as E0.
  unfold core_demo in E0. apply bind_Some in E0 as (csr & _ & E0).
  pose (d := mk_debugger c' feedback_packs_zero true true false true false false false [] [] in_pause).
  destruct (pipeline_status_shows (fun _ => []) checkpoint_zero (repeat 0 4) (0, 0) 0 (str "1") 8 _ c d (core_static_made _ _) (core_static_front _ _) E0 E2
    ltac:(by apply is_word_check)) as (j & fd & dr & H & _ & _ & S).
  exact (ex_intro _ c (ex_intro _ d (ex_intro _ j (ex_intro _ _ (ex_intro _ _ (conj E1 (conj E2 (conj H S)))))))).
Defined.
